(* ===== verification/_CoqProject ===== *)
-Q . S2P
Prelude.v
Double.v
RingBuffer.v
RingIter.v
LinearBuffer.v
IoDevice.v
Fifo.v
I2cDev.v
Converter.v
Max7311.v
Max1161x.v
Mcp4725.v
Mmio.v
GpioBcm2835.v
GpioHx.v
GpioRp1.v
TSQueue.v
FileDevice.v
ThreadSafeBuffer.v
ArduinoTerminal.v
SocPwm.v
PwmBcm2835.v
PwmHx.v
PwmRp1.v
Mcp4728.v
Gpio2.v
GpioPin.v
PinBcm2711.v
PinRp1.v
Text.v
ArduinoPrint.v
Clock.v
ArduinoStream.v
SpiDev.v
SerialPort.v
StdStream.v
Popl.v
ConfigFile.v
GpioPwm.v
Connector.v
ArduinoCore.v
ArduinoBits.v
Volts.v
PidoConv.v
Pido.v
System.v
Database.v
Board.v
GpioDatabase.v
Buses.v
Pinfo.v
Syslog.v
Sketch.v
