(* ===== verification/Prelude.v ===== *)
(** * Verification of the Piduino library

    Piduino is a C++ library that gives a Linux single-board computer the
    interface of an Arduino: GPIO pins driven through memory-mapped registers or
    through the character device of the kernel, I2C, SPI and serial devices,
    analogue and digital converters on the I2C bus, PWM in hardware and in
    software, a database of boards, and the containers, texts and options these
    share; the tools pido and pinfo are programs over it.  This development is a
    shallow embedding: a modelled member function is a definition that follows
    the source, and the theorems are about those definitions.

    ** The program and how its parts meet

    A device class keeps its data in a private part ([Device::Private]) that
    derived classes extend, and forwards to virtual functions of that part.
      - [IoDevice] is the base of what can be opened: a mode, an error number
        and text.  [FileDevice], [FileStream] and [SerialPort] extend it by a
        descriptor, [I2cDev] and [SpiDev] by a bus, [Converter] by channels.
      - [I2cDev] queues messages whose bytes live in two [Fifo] objects and
        hands them to the kernel in one transfer.  The converters [Max7311],
        [Max1161x], [Mcp4725] and [Mcp4728] implement the virtual functions of
        [Converter] by transactions on an [I2cDev]; so does [Wire].
      - [SocPwm] and [GpioPwm] are converters too: one drives the registers of
        a chip, the other one a pin from a thread of its own.
      - [GpioDevice] is the base of the GPIO drivers; [Bcm2835Gpio],
        [AllWinnerHxGpio] and [Rp1Gpio] implement it on registers reached
        through an [IoMap].
      - A [Pin] works through the driver of the GPIO or through a line of the
        kernel ([GpioDev2]); [Connector] and [Gpio] share the pins and number
        them.  The descriptors of which they are made come from the [Database],
        which knows the [Board] from what [System] reads of the host.
      - The Arduino functions and classes ([Print], [Stream], [Wire], [SPI],
        [HardwareSerial]) and the tools are clients of all these.

    ** Files

    The ground:
      - Prelude.v, this file: machine integers as [Z] with their wrap, IEEE
        doubles, the state-and-exception monad [M] and its invariants [keeps],
        bit fields, arrays indexed by C integers, the hint databases.
      - Double.v: when a rounded quotient of doubles is exact.
      - Text.v, StdStream.v (src/string.cpp, include/piduino/string.h, and the
        standard streams): digits and numbers in text, the class [String].

    Containers and devices:
      - RingBuffer.v (include/piduino/ringbuffer.h): the circular buffer with
        the lifetime of every slot; it refines a bounded list over arbitrary
        sequences of operations ([ringbuffer_refines_queue]).  RingIter.v: its
        iterators and comparisons; a range visits what the buffer holds.
      - LinearBuffer.v (include/piduino/linearbuffer.h): the pointers of the class
        over a heap of blocks; no byte put into it can be read again.
      - IoDevice.v (src/iodevice.cpp), FileDevice.v (src/filedevice.cpp over
        [FileOs]): modes, flags and errors; no descriptor is leaked.
      - Fifo.v (include/piduino/fifo.h), I2cDev.v (src/i2c/i2cdev.cpp over
        [Kernel]): a write is one message with the bytes given, a register read
        is one transfer of two messages, and what is written is read back.
      - SpiDev.v (src/spi/spidev.cpp, src/arduino/spi/SPI.cpp over [SpiOs]): the
        queue holds addresses of [Transfer] objects, and the bus carries what
        the objects and their buffers hold when the transfer is made.
      - SerialPort.v (src/serial/serialport.cpp, src/filestream.cpp,
        src/terminal.cpp, src/arduino/serial/HardwareSerial.cpp over [TtyOs]):
        the settings reach the line.
      - TSQueue.v (include/piduino/tsqueue.h): the queue between threads as a
        step relation; every history is that of a sequential queue, and a
        waiting thread gets its element.
      - ThreadSafeBuffer.v (include/piduino/threadsafebuffer.h,
        src/terminalnotifier.cpp over [Tty]): the buffer of the reader thread.
      - ArduinoTerminal.v (src/arduino/Terminal.cpp, Console.cpp over [Sink]): what
        a sketch writes reaches the stream or is reported, without exceptions.

    Converters:
      - Converter.v, Volts.v (src/converter.cpp, src/converter_p.h): parameters,
        guards, clamping and modes over the class [ConverterImpl], and volts to
        codes and back over [AnalogImpl]; a code survives within one unit.
      - Max7311.v, Max1161x.v, Mcp4725.v, Mcp4728.v (src/ext): the drivers
        against the interface of their chip on the bus.

    GPIO:
      - Mmio.v (src/iomap.cpp, src/gpio/gpiodevice.cpp): mapping a window over
        [MapOs], registers over [Device].
      - GpioBcm2835.v, GpioHx.v, GpioRp1.v (src/arch/arm): the drivers.  Modes,
        pulls and drives are read back as set, an output shows what was written,
        no operation disturbs another pin, what a pin does not have is refused.
      - SocPwm.v (src/gpio/socpwm.cpp): the engine interface [PwmEngine] with
        its promise [PwmSpec]; PwmBcm2835.v, PwmHx.v, PwmRp1.v discharge it and
        show which frequency is set.  PwmBcm2835.v shows that any calls on one
        channel do what an abstract channel says and leave the other alone, and
        PwmRp1.v that the mapping its engines share lives as long as it must.
      - GpioPwm.v (src/gpio/gpiopwm.cpp, src/scheduler.cpp over [GenOs] and
        [SchedOs]): the thread of the software PWM interleaved with its caller;
        edges come in time, values are used, the pin is left low.
      - Gpio2.v (include/piduino/gpio2.h, src/gpio/gpio_dev2.cpp over [LineOs]):
        lines of the kernel; the pin device on a line refines an abstract line.
      - GpioPin.v (src/gpio/gpiopin.cpp over [PinDevice]): opening, holding and
        restoring; PinBcm2711.v and PinRp1.v discharge the interface for two
        drivers, of which the second does not keep the pull in every mode.
      - Connector.v (src/gpio/gpioconnector.cpp, src/gpio/gpio.cpp over
        [GpioDriver]): shared pins in a heap, numberings, opening and closing
        all pins, the printed table.

    Boards:
      - System.v (src/system.cpp, include/piduino/system.h): memory, processor,
        revision codes and their fields, release files, the process file.
      - Database.v (src/gpio/*-database.cpp over [Sql]): the tables and the
        descriptors; what is inserted is loaded.
      - Board.v (src/database.cpp, src/soc.cpp, src/manufacturer.cpp): the
        choice of the board and of the driver.
      - Buses.v (the classes [Info] of src/i2c/i2cdev.cpp, src/spi/spidev.cpp and
        src/serial/serialportinfo.cpp over [Udev]): the buses and ports that the
        host has, and their paths on the board.
      - GpioDatabase.v (the constructors of src/gpio/gpio.cpp): the pin that the
        GPIO has at a place is the one the tables put there.

    Arduino functions, options and tools:
      - ArduinoPrint.v, ArduinoStream.v (src/arduino/Print.cpp, Stream.cpp,
        IPAddress.cpp over [PrintDev], [StreamDev] and [Source]): printing,
        searching and parsing; what is printed is parsed back.
      - Clock.v (src/clock.cpp), ArduinoCore.v (src/arduino/Core.cpp, WMath.cpp,
        i2c/Wire.cpp, compat/strlcat_strlcpy.c).
      - ArduinoBits.v (include/piduino/arduino/binary.h, WCharacter.h and the macros
        of Arduino.h): binary constants, bits, classes of characters.
      - Popl.v (include/piduino/popl.h), ConfigFile.v
        (include/piduino/configfile.h): options and configuration files, whose
        texts are read back.
      - PidoConv.v, Pido.v (utils/pido over [ToolImpl], [PwmTool] and
        [QuietDriver]): every command of the tool and its [main]; a session
        leaves the pins as the commands say.
      - Pinfo.v (utils/pinfo over [Udev]): the options of the tool, whole or cut
        short, and what it prints; one request prints that value alone.
      - Sketch.v (include/piduino/arduino/Piduino.h, src/piduino.cpp): the program
        around a sketch; an interruption leaves the pins closed.
      - Syslog.v (src/syslog.cpp): the stream of the log and its buffer; each
        flush is one message, with the text written since the flush before.

    ** Conventions
      - An operation on an object is a function from its state to an outcome and
        a new state; [Throw] carries the exception class, and [UB] marks what
        the C++ standard leaves undefined (an access outside an array or a
        mapping, a dead object, a shift out of range).  A theorem that gives the
        outcome [Ok] therefore also says that no such access happens.
      - Code outside the repository is a parameter: the kernel, the chips, the
        registers, the clock, udev, the database server.  Each is a class of
        operations, and a second class (often named with [Ok]) has the laws,
        which are what the manuals document; each file has an instance that
        satisfies them, on which its theorems are evaluated.
      - Threads are step relations or sequences of accesses that are
        interleaved; what is held under one mutex is one step.
      - A [char] is unsigned and a [long] has 64 bits, as on the 64-bit boards
        of the library, unless a width is a parameter.
      - The number of a pin, [pin->mcuNumber ()], is an argument of the driver
        functions.  The Allwinner driver clears and sets a field in two
        accesses, and so does the model.
      - The tables of the database are lists of rows; a query gives its rows in
        an order the server chooses, and the theorems hold for every order.

    ** Bounds and fuel
    Loops that are not structural have fuel, and running out of it is an error
    of its own, [OutOfFuel], or no answer at all; the theorems say how much is
    enough.  Loops over a text or its digits ([split_from], [itoa_loop],
    [print_loop], [replace], [read_loop]) have one unit for each character;
    [find_port] has nine, the length of the port table; [round_up] has 64, the
    bits of the memory size, and [grow] 64, the bits of the size of a block;
    [readData_vec] and its relatives, and the loops over iterators, have one for
    each element; the loops of a stream ([peekNextDigit], [parse_loop], [find_loop],
    [read_string]) need one for each byte that comes in time, [timed_loop] one
    for each look at the clock before the time is over; [wait_while] needs as
    many as the clock of a chip takes to stop, [join] with [stop_fuel] the steps
    in which the thread of the software PWM sees that it should stop;
    [print_rows] the rows of a connector; [until_signal] the turns before the
    user stops the tool, a parameter of its theorems.

    ** Not modelled
    Delays, debug output and the stream operators of messages change no state
    and are left out, as are the macros on angles and the pages of help and
    version of the tools.  So are the redirection of the standard streams to the
    log and its mask of priorities, which hand pointers and numbers to the
    system; the reading through the stream buffer of a file, which is that of the
    standard library; and the lock of an SPI transaction, which only wraps a mutex.
    What udev knows of a device and what the system does with a message of its
    log are outside: the classes ask for them, and the requests are modelled.
    The helpers on the level of types (make_unique, the macros of the private
    parts) have no behaviour.  Opening the session of the database is a call of
    its library.  Examples, templates and tests are programs over the library.
    What else is missing of a component that is modelled in part is accessors,
    printing, or registration in a factory. *)
From stdpp Require Export base numbers list gmap strings fin_maps.
From Stdlib Require Export ZArith Lia.
From Stdlib Require Import SpecFloat.
#[global] Open Scope Z_scope.

#[global] Arguments Z.eqb : simpl never.
#[global] Arguments Z.ltb : simpl never.
#[global] Arguments Z.leb : simpl never.
#[global] Arguments Z.land : simpl never.
#[global] Arguments Z.lor : simpl never.
#[global] Arguments Z.lxor : simpl never.
#[global] Arguments Z.ldiff : simpl never.
#[global] Arguments Z.lnot : simpl never.
#[global] Arguments Z.shiftl : simpl never.
#[global] Arguments Z.shiftr : simpl never.
#[global] Arguments Z.testbit : simpl never.
#[global] Arguments Z.modulo : simpl never.
#[global] Arguments Z.div : simpl never.

(** * Machine integers

    An unsigned w-bit C integer is a [Z] in [0, 2^w); every operation of the
    source that can leave that range is followed by one of these wraps. *)
Definition u8 (x : Z) : Z := x mod 2 ^ 8.
Definition u16 (x : Z) : Z := x mod 2 ^ 16.
Definition u32 (x : Z) : Z := x mod 2 ^ 32.
Definition u64 (x : Z) : Z := x mod 2 ^ 64.

(** Two's-complement reading of the low 32 bits: the type [int]. *)
Definition i32 (x : Z) : Z := (x + 2 ^ 31) mod 2 ^ 32 - 2 ^ 31.

Lemma u8_small x : 0 <= x < 2 ^ 8 -> u8 x = x.
Proof. apply Z.mod_small. Qed.
Lemma u16_small x : 0 <= x < 2 ^ 16 -> u16 x = x.
Proof. apply Z.mod_small. Qed.
Lemma u32_small x : 0 <= x < 2 ^ 32 -> u32 x = x.
Proof. apply Z.mod_small. Qed.
Lemma u64_small x : 0 <= x < 2 ^ 64 -> u64 x = x.
Proof. apply Z.mod_small. Qed.

Lemma u8_bound x : 0 <= u8 x < 2 ^ 8.
Proof. apply Z.mod_pos_bound. lia. Qed.
Lemma u16_bound x : 0 <= u16 x < 2 ^ 16.
Proof. apply Z.mod_pos_bound. lia. Qed.
Lemma u32_bound x : 0 <= u32 x < 2 ^ 32.
Proof. apply Z.mod_pos_bound. lia. Qed.
Lemma u64_bound x : 0 <= u64 x < 2 ^ 64.
Proof. apply Z.mod_pos_bound. lia. Qed.

(** * Doubles

    A C++ [double] is an IEEE 754 binary64 value of [SpecFloat].  A decimal
    literal [n/d] with [n] and [d] exact is the quotient rounded to nearest. *)
Definition double : Type := spec_float.
Definition dbl_int (n : Z) : double := binary_normalize 53 1024 n 0 false.
Definition dbl_lit (n d : Z) : double := SFdiv 53 1024 (dbl_int n) (dbl_int d).
Definition dbl_ltb : double -> double -> bool := SFltb.
Definition dbl_leb : double -> double -> bool := SFleb.

(** * Outcomes and the state-and-exception monad

    A member function that mutates its object and may throw is a function from
    the state to an outcome and the state left behind.  [UB] is the outcome of
    an access the C++ standard leaves undefined (outside an array, to a
    destroyed object); a theorem that rules it out is a memory-safety claim.
    [OutOfFuel] is no outcome of the code: a loop of the model has run out of the
    rounds it was given. *)
Inductive exn : Type :=
  | OutOfRange
  | InvalidArgument
  | SystemError (errno : Z)
  | RuntimeError
  | DomainError
  | UB
  | OutOfFuel.

Inductive outcome (A : Type) : Type :=
  | Ok (a : A)
  | Throw (e : exn).
Arguments Ok {A} a.
Arguments Throw {A} e.

#[export] Instance exn_eq_dec : EqDecision exn.
Proof. solve_decision. Defined.

Definition M (S A : Type) : Type := S -> outcome A * S.

#[export] Instance M_ret S : MRet (M S) := fun A a s => (Ok a, s).
#[export] Instance M_bind S : MBind (M S) := fun A B k m s =>
  match m s with
  | (Ok a, s') => k a s'
  | (Throw e, s') => (Throw e, s')
  end.

Definition throw {S A} (e : exn) : M S A := fun s => (Throw e, s).
Definition gets {S A} (f : S -> A) : M S A := fun s => (Ok (f s), s).
Definition modify {S} (f : S -> S) : M S unit := fun s => (Ok tt, f s).

(** A member object's operation, run on the part of the state it lives in. *)
Definition zoom {S T A} (get : S -> T) (set : T -> S -> S) (m : M T A) : M S A := fun s =>
  match m (get s) with (o, t) => (o, set t s) end.

(** [std::map::at]: the exception when the key is absent. *)
Definition at_map {S A} (o : option A) : M S A :=
  match o with Some a => mret a | None => throw OutOfRange end.

Lemma M_bind_ok S A B (m : M S A) (k : A -> M S B) s a s' :
  m s = (Ok a, s') -> (m ≫= k) s = k a s'.
Proof. intros H. unfold mbind, M_bind. by rewrite H. Qed.

Lemma M_bind_throw S A B (m : M S A) (k : A -> M S B) s e s' :
  m s = (Throw e, s') -> (m ≫= k) s = (Throw e, s').
Proof. intros H. unfold mbind, M_bind. by rewrite H. Qed.

Lemma zoom_eq {S T A} (get : S -> T) (set : T -> S -> S) (m : M T A) s o t :
  m (get s) = (o, t) -> zoom get set m s = (o, set t s).
Proof. intros H. unfold zoom. by rewrite H. Qed.

(** Unfold one layer of monadic plumbing. *)
(** An invariant of the state that a computation keeps, whatever its outcome. *)
Definition keeps {S A} (I : S -> Prop) (m : M S A) : Prop := forall s, I s -> I (m s).2.

Lemma keeps_ret {S A} (I : S -> Prop) (a : A) : keeps I (mret a : M S A).
Proof. intros s H. exact H. Qed.
Lemma keeps_throw {S A} (I : S -> Prop) e : keeps I (throw e : M S A).
Proof. intros s H. exact H. Qed.
Lemma keeps_gets {S A} (I : S -> Prop) (f : S -> A) : keeps I (gets f).
Proof. intros s H. exact H. Qed.
Lemma keeps_modify {S} (I : S -> Prop) (f : S -> S) : (forall s, I s -> I (f s)) -> keeps I (modify f).
Proof. intros H s Hs. exact (H s Hs). Qed.
Lemma keeps_bind {S A B} (I : S -> Prop) (m : M S A) (k : A -> M S B) :
  keeps I m -> (forall a, keeps I (k a)) -> keeps I (m ≫= k).
Proof.
  intros Hm Hk s Hs. unfold mbind, M_bind. specialize (Hm s Hs). destruct (m s) as [[a|e] s']; [|exact Hm].
  by apply Hk.
Qed.
Create HintDb keeps.
#[export] Hint Resolve keeps_ret keeps_throw keeps_gets keeps_bind : keeps.

Ltac munfold :=
  unfold mbind, mret, M_bind, M_ret, gets, modify, throw, at_map in *; cbn in *.

(** Case analysis on the boolean comparisons of the goal. *)
Ltac case_bool :=
  repeat match goal with
  | |- context [?a =? ?b] => destruct (Z.eqb_spec a b)
  | |- context [?a <? ?b] => destruct (Z.ltb_spec a b)
  | |- context [?a <=? ?b] => destruct (Z.leb_spec a b)
  end.

(** * Bit fields

    [field r sh w] is what the source writes [(r >> sh) & mask], and
    [set_field r sh w v] what it writes [(r & ~(mask << sh)) | (v << sh)]. *)
Definition field (r sh w : Z) : Z := Z.land (Z.shiftr r sh) (Z.ones w).
Definition set_field (r sh w v : Z) : Z :=
  Z.lor (Z.ldiff r (Z.shiftl (Z.ones w) sh)) (Z.shiftl v sh).

Lemma testbit_high v w n : 0 <= v < 2 ^ w -> w <= n -> Z.testbit v n = false.
Proof.
  intros [H0 H1] Hn. destruct (decide (v = 0)) as [->|Hv]; [apply Z.bits_0|].
  assert (0 <= w) by (destruct (Z.le_gt_cases 0 w); [done|]; rewrite Z.pow_neg_r in H1; lia).
  apply Z.bits_above_log2; [done|].
  apply Z.log2_lt_pow2 in H1; lia.
Qed.

Lemma bits_bound v w : 0 <= w -> 0 <= v -> (forall n, w <= n -> Z.testbit v n = false) -> v < 2 ^ w.
Proof.
  intros Hw Hv Hb. destruct (decide (v = 0)) as [->|Hne]; [by apply Z.pow_pos_nonneg|].
  apply Z.log2_lt_pow2; [lia|].
  destruct (Z.lt_ge_cases (Z.log2 v) w) as [|Hge]; [done|].
  specialize (Hb _ Hge). rewrite Z.bit_log2 in Hb; [done|lia].
Qed.

Lemma testbit_field r sh w n :
  0 <= n -> 0 <= sh -> 0 <= w -> Z.testbit (field r sh w) n = Z.testbit r (n + sh) && (n <? w).
Proof.
  intros. unfold field. rewrite Z.land_spec, Z.shiftr_spec by done.
  rewrite Z.testbit_ones by done. by destruct (Z.leb_spec 0 n); [|lia].
Qed.

Lemma testbit_set_field r sh w v n :
  0 <= n -> 0 <= sh -> 0 <= w -> 0 <= v < 2 ^ w ->
  Z.testbit (set_field r sh w v) n =
  if (sh <=? n) && (n <? sh + w) then Z.testbit v (n - sh) else Z.testbit r n.
Proof.
  intros Hn Hsh Hw Hv. unfold set_field.
  rewrite Z.lor_spec, Z.ldiff_spec, !Z.shiftl_spec by done.
  rewrite Z.testbit_ones by done.
  destruct (Z.leb_spec sh n), (Z.ltb_spec n (sh + w)); simpl.
  - rewrite (proj2 (Z.leb_le 0 (n - sh))), (proj2 (Z.ltb_lt (n - sh) w)) by lia.
    by rewrite andb_false_r.
  - rewrite (proj2 (Z.ltb_ge (n - sh) w)), (testbit_high v w (n - sh)) by (done || lia).
    by rewrite andb_false_r, orb_false_r, andb_true_r.
  - rewrite (proj2 (Z.leb_gt 0 (n - sh))), (Z.testbit_neg_r v) by lia.
    by rewrite orb_false_r, andb_true_r.
  - rewrite (proj2 (Z.leb_gt 0 (n - sh))), (Z.testbit_neg_r v) by lia.
    by rewrite orb_false_r, andb_true_r.
Qed.

(** Reading back a field that was just set. *)
Lemma field_set_same r sh w v :
  0 <= sh -> 0 <= w -> 0 <= v < 2 ^ w -> field (set_field r sh w v) sh w = v.
Proof.
  intros Hsh Hw Hv. apply Z.bits_inj'. intros n Hn.
  rewrite testbit_field, testbit_set_field by lia.
  destruct (Z.ltb_spec n w).
  - rewrite (proj2 (Z.leb_le sh (n + sh))), (proj2 (Z.ltb_lt (n + sh) (sh + w))) by lia.
    rewrite andb_true_r. simpl. f_equal. lia.
  - by rewrite andb_false_r, (testbit_high v w n).
Qed.

(** Setting a field leaves every field disjoint from it as it was. *)
Lemma field_set_other r sh w v sh' w' :
  0 <= sh -> 0 <= w -> 0 <= v < 2 ^ w -> 0 <= sh' -> 0 <= w' ->
  sh' + w' <= sh \/ sh + w <= sh' ->
  field (set_field r sh w v) sh' w' = field r sh' w'.
Proof.
  intros Hsh Hw Hv Hsh' Hw' Hd. apply Z.bits_inj'. intros n Hn.
  rewrite !testbit_field, testbit_set_field by lia.
  destruct (Z.ltb_spec n w'); [|by rewrite !andb_false_r].
  destruct (Z.leb_spec sh (n + sh')), (Z.ltb_spec (n + sh') (sh + w)); simpl; done || lia.
Qed.

Lemma set_field_bound r sh w v k :
  0 <= r < 2 ^ k -> 0 <= sh -> 0 <= w -> sh + w <= k -> 0 <= v < 2 ^ w ->
  0 <= set_field r sh w v < 2 ^ k.
Proof.
  intros Hr Hsh Hw Hk Hv.
  assert (0 <= set_field r sh w v).
  { unfold set_field. apply Z.lor_nonneg. split.
    - apply Z.ldiff_nonneg. lia.
    - apply Z.shiftl_nonneg. lia. }
  split; [done|]. apply bits_bound; [lia|done|]. intros n Hn.
  rewrite testbit_set_field by lia.
  rewrite (proj2 (Z.ltb_ge n (sh + w))), andb_false_r by lia.
  by apply (testbit_high r k).
Qed.

Lemma field_bound r sh w : 0 <= w -> 0 <= field r sh w < 2 ^ w.
Proof. intros Hw. unfold field. rewrite Z.land_ones by done. apply Z.mod_pos_bound. lia. Qed.

(** [r & ~m] on a [k]-bit register, with the complement taken at width [k]. *)
Lemma land_not_ldiff r m k :
  0 <= k -> 0 <= r < 2 ^ k -> Z.land r ((Z.lnot m) mod 2 ^ k) = Z.ldiff r m.
Proof.
  intros Hk Hr. apply Z.bits_inj'. intros n Hn. rewrite Z.land_spec, Z.ldiff_spec.
  destruct (Z.lt_ge_cases n k).
  - by rewrite Z.mod_pow2_bits_low, Z.lnot_spec.
  - by rewrite (testbit_high r k n).
Qed.

(** The same field update done in two accesses: clear, then set. *)
Lemma field_clear_same r sh w w' :
  0 <= sh -> 0 <= w' <= w -> field (Z.ldiff r (Z.shiftl (Z.ones w) sh)) sh w' = 0.
Proof.
  intros Hsh Hw. apply Z.bits_inj'. intros n Hn.
  rewrite testbit_field, Z.ldiff_spec, Z.shiftl_spec, Z.testbit_ones, Z.bits_0 by lia.
  case_bool; cbn; rewrite ?andb_false_r, ?andb_true_r; done || lia.
Qed.

Lemma field_clear_other r sh w sh' w' :
  0 <= sh -> 0 <= w -> 0 <= sh' -> 0 <= w' -> sh' + w' <= sh \/ sh + w <= sh' ->
  field (Z.ldiff r (Z.shiftl (Z.ones w) sh)) sh' w' = field r sh' w'.
Proof.
  intros Hsh Hw Hsh' Hw' Hd. apply Z.bits_inj'. intros n Hn.
  rewrite !testbit_field, Z.ldiff_spec, Z.shiftl_spec, Z.testbit_ones by lia.
  case_bool; cbn; rewrite ?andb_false_r, ?andb_true_r; done || lia.
Qed.

Lemma field_lor r x sh w :
  0 <= sh -> 0 <= w -> field (Z.lor r x) sh w = Z.lor (field r sh w) (field x sh w).
Proof. intros. unfold field. by rewrite Z.shiftr_lor, Z.land_lor_distr_l. Qed.

Lemma field_shiftl_same v sh w : 0 <= sh -> 0 <= w -> 0 <= v < 2 ^ w -> field (Z.shiftl v sh) sh w = v.
Proof.
  intros Hsh Hw Hv. unfold field. rewrite Z.shiftr_shiftl_l, Z.sub_diag, Z.shiftl_0_r by done.
  rewrite Z.land_ones by done. by apply Z.mod_small.
Qed.

Lemma field_shiftl_other v sh w sh' w' :
  0 <= sh -> 0 <= w -> 0 <= v < 2 ^ w -> 0 <= sh' -> 0 <= w' -> sh' + w' <= sh \/ sh + w <= sh' ->
  field (Z.shiftl v sh) sh' w' = 0.
Proof.
  intros Hsh Hw Hv Hsh' Hw' Hd. apply Z.bits_inj'. intros n Hn.
  rewrite testbit_field, Z.shiftl_spec, Z.bits_0 by lia.
  destruct (Z.ltb_spec n w'); [|by rewrite andb_false_r]. rewrite andb_true_r.
  destruct (Z.lt_ge_cases (n + sh' - sh) 0); [by apply Z.testbit_neg_r|].
  apply (testbit_high v w); lia.
Qed.

(** * Arrays indexed by C integers *)
Definition lget {A} (l : list A) (i : Z) : option A :=
  if i <? 0 then None else l !! Z.to_nat i.
Definition lset {A} (l : list A) (i : Z) (x : A) : list A := <[Z.to_nat i := x]> l.

Lemma lget_is_Some {A} (l : list A) i : is_Some (lget l i) <-> 0 <= i < Z.of_nat (length l).
Proof.
  unfold lget. destruct (Z.ltb_spec i 0).
  - split; [by intros []|lia].
  - rewrite lookup_lt_is_Some. lia.
Qed.

Lemma lget_lset_eq {A} (l : list A) i x :
  0 <= i < Z.of_nat (length l) -> lget (lset l i x) i = Some x.
Proof.
  intros Hi. unfold lget, lset. destruct (Z.ltb_spec i 0); [lia|].
  apply list_lookup_insert_eq. lia.
Qed.

Lemma lget_lset_ne {A} (l : list A) i j x :
  0 <= i -> i <> j -> lget (lset l i x) j = lget l j.
Proof.
  intros Hi Hij. unfold lget, lset. destruct (Z.ltb_spec j 0); [done|].
  apply list_lookup_insert_ne. lia.
Qed.

Lemma length_lset {A} (l : list A) i x : length (lset l i x) = length l.
Proof. apply length_insert. Qed.

Lemma mapM_app_Some {A B} (f : A -> option B) (l1 l2 : list A) (k1 k2 : list B) :
  mapM f l1 = Some k1 -> mapM f l2 = Some k2 -> mapM f (l1 ++ l2) = Some (k1 ++ k2).
Proof. rewrite !mapM_Some. apply Forall2_app. Qed.

(** * Automation: ranges of wrapped values and of fields *)
Create HintDb piduino discriminated.
#[export] Hint Resolve u8_bound u16_bound u32_bound u64_bound field_bound : piduino.

