(* ===== verification/Double.v ===== *)
(** * Rounding of doubles

    The library divides in double precision and rounds up where it looks for a
    clock divisor.  The doubles are those of [SpecFloat]; this file shows that
    [ceil (c / f / r)], with both quotients rounded to nearest, is the exact
    integer for the clocks, frequencies and ranges that occur, so that the
    drivers can be reasoned about in integers. *)
From Stdlib Require Import SpecFloat.
From S2P Require Import Prelude.

(** [ceil] followed by the conversion to an unsigned integer of [w] bits, which
    is undefined when the value does not fit. *)
Definition dbl_ceil (x : double) : option Z :=
  match x with
  | S754_zero _ => Some 0
  | S754_finite s m e =>
      let v := if s then Z.neg m else Z.pos m in
      Some (if 0 <=? e then v * 2 ^ e else - (- v / 2 ^ (- e)))
  | _ => None
  end.
Definition dbl_ceil_to (w : Z) (x : double) : option Z :=
  v ← dbl_ceil x; if (0 <=? v) && (v <? 2 ^ w) then Some v else None.
Definition dbl_div : double -> double -> double := SFdiv 53 1024.
Definition dbl_mul : double -> double -> double := SFmul 53 1024.
Definition dbl_add : double -> double -> double := SFadd 53 1024.
Definition dbl_sub : double -> double -> double := SFsub 53 1024.
(** The conversion to an integer type, which drops the fraction and is undefined
    outside of the range of the type. *)
Definition dbl_trunc (lo hi : Z) (x : double) : option Z :=
  v ← match x with
      | S754_zero _ => Some 0
      | S754_finite s m e =>
          let v := if 0 <=? e then Z.pos m * 2 ^ e else Z.pos m / 2 ^ (- e) in Some (if s then - v else v)
      | _ => None
      end;
  if (lo <=? v) && (v <? hi) then Some v else None.

(** ** Locations

    [located num den q l]: [q] is the integer part of [num / den] and [l] says
    where in the unit interval the rest lies. *)
Definition located (num den q : Z) (l : location) : Prop :=
  0 < den /\
  match l with
  | loc_Exact => num = q * den
  | loc_Inexact c => q * den < num < (q + 1) * den /\ (2 * (num - q * den) ?= den) = c
  end.

Lemma located_new num den : 0 < den -> located num den (num / den) (new_location den (num mod den)).
Proof.
  intros Hd. pose proof (Z.mod_pos_bound num den Hd) as Hm. pose proof (Z.div_mod num den ltac:(lia)) as He.
  unfold new_location. split; [done|].
  destruct (Z.even den) eqn:Ev; unfold new_location_even, new_location_odd;
    (destruct (Z.eqb_spec (num mod den) 0); [nia|split; [nia|]]).
  - f_equal. nia.
  - replace (num - num / den * den) with (num mod den) by nia.
    assert (Ho : Z.odd den = true) by (by rewrite <- Z.negb_even, Ev).
    apply Z.odd_spec in Ho as [j ->].
    destruct (Z.compare_spec (2 * (num mod (2 * j + 1)) + 1) (2 * j + 1)), (Z.compare_spec (2 * (num mod (2 * j + 1))) (2 * j + 1));
      try done; lia.
Qed.

Lemma shr_1_eq q r s : 0 <= q -> shr_1 (Build_shr_record q r s) = Build_shr_record (q / 2) (Z.odd q) (r || s).
Proof.
  intros Hq. rewrite <- Z.div2_div. by destruct q as [|[p|p|]|p].
Qed.

(** Shifting right by one place halves the quotient. *)
Lemma located_shr num den q l : 0 <= q -> located num den q l ->
  let r := shr_1 (shr_record_of_loc q l) in
  shr_m r = q / 2 /\ located num (2 * den) (q / 2) (loc_of_shr_record r).
Proof.
  intros Hq [Hd Hl]. pose proof (Zdiv2_odd_eqn q) as Ho. rewrite Z.div2_div in Ho.
  assert (He : shr_1 (shr_record_of_loc q l) =
    Build_shr_record (q / 2) (Z.odd q) (match l with loc_Exact => false | _ => true end)).
  { destruct l as [|[]]; cbn [shr_record_of_loc]; by rewrite shr_1_eq. }
  cbn zeta. rewrite He. split; [done|]. split; [lia|]. clear He.
  revert Ho. generalize (q / 2). intros h Ho.
  assert (Hqd : q * den = 2 * (h * den) + (if Z.odd q then den else 0)) by (destruct (Z.odd q); nia).
  assert (H1 : (h + 1) * (2 * den) = 2 * (h * den) + 2 * den) by ring.
  assert (H2 : h * (2 * den) = 2 * (h * den)) by ring.
  assert (H3 : (q + 1) * den = q * den + den) by ring.
  destruct (Z.odd q), l as [|c]; cbn [loc_of_shr_record]; rewrite ?H1, ?H2, ?H3 in *;
    try (destruct Hl as [Hl _]); try lia; (split; [lia|]);
    rewrite ?Z.compare_lt_iff, ?Z.compare_gt_iff, ?Z.compare_eq_iff; lia.
Qed.

(** Rounding to nearest is at most half a unit away. *)
Lemma located_round num den q l : located num den q l ->
  let m := round_nearest_even q l in q <= m <= q + 1 /\ - den <= 2 * (m * den - num) <= den.
Proof.
  intros [Hd Hl]. assert (H3 : (q + 1) * den = q * den + den) by ring.
  destruct l as [|[]]; cbn; [lia|..]; destruct Hl as [Hl Hc];
    rewrite ?Z.compare_lt_iff, ?Z.compare_gt_iff, ?Z.compare_eq_iff in Hc; try case_match; lia.
Qed.

(** ** Normal doubles *)
Lemma digits2_pos_spec p : 2 ^ (Z.pos (digits2_pos p) - 1) <= Z.pos p < 2 ^ Z.pos (digits2_pos p).
Proof.
  induction p as [p IH|p IH|]; cbn [digits2_pos]; [..|cbn; lia]; rewrite Pos2Z.inj_succ;
    replace (Z.succ (Z.pos (digits2_pos p)) - 1) with (Z.succ (Z.pos (digits2_pos p) - 1)) by lia;
    rewrite !Z.pow_succ_r by lia.
  - change (Z.pos p~1) with (2 * Z.pos p + 1). lia.
  - change (Z.pos p~0) with (2 * Z.pos p). lia.
Qed.

Lemma digits2_pos_unique p d : 0 < d -> 2 ^ (d - 1) <= Z.pos p < 2 ^ d -> Z.pos (digits2_pos p) = d.
Proof.
  intros Hd Hp. pose proof (digits2_pos_spec p) as Hs.
  destruct (Z.lt_trichotomy (Z.pos (digits2_pos p)) d) as [H|[H|H]]; [|done|].
  - pose proof (Z.pow_le_mono_r 2 (Z.pos (digits2_pos p)) (d - 1)). lia.
  - pose proof (Z.pow_le_mono_r 2 d (Z.pos (digits2_pos p) - 1)). lia.
Qed.

Definition normal (m : positive) : Prop := 2 ^ 52 <= Z.pos m < 2 ^ 53.

Lemma shr_fexp_53 q e l : 2 ^ 52 <= q < 2 ^ 53 -> -1074 <= e ->
  shr_fexp 53 1024 q e l = (shr_record_of_loc q l, e).
Proof.
  intros Hq He. unfold shr_fexp, fexp, emin. destruct q as [|p|p]; try lia. cbn [Zdigits2].
  rewrite (digits2_pos_unique p 53) by lia. rewrite Z.max_l by lia.
  by replace (53 + e - 53 - e) with 0 by lia.
Qed.

Lemma shr_fexp_54 q e l : 2 ^ 53 <= q < 2 ^ 54 -> -1074 <= e ->
  shr_fexp 53 1024 q e l = (shr_1 (shr_record_of_loc q l), e + 1).
Proof.
  intros Hq He. unfold shr_fexp, fexp, emin. destruct q as [|p|p]; try lia. cbn [Zdigits2].
  rewrite (digits2_pos_unique p 54) by lia. rewrite Z.max_l by lia.
  by replace (54 + e - 53 - e) with 1 by lia.
Qed.

(** A rounded mantissa may be [2 ^ 53], which is renormalised. *)
Lemma renormalise M e : 2 ^ 52 <= M <= 2 ^ 53 -> -1074 <= e <= 960 ->
  exists m e', normal m /\ e <= e' <= e + 1 /\ M = Z.pos m * 2 ^ (e' - e) /\
    let '(r, e'') := shr_fexp 53 1024 M e loc_Exact in shr_m r = Z.pos m /\ e'' = e'.
Proof.
  intros HM He. destruct (decide (M = 2 ^ 53)) as [->|Hne].
  - exists (2 ^ 52)%positive, (e + 1). split; [by split|]. split; [lia|].
    split; [by replace (e + 1 - e) with 1 by lia|]. rewrite shr_fexp_54 by lia. done.
  - destruct M as [|m|m]; try lia. exists m, e. split; [split; lia|]. split; [lia|].
    split; [rewrite Z.sub_diag; lia|]. rewrite shr_fexp_53 by lia. done.
Qed.

(** The rounded quotient [M / 2 ^ (- e - k)] of [num / den * 2 ^ e]. *)
Lemma round_spec q e l num den : located num den q l -> 2 ^ 52 <= q < 2 ^ 54 -> -1074 <= e <= 950 ->
  exists k M m e', 0 <= k <= 1 /\ 2 ^ 52 <= M <= 2 ^ 53 /\
    binary_round_aux 53 1024 false q e l = S754_finite false m e' /\ normal m /\
    e + k <= e' <= e + k + 1 /\ M = Z.pos m * 2 ^ (e' - (e + k)) /\
    - (2 ^ k * den) <= 2 * (M * (2 ^ k * den) - num) <= 2 ^ k * den /\ 2 ^ 52 * (2 ^ k * den) <= num.
Proof.
  intros Hl Hq He.
  assert (exists k q' l', 0 <= k <= 1 /\ located num (2 ^ k * den) q' l' /\ 2 ^ 52 <= q' < 2 ^ 53 /\
    let '(r, e'') := shr_fexp 53 1024 q e l in shr_m r = q' /\ loc_of_shr_record r = l' /\ e'' = e + k)
    as (k & q' & l' & Hk & Hl' & Hq' & Hs).
  { destruct (Z.lt_ge_cases q (2 ^ 53)).
    - exists 0, q, l. rewrite shr_fexp_53, Z.mul_1_l by lia. split_and!; try done; try lia.
      + by destruct l as [|[]].
      + by destruct l as [|[]].
    - destruct (located_shr num den q l ltac:(lia) Hl) as [Hm Hl'].
      exists 1, (q / 2), (loc_of_shr_record (shr_1 (shr_record_of_loc q l))).
      rewrite shr_fexp_54 by lia. split_and!; try done; try lia.
      + apply Z.div_le_lower_bound; lia.
      + apply Z.div_lt_upper_bound; lia. }
  pose proof (located_round _ _ _ _ Hl') as [HM Hb]. set (M := round_nearest_even q' l') in *.
  assert (Hlow : 2 ^ 52 * (2 ^ k * den) <= num).
  { destruct Hl' as [Hd Hl']. apply Z.le_trans with (q' * (2 ^ k * den)); [apply Z.mul_le_mono_nonneg_r; lia|].
    destruct l'; lia. }
  destruct (renormalise M (e + k)) as (m & e' & Hn & He' & HMm & Hr); [lia..|].
  exists k, M, m, e'. split_and!; try done; try lia.
  unfold binary_round_aux. destruct (shr_fexp 53 1024 q e l) as [r e1]. destruct Hs as (-> & -> & ->).
  fold M. destruct (shr_fexp 53 1024 M (e + k) loc_Exact) as [r2 e2]. destruct Hr as [-> ->].
  by destruct (Z.leb_spec e' (1024 - 53)); [|lia].
Qed.

(** [x] is the positive normal double of value [N / P], less than [2 ^ 53], and
    its exponent is at least [lo]. *)
Definition dbl_val (lo : Z) (x : double) (N P : Z) : Prop :=
  exists m e, x = S754_finite false m e /\ normal m /\ lo <= e <= 0 /\ 0 < N /\ 0 < P /\
    Z.pos m * P = N * 2 ^ (- e).

(** Division of the mantissas. *)
Lemma div_mantissas m1 e1 m2 e2 : normal m1 -> normal m2 -> -500 <= e1 <= 0 -> -500 <= e2 <= 0 ->
  exists k M m e', 0 <= k <= 1 /\ 2 ^ 52 <= M <= 2 ^ 53 /\
    dbl_div (S754_finite false m1 e1) (S754_finite false m2 e2) = S754_finite false m e' /\ normal m /\
    let E := e1 - e2 - 53 + k in
    E <= e' <= E + 1 /\ M = Z.pos m * 2 ^ (e' - E) /\
    - (2 ^ k * Z.pos m2) <= 2 * (M * (2 ^ k * Z.pos m2) - Z.pos m1 * 2 ^ 53) <= 2 ^ k * Z.pos m2 /\
    2 ^ 52 * (2 ^ k * Z.pos m2) <= Z.pos m1 * 2 ^ 53.
Proof.
  intros [Ha Hb] [Hc Hd] He1 He2.
  assert (Hq : 2 ^ 52 <= Z.pos m1 * 2 ^ 53 / Z.pos m2 < 2 ^ 54).
  { split; [apply Z.div_le_lower_bound; nia|apply Z.div_lt_upper_bound; nia]. }
  destruct (round_spec _ (e1 - e2 - 53) _ _ _ (located_new (Z.pos m1 * 2 ^ 53) (Z.pos m2) ltac:(lia)) Hq ltac:(lia))
    as (k & M & m & e' & Hk & HM & Hr & Hn & He & HMm & Hbd & Hlow).
  exists k, M, m, e'. split_and!; try done; try lia.
  unfold dbl_div, SFdiv, SFdiv_core_binary, fexp, emin. cbn [Zdigits2 xorb].
  rewrite (digits2_pos_unique m1 53), (digits2_pos_unique m2 53) by lia.
  replace (53 + e1 - (53 + e2)) with (e1 - e2) by lia. rewrite Z.max_l, Z.min_l by lia.
  replace (e1 - e2 - (e1 - e2 - 53)) with 53 by lia. rewrite Z.shiftl_mul_pow2 by lia.
  unfold Z.div, Z.modulo in Hr. destruct (Z.div_eucl _ _) as [q r]. exact Hr.
Qed.

(** The quotient of two doubles is within half a unit of the last place. *)
Lemma dbl_div_spec lo x y N1 P1 N2 P2 : -300 <= lo -> dbl_val lo x N1 P1 -> dbl_val (-300) y N2 P2 ->
  N1 * P2 < 2 ^ 50 * (P1 * N2) ->
  exists M p, 0 <= p /\ dbl_val (lo - 53) (dbl_div x y) M (2 ^ p) /\
    - (P1 * N2) <= 2 * (M * (P1 * N2) - 2 ^ p * (N1 * P2)) <= P1 * N2 /\
    2 ^ 52 * (P1 * N2) <= 2 ^ p * (N1 * P2).
Proof.
  intros Hlo (m1 & e1 & -> & Hn1 & He1 & HN1 & HP1 & Hv1) (m2 & e2 & -> & Hn2 & He2 & HN2 & HP2 & Hv2) Hlt.
  destruct (div_mantissas m1 e1 m2 e2 Hn1 Hn2 ltac:(lia) ltac:(lia)) as (k & M & m & e' & Hk & HM & Hr & Hn & He & HMm & Hb & Hlow).
  cbn zeta in *. set (E := e1 - e2 - 53 + k) in *.
  set (D := P1 * N2) in *. set (N := N1 * P2) in *. set (T := 2 ^ (k - e2)).
  assert (HT : 0 < T) by (apply Z.pow_pos_nonneg; lia).
  assert (HD : 2 ^ k * Z.pos m2 * (P1 * P2) = D * T).
  { unfold D, T. replace (k - e2) with (k + - e2) by lia. rewrite Z.pow_add_r by lia.
    transitivity (2 ^ k * P1 * (Z.pos m2 * P2)); [ring|]. rewrite Hv2. ring. }
  assert (HN : Z.pos m1 * 2 ^ 53 * (P1 * P2) = N * 2 ^ (53 - e1)).
  { unfold N. replace (53 - e1) with (53 + - e1) by lia. rewrite Z.pow_add_r by lia.
    transitivity (2 ^ 53 * P2 * (Z.pos m1 * P1)); [ring|]. rewrite Hv1. ring. }
  assert (HPP : 0 < P1 * P2) by lia.
  assert (Hlow' : 2 ^ 52 * (D * T) <= N * 2 ^ (53 - e1)) by (rewrite <- HD, <- HN, Z.mul_assoc; apply Z.mul_le_mono_nonneg_r; lia).
  assert (HDp : 0 < D) by (unfold D; lia).
  assert (HE : E < -2).
  { assert (2 ^ (k - e2 + 2) < 2 ^ (53 - e1)) as H%Z.pow_lt_mono_r_iff; [|unfold E; lia..].
    rewrite Z.pow_add_r by lia. fold T. change (2 ^ 2) with 4.
    assert (HQ : 0 < 2 ^ (53 - e1)) by (apply Z.pow_pos_nonneg; lia).
    apply (Z.mul_lt_mono_pos_r _ _ _ HQ) in Hlt. apply (Z.mul_lt_mono_pos_l (2 ^ 50 * D)); lia. }
  assert (HPT : 2 ^ (53 - e1) = 2 ^ (- E) * T).
  { unfold T. rewrite <- Z.pow_add_r by (unfold E in *; lia). f_equal. unfold E. lia. }
  rewrite HPT in *. exists M, (- E). split; [lia|]. split; [|split].
  - exists m, e'. rewrite Hr. split_and!; try done; try (unfold E in *; lia).
    rewrite HMm, <- Z.mul_assoc, <- Z.pow_add_r by lia. do 2 f_equal. lia.
  - assert (HM2 : M * (2 ^ k * Z.pos m2) * (P1 * P2) = M * D * T) by (rewrite <- Z.mul_assoc, HD; ring).
    assert (Hs : forall a b, a <= b -> a * (P1 * P2) <= b * (P1 * P2)) by (intros; apply Z.mul_le_mono_nonneg_r; lia).
    destruct Hb as [Hb1%Hs Hb2%Hs]. split; apply (Z.mul_le_mono_pos_r _ _ T HT); lia.
  - apply (Z.mul_le_mono_pos_r _ _ T HT). lia.
Qed.

(** ** Integers as doubles *)
Lemma iter_xO p k : Z.pos (Pos.iter xO p k) = Z.pos p * 2 ^ Z.pos k.
Proof.
  induction k as [|k IH] using Pos.peano_ind; [cbn; lia|].
  rewrite Pos.iter_succ, Pos2Z.inj_succ, Z.pow_succ_r by lia.
  change (Z.pos (Pos.iter xO p k)~0) with (2 * Z.pos (Pos.iter xO p k)). lia.
Qed.

Lemma round_exact m e : normal m -> -1074 <= e <= 960 ->
  binary_round_aux 53 1024 false (Z.pos m) e loc_Exact = S754_finite false m e.
Proof.
  intros Hn He. unfold binary_round_aux. rewrite shr_fexp_53 by (unfold normal in *; lia). cbn [shr_record_of_loc].
  cbn [loc_of_shr_record round_nearest_even shr_m]. rewrite shr_fexp_53 by (unfold normal in *; lia). cbn [shr_record_of_loc shr_m].
  by destruct (Z.leb_spec e (1024 - 53)); [|lia].
Qed.

Lemma dbl_int_val n : 0 < n < 2 ^ 53 -> dbl_val (-52) (dbl_int n) n 1.
Proof.
  intros Hn. destruct n as [|p|p]; try lia. pose proof (digits2_pos_spec p) as Hp.
  assert (Hd : 1 <= Z.pos (digits2_pos p) <= 53).
  { split; [lia|]. destruct (Z.le_gt_cases (Z.pos (digits2_pos p)) 53) as [|Hgt]; [done|].
    pose proof (Z.pow_le_mono_r 2 53 (Z.pos (digits2_pos p) - 1)). lia. }
  unfold dbl_int, binary_normalize, binary_round, fexp, emin. rewrite Z.max_l, Z.add_0_r by lia.
  remember (Z.pos (digits2_pos p)) as d eqn:Ed. clear Ed. unfold shl_align. rewrite Z.sub_0_r.
  destruct (d - 53) as [|k|k] eqn:Ek; try lia.
  - assert (d = 53) by lia. subst d. exists p, 0. rewrite round_exact; [|split; lia|lia].
    split_and!; try done; try lia.
  - assert (Hnk : normal (Pos.iter xO p k)).
    { unfold normal. rewrite iter_xO. replace 52 with ((d - 1) + Z.pos k) at 1 by lia.
      replace 53 with (d + Z.pos k) by lia. rewrite !Z.pow_add_r by lia.
      split; [apply Z.mul_le_mono_nonneg_r|apply Z.mul_lt_mono_pos_r]; lia. }
    exists (Pos.iter xO p k), (Z.neg k). rewrite round_exact; [|done|lia].
    split_and!; try done; try lia. rewrite iter_xO, Z.mul_1_r. done.
Qed.

(** The bounds the rounded quotients obey place the result in the right unit
    interval. *)
Lemma ceil_bounds c f r M P M' P' k :
  1 <= c < 2 ^ 26 -> 1 <= f -> 1 <= r -> 0 < M -> 0 < P -> 0 < P' ->
  - f <= 2 * (M * f - P * c) <= f -> 2 ^ 52 * f <= P * c ->
  - (P * r) <= 2 * (M' * (P * r) - P' * M) <= P * r -> 2 ^ 52 * (P * r) <= P' * M ->
  (k - 1) * (f * r) < c <= k * (f * r) -> (k - 1) * P' < M' <= k * P'.
Proof.
  intros Hc Hf Hr HM HP HP' [A1 A2] A3 [B1 B2] B3 [C1 C2].
  assert (HPr : 0 < P * r) by lia.
  assert (HPc : P * c <= P * 2 ^ 26) by (apply Z.mul_le_mono_nonneg_l; lia).
  split.
  - (* [P' > f * r] *)
    assert (HMf : 2 * (M * f) <= 3 * (P * 2 ^ 26)) by lia.
    assert (HP'2 : f * r < P').
    { apply (Z.mul_lt_mono_pos_r (P * 2 ^ 27)); [lia|].
      apply (Z.mul_le_mono_nonneg_r _ _ f) in B3; [|lia].
      apply (Z.mul_le_mono_nonneg_l _ _ P') in HMf; [|lia].
      assert (0 < P' * P) by lia. nia. }
    assert (HfP : f <= P) by lia.
    assert (C1' : P * ((k - 1) * (f * r)) + P <= P * c).
    { rewrite <- (Z.mul_1_r P) at 2. rewrite <- Z.mul_add_distr_l. apply Z.mul_le_mono_nonneg_l; lia. }
    assert (HMl : 2 * (P * ((k - 1) * (f * r))) + P <= 2 * (M * f)) by lia.
    apply (Z.mul_le_mono_nonneg_l _ _ P') in HMl; [|lia].
    apply (Z.mul_le_mono_nonneg_r _ _ f) in B1; [|lia].
    assert (P * (f * r) < P * P') by (apply Z.mul_lt_mono_pos_l; lia).
    apply (Z.mul_lt_mono_pos_r (2 * (P * (r * f)))); [lia|]. nia.
  - assert (HMk : M <= P * (k * r)).
    { assert (P * c <= P * (k * (f * r))) by (apply Z.mul_le_mono_nonneg_l; lia).
      assert (2 * M * f <= (2 * (P * (k * r)) + 1) * f) as H2%Z.mul_le_mono_pos_r by lia; lia. }
    apply (Z.mul_le_mono_nonneg_l _ _ P') in HMk; [|lia].
    assert (2 * M' * (P * r) <= (2 * (k * P') + 1) * (P * r)) as H2%Z.mul_le_mono_pos_r by lia; lia.
Qed.

Lemma dbl_ceil_val lo x N P k : dbl_val lo x N P -> (k - 1) * P < N <= k * P -> dbl_ceil x = Some k.
Proof.
  intros (m & e & -> & _ & He & HN & HP & Hv) [H1 H2]. unfold dbl_ceil. f_equal.
  assert (HT : 0 < 2 ^ (- e)) by (apply Z.pow_pos_nonneg; lia).
  assert (Hm : (k - 1) * 2 ^ (- e) < Z.pos m <= k * 2 ^ (- e)).
  { split; [apply (Z.mul_lt_mono_pos_r P)|apply (Z.mul_le_mono_pos_r _ _ P)]; nia. }
  destruct (Z.leb_spec 0 e).
  - assert (e = 0) by lia. subst e. cbn in *. lia.
  - assert (- Z.pos m / 2 ^ (- e) = - k); [|lia].
    symmetry. apply (Z.div_unique _ _ _ (k * 2 ^ (- e) - Z.pos m)); nia.
Qed.

(** [ceil (c / f / r)] in doubles is the exact integer. *)
Lemma dbl_ceil_div c f r : 1 <= c < 2 ^ 26 -> 1 <= f < 2 ^ 53 -> 1 <= r < 2 ^ 53 ->
  dbl_ceil (dbl_div (dbl_div (dbl_int c) (dbl_int f)) (dbl_int r)) = Some ((c + f * r - 1) / (f * r)).
Proof.
  intros Hc Hf Hr.
  pose proof (dbl_int_val c ltac:(lia)) as Vc. pose proof (dbl_int_val f ltac:(lia)) as Vf.
  pose proof (dbl_int_val r ltac:(lia)) as Vr.
  assert (Hlo : forall x N P, dbl_val (-52) x N P -> dbl_val (-300) x N P).
  { intros x N P (m & e & ? & ? & ? & ?). exists m, e. split_and!; naive_solver lia. }
  destruct (dbl_div_spec (-52) _ _ _ _ _ _ ltac:(lia) Vc (Hlo _ _ _ Vf)) as (M & p & Hp & Va & A & A3); [lia|].
  rewrite !Z.mul_1_l, ?Z.mul_1_r in *.
  assert (HM : 0 < M) by (by destruct Va as (? & ? & _ & _ & _ & ? & _)).
  assert (HP : 0 < 2 ^ p) by (apply Z.pow_pos_nonneg; lia).
  destruct (dbl_div_spec (-52 - 53) _ _ _ _ _ _ ltac:(lia) Va (Hlo _ _ _ Vr)) as (M' & p' & Hp' & Vb & B & B3).
  { assert (2 * (M * f) <= 2 * (2 ^ p * 2 ^ 26) + f) by nia. nia. }
  rewrite !Z.mul_1_r in *. eapply dbl_ceil_val; [exact Vb|].
  eapply (ceil_bounds c f r M (2 ^ p) M' (2 ^ p')); try done; try lia.
  pose proof (Z.div_mod (c + f * r - 1) (f * r) ltac:(lia)).
  pose proof (Z.mod_pos_bound (c + f * r - 1) (f * r) ltac:(lia)). lia.
Qed.

Lemma ceil_div_bounds c d : 0 < c -> 0 < d -> 1 <= (c + d - 1) / d <= c.
Proof.
  intros Hc Hd. split; [apply Z.div_le_lower_bound; lia|].
  apply Z.lt_succ_r, Z.div_lt_upper_bound; nia.
Qed.

(** The same as an unsigned integer. *)
Lemma dbl_ceil_to_div w c f r : 1 <= c < 2 ^ 26 -> 1 <= f < 2 ^ 53 -> 1 <= r < 2 ^ 53 -> 26 <= w ->
  dbl_ceil_to w (dbl_div (dbl_div (dbl_int c) (dbl_int f)) (dbl_int r)) = Some ((c + f * r - 1) / (f * r)).
Proof.
  intros Hc Hf Hr Hw. unfold dbl_ceil_to. rewrite dbl_ceil_div by done. cbn.
  pose proof (ceil_div_bounds c (f * r) ltac:(lia) ltac:(lia)) as Hb.
  pose proof (Z.pow_le_mono_r 2 26 w ltac:(lia) Hw).
  by rewrite (proj2 (Z.leb_le 0 _)), (proj2 (Z.ltb_lt _ (2 ^ w))) by lia.
Qed.
