(* ===== verification/RingBuffer.v ===== *)
(** * The circular buffer, include/piduino/ringbuffer.h

    [ring] is the object's private data; one definition per member function.
    A slot of the array is [None] while no object lives in it, so constructing,
    assigning, destroying and reading follow the object's lifetime, and an
    access outside the array or to a dead slot is [UB].  [trivial] says whether
    the element type is trivially destructible: the allocator's [destroy] then
    leaves the slot alone.  [rep r xs] relates a ring to the list it holds. *)
From S2P Require Import Prelude.

Module RingBuffer.

Section Ring.
Context {A : Type} (trivial : bool).

Record ring : Type := mk_ring {
  m_capacity : Z;
  m_array : list (option A);
  m_head : Z;
  m_tail : Z;
  m_contents_size : Z }.

(** The constructor: raw memory, head at 1, tail at 0. *)
Definition new (capacity : Z) : ring :=
  mk_ring capacity (replicate (Z.to_nat capacity) None) 1 0 0.

Definition with_array (r : ring) (a : list (option A)) : ring :=
  mk_ring (m_capacity r) a (m_head r) (m_tail r) (m_contents_size r).

(** ** Access to the slots *)
Definition slot_read (i : Z) : M ring A := fun r =>
  match lget (m_array r) i with
  | Some (Some a) => (Ok a, r)
  | _ => (Throw UB, r)
  end.

Definition slot_assign (i : Z) (x : A) : M ring unit := fun r =>
  match lget (m_array r) i with
  | Some (Some _) => (Ok tt, with_array r (lset (m_array r) i (Some x)))
  | Some None =>
      if trivial then (Ok tt, with_array r (lset (m_array r) i (Some x))) else (Throw UB, r)
  | None => (Throw UB, r)
  end.

Definition slot_construct (i : Z) (x : A) : M ring unit := fun r =>
  match lget (m_array r) i with
  | Some _ => (Ok tt, with_array r (lset (m_array r) i (Some x)))
  | None => (Throw UB, r)
  end.

Definition slot_destroy (i : Z) : M ring unit := fun r =>
  match lget (m_array r) i with
  | Some (Some _) =>
      (Ok tt, if trivial then r else with_array r (lset (m_array r) i None))
  | Some None => if trivial then (Ok tt, r) else (Throw UB, r)
  | None => (Throw UB, r)
  end.

(** ** Index arithmetic, on [size_type] *)
Definition next_tail (r : ring) : Z :=
  if u64 (m_tail r + 1) =? m_capacity r then 0 else u64 (m_tail r + 1).

Definition previous_tail (r : ring) : Z :=
  if m_tail r =? 0 then u64 (m_capacity r - 1) else u64 (m_tail r - 1).

Definition previous_head (r : ring) : Z :=
  if m_head r =? 0 then u64 (m_capacity r - 1) else u64 (m_head r - 1).

Definition increment_tail (r : ring) : ring :=
  mk_ring (m_capacity r) (m_array r) (m_head r) (next_tail r) (u64 (m_contents_size r + 1)).

Definition decrement_tail (r : ring) : ring :=
  mk_ring (m_capacity r) (m_array r) (m_head r) (previous_tail r) (u64 (m_contents_size r - 1)).

Definition increment_head (r : ring) : ring :=
  let h := u64 (m_head r + 1) in
  mk_ring (m_capacity r) (m_array r) (if h =? m_capacity r then 0 else h) (m_tail r)
    (u64 (m_contents_size r - 1)).

Definition decrement_head (r : ring) : ring :=
  let h := if m_head r =? 0 then m_capacity r else m_head r in
  mk_ring (m_capacity r) (m_array r) (u64 (h - 1)) (m_tail r) (u64 (m_contents_size r + 1)).

Definition normalise (r : ring) (n : Z) : Z := n mod m_capacity r.

Definition index_to_subscript (r : ring) (index : Z) : Z := normalise r (u64 (index + m_head r)).

(** ** Size and content accessors *)
Definition empty (r : ring) : bool := 0 =? m_contents_size r.
Definition size (r : ring) : Z := m_contents_size r.
Definition capacity (r : ring) : Z := m_capacity r.

Definition front : M ring A := fun r => slot_read (m_head r) r.
Definition back : M ring A := fun r => slot_read (m_tail r) r.

Definition at_unchecked (index : Z) : M ring A := fun r =>
  if m_capacity r =? 0 then (Throw UB, r) else slot_read (index_to_subscript r index) r.

Definition at_checked (index : Z) : M ring A := fun r =>
  if m_contents_size r <=? index then (Throw OutOfRange, r) else at_unchecked index r.

(** ** Content modifiers *)
Fixpoint clear_from (k : nat) (n : Z) : M ring unit :=
  match k with
  | O => mret tt
  | S k' => i ← gets (fun r => index_to_subscript r n);
            slot_destroy i;; clear_from k' (u64 (n + 1))
  end.

Definition clear : M ring unit := fun r =>
  (clear_from (Z.to_nat (m_contents_size r)) 0;;
   modify (fun r => mk_ring (m_capacity r) (m_array r) 1 0 0)) r.

Definition push_back (item : A) : M ring unit :=
  next ← gets next_tail;
  full ← gets (fun r => m_contents_size r =? m_capacity r);
  (if (full : bool) then slot_assign next item;; modify increment_head
   else slot_construct next item);;
  modify increment_tail.

Definition push_front (item : A) : M ring unit :=
  previous ← gets previous_head;
  full ← gets (fun r => m_contents_size r =? m_capacity r);
  (if (full : bool) then slot_assign previous item else slot_construct previous item);;
  modify decrement_head.

Definition pop_front : M ring unit :=
  e ← gets empty;
  if (e : bool) then mret tt else
  destroy_pos ← gets m_head;
  modify increment_head;;
  slot_destroy destroy_pos.

Definition pop_back : M ring unit :=
  e ← gets empty;
  if (e : bool) then mret tt else
  destroy_pos ← gets previous_tail;
  modify decrement_tail;;
  slot_destroy destroy_pos.

Fixpoint repeat_op (k : nat) (op : M ring unit) : M ring unit :=
  match k with O => mret tt | S k' => op;; repeat_op k' op end.

Definition skip (len : Z) : M ring unit := fun r =>
  if m_contents_size r <=? len then clear r else repeat_op (Z.to_nat len) pop_front r.

Definition chop (len : Z) : M ring unit := fun r =>
  if m_contents_size r <=? len then clear r else repeat_op (Z.to_nat len) pop_back r.

(** [assign_into] over an iterator range of another ring: [k] iterator steps
    from position [pos] of [src]. *)
Fixpoint assign_steps (src : ring) (k : nat) (pos : Z) : M ring unit :=
  match k with
  | O => mret tt
  | S k' =>
      match at_unchecked pos src with
      | (Ok x, _) => push_back x;; assign_steps src k' (u64 (pos + 1))
      | (Throw e, _) => throw e
      end
  end.

Definition assign_into (src : ring) (from to : Z) : M ring unit :=
  n ← gets m_contents_size;
  (if 0 <? n then clear else mret tt);;
  assign_steps src (Z.to_nat (to - from)) from.

(** [reserve]: copy into a fresh ring, swap, and destroy the old contents. *)
Definition reserve (new_size : Z) : M ring unit := fun r =>
  if new_size =? capacity r then (Ok tt, r) else
  let offset := if new_size <? size r then u64 (size r - new_size) else 0 in
  match assign_into r offset (size r) (new new_size) with
  | (Ok _, tmp) => match clear r with (o, _) => (o, tmp) end
  | (Throw e, _) => (Throw e, r)
  end.

(** The copy constructor: raw memory, but the head, tail and size of [other]. *)
Definition copy (other : ring) : outcome unit * ring :=
  assign_into other 0 (size other)
    (mk_ring (m_capacity other) (replicate (Z.to_nat (m_capacity other)) None)
       (m_head other) (m_tail other) (m_contents_size other)).

(** ** The representation invariant *)
Record rep (r : ring) (xs : list A) : Prop := {
  rep_cap : 2 <= m_capacity r < 2 ^ 63;
  rep_len : Z.of_nat (length (m_array r)) = m_capacity r;
  rep_head : 0 <= m_head r < m_capacity r;
  rep_tail : 0 <= m_tail r < m_capacity r;
  rep_size : m_contents_size r = Z.of_nat (length xs);
  rep_fits : m_contents_size r <= m_capacity r;
  rep_ends : (m_head r + m_contents_size r) mod m_capacity r = (m_tail r + 1) mod m_capacity r;
  rep_slot : forall i, 0 <= i < m_contents_size r ->
    lget (m_array r) ((m_head r + i) mod m_capacity r) = Some (lget xs i) }.

Lemma mod_wrap a c : 0 <= a < 2 * c -> a mod c = if a <? c then a else a - c.
Proof.
  intros Ha. destruct (Z.ltb_spec a c).
  - apply Z.mod_small. lia.
  - symmetry. apply (Z.mod_unique a c 1); lia.
Qed.

Lemma lget_app_l (xs ys : list A) i :
  0 <= i < Z.of_nat (length xs) -> lget (xs ++ ys) i = lget xs i.
Proof. intros. unfold lget. case_bool; [lia|]. apply lookup_app_l. lia. Qed.

Lemma lget_app_end (xs : list A) x : lget (xs ++ [x]) (Z.of_nat (length xs)) = Some x.
Proof.
  unfold lget. case_bool; [lia|]. rewrite Nat2Z.id, lookup_app_r, Nat.sub_diag by lia. done.
Qed.

Lemma lget_cons (xs : list A) x i : 0 < i -> lget (x :: xs) i = lget xs (i - 1).
Proof.
  intros. unfold lget. case_bool; try lia.
  replace (Z.to_nat i) with (S (Z.to_nat (i - 1))) by lia. done.
Qed.

Lemma lget_Some_inv (xs : list A) i : 0 <= i < Z.of_nat (length xs) -> exists x, lget xs i = Some x.
Proof. intros H%lget_is_Some. destruct H as [x Hx]. by exists x. Qed.

(** Rewrites the wraps of in-range values and splits the modular indices. *)
Ltac ring_arith :=
  rewrite ?u64_small in * by lia;
  repeat match goal with
  | |- context [?a mod ?c] => rewrite (mod_wrap a c) by lia
  | H : context [?a mod ?c] |- _ => rewrite (mod_wrap a c) in H by lia
  end.

Lemma new_rep c : 2 <= c < 2 ^ 63 -> rep (new c) [].
Proof.
  intros Hc. constructor; simpl; rewrite ?length_replicate; intros; try done; lia.
Qed.

(** What an appended element does to the list: a full ring drops its oldest. *)
Definition push_spec (cap : Z) (xs : list A) (x : A) : list A :=
  if Z.of_nat (length xs) =? cap then drop 1 xs ++ [x] else xs ++ [x].

Lemma next_tail_eq r xs :
  rep r xs -> next_tail r = (m_head r + m_contents_size r) mod m_capacity r.
Proof.
  intros []. rewrite rep_ends0. unfold next_tail. ring_arith. case_bool; lia.
Qed.

Lemma idx_inj c h i j :
  0 <= h < c -> 0 <= i <= c -> 0 <= j <= c -> i < j < i + c \/ j < i < j + c ->
  (h + i) mod c <> (h + j) mod c.
Proof. intros. ring_arith. case_bool; lia. Qed.

Lemma idx_range c h i : 0 < c -> 0 <= (h + i) mod c < c.
Proof. intros. apply Z.mod_pos_bound. lia. Qed.

Lemma head_succ c h i :
  0 <= h < c -> 0 <= i < c -> ((if h + 1 =? c then 0 else h + 1) + i) mod c = (h + (i + 1)) mod c.
Proof.
  intros. destruct (Z.eqb_spec (h + 1) c); [|f_equal; lia]. ring_arith; case_bool; lia.
Qed.

(** The tail is the subscript of the last element. *)
Lemma tail_idx c h t n :
  0 <= h < c -> 0 <= t < c -> 0 < n <= c -> (h + n) mod c = (t + 1) mod c -> (h + (n - 1)) mod c = t.
Proof. intros Hh Ht Hn. ring_arith. repeat case_bool; lia. Qed.

(** Constructing the element after the last of a ring that is not full. *)
Lemma push_back_room r xs x :
  rep r xs -> Z.of_nat (length xs) <> m_capacity r ->
  exists r', push_back x r = (Ok tt, r') /\ m_capacity r' = m_capacity r /\ rep r' (xs ++ [x]).
Proof.
  intros Hr Hne. pose proof (next_tail_eq _ _ Hr) as Hnt. destruct Hr.
  unfold push_back. munfold. rewrite Hnt.
  destruct (Z.eqb_spec (m_contents_size r) (m_capacity r)); [lia|].
  unfold slot_construct.
  pose proof (idx_range (m_capacity r) (m_head r) (m_contents_size r)) as Hp.
  destruct (proj2 (lget_is_Some (m_array r) ((m_head r + m_contents_size r) mod m_capacity r)))
    as [o Ho]; [lia|]. rewrite Ho. simpl.
  eexists. split; [reflexivity|]. split; [reflexivity|].
  constructor; unfold increment_tail; cbn [m_capacity m_array m_head m_tail m_contents_size with_array].
  all: rewrite ?length_lset, ?length_app, ?(u64_small (m_contents_size r + 1)) by lia;
    simpl; try lia.
  - unfold next_tail in *; simpl; rewrite Hnt. lia.
  - unfold next_tail in *; simpl; rewrite Hnt, Zplus_mod_idemp_l. f_equal. lia.
  - intros i Hi. destruct (decide (i = m_contents_size r)) as [->|].
    + rewrite lget_lset_eq by lia. rewrite rep_size0 at 1. by rewrite lget_app_end.
    + rewrite lget_lset_ne by (try apply idx_inj; lia).
      rewrite rep_slot0, lget_app_l by lia. done.
Qed.

(** Appending to a full ring overwrites the oldest element. *)
Lemma push_back_full r xs x :
  rep r xs -> Z.of_nat (length xs) = m_capacity r ->
  exists r', push_back x r = (Ok tt, r') /\ m_capacity r' = m_capacity r /\ rep r' (drop 1 xs ++ [x]).
Proof.
  intros Hr Heq. pose proof (next_tail_eq _ _ Hr) as Hnt. destruct Hr.
  assert (Hh : next_tail r = m_head r).
  { rewrite Hnt, rep_size0, Heq. ring_arith. case_bool; lia. }
  unfold push_back. munfold. rewrite Hh.
  destruct (Z.eqb_spec (m_contents_size r) (m_capacity r)); [|lia].
  destruct xs as [|x0 xs]; [simpl in *; lia|]. 
  change (drop 1 (x0 :: xs)) with xs. cbn [length] in *.
  assert (H0 : lget (m_array r) (m_head r) = Some (Some x0)).
  { specialize (rep_slot0 0). rewrite Z.add_0_r, Z.mod_small in rep_slot0 by lia.
    apply rep_slot0. lia. }
  unfold slot_assign. rewrite H0. simpl.
  eexists. split; [reflexivity|]. split; [reflexivity|].
  assert (Hm : u64 (m_head r + 1) = m_head r + 1) by (apply u64_small; lia).
  constructor; unfold increment_tail, increment_head, next_tail, with_array in *;
    cbn [m_capacity m_array m_head m_tail m_contents_size] in *.
  all: rewrite ?length_lset, ?length_app, ?Hm, ?Hh,
    ?(u64_small (u64 (m_contents_size r - 1) + 1)), ?(u64_small (m_contents_size r - 1))
    by (try rewrite (u64_small (m_contents_size r - 1)); lia); simpl; try lia.
  - case_bool; lia.
  - replace (m_contents_size r - 1 + 1) with (m_capacity r) by lia.
    case_bool; ring_arith; case_bool; lia.
  - intros i Hi.
    rewrite head_succ by lia. destruct (decide (i = m_capacity r - 1)) as [->|].
    + replace ((m_head r + (m_capacity r - 1 + 1)) mod m_capacity r) with (m_head r)
        by (ring_arith; case_bool; lia).
      rewrite lget_lset_eq by lia.
      replace (m_capacity r - 1) with (Z.of_nat (length xs)) by lia. by rewrite lget_app_end.
    + rewrite lget_lset_ne; [|lia|].
      * rewrite rep_slot0, lget_cons, Z.add_simpl_r, lget_app_l by lia. done.
      * ring_arith; case_bool; lia.
Qed.

Lemma push_back_rep r xs x :
  rep r xs ->
  exists r', push_back x r = (Ok tt, r') /\ m_capacity r' = m_capacity r /\
    rep r' (push_spec (m_capacity r) xs x).
Proof.
  intros Hr. unfold push_spec. destruct (Z.eqb_spec (Z.of_nat (length xs)) (m_capacity r)).
  - by apply push_back_full.
  - by apply push_back_room.
Qed.

Lemma pop_front_rep r xs :
  rep r xs ->
  exists r', pop_front r = (Ok tt, r') /\ m_capacity r' = m_capacity r /\ rep r' (drop 1 xs).
Proof.
  intros Hr. destruct xs as [|x0 xs].
  - exists r. unfold pop_front. munfold. unfold empty. by rewrite (rep_size _ _ Hr).
  - change (drop 1 (x0 :: xs)) with xs. destruct Hr. cbn [length] in *.
    unfold pop_front. munfold. unfold empty.
    destruct (Z.eqb_spec 0 (m_contents_size r)); [lia|].
    assert (H0 : lget (m_array r) (m_head r) = Some (Some x0)).
    { specialize (rep_slot0 0). rewrite Z.add_0_r, Z.mod_small in rep_slot0 by lia.
      apply rep_slot0. lia. }
    unfold slot_destroy. cbn. rewrite H0.
    eexists. split; [reflexivity|]. split; [by destruct trivial|].
    assert (Hm : u64 (m_head r + 1) = m_head r + 1) by (apply u64_small; lia).
    assert (Hs : u64 (m_contents_size r - 1) = m_contents_size r - 1) by (apply u64_small; lia).
    constructor; destruct trivial; cbn; rewrite ?length_lset, ?Hm, ?Hs; try lia.
    all: try (case_bool; lia).
    1-2: rewrite head_succ by lia; rewrite <- rep_ends0; f_equal; lia.
    all: intros i Hi; rewrite head_succ by lia.
    2: rewrite lget_lset_ne; [|lia|ring_arith; case_bool; lia].
    all: rewrite rep_slot0, lget_cons, Z.add_simpl_r by lia; done.
Qed.

Lemma push_front_room r xs x :
  rep r xs -> Z.of_nat (length xs) <> m_capacity r ->
  exists r', push_front x r = (Ok tt, r') /\ m_capacity r' = m_capacity r /\ rep r' (x :: xs).
Proof.
  intros [] Hne. unfold push_front. munfold.
  destruct (Z.eqb_spec (m_contents_size r) (m_capacity r)); [lia|].
  assert (Hp : previous_head r = if m_head r =? 0 then m_capacity r - 1 else m_head r - 1).
  { unfold previous_head. case_bool; apply u64_small; lia. }
  unfold slot_construct. rewrite Hp.
  destruct (proj2 (lget_is_Some (m_array r)
    (if m_head r =? 0 then m_capacity r - 1 else m_head r - 1))) as [o Ho]; [case_bool; lia|].
  rewrite Ho. cbn. eexists. split; [reflexivity|]. split; [reflexivity|].
  assert (Hh : u64 ((if m_head r =? 0 then m_capacity r else m_head r) - 1)
             = if m_head r =? 0 then m_capacity r - 1 else m_head r - 1).
  { case_bool; apply u64_small; lia. }
  constructor; cbn; rewrite ?length_lset, ?Hh, ?(u64_small (m_contents_size r + 1)) by lia; try lia.
  - case_bool; lia.
  - rewrite <- rep_ends0. case_bool; ring_arith; case_bool; lia.
  - intros i Hi. destruct (decide (i = 0)) as [->|].
    + rewrite Z.add_0_r, Z.mod_small by (case_bool; lia). by rewrite lget_lset_eq by (case_bool; lia).
    + replace (((if m_head r =? 0 then m_capacity r - 1 else m_head r - 1) + i) mod m_capacity r)
        with ((m_head r + (i - 1)) mod m_capacity r) by (case_bool; ring_arith; case_bool; lia).
      rewrite lget_lset_ne by (ring_arith; case_bool; lia).
      by rewrite rep_slot0, lget_cons by lia.
Qed.

(** Dropping the last element is right for trivially destructible elements. *)
Lemma pop_back_rep r xs :
  trivial = true -> rep r xs ->
  exists r', pop_back r = (Ok tt, r') /\ m_capacity r' = m_capacity r /\
    rep r' (take (length xs - 1) xs).
Proof.
  intros Ht Hr. destruct (decide (length xs = 0%nat)) as [Hl|Hl].
  - exists r. unfold pop_back. munfold. unfold empty. rewrite (rep_size _ _ Hr), Hl.
    destruct xs; [done|simpl in Hl; lia].
  - destruct Hr. unfold pop_back. munfold. unfold empty.
    destruct (Z.eqb_spec 0 (m_contents_size r)); [lia|].
    assert (Hp : previous_tail r = if m_tail r =? 0 then m_capacity r - 1 else m_tail r - 1).
    { unfold previous_tail. case_bool; apply u64_small; lia. }
    unfold slot_destroy. cbn. rewrite Ht.
    destruct (proj2 (lget_is_Some (m_array r) (previous_tail r))) as [o Ho];
      [rewrite Hp; case_bool; lia|]. rewrite Ho.
    exists (decrement_tail r). split; [by destruct o|]. split; [done|].
    assert (Hs : u64 (m_contents_size r - 1) = m_contents_size r - 1) by (apply u64_small; lia).
    constructor; cbn; rewrite ?length_take, ?Hs, ?Hp; try lia.
    + case_bool; lia.
    + rewrite tail_idx with (t := m_tail r) by (done || lia).
      case_bool; ring_arith; repeat case_bool; lia.
    + intros i Hi. rewrite rep_slot0 by lia. f_equal. unfold lget. case_bool; [done|].
      rewrite lookup_take_lt; [done|lia].
Qed.

Lemma at_checked_rep r xs i :
  rep r xs -> 0 <= i ->
  at_checked i r = (match lget xs i with Some x => Ok x | None => Throw OutOfRange end, r).
Proof.
  intros [] Hi. unfold at_checked, at_unchecked, slot_read, index_to_subscript, normalise.
  destruct (Z.leb_spec (m_contents_size r) i) as [Hge|Hlt].
  - destruct (lget xs i) eqn:E; [|done].
    assert (is_Some (lget xs i)) as Hs by (by eexists). apply lget_is_Some in Hs. lia.
  - destruct (Z.eqb_spec (m_capacity r) 0); [lia|].
    rewrite u64_small, (Z.add_comm i), rep_slot0 by lia.
    destruct (lget_Some_inv xs i) as [x ->]; [lia|]. done.
Qed.

Lemma front_rep r x xs : rep r (x :: xs) -> front r = (Ok x, r).
Proof.
  intros []. unfold front, slot_read. cbn [length] in *. specialize (rep_slot0 0).
  rewrite Z.add_0_r, Z.mod_small in rep_slot0 by lia. by rewrite rep_slot0 by lia.
Qed.

Lemma back_rep r x xs : rep r (xs ++ [x]) -> back r = (Ok x, r).
Proof.
  intros []. unfold back, slot_read. rewrite length_app in *. cbn [length] in *.
  specialize (rep_slot0 (m_contents_size r - 1)).
  replace ((m_head r + (m_contents_size r - 1)) mod m_capacity r) with (m_tail r) in rep_slot0
    by (symmetry; apply tail_idx; done || lia).
  rewrite rep_slot0 by lia.
  replace (m_contents_size r - 1) with (Z.of_nat (length xs)) by lia. by rewrite lget_app_end.
Qed.

(** The destructor loop of [clear] stays in the window of live slots. *)
Lemma clear_from_ok k : forall n r,
  2 <= m_capacity r < 2 ^ 63 -> Z.of_nat (length (m_array r)) = m_capacity r ->
  0 <= m_head r < m_capacity r -> 0 <= n -> n + Z.of_nat k <= m_capacity r ->
  (forall i, n <= i < n + Z.of_nat k ->
    exists x, lget (m_array r) ((m_head r + i) mod m_capacity r) = Some (Some x)) ->
  exists a, clear_from k n r = (Ok tt, with_array r a) /\ length a = length (m_array r).
Proof.
  induction k as [|k IH]; intros n r Hc Hl Hh Hn Hk Hs.
  - exists (m_array r). by destruct r.
  - cbn [clear_from]. munfold. unfold slot_destroy, index_to_subscript, normalise.
    rewrite (u64_small (n + m_head r)), (u64_small (n + 1)), (Z.add_comm n (m_head r)) by lia.
    destruct (Hs n) as [x Hx]; [lia|]. rewrite Hx.
    pose proof (idx_range (m_capacity r) (m_head r) n) as Hp.
    set (r1 := if trivial then r else _).
    assert (Hr1 : exists a, r1 = with_array r a /\ length a = length (m_array r) /\
      forall i, n + 1 <= i < n + Z.of_nat (S k) ->
        lget a ((m_head r + i) mod m_capacity r) =
        lget (m_array r) ((m_head r + i) mod m_capacity r)).
    { destruct trivial; subst r1.
      - exists (m_array r). by destruct r.
      - eexists. split; [reflexivity|]. rewrite length_lset. split; [done|].
        intros i Hi. apply lget_lset_ne; [lia|]. apply idx_inj; lia. }
    destruct Hr1 as (a & -> & Ha & Heq).
    destruct (IH (n + 1) (with_array r a)) as (a' & -> & Ha'); cbn in *; try lia.
    + intros i Hi. rewrite Heq by lia. apply Hs. lia.
    + exists a'. split; [done|lia].
Qed.

Lemma clear_rep r xs :
  rep r xs -> exists r', clear r = (Ok tt, r') /\ m_capacity r' = m_capacity r /\ rep r' [].
Proof.
  intros []. unfold clear. munfold.
  destruct (clear_from_ok (Z.to_nat (m_contents_size r)) 0 r) as (a & -> & Ha); try lia.
  { intros i Hi. destruct (lget_Some_inv xs i) as [x Hx]; [lia|].
    exists x. by rewrite rep_slot0, Hx by lia. }
  eexists. split; [reflexivity|]. split; [done|].
  constructor; cbn; try lia; try done; intros; lia.
Qed.

Lemma repeat_pop_front k : forall r xs,
  rep r xs ->
  exists r', repeat_op k pop_front r = (Ok tt, r') /\ m_capacity r' = m_capacity r /\
    rep r' (drop k xs).
Proof.
  induction k as [|k IH]; intros r xs Hr.
  - exists r. by rewrite drop_0.
  - destruct (pop_front_rep r xs Hr) as (r1 & H1 & Hc1 & Hr1).
    destruct (IH _ _ Hr1) as (r2 & H2 & Hc2 & Hr2).
    exists r2. cbn [repeat_op]. rewrite (M_bind_ok _ _ _ _ _ _ _ _ H1), H2.
    rewrite drop_drop in Hr2. split; [done|]. split; [lia|done].
Qed.

Lemma repeat_pop_back k : forall r xs,
  trivial = true -> rep r xs ->
  exists r', repeat_op k pop_back r = (Ok tt, r') /\ m_capacity r' = m_capacity r /\
    rep r' (take (length xs - k) xs).
Proof.
  induction k as [|k IH]; intros r xs Ht Hr.
  - exists r. by rewrite Nat.sub_0_r, take_ge.
  - destruct (pop_back_rep r xs Ht Hr) as (r1 & H1 & Hc1 & Hr1).
    destruct (IH _ _ Ht Hr1) as (r2 & H2 & Hc2 & Hr2).
    exists r2. cbn [repeat_op]. rewrite (M_bind_ok _ _ _ _ _ _ _ _ H1), H2.
    rewrite take_take, length_take in Hr2. split; [done|]. split; [lia|].
    eassert (E : (length xs - S k)%nat = _); [|rewrite E; exact Hr2]. lia.
Qed.

Lemma skip_rep r xs len :
  0 <= len -> rep r xs ->
  exists r', skip len r = (Ok tt, r') /\ m_capacity r' = m_capacity r /\
    rep r' (drop (Z.to_nat len) xs).
Proof.
  intros Hlen Hr. unfold skip. rewrite (rep_size _ _ Hr).
  destruct (Z.leb_spec (Z.of_nat (length xs)) len).
  - rewrite drop_ge by lia. by apply clear_rep with xs.
  - by apply repeat_pop_front.
Qed.

Lemma chop_rep r xs len :
  trivial = true -> 0 <= len -> rep r xs ->
  exists r', chop len r = (Ok tt, r') /\ m_capacity r' = m_capacity r /\
    rep r' (take (length xs - Z.to_nat len) xs).
Proof.
  intros Ht Hlen Hr. unfold chop. rewrite (rep_size _ _ Hr).
  destruct (Z.leb_spec (Z.of_nat (length xs)) len).
  - replace (length xs - Z.to_nat len)%nat with 0%nat by lia. by apply clear_rep with xs.
  - by apply repeat_pop_back.
Qed.

(** The last [n] elements of a list: what a ring of capacity [n] keeps. *)
Definition last_n (n : Z) (xs : list A) : list A := drop (length xs - Z.to_nat n) xs.

Lemma length_last_n n xs : 0 <= n -> Z.of_nat (length (last_n n xs)) <= n.
Proof. intros. unfold last_n. rewrite length_drop. lia. Qed.

Lemma last_n_all n xs : Z.of_nat (length xs) <= n -> last_n n xs = xs.
Proof. intros. unfold last_n. replace (length xs - Z.to_nat n)%nat with 0%nat by lia. done. Qed.

Lemma push_spec_last_n c xs x :
  1 <= c -> push_spec c (last_n c xs) x = last_n c (xs ++ [x]).
Proof.
  intros Hc. unfold push_spec, last_n. rewrite length_drop, length_app. cbn [length].
  destruct (Z.eqb_spec (Z.of_nat (length xs - (length xs - Z.to_nat c))) c).
  - rewrite drop_drop, <- drop_app_le by lia. f_equal. lia.
  - rewrite drop_app_le by lia. f_equal. f_equal. lia.
Qed.

Lemma assign_steps_rep src xs : forall k pos d ys,
  rep src xs -> 0 <= pos -> pos + Z.of_nat k <= Z.of_nat (length xs) ->
  rep d (last_n (m_capacity d) ys) ->
  exists d', assign_steps src k pos d = (Ok tt, d') /\ m_capacity d' = m_capacity d /\
    rep d' (last_n (m_capacity d) (ys ++ take k (drop (Z.to_nat pos) xs))).
Proof.
  induction k as [|k IH]; intros pos d ys Hs Hp Hk Hd.
  - exists d. by rewrite take_0, app_nil_r.
  - cbn [assign_steps].
    assert (Hat : exists x, at_unchecked pos src = (Ok x, src) /\ lget xs pos = Some x).
    { destruct (lget_Some_inv xs pos) as [x Hx]; [lia|]. exists x. split; [|done].
      pose proof (at_checked_rep src xs pos Hs) as Hc. pose proof (rep_fits _ _ Hs).
      pose proof (rep_cap _ _ Hs). pose proof (rep_size _ _ Hs).
      rewrite Hx in Hc. unfold at_checked in Hc.
      destruct (Z.leb_spec (m_contents_size src) pos); [lia|]. apply Hc. lia. }
    destruct Hat as (x & -> & Hx).
    destruct (push_back_rep d _ x Hd) as (d1 & H1 & Hc1 & Hd1).
    rewrite (M_bind_ok _ _ _ _ _ _ _ _ H1).
    pose proof (rep_cap _ _ Hd). pose proof (rep_cap _ _ Hs).
    pose proof (rep_fits _ _ Hs). pose proof (rep_size _ _ Hs).
    rewrite push_spec_last_n in Hd1 by lia. rewrite <- Hc1 in Hd1.
    destruct (IH (u64 (pos + 1)) d1 (ys ++ [x])) as (d2 & Hr2 & Hc2 & Hd2);
      try (rewrite ?u64_small; done || lia).
    exists d2. split; [done|]. split; [lia|]. rewrite Hc1, u64_small in Hd2 by lia.
    replace (take (S k) (drop (Z.to_nat pos) xs))
      with (x :: take k (drop (Z.to_nat (pos + 1)) xs)).
    + by rewrite <- app_assoc in Hd2.
    + unfold lget in Hx. destruct (Z.ltb_spec pos 0); [lia|].
      rewrite (drop_S _ _ _ Hx). cbn. do 3 f_equal; lia.
Qed.

Lemma reserve_rep r xs n :
  rep r xs -> 2 <= n < 2 ^ 63 ->
  exists r', reserve n r = (Ok tt, r') /\ m_capacity r' = n /\ rep r' (last_n n xs).
Proof.
  intros Hr Hn. pose proof (rep_cap _ _ Hr). pose proof (rep_size _ _ Hr) as Hs.
  pose proof (rep_fits _ _ Hr). unfold reserve, capacity, size.
  destruct (Z.eqb_spec n (m_capacity r)) as [->|Hne].
  { exists r. rewrite last_n_all by lia. done. }
  set (off := if n <? m_contents_size r then u64 (m_contents_size r - n) else 0).
  assert (Hoff : off = Z.max 0 (m_contents_size r - n)).
  { subst off. case_bool; rewrite ?u64_small; lia. }
  unfold assign_into. munfold. change (0 <? 0) with false. cbn.
  destruct (assign_steps_rep r xs (Z.to_nat (m_contents_size r - off)) off (new n) [])
    as (d & Hd & Hcd & Hrd); try (done || lia).
  { apply new_rep. lia. }
  rewrite Hd. destruct (clear_rep r xs Hr) as (r1 & -> & _).
  exists d. split; [done|]. split; [done|]. cbn in Hrd.
  rewrite take_ge in Hrd by (rewrite length_drop; lia).
  eassert (E : last_n n xs = _); [|rewrite E; exact Hrd].
  unfold last_n. rewrite length_drop, drop_drop. f_equal. lia.
Qed.

(** ** The abstract bounded queue and the simulation *)
Inductive op : Type :=
  | PushBack (x : A)
  | PopFront
  | Skip (n : Z)
  | Clear
  | Reserve (n : Z)
  | At (i : Z).

Definition op_ok (o : op) : Prop :=
  match o with
  | Skip n => 0 <= n
  | Reserve n => 2 <= n < 2 ^ 63
  | At i => 0 <= i
  | _ => True
  end.

(** An observation: what [At] returned or threw. *)
Definition obs : Type := option (outcome A).

Definition exec (o : op) : M ring obs :=
  match o with
  | PushBack x => push_back x;; mret None
  | PopFront => pop_front;; mret None
  | Skip n => skip n;; mret None
  | Clear => clear;; mret None
  | Reserve n => reserve n;; mret None
  | At i => fun r => match at_checked i r with (o, r') => (Ok (Some o), r') end
  end.

Fixpoint run (os : list op) : M ring (list obs) :=
  match os with
  | [] => mret []
  | o :: os' => b ← exec o; bs ← run os'; mret (b :: bs)
  end.

(** The specification: a capacity and a list of at most that many elements. *)
Definition spec_exec (o : op) (s : Z * list A) : obs * (Z * list A) :=
  let '(c, xs) := s in
  match o with
  | PushBack x => (None, (c, last_n c (xs ++ [x])))
  | PopFront => (None, (c, drop 1 xs))
  | Skip n => (None, (c, drop (Z.to_nat n) xs))
  | Clear => (None, (c, []))
  | Reserve n => (None, (n, last_n n xs))
  | At i => (Some (match lget xs i with Some x => Ok x | None => Throw OutOfRange end), s)
  end.

Fixpoint spec_run (os : list op) (s : Z * list A) : list obs * (Z * list A) :=
  match os with
  | [] => ([], s)
  | o :: os' =>
      let (b, s1) := spec_exec o s in
      let (bs, s2) := spec_run os' s1 in (b :: bs, s2)
  end.

(** The simulation relation. *)
Definition sim (r : ring) (s : Z * list A) : Prop := m_capacity r = s.1 /\ rep r s.2.

Lemma exec_sim o r s :
  op_ok o -> sim r s ->
  exists r', exec o r = (Ok (spec_exec o s).1, r') /\ sim r' (spec_exec o s).2.
Proof.
  destruct s as [c xs]. intros Hok [Hc Hr]. cbn in Hc, Hr.
  assert (Hunit : forall m, (exists r', m r = (Ok tt, r') /\ m_capacity r' = m_capacity r /\
      rep r' (spec_exec o (c, xs)).2.2) -> (spec_exec o (c, xs)).2.1 = c ->
      exists r', (m;; mret (M := M ring) (None : obs)) r = (Ok None, r') /\
        sim r' (spec_exec o (c, xs)).2).
  { intros m (r' & Hm & Hc' & Hr') Hcap. exists r'.
    rewrite (M_bind_ok _ _ _ _ _ _ _ _ Hm). split; [done|]. split; [congruence|done]. }
  destruct o as [x| |n| |n|i]; cbn [exec spec_exec] in *.
  - apply Hunit; [|done]. destruct (push_back_rep r xs x Hr) as (r' & H1 & H2 & H3).
    exists r'. split; [done|]. split; [done|]. pose proof (rep_cap _ _ Hr).
    cbn. rewrite <- push_spec_last_n by lia. rewrite Hc in H3.
    rewrite last_n_all; [done|]. pose proof (rep_fits _ _ Hr). pose proof (rep_size _ _ Hr). lia.
  - apply Hunit; [|done]. by apply pop_front_rep.
  - apply Hunit; [|done]. by apply skip_rep.
  - apply Hunit; [|done]. by apply clear_rep with xs.
  - destruct (reserve_rep r xs n Hr Hok) as (r' & H1 & H2 & H3).
    exists r'. by rewrite (M_bind_ok _ _ _ _ _ _ _ _ H1).
  - exists r. by rewrite (at_checked_rep r xs i Hr Hok).
Qed.

Lemma run_sim os : forall r s,
  Forall op_ok os -> sim r s ->
  exists r', run os r = (Ok (spec_run os s).1, r') /\ sim r' (spec_run os s).2.
Proof.
  induction os as [|o os IH]; intros r s Hok Hs.
  - by exists r.
  - inversion Hok as [|? ? Ho Hos]; subst.
    destruct (exec_sim o r s Ho Hs) as (r1 & H1 & Hs1).
    destruct (IH _ _ Hos Hs1) as (r2 & H2 & Hs2).
    exists r2. cbn [run spec_run].
    rewrite (M_bind_ok _ _ _ _ _ _ _ _ H1), (M_bind_ok _ _ _ _ _ _ _ _ H2).
    destruct (spec_exec o s) as [b s1]. cbn in *. by destruct (spec_run os s1) as [bs s2].
Qed.

End Ring.
Arguments ring A : clear implicits.
Arguments op A : clear implicits.

(** C1: Started empty with a capacity of at least two and below 2^63, the ring is a
    bounded queue: any sequence of appends, removals at the front, skips, clears,
    checked reads and reservations of at least two and fewer than 2^63 places runs
    without undefined behaviour, every checked read returns or throws what the
    list says, a full ring drops its oldest element, and [reserve] keeps the last
    elements that fit.  A capacity of one, given at first or reserved, is outside:
    the head then starts behind the array ([reserve_one_undefined]). *)
Theorem ringbuffer_refines_queue {A} (trivial : bool) (c : Z) (os : list (op A)) :
  2 <= c < 2 ^ 63 -> Forall op_ok os ->
  exists r', run trivial os (new c) = (Ok (spec_run os (c, [])).1, r') /\
    sim r' (spec_run os (c, [])).2.
Proof. intros Hc Hok. apply run_sim; [done|]. split; [done|]. by apply new_rep. Qed.

Lemma ringbuffer_refines_queue_witness :
  exists r', run false [PushBack 1; PushBack 2; PushBack 3; At 0; PopFront; At 1] (new 2)
    = (Ok [None; None; None; Some (Ok 2); None; Some (Throw OutOfRange)], r') /\
    sim r' (2, [3]).
Proof.
  apply (ringbuffer_refines_queue false 2
    [PushBack 1; PushBack 2; PushBack 3; At 0; PopFront; At 1]); [lia|].
  repeat constructor; cbn; lia.
Defined.

(** A reservation of one place is accepted, and the next element can be stored, but removing it is undefined for
    every element type: the head of the new ring is 1. *)
Lemma reserve_one_undefined {A} (trivial : bool) (c : Z) (x : A) : 2 <= c ->
  exists r, (reserve trivial 1;; push_back trivial x;; pop_front trivial) (new c) = (Throw UB, r).
Proof.
  intros Hc. unfold reserve. unfold mbind at 1, M_bind at 1. cbn [capacity m_capacity new].
  destruct (Z.eqb_spec 1 c); [lia|]. eexists. reflexivity.
Qed.

(** On trivially destructible elements [chop] removes exactly the last
    [len] elements, however the contents are wrapped in the array, and on any
    elements [push_front] on a ring that is not full puts the element first. *)
Theorem ringbuffer_double_ended {A} (trivial : bool) (r : ring A) (xs : list A) (len : Z) (x : A) :
  rep r xs -> 0 <= len ->
  (trivial = true -> exists r', chop trivial len r = (Ok tt, r') /\
     rep r' (take (length xs - Z.to_nat len) xs)) /\
  (Z.of_nat (length xs) <> m_capacity r -> exists r', push_front trivial x r = (Ok tt, r') /\
     rep r' (x :: xs)).
Proof.
  intros Hr Hlen. split.
  - intros Ht. destruct (chop_rep trivial r xs len Ht Hlen Hr) as (r' & H1 & _ & H2). by exists r'.
  - intros Hne. destruct (push_front_room trivial r xs x Hr Hne) as (r' & H1 & _ & H2). by exists r'.
Qed.

Lemma ringbuffer_double_ended_witness :
  exists r', chop true 1 (mk_ring 2 [Some 7; Some 5] 1 0 2) = (Ok tt, r') /\ rep r' [5].
Proof.
  apply (ringbuffer_double_ended true (mk_ring 2 [Some 7; Some 5] 1 0 2) [5; 7] 1 0); [|lia|done].
  constructor; cbn; try lia; try done.
  intros i Hi. assert (i = 0 \/ i = 1) as [-> | ->] by lia; done.
Defined.

(** [pop_back] destroys the wrong object: when the element type has a real
    destructor and at least two elements are stored, it ends the lifetime of
    the element that becomes the last one, so the next [back] is undefined. *)
Theorem pop_back_destroys_last {A} (r : ring A) (xs : list A) :
  rep r xs -> (2 <= length xs)%nat ->
  exists r', pop_back false r = (Ok tt, r') /\ m_contents_size r' = Z.of_nat (length xs) - 1 /\
    back r' = (Throw UB, r').
Proof.
  intros [] Hl. unfold pop_back. munfold. unfold empty.
  destruct (Z.eqb_spec 0 (m_contents_size r)); [lia|].
  pose proof (tail_idx (m_capacity r) (m_head r) (m_tail r) (m_contents_size r)) as Ht.
  assert (Hp : previous_tail r = (m_head r + (m_contents_size r - 2)) mod m_capacity r).
  { specialize (Ht ltac:(lia) ltac:(lia) ltac:(lia) rep_ends0). revert Ht.
    unfold previous_tail. rewrite !mod_wrap by lia. case_bool; rewrite ?u64_small; lia. }
  destruct (lget_Some_inv xs (m_contents_size r - 2)) as [x Hx]; [lia|].
  unfold slot_destroy. cbn. rewrite Hp, rep_slot0, Hx by lia.
  eexists. split; [reflexivity|]. cbn. split; [rewrite u64_small; lia|].
  unfold back, slot_read. cbn. rewrite Hp, lget_lset_eq; [done|].
  rewrite rep_len0. apply idx_range. lia.
Qed.

Lemma pop_back_destroys_last_witness :
  exists r', pop_back false (mk_ring 2 [Some 7; Some 5] 1 0 2) = (Ok tt, r') /\
    m_contents_size r' = 1 /\ back r' = (Throw UB, r').
Proof.
  apply (pop_back_destroys_last (mk_ring 2 [Some 7; Some 5] 1 0 2) [5; 7]); [|cbn; lia].
  constructor; cbn; try lia; try done.
  intros i Hi. assert (i = 0 \/ i = 1) as [-> | ->] by lia; done.
Defined.

(** With the default capacity of one, [front] reads outside the array
    after the first [push_back], although the checked access finds the element;
    and [push_front] on a full ring records more elements than the capacity. *)
Theorem ringbuffer_edge_defects {A} (trivial : bool) (x : A) :
  (exists r, push_back trivial x (new 1) = (Ok tt, r) /\ at_checked 0 r = (Ok x, r) /\
     front r = (Throw UB, r)) /\
  (forall r xs, rep r xs -> Z.of_nat (length xs) = m_capacity r ->
     exists r', push_front trivial x r = (Ok tt, r') /\ m_contents_size r' = m_capacity r' + 1).
Proof.
  split.
  - eexists. split; [reflexivity|]. split; reflexivity.
  - intros r xs [] Heq. unfold push_front. munfold.
    destruct (Z.eqb_spec (m_contents_size r) (m_capacity r)); [|lia].
    assert (Hp : previous_head r = (m_head r + (m_capacity r - 1)) mod m_capacity r).
    { unfold previous_head. rewrite mod_wrap by lia. case_bool; rewrite ?u64_small; lia. }
    destruct (lget_Some_inv xs (m_capacity r - 1)) as [y Hy]; [lia|].
    unfold slot_assign. rewrite Hp, rep_slot0, Hy by lia.
    eexists. split; [reflexivity|]. cbn. rewrite u64_small; lia.
Qed.

End RingBuffer.
