(* ===== verification/RingIter.v ===== *)
(** * Iterators and comparisons of the circular buffer, include/piduino/ringbuffer.h

    [iterator_] is the address of a buffer and a position counted from its head;
    the buffers of the program are a function of the address.  The loops of the
    standard algorithms that the class uses are written with the operators of the
    iterator, so that a range is visited exactly when these operators say so.
    The free operators [n + it] and [n - it] convert a number to an iterator,
    which no constructor does; they cannot be instantiated and are left out. *)
From S2P Require Import Prelude RingBuffer.

Module RingIter.
Import RingBuffer.

(** ** [iterator_] *)
Record iter : Type := mk_iter { m_buf : Z; m_pos : Z }.
(** [difference_type] is a signed integer of 64 bits. *)
Definition i64 (x : Z) : Z := (x + 2 ^ 63) mod 2 ^ 64 - 2 ^ 63.

Definition incr (it : iter) : iter := mk_iter (m_buf it) (u64 (m_pos it + 1)).
Definition incr_post (it : iter) : iter * iter := (it, incr it).
Definition decr (it : iter) : iter := mk_iter (m_buf it) (u64 (m_pos it - 1)).
Definition decr_post (it : iter) : iter * iter := (it, decr it).
Definition plus (it : iter) (n : Z) : iter := mk_iter (m_buf it) (u64 (m_pos it + n)).
Definition minus (it : iter) (n : Z) : iter := mk_iter (m_buf it) (u64 (m_pos it - n)).
Definition distance (it c : iter) : Z := i64 (u64 (m_pos it - m_pos c)).

Definition iter_eq (it other : iter) : bool := (m_pos it =? m_pos other) && (m_buf it =? m_buf other).
Definition iter_ne (it other : iter) : bool := negb (m_pos it =? m_pos other) && (m_buf it =? m_buf other).
Definition iter_gt (it other : iter) : bool := m_pos other <? m_pos it.
Definition iter_ge (it other : iter) : bool := m_pos other <=? m_pos it.
Definition iter_lt (it other : iter) : bool := m_pos it <? m_pos other.
Definition iter_le (it other : iter) : bool := m_pos it <=? m_pos other.

Section Mem.
Context {A : Type} (mem : Z -> ring A).

Definition deref (it : iter) : outcome A := (at_unchecked (m_pos it) (mem (m_buf it))).1.
Definition begin_ (b : Z) : iter := mk_iter b 0.
Definition end_ (b : Z) : iter := mk_iter b (size (mem b)).

(** [std::reverse_iterator] holds the iterator one past its element. *)
Definition rbegin (b : Z) : iter := end_ b.
Definition rend (b : Z) : iter := begin_ b.
Definition rderef (it : iter) : outcome A := deref (decr it).

(** ** The loops over a range *)
Definition cons_ok (o : outcome A) (k : outcome (list A)) : outcome (list A) :=
  match o, k with
  | Ok x, Ok xs => Ok (x :: xs)
  | Ok _, Throw e => Throw e
  | Throw e, _ => Throw e
  end.

Fixpoint traverse (fuel : nat) (from to : iter) : outcome (list A) :=
  if iter_ne from to then
    match fuel with
    | O => Throw OutOfFuel
    | S f => cons_ok (deref from) (traverse f (incr from) to)
    end
  else Ok [].

Fixpoint rtraverse (fuel : nat) (from to : iter) : outcome (list A) :=
  if iter_ne from to then
    match fuel with
    | O => Throw OutOfFuel
    | S f => cons_ok (rderef from) (rtraverse f (decr from) to)
    end
  else Ok [].

(** [std::equal] and [std::lexicographical_compare] *)
Fixpoint equal (eqb : A -> A -> bool) (fuel : nat) (first1 last1 first2 : iter) : outcome bool :=
  if iter_ne first1 last1 then
    match fuel with
    | O => Throw OutOfFuel
    | S f =>
        match deref first1, deref first2 with
        | Ok x, Ok y => if eqb x y then equal eqb f (incr first1) last1 (incr first2) else Ok false
        | Throw e, _ | _, Throw e => Throw e
        end
    end
  else Ok true.

Fixpoint lexicographical_compare (ltb : A -> A -> bool) (fuel : nat) (first1 last1 first2 last2 : iter) : outcome bool :=
  if iter_ne first1 last1 && iter_ne first2 last2 then
    match fuel with
    | O => Throw OutOfFuel
    | S f =>
        match deref first1, deref first2 with
        | Ok x, Ok y =>
            if ltb x y then Ok true else if ltb y x then Ok false
            else lexicographical_compare ltb f (incr first1) last1 (incr first2) last2
        | Throw e, _ | _, Throw e => Throw e
        end
    end
  else Ok (iter_eq first1 last1 && iter_ne first2 last2).

(** ** The comparisons of two buffers *)
Definition ring_eq (eqb : A -> A -> bool) (fuel : nat) (lhs rhs : Z) : outcome bool :=
  if size (mem lhs) =? size (mem rhs) then equal eqb fuel (begin_ lhs) (end_ lhs) (begin_ rhs) else Ok false.
Definition ring_ne (eqb : A -> A -> bool) (fuel : nat) (lhs rhs : Z) : outcome bool :=
  match ring_eq eqb fuel lhs rhs with Ok b => Ok (negb b) | Throw e => Throw e end.
Definition ring_lt (ltb : A -> A -> bool) (fuel : nat) (lhs rhs : Z) : outcome bool :=
  lexicographical_compare ltb fuel (begin_ lhs) (end_ lhs) (begin_ rhs) (end_ rhs).

(** ** The constructor from a range, and the assignment *)
Fixpoint assign_loop (trivial : bool) (fuel : nat) (from to : iter) : M (ring A) unit :=
  if iter_ne from to then
    match fuel with
    | O => throw OutOfFuel
    | S f =>
        match deref from with
        | Ok x => push_back trivial x;; assign_loop trivial f (incr from) to
        | Throw e => throw e
        end
    end
  else mret tt.

Definition range_new (trivial : bool) (fuel : nat) (from to : iter) : outcome unit * ring A :=
  assign_loop trivial fuel from to (new (u64 (distance to from))).

End Mem.

(** [swap]: everything but the allocator is exchanged. *)
Definition swap {A} (r other : ring A) : ring A * ring A := (other, r).
(** [operator=]: its parameter is a copy, which takes the contents of the object and destroys them. *)
Definition assign_op {A} (trivial : bool) (other : ring A) : M (ring A) unit := fun r =>
  match copy trivial other with
  | (Ok _, c) => let '(c, r) := swap c r in match clear trivial c with (o, _) => (o, r) end
  | (Throw e, _) => (Throw e, r)
  end.

(** ** What the operators say of a range of one buffer *)
Lemma ne_same b p q : iter_ne (mk_iter b p) (mk_iter b q) = negb (p =? q).
Proof. unfold iter_ne. cbn. by rewrite Z.eqb_refl, andb_true_r. Qed.

(** Between two buffers neither operator holds: they are not the negation of each other. *)
Lemma iter_ne_other b b' p q : b <> b' -> p <> q ->
  iter_eq (mk_iter b p) (mk_iter b' q) = false /\ iter_ne (mk_iter b p) (mk_iter b' q) = false.
Proof. intros Hb Hp. unfold iter_eq, iter_ne. cbn. case_bool; try done; lia. Qed.

Lemma distance_range b p q : 0 <= p <= q -> q < 2 ^ 63 -> distance (mk_iter b q) (mk_iter b p) = q - p.
Proof. intros. unfold distance, i64. cbn. rewrite u64_small by lia. rewrite Z.mod_small by lia. lia. Qed.

Lemma plus_distance b p q : 0 <= p < 2 ^ 63 -> 0 <= q < 2 ^ 63 ->
  plus (mk_iter b p) (distance (mk_iter b q) (mk_iter b p)) = mk_iter b q.
Proof.
  intros. unfold plus, distance, i64, u64. cbn. f_equal.
  rewrite Zplus_mod_idemp_l.
  replace (p + ((q - p + 2 ^ 63) mod 2 ^ 64 - 2 ^ 63)) with ((q - p + 2 ^ 63) mod 2 ^ 64 + (p - 2 ^ 63)) by lia.
  rewrite Zplus_mod_idemp_l. rewrite Z.mod_small; lia.
Qed.

Section Loops.
Context {A : Type} (mem : Z -> ring A) (b : Z) (xs : list A).
Hypothesis Hrep : rep (mem b) xs.

Lemma size_bound : size (mem b) = Z.of_nat (length xs) /\ Z.of_nat (length xs) < 2 ^ 63.
Proof. destruct Hrep. unfold size. lia. Qed.

Lemma deref_rep i x : xs !! i = Some x -> deref mem (mk_iter b (Z.of_nat i)) = Ok x.
Proof.
  intros Hi. pose proof (lookup_lt_Some _ _ _ Hi). pose proof size_bound as [Hs Hb]. unfold size in Hs.
  pose proof (at_checked_rep (mem b) xs (Z.of_nat i) Hrep) as Hc.
  unfold at_checked in Hc. destruct (Z.leb_spec (m_contents_size (mem b)) (Z.of_nat i)); [lia|].
  unfold deref. cbn. rewrite Hc by lia. unfold lget. case_bool; [lia|]. by rewrite Nat2Z.id, Hi.
Qed.

Lemma incr_at i : (i < length xs)%nat -> incr (mk_iter b (Z.of_nat i)) = mk_iter b (Z.of_nat (S i)).
Proof. intros. pose proof size_bound. unfold incr. cbn [m_buf m_pos]. rewrite u64_small by lia. f_equal. lia. Qed.

Lemma decr_at i : (i < length xs)%nat -> decr (mk_iter b (Z.of_nat (S i))) = mk_iter b (Z.of_nat i).
Proof. intros. pose proof size_bound. unfold decr. cbn [m_buf m_pos]. rewrite u64_small by lia. f_equal. lia. Qed.

Lemma end_at : end_ mem b = mk_iter b (Z.of_nat (length xs)).
Proof. unfold end_. by rewrite (proj1 size_bound). Qed.

Lemma ne_at i j : iter_ne (mk_iter b (Z.of_nat i)) (mk_iter b (Z.of_nat j)) = negb (bool_decide (i = j)).
Proof. rewrite ne_same. f_equal. destruct (Z.eqb_spec (Z.of_nat i) (Z.of_nat j)); [rewrite bool_decide_true|rewrite bool_decide_false]; done || lia. Qed.

Lemma eq_at i j : iter_eq (mk_iter b (Z.of_nat i)) (mk_iter b (Z.of_nat j)) = bool_decide (i = j).
Proof.
  unfold iter_eq. cbn. rewrite Z.eqb_refl, andb_true_r.
  destruct (Z.eqb_spec (Z.of_nat i) (Z.of_nat j)); [rewrite bool_decide_true|rewrite bool_decide_false]; done || lia.
Qed.

Lemma traverse_at ys : forall i fuel, drop i xs = ys -> (i <= length xs)%nat -> (length ys <= fuel)%nat ->
  traverse mem fuel (mk_iter b (Z.of_nat i)) (end_ mem b) = Ok ys.
Proof.
  induction ys as [|y ys IH]; intros i fuel Hd Hi Hf; rewrite end_at.
  - assert (i = length xs) as -> by (apply (f_equal length) in Hd; rewrite length_drop in Hd; cbn in Hd; lia).
    destruct fuel; cbn [traverse]; rewrite ne_at, bool_decide_true by done; done.
  - destruct fuel as [|f]; [cbn in Hf; lia|].
    assert (Hx : xs !! i = Some y) by (rewrite <- (Nat.add_0_r i), <- lookup_drop, Hd; done).
    pose proof (lookup_lt_Some _ _ _ Hx). cbn [traverse]. rewrite ne_at, bool_decide_false by lia. cbn [negb].
    rewrite (deref_rep _ _ Hx), incr_at by done. rewrite <- end_at. rewrite (IH (S i) f); [done| |lia|cbn in Hf; lia].
    rewrite (drop_S _ _ _ Hx) in Hd. by injection Hd.
Qed.

Lemma rtraverse_at i : forall fuel, (i <= length xs)%nat -> (i <= fuel)%nat ->
  rtraverse mem fuel (mk_iter b (Z.of_nat i)) (rend b) = Ok (reverse (take i xs)).
Proof.
  unfold rend, begin_. induction i as [|i IH]; intros fuel Hi Hf.
  - destruct fuel; done.
  - destruct fuel as [|f]; [lia|]. cbn [rtraverse]. change 0 with (Z.of_nat 0) in *.
    rewrite ne_at, bool_decide_false by lia. cbn [negb]. unfold rderef. rewrite decr_at by lia.
    destruct (lookup_lt_is_Some_2 xs i) as [x Hx]; [lia|]. rewrite (deref_rep _ _ Hx), IH by lia.
    cbn. by rewrite (take_S_r _ _ _ Hx), reverse_app.
Qed.
End Loops.

(** ** Comparisons as relations on the lists *)
Inductive lex {A} (ltb : A -> A -> bool) : list A -> list A -> Prop :=
  | lex_nil y ys : lex ltb [] (y :: ys)
  | lex_head x y xs ys : ltb x y = true -> lex ltb (x :: xs) (y :: ys)
  | lex_tail x y xs ys : ltb x y = false -> ltb y x = false -> lex ltb xs ys -> lex ltb (x :: xs) (y :: ys).

Section Compare.
Context {A : Type} (mem : Z -> ring A) (a b : Z) (xs ys : list A).
Hypothesis Ha : rep (mem a) xs.
Hypothesis Hb : rep (mem b) ys.

Lemma equal_at (eqb : A -> A -> bool) us : (forall x y, eqb x y = true <-> x = y) ->
  forall i fuel, drop i xs = us -> (i <= length xs)%nat -> length xs = length ys -> (length us <= fuel)%nat ->
  exists r, equal mem eqb fuel (mk_iter a (Z.of_nat i)) (end_ mem a) (mk_iter b (Z.of_nat i)) = Ok r /\
    (r = true <-> us = drop i ys).
Proof.
  intros He. induction us as [|x us IH]; intros i fuel Hd Hi Hl Hf; rewrite (end_at _ _ _ Ha).
  - assert (i = length xs) as -> by (apply (f_equal length) in Hd; rewrite length_drop in Hd; cbn in Hd; lia).
    exists true. split; [destruct fuel; cbn [equal]; by rewrite ne_at, bool_decide_true|].
    by rewrite Hl, drop_all.
  - destruct fuel as [|f]; [cbn in Hf; lia|].
    assert (Hx : xs !! i = Some x) by (rewrite <- (Nat.add_0_r i), <- lookup_drop, Hd; done).
    pose proof (lookup_lt_Some _ _ _ Hx). destruct (lookup_lt_is_Some_2 ys i) as [y Hy]; [lia|].
    cbn [equal]. rewrite ne_at, bool_decide_false by lia. cbn [negb].
    rewrite (deref_rep _ _ _ Ha _ _ Hx), (deref_rep _ _ _ Hb _ _ Hy), (drop_S _ _ _ Hy).
    rewrite (incr_at _ _ _ Ha), (incr_at _ _ _ Hb), <- (end_at _ _ _ Ha) by lia.
    rewrite (drop_S _ _ _ Hx) in Hd. injection Hd as Hd.
    destruct (eqb x y) eqn:E.
    + apply He in E as ->. destruct (IH (S i) f Hd) as (r & Hr & Hrr); [lia..|cbn in Hf; lia|].
      exists r. split; [done|]. rewrite Hrr. split; [congruence|by intros [= ?]].
    + exists false. split; [done|]. split; [done|]. intros [= -> _]. by rewrite (proj2 (He y y) eq_refl) in E.
Qed.

Lemma lex_at (ltb : A -> A -> bool) us : forall i fuel, drop i xs = us ->
  (i <= length xs)%nat -> (i <= length ys)%nat -> (length us <= fuel)%nat ->
  exists r, lexicographical_compare mem ltb fuel (mk_iter a (Z.of_nat i)) (end_ mem a) (mk_iter b (Z.of_nat i)) (end_ mem b) = Ok r /\
    (r = true -> lex ltb us (drop i ys)) /\ ((forall x y, ltb x y = true -> ltb y x = false) -> lex ltb us (drop i ys) -> r = true).
Proof.
  induction us as [|x us IH]; intros i fuel Hd Hi Hj Hf; rewrite (end_at _ _ _ Ha), (end_at _ _ _ Hb).
  - assert (i = length xs) as -> by (apply (f_equal length) in Hd; rewrite length_drop in Hd; cbn in Hd; lia).
    exists (negb (bool_decide (length xs = length ys))). split.
    { destruct fuel; cbn [lexicographical_compare]; rewrite !ne_at, eq_at, !(bool_decide_true (length xs = length xs)) by done; done. }
    destruct (drop (length xs) ys) eqn:E; apply (f_equal length) in E; rewrite length_drop in E; cbn in E.
    + rewrite bool_decide_true by lia. split; [done|]. intros _ H. inversion H.
    + rewrite bool_decide_false by lia. split; [constructor|done].
  - destruct fuel as [|f]; [cbn in Hf; lia|].
    assert (Hx : xs !! i = Some x) by (rewrite <- (Nat.add_0_r i), <- lookup_drop, Hd; done).
    pose proof (lookup_lt_Some _ _ _ Hx). cbn [lexicographical_compare].
    rewrite !ne_at, (bool_decide_false (i = length xs)) by lia. cbn [negb andb].
    rewrite (drop_S _ _ _ Hx) in Hd. injection Hd as Hd.
    destruct (decide (i = length ys)) as [->|Hne].
    { rewrite eq_at, bool_decide_true, (bool_decide_false (length ys = length xs)) by lia. exists false.
      split; [done|]. split; [done|]. rewrite drop_all. intros _ H'. inversion H'. }
    rewrite (bool_decide_false (i = length ys)) by done. cbn [negb].
    destruct (lookup_lt_is_Some_2 ys i) as [y Hy]; [lia|].
    rewrite (deref_rep _ _ _ Ha _ _ Hx), (deref_rep _ _ _ Hb _ _ Hy), (drop_S _ _ _ Hy).
    rewrite (incr_at _ _ _ Ha), (incr_at _ _ _ Hb), <- (end_at _ _ _ Ha), <- (end_at _ _ _ Hb) by lia.
    destruct (ltb x y) eqn:E1; [exists true; by repeat constructor|].
    destruct (ltb y x) eqn:E2.
    + exists false. split; [done|]. split; [done|]. intros _ H'. inversion H'; congruence.
    + destruct (IH (S i) f Hd) as (r & Hr & H1 & H2); [lia..|cbn in Hf; lia|]. exists r. split; [done|]. split.
      * intros H3. by apply lex_tail; [..|apply H1].
      * intros Hs H3. apply H2; [done|]. inversion H3; congruence.
Qed.

Lemma ring_eq_rep (eqb : A -> A -> bool) fuel : (forall x y, eqb x y = true <-> x = y) -> (length xs <= fuel)%nat ->
  exists e, ring_eq mem eqb fuel a b = Ok e /\ (e = true <-> xs = ys).
Proof.
  intros He Hf. unfold ring_eq. rewrite (proj1 (size_bound _ _ _ Ha)), (proj1 (size_bound _ _ _ Hb)).
  destruct (Z.eqb_spec (Z.of_nat (length xs)) (Z.of_nat (length ys))).
  - destruct (equal_at eqb xs He 0 fuel) as (r & H1 & H2); [done|lia..|]. exists r. by rewrite drop_0 in H2.
  - exists false. split; [done|]. split; [done|]. intros ->. lia.
Qed.
End Compare.

Lemma lex_trichotomy {A} (ltb : A -> A -> bool) :
  (forall x y, ltb x y = false -> ltb y x = false -> x = y) -> forall xs ys, lex ltb xs ys \/ xs = ys \/ lex ltb ys xs.
Proof.
  intros Ht xs. induction xs as [|x xs IH]; intros [|y ys].
  - by right; left.
  - left. constructor.
  - right; right. constructor.
  - destruct (ltb x y) eqn:E1; [left; by constructor|]. destruct (ltb y x) eqn:E2; [right; right; by constructor|].
    pose proof (Ht x y E1 E2) as ->. destruct (IH ys) as [|[->|]]; [left|right; left|right; right]; by try apply lex_tail.
Qed.

Lemma lex_irrefl {A} (ltb : A -> A -> bool) : (forall x, ltb x x = false) -> forall xs, ~ lex ltb xs xs.
Proof.
  intros Hi xs. induction xs as [|x xs IH]; intros H; inversion H; subst; [|done]. by rewrite Hi in *.
Qed.

Lemma lex_asym {A} (ltb : A -> A -> bool) : (forall x y, ltb x y = true -> ltb y x = false) ->
  forall xs ys, lex ltb xs ys -> ~ lex ltb ys xs.
Proof.
  intros Hs xs ys H. induction H as [| x y xs ys Hl|x y xs ys H1 H2 H3 IH]; intros H'; inversion H'; subst; try congruence.
  apply Hs in Hl. congruence.
Qed.

(** ** The constructor from a range keeps the range, the assignment gives a copy *)
Lemma assign_loop_steps {A} trivial (mem : Z -> ring A) b xs : rep (mem b) xs -> forall k i fuel d,
  (i + k = length xs)%nat -> (k <= fuel)%nat ->
  assign_loop mem trivial fuel (mk_iter b (Z.of_nat i)) (end_ mem b) d = assign_steps trivial (mem b) k (Z.of_nat i) d.
Proof.
  intros Hr. induction k as [|k IH]; intros i fuel d Hi Hf; rewrite (end_at _ _ _ Hr).
  - replace i with (length xs) by lia. destruct fuel; cbn [assign_loop]; by rewrite ne_at, bool_decide_true.
  - destruct fuel as [|f]; [lia|]. cbn [assign_loop assign_steps]. rewrite ne_at, bool_decide_false by lia. cbn [negb].
    rewrite (incr_at _ _ _ Hr), <- (end_at _ _ _ Hr) by lia. unfold deref. cbn [m_buf m_pos].
    replace (u64 (Z.of_nat i + 1)) with (Z.of_nat (S i))
      by (pose proof (size_bound _ _ _ Hr); rewrite u64_small by lia; lia).
    destruct (at_unchecked (Z.of_nat i) (mem b)) as [[x|e] r']; [|done]. cbn.
    unfold mbind, M_bind. destruct (push_back trivial x d) as [[[]|e] d']; [|done]. apply IH; lia.
Qed.

Lemma range_new_rep {A} trivial (mem : Z -> ring A) b xs i fuel :
  rep (mem b) xs -> (i + 2 <= length xs)%nat -> (length xs <= fuel)%nat ->
  exists r, range_new mem trivial fuel (mk_iter b (Z.of_nat i)) (end_ mem b) = (Ok tt, r) /\ rep r (drop i xs) /\
    m_capacity r = Z.of_nat (length xs) - Z.of_nat i.
Proof.
  intros Hr Hi Hf. pose proof (size_bound _ _ _ Hr) as [_ Hb]. unfold range_new.
  assert (distance (end_ mem b) (mk_iter b (Z.of_nat i)) = Z.of_nat (length xs) - Z.of_nat i) as ->
    by (rewrite (end_at _ _ _ Hr), distance_range; lia).
  rewrite u64_small by lia.
  rewrite (assign_loop_steps _ _ _ _ Hr (length xs - i)) by lia.
  set (c := Z.of_nat (length xs) - Z.of_nat i).
  destruct (assign_steps_rep trivial (mem b) xs (length xs - i) (Z.of_nat i) (new c) []) as (d & Hd & Hc & Hrd); [done|lia..| |].
  { apply new_rep. lia. }
  exists d. split; [done|]. cbn [m_capacity new app] in Hrd, Hc. rewrite Nat2Z.id, take_ge in Hrd by (rewrite length_drop; lia).
  rewrite last_n_all in Hrd by (rewrite length_drop; lia). done.
Qed.

(** The copy constructor destroys the elements that the copied size announces before it makes them: undefined
    when destroying an element does something, harmless otherwise. *)
Lemma raw_slot {A} c i : 0 <= i < c -> lget (replicate (Z.to_nat c) (None : option A)) i = Some None.
Proof. intros. unfold lget. case_bool; [lia|]. apply lookup_replicate_2. lia. Qed.

Lemma subscript_range {A} (r : ring A) n : 0 < m_capacity r -> 0 <= index_to_subscript r n < m_capacity r.
Proof. intros. unfold index_to_subscript, normalise. apply Z.mod_pos_bound. lia. Qed.

Lemma copy_not_trivial {A} (r : ring A) x xs : rep r (x :: xs) -> exists r', copy false r = (Throw UB, r').
Proof.
  intros []. cbn [length] in *. unfold copy, assign_into. munfold. destruct (Z.ltb_spec 0 (m_contents_size r)); [|lia].
  unfold clear. munfold. replace (Z.to_nat (m_contents_size r)) with (S (length xs)) by lia. cbn [clear_from].
  munfold. unfold slot_destroy. cbn [m_array]. rewrite raw_slot; [by eexists|].
  match goal with |- 0 <= index_to_subscript ?q _ < _ => apply (subscript_range q 0) end. cbn. lia.
Qed.

Lemma clear_trivial {A} (r : ring A) : 0 < m_capacity r -> m_array r = replicate (Z.to_nat (m_capacity r)) None ->
  forall k n, clear_from true k n r = (Ok tt, r).
Proof.
  intros Hc Ha. induction k as [|k IH]; intros n; [done|]. cbn [clear_from]. munfold. unfold slot_destroy.
  rewrite Ha, raw_slot by by apply subscript_range. apply IH.
Qed.

Lemma copy_rep {A} (r : ring A) xs : rep r xs -> exists r', copy true r = (Ok tt, r') /\ rep r' xs /\ m_capacity r' = m_capacity r.
Proof.
  intros Hr. pose proof (rep_cap _ _ Hr). pose proof (rep_size _ _ Hr) as Hs. pose proof (rep_fits _ _ Hr).
  unfold copy, size.
  destruct (assign_steps_rep true r xs (length xs) 0 (new (m_capacity r)) []) as (d & Hd & Hc & Hrd); [done|lia..| |].
  { by apply new_rep. }
  cbn [m_capacity new app] in Hrd, Hc. rewrite drop_0, take_ge, last_n_all in Hrd by lia.
  unfold assign_into. unfold mbind at 1, M_bind at 1, gets at 1. cbn [m_contents_size].
  replace (Z.to_nat (m_contents_size r - 0)) with (length xs) by lia.
  destruct (Z.ltb_spec 0 (m_contents_size r)).
  - exists d. split; [|done]. unfold clear, mbind at 1, M_bind at 1. unfold mbind at 1, M_bind at 1.
    rewrite clear_trivial by (done || cbn; lia). done.
  - destruct xs; [|cbn in *; lia]. eexists. split; [done|]. split; [|done].
    destruct Hr. constructor; cbn; rewrite ?length_replicate; done || lia.
Qed.

Lemma assign_op_rep {A} (r other : ring A) ys xs : rep r ys -> rep other xs ->
  exists r', assign_op true other r = (Ok tt, r') /\ rep r' xs /\ m_capacity r' = m_capacity other.
Proof.
  intros Hr Ho. unfold assign_op. destruct (copy_rep other xs Ho) as (c & -> & Hc & Hcap). cbn [swap].
  destruct (clear_rep true r ys Hr) as (r' & -> & _). by exists c.
Qed.

(** C31: The range from [begin] to [end] visits the elements of the buffer in their order and the reverse range in the
    opposite order; of two buffers exactly one is less than the other or both are equal, [==] holds exactly when they
    have the same elements and [<] exactly when the first comes before in lexicographic order. *)
Theorem ring_iterators_exact {A} (mem : Z -> ring A) (eqb ltb : A -> A -> bool) (a b : Z) (xs ys : list A) (fuel : nat) :
  rep (mem a) xs -> rep (mem b) ys -> (length xs <= fuel)%nat -> (length ys <= fuel)%nat ->
  (forall x y, eqb x y = true <-> x = y) -> (forall x y, ltb x y = true -> ltb y x = false) ->
  (forall x y, ltb x y = false -> ltb y x = false -> x = y) ->
  traverse mem fuel (begin_ a) (end_ mem a) = Ok xs /\
  rtraverse mem fuel (rbegin mem a) (rend a) = Ok (reverse xs) /\
  exists e l g, ring_eq mem eqb fuel a b = Ok e /\ ring_ne mem eqb fuel a b = Ok (negb e) /\
    ring_lt mem ltb fuel a b = Ok l /\ ring_lt mem ltb fuel b a = Ok g /\
    (e = true <-> xs = ys) /\ (l = true <-> lex ltb xs ys) /\ (g = true <-> lex ltb ys xs) /\
    (e, l, g) ∈ [(true, false, false); (false, true, false); (false, false, true)].
Proof.
  intros Ha Hb Hf1 Hf2 He Hs Ht.
  split; [apply (traverse_at _ _ _ Ha xs 0); [done|lia|done]|].
  split.
  { unfold rbegin. rewrite (end_at _ _ _ Ha). rewrite (rtraverse_at _ _ _ Ha) by lia. by rewrite take_ge. }
  destruct (ring_eq_rep mem a b xs ys Ha Hb eqb fuel He Hf1) as (e & Hee & Hex).
  destruct (lex_at mem a b xs ys Ha Hb ltb xs 0 fuel) as (l & Hl & Hl1 & Hl2); [done|lia..|].
  destruct (lex_at mem b a ys xs Hb Ha ltb ys 0 fuel) as (g & Hg & Hg1 & Hg2); [done|lia..|].
  rewrite drop_0 in *. specialize (Hl2 Hs). specialize (Hg2 Hs).
  assert (Hi : forall x, ltb x x = false) by (intros x; destruct (ltb x x) eqn:E; [by rewrite (Hs _ _ E) in E|done]).
  exists e, l, g. unfold ring_ne. rewrite Hee.
  assert (Hlx : l = true <-> lex ltb xs ys) by done. assert (Hgx : g = true <-> lex ltb ys xs) by done.
  do 4 (split; [done|]). do 3 (split; [done|]).
  pose proof (lex_asym ltb Hs xs ys). pose proof (lex_irrefl ltb Hi xs).
  pose proof (lex_trichotomy ltb Ht xs ys). clear Hl Hg Hl1 Hl2 Hg1 Hg2 Hee.
  assert (xs = ys -> ~ lex ltb xs ys /\ ~ lex ltb ys xs) by (intros <-; done).
  set_unfold. destruct e, l, g; naive_solver.
Qed.

Lemma ring_iterators_exact_witness :
  let mem b := if b =? 1 then mk_ring 2 [Some 7; Some 5] 1 0 2 else mk_ring 3 [Some 5; Some 9; None] 0 1 2 in
  traverse mem 2 (begin_ 1) (end_ mem 1) = Ok [5; 7] /\ ring_lt mem Z.ltb 2 1 2 = Ok true.
Proof.
  intros mem. assert (H1 : rep (mem 1) [5; 7]).
  { constructor; cbn; try lia; try done. intros i Hi. change (0 <= i < 2) in Hi. assert (i = 0 \/ i = 1) as [->| ->] by lia; done. }
  assert (H2 : rep (mem 2) [5; 9]).
  { constructor; cbn; try lia; try done. intros i Hi. change (0 <= i < 2) in Hi. assert (i = 0 \/ i = 1) as [->| ->] by lia; done. }
  destruct (ring_iterators_exact mem Z.eqb Z.ltb 1 2 [5; 7] [5; 9] 2 H1 H2) as (Ht & _ & e & l & g & _ & _ & Hl & _ & _ & Hlx & _ & _);
    [cbn; lia|cbn; lia|exact Z.eqb_eq|lia|lia|].
  split; [exact Ht|]. rewrite Hl. f_equal. apply Hlx. apply lex_tail; [done|done|]. by constructor.
Defined.
End RingIter.
