(* ===== verification/LinearBuffer.v ===== *)
(** * The linear buffer, include/piduino/linearbuffer.h

    The class keeps a block of the heap and two pointers into it.  A pointer is
    null or an offset in a block; it can be compared for equality, but a
    difference, a sum or an access is undefined unless it stays in one live
    block.  [resize] moves the block and the pointer of reading, and leaves the
    pointer of writing where it was, so that no sequence of operations ever stores
    a byte that can be read. *)
From S2P Require Import Prelude.

Module LinearBuffer.

Definition ptr : Type := option (Z * Z).
Record lbuf : Type := mk_lbuf {
  _buffersize : Z; _capacity : Z; _pread : ptr; _pwrite : ptr; _buf : ptr;
  heap : gmap Z (list (option Z)); fresh : Z }.

Definition new_ (s : Z) (h : gmap Z (list (option Z))) (f : Z) : lbuf := mk_lbuf s 0 None None None h f.
Definition set_pread (p : ptr) (b : lbuf) : lbuf := mk_lbuf (_buffersize b) (_capacity b) p (_pwrite b) (_buf b) (heap b) (fresh b).
Definition set_pwrite (p : ptr) (b : lbuf) : lbuf := mk_lbuf (_buffersize b) (_capacity b) (_pread b) p (_buf b) (heap b) (fresh b).
Definition set_heap (h : gmap Z (list (option Z))) (b : lbuf) : lbuf :=
  mk_lbuf (_buffersize b) (_capacity b) (_pread b) (_pwrite b) (_buf b) h (fresh b).

(** ** Pointers *)
Definition live_in (b : lbuf) (k o : Z) : bool :=
  match heap b !! k with Some m => (0 <=? o) && (o <=? Z.of_nat (length m)) | None => false end.
Definition ptr_diff (p q : ptr) : M lbuf Z := fun b =>
  match p, q with
  | None, None => (Ok 0, b)
  | Some (k, o), Some (k', o') => if (k =? k') && live_in b k o && live_in b k' o' then (Ok (o - o'), b) else (Throw UB, b)
  | _, _ => (Throw UB, b)
  end.
Definition ptr_add (p : ptr) (n : Z) : M lbuf ptr := fun b =>
  match p with
  | None => if n =? 0 then (Ok None, b) else (Throw UB, b)
  | Some (k, o) => if live_in b k o && live_in b k (o + n) then (Ok (Some (k, o + n)), b) else (Throw UB, b)
  end.
(** [n] bytes that are read from [p]: none for no bytes. *)
Definition load (p : ptr) (n : Z) : M lbuf (list Z) := fun b =>
  if n =? 0 then (Ok [], b) else
  match p with
  | Some (k, o) =>
      if (0 <? n) && live_in b k o && live_in b k (o + n)
      then match mapM id (take (Z.to_nat n) (drop (Z.to_nat o) (default [] (heap b !! k)))) with
           | Some xs => (Ok xs, b)
           | None => (Throw UB, b)
           end
      else (Throw UB, b)
  | None => (Throw UB, b)
  end.
Definition store (p : ptr) (xs : list Z) : M lbuf unit := fun b =>
  if Z.of_nat (length xs) =? 0 then (Ok tt, b) else
  match p with
  | Some (k, o) =>
      if live_in b k o && live_in b k (o + Z.of_nat (length xs))
      then let m := default [] (heap b !! k) in
           (Ok tt, set_heap (<[k := take (Z.to_nat o) m ++ (Some <$> xs) ++ drop (Z.to_nat o + length xs) m]> (heap b)) b)
      else (Throw UB, b)
  | None => (Throw UB, b)
  end.

(** ** The public operations that take bytes *)
Definition clear : M lbuf unit := modify (fun b => set_pread None (set_pwrite None b)).
Definition size : M lbuf Z := w ← gets _pwrite; r ← gets _pread; d ← ptr_diff w r; mret (i32 d).
Definition empty : M lbuf bool := s ← size; mret (s =? 0).
Definition getChar : M lbuf Z :=
  s ← size;
  if s =? 0 then mret (-1) else
  p ← gets _pread; c ← load p 1; q ← ptr_add p 1; modify (set_pread q);; mret (default 0 (head c)).
Definition peek (maxlen : Z) : M lbuf (list Z) :=
  s ← size; p ← gets _pread; load p (Z.min maxlen s).
Definition read (maxlen : Z) : M lbuf (list Z) :=
  xs ← peek maxlen; p ← gets _pread; q ← ptr_add p (Z.of_nat (length xs)); modify (set_pread q);; mret xs.
Definition readAll : M lbuf (list Z) :=
  s ← size; p ← gets _pread; xs ← load p s; clear;; mret xs.
(** [memchr] *)
Definition find_nl (xs : list Z) : option nat := fst <$> list_find (fun c => c = 10) xs.
Definition canReadLine : M lbuf bool :=
  p ← gets _pread; s ← size; xs ← load p s; mret (match find_nl xs with Some _ => true | None => false end).
Definition readLine (maxlen : Z) : M lbuf (list Z) :=
  s ← size; p ← gets _pread; xs ← load p (Z.min maxlen s);
  read (match find_nl xs with Some i => Z.of_nat i + 1 | None => Z.min maxlen s end).
Definition skip (n : Z) : M lbuf unit :=
  s ← size; if s <=? n then clear else p ← gets _pread; q ← ptr_add p n; modify (set_pread q).
Definition chop (n : Z) : M lbuf unit :=
  s ← size; if s <=? n then clear else p ← gets _pwrite; q ← ptr_add p (- n); modify (set_pwrite q).

(** The sum of two [int], which must not overflow *)
Definition int_add (a b : Z) : M lbuf Z := if (- 2 ^ 31 <=? a + b) && (a + b <? 2 ^ 31) then mret (a + b) else throw UB.

(** ** Growing, and the operations that give bytes *)
Fixpoint grow (fuel : nat) (newsize required : Z) : outcome Z :=
  if newsize <? required then match fuel with O => Throw OutOfFuel | S f => grow f (u64 (newsize * 2)) required end else Ok newsize.
Definition free (p : ptr) (h : gmap Z (list (option Z))) : gmap Z (list (option Z)) :=
  match p with Some (k, _) => delete k h | None => h end.
Definition new_block (n : Z) : M lbuf ptr := fun b =>
  (Ok (Some (fresh b, 0)), mk_lbuf (_buffersize b) (_capacity b) (_pread b) (_pwrite b) (_buf b)
     (<[fresh b := replicate (Z.to_nat n) None]> (heap b)) (fresh b + 1)).
Definition resize (required : Z) (atEnd : bool) : M lbuf unit :=
  c ← gets _capacity; bs ← gets _buffersize;
  match grow 64 (Z.max c bs) required with
  | Throw e => throw e
  | Ok newsize =>
      s ← size; p ← gets _pread;
      let offset := if atEnd then 0 else i32 (u64 (newsize - u64 s)) in
      (if c <? newsize then
         nb ← new_block newsize; q ← ptr_add nb offset; xs ← load p s; store q xs;;
         modify (fun b => mk_lbuf (_buffersize b) newsize (_pread b) (_pwrite b) nb (free (_buf b) (heap b)) (fresh b))
       else
         o ← gets _buf; q ← ptr_add o offset; xs ← load p s; store q xs);;
      o ← gets _buf; q ← ptr_add o offset; modify (set_pread q)
  end.
Definition ungetChar (c : Z) : M lbuf unit :=
  p ← gets _pread; o ← gets _buf;
  (if bool_decide (p = o) then s ← size; n ← int_add s 1; resize (u64 n) false else mret tt);;
  p ← gets _pread; q ← ptr_add p (-1); modify (set_pread q);; store q [c].
Definition ungetBlock (block : list Z) : M lbuf unit :=
  let len := Z.of_nat (length block) in
  p ← gets _pread; o ← gets _buf; d ← ptr_diff p o;
  (if d <? len then s ← size; n ← int_add s len; resize (u64 n) false else mret tt);;
  p ← gets _pread; q ← ptr_add p (- len); modify (set_pread q);; store q block.
(** The caller fills the part that is given. *)
Definition reserve (len : Z) : M lbuf ptr :=
  s ← size; n ← int_add len s; resize (u64 n) true;;
  p ← gets _pwrite; q ← ptr_add p len; modify (set_pwrite q);; mret p.

(** The destructor *)
Definition destroy : M lbuf unit := modify (fun b => set_heap (free (_buf b) (heap b)) b).

(** ** Sequences of operations, and what they give *)
Inductive lop : Type :=
  | GetChar | Peek (n : Z) | Read (n : Z) | ReadAll | CanReadLine | ReadLine (n : Z) | Size
  | Skip (n : Z) | Chop (n : Z) | Clear | UngetChar (c : Z) | UngetBlock (block : list Z) | Reserve (len : Z).
Inductive lobs : Type := ONone | OInt (n : Z) | OBytes (xs : list Z) | OBool (b : bool) | OPtr (p : ptr).
Definition giving {A} (f : A -> lobs) (m : M lbuf A) : M lbuf lobs := x ← m; mret (f x).
Definition exec (o : lop) : M lbuf lobs :=
  match o with
  | GetChar => giving OInt getChar
  | Peek n => giving OBytes (peek n)
  | Read n => giving OBytes (read n)
  | ReadAll => giving OBytes readAll
  | CanReadLine => giving OBool canReadLine
  | ReadLine n => giving OBytes (readLine n)
  | Size => giving OInt size
  | Skip n => giving (fun _ => ONone) (skip n)
  | Chop n => giving (fun _ => ONone) (chop n)
  | Clear => giving (fun _ => ONone) clear
  | UngetChar c => giving (fun _ => ONone) (ungetChar c)
  | UngetBlock l => giving (fun _ => ONone) (ungetBlock l)
  | Reserve n => giving OPtr (reserve n)
  end.
Fixpoint run (os : list lop) : M lbuf (list lobs) :=
  match os with
  | [] => mret []
  | o :: os => x ← exec o; xs ← run os; mret (x :: xs)
  end.
(** What an empty buffer answers *)
Definition nothing (o : lobs) : Prop := o ∈ [ONone; OInt (-1); OInt 0; OBytes []; OBool false; OPtr None].

(** ** The pointer of writing never leaves null *)
Definition unwritten (b : lbuf) : Prop := _pwrite b = None.

Lemma size_unwritten b : unwritten b -> size b = (match _pread b with None => Ok 0 | Some _ => Throw UB end, b).
Proof. intros H. unfold size. munfold. rewrite H. by destruct (_pread b). Qed.

Lemma keeps_ptr_diff p q : keeps unwritten (ptr_diff p q).
Proof. intros b H. unfold ptr_diff. repeat case_match; done. Qed.
Lemma keeps_ptr_add p n : keeps unwritten (ptr_add p n).
Proof. intros b H. unfold ptr_add. repeat case_match; done. Qed.
Lemma keeps_load p n : keeps unwritten (load p n).
Proof. intros b H. unfold load. repeat case_match; done. Qed.
Lemma keeps_store p xs : keeps unwritten (store p xs).
Proof. intros b H. unfold store. repeat case_match; done. Qed.
Lemma keeps_new_block n : keeps unwritten (new_block n).
Proof. by intros b H. Qed.
Lemma keeps_set_pread p : keeps unwritten (modify (set_pread p)).
Proof. by intros b H. Qed.
Lemma keeps_clear : keeps unwritten clear.
Proof. by intros b H. Qed.
Lemma keeps_int_add a c : keeps unwritten (int_add a c).
Proof. intros b H. unfold int_add. case_match; done. Qed.
#[local] Hint Resolve keeps_ptr_diff keeps_ptr_add keeps_load keeps_store keeps_new_block keeps_set_pread keeps_clear keeps_int_add : keeps.
Ltac keep := repeat first [apply keeps_bind; [|intros ?] | solve [auto with keeps] | progress cbn zeta | case_match].

Lemma keeps_size : keeps unwritten size.
Proof. unfold size. eauto 8 with keeps. Qed.
#[local] Hint Resolve keeps_size : keeps.
Lemma keeps_resize n e : keeps unwritten (resize n e).
Proof. unfold resize. keep. all: by intros ??. Qed.
#[local] Hint Resolve keeps_resize : keeps.
Lemma keeps_ungetChar c : keeps unwritten (ungetChar c).
Proof. unfold ungetChar. keep. all: by intros ??. Qed.
Lemma keeps_ungetBlock xs : keeps unwritten (ungetBlock xs).
Proof. unfold ungetBlock. keep. all: by intros ??. Qed.

Lemma keeps_state {A} (m : M lbuf A) b o b' : keeps unwritten m -> unwritten b -> m b = (o, b') -> unwritten b'.
Proof. intros Hm Hb E. specialize (Hm b Hb). by rewrite E in Hm. Qed.

(** An operation that begins with the size has one of an empty buffer, or none. *)
Lemma after_size {A} (k : Z -> M lbuf A) b x b' : unwritten b -> (s ← size; k s) b = (Ok x, b') ->
  _pread b = None /\ k 0 b = (Ok x, b').
Proof.
  intros Hb. pose proof (size_unwritten b Hb) as Hs. unfold mbind, M_bind. rewrite Hs. by destruct (_pread b).
Qed.

Lemma load_null n b x b' : load None n b = (Ok x, b') -> n = 0 /\ x = [] /\ b' = b.
Proof. unfold load. destruct (Z.eqb_spec n 0); by intros [= <- <-]. Qed.

Lemma peek_unwritten n b x b' : unwritten b -> peek n b = (Ok x, b') -> _pread b = None /\ Z.min n 0 = 0 /\ x = [] /\ b' = b.
Proof. intros Hb H. apply after_size in H as [Hp H]; [|done]. munfold. rewrite Hp in H. by apply load_null in H. Qed.

Lemma read_unwritten n b x b' : unwritten b -> read n b = (Ok x, b') -> x = [] /\ unwritten b'.
Proof.
  intros Hb. unfold read. unfold mbind at 1, M_bind at 1. destruct (peek n b) as [[y|e] b1] eqn:E; [|done].
  apply peek_unwritten in E as (Hp & _ & -> & ->); [|done]. munfold. rewrite Hp. cbn. by intros [= <- <-].
Qed.

Lemma giving_inv {A} (f : A -> lobs) m b x b' : giving f m b = (Ok x, b') -> exists y, m b = (Ok y, b') /\ x = f y.
Proof. unfold giving. munfold. destruct (m b) as [[y|e] b1]; [|done]. intros [= <- <-]. by exists y. Qed.

Lemma reserve_unwritten n b x b' : unwritten b -> reserve n b = (Ok x, b') -> x = None /\ unwritten b'.
Proof.
  intros Hb H. apply after_size in H as [Hp H]; [|done]. unfold mbind at 1, M_bind at 1 in H.
  destruct (int_add n 0 b) as [[m|e] b0] eqn:E0; [|done]. apply keeps_state in E0; [|auto with keeps|done].
  unfold mbind at 1, M_bind at 1 in H.
  destruct (resize (u64 m) true b0) as [[[]|e] b1] eqn:E; [|done]. apply keeps_state in E; [|auto with keeps|done].
  munfold. rewrite E in H. cbn in H. destruct (n =? 0); [|done]. by injection H as <- <-.
Qed.

Lemma exec_unwritten o b x b' : unwritten b -> exec o b = (Ok x, b') -> nothing x /\ unwritten b'.
Proof.
  intros Hb. assert (Hn : forall y, y ∈ [ONone; OInt (-1); OInt 0; OBytes []; OBool false; OPtr None] -> nothing y) by done.
  destruct o; cbn [exec]; intros (y & H & ->)%giving_inv.
  - apply after_size in H as [_ H]; [|done]. cbn in H. injection H as <- <-. split; [apply Hn; set_solver|done].
  - apply peek_unwritten in H as (_ & _ & -> & ->); [|done]. split; [apply Hn; set_solver|done].
  - apply read_unwritten in H as [-> H]; [|done]. split; [apply Hn; set_solver|done].
  - apply after_size in H as [Hp H]; [|done]. munfold. injection H as <- <-. split; [apply Hn; set_solver|done].
  - unfold canReadLine in H. unfold mbind at 1, M_bind at 1, gets at 1 in H.
    apply after_size in H as [Hp H]; [|done]. munfold. injection H as <- <-. split; [apply Hn; set_solver|done].
  - apply after_size in H as [Hp H]; [|done]. unfold mbind at 1, M_bind at 1, gets at 1 in H. rewrite Hp in H.
    unfold mbind at 1, M_bind at 1 in H. destruct (load None (Z.min n 0) b) as [[z|e] b1] eqn:E; [|done].
    apply load_null in E as (_ & -> & ->). apply read_unwritten in H as [-> H]; [|done]. split; [apply Hn; set_solver|done].
  - rewrite size_unwritten in H by done. destruct (_pread b); [done|]. injection H as <- <-. split; [apply Hn; set_solver|done].
  - apply after_size in H as [Hp H]; [|done]. split; [apply Hn; set_solver|]. destruct (0 <=? n).
    + by injection H as <- <-.
    + munfold. rewrite Hp in H. cbn in H. destruct (n =? 0); [|done]. by injection H as <- <-.
  - apply after_size in H as [Hp H]; [|done]. split; [apply Hn; set_solver|]. destruct (0 <=? n).
    + by injection H as <- <-.
    + munfold. rewrite Hb in H. cbn in H. destruct (- n =? 0); [|done]. by injection H as <- <-.
  - split; [apply Hn; set_solver|]. by injection H as <- <-.
  - split; [apply Hn; set_solver|]. eapply keeps_state; [apply keeps_ungetChar| |exact H]; done.
  - split; [apply Hn; set_solver|]. eapply keeps_state; [apply keeps_ungetBlock| |exact H]; done.
  - apply reserve_unwritten in H as [-> H]; [|done]. split; [apply Hn; set_solver|done].
Qed.

(** A buffer that was just made gives nothing back, whatever is put into it: an operation of any sequence either
    is undefined or answers what an empty buffer answers. *)
Theorem linear_buffer_gives_nothing s h f os xs b' :
  run os (new_ s h f) = (Ok xs, b') -> Forall nothing xs.
Proof.
  assert (H : forall b, unwritten b -> run os b = (Ok xs, b') -> Forall nothing xs); [|by apply H].
  revert xs. induction os as [|o os IH]; intros xs b Hb; cbn [run].
  { intros [= <- _]. constructor. }
  unfold mbind at 1, M_bind at 1. destruct (exec o b) as [[x|e] b1] eqn:E; [|done]. apply exec_unwritten in E as [Hx Hb1]; [|done].
  unfold mbind, M_bind. destruct (run os b1) as [[ys|e] b2] eqn:E2; [|done]. intros [= <- ->].
  constructor; [done|]. by eapply IH.
Qed.

(** What happens to a byte that is put back: the call succeeds, and the next look at the buffer is undefined. *)
Lemma put_back_then_look :
  (run [UngetChar 65] (new_ 8192 ∅ 1)).1 = Ok [ONone] /\
  (run [UngetChar 65; GetChar] (new_ 8192 ∅ 1)).1 = Throw UB /\
  (run [Reserve 4] (new_ 8192 ∅ 1)).1 = Throw UB.
Proof. repeat split; vm_compute; reflexivity. Qed.
End LinearBuffer.
