(* ===== verification/IoDevice.v ===== *)
(** * Flags and the I/O device base class

    src/iodevice.cpp, src/iodevice_p.h, include/piduino/iodevice.h and
    include/piduino/flags.h.  [iodevice] is the private part every device
    inherits; the global [errno] is an argument of the operation that reads it.
    Diagnostics printed when [isDebug] is set change no state and are left out
    here and in every file that follows. *)
From S2P Require Import Prelude.

Module Flags.
(** A [Flags] value is its underlying signed integer. *)
Definition setFlags (m_flags flags : Z) : Z := Z.lor m_flags flags.
Definition clearFlags (m_flags flags : Z) : Z := Z.land m_flags (Z.lnot flags).
(** The safe conversion to [bool]. *)
Definition to_bool (m_flags : Z) : bool := negb (m_flags =? 0).
(** [if (m & f)] *)
Definition test (m f : Z) : bool := to_bool (Z.land m f).

(** The operators; the underlying type is [int], on which they are bitwise. *)
Definition or_ (f1 f2 : Z) : Z := Z.lor f1 f2.
Definition xor_ (f1 f2 : Z) : Z := Z.lxor f1 f2.
Definition and_ (f1 f2 : Z) : Z := Z.land f1 f2.
Definition not_ (f : Z) : Z := Z.lnot f.
Definition eq_ (f1 f2 : Z) : bool := f1 =? f2.
Definition ne_ (f1 f2 : Z) : bool := negb (f1 =? f2).
Definition setFlag (m_flags singleFlag : Z) : Z := setFlags m_flags singleFlag.
Definition clearFlag (m_flags singleFlag : Z) : Z := clearFlags m_flags singleFlag.

Lemma test_single m k : 0 <= k -> test m (2 ^ k) = Z.testbit m k.
Proof.
  intros Hk. unfold test, to_bool. destruct (Z.testbit m k) eqn:E.
  - apply negb_true_iff, Z.eqb_neq. intros H0.
    assert (Z.testbit (Z.land m (2 ^ k)) k = true).
    { by rewrite Z.land_spec, E, Z.pow2_bits_true. }
    rewrite H0, Z.bits_0 in H. done.
  - apply negb_false_iff, Z.eqb_eq. apply Z.bits_inj'. intros n Hn.
    rewrite Z.land_spec, Z.bits_0. destruct (decide (n = k)) as [->|Hne]; [by rewrite E|].
    rewrite Z.pow2_bits_false by done. apply andb_false_r.
Qed.

(** Setting and clearing one flag changes that flag and no other. *)
Lemma flag_set_test m k n : 0 <= k -> 0 <= n ->
  test (setFlag m (2 ^ k)) (2 ^ n) = (n =? k) || test m (2 ^ n) /\
  test (clearFlag m (2 ^ k)) (2 ^ n) = negb (n =? k) && test m (2 ^ n).
Proof.
  intros Hk Hn. rewrite !test_single by done. unfold setFlag, setFlags, clearFlag, clearFlags.
  rewrite Z.lor_spec, Z.land_spec, Z.lnot_spec, Z.pow2_bits_eqb by done. rewrite (Z.eqb_sym k n), orb_comm, andb_comm. done.
Qed.

(** The values of an [int] are closed under the operators. *)
Definition int_flags (f : Z) : Prop := - 2 ^ 31 <= f < 2 ^ 31.
Lemma int_flags_shift f : int_flags f <-> Z.shiftr f 31 = 0 \/ Z.shiftr f 31 = -1.
Proof. unfold int_flags. rewrite Z.shiftr_div_pow2 by lia. pose proof (Z.div_mod f (2 ^ 31) ltac:(lia)). pose proof (Z.mod_pos_bound f (2 ^ 31) ltac:(lia)). nia. Qed.
Lemma flags_closed f1 f2 : int_flags f1 -> int_flags f2 ->
  int_flags (or_ f1 f2) /\ int_flags (xor_ f1 f2) /\ int_flags (and_ f1 f2) /\ int_flags (not_ f1) /\ int_flags (clearFlags f1 f2).
Proof.
  rewrite !int_flags_shift. unfold or_, xor_, and_, not_, clearFlags.
  rewrite Z.shiftr_lor, Z.shiftr_lxor, !Z.shiftr_land, <- !Z.lnot_shiftr by lia.
  intros [-> | ->] [-> | ->]; cbn; auto 10.
Qed.
End Flags.
Import Flags.

Module IoDevice.

(** [OpenModeFlag], with the values of libstdc++'s [std::ios_base]. *)
Definition NotOpen : Z := 0.
Definition Append : Z := 1.
Definition AtEnd : Z := 2.
Definition Binary : Z := 4.
Definition ReadOnly : Z := 8.
Definition WriteOnly : Z := 16.
Definition ReadWrite : Z := Z.lor ReadOnly WriteOnly.
Definition Truncate : Z := 32.
Definition Unbuffered : Z := Z.shiftl Truncate 1.

(** POSIX [open] flags and error numbers on Linux. *)
Definition O_RDONLY : Z := 0.
Definition O_WRONLY : Z := 1.
Definition O_RDWR : Z := 2.
Definition O_TRUNC : Z := 512.
Definition O_APPEND : Z := 1024.
Definition EIO : Z := 5.
Definition ENODEV : Z := 19.
Definition EINVAL : Z := 22.
Definition EOPNOTSUPP : Z := 95.

(** The text of an error: that of [strerror], or one given by the caller. *)
Inductive err_text : Type :=
  | NoText
  | StrError (errnum : Z)
  | Text (s : string).

Record iodevice : Type := mk_iodevice {
  openMode : Z;
  isSequential : bool;
  error : Z;
  errorString : err_text }.

Definition new : iodevice := mk_iodevice NotOpen false 0 NoText.

Definition isOpen (d : iodevice) : bool := negb (openMode d =? NotOpen).

Definition clearError (d : iodevice) : iodevice :=
  mk_iodevice (openMode d) (isSequential d) 0 NoText.

(** [IoDevice::Private::open] *)
Definition popen (m : Z) (d : iodevice) : bool * iodevice :=
  (true, clearError (mk_iodevice m (isSequential d) (error d) (errorString d))).

(** [IoDevice::Private::close] *)
Definition pclose (d : iodevice) : iodevice :=
  mk_iodevice NotOpen (isSequential d) (error d) (errorString d).

(** [IoDevice::open] and [IoDevice::close] *)
Definition open (m : Z) (d : iodevice) : bool * iodevice :=
  (true, if isOpen d then d else (popen m d).2).
Definition close (d : iodevice) : iodevice := if isOpen d then pclose d else d.

(** [setError (int error)]: the parameter hides the member, so the assignment
    [error = error] changes nothing; only the text is set. *)
Definition setError_code (e : Z) (d : iodevice) : iodevice :=
  mk_iodevice (openMode d) (isSequential d) (error d) (StrError e).

(** [setError (int error, const std::string &str)], same shadowing. *)
Definition setError_text (e : Z) (str : string) (d : iodevice) : iodevice :=
  mk_iodevice (openMode d) (isSequential d) (error d) (Text str).

(** [setError ()] reads [errno]. *)
Definition setError_errno (errno : Z) (d : iodevice) : iodevice :=
  if negb (errno =? 0) then mk_iodevice (openMode d) (isSequential d) errno (StrError errno) else d.

Definition isReadable (d : iodevice) : bool := test (openMode d) ReadOnly.
Definition isWritable (d : iodevice) : bool := test (openMode d) WriteOnly.
Definition isBuffered (d : iodevice) : bool := negb (test (openMode d) Unbuffered).

Definition setTextModeEnabled (enabled : bool) (d : iodevice) : iodevice :=
  mk_iodevice (if enabled then Z.land (openMode d) (Z.lnot Binary) else Z.lor (openMode d) Binary)
    (isSequential d) (error d) (errorString d).
Definition isTextModeEnabled (d : iodevice) : bool := negb (test (openMode d) Binary).

Definition modeToPosixFlags (mode : Z) : Z :=
  let m := Z.land mode ReadWrite in
  let flags := if m =? WriteOnly then O_WRONLY else if m =? ReadWrite then O_RDWR else O_RDONLY in
  let flags := if test mode Append then Z.lor flags O_APPEND else flags in
  if test mode Truncate then Z.lor flags O_TRUNC else flags.

Lemma land_rw mode :
  Z.land mode ReadWrite = 8 * Z.b2z (Z.testbit mode 3) + 16 * Z.b2z (Z.testbit mode 4).
Proof.
  apply Z.bits_inj'. intros n Hn. rewrite Z.land_spec.
  destruct (Z.testbit mode 3) eqn:E3, (Z.testbit mode 4) eqn:E4; cbn;
    (destruct (decide (n = 3)) as [->|]; [by rewrite E3|]);
    (destruct (decide (n = 4)) as [->|]; [by rewrite E4|]).
  all: destruct n as [|p|p]; try lia; try (rewrite ?andb_false_r; reflexivity).
  all: do 5 (destruct p as [p|p|]; try lia; try (rewrite ?andb_false_r; reflexivity)).
Qed.

Lemma test_rw mode : test mode ReadOnly = Z.testbit mode 3 /\ test mode WriteOnly = Z.testbit mode 4.
Proof. split; [apply (test_single mode 3)|apply (test_single mode 4)]; lia. Qed.

(** The POSIX flags a device is opened with are exactly those its mode
    asks for: the access mode is write-only, read-write or read-only as the mode
    is writable and not readable, both, or not writable; [O_APPEND] and
    [O_TRUNC] are present exactly when the mode has [Append] and [Truncate]. *)
Theorem modeToPosixFlags_exact (mode : Z) :
  modeToPosixFlags mode =
    (if Z.testbit mode 4 then (if Z.testbit mode 3 then 2 else 1) else 0)
    + 1024 * Z.b2z (Z.testbit mode 0) + 512 * Z.b2z (Z.testbit mode 5).
Proof.
  unfold modeToPosixFlags. rewrite land_rw.
  change Append with (2 ^ 0). change Truncate with (2 ^ 5). rewrite !test_single by lia.
  by destruct (Z.testbit mode 0), (Z.testbit mode 3), (Z.testbit mode 4), (Z.testbit mode 5).
Qed.

(** [setError (code)] never records the code: the error number reads back
    unchanged, whatever code is given, while [setError ()] with a nonzero
    [errno] does record it and [clearError] resets it. *)
Lemma setError_code_is_lost (d : iodevice) (e errno : Z) (s : string) :
  error (setError_code e d) = error d /\ error (setError_text e s d) = error d /\
  errorString (setError_code e d) = StrError e /\
  (errno <> 0 -> error (setError_errno errno d) = errno) /\ error (clearError d) = 0.
Proof.
  repeat split. intros Hne. unfold setError_errno. by destruct (Z.eqb_spec errno 0).
Qed.

(** Text mode is a single bit of the open mode: switching it is reflected
    by [isTextModeEnabled], and leaves the readable, writable and buffered
    status of the device as they were. *)
Lemma text_mode_bit (d : iodevice) (enabled : bool) :
  isTextModeEnabled (setTextModeEnabled enabled d) = enabled /\
  isReadable (setTextModeEnabled enabled d) = isReadable d /\
  isWritable (setTextModeEnabled enabled d) = isWritable d /\
  isBuffered (setTextModeEnabled enabled d) = isBuffered d.
Proof.
  unfold isTextModeEnabled, isReadable, isWritable, isBuffered, setTextModeEnabled. cbn.
  change Binary with (2 ^ 2). change ReadOnly with (2 ^ 3). change WriteOnly with (2 ^ 4).
  change Unbuffered with (2 ^ 6). rewrite !test_single by lia.
  destruct enabled; rewrite ?Z.land_spec, ?Z.lor_spec, ?Z.lnot_spec, !Z.pow2_bits_eqb by lia;
    repeat split; cbn; rewrite ?andb_true_r, ?orb_false_r, ?andb_false_r, ?orb_true_r; done.
Qed.

End IoDevice.
