(* ===== verification/Fifo.v ===== *)
(** * The byte FIFO of the I2C buffers, include/piduino/fifo.h

    The object is a heap block of [_size] bytes and two pointers into it, kept
    as offsets from [_data].  The pointers only move forward: the FIFO is a
    linear buffer that is rewound by [clear].  A [memcpy] that leaves the block
    is [UB]. *)
From S2P Require Import Prelude.

Module Fifo.

Record fifo : Type := mk_fifo {
  f_data : list Z;
  f_size : Z;
  f_in : Z;
  f_out : Z }.

(** The constructor; [mem] is the uninitialised block of [max] bytes. *)
Definition new (mem : list Z) (max : Z) : fifo := mk_fifo mem max 0 0.

Definition clear (f : fifo) : fifo := mk_fifo (f_data f) (f_size f) 0 0.

(** [(_in - _out) % _size]: C's remainder on [ptrdiff_t], cut to 16 bits. *)
Definition length (f : fifo) : Z := u16 (Z.rem (f_in f - f_out f) (f_size f)).

Definition free (f : fifo) : Z := u16 (f_size f - length f).

(** [n] bytes of memory from offset [off], [None] outside the block. *)
Definition mem_read (m : list Z) (off n : Z) : option (list Z) :=
  if (0 <=? off) && (0 <=? n) && (off + n <=? Z.of_nat (List.length m))
  then Some (take (Z.to_nat n) (drop (Z.to_nat off) m)) else None.

Definition mem_write (m : list Z) (off : Z) (bs : list Z) : option (list Z) :=
  if (0 <=? off) && (off + Z.of_nat (List.length bs) <=? Z.of_nat (List.length m))
  then Some (take (Z.to_nat off) m ++ bs ++ drop (Z.to_nat off + List.length bs) m) else None.

(** [pull (buf, max)]: the bytes copied out. *)
Definition pull_buf (max : Z) (f : fifo) : outcome (list Z) * fifo :=
  let max := Z.min max (length f) in
  match mem_read (f_data f) (f_out f) max with
  | Some bs => (Ok bs, mk_fifo (f_data f) (f_size f) (f_in f) (f_out f + max))
  | None => (Throw UB, f)
  end.

(** [pull ()]: one byte, or -1. *)
Definition pull (f : fifo) : outcome Z * fifo :=
  if negb (length f =? 0) then
    match lget (f_data f) (f_out f) with
    | Some b => (Ok b, mk_fifo (f_data f) (f_size f) (f_in f) (f_out f + 1))
    | None => (Throw UB, f)
    end
  else (Ok (-1), f).

(** [push (buf, len)]: how many of the [len] bytes were accepted. *)
Definition push_buf (buf : list Z) (f : fifo) : outcome Z * fifo :=
  let len := Z.min (Z.of_nat (List.length buf)) (free f) in
  match mem_write (f_data f) (f_in f) (take (Z.to_nat len) buf) with
  | Some m => (Ok len, mk_fifo m (f_size f) (f_in f + len) (f_out f))
  | None => (Throw UB, f)
  end.

(** [push (b)]: 0, or -1 when there is no room. *)
Definition push (b : Z) (f : fifo) : outcome Z * fifo :=
  if negb (free f =? 0) then
    match mem_write (f_data f) (f_in f) [b] with
    | Some m => (Ok 0, mk_fifo m (f_size f) (f_in f + 1) (f_out f))
    | None => (Throw UB, f)
    end
  else (Ok (-1), f).

Definition seek (len : Z) (f : fifo) : fifo :=
  let len := Z.min len (u16 (f_size f - u16 (f_out f))) in
  mk_fifo (f_data f) (f_size f) (f_in f + len) (f_out f).

(** ** Invariant and contents *)
Record wf (f : fifo) : Prop := {
  wf_len : Z.of_nat (List.length (f_data f)) = f_size f;
  wf_size : 0 < f_size f < 2 ^ 16;
  wf_order : 0 <= f_out f <= f_in f;
  wf_in : f_in f <= f_size f }.

(** The stored bytes. *)
Definition contents (f : fifo) : list Z :=
  take (Z.to_nat (f_in f - f_out f)) (drop (Z.to_nat (f_out f)) (f_data f)).

Lemma length_spec f :
  wf f -> length f = if f_in f - f_out f =? f_size f then 0 else f_in f - f_out f.
Proof.
  intros []. unfold length. rewrite Z.rem_mod_nonneg by lia. case_bool.
  - rewrite e, Z.mod_same by lia. done.
  - rewrite Z.mod_small by lia. apply u16_small. lia.
Qed.

Lemma length_contents f : wf f -> Z.of_nat (List.length (contents f)) = f_in f - f_out f.
Proof. intros []. unfold contents. rewrite length_take, length_drop. lia. Qed.

Lemma mem_write_spec m off bs :
  0 <= off -> off + Z.of_nat (List.length bs) <= Z.of_nat (List.length m) ->
  mem_write m off bs = Some (take (Z.to_nat off) m ++ bs ++ drop (Z.to_nat off + List.length bs) m).
Proof. intros. unfold mem_write. case_bool; try lia; done. Qed.

Lemma mem_read_spec m off n :
  0 <= off -> 0 <= n -> off + n <= Z.of_nat (List.length m) ->
  mem_read m off n = Some (take (Z.to_nat n) (drop (Z.to_nat off) m)).
Proof. intros. unfold mem_read. case_bool; try lia; done. Qed.

(** Writing after the contents of a buffer that was never read appends. *)
Lemma push_buf_append f buf :
  wf f -> f_out f = 0 -> f_in f + Z.of_nat (List.length buf) < f_size f ->
  exists f', push_buf buf f = (Ok (Z.of_nat (List.length buf)), f') /\ wf f' /\ f_out f' = 0 /\
    f_in f' = f_in f + Z.of_nat (List.length buf) /\ f_size f' = f_size f /\
    contents f' = contents f ++ buf.
Proof.
  intros Hwf Ho Hroom. pose proof (length_spec f Hwf) as Hl. destruct Hwf.
  unfold push_buf, free. rewrite Hl, Ho.
  destruct (Z.eqb_spec (f_in f - 0) (f_size f)); [lia|].
  rewrite u16_small, Z.min_l, Nat2Z.id, firstn_all by lia.
  rewrite mem_write_spec by lia.
  eexists. split; [reflexivity|]. cbn. split; [|split; [done|split; [done|split; [done|]]]].
  - constructor; cbn; rewrite ?length_app, ?length_take, ?length_drop; lia.
  - unfold contents. cbn. rewrite Ho, !Z.sub_0_r. cbn.
    rewrite !drop_0. rewrite app_assoc.
    rewrite take_app_le by (rewrite length_app, length_take; lia).
    rewrite take_ge by (rewrite length_app, length_take; lia). done.
Qed.

Lemma push_append f b :
  wf f -> f_out f = 0 -> f_in f + 1 < f_size f ->
  exists f', push b f = (Ok 0, f') /\ wf f' /\ f_out f' = 0 /\
    f_in f' = f_in f + 1 /\ f_size f' = f_size f /\ contents f' = contents f ++ [b].
Proof.
  intros Hwf Ho Hroom.
  destruct (push_buf_append f [b] Hwf Ho) as (f' & Hp & H1 & H2 & H3 & H4 & H5); [cbn; lia|].
  exists f'. split; [|done]. pose proof (length_spec f Hwf) as Hl. destruct Hwf.
  unfold push_buf in Hp. unfold push, free in *. rewrite Hl, Ho in *.
  destruct (Z.eqb_spec (f_in f - 0) (f_size f)); [lia|].
  rewrite !u16_small in * by lia. rewrite Z.min_l in Hp by (cbn; lia).
  destruct (Z.eqb_spec (f_size f - (f_in f - 0)) 0); [lia|].
  change (take _ [b]) with [b] in Hp. cbn in *.
  destruct (mem_write (f_data f) (f_in f) [b]); [|done].
  injection Hp as <-. done.
Qed.

(** Draining in one call returns the contents. *)
Lemma pull_buf_all f max :
  wf f -> f_in f - f_out f < f_size f -> 0 <= max ->
  exists f', pull_buf max f = (Ok (take (Z.to_nat max) (contents f)), f') /\ wf f' /\
    contents f' = drop (Z.to_nat max) (contents f).
Proof.
  intros Hwf Hfull Hmax. pose proof (length_spec f Hwf) as Hl.
  pose proof (length_contents f Hwf) as Hc. destruct Hwf. unfold pull_buf. rewrite Hl.
  destruct (Z.eqb_spec (f_in f - f_out f) (f_size f)); [lia|].
  rewrite mem_read_spec by lia. eexists. split; [|split].
  - unfold contents. rewrite take_take. f_equal. f_equal. f_equal. lia.
  - constructor; cbn; lia.
  - unfold contents in *. cbn. destruct (Z.le_gt_cases max (f_in f - f_out f)).
    + rewrite Z.min_l, skipn_firstn_comm, drop_drop by done. f_equal; [lia|]. f_equal. lia.
    + rewrite Z.min_r, (drop_ge (take _ _)) by lia.
      replace (Z.to_nat (f_in f - _)) with 0%nat by lia. done.
Qed.

(** One byte at a time. *)
Lemma pull_cons f b bs :
  wf f -> f_in f - f_out f < f_size f -> contents f = b :: bs ->
  exists f', pull f = (Ok b, f') /\ wf f' /\ contents f' = bs /\ f_size f' = f_size f /\
    f_in f' - f_out f' < f_size f'.
Proof.
  intros Hwf Hfull Hc. pose proof (length_spec f Hwf) as Hl.
  pose proof (length_contents f Hwf) as Hlc. rewrite Hc in Hlc. cbn in Hlc. destruct Hwf.
  unfold pull. rewrite Hl, (proj2 (Z.eqb_neq (f_in f - f_out f) (f_size f))) by lia.
  rewrite (proj2 (Z.eqb_neq (f_in f - f_out f) 0)) by lia. cbn.
  unfold contents in Hc. unfold lget. rewrite (proj2 (Z.ltb_ge (f_out f) 0)) by lia.
  assert (Hd : drop (Z.to_nat (f_out f)) (f_data f) = b :: drop (Z.to_nat (f_out f + 1)) (f_data f)).
  { destruct (drop (Z.to_nat (f_out f)) (f_data f)) as [|b' l] eqn:E; [by rewrite take_nil in Hc|].
    replace (Z.to_nat (f_out f + 1)) with (Z.to_nat (f_out f) + 1)%nat by lia.
    rewrite <- drop_drop, E. cbn. rewrite drop_0.
    destruct (Z.to_nat (f_in f - f_out f)); [done|]. by injection Hc as ->. }
  assert (f_data f !! Z.to_nat (f_out f) = Some b) as ->.
  { rewrite <- (Nat.add_0_r (Z.to_nat (f_out f))), <- lookup_drop, Hd. done. }
  eexists. split; [reflexivity|]. split; [constructor; cbn; lia|]. split; [|cbn; split; [done|lia]].
  unfold contents. cbn. rewrite Hd in Hc.
  replace (Z.to_nat (f_in f - f_out f)) with (S (Z.to_nat (f_in f - (f_out f + 1)))) in Hc by lia.
  cbn in Hc. by injection Hc.
Qed.

Lemma seek_start m size len :
  0 <= len <= size -> size < 2 ^ 16 -> seek len (mk_fifo m size 0 0) = mk_fifo m size len 0.
Proof.
  intros Hlen Hs. unfold seek. cbn [f_data f_size f_in f_out].
  change (u16 0) with 0. rewrite Z.sub_0_r, u16_small, Z.min_l by lia. done.
Qed.

(** A FIFO filled to its size reports itself empty, and the next byte pushed
    is written past the end of the block. *)
Lemma full_push f b :
  wf f -> f_in f - f_out f = f_size f ->
  length f = 0 /\ free f = f_size f /\ push b f = (Throw UB, f).
Proof.
  intros Hwf Hfull. pose proof (length_spec f Hwf) as Hl. destruct Hwf.
  rewrite (proj2 (Z.eqb_eq _ _) Hfull) in Hl. unfold push, free. rewrite Hl.
  rewrite Z.sub_0_r, u16_small by lia. repeat split.
  destruct (Z.eqb_spec (f_size f) 0); [lia|]. cbn. unfold mem_write. cbn.
  case_bool; done || lia.
Qed.

(** Filling an empty FIFO in one call. *)
Lemma push_buf_fill f buf :
  wf f -> f_out f = 0 -> f_in f = 0 -> Z.of_nat (List.length buf) = f_size f ->
  push_buf buf f = (Ok (f_size f), mk_fifo buf (f_size f) (f_size f) 0).
Proof.
  intros Hwf Ho Hi Hlen. pose proof (length_spec f Hwf) as Hl. destruct Hwf.
  rewrite Ho, Hi, (proj2 (Z.eqb_neq (0 - 0) (f_size f))) in Hl by lia.
  unfold push_buf, free. rewrite Hl, Ho, Hi, Z.sub_0_r, u16_small by lia.
  rewrite Hlen, Z.min_id, (take_ge buf) by lia.
  rewrite mem_write_spec by lia. cbn. rewrite drop_ge, app_nil_r by lia. done.
Qed.

(** A FIFO that has not been read keeps what is pushed: while fewer bytes
    than the block holds have been written in all, pushes accept every byte,
    stay inside the block, and a read returns the bytes in order. *)
Theorem fifo_write_then_read (f : fifo) (buf : list Z) (max : Z) :
  wf f -> f_out f = 0 -> f_in f + Z.of_nat (List.length buf) < f_size f -> 0 <= max ->
  exists f1 f2, push_buf buf f = (Ok (Z.of_nat (List.length buf)), f1) /\
    length f1 = f_in f + Z.of_nat (List.length buf) /\
    pull_buf max f1 = (Ok (take (Z.to_nat max) (contents f ++ buf)), f2) /\
    contents f2 = drop (Z.to_nat max) (contents f ++ buf).
Proof.
  intros Hwf Ho Hroom Hmax.
  destruct (push_buf_append f buf Hwf Ho Hroom) as (f1 & Hp & Hw1 & Ho1 & Hi1 & Hs1 & Hc1).
  destruct (pull_buf_all f1 max Hw1) as (f2 & Hpull & Hw2 & Hc2); [lia|done|].
  exists f1, f2. rewrite Hc1 in *. split; [done|]. split; [|done].
  rewrite (length_spec f1 Hw1). case_bool; lia.
Qed.

Lemma fifo_write_then_read_witness :
  exists f1 f2, push_buf [1; 2; 3] (new [0; 0; 0; 0] 4) = (Ok 3, f1) /\ length f1 = 0 + 3 /\
    pull_buf 2 f1 = (Ok [1; 2], f2) /\ contents f2 = [3].
Proof.
  apply (fifo_write_then_read (new [0; 0; 0; 0] 4) [1; 2; 3] 2); cbn; try lia.
  constructor; cbn; lia.
Defined.

End Fifo.
