(* ===== verification/I2cDev.v ===== *)
(** * The I2C bus master, src/i2c/i2cdev.cpp and src/i2c/i2cdev_p.h

    [i2cdev] is [I2cDev::Private]; a [world] is the device object, [errno] and
    the state of the kernel behind the file descriptor.  The kernel's [open],
    [close] and [ioctl] are the [Kernel] interface: a message of the transfer
    carries the bytes its buffer points at, a read message the number of bytes
    wanted, and a transfer either fails with an error number or returns the
    bytes of every read message.  [KernelOk] states what the Linux i2c-dev
    interface documents of them.  The buffer of a message is the memory of one
    of the two FIFOs ([Tx] or [Rx]), shared by all messages of a transfer. *)
From S2P Require Import Prelude IoDevice Fifo.
Import Flags IoDevice.

Inductive kmsg : Type :=
  | KWrite (addr : Z) (bytes : list Z)
  | KRead (addr : Z) (len : Z).

(** The bytes the read messages of a transfer ask for. *)
Fixpoint reads_of (ms : list kmsg) : list Z :=
  match ms with
  | [] => []
  | KWrite _ _ :: ms' => reads_of ms'
  | KRead _ n :: ms' => n :: reads_of ms'
  end.

Class Kernel : Type := {
  kst : Type;
  k_rdwr : list kmsg -> kst -> (Z + list (list Z)) * kst;
  k_open : Z -> Z -> kst -> (Z + Z) * kst;
  k_close : Z -> kst -> option Z * kst;
  k_funcs : Z -> kst -> (Z + Z) * kst }.

(** Documented behaviour: a failing call sets a nonzero [errno], and a read
    message is filled with as many bytes as it asked for. *)
Class KernelOk (K : Kernel) : Prop := {
  rdwr_errno : forall ms k e k', k_rdwr ms k = (inl e, k') -> e <> 0;
  rdwr_reads : forall ms k bss k', k_rdwr ms k = (inr bss, k') ->
    List.map (fun bs => Z.of_nat (length bs)) bss = reads_of ms }.

(** Whether a call returned a result. *)
Definition succeeded {A} (r : Z + A) : bool := match r with inl _ => false | inr _ => true end.

Module I2cDev.

Definition I2C_BLOCK_MAX : Z := 32.
Definition I2C_FUNC_I2C : Z := 1.

Inductive i2c_state : Type := Idle | Write | Read.
Inductive buffer : Type := Tx | Rx.

(** [struct i2c_msg]; [m_rd] is the [I2C_M_RD] flag. *)
Record i2c_msg : Type := mk_msg { m_addr : Z; m_rd : bool; m_len : Z; m_buf : buffer }.

Record i2cdev : Type := mk_i2cdev {
  dev : iodevice;
  fd : Z;
  state : i2c_state;
  i2c_msgs : list i2c_msg;
  txbuf : Fifo.fifo;
  rxbuf : Fifo.fifo;
  bus : Z }.

#[export] Instance i2c_state_eq_dec : EqDecision i2c_state.
Proof. solve_decision. Defined.

Section Dev.
Context {K : Kernel}.

Record world : Type := mk_world { i2c : i2cdev; errno : Z; kernel : kst }.

Definition set_dev (f : iodevice -> iodevice) (w : world) : world :=
  let d := i2c w in
  mk_world (mk_i2cdev (f (dev d)) (fd d) (state d) (i2c_msgs d) (txbuf d) (rxbuf d) (bus d))
    (errno w) (kernel w).
Definition set_fd (n : Z) (w : world) : world :=
  let d := i2c w in
  mk_world (mk_i2cdev (dev d) n (state d) (i2c_msgs d) (txbuf d) (rxbuf d) (bus d))
    (errno w) (kernel w).
Definition set_state (s : i2c_state) (w : world) : world :=
  let d := i2c w in
  mk_world (mk_i2cdev (dev d) (fd d) s (i2c_msgs d) (txbuf d) (rxbuf d) (bus d))
    (errno w) (kernel w).
Definition set_msgs (ms : list i2c_msg) (w : world) : world :=
  let d := i2c w in
  mk_world (mk_i2cdev (dev d) (fd d) (state d) ms (txbuf d) (rxbuf d) (bus d))
    (errno w) (kernel w).
Definition set_txbuf (f : Fifo.fifo) (w : world) : world :=
  let d := i2c w in
  mk_world (mk_i2cdev (dev d) (fd d) (state d) (i2c_msgs d) f (rxbuf d) (bus d))
    (errno w) (kernel w).
Definition set_rxbuf (f : Fifo.fifo) (w : world) : world :=
  let d := i2c w in
  mk_world (mk_i2cdev (dev d) (fd d) (state d) (i2c_msgs d) (txbuf d) f (bus d))
    (errno w) (kernel w).
Definition set_bus (b : Z) (w : world) : world :=
  let d := i2c w in
  mk_world (mk_i2cdev (dev d) (fd d) (state d) (i2c_msgs d) (txbuf d) (rxbuf d) b)
    (errno w) (kernel w).
Definition set_env (e : Z) (k : kst) (w : world) : world := mk_world (i2c w) e k.

(** The constructor; the two uninitialised blocks are arguments. *)
Definition new (tx rx : list Z) (e : Z) (k : kst) : world :=
  mk_world (mk_i2cdev (mk_iodevice NotOpen true 0 NoText) (-1) Idle []
    (Fifo.new tx I2C_BLOCK_MAX) (Fifo.new rx I2C_BLOCK_MAX) 0) e k.

Definition is_open (w : world) : bool := isOpen (dev (i2c w)).

(** The bytes a message gives the kernel. *)
Definition to_kmsg (d : i2cdev) (m : i2c_msg) : option kmsg :=
  if m_rd m then Some (KRead (m_addr m) (m_len m))
  else bs ← Fifo.mem_read (Fifo.f_data (match m_buf m with Tx => txbuf d | Rx => rxbuf d end))
              0 (m_len m);
       Some (KWrite (m_addr m) bs).

#[local] Arguments to_kmsg : simpl never.

(** What the kernel stores into the receive block: every read message points
    at its first byte. *)
Fixpoint store_reads (bss : list (list Z)) (m : list Z) : option (list Z) :=
  match bss with
  | [] => Some m
  | bs :: bss' => Fifo.mem_write m 0 bs ≫= store_reads bss'
  end.

Definition transfer : M world bool := fun w =>
  if is_open w && negb (bool_decide (i2c_msgs (i2c w) = [])) then
    let w := set_dev clearError w in
    match mapM (to_kmsg (i2c w)) (i2c_msgs (i2c w)) with
    | None => (Throw UB, w)
    | Some ks =>
        match k_rdwr ks (kernel w) with
        | (inl e, k') =>
            let w := set_dev (setError_errno e) (set_env e k' w) in
            (Ok (error (dev (i2c w)) =? 0), w)
        | (inr bss, k') =>
            let w := set_env (errno w) k' w in
            match store_reads bss (Fifo.f_data (rxbuf (i2c w))) with
            | None => (Throw UB, w)
            | Some m =>
                let f := rxbuf (i2c w) in
                let w := set_rxbuf (Fifo.mk_fifo m (Fifo.f_size f) (Fifo.f_in f) (Fifo.f_out f)) w in
                (Ok (error (dev (i2c w)) =? 0), w)
            end
        end
    end
  else (Ok false, w).

(** [I2cDev::Private::flush] *)
Definition pflush (w : world) : world :=
  set_txbuf (Fifo.clear (txbuf (i2c w))) (set_msgs [] w).

Definition close : M world unit := fun w =>
  if is_open w then
    let w := match k_close (fd (i2c w)) (kernel w) with
             | (Some e, k') => set_dev (setError_errno e) (set_env e k' w)
             | (None, k') => set_env (errno w) k' w
             end in
    (Ok tt, set_dev IoDevice.close (set_state Idle (set_fd (-1) w)))
  else (Ok tt, w).

Definition open (mode : Z) : M world bool := fun w =>
  if is_open w then (Ok true, w) else
  let w := pflush w in
  let w := set_rxbuf (Fifo.clear (rxbuf (i2c w))) w in
  match k_open (bus (i2c w)) (modeToPosixFlags mode) (kernel w) with
  | (inl e, k') =>
      (Ok false, set_dev (setError_errno e) (set_fd (-1) (set_env e k' w)))
  | (inr n, k') =>
      let w := set_dev (fun d => (IoDevice.open mode d).2) (set_fd n (set_env (errno w) k' w)) in
      match k_funcs n (kernel w) with
      | (inl e, k') =>
          let w := set_dev (setError_errno e) (set_env e k' w) in
          match close w with (_, w) => (Ok (is_open w), w) end
      | (inr funcs, k') =>
          let w := set_env (errno w) k' w in
          if test funcs I2C_FUNC_I2C then (Ok (is_open w), w)
          else match close (set_dev (setError_code EOPNOTSUPP) w) with
               | (_, w) => (Ok (is_open w), w)
               end
      end
  end.

Definition setBus (id : Z) : M world unit := fun w =>
  if bus (i2c w) =? id then (Ok tt, w) else
  let w := set_bus id w in
  if is_open w then
    let m := openMode (dev (i2c w)) in
    (close;; open m;; mret tt) w
  else (Ok tt, w).

(** [msg = i2c_msgs.back ()]; undefined on an empty vector. *)
Definition upd_back (f : i2c_msg -> i2c_msg) : M world unit := fun w =>
  match i2c_msgs (i2c w) with
  | [] => (Throw UB, w)
  | ms => (Ok tt, set_msgs (alter f (length ms - 1)%nat ms) w)
  end.

Definition beginTransmission (slave : Z) : M world unit := fun w =>
  if is_open w then
    if bool_decide (state (i2c w) = Idle) then
      (Ok tt, set_state Write (set_msgs (i2c_msgs (i2c w) ++ [mk_msg slave false 0 Tx]) w))
    else upd_back (fun m => mk_msg slave (m_rd m) (m_len m) (m_buf m)) w
  else (Ok tt, w).

(** [write (buffer, len)] and [write (data)]: push, then set the length of the
    last message to that of the FIFO. *)
Definition write_with (push : Fifo.fifo -> outcome Z * Fifo.fifo) : M world Z := fun w =>
  if bool_decide (state (i2c w) = Write) then
    match push (txbuf (i2c w)) with
    | (Throw e, _) => (Throw e, w)
    | (Ok ret, f) =>
        (upd_back (fun m => mk_msg (m_addr m) (m_rd m) (Fifo.length f) (m_buf m));; mret ret)
          (set_txbuf f w)
    end
  else (Ok (-1), w).

Definition write_buf (buffer : list Z) : M world Z := write_with (Fifo.push_buf buffer).
Definition write (data : Z) : M world Z := write_with (Fifo.push data).

Definition endTransmission (stop : bool) : M world bool := fun w =>
  if bool_decide (state (i2c w) = Write) then
    let w := set_state Idle w in
    if stop then (success ← transfer; modify pflush;; mret success) w else (Ok true, w)
  else (Ok false, w).

Definition available (w : world) : Z := Fifo.length (rxbuf (i2c w)).

Definition requestFrom (slave max : Z) (stop : bool) : M world Z := fun w =>
  if is_open w && bool_decide (state (i2c w) = Idle) then
    let max := Z.min max I2C_BLOCK_MAX in
    let w := set_msgs (i2c_msgs (i2c w) ++ [mk_msg slave true max Rx]) w in
    if stop then
      (modify (fun w => set_rxbuf (Fifo.clear (rxbuf (i2c w))) w);;
       ok ← transfer;
       if (ok : bool) then
         modify (fun w => set_rxbuf (Fifo.seek max (rxbuf (i2c w))) w);;
         modify pflush;;
         gets available
       else mret (-1)) w
    else (Ok 0, w)
  else (Ok (-1), w).

(** [read (buffer, max)]: the bytes stored in [buffer]. *)
Definition read_buf (max : Z) : M world (list Z) := fun w =>
  match Fifo.pull_buf (Z.min (available w) max) (rxbuf (i2c w)) with
  | (o, f) => (o, set_rxbuf f w)
  end.

Definition read : M world Z := fun w =>
  match Fifo.pull (rxbuf (i2c w)) with (o, f) => (o, set_rxbuf f w) end.

Definition peek : M world Z := fun w =>
  if negb (available w =? 0) then
    match lget (Fifo.f_data (rxbuf (i2c w))) (Fifo.f_out (rxbuf (i2c w))) with
    | Some b => (Ok b, w)
    | None => (Throw UB, w)
    end
  else (Ok (-1), w).

Definition flush : M world unit := fun w =>
  if bool_decide (state (i2c w) = Write) then (endTransmission true;; mret tt) w
  else (Ok tt, pflush w).

(** ** Buffer invariants *)
Record bufs_ok (w : world) : Prop := {
  b_open : is_open w = true;
  b_tx : Fifo.wf (txbuf (i2c w));
  b_txsize : Fifo.f_size (txbuf (i2c w)) = I2C_BLOCK_MAX;
  b_txout : Fifo.f_out (txbuf (i2c w)) = 0;
  b_rx : Fifo.wf (rxbuf (i2c w));
  b_rxsize : Fifo.f_size (rxbuf (i2c w)) = I2C_BLOCK_MAX }.

(** No message is being built; [bs] are the bytes queued by a transmission
    that was ended without a stop, [None] when nothing is queued. *)
Definition queued (w : world) (o : option (Z * list Z)) : Prop :=
  bufs_ok w /\ state (i2c w) = Idle /\
  match o with
  | None => i2c_msgs (i2c w) = [] /\ Fifo.f_in (txbuf (i2c w)) = 0
  | Some (slave, bs) =>
      i2c_msgs (i2c w) = [mk_msg slave false (Z.of_nat (length bs)) Tx] /\
      Fifo.contents (txbuf (i2c w)) = bs /\ Z.of_nat (length bs) < I2C_BLOCK_MAX
  end.

Abbreviation ready w := (queued w None).

(** A message to [slave] is being built and holds [bs]. *)
Definition writing (w : world) (slave : Z) (bs : list Z) : Prop :=
  bufs_ok w /\ state (i2c w) = Write /\
  i2c_msgs (i2c w) = [mk_msg slave false (Z.of_nat (length bs)) Tx] /\
  Fifo.contents (txbuf (i2c w)) = bs /\ Z.of_nat (length bs) < I2C_BLOCK_MAX.

(** The parts a buffer operation leaves alone. *)
Definition same_env (w w' : world) : Prop :=
  kernel w' = kernel w /\ errno w' = errno w /\ dev (i2c w') = dev (i2c w) /\
  fd (i2c w') = fd (i2c w) /\ bus (i2c w') = bus (i2c w) /\ rxbuf (i2c w') = rxbuf (i2c w).

Lemma wf_clear f : Fifo.wf f -> Fifo.wf (Fifo.clear f).
Proof. intros []. constructor; cbn; lia. Qed.

Lemma contents_nil f : Fifo.wf f -> Fifo.f_in f = 0 -> Fifo.contents f = [].
Proof.
  intros [] Hin. unfold Fifo.contents. replace (Z.to_nat _) with 0%nat by lia. done.
Qed.

Lemma begin_ready w slave :
  ready w -> exists w', beginTransmission slave w = (Ok tt, w') /\ writing w' slave [] /\ same_env w w'.
Proof.
  intros (Hb & Hs & Hm & Hin). destruct Hb. unfold beginTransmission.
  rewrite b_open0, bool_decide_true by done. eexists. split; [reflexivity|].
  split; [|by repeat split]. split; [by constructor|]. split; [done|]. cbn. rewrite Hm.
  split; [done|]. split; [by apply contents_nil|done].
Qed.

Lemma write_buf_writing w slave bs buf :
  writing w slave bs -> Z.of_nat (length bs + length buf) < I2C_BLOCK_MAX ->
  exists w', write_buf buf w = (Ok (Z.of_nat (length buf)), w') /\
    writing w' slave (bs ++ buf) /\ same_env w w'.
Proof.
  intros (Hb & Hs & Hm & Hc & Hl) Hroom. destruct Hb.
  pose proof (Fifo.length_contents _ b_tx0) as Hlen. rewrite Hc, b_txout0 in Hlen.
  destruct (Fifo.push_buf_append (txbuf (i2c w)) buf b_tx0 b_txout0)
    as (f & Hp & Hw & Ho & Hi & Hsz & Hcf); [lia|].
  unfold write_buf, write_with. rewrite bool_decide_true, Hp by done.
  unfold upd_back. munfold. rewrite Hm. eexists. split; [reflexivity|].
  split; [|by repeat split]. split; [constructor; cbn; first [exact b_open0 | done | congruence]|].
  split; [done|]. cbn. rewrite Hcf, Hc.
  assert (Fifo.length f = Z.of_nat (length (bs ++ buf))) as ->.
  { rewrite (Fifo.length_spec f Hw), length_app. case_bool; lia. }
  split; [done|]. split; [done|]. rewrite length_app. lia.
Qed.

Lemma write_writing w slave bs b :
  writing w slave bs -> Z.of_nat (length bs + 1) < I2C_BLOCK_MAX ->
  exists w', write b w = (Ok 0, w') /\ writing w' slave (bs ++ [b]) /\ same_env w w'.
Proof.
  intros (Hb & Hs & Hm & Hc & Hl) Hroom. destruct Hb.
  pose proof (Fifo.length_contents _ b_tx0) as Hlen. rewrite Hc, b_txout0 in Hlen.
  destruct (Fifo.push_append (txbuf (i2c w)) b b_tx0 b_txout0)
    as (f & Hp & Hw & Ho & Hi & Hsz & Hcf); [lia|].
  unfold write, write_with. rewrite bool_decide_true, Hp by done.
  unfold upd_back. munfold. rewrite Hm. eexists. split; [reflexivity|].
  split; [|by repeat split]. split; [constructor; cbn; first [exact b_open0 | done | congruence]|].
  split; [done|]. cbn. rewrite Hcf, Hc.
  assert (Fifo.length f = Z.of_nat (length (bs ++ [b]))) as ->.
  { rewrite (Fifo.length_spec f Hw), length_app. cbn. case_bool; lia. }
  split; [done|]. split; [done|]. rewrite length_app. cbn. lia.
Qed.

Lemma end_nostop w slave bs :
  writing w slave bs ->
  exists w', endTransmission false w = (Ok true, w') /\ queued w' (Some (slave, bs)) /\ same_env w w'.
Proof.
  intros (Hb & Hs & Hm & Hc & Hl). destruct Hb. unfold endTransmission.
  rewrite bool_decide_true by done. eexists. split; [reflexivity|].
  split; [|by repeat split]. split; [by constructor|]. split; done.
Qed.

(** ** Transfers *)
Definition ks_of (o : option (Z * list Z)) : list kmsg :=
  match o with None => [] | Some (slave, bs) => [KWrite slave bs] end.

Lemma reads_of_queued o : reads_of (ks_of o) = [].
Proof. by destruct o as [[]|]. Qed.

Lemma reads_of_app a b : reads_of (a ++ b) = reads_of a ++ reads_of b.
Proof. induction a as [|[] a IH]; cbn; [done|done|]. by rewrite IH. Qed.

Lemma to_kmsg_tx d slave bs :
  Fifo.wf (txbuf d) -> Fifo.f_out (txbuf d) = 0 -> Fifo.contents (txbuf d) = bs ->
  to_kmsg d (mk_msg slave false (Z.of_nat (length bs)) Tx) = Some (KWrite slave bs).
Proof.
  intros Hwf Ho Hc. unfold to_kmsg. cbn [m_rd m_buf m_len m_addr].
  pose proof (Fifo.length_contents _ Hwf) as Hl. destruct Hwf. rewrite Hc in Hl.
  rewrite Fifo.mem_read_spec by lia. cbn. do 2 f_equal.
  rewrite Hl, Ho. unfold Fifo.contents in Hc. by rewrite Ho in Hc.
Qed.

Lemma to_kmsg_queued w o d :
  queued w o -> txbuf d = txbuf (i2c w) -> mapM (to_kmsg d) (i2c_msgs (i2c w)) = Some (ks_of o).
Proof.
  intros (Hb & _ & Ho) Hd. destruct o as [[slave bs]|]; destruct Hb.
  - destruct Ho as (-> & Hc & _). cbn. rewrite to_kmsg_tx by congruence. done.
  - by destruct Ho as [-> _].
Qed.

Lemma ready_pflush w : bufs_ok w -> state (i2c w) = Idle -> ready (pflush w).
Proof.
  intros [] Hs. split; [|done]. constructor; cbn; try done.
  destruct b_tx0. constructor; cbn; lia.
Qed.

Lemma ready_txempty w : ready w -> Fifo.contents (txbuf (i2c w)) = [].
Proof. intros ([] & _ & _ & Hin). by apply contents_nil. Qed.

(** Building a message behind one that is already queued. *)
Lemma begin_write_after w m slave bs :
  bufs_ok w -> state (i2c w) = Idle -> i2c_msgs (i2c w) = [m] ->
  Fifo.contents (txbuf (i2c w)) = [] -> Z.of_nat (length bs) < I2C_BLOCK_MAX ->
  exists w', (beginTransmission slave;; write_buf bs) w = (Ok (Z.of_nat (length bs)), w') /\
    bufs_ok w' /\ state (i2c w') = Write /\
    i2c_msgs (i2c w') = [m; mk_msg slave false (Z.of_nat (length bs)) Tx] /\
    Fifo.contents (txbuf (i2c w')) = bs /\ kernel w' = kernel w.
Proof.
  intros [] Hs Hm Hc Hl. pose proof (Fifo.length_contents _ b_tx0) as Hlen.
  rewrite Hc, b_txout0 in Hlen. cbn in Hlen.
  destruct (Fifo.push_buf_append (txbuf (i2c w)) bs b_tx0 b_txout0)
    as (f & Hp & Hw & Ho & Hi & Hsz & Hcf); [lia|].
  munfold. unfold beginTransmission, write_buf, write_with. rewrite b_open0, bool_decide_true by done.
  cbn. rewrite Hp. unfold upd_back. munfold. rewrite Hm. eexists. split; [reflexivity|].
  split; [constructor; cbn; first [exact b_open0 | done | congruence]|].
  split; [done|]. cbn. rewrite Hcf, Hc. split; [|done]. do 3 f_equal.
  rewrite (Fifo.length_spec f Hw). case_bool; lia.
Qed.

(** ** A payload as large as the buffer *)

(** The transmit FIFO is full of [bs], and the message has length 0. *)
Definition filled (w : world) (slave : Z) (bs : list Z) : Prop :=
  bufs_ok w /\ state (i2c w) = Write /\
  i2c_msgs (i2c w) = [mk_msg slave false 0 Tx] /\
  txbuf (i2c w) = Fifo.mk_fifo bs I2C_BLOCK_MAX I2C_BLOCK_MAX 0.

Lemma write_buf_full w slave bs :
  writing w slave [] -> Z.of_nat (length bs) = I2C_BLOCK_MAX ->
  exists w', write_buf bs w = (Ok I2C_BLOCK_MAX, w') /\ filled w' slave bs /\ same_env w w'.
Proof.
  intros (Hb & Hs & Hm & Hc & _) Hl. destruct Hb.
  pose proof (Fifo.length_contents _ b_tx0) as Hlen. rewrite Hc, b_txout0 in Hlen. cbn in Hlen.
  set (f := Fifo.mk_fifo bs I2C_BLOCK_MAX I2C_BLOCK_MAX 0).
  assert (Hf : Fifo.wf f) by (constructor; cbn; unfold I2C_BLOCK_MAX in *; lia).
  unfold write_buf, write_with. rewrite bool_decide_true by done.
  rewrite Fifo.push_buf_fill, b_txsize0 by (done || lia). fold f.
  unfold upd_back. munfold. rewrite Hm. eexists. split; [reflexivity|].
  split; [|by repeat split]. split; [by constructor|]. split; [done|].
  destruct (Fifo.full_push f 0 Hf) as (Hz & _ & _); [done|]. cbn. by rewrite Hz.
Qed.

Lemma write_filled w slave bs b : filled w slave bs -> exists w', write b w = (Throw UB, w').
Proof.
  intros ([] & Hs & _ & Ht). unfold write, write_with. rewrite bool_decide_true by done.
  destruct (Fifo.full_push _ b b_tx0) as (_ & _ & ->); [by rewrite Ht|]. by eexists.
Qed.

Section WithKernel.
Context {KOK : KernelOk K}.

(** Ending a transmission with a stop sends exactly the message built. *)
Lemma end_stop w slave bs :
  writing w slave bs ->
  exists w', ready w' /\ rxbuf (i2c w') = rxbuf (i2c w) /\
    openMode (dev (i2c w')) = openMode (dev (i2c w)) /\
    match k_rdwr [KWrite slave bs] (kernel w) with
    | (inr _, k') => endTransmission true w = (Ok true, w') /\ kernel w' = k' /\
        error (dev (i2c w')) = 0
    | (inl e, k') => endTransmission true w = (Ok false, w') /\ kernel w' = k' /\
        errno w' = e /\ error (dev (i2c w')) = e
    end.
Proof.
  intros (Hb & Hs & Hm & Hc & Hl). destruct Hb.
  unfold endTransmission. rewrite bool_decide_true by done. munfold.
  unfold transfer. change (is_open (set_state Idle w)) with (is_open w). rewrite b_open0.
  cbn [i2c set_state i2c_msgs set_dev]. rewrite Hm, bool_decide_false by done.
  cbn [andb negb mapM]. cbn. rewrite to_kmsg_tx by done. cbn.
  destruct (k_rdwr [KWrite slave bs] (kernel w)) as [[e|bss] k'] eqn:Hk.
  - apply rdwr_errno in Hk. unfold setError_errno. destruct (Z.eqb_spec e 0) as [|Hne]; [done|].
    cbn. rewrite (proj2 (Z.eqb_neq e 0)) by done.
    eexists. split; [|split; [|split; [|split; [reflexivity|]]]]; [|done|done|done].
    apply ready_pflush; [by constructor|done].
  - pose proof Hk as Hr. apply rdwr_reads in Hr. destruct bss; [|done]. cbn.
    eexists. split; [|split; [|split; [|split; [reflexivity|]]]]; [| |done|done].
    + apply ready_pflush; [|done]. constructor; cbn; try done. by destruct b_rx0.
    + cbn. by destruct (rxbuf (i2c w)).
Qed.

Lemma store_reads_fits bss : forall m,
  Forall (fun bs => (length bs <= length m)%nat) bss -> is_Some (store_reads bss m).
Proof.
  induction bss as [|bs bss IH]; intros m Hf; [by eexists|]. inversion Hf as [|? ? Hb Hr]; subst.
  cbn. rewrite Fifo.mem_write_spec by lia. cbn. apply IH.
  eapply Forall_impl; [exact Hr|]. intros bs'. cbn [Z.to_nat take app]. change (Z.to_nat 0) with 0%nat.
  rewrite take_0, !length_app, length_drop. cbn. lia.
Qed.

(** Whatever is queued, a stop sends all of it in one transfer and reports
    whether the kernel accepted it. *)
Lemma end_stop_any w ks :
  is_open w = true -> state (i2c w) = Write -> i2c_msgs (i2c w) <> [] ->
  mapM (to_kmsg (i2c w)) (i2c_msgs (i2c w)) = Some ks ->
  Forall (fun n => n <= Z.of_nat (length (Fifo.f_data (rxbuf (i2c w))))) (reads_of ks) ->
  exists w', endTransmission true w = (Ok (succeeded (k_rdwr ks (kernel w)).1), w') /\
    kernel w' = (k_rdwr ks (kernel w)).2.
Proof.
  intros Ho Hs Hne Hm Hfit. unfold endTransmission. rewrite bool_decide_true by done. munfold.
  unfold transfer. change (is_open (set_state Idle w)) with (is_open w). rewrite Ho.
  cbn [i2c set_state i2c_msgs set_dev]. rewrite bool_decide_false by done. cbn [andb negb].
  match goal with |- context [mapM ?f ?l] => change (mapM f l) with (mapM (to_kmsg (i2c w)) l) end.
  rewrite Hm. cbn. destruct (k_rdwr ks (kernel w)) as [[e|bss] k'] eqn:Hk.
  - apply rdwr_errno in Hk. unfold setError_errno. destruct (Z.eqb_spec e 0) as [|Hne']; [done|].
    cbn. rewrite (proj2 (Z.eqb_neq e 0)) by done. by eexists.
  - apply rdwr_reads in Hk. rewrite <- Hk in Hfit.
    destruct (store_reads_fits bss (Fifo.f_data (rxbuf (i2c w)))) as [m Hst].
    { rewrite List.Forall_map in Hfit. eapply Forall_impl; [exact Hfit|]. cbn. lia. }
    rewrite Hst. by eexists.
Qed.

(** A read request sends the queued message, if any, and the read message in
    one transfer; on failure the messages stay queued. *)
Lemma request_stop w o slave n :
  queued w o -> 0 <= n < I2C_BLOCK_MAX ->
  exists w', openMode (dev (i2c w')) = openMode (dev (i2c w)) /\
    match k_rdwr (ks_of o ++ [KRead slave n]) (kernel w) with
    | (inr bss, k') => requestFrom slave n true w = (Ok n, w') /\ ready w' /\ kernel w' = k' /\
        error (dev (i2c w')) = 0 /\
        exists bs, bss = [bs] /\ Z.of_nat (length bs) = n /\ Fifo.contents (rxbuf (i2c w')) = bs
    | (inl e, k') => requestFrom slave n true w = (Ok (-1), w') /\ kernel w' = k' /\
        errno w' = e /\ error (dev (i2c w')) = e /\ bufs_ok w' /\ state (i2c w') = Idle /\
        i2c_msgs (i2c w') = i2c_msgs (i2c w) ++ [mk_msg slave true n Rx] /\
        txbuf (i2c w') = txbuf (i2c w)
    end.
Proof.
  intros Hq Hn. pose proof Hq as (Hb & Hs & Ho). destruct Hb. unfold requestFrom.
  rewrite b_open0, bool_decide_true by done. cbn [andb]. rewrite Z.min_l by lia.
  munfold. unfold transfer. cbn. change (is_open _) with (is_open w). rewrite b_open0.
  rewrite bool_decide_false by (by destruct (i2c_msgs (i2c w))). cbn.
  erewrite mapM_app_Some; [|by apply (to_kmsg_queued w o)|reflexivity]. cbn.
  destruct (k_rdwr (ks_of o ++ [KRead slave n]) (kernel w)) as [[e|bss] k'] eqn:Hk.
  - apply rdwr_errno in Hk. unfold setError_errno. destruct (Z.eqb_spec e 0) as [|Hne]; [done|].
    cbn. rewrite (proj2 (Z.eqb_neq e 0)) by done.
    eexists. split; [|split; [reflexivity|]]; [done|].
    do 3 (split; [done|]). split; [|done].
    constructor; cbn; try done. destruct b_rx0. constructor; cbn; lia.
  - pose proof Hk as Hr. apply rdwr_reads in Hr.
    rewrite reads_of_app, reads_of_queued in Hr. cbn in Hr.
    destruct bss as [|bs [|]]; try done. cbn in Hr. injection Hr as Hlen.
    destruct b_rx0. rewrite b_rxsize0 in *. unfold I2C_BLOCK_MAX in *.
    cbn. rewrite Fifo.mem_write_spec by lia. rewrite Z.eqb_refl. cbn.
    rewrite Fifo.seek_start by lia.
    assert (Hwf : Fifo.wf (Fifo.mk_fifo (take (Z.to_nat 0) (Fifo.f_data (rxbuf (i2c w))) ++ bs ++
      drop (Z.to_nat 0 + length bs) (Fifo.f_data (rxbuf (i2c w)))) 32 n 0)).
    { constructor; cbn; rewrite ?length_app, ?length_take, ?length_drop; lia. }
    eexists. split; [|split; [|split; [|split; [|split]]]].
    2: { f_equal. f_equal. unfold available. cbn. rewrite Fifo.length_spec by done.
         cbn. case_bool; lia. }
    + done.
    + apply ready_pflush; [|done]. by constructor.
    + done.
    + done.
    + exists bs. split; [done|]. split; [done|]. unfold Fifo.contents. cbn. rewrite Z.sub_0_r.
      change (Z.to_nat 0) with 0%nat. rewrite take_0, drop_0. cbn [app].
      rewrite take_app_le by lia. apply take_ge. lia.
Qed.

(** Reading out the received bytes. *)
Lemma read_buf_rx w max :
  bufs_ok w -> Z.of_nat (length (Fifo.contents (rxbuf (i2c w)))) < I2C_BLOCK_MAX -> 0 <= max ->
  exists w', read_buf max w = (Ok (take (Z.to_nat max) (Fifo.contents (rxbuf (i2c w)))), w') /\
    bufs_ok w' /\ kernel w' = kernel w /\ errno w' = errno w /\ dev (i2c w') = dev (i2c w) /\
    state (i2c w') = state (i2c w) /\ i2c_msgs (i2c w') = i2c_msgs (i2c w) /\
    txbuf (i2c w') = txbuf (i2c w).
Proof.
  intros [] Hl Hmax. pose proof (Fifo.length_contents _ b_rx0) as Hlen.
  unfold read_buf, available. rewrite Fifo.length_spec by done.
  destruct (Z.eqb_spec (Fifo.f_in (rxbuf (i2c w)) - Fifo.f_out (rxbuf (i2c w)))
    (Fifo.f_size (rxbuf (i2c w)))); [unfold I2C_BLOCK_MAX in *; lia|].
  destruct (Fifo.pull_buf_all (rxbuf (i2c w))
    (Z.min (Fifo.f_in (rxbuf (i2c w)) - Fifo.f_out (rxbuf (i2c w))) max))
    as (f & Hp & Hwf & Hc); [done|destruct b_rx0; lia|destruct b_rx0; lia|].
  rewrite Hp.
  replace (take (Z.to_nat (Z.min _ max)) (Fifo.contents (rxbuf (i2c w))))
    with (take (Z.to_nat max) (Fifo.contents (rxbuf (i2c w)))).
  - eexists. split; [reflexivity|]. split; [|done].
    constructor; cbn; try done. unfold Fifo.pull_buf in Hp.
    destruct (Fifo.mem_read _ _ _); inversion Hp; subst; done.
  - destruct (Z.le_gt_cases max (Fifo.f_in (rxbuf (i2c w)) - Fifo.f_out (rxbuf (i2c w)))).
    + by rewrite Z.min_r by lia.
    + rewrite Z.min_l by lia. rewrite !take_ge by lia. done.
Qed.

Lemma read_one w b bs :
  bufs_ok w -> Fifo.contents (rxbuf (i2c w)) = b :: bs -> Z.of_nat (length (b :: bs)) < I2C_BLOCK_MAX ->
  exists w', read w = (Ok b, w') /\ bufs_ok w' /\ Fifo.contents (rxbuf (i2c w')) = bs /\
    kernel w' = kernel w /\ errno w' = errno w /\ dev (i2c w') = dev (i2c w) /\
    state (i2c w') = state (i2c w) /\ i2c_msgs (i2c w') = i2c_msgs (i2c w) /\
    txbuf (i2c w') = txbuf (i2c w).
Proof.
  intros [] Hc Hl. pose proof (Fifo.length_contents _ b_rx0) as Hlen. rewrite Hc in Hlen.
  destruct (Fifo.pull_cons (rxbuf (i2c w)) b bs b_rx0) as (f & Hp & Hwf & Hcf & Hsz & _); [lia|done|].
  unfold read. rewrite Hp. eexists. split; [reflexivity|].
  split; [constructor; cbn; (done || congruence)|done].
Qed.

(** ** Whole transactions, as the device drivers write them *)

(** What a transfer with result [r] leaves behind. *)
Definition after (w w' : world) (r : (Z + list (list Z)) * kst) : Prop :=
  kernel w' = r.2 /\ openMode (dev (i2c w')) = openMode (dev (i2c w)) /\
  match r.1 with
  | inl e => errno w' = e /\ error (dev (i2c w')) = e
  | inr _ => error (dev (i2c w')) = 0
  end.

Lemma end_stop_after w w0 slave bs :
  writing w slave bs -> same_env w0 w ->
  exists w', endTransmission true w = (Ok (succeeded (k_rdwr [KWrite slave bs] (kernel w0)).1), w') /\
    ready w' /\ after w0 w' (k_rdwr [KWrite slave bs] (kernel w0)).
Proof.
  intros Hw (Hk & _ & Hd & _). destruct (end_stop w slave bs Hw) as (w' & Hr & _ & Ho & H).
  rewrite <- Hk. exists w'. unfold after. rewrite Ho, Hd.
  destruct (k_rdwr _ (kernel w)) as [[e|bss] k']; cbn; naive_solver.
Qed.

Lemma same_env_trans w1 w2 w3 : same_env w1 w2 -> same_env w2 w3 -> same_env w1 w3.
Proof. unfold same_env. intros (?&?&?&?&?&?) (?&?&?&?&?&?). repeat split; congruence. Qed.

Lemma send_buf w slave bs :
  ready w -> Z.of_nat (length bs) < I2C_BLOCK_MAX ->
  exists w', (beginTransmission slave;; write_buf bs;; endTransmission true) w =
      (Ok (succeeded (k_rdwr [KWrite slave bs] (kernel w)).1), w') /\
    ready w' /\ after w w' (k_rdwr [KWrite slave bs] (kernel w)).
Proof.
  intros Hr Hl. destruct (begin_ready w slave Hr) as (w1 & H1 & Hw1 & He1).
  destruct (write_buf_writing w1 slave [] bs Hw1) as (w2 & H2 & Hw2 & He2); [done|].
  destruct (end_stop_after w2 w slave bs Hw2 (same_env_trans _ _ _ He1 He2)) as (w3 & H3 & Hr3).
  exists w3. by rewrite (M_bind_ok _ _ _ _ _ _ _ _ H1), (M_bind_ok _ _ _ _ _ _ _ _ H2).
Qed.

Lemma send_byte w slave b :
  ready w ->
  exists w', (beginTransmission slave;; write b;; endTransmission true) w =
      (Ok (succeeded (k_rdwr [KWrite slave [b]] (kernel w)).1), w') /\
    ready w' /\ after w w' (k_rdwr [KWrite slave [b]] (kernel w)).
Proof.
  intros Hr. destruct (begin_ready w slave Hr) as (w1 & H1 & Hw1 & He1).
  destruct (write_writing w1 slave [] b Hw1) as (w2 & H2 & Hw2 & He2); [done|].
  destruct (end_stop_after w2 w slave [b] Hw2 (same_env_trans _ _ _ He1 He2)) as (w3 & H3 & Hr3).
  exists w3. by rewrite (M_bind_ok _ _ _ _ _ _ _ _ H1), (M_bind_ok _ _ _ _ _ _ _ _ H2).
Qed.

Lemma send_reg w slave b bs :
  ready w -> Z.of_nat (1 + length bs) < I2C_BLOCK_MAX ->
  exists w', (beginTransmission slave;; write b;; write_buf bs;; endTransmission true) w =
      (Ok (succeeded (k_rdwr [KWrite slave (b :: bs)] (kernel w)).1), w') /\
    ready w' /\ after w w' (k_rdwr [KWrite slave (b :: bs)] (kernel w)).
Proof.
  intros Hr Hl. destruct (begin_ready w slave Hr) as (w1 & H1 & Hw1 & He1).
  destruct (write_writing w1 slave [] b Hw1) as (w2 & H2 & Hw2 & He2); [done|].
  destruct (write_buf_writing w2 slave [b] bs Hw2) as (w3 & H3 & Hw3 & He3); [done|].
  destruct (end_stop_after w3 w slave (b :: bs) Hw3
    (same_env_trans _ _ _ (same_env_trans _ _ _ He1 He2) He3)) as (w4 & H4 & Hr4).
  exists w4. by rewrite (M_bind_ok _ _ _ _ _ _ _ _ H1), (M_bind_ok _ _ _ _ _ _ _ _ H2),
    (M_bind_ok _ _ _ _ _ _ _ _ H3).
Qed.

(** The register address of a read, queued before the read message. *)
Lemma queue_reg w slave b :
  ready w -> exists w', (beginTransmission slave;; write b;; endTransmission false) w = (Ok true, w') /\
    queued w' (Some (slave, [b])) /\ same_env w w'.
Proof.
  intros Hr. destruct (begin_ready w slave Hr) as (w1 & H1 & Hw1 & He1).
  destruct (write_writing w1 slave [] b Hw1) as (w2 & H2 & Hw2 & He2); [done|].
  destruct (end_nostop w2 slave [b] Hw2) as (w3 & H3 & Hq3 & He3).
  exists w3. rewrite (M_bind_ok _ _ _ _ _ _ _ _ H1), (M_bind_ok _ _ _ _ _ _ _ _ H2).
  split; [done|]. split; [done|]. eauto using same_env_trans.
Qed.

(** A successful read request and the bytes then taken out. *)
Lemma request_read w o slave n data k' :
  queued w o -> 0 <= n < I2C_BLOCK_MAX ->
  k_rdwr (ks_of o ++ [KRead slave n]) (kernel w) = (inr [data], k') ->
  exists w1 w2, requestFrom slave n true w = (Ok n, w1) /\ available w1 = n /\
    read_buf n w1 = (Ok data, w2) /\ Z.of_nat (length data) = n /\ ready w2 /\ kernel w2 = k' /\
    openMode (dev (i2c w2)) = openMode (dev (i2c w)) /\ error (dev (i2c w2)) = 0.
Proof.
  intros Hq Hn Hk. destruct (request_stop w o slave n Hq Hn) as (w1 & Ho & H1).
  rewrite Hk in H1. destruct H1 as (H1 & Hr1 & Hk1 & He1 & bs' & Heq & Hlen & Hc).
  injection Heq as <-. pose proof Hr1 as (Hb1 & Hs & Hm & Hi).
  destruct (read_buf_rx w1 n) as (w2 & H2 & Hb2 & Hk2 & _ & Hd2 & Hs2 & Hm2 & Ht2);
    [done|rewrite Hc; lia|lia|].
  exists w1, w2. rewrite Hc, take_ge in H2 by lia. split; [done|]. split.
  { destruct Hb1. pose proof (Fifo.length_contents _ b_rx0) as Hl. rewrite Hc in Hl.
    unfold available. rewrite (Fifo.length_spec _ b_rx0). case_bool; lia. }
  split; [done|]. split; [done|]. split; [|split; [congruence|rewrite Hd2; done]].
  split; [done|]. by rewrite Hs2, Hm2, Ht2.
Qed.

(** A successful two-byte read taken out byte by byte. *)
Lemma request_two w slave b1 b2 k' :
  ready w -> k_rdwr [KRead slave 2] (kernel w) = (inr [[b1; b2]], k') ->
  exists w1 w2 w3, requestFrom slave 2 true w = (Ok 2, w1) /\ read w1 = (Ok b1, w2) /\
    read w2 = (Ok b2, w3) /\ ready w3 /\ kernel w3 = k'.
Proof.
  intros Hq Hk. destruct (request_stop w None slave 2 Hq) as (w1 & _ & H1); [done|].
  cbn [ks_of app] in H1. rewrite Hk in H1.
  destruct H1 as (H1 & (Hb1 & Hs1 & Hm1 & Ht1) & Hk1 & _ & bs & Heq & _ & Hc1). injection Heq as <-.
  destruct (read_one w1 b1 [b2] Hb1 Hc1) as (w2 & H2 & Hb2 & Hc2 & Hk2 & _ & _ & Hs2 & Hm2 & Ht2); [done|].
  destruct (read_one w2 b2 [] Hb2 Hc2) as (w3 & H3 & Hb3 & _ & Hk3 & _ & _ & Hs3 & Hm3 & Ht3); [done|].
  exists w1, w2, w3. do 3 (split; [done|]). split; [|congruence]. split; [done|].
  by rewrite Hs3, Hs2, Hm3, Hm2, Ht3, Ht2.
Qed.

End WithKernel.

(** ** Opening and closing *)
Record closed (w : world) : Prop := {
  c_open : is_open w = false;
  c_state : state (i2c w) = Idle;
  c_tx : Fifo.wf (txbuf (i2c w));
  c_txsize : Fifo.f_size (txbuf (i2c w)) = I2C_BLOCK_MAX;
  c_rx : Fifo.wf (rxbuf (i2c w));
  c_rxsize : Fifo.f_size (rxbuf (i2c w)) = I2C_BLOCK_MAX }.

Lemma isOpen_close d : isOpen (IoDevice.close d) = false.
Proof. unfold IoDevice.close. by destruct (isOpen d) eqn:E. Qed.

Lemma close_closed w :
  bufs_ok w -> exists w', close w = (Ok tt, w') /\ closed w' /\ fd (i2c w') = -1.
Proof.
  intros []. unfold close. rewrite b_open0.
  destruct (k_close (fd (i2c w)) (kernel w)) as [[e|] k'];
    (eexists; split; [reflexivity|]; split; [|done]; constructor; try done; apply isOpen_close).
Qed.

Lemma open_ready w mode :
  closed w -> mode <> NotOpen ->
  exists b w', open mode w = (Ok b, w') /\ is_open w' = b /\
    (if b then ready w' /\ openMode (dev (i2c w')) = mode else closed w' /\ fd (i2c w') = -1).
Proof.
  intros [] Hmode. unfold open. rewrite c_open0. cbn.
  destruct (k_open (bus (i2c w)) (modeToPosixFlags mode) (kernel w)) as [[e|n] k1].
  - exists false. eexists. split; [reflexivity|].
    assert (Hc : isOpen (setError_errno e (dev (i2c w))) = false).
    { unfold setError_errno. by destruct (negb (e =? 0)). }
    split; [done|]. split; [|done]. constructor; cbn; try done; by apply wf_clear.
  - assert (Ho : isOpen (IoDevice.open mode (dev (i2c w))).2 = true).
    { unfold IoDevice.open, is_open in *. rewrite c_open0. unfold isOpen. cbn.
      by destruct (Z.eqb_spec mode NotOpen). }
    set (w1 := set_dev _ (set_fd n _)).
    assert (Hb : forall d e k, isOpen d = true -> bufs_ok (set_dev (fun _ => d) (set_env e k w1))).
    { intros d e k Hd. constructor; cbn; try done; by apply wf_clear. }
    destruct (k_funcs n k1) as [[e|funcs] k2].
    + destruct (close_closed (set_dev (setError_errno e) (set_env e k2 w1))) as (w2 & -> & Hc & Hfd).
      { specialize (Hb (setError_errno e (dev (i2c w1))) e k2). apply Hb.
        unfold setError_errno. destruct (negb (e =? 0)); apply Ho. }
      exists false, w2. rewrite (c_open _ Hc). done.
    + destruct (test funcs I2C_FUNC_I2C).
      * exists true. eexists. split; [f_equal; f_equal; exact Ho|]. split; [exact Ho|].
        split; [|cbn; unfold IoDevice.open, is_open in *; by rewrite c_open0].
        split; [by apply (Hb (dev (i2c w1)))|]. by split.
      * destruct (close_closed (set_dev (setError_code EOPNOTSUPP) (set_env (errno w) k2 w1)))
          as (w2 & -> & Hc & Hfd).
        { by apply (Hb (setError_code EOPNOTSUPP (dev (i2c w1)))). }
        exists false, w2. rewrite (c_open _ Hc). done.
Qed.

End Dev.

Abbreviation ready w := (queued w None).
#[local] Arguments to_kmsg : simpl never.

(** A kernel whose bus answers every read with the byte 165, except that
    slave 127 never acknowledges; its state is the log of the transfers. *)
Definition demo_kernel : Kernel := {|
  kst := list (list kmsg);
  k_rdwr ms k :=
    (if existsb (fun m => match m with KRead a n => (a =? 127) || (n <? 0) | _ => false end) ms
     then inl 121
     else inr (List.map (fun n => replicate (Z.to_nat n) 165) (reads_of ms)), ms :: k);
  k_open _ _ k := (inr 3, k);
  k_close _ k := (None, k);
  k_funcs _ k := (inr 1, k) |}.

#[export] Instance demo_kernel_ok : KernelOk demo_kernel.
Proof.
  constructor.
  - intros ms k e k'. cbn. destruct (existsb _ ms); intros H; inversion H. done.
  - intros ms k bss k'. cbn. destruct (existsb _ ms) eqn:E; intros H; inversion H; subst. clear H.
    induction ms as [|[a bs|a n] ms IH]; cbn in *; [done|by apply IH|].
    apply orb_false_iff in E as [E1 E2]. apply orb_false_iff in E1 as [_ E1].
    apply Z.ltb_ge in E1. rewrite length_replicate, Z2Nat.id by done. f_equal. by apply IH.
Qed.

(** An opened device on that kernel. *)
Definition demo_world : @world demo_kernel :=
  (@open demo_kernel ReadWrite (@new demo_kernel (replicate 32 0) (replicate 32 0) 0 [])).2.

Lemma demo_ready : @queued demo_kernel demo_world None.
Proof. split; [|done]. constructor; try done; constructor; cbn; lia. Qed.

(** C28: A write transaction of fewer bytes than the buffer holds is one
    transfer of one message carrying exactly the bytes written, reports whether
    the kernel accepted it, never touches memory outside its buffer, and leaves
    the master idle with empty queues, also when the transfer failed. *)
Theorem i2c_write_transaction {K : Kernel} {KOK : KernelOk K} (w : world) (slave : Z) (bs : list Z) :
  ready w -> Z.of_nat (length bs) < I2C_BLOCK_MAX ->
  exists w', (beginTransmission slave;; write_buf bs;; endTransmission true) w =
      (Ok (succeeded (k_rdwr [KWrite slave bs] (kernel w)).1), w') /\
    ready w' /\ kernel w' = (k_rdwr [KWrite slave bs] (kernel w)).2.
Proof.
  intros Hr Hl. destruct (send_buf w slave bs Hr Hl) as (w' & H & Hr' & Hk & _).
  by exists w'.
Qed.

Lemma i2c_write_transaction_witness :
  exists w', (beginTransmission 51;; write_buf [1; 2];; endTransmission true) demo_world =
      (Ok true, w') /\ ready w' /\ kernel w' = [[KWrite 51 [1; 2]]].
Proof. apply (i2c_write_transaction demo_world 51 [1; 2] demo_ready). done. Defined.

(** C4: A register read (write without stop, then a read request) of a master that
    is open and idle, with fewer than 32 bytes written and fewer than 32 asked for,
    reaches the kernel as one transfer of two messages, so the bus is not released
    in between; when the transfer succeeds it returns the number of bytes asked for,
    and the bytes then read are those the slave sent, in order.  With 32 bytes the
    length that the buffers give is 0. *)
Theorem i2c_write_then_read {K : Kernel} {KOK : KernelOk K} (w : world) (slave n : Z) (bs : list Z) :
  ready w -> Z.of_nat (length bs) < I2C_BLOCK_MAX -> 0 <= n < I2C_BLOCK_MAX ->
  forall data k', k_rdwr [KWrite slave bs; KRead slave n] (kernel w) = (inr [data], k') ->
  exists w', (beginTransmission slave;; write_buf bs;; endTransmission false;;
              c ← requestFrom slave n true; d ← read_buf n; mret (c, d)) w = (Ok (n, data), w') /\
    ready w' /\ kernel w' = k'.
Proof.
  intros Hr Hl Hn data k' Hk.
  destruct (begin_ready w slave Hr) as (w1 & H1 & Hw1 & He1).
  destruct (write_buf_writing w1 slave [] bs Hw1) as (w2 & H2 & Hw2 & He2); [done|].
  destruct (end_nostop w2 slave bs Hw2) as (w3 & H3 & Hq3 & He3).
  replace (kernel w) with (kernel w3) in Hk
    by (destruct He1 as [<- _], He2 as [<- _], He3 as [<- _]; done).
  destruct (request_read w3 (Some (slave, bs)) slave n data k' Hq3 Hn Hk)
    as (w4 & w5 & H4 & _ & H5 & _ & Hr5 & Hk5 & _).
  exists w5. by rewrite (M_bind_ok _ _ _ _ _ _ _ _ H1), (M_bind_ok _ _ _ _ _ _ _ _ H2),
    (M_bind_ok _ _ _ _ _ _ _ _ H3), (M_bind_ok _ _ _ _ _ _ _ _ H4), (M_bind_ok _ _ _ _ _ _ _ _ H5).
Qed.

Lemma i2c_write_then_read_witness :
  exists w', (beginTransmission 32;; write_buf [2];; endTransmission false;;
              c ← requestFrom 32 2 true; d ← read_buf 2; mret (c, d)) demo_world =
      (Ok (2, [165; 165]), w') /\ ready w' /\ kernel w' = [[KWrite 32 [2]; KRead 32 2]].
Proof. by apply (i2c_write_then_read demo_world 32 2 [2] demo_ready). Defined.

(** A payload that fills the buffer is lost: after writing exactly 32
    bytes the message has length 0, the transfer sends an empty message, and one
    byte more is written outside the buffer. *)
Theorem i2c_full_payload_lost {K : Kernel} {KOK : KernelOk K} (w : world) (slave b : Z) (bs : list Z) :
  ready w -> Z.of_nat (length bs) = I2C_BLOCK_MAX ->
  (exists w', (beginTransmission slave;; write_buf bs;; write b) w = (Throw UB, w')) /\
  (exists w', (beginTransmission slave;; write_buf bs;; endTransmission true) w =
      (Ok (succeeded (k_rdwr [KWrite slave []] (kernel w)).1), w') /\
     kernel w' = (k_rdwr [KWrite slave []] (kernel w)).2).
Proof.
  intros Hr Hl. destruct (begin_ready w slave Hr) as (w1 & H1 & Hw1 & He1).
  destruct (write_buf_full w1 slave bs Hw1 Hl) as (w2 & H2 & Hw2 & He2).
  rewrite !(M_bind_ok _ _ _ _ _ _ _ _ H1), !(M_bind_ok _ _ _ _ _ _ _ _ H2).
  replace (kernel w) with (kernel w2) by (destruct He1 as [<- _], He2 as [<- _]; done).
  split; [by apply (write_filled w2 slave bs)|].
  destruct Hw2 as ([] & Hs & Hm & Ht). apply end_stop_any; try done; rewrite Hm; [done|].
  cbn. unfold to_kmsg. cbn. rewrite Fifo.mem_read_spec by lia. done.
Qed.

Lemma i2c_full_payload_lost_witness :
  (exists w', (beginTransmission 80;; write_buf (replicate 32 7);; write 7) demo_world = (Throw UB, w')) /\
  (exists w', (beginTransmission 80;; write_buf (replicate 32 7);; endTransmission true) demo_world =
     (Ok true, w') /\ kernel w' = [[KWrite 80 []]]).
Proof. by apply (i2c_full_payload_lost demo_world 80 7 (replicate 32 7) demo_ready). Defined.

(** A failed read request does not drop its message: the next write
    transaction sends the stale read again in front of its own message. *)
Theorem i2c_failed_request_resent {K : Kernel} {KOK : KernelOk K}
    (w : world) (slave n slave' : Z) (bs : list Z) :
  ready w -> 0 <= n < I2C_BLOCK_MAX -> Z.of_nat (length bs) < I2C_BLOCK_MAX ->
  forall e k', k_rdwr [KRead slave n] (kernel w) = (inl e, k') ->
  exists w', (requestFrom slave n true;;
              beginTransmission slave';; write_buf bs;; endTransmission true) w =
      (Ok (succeeded (k_rdwr [KRead slave n; KWrite slave' bs] k').1), w') /\
    kernel w' = (k_rdwr [KRead slave n; KWrite slave' bs] k').2.
Proof.
  intros Hr Hn Hl e k' Hk. pose proof (ready_txempty w Hr) as Hte.
  destruct (request_stop w None slave n Hr Hn) as (w1 & _ & H1). cbn [ks_of app] in H1.
  rewrite Hk in H1. destruct H1 as (H1 & Hk1 & _ & _ & Hb1 & Hs1 & Hm1 & Ht1).
  rewrite (proj1 (proj2 (proj2 Hr))) in Hm1. cbn in Hm1. rewrite <- Ht1 in Hte.
  destruct (begin_write_after w1 (mk_msg slave true n Rx) slave' bs) as (w2 & H2 & Hw2); [done..|].
  destruct Hw2 as ([] & Hs2 & Hm2 & Hc2 & Hk2).
  rewrite (M_bind_ok _ _ _ _ _ _ _ _ H1). rewrite <- Hk1, <- Hk2.
  destruct (end_stop_any w2 [KRead slave n; KWrite slave' bs]) as (w3 & H3 & Hk3); [done|done| | | |].
  - by rewrite Hm2.
  - rewrite Hm2. cbn. by rewrite (to_kmsg_tx _ slave' bs).
  - apply Forall_singleton. destruct b_rx0. unfold I2C_BLOCK_MAX in *. lia.
  - exists w3. split; [|done].
    unfold mbind, M_bind in H2 |- *. destruct (beginTransmission slave' w1) as [[[]|] w']; [|done].
    destruct (write_buf bs w') as [[c|] w'']; [|done]. injection H2 as -> ->. done.
Qed.

Lemma i2c_failed_request_resent_witness :
  exists w', (requestFrom 127 4 true;;
              beginTransmission 80;; write_buf [1];; endTransmission true) demo_world = (Ok false, w') /\
    kernel w' = [[KRead 127 4; KWrite 80 [1]]; [KRead 127 4]].
Proof.
  apply (i2c_failed_request_resent demo_world 127 4 80 [1] demo_ready) with (e := 121); done.
Defined.

(** Opening a closed master with any mode but [NotOpen] leaves it in one
    of two states: open in that mode and idle with empty queues, which is when
    [open] returns true, or closed again (the device node cannot be opened, or
    the adapter does not offer plain I2C transfers), when it returns false; the
    descriptor is never leaked. *)
Theorem i2c_open_ready_or_closed {K : Kernel} (w : world) (mode : Z) :
  closed w -> mode <> NotOpen ->
  exists b w', open mode w = (Ok b, w') /\ is_open w' = b /\
    (if b then ready w' /\ openMode (dev (i2c w')) = mode else closed w' /\ fd (i2c w') = -1).
Proof. apply open_ready. Qed.

Lemma i2c_open_ready_or_closed_witness :
  exists b w', open ReadWrite (@new demo_kernel (replicate 32 0) (replicate 32 0) 0 []) = (Ok b, w') /\
    is_open w' = b /\
    (if b then ready w' /\ openMode (dev (i2c w')) = ReadWrite else closed w' /\ fd (i2c w') = -1).
Proof.
  apply i2c_open_ready_or_closed; [|done]. constructor; try done; constructor; cbn; lia.
Defined.

End I2cDev.
