(* ===== verification/Converter.v ===== *)
(** * The base class of converters, src/converter.cpp and src/converter_p.h

    [Converter] is an interface with default behaviour: a device implements the
    virtual functions of [Converter::Private], which are the fields of
    [ConverterImpl], and the base class adds the guards on the open mode, the
    clamping of values and the read-modify-write of mode flags.  The parsing of
    the colon-separated device parameters and the registry of device names are
    the functions of module [Params].  Characters are [ascii] and a
    [std::string] is a list of them. *)
From Stdlib Require Import Ascii.
From S2P Require Import Prelude IoDevice.
Import Flags IoDevice.

Module Params.

Abbreviation str := (list Ascii.ascii).
Definition str_of : string -> str := String.list_ascii_of_string.

(** [std::string::find (c)]: the first position of [c]. *)
Fixpoint find_char (c : Ascii.ascii) (s : str) : option nat :=
  match s with
  | [] => None
  | x :: s' => if decide (x = c) then Some 0%nat else S <$> find_char c s'
  end.

Definition push_token (skipEmpty : bool) (t : str) (ts : list str) : list str :=
  if negb skipEmpty || negb (bool_decide (t = [])) then t :: ts else ts.

(** The loop of [split] on the rest of the string; each round consumes at
    least the delimiter, so as many rounds as characters, and one, suffice. *)
Fixpoint split_from (fuel : nat) (delimiter : Ascii.ascii) (skipEmpty : bool) (s : str) : list str :=
  match fuel with
  | O => []
  | S fuel' =>
      match find_char delimiter s with
      | Some e => push_token skipEmpty (take e s)
                    (split_from fuel' delimiter skipEmpty (drop (S e) s))
      | None => push_token skipEmpty s []
      end
  end.

Definition split (s : str) (delimiter : Ascii.ascii) (skipEmpty : bool) : list str :=
  split_from (S (length s)) delimiter skipEmpty s.

(** [parseParameters]: the map, and what is left of the vector. *)
Fixpoint parse_loop (parameters : list str) (result : gmap str str) : gmap str str * list str :=
  match parameters with
  | [] => (result, [])
  | p :: ps =>
      match find_char "="%char p with
      | Some pos => parse_loop ps (<[take pos p := drop (S pos) p]> result)
      | None => let r := parse_loop ps result in (r.1, p :: r.2)
      end
  end.

Definition parseParameters (parameters : list str) : gmap str str * list str :=
  parse_loop parameters ∅.

(** [std::stoi (s)], base 10: white space, a sign, digits; the rest of the
    string is ignored. *)
Definition is_space (c : Ascii.ascii) : bool :=
  let n := Z.of_nat (Ascii.nat_of_ascii c) in (n =? 32) || ((9 <=? n) && (n <=? 13)).
Definition digit (c : Ascii.ascii) : option Z :=
  let n := Z.of_nat (Ascii.nat_of_ascii c) in
  if (48 <=? n) && (n <=? 57) then Some (n - 48) else None.
Fixpoint skip_space (s : str) : str :=
  match s with
  | c :: s' => if is_space c then skip_space s' else s
  | [] => []
  end.
Fixpoint digits (acc : Z) (s : str) : Z :=
  match s with
  | c :: s' => match digit c with Some d => digits (10 * acc + d) s' | None => acc end
  | [] => acc
  end.
Definition stoi (s : str) : outcome Z :=
  let s := skip_space s in
  let '(neg, s) := match s with
                   | "-"%char :: s' => (true, s')
                   | "+"%char :: s' => (false, s')
                   | _ => (false, s)
                   end in
  match s with
  | c :: _ =>
      match digit c with
      | Some _ =>
          let v := if neg : bool then - digits 0 s else digits 0 s in
          if (- 2 ^ 31 <=? v) && (v <? 2 ^ 31) then Ok v else Throw OutOfRange
      | None => Throw InvalidArgument
      end
  | [] => Throw InvalidArgument
  end.

(** The registry: a creator, a type and a parameter list per device name. *)
Record registryKey (C : Type) : Type := mk_key { k_type : str; k_parameters : str; creator : str -> C }.
Arguments mk_key {C}.
Arguments creator {C}.

Definition registerConverter {C} (name : str) (key : registryKey C) (registry : gmap str (registryKey C)) :
    gmap str (registryKey C) := <[name := key]> registry.

(** [factory]: [None] is the null pointer. *)
Definition factory {C} (registry : gmap str (registryKey C)) (deviceName parameters : str) : option C :=
  let '(name, params) :=
    match find_char ":"%char deviceName with
    | Some n => (take n deviceName, drop (S n) deviceName)
    | None => (deviceName, parameters)
    end in
  (fun key => creator key params) <$> registry !! name.

(** ** Lemmas *)
Fixpoint join (d : Ascii.ascii) (ts : list str) : str :=
  match ts with
  | [] => []
  | [t] => t
  | t :: ts' => t ++ d :: join d ts'
  end.

Lemma find_char_Some c s n :
  find_char c s = Some n -> s = take n s ++ c :: drop (S n) s /\ (c ∉ take n s) /\ (n < length s)%nat.
Proof.
  revert n. induction s as [|x s IH]; intros n; cbn; [done|].
  destruct (decide (x = c)) as [->|Hne]; intros H.
  - injection H as <-. cbn. split; [done|]. split; [apply not_elem_of_nil|lia].
  - apply fmap_Some in H as (m & Hm & ->). apply IH in Hm as (H1 & H2 & H3). cbn.
    split; [by f_equal|]. split; [|lia]. apply not_elem_of_cons. done.
Qed.

Lemma find_char_None c s : find_char c s = None <-> c ∉ s.
Proof.
  induction s as [|x s IH]; cbn.
  - split; [intros _; apply not_elem_of_nil|done].
  - rewrite not_elem_of_cons, <- IH. destruct (decide (x = c)) as [->|Hne]; [split; [done|by intros [? _]]|].
    destruct (find_char c s); cbn; split; (done || by intros [_ ?]).
Qed.

Lemma find_char_app c a s : c ∉ a -> find_char c (a ++ c :: s) = Some (length a).
Proof.
  induction a as [|x a IH]; cbn; intros Ha.
  - by rewrite decide_True.
  - apply not_elem_of_cons in Ha as [Hx Ha]. by rewrite decide_False, IH.
Qed.

(** More fuel than needed changes nothing: the unfolding of the loop. *)
Lemma split_from_fuel d sk : forall n m s, (length s < n)%nat -> (length s < m)%nat ->
  split_from n d sk s = split_from m d sk s.
Proof.
  induction n as [|n IH]; intros [|m] s Hn Hm; try lia. cbn.
  destruct (find_char d s) as [e|] eqn:E; [|done]. f_equal.
  apply find_char_Some in E as (_ & _ & E). apply IH; rewrite length_drop; lia.
Qed.

Lemma split_unfold d sk s :
  split s d sk = match find_char d s with
                 | Some e => push_token sk (take e s) (split (drop (S e) s) d sk)
                 | None => push_token sk s []
                 end.
Proof.
  unfold split at 1. change (split_from (S (length s)) d sk s) with
    (match find_char d s with
     | Some e => push_token sk (take e s) (split_from (length s) d sk (drop (S e) s))
     | None => push_token sk s []
     end).
  destruct (find_char d s) as [e|] eqn:E; [|done]. f_equal.
  apply find_char_Some in E as (_ & _ & E). apply split_from_fuel; rewrite length_drop; lia.
Qed.

Lemma split_ind (P : str -> Prop) (d : Ascii.ascii) :
  (forall s, find_char d s = None -> P s) ->
  (forall s e, find_char d s = Some e -> P (drop (S e) s) -> P s) -> forall s, P s.
Proof.
  intros Hn Hs s. remember (length s) as n eqn:Hl. revert s Hl.
  induction (lt_wf n) as [n _ IH]. intros s ->.
  destruct (find_char d s) as [e|] eqn:E; [|by apply Hn].
  apply (Hs s e E). eapply IH; [|reflexivity].
  apply find_char_Some in E as (_ & _ & E). rewrite length_drop. lia.
Qed.

Lemma split_nonempty s d : split s d false <> [].
Proof. rewrite split_unfold. by destruct (find_char d s). Qed.

(** Skipping empty tokens is filtering them out. *)
Lemma split_skip s d : split s d true = filter (fun t => t <> []) (split s d false).
Proof.
  pattern s. apply (split_ind _ d); clear s; [intros s E|intros s e E IH];
    rewrite !split_unfold, E; unfold push_token; cbn [negb orb].
  - destruct s; [done|]. by rewrite filter_cons_True.
  - rewrite IH. destruct (take e s) eqn:Et.
    + by rewrite filter_cons_False by naive_solver.
    + by rewrite filter_cons_True.
Qed.

(** Splitting a joined list of delimiter-free tokens gives it back. *)
Lemma split_join_inv d ts :
  ts <> [] -> Forall (fun t => d ∉ t) ts -> split (join d ts) d false = ts.
Proof.
  intros Hne Hf. induction Hf as [|t ts Ht Hf IH]; [done|]. destruct ts as [|t' ts].
  - change (join d [t]) with t. rewrite split_unfold. by rewrite (proj2 (find_char_None d t) Ht).
  - change (join d (t :: t' :: ts)) with (t ++ d :: join d (t' :: ts)).
    rewrite split_unfold, find_char_app by done. rewrite take_app_length.
    replace (drop (S (length t)) (t ++ d :: join d (t' :: ts))) with (join d (t' :: ts)).
    + cbn [push_token negb orb]. by rewrite IH.
    + change (d :: join d (t' :: ts)) with ([d] ++ join d (t' :: ts)).
      rewrite app_assoc, drop_app_length'; [done|]. rewrite length_app. cbn. lia.
Qed.

(** The assignments of a parameter list, as pairs in order. *)
Definition assignment (p : str) : option (str * str) :=
  (fun n => (take n p, drop (S n) p)) <$> find_char "="%char p.

Lemma assignment_find p :
  assignment p = match find_char "="%char p with
                 | Some n => Some (take n p, drop (S n) p) | None => None end.
Proof. done. Qed.

Lemma parse_loop_spec ps : forall m,
  parse_loop ps m = (foldl (fun m kv => <[kv.1 := kv.2]> m) m (omap assignment ps),
                     filter (fun p => find_char "="%char p = None) ps).
Proof.
  induction ps as [|p ps IH]; intros m; [done|]. cbn [parse_loop].
  destruct (find_char "="%char p) as [n|] eqn:E; rewrite IH.
  - rewrite filter_cons_False by naive_solver. cbn. by rewrite (assignment_find p), E.
  - rewrite filter_cons_True by done. cbn. by rewrite (assignment_find p), E.
Qed.

(** Splitting and joining are inverse: joining the tokens of any string
    gives the string back and no token contains the delimiter, and a list of
    delimiter-free tokens is what its join splits into; skipping empty tokens
    drops exactly those. *)
Theorem split_roundtrip (s : str) (d : Ascii.ascii) :
  join d (split s d false) = s /\ Forall (fun t => d ∉ t) (split s d false) /\
  split s d true = filter (fun t => t <> []) (split s d false) /\
  (forall ts, ts <> [] -> Forall (fun t => d ∉ t) ts -> split (join d ts) d false = ts).
Proof.
  enough (join d (split s d false) = s /\ Forall (fun t => d ∉ t) (split s d false)) as [H1 H2].
  { split; [done|]. split; [done|]. split; [apply split_skip|]. apply split_join_inv. }
  pattern s. apply (split_ind _ d); clear s; [intros s E|intros s e E [IH1 IH2]];
    rewrite split_unfold, E; cbn [push_token negb orb].
  - split; [done|]. apply Forall_singleton. by apply find_char_None.
  - apply find_char_Some in E as (Hs & Hn & _).
    split; [|by constructor]. pose proof (split_nonempty (drop (S e) s) d).
    destruct (split (drop (S e) s) d false) as [|t ts] eqn:Es; [done|].
    change (take e s ++ d :: join d (t :: ts) = s). by rewrite IH1, <- Hs.
Qed.

(** A parameter string is a map: a key given once has its value, a key
    given again its last one, a key never given is absent, and the parameters
    without an equals sign are kept, in order. *)
Theorem parseParameters_lookup (ps qs : list str) (k v : str) :
  "="%char ∉ k -> Forall (fun q => forall v', q <> k ++ "="%char :: v') qs ->
  (parseParameters (ps ++ (k ++ "="%char :: v) :: qs)).1 !! k = Some v /\
  (parseParameters qs).1 !! k = None /\
  (parseParameters (ps ++ qs)).2 = (parseParameters ps).2 ++ (parseParameters qs).2 /\
  Forall (fun p => "="%char ∉ p) (parseParameters ps).2.
Proof.
  intros Hk Hq. unfold parseParameters. rewrite !parse_loop_spec. cbn [fst snd].
  assert (Hkeep : forall m : gmap str str,
    foldl (fun m kv => <[kv.1 := kv.2]> m) m (omap assignment qs) !! k = m !! k).
  { clear ps v. induction Hq as [|q qs Hq _ IH]; intros m; [done|]. cbn. rewrite (assignment_find q).
    destruct (find_char "="%char q) as [n|] eqn:E; cbn; [|apply IH]. rewrite IH.
    apply lookup_insert_ne. intros Heq. apply find_char_Some in E as (E & _ & _).
    rewrite Heq in E. by apply Hq in E. }
  repeat split.
  - rewrite omap_app. cbn. rewrite assignment_find, find_char_app by done.
    rewrite foldl_app. cbn. rewrite Hkeep, take_app_length.
    replace (drop (S (length k)) (k ++ "="%char :: v)) with v; [apply lookup_insert_eq|].
    change ("="%char :: v) with (["="%char] ++ v).
    rewrite app_assoc, drop_app_length'; [done|]. rewrite length_app. cbn. lia.
  - by rewrite Hkeep.
  - apply filter_app.
  - apply Forall_forall. intros p Hp. apply list_elem_of_filter in Hp as [Hp _].
    by apply find_char_None.
Qed.

Lemma parseParameters_lookup_witness :
  (parseParameters ([str_of "bus=1"; str_of "addr=32"] ++ (str_of "bus" ++ "="%char :: str_of "0")
     :: [str_of "fast"])).1 !! str_of "bus" = Some (str_of "0") /\
  (parseParameters [str_of "fast"]).1 !! str_of "bus" = None /\
  (parseParameters ([str_of "bus=1"; str_of "addr=32"] ++ [str_of "fast"])).2 =
    (parseParameters [str_of "bus=1"; str_of "addr=32"]).2 ++ (parseParameters [str_of "fast"]).2 /\
  Forall (fun p => "="%char ∉ p) (parseParameters [str_of "bus=1"; str_of "addr=32"]).2.
Proof.
  apply (parseParameters_lookup [str_of "bus=1"; str_of "addr=32"] [str_of "fast"]).
  - by apply find_char_None.
  - apply Forall_singleton. intros v' H. discriminate H.
Defined.

End Params.

Module Converter.

(** ** Mode flags *)
Definition NoMode : Z := 0.
Definition NormalMode : Z := 0.
Definition DigitalInput : Z := 0x1.
Definition DigitalOutput : Z := 0x2.
Definition AnalogInput : Z := 0x4.
Definition AnalogOutput : Z := 0x8.
Definition PullUp : Z := 0x10.
Definition PullDown : Z := 0x20.
Definition ActiveLow : Z := 0x40.
Definition EdgeRising : Z := 0x80.
Definition EdgeFalling : Z := 0x100.
Definition Interrupt : Z := 0x200.
Definition Continuous : Z := 0x400.
Definition SingleShot : Z := 0x800.
Definition FastMode : Z := 0x1000.
Definition SaveToEEPROM : Z := 0x2000.
Definition PwrDwn0 : Z := 0x4000.
Definition PwrDwn1 : Z := 0x8000.
Definition PwrDwnEn : Z := 0x10000.
Definition PwrDwnR1 : Z := PwrDwnEn.
Definition PwrDwnR2 : Z := Z.lor PwrDwnEn PwrDwn0.
Definition PwrDwnR3 : Z := Z.lor PwrDwnEn PwrDwn1.
Definition PwrDwnMask : Z := Z.lor (Z.lor PwrDwnEn PwrDwn1) PwrDwn0.

Definition modeFlagToStringMap : list (Z * string) :=
  [(DigitalInput, "in"); (DigitalOutput, "out"); (AnalogInput, "ain"); (AnalogOutput, "aout");
   (ActiveLow, "activelow"); (PullUp, "up"); (PullDown, "down"); (NoMode, "off");
   (EdgeRising, "rising"); (EdgeFalling, "falling"); (Interrupt, "int");
   (Continuous, "continuous"); (SingleShot, "single"); (FastMode, "fast");
   (SaveToEEPROM, "eeprom"); (PwrDwnEn, "pden"); (PwrDwn0, "pd0"); (PwrDwn1, "pd1")]%string.

Definition stringToModeFlagMap : list (string * Z) :=
  [("in", DigitalInput); ("out", DigitalOutput); ("ain", AnalogInput); ("aout", AnalogOutput);
   ("off", NoMode); ("activelow", ActiveLow); ("up", PullUp); ("down", PullDown);
   ("rising", EdgeRising); ("falling", EdgeFalling); ("int", Interrupt);
   ("continuous", Continuous); ("single", SingleShot); ("fast", FastMode);
   ("eeprom", SaveToEEPROM); ("pden", PwrDwnEn); ("pd0", PwrDwn0); ("pd1", PwrDwn1)]%string.

(** [LONG_MIN], with a 64-bit [long]. *)
Definition InvalidValue : Z := - 2 ^ 63.

Inductive ctype : Type := AnalogToDigital | DigitalToAnalog | Sensor | GpioExpander | UnknownType.
#[export] Instance ctype_eq_dec : EqDecision ctype.
Proof. solve_decision. Defined.

(** ** The virtual functions *)
Class ConverterImpl (S : Type) : Type := {
  c_dev : S -> iodevice;
  c_type : S -> ctype;
  numberOfChannels : S -> Z;
  range : S -> Z;
  isBipolar : S -> bool;
  v_open : Z -> M S bool;
  v_close : M S unit;
  v_read : M S Z;
  v_write : Z -> M S bool;
  v_readChannel : Z -> bool -> M S Z;
  v_writeChannel : Z -> Z -> bool -> M S bool;
  v_toggle : Z -> M S bool;
  v_mode : Z -> M S Z;
  v_setMode : Z -> Z -> M S bool }.

Section Base.
Context {St : Type} {I : ConverterImpl St}.

Definition max (s : St) (differential : bool) : Z :=
  if isBipolar s && differential then Z.quot (range s) 2 - 1 else range s - 1.
Definition min (s : St) (differential : bool) : Z :=
  if isBipolar s && differential then Z.quot (- range s) 2 else 0.

Definition clampValue (s : St) (value : Z) (differential : bool) : Z :=
  let value := if value <? min s differential then min s differential else value in
  if max s differential <? value then max s differential else value.

(** The public functions: guards on the open mode. *)
Definition open (mode : Z) : M St bool := fun s =>
  if negb (isOpen (c_dev s)) then v_open mode s else (Ok true, s).
Definition close : M St unit := fun s => if isOpen (c_dev s) then v_close s else (Ok tt, s).
Definition read : M St Z := fun s =>
  if test (openMode (c_dev s)) ReadOnly then v_read s else (Ok InvalidValue, s).
Definition write (value : Z) : M St bool := fun s =>
  if test (openMode (c_dev s)) WriteOnly then v_write (clampValue s value false) s else (Ok false, s).
Definition toggle (channel : Z) : M St bool := fun s =>
  if test (openMode (c_dev s)) WriteOnly && bool_decide (c_type s = GpioExpander)
  then v_toggle channel s else (Ok false, s).
Definition readChannel (channel : Z) (differential : bool) : M St Z := fun s =>
  if test (openMode (c_dev s)) ReadOnly then v_readChannel channel differential s
  else (Ok InvalidValue, s).
Definition writeChannel (value channel : Z) (differential : bool) : M St bool := fun s =>
  if test (openMode (c_dev s)) WriteOnly
  then v_writeChannel (clampValue s value differential) channel differential s else (Ok false, s).

(** The loop over the channels [i, i + n): whether every [setMode] succeeded;
    [f] computes the new mode of a channel from its current one. *)
Fixpoint mode_loop (f : Z -> Z) (n : nat) (i : Z) : M St bool :=
  match n with
  | O => mret true
  | S n' => m ← v_mode i; ok ← v_setMode (f m) i;
            if (ok : bool) then mode_loop f n' (i + 1) else mret false
  end.

(** [setModeFlags] and [clearModeFlags]: all channels, one, or none; after the
    loop over all channels control falls through to the final [return false],
    as it does when the loop is left early. *)
Definition mode_update (f : Z -> Z) (channel : Z) : M St bool := fun s =>
  if channel =? -1 then
    (mode_loop f (Z.to_nat (numberOfChannels s)) 0;; mret false) s
  else if (0 <=? channel) && (channel <? numberOfChannels s) then
    (m ← v_mode channel; v_setMode (f m) channel) s
  else (Ok false, s).

Definition setModeFlags (flags mask channel : Z) : M St bool :=
  mode_update (fun m => Z.lor (Z.land m (Z.lnot mask)) (Z.land flags mask)) channel.
Definition clearModeFlags (flags mask channel : Z) : M St bool :=
  mode_update (fun m => Z.land (Z.land m (Z.lnot mask)) (Z.land (Z.lnot flags) mask)) channel.

Lemma clampValue_spec s v d :
  min s d <= max s d -> clampValue s v d = Z.max (min s d) (Z.min v (max s d)).
Proof. intros H. unfold clampValue. destruct (Z.ltb_spec v (min s d)); case_bool; lia. Qed.

Lemma min_le_max s d : 2 <= range s -> min s d <= max s d.
Proof.
  intros H. unfold min, max.
  assert (1 <= Z.quot (range s) 2)
    by (rewrite Z.quot_div_nonneg by lia; apply Z.div_le_lower_bound; lia).
  destruct (isBipolar s && d); rewrite ?Z.quot_opp_l; lia.
Qed.

Lemma clear_mask_zero m flags mask :
  Z.land (Z.land m (Z.lnot mask)) (Z.land (Z.lnot flags) mask) = 0.
Proof.
  apply Z.bits_inj'. intros n Hn. rewrite !Z.land_spec, !Z.lnot_spec, Z.bits_0 by done.
  destruct (Z.testbit m n), (Z.testbit mask n), (Z.testbit flags n); done.
Qed.

Lemma mode_update_all_false f s b s' : mode_update f (-1) s = (Ok b, s') -> b = false.
Proof.
  unfold mode_update. rewrite Z.eqb_refl. munfold.
  destruct (mode_loop f _ 0 s) as [[ok|e] s1]; naive_solver.
Qed.

End Base.

(** A two-channel 8-bit device that stores its modes and the last value. *)
Record demo : Type := mk_demo { d_dev : iodevice; d_modes : list Z; d_last : Z }.
#[export] Instance demo_impl : ConverterImpl demo := {|
  c_dev := d_dev;
  c_type _ := DigitalToAnalog;
  numberOfChannels s := Z.of_nat (length (d_modes s));
  range _ := 256;
  isBipolar _ := true;
  v_open m s := (Ok true, s);
  v_close s := (Ok tt, s);
  v_read s := (Ok (d_last s), s);
  v_write v s := (Ok true, mk_demo (d_dev s) (d_modes s) v);
  v_readChannel _ _ s := (Ok (d_last s), s);
  v_writeChannel v _ _ s := (Ok true, mk_demo (d_dev s) (d_modes s) v);
  v_toggle _ s := (Ok false, s);
  v_mode i s := (Ok (nth (Z.to_nat i) (d_modes s) 0), s);
  v_setMode m i s := (Ok true, mk_demo (d_dev s) (lset (d_modes s) i m) (d_last s)) |}.
Definition demo_state : demo := mk_demo (mk_iodevice ReadWrite false 0 NoText) [3; 72] 0.

(** Values reach a device clamped to its range: a public [write] or
    [writeChannel] either is rejected without touching the device, when it is
    not open for writing, or hands the driver a value between [min] and [max],
    the caller's own when it already was in range. *)
Theorem write_is_clamped {St} `{ConverterImpl St} (s : St) (v ch : Z) (d : bool) :
  2 <= range s ->
  (isWritable (c_dev s) = false ->
     writeChannel v ch d s = (Ok false, s) /\ write v s = (Ok false, s)) /\
  (isWritable (c_dev s) = true -> exists v', writeChannel v ch d s = v_writeChannel v' ch d s /\
     min s d <= v' <= max s d /\ (min s d <= v <= max s d -> v' = v)).
Proof.
  intros Hr. unfold writeChannel, write, isWritable. split; intros ->; [done|].
  eexists. split; [reflexivity|]. pose proof (min_le_max s d Hr).
  rewrite clampValue_spec by done. lia.
Qed.

Lemma write_is_clamped_witness :
  2 <= range demo_state /\
  exists v', writeChannel 300 0 true demo_state = v_writeChannel v' 0 true demo_state /\
    -128 <= v' <= 127 /\ (-128 <= 300 <= 127 -> v' = 300).
Proof.
  assert (H : 2 <= range demo_state) by (cbn; lia). split; [exact H|].
  exact (proj2 (write_is_clamped demo_state 300 0 true H) eq_refl).
Defined.

(** Changing mode flags of all channels at once always reports failure,
    for any device, also when every channel was changed. *)
Theorem mode_flags_all_channels_false {St} `{ConverterImpl St} (s s' : St) (flags mask : Z) (b : bool) :
  setModeFlags flags mask (-1) s = (Ok b, s') \/ clearModeFlags flags mask (-1) s = (Ok b, s') ->
  b = false.
Proof. intros [Hs|Hs]; by apply mode_update_all_false in Hs. Qed.

Lemma mode_flags_all_channels_false_witness :
  (setModeFlags ActiveLow ActiveLow (-1) demo_state).2 = mk_demo (d_dev demo_state) [67; 72] 0 /\
  (setModeFlags ActiveLow ActiveLow (-1) demo_state).1 = Ok false.
Proof.
  split; [reflexivity|].
  destruct (setModeFlags ActiveLow ActiveLow (-1) demo_state) as [[b|e] s'] eqn:E; [|discriminate E].
  cbn. f_equal. apply (mode_flags_all_channels_false demo_state s' ActiveLow ActiveLow). by left.
Defined.

(** [clearModeFlags] does not clear the given flags but all of them:
    whatever flags and mask are asked for, the new mode it sets is 0. *)
Theorem clearModeFlags_clears_all {St} `{ConverterImpl St} (s : St) (flags mask ch : Z) :
  0 <= ch < numberOfChannels s ->
  clearModeFlags flags mask ch s = (v_mode ch;; v_setMode NoMode ch) s.
Proof.
  intros Hc. unfold clearModeFlags, mode_update. case_bool; try lia. cbn [andb]. munfold.
  destruct (v_mode ch s) as [[m|e] s']; [|done]. by rewrite clear_mask_zero.
Qed.

Lemma clearModeFlags_clears_all_witness :
  clearModeFlags ActiveLow ActiveLow 1 demo_state =
    (Ok true, mk_demo (d_dev demo_state) [3; 0] 0).
Proof. rewrite (clearModeFlags_clears_all demo_state ActiveLow ActiveLow 1); done. Defined.

(** The two tables of mode names are inverse of one another: a flag's
    name is looked up to the flag, and a name's flag has that name. *)
Lemma mode_tables_inverse :
  Forall (fun p => (list_to_map stringToModeFlagMap : gmap string Z) !! p.2 = Some p.1)
    modeFlagToStringMap /\
  Forall (fun p => (list_to_map modeFlagToStringMap : gmap Z string) !! p.2 = Some p.1)
    stringToModeFlagMap.
Proof. by split; vm_compute; repeat constructor. Qed.

End Converter.
