(* ===== verification/Max7311.v ===== *)
(** * The MAX7311 port expander, src/ext/max7311.cpp and src/ext/max7311_p.h

    [max7311] is [Max7311::Private]: the converter's [IoDevice::Private], the
    I2C master it shares, and the cached registers.  The four pairs of port
    registers are told apart by [bank], which names the cached array and its
    first register.  The chip on the other end of the bus is the interface
    [Max7311Chip]: what the data sheet says of register reads and writes inside
    one register pair. *)
From Stdlib Require Import Ascii.
From S2P Require Import Prelude IoDevice Fifo I2cDev Converter.
Import Flags.

Module Max7311.

Inductive bank : Type := Input | Output | Polarity | Config.

#[export] Instance bank_eq_dec : EqDecision bank.
Proof. solve_decision. Defined.

Definition bankReg (b : bank) : Z :=
  match b with Input => 0 | Output => 2 | Polarity => 4 | Config => 6 end.
Definition TimeoutReg : Z := 8.
Definition NofRegisters : Z := 9.

Record regBuffers : Type := mk_regs {
  input : list Z; output : list Z; polarity : list Z; config : list Z; timeout : Z }.

Definition get_bank (b : bank) (r : regBuffers) : list Z :=
  match b with
  | Input => input r | Output => output r | Polarity => polarity r | Config => config r
  end.
Definition set_bank (b : bank) (l : list Z) (r : regBuffers) : regBuffers :=
  match b with
  | Input => mk_regs l (output r) (polarity r) (config r) (timeout r)
  | Output => mk_regs (input r) l (polarity r) (config r) (timeout r)
  | Polarity => mk_regs (input r) (output r) l (config r) (timeout r)
  | Config => mk_regs (input r) (output r) (polarity r) l (timeout r)
  end.
Definition set_timeout (t : Z) (r : regBuffers) : regBuffers :=
  mk_regs (input r) (output r) (polarity r) (config r) t.

Section Driver.
Context {K : Kernel}.

Record max7311 : Type := mk_max7311 {
  conv : IoDevice.iodevice;
  i2c : I2cDev.world;
  addr : Z;
  isConnected : bool;
  busTimeout : bool;
  regs : regBuffers }.

Definition set_conv (c : IoDevice.iodevice) (d : max7311) : max7311 :=
  mk_max7311 c (i2c d) (addr d) (isConnected d) (busTimeout d) (regs d).
Definition set_i2c (w : I2cDev.world) (d : max7311) : max7311 :=
  mk_max7311 (conv d) w (addr d) (isConnected d) (busTimeout d) (regs d).
Definition set_connected (b : bool) (d : max7311) : max7311 :=
  mk_max7311 (conv d) (i2c d) (addr d) b (busTimeout d) (regs d).
Definition set_regs (r : regBuffers) (d : max7311) : max7311 :=
  mk_max7311 (conv d) (i2c d) (addr d) (isConnected d) (busTimeout d) r.

(** A call on the I2C master. *)
Definition on_i2c {A} : M I2cDev.world A -> M max7311 A := zoom i2c set_i2c.

Lemma max7311_on_i2c_bind {A B} (m : M I2cDev.world A) (k : A -> M max7311 B) d x w :
  m (i2c d) = (Ok x, w) -> (on_i2c m ≫= k) d = k x (set_i2c w d).
Proof. intros H. apply M_bind_ok. unfold on_i2c. by apply zoom_eq. Qed.

(** [regs.x[index] = f (regs.x[index])] *)
Definition upd (b : bank) (index : Z) (f : Z -> Z) : M max7311 unit := fun d =>
  match lget (get_bank b (regs d)) index with
  | Some x => (Ok tt, set_regs (set_bank b (lset (get_bank b (regs d)) index (f x)) (regs d)) d)
  | None => (Throw UB, d)
  end.
Definition fetch (b : bank) (index : Z) : M max7311 Z := fun d =>
  match lget (get_bank b (regs d)) index with
  | Some x => (Ok x, d)
  | None => (Throw UB, d)
  end.

(** The bytes copied to [&regs.x[index]]. *)
Definition store (b : bank) (index : Z) (bs : list Z) : M max7311 unit := fun d =>
  match Fifo.mem_write (get_bank b (regs d)) index bs with
  | Some l => (Ok tt, set_regs (set_bank b l (regs d)) d)
  | None => (Throw UB, d)
  end.

(** [1 << bit] on an [int]; a shift by 32 or more is undefined. *)
Definition shl1 (bit : Z) : M max7311 Z :=
  if bit <? 32 then mret (i32 (Z.shiftl 1 bit)) else throw UB.

(** ** Register transfers *)

(** The number of bytes read, and the bytes stored in [buffer]. *)
Definition readRegister (reg max : Z) : M max7311 (Z * list Z) := fun d =>
  if I2cDev.is_open (i2c d) && (reg <=? TimeoutReg) then
    let max := Z.min max (u16 (NofRegisters - reg)) in
    (ok ← on_i2c (I2cDev.beginTransmission (addr d);; I2cDev.write reg;; I2cDev.endTransmission false);
     if (ok : bool) then
       n ← on_i2c (I2cDev.requestFrom (addr d) max true);
       if 0 <=? n then
         bytesRead ← gets (fun d => I2cDev.available (i2c d));
         bs ← on_i2c (I2cDev.read_buf (Z.min bytesRead max));
         modify (set_connected true);;
         mret (bytesRead, bs)
       else mret (-1, [])
     else mret (-1, [])) d
  else (Ok (-1, []), d).

Definition readInputRegister (max : Z) : M max7311 (Z * list Z) := fun d =>
  if I2cDev.is_open (i2c d) then
    let max := Z.min max 2 in
    (n ← on_i2c (I2cDev.requestFrom (addr d) max true);
     if 0 <=? n then
       bytesRead ← gets (fun d => I2cDev.available (i2c d));
       bs ← on_i2c (I2cDev.read_buf (Z.min bytesRead max));
       modify (set_connected true);;
       mret (bytesRead, bs)
     else mret (-1, [])) d
  else (Ok (-1, []), d).

(** [writeRegister (reg, data, size)] *)
Definition writeRegister (reg : Z) (data : list Z) (size : Z) : M max7311 Z := fun d =>
  if I2cDev.is_open (i2c d) then
    let size := Z.min size (u16 (NofRegisters - reg)) in
    (ok ← on_i2c (I2cDev.beginTransmission (addr d);; I2cDev.write reg;;
                  I2cDev.write_buf (take (Z.to_nat size) data);; I2cDev.endTransmission true);
     if (ok : bool) then modify (set_connected true);; mret size else mret (-1)) d
  else (Ok (-1), d).

Definition in_ports (index nb : Z) : bool := (0 <=? index) && (index <=? 1) && (0 <? nb) && (index + nb <=? 2).

(** [readInputPorts], [readOutputPorts], [readPolarityInversion] and
    [readConfiguration]. *)
Definition readPorts (b : bank) (index nb : Z) : M max7311 bool := fun d =>
  if in_ports index nb then
    (r ← readRegister (bankReg b + index) nb;
     store b index r.2;;
     mret (r.1 =? nb)) d
  else (Ok false, d).

(** [writeOutputPorts], [writePolarityInversion] and [writeConfiguration]. *)
Definition writePorts (b : bank) (index nb : Z) : M max7311 bool := fun d =>
  if in_ports index nb then
    (n ← writeRegister (bankReg b + index) (drop (Z.to_nat index) (get_bank b (regs d))) nb;
     mret (n =? nb)) d
  else (Ok false, d).

Definition readInputPorts := readPorts Input.
Definition readOutputPorts := readPorts Output.
Definition readPolarityInversion := readPorts Polarity.
Definition readConfiguration := readPorts Config.
Definition writeOutputPorts := writePorts Output.
Definition writePolarityInversion := writePorts Polarity.
Definition writeConfiguration := writePorts Config.

Definition readTimeout : M max7311 bool :=
  r ← readRegister TimeoutReg 1;
  modify (fun d => match r.2 with t :: _ => set_regs (set_timeout t (regs d)) d | [] => d end);;
  mret (r.1 =? 1).
Definition writeTimeout : M max7311 bool := fun d =>
  (n ← writeRegister TimeoutReg [timeout (regs d)] 1; mret (n =? 1)) d.

(** [a && b] on calls. *)
Definition and_then (a b : M max7311 bool) : M max7311 bool :=
  ok ← a; if (ok : bool) then b else mret false.

Definition readAllRegisters : M max7311 bool :=
  and_then (readInputPorts 0 2) (and_then (readOutputPorts 0 2)
    (and_then (readPolarityInversion 0 2) (and_then (readConfiguration 0 2) readTimeout))).
Definition writeAllRegisters : M max7311 bool :=
  and_then (writeOutputPorts 0 2) (and_then (writePolarityInversion 0 2)
    (and_then (writeConfiguration 0 2) writeTimeout)).
Definition writeSetup (index nb : Z) : M max7311 bool :=
  and_then (writePolarityInversion index nb) (writeConfiguration index nb).
Definition readSetup (index nb : Z) : M max7311 bool :=
  and_then (readPolarityInversion index nb) (readConfiguration index nb).

(** ** The virtual functions *)
Definition conv_open (mode : Z) : M max7311 bool := fun d =>
  let '(b, c) := IoDevice.popen mode (conv d) in (Ok b, set_conv c d).

Definition open (mode : Z) : M max7311 bool :=
  ok ← on_i2c (I2cDev.open mode);
  if (ok : bool) then
    all ← readAllRegisters;
    if (all : bool) then
      modify (fun d => set_regs (set_timeout (if busTimeout d then 1 else 0) (regs d)) d);;
      writeSetup 0 2;;
      modify (set_connected true);;
      conv_open mode
    else mret false
  else
    modify (fun d =>
      let e := IoDevice.error (I2cDev.dev (I2cDev.i2c (i2c d))) in
      set_connected false
        (set_conv (if negb (e =? 0) then IoDevice.setError_errno (I2cDev.errno (i2c d)) (conv d)
                   else IoDevice.setError_code IoDevice.ENODEV (conv d)) d));;
    mret false.

Definition close : M max7311 unit := modify (fun d => set_conv (IoDevice.pclose (conv d)) d).

Definition read : M max7311 Z :=
  ok ← readInputPorts 0 2;
  if (ok : bool) then
    h ← fetch Input 1; l ← fetch Input 0; mret (Z.lor (Z.shiftl h 8) l)
  else mret Converter.InvalidValue.

Definition readChannel (channel : Z) (differential : bool) : M max7311 Z :=
  let index := u8 (Z.quot channel 8) in
  ok ← readInputPorts index 1;
  if (ok : bool) then
    let bit := u8 (Z.rem channel 8) in
    x ← fetch Input index; mret (Z.land (Z.shiftr x bit) 1)
  else mret Converter.InvalidValue.

Definition write (value : Z) : M max7311 bool :=
  upd Output 1 (fun _ => Z.land (Z.shiftr value 8) 0xFF);;
  upd Output 0 (fun _ => Z.land value 0xFF);;
  writeOutputPorts 0 2.

Definition toggle (channel : Z) : M max7311 bool :=
  if 0 <=? channel then
    let index := u8 (Z.quot channel 8) in
    if index <=? 1 then
      ok ← readOutputPorts index 1;
      if (ok : bool) then
        m ← shl1 (u8 (Z.rem channel 8));
        upd Output index (fun x => u8 (Z.lxor x m));;
        writeOutputPorts index 1
      else mret false
    else mret false
  else
    ok ← readOutputPorts 0 2;
    if (ok : bool) then
      upd Output 0 (fun x => u8 (Z.lxor x 0xFF));;
      upd Output 1 (fun x => u8 (Z.lxor x 0xFF));;
      writeOutputPorts 0 2
    else mret false.

Definition writeChannel (value channel : Z) (differential : bool) : M max7311 bool :=
  let index := u8 (Z.quot channel 8) in
  if index <=? 1 then
    m ← shl1 (u8 (Z.rem channel 8));
    (if negb (value =? 0) then upd Output index (fun x => u8 (Z.lor x m))
     else upd Output index (fun x => u8 (Z.land x (Z.lnot m))));;
    writeOutputPorts index 1
  else mret false.

Definition mode (channel : Z) : M max7311 Z :=
  let index := u8 (Z.quot channel 8) in
  if index <=? 1 then
    ok ← readSetup index 1;
    if (ok : bool) then
      m ← shl1 (u8 (Z.rem channel 8));
      c ← fetch Config index;
      p ← fetch Polarity index;
      let result := if Z.land c m =? 0 then Converter.DigitalOutput
                    else Z.lor Converter.DigitalInput Converter.PullUp in
      mret (if negb (Z.land p m =? 0) then Z.lor result Converter.ActiveLow else result)
    else mret Converter.NoMode
  else mret Converter.NoMode.

Definition setMode (m channel : Z) : M max7311 bool :=
  if test m (Z.lnot (Z.lor (Z.lor Converter.DigitalOutput Converter.DigitalInput) Converter.ActiveLow))
  then mret false else
  if test m Converter.DigitalOutput && test m Converter.DigitalInput then mret false else
  if 0 <=? channel then
    let index := u8 (Z.quot channel 8) in
    if index <=? 1 then
      ok ← readSetup index 1;
      if (ok : bool) then
        b ← shl1 (u8 (Z.rem channel 8));
        (if test m Converter.DigitalOutput then upd Config index (fun x => u8 (Z.land x (Z.lnot b)))
         else if test m Converter.DigitalInput then upd Config index (fun x => u8 (Z.lor x b))
         else mret tt);;
        (if test m Converter.ActiveLow then upd Polarity index (fun x => u8 (Z.lor x b))
         else upd Polarity index (fun x => u8 (Z.land x (Z.lnot b))));;
        writeSetup index 1
      else mret false
    else mret false
  else
    (if test m Converter.DigitalOutput then upd Config 0 (fun _ => 0);; upd Config 1 (fun _ => 0)
     else if test m Converter.DigitalInput then upd Config 0 (fun _ => 0xFF);; upd Config 1 (fun _ => 0xFF)
     else mret tt);;
    (if test m Converter.ActiveLow then upd Polarity 0 (fun _ => 0xFF);; upd Polarity 1 (fun _ => 0xFF)
     else upd Polarity 0 (fun _ => 0);; upd Polarity 1 (fun _ => 0));;
    writeSetup 0 2.

#[export] Instance max7311_impl : Converter.ConverterImpl max7311 := {|
  Converter.c_dev := conv;
  Converter.c_type _ := Converter.GpioExpander;
  Converter.numberOfChannels _ := 16;
  Converter.range _ := 2 ^ 16;
  Converter.isBipolar _ := false;
  Converter.v_open := open;
  Converter.v_close := close;
  Converter.v_read := read;
  Converter.v_write := write;
  Converter.v_readChannel := readChannel;
  Converter.v_writeChannel := writeChannel;
  Converter.v_toggle := toggle;
  Converter.v_mode := mode;
  Converter.v_setMode := setMode |}.

(** The constructors: on a given I2C master, and from a parameter string with
    [w] the master built on the default bus. *)
Definition no_regs : regBuffers := mk_regs [0; 0] [0; 0] [0; 0] [0; 0] 0.
Definition new (w : I2cDev.world) (address : Z) : max7311 :=
  mk_max7311 IoDevice.new w (u16 address) false true no_regs.

(** A numeric parameter: absent, empty with a default, or [stoi]. *)
Definition int_param (params : gmap Params.str Params.str) (key : string) (dflt : Z) :
    outcome (option Z) :=
  match params !! Params.str_of key with
  | None => Ok None
  | Some v => if bool_decide (v = []) then Ok (Some dflt)
              else match Params.stoi v with Ok n => Ok (Some n) | Throw e => Throw e end
  end.

Definition new_params (w : I2cDev.world) (params : Params.str) : outcome max7311 :=
  let map := (Params.parseParameters (Params.split params ":"%char false)).1 in
  match int_param map "bus" 0 with
  | Throw e => Throw e
  | Ok bus =>
      match int_param map "addr" 32 with
      | Throw e => Throw e
      | Ok address =>
          let w := match bus with Some id => (I2cDev.setBus id w).2 | None => w end in
          let t := match map !! Params.str_of "bustimeout" with
                   | Some v => negb (bool_decide (v = Params.str_of "false") ||
                                     bool_decide (v = Params.str_of "0"))
                   | None => true
                   end in
          Ok (mk_max7311 IoDevice.new w (u16 (default 32 address)) false t no_regs)
      end
  end.

End Driver.

(** ** The chip *)

(** [n] consecutive registers from [reg] that lie in one register pair. *)
Definition span (reg n : Z) : Prop :=
  (n = 1 /\ 0 <= reg <= 8) \/ (n = 2 /\ (reg = 0 \/ reg = 2 \/ reg = 4 \/ reg = 6)).

Definition byte (x : Z) : Prop := 0 <= x < 2 ^ 8.

Class Max7311Chip (K : Kernel) (a : Z) : Type := {
  chip_reg : kst -> Z -> Z;
  chip_byte : forall k r, byte (chip_reg k r);
  chip_write : forall k reg bs, 2 <= reg -> span reg (Z.of_nat (length bs)) -> Forall byte bs ->
    exists k', k_rdwr [KWrite a (reg :: bs)] k = (inr [], k') /\
      forall r, 2 <= r -> chip_reg k' r = default (chip_reg k r) (lget bs (r - reg));
  chip_read : forall k reg n, span reg n ->
    exists k', k_rdwr [KWrite a [reg]; KRead a n] k = (inr [chip_reg k <$> seqZ reg n], k') /\
      forall r, 2 <= r -> chip_reg k' r = chip_reg k r }.

Section Chip.
Context {K : Kernel} {KOK : KernelOk K} {a : Z} {C : Max7311Chip K a}.
Implicit Types d : max7311.

Definition chip d (r : Z) : Z := chip_reg (I2cDev.kernel (i2c d)) r.

Record wf d : Prop := {
  wf_ready : I2cDev.queued (i2c d) None;
  wf_addr : addr d = a;
  wf_len : forall b, length (get_bank b (regs d)) = 2%nat;
  wf_byte : forall b, Forall byte (get_bank b (regs d)) }.

(** A transfer changes the I2C master and the connection flag only. *)
Definition kept d d' : Prop :=
  regs d' = regs d /\ conv d' = conv d /\ busTimeout d' = busTimeout d /\ addr d' = addr d.

Lemma readRegister_chip d reg n :
  wf d -> span reg n ->
  exists d', readRegister reg n d = (Ok (n, chip d <$> seqZ reg n), d') /\ wf d' /\ kept d d' /\
    forall r, 2 <= r -> chip d' r = chip d r.
Proof.
  intros [] Hs. unfold readRegister. pose proof wf_ready0 as (Hb & _). destruct Hb.
  rewrite b_open. destruct (Z.leb_spec reg TimeoutReg); [|unfold span, TimeoutReg in *; lia].
  rewrite u16_small, Z.min_l by (unfold span, NofRegisters in *; lia). cbn [andb].
  destruct (I2cDev.queue_reg (i2c d) (addr d) reg wf_ready0) as (w1 & H1 & Hq1 & He1).
  rewrite (max7311_on_i2c_bind _ _ _ _ _ H1).
  destruct (chip_read (I2cDev.kernel (i2c d)) reg n Hs) as (k' & Hk & Hkeep).
  destruct He1 as (Hk1 & _).
  destruct (I2cDev.request_read w1 (Some (addr d, [reg])) (addr d) n (chip d <$> seqZ reg n) k' Hq1)
    as (w2 & w3 & H2 & Ha2 & H3 & Hl3 & Hr3 & Hk3 & _);
    [unfold span, I2cDev.I2C_BLOCK_MAX in *; lia|rewrite Hk1, wf_addr0; exact Hk|].
  rewrite (max7311_on_i2c_bind _ _ (set_i2c w1 d) _ _ H2).
  destruct (Z.leb_spec 0 n); [|unfold span in *; lia].
  rewrite (M_bind_ok _ _ _ (gets _) _ _ n (set_i2c w2 (set_i2c w1 d))) by (unfold gets; cbn; by rewrite Ha2).
  rewrite Z.min_id, (max7311_on_i2c_bind _ _ (set_i2c w2 (set_i2c w1 d)) _ _ H3).
  eexists. split; [reflexivity|]. split; [by constructor|]. split; [done|].
  intros r Hr. unfold chip. cbn. rewrite Hk3. by apply Hkeep.
Qed.

Lemma writeRegister_chip d reg data n :
  wf d -> 2 <= reg -> span reg n -> (Z.to_nat n <= length data)%nat -> Forall byte data ->
  exists d', writeRegister reg data n d = (Ok n, d') /\ wf d' /\ kept d d' /\
    forall r, 2 <= r -> chip d' r = default (chip d r) (lget (take (Z.to_nat n) data) (r - reg)).
Proof.
  intros [] Hreg Hs Hl Hb. unfold writeRegister. pose proof wf_ready0 as ([] & _).
  rewrite b_open, u16_small, Z.min_l by (unfold span, NofRegisters in *; lia).
  assert (Hlen : Z.of_nat (length (take (Z.to_nat n) data)) = n)
    by (rewrite length_take; unfold span in *; lia).
  destruct (chip_write (I2cDev.kernel (i2c d)) reg (take (Z.to_nat n) data)) as (k' & Hk & Hreg');
    [done|by rewrite Hlen|by apply Forall_take|].
  destruct (I2cDev.send_reg (i2c d) (addr d) reg (take (Z.to_nat n) data) wf_ready0)
    as (w1 & H1 & Hr1 & Hk1 & _); [unfold I2cDev.I2C_BLOCK_MAX, span in *; lia|].
  rewrite wf_addr0, Hk in *. rewrite (max7311_on_i2c_bind _ _ _ _ _ H1). cbn.
  eexists. split; [reflexivity|]. split; [by constructor|]. split; [done|].
  intros r Hr. unfold chip. cbn. rewrite Hk1. by apply Hreg'.
Qed.

Definition same_chip d d' : Prop := forall r, 2 <= r -> chip d' r = chip d r.

(** What a port operation leaves alone besides the cached registers. *)
Definition kept_conv d d' : Prop :=
  conv d' = conv d /\ busTimeout d' = busTimeout d /\ addr d' = addr d.

Lemma kept_conv_trans d d1 d2 : kept_conv d d1 -> kept_conv d1 d2 -> kept_conv d d2.
Proof. unfold kept_conv. intros (?&?&?) (?&?&?). repeat split; congruence. Qed.

Lemma get_set_bank b l r : get_bank b (set_bank b l r) = l.
Proof. by destruct b. Qed.
Lemma get_set_bank_ne b b' l r : b <> b' -> get_bank b' (set_bank b l r) = get_bank b' r.
Proof. by destruct b, b'. Qed.

Lemma wf_set_bank d b l :
  wf d -> length l = 2%nat -> Forall byte l -> wf (set_regs (set_bank b l (regs d)) d).
Proof.
  intros [] Hl Hb. constructor; cbn; try done; intros b'; destruct (decide (b = b')) as [<-|];
    rewrite ?get_set_bank, ?get_set_bank_ne by done; done.
Qed.

Lemma two_bytes d b : wf d -> exists x y, get_bank b (regs d) = [x; y] /\ byte x /\ byte y.
Proof.
  intros []. specialize (wf_len0 b). specialize (wf_byte0 b).
  destruct (get_bank b (regs d)) as [|x [|y [|]]]; try done.
  inversion wf_byte0 as [|? ? Hx Hy]. inversion Hy. by exists x, y.
Qed.

Lemma in_ports_one i : 0 <= i <= 1 -> in_ports i 1 = true.
Proof. intros Hi. unfold in_ports. case_bool; lia. Qed.

Lemma seqZ_1 r : seqZ r 1 = [r].
Proof. done. Qed.
Lemma seqZ_2 r : seqZ r 2 = [r; r + 1].
Proof. unfold seqZ. cbn. by rewrite Z.add_comm. Qed.

Lemma mem_write_one x y i v :
  0 <= i <= 1 -> byte x -> byte y -> byte v ->
  Fifo.mem_write [x; y] i [v] = Some (lset [x; y] i v) /\
  length (lset [x; y] i v) = 2%nat /\ Forall byte (lset [x; y] i v).
Proof.
  intros Hi Hx Hy Hv. assert (i = 0 \/ i = 1) as [-> | ->] by lia.
  - change (lset [x; y] 0 v) with [v; y]. by rewrite !Forall_cons.
  - change (lset [x; y] 1 v) with [x; v]. by rewrite !Forall_cons.
Qed.

Lemma mem_write_two x y u v : Fifo.mem_write [x; y] 0 [u; v] = Some [u; v].
Proof. done. Qed.

Lemma readPorts_one d b i :
  wf d -> 0 <= i <= 1 ->
  exists d', readPorts b i 1 d = (Ok true, d') /\ wf d' /\ same_chip d d' /\ kept_conv d d' /\
    regs d' = set_bank b (lset (get_bank b (regs d)) i (chip d (bankReg b + i))) (regs d).
Proof.
  intros Hwf Hi. unfold readPorts. rewrite in_ports_one by done.
  destruct (readRegister_chip d (bankReg b + i) 1 Hwf) as (d1 & H1 & Hw1 & (Hr1 & Hk1) & Hc1).
  { left. split; [done|]. destruct b; cbn; lia. }
  rewrite (M_bind_ok _ _ _ _ _ _ _ _ H1). unfold store. rewrite seqZ_1. cbn [fst snd fmap list_fmap].
  destruct (two_bytes d b Hwf) as (x & y & Hxy & Hx & Hy). munfold. rewrite Hr1, Hxy.
  destruct (mem_write_one x y i (chip d (bankReg b + i)) Hi Hx Hy (chip_byte _ _)) as (-> & Hl & Hb).
  rewrite <- Hr1. eexists; split; [reflexivity|]. split; [by apply wf_set_bank|].
  split; [exact Hc1|]. by split.
Qed.

Lemma readPorts_two d b :
  wf d ->
  exists d', readPorts b 0 2 d = (Ok true, d') /\ wf d' /\ same_chip d d' /\ kept_conv d d' /\
    regs d' = set_bank b [chip d (bankReg b); chip d (bankReg b + 1)] (regs d).
Proof.
  intros Hwf. unfold readPorts. change (in_ports 0 2) with true.
  destruct (readRegister_chip d (bankReg b + 0) 2 Hwf) as (d1 & H1 & Hw1 & (Hr1 & Hk1) & Hc1).
  { right. split; [done|]. destruct b; cbn; lia. }
  rewrite (M_bind_ok _ _ _ _ _ _ _ _ H1). unfold store. rewrite seqZ_2, Z.add_0_r.
  cbn [fst snd fmap list_fmap].
  destruct (two_bytes d b Hwf) as (x & y & Hxy & Hx & Hy). munfold. rewrite Hr1, Hxy, mem_write_two, <- Hr1.
  eexists; split; [reflexivity|]. split; [apply wf_set_bank; [done..|]|].
  { rewrite !Forall_cons, Forall_nil. split; [apply chip_byte|]. split; [apply chip_byte|done]. }
  split; [exact Hc1|]. by split.
Qed.

Lemma writePorts_one d b i x :
  wf d -> b <> Input -> 0 <= i <= 1 -> lget (get_bank b (regs d)) i = Some x ->
  exists d', writePorts b i 1 d = (Ok true, d') /\ wf d' /\ kept d d' /\
    forall r, 2 <= r -> chip d' r = if r =? bankReg b + i then x else chip d r.
Proof.
  intros Hwf Hne Hi Hx. unfold writePorts. rewrite in_ports_one by done.
  destruct (two_bytes d b Hwf) as (y & z & Hyz & Hy & Hz). rewrite Hyz in *.
  assert (Hhd : exists t, drop (Z.to_nat i) [y; z] = x :: t /\ Forall byte (x :: t)).
  { assert (i = 0 \/ i = 1) as [-> | ->] by lia; injection Hx as <-; eexists;
      (split; [reflexivity|by rewrite !Forall_cons]). }
  destruct Hhd as (t & Ht & Hbt). rewrite Ht.
  destruct (writeRegister_chip d (bankReg b + i) (x :: t) 1 Hwf) as (d1 & H1 & Hw1 & Hk1 & Hc1);
    [destruct b; cbn; lia || done|left; destruct b; cbn; lia|cbn; lia|done|].
  rewrite (M_bind_ok _ _ _ _ _ _ _ _ H1). exists d1. do 3 (split; [done|]).
  intros r Hr. rewrite Hc1 by done. unfold lget.
  change (take (Z.to_nat 1) (x :: t)) with [x].
  destruct (Z.eqb_spec r (bankReg b + i)) as [->|Hrne].
  - rewrite Z.sub_diag. done.
  - case_bool; [done|]. rewrite lookup_ge_None_2; [done|]. cbn. lia.
Qed.

Lemma writePorts_two d b x y :
  wf d -> b <> Input -> get_bank b (regs d) = [x; y] ->
  exists d', writePorts b 0 2 d = (Ok true, d') /\ wf d' /\ kept d d' /\
    forall r, 2 <= r -> chip d' r =
      if r =? bankReg b then x else if r =? bankReg b + 1 then y else chip d r.
Proof.
  intros Hwf Hne Hxy. unfold writePorts. change (in_ports 0 2) with true. cbn [andb].
  pose proof (wf_byte _ Hwf b) as Hbytes. rewrite Hxy in *. rewrite Z.add_0_r.
  destruct (writeRegister_chip d (bankReg b) [x; y] 2 Hwf) as (d1 & H1 & Hw1 & Hk1 & Hc1);
    [destruct b; cbn; lia || done|right; destruct b; cbn; lia|cbn; lia|done|].
  rewrite (M_bind_ok _ _ _ _ _ _ _ _ H1). exists d1. do 3 (split; [done|]).
  intros r Hr. rewrite Hc1 by done. unfold lget. change (take (Z.to_nat 2) [x; y]) with [x; y].
  destruct (Z.eqb_spec r (bankReg b)) as [->|Hr0]; [by rewrite Z.sub_diag|].
  destruct (Z.eqb_spec r (bankReg b + 1)) as [->|Hr1].
  - by replace (bankReg b + 1 - bankReg b) with 1 by lia.
  - case_bool; [done|]. rewrite lookup_ge_None_2; [done|]. cbn. lia.
Qed.

(** ** Channels: bit [c mod 8] of port [c / 8] *)
Definition bit_of d (b : bank) (c : Z) : bool := Z.testbit (chip d (bankReg b + c / 8)) (c mod 8).

(** [y] is [x] with bit [n] set to [v]. *)
Definition with_bit (x n : Z) (v : bool) (y : Z) : Prop :=
  byte y /\ forall i, 0 <= i < 8 -> Z.testbit y i = if i =? n then v else Z.testbit x i.

Lemma channel_index c :
  0 <= c < 16 -> u8 (Z.quot c 8) = c / 8 /\ 0 <= c / 8 <= 1 /\ u8 (Z.rem c 8) = c mod 8 /\
  0 <= c mod 8 < 8 /\ @shl1 K (c mod 8) = mret (2 ^ (c mod 8)).
Proof.
  intros Hc. rewrite Z.quot_div_nonneg, Z.rem_mod_nonneg by lia.
  pose proof (Z.mod_pos_bound c 8). pose proof (Z.div_mod c 8).
  rewrite !u8_small by lia. repeat split; try lia. unfold shl1.
  destruct (Z.ltb_spec (c mod 8) 32); [|lia]. rewrite Z.shiftl_1_l. f_equal.
  assert (2 ^ (c mod 8) <= 2 ^ 7) by (apply Z.pow_le_mono_r; lia).
  unfold i32. rewrite Z.mod_small; lia.
Qed.

Lemma with_bit_u8 x n v z :
  (forall i, 0 <= i < 8 -> Z.testbit z i = if i =? n then v else Z.testbit x i) ->
  with_bit x n v (u8 z).
Proof.
  intros Hz. split; [apply u8_bound|]. intros i Hi. unfold u8.
  rewrite Z.mod_pow2_bits_low by lia. by apply Hz.
Qed.

Lemma with_bit_or x n : 0 <= n < 8 -> with_bit x n true (u8 (Z.lor x (2 ^ n))).
Proof.
  intros Hn. apply with_bit_u8. intros i Hi. rewrite Z.lor_spec, Z.pow2_bits_eqb, Z.eqb_sym by lia.
  destruct (i =? n); by rewrite ?orb_true_r, ?orb_false_r.
Qed.

Lemma with_bit_clear x n : 0 <= n < 8 -> with_bit x n false (u8 (Z.land x (Z.lnot (2 ^ n)))).
Proof.
  intros Hn. apply with_bit_u8. intros i Hi.
  rewrite Z.land_spec, Z.lnot_spec, Z.pow2_bits_eqb, Z.eqb_sym by lia.
  destruct (i =? n); by rewrite ?andb_true_r, ?andb_false_r.
Qed.

Lemma with_bit_xor x n : 0 <= n < 8 -> with_bit x n (negb (Z.testbit x n)) (u8 (Z.lxor x (2 ^ n))).
Proof.
  intros Hn. apply with_bit_u8. intros i Hi. rewrite Z.lxor_spec, Z.pow2_bits_eqb, Z.eqb_sym by lia.
  destruct (Z.eqb_spec i n) as [->|]; by rewrite ?xorb_true_r, ?xorb_false_r.
Qed.

(** Storing one byte that differs in one bit changes one channel. *)
Lemma bit_of_store d d' b c v y :
  0 <= c < 16 -> with_bit (chip d (bankReg b + c / 8)) (c mod 8) v y ->
  (forall i, 0 <= i <= 1 -> chip d' (bankReg b + i) = if i =? c / 8 then y else chip d (bankReg b + i)) ->
  forall c', 0 <= c' < 16 -> bit_of d' b c' = if c' =? c then v else bit_of d b c'.
Proof.
  intros Hc [_ Hy] Hd c' Hc'. unfold bit_of.
  pose proof (Z.mod_pos_bound c' 8). pose proof (Z.div_mod c' 8). pose proof (Z.div_mod c 8).
  pose proof (Z.mod_pos_bound c 8). rewrite Hd by lia.
  destruct (Z.eqb_spec (c' / 8) (c / 8)) as [He|He].
  - rewrite Hy by lia. rewrite He. destruct (Z.eqb_spec (c' mod 8) (c mod 8)), (Z.eqb_spec c' c); lia || done.
  - destruct (Z.eqb_spec c' c) as [->|]; done.
Qed.

(** The cached output registers agree with the chip. *)
Definition out_synced d : Prop := output (regs d) = [chip d 2; chip d 3].

Lemma lget_two {A} (x y : A) i : 0 <= i <= 1 -> lget [x; y] i = Some (if i =? 0 then x else y).
Proof. intros Hi. by assert (i = 0 \/ i = 1) as [-> | ->] by lia. Qed.

Lemma out_synced_lget d i : out_synced d -> 0 <= i <= 1 -> lget (output (regs d)) i = Some (chip d (2 + i)).
Proof.
  intros Hs Hi. rewrite Hs, lget_two by done. by assert (i = 0 \/ i = 1) as [-> | ->] by lia.
Qed.

Lemma upd_ok d b i f :
  wf d -> 0 <= i <= 1 -> (forall x, byte x -> byte (f x)) ->
  exists x, lget (get_bank b (regs d)) i = Some x /\ byte x /\
    upd b i f d = (Ok tt, set_regs (set_bank b (lset (get_bank b (regs d)) i (f x)) (regs d)) d) /\
    wf (set_regs (set_bank b (lset (get_bank b (regs d)) i (f x)) (regs d)) d).
Proof.
  intros Hwf Hi Hf. destruct (two_bytes d b Hwf) as (x & y & Hxy & Hx & Hy).
  unfold upd. rewrite Hxy, lget_two by done. exists (if i =? 0 then x else y).
  assert (byte (if i =? 0 then x else y)) as Hb by (by destruct (i =? 0)).
  split; [done|]. split; [done|]. split; [done|]. apply wf_set_bank; [done|..].
  all: destruct (mem_write_one x y i _ Hi Hx Hy (Hf _ Hb)) as (_ & ? & ?); done.
Qed.

(** Changing one cached byte and writing its port. *)
Lemma upd_write d b i f :
  wf d -> b <> Input -> 0 <= i <= 1 -> (forall x, byte x -> byte (f x)) ->
  exists x d', lget (get_bank b (regs d)) i = Some x /\
    (upd b i f;; writePorts b i 1) d = (Ok true, d') /\ wf d' /\ kept_conv d d' /\
    regs d' = set_bank b (lset (get_bank b (regs d)) i (f x)) (regs d) /\
    forall r, 2 <= r -> chip d' r = if r =? bankReg b + i then f x else chip d r.
Proof.
  intros Hwf Hne Hi Hf. destruct (upd_ok d b i f Hwf Hi Hf) as (x & Hx & Hbx & H1 & Hw1).
  set (d1 := set_regs _ d) in *.
  destruct (writePorts_one d1 b i (f x) Hw1 Hne Hi) as (d2 & H2 & Hw2 & (Hr2 & Hk2) & Hc2).
  { subst d1. cbn. rewrite get_set_bank, lget_lset_eq; [done|]. rewrite (wf_len d Hwf). lia. }
  exists x, d2. split; [done|]. split; [by rewrite (M_bind_ok _ _ _ _ _ _ _ _ H1)|].
  split; [done|]. split; [exact Hk2|]. split; [by rewrite Hr2|]. exact Hc2.
Qed.

Lemma out_synced_lset d d' i y :
  out_synced d -> 0 <= i <= 1 -> output (regs d') = lset (output (regs d)) i y ->
  (forall r, 2 <= r -> chip d' r = if r =? 2 + i then y else chip d r) -> out_synced d'.
Proof.
  unfold out_synced. intros Hs Hi Hr Hc. rewrite Hr, Hs, !Hc by lia.
  by assert (i = 0 \/ i = 1) as [-> | ->] by lia.
Qed.

Lemma chip_ports d d' b i y :
  b <> Input -> (forall r, 2 <= r -> chip d' r = if r =? bankReg b + i then y else chip d r) ->
  forall j, 0 <= j <= 1 -> chip d' (bankReg b + j) = if j =? i then y else chip d (bankReg b + j).
Proof.
  intros Hb Hc j Hj. rewrite Hc by (destruct b; cbn; lia || done).
  destruct (Z.eqb_spec j i), (Z.eqb_spec (bankReg b + j) (bankReg b + i)); lia || done.
Qed.

Lemma max7311_writeChannel_chip d v c df :
  wf d -> out_synced d -> 0 <= c < 16 ->
  exists d', writeChannel v c df d = (Ok true, d') /\ wf d' /\ out_synced d' /\ kept_conv d d' /\
    (forall c', 0 <= c' < 16 -> bit_of d' Output c' = if c' =? c then negb (v =? 0) else bit_of d Output c') /\
    forall r, 4 <= r -> chip d' r = chip d r.
Proof.
  intros Hwf Hs Hc. destruct (channel_index c Hc) as (Hi & Hi1 & Hb & Hb1 & Hsh).
  unfold writeChannel. rewrite Hi, Hb, Hsh. destruct (Z.leb_spec (c / 8) 1); [|lia].
  assert (Hgen : forall f, (forall x, with_bit x (c mod 8) (negb (v =? 0)) (f x)) ->
    exists d', (upd Output (c / 8) f;; writePorts Output (c / 8) 1) d = (Ok true, d') /\
      wf d' /\ out_synced d' /\ kept_conv d d' /\
      (forall c', 0 <= c' < 16 -> bit_of d' Output c' = if c' =? c then negb (v =? 0) else bit_of d Output c') /\
      forall r, 4 <= r -> chip d' r = chip d r).
  { intros f Hf. destruct (upd_write d Output (c / 8) f) as (x & d' & Hx & H1 & Hw & Hk & Hr & Hch);
      [done|done|done|intros x _; apply Hf|].
    change (get_bank Output (regs d)) with (output (regs d)) in *.
    rewrite (out_synced_lget d (c / 8) Hs Hi1) in Hx. injection Hx as <-.
    exists d'. split; [done|]. split; [done|].
    split; [by apply (out_synced_lset d d' (c / 8) (f (chip d (2 + c / 8)))); [..|rewrite Hr|]|].
    split; [done|]. split.
    - apply (bit_of_store d d' Output c _ (f (chip d (2 + c / 8)))); [done|apply Hf|].
      by apply chip_ports.
    - intros r Hr4. rewrite Hch by lia. cbn. destruct (Z.eqb_spec r (2 + c / 8)); [lia|done]. }
  munfold. destruct (v =? 0); cbn in *.
  - apply (Hgen _ (fun x => with_bit_clear x _ Hb1)).
  - apply (Hgen _ (fun x => with_bit_or x _ Hb1)).
Qed.

Lemma toggle_chip d c :
  wf d -> 0 <= c < 16 ->
  exists d', toggle c d = (Ok true, d') /\ wf d' /\ kept_conv d d' /\
    (forall c', 0 <= c' < 16 ->
       bit_of d' Output c' = if c' =? c then negb (bit_of d Output c) else bit_of d Output c') /\
    forall r, 4 <= r -> chip d' r = chip d r.
Proof.
  intros Hwf Hc. destruct (channel_index c Hc) as (Hi & Hi1 & Hb & Hb1 & Hsh).
  unfold toggle, readOutputPorts, writeOutputPorts. rewrite Hi, Hb, Hsh.
  destruct (Z.leb_spec 0 c), (Z.leb_spec (c / 8) 1); try lia.
  destruct (readPorts_one d Output (c / 8) Hwf Hi1) as (d1 & H1 & Hw1 & Hs1 & Hk1 & Hr1).
  rewrite (M_bind_ok _ _ _ _ _ _ _ _ H1), (M_bind_ok _ _ _ (mret _) _ d1 (2 ^ (c mod 8)) d1) by done.
  destruct (upd_write d1 Output (c / 8) (fun x => u8 (Z.lxor x (2 ^ (c mod 8)))))
    as (x & d' & Hx & H2 & Hw & Hk & Hr & Hch); [done|done|done|intros x _; apply u8_bound|].
  rewrite Hr1, get_set_bank, lget_lset_eq in Hx by (rewrite (wf_len d Hwf); lia).
  injection Hx as <-. exists d'. split; [done|]. split; [done|].
  split; [by apply (kept_conv_trans d d1)|]. split.
  - assert (Hsame : forall c', 0 <= c' < 16 -> bit_of d1 Output c' = bit_of d Output c').
    { intros c' Hc'. unfold bit_of. rewrite Hs1; [done|]. cbn. pose proof (Z.div_pos c' 8). lia. }
    intros c' Hc'.
    rewrite (bit_of_store d1 d' Output c (negb (bit_of d Output c))
      (u8 (Z.lxor (chip d (bankReg Output + c / 8)) (2 ^ (c mod 8))))); [by rewrite Hsame|done| |by apply chip_ports|done].
    rewrite Hs1 by (cbn; lia). unfold bit_of. by apply with_bit_xor.
  - intros r Hr4. rewrite Hch by lia. cbn. destruct (Z.eqb_spec r (2 + c / 8)); [lia|]. apply Hs1. lia.
Qed.

(** The mode a channel reports. *)
Definition mode_of (inp inv : bool) : Z :=
  Z.lor (if inp then Z.lor Converter.DigitalInput Converter.PullUp else Converter.DigitalOutput)
    (if inv then Converter.ActiveLow else 0).

(** Reading both setup bytes of one port. *)
Lemma readSetup_one d i :
  wf d -> 0 <= i <= 1 ->
  exists d', readSetup i 1 d = (Ok true, d') /\ wf d' /\ same_chip d d' /\ kept_conv d d' /\
    lget (get_bank Config (regs d')) i = Some (chip d (6 + i)) /\
    lget (get_bank Polarity (regs d')) i = Some (chip d (4 + i)).
Proof.
  intros Hwf Hi. unfold readSetup, and_then, readPolarityInversion, readConfiguration.
  destruct (readPorts_one d Polarity i Hwf Hi) as (d1 & H1 & Hw1 & Hs1 & Hk1 & Hr1).
  destruct (readPorts_one d1 Config i Hw1 Hi) as (d2 & H2 & Hw2 & Hs2 & Hk2 & Hr2).
  exists d2. rewrite (M_bind_ok _ _ _ _ _ _ _ _ H1). split; [done|]. split; [done|].
  split; [intros r Hr; rewrite Hs2, Hs1 by done; done|].
  split; [by apply (kept_conv_trans d d1)|].
  rewrite Hr2, get_set_bank, (get_set_bank_ne Config Polarity), Hr1, get_set_bank by done. split.
  - rewrite lget_lset_eq, Hs1; [done|cbn; lia|rewrite get_set_bank_ne, (wf_len d Hwf) by done; lia].
  - rewrite lget_lset_eq; [done|]. rewrite (wf_len d Hwf). lia.
Qed.

Lemma land_bit_eqb x n : 0 <= n -> (Z.land x (2 ^ n) =? 0) = negb (Z.testbit x n).
Proof.
  intros Hn. destruct (Z.testbit x n) eqn:E; cbn.
  - apply Z.eqb_neq. intros H. apply (f_equal (fun z => Z.testbit z n)) in H.
    by rewrite Z.land_spec, Z.pow2_bits_true, E, Z.bits_0 in H.
  - apply Z.eqb_eq, Z.bits_inj'. intros m Hm.
    rewrite Z.land_spec, Z.pow2_bits_eqb, Z.bits_0 by done.
    destruct (Z.eqb_spec n m) as [<-|]; [by rewrite E|apply andb_false_r].
Qed.

Lemma mode_chip d c :
  wf d -> 0 <= c < 16 ->
  exists d', mode c d = (Ok (mode_of (bit_of d Config c) (bit_of d Polarity c)), d') /\ wf d' /\
    same_chip d d' /\ kept_conv d d'.
Proof.
  intros Hwf Hc. destruct (channel_index c Hc) as (Hi & Hi1 & Hb & Hb1 & Hsh).
  unfold mode. rewrite Hi, Hb, Hsh. destruct (Z.leb_spec (c / 8) 1); [|lia].
  destruct (readSetup_one d (c / 8) Hwf Hi1) as (d1 & H1 & Hw1 & Hs1 & Hk1 & Hcf & Hpl).
  exists d1. rewrite (M_bind_ok _ _ _ _ _ _ _ _ H1). munfold. unfold fetch. cbn [get_bank]. rewrite Hcf, Hpl.
  rewrite !land_bit_eqb by lia. unfold bit_of, mode_of. cbn [bankReg].
  destruct (Z.testbit (chip d (6 + c / 8)) _), (Z.testbit (chip d (4 + c / 8)) _); done.
Qed.

Lemma writeSetup_one d i cf pl :
  wf d -> 0 <= i <= 1 ->
  lget (get_bank Config (regs d)) i = Some cf -> lget (get_bank Polarity (regs d)) i = Some pl ->
  exists d', writeSetup i 1 d = (Ok true, d') /\ wf d' /\ kept d d' /\
    forall r, 2 <= r -> chip d' r = if r =? 6 + i then cf else if r =? 4 + i then pl else chip d r.
Proof.
  intros Hwf Hi Hcf Hpl. unfold writeSetup, and_then, writePolarityInversion, writeConfiguration.
  destruct (writePorts_one d Polarity i pl Hwf ltac:(done) Hi Hpl) as (d1 & H1 & Hw1 & Hk1 & Hc1).
  destruct (writePorts_one d1 Config i cf Hw1 ltac:(done) Hi) as (d2 & H2 & Hw2 & Hk2 & Hc2).
  { destruct Hk1 as [-> _]. done. }
  exists d2. rewrite (M_bind_ok _ _ _ _ _ _ _ _ H1). split; [done|]. split; [done|].
  split; [unfold kept in *; intuition congruence|].
  intros r Hr. rewrite Hc2, Hc1 by done. done.
Qed.

(** The four modes [setMode] accepts that give a direction. *)
Definition mode_in (inp inv : bool) : Z :=
  Z.lor (if inp then Converter.DigitalInput else Converter.DigitalOutput)
    (if inv then Converter.ActiveLow else 0).

(** [setMode] on one channel, with its guards resolved. *)
Definition set_bit (n : Z) (v : bool) (x : Z) : Z :=
  if v then u8 (Z.lor x (2 ^ n)) else u8 (Z.land x (Z.lnot (2 ^ n))).

Lemma set_bit_with x n v : 0 <= n < 8 -> with_bit x n v (set_bit n v x).
Proof. intros Hn. unfold set_bit. destruct v; [by apply with_bit_or|by apply with_bit_clear]. Qed.

Lemma setMode_channel c inp inv :
  0 <= c < 16 ->
  setMode (mode_in inp inv) c =
    (ok ← readSetup (c / 8) 1;
     if (ok : bool) then
       upd Config (c / 8) (set_bit (c mod 8) inp);; upd Polarity (c / 8) (set_bit (c mod 8) inv);;
       writeSetup (c / 8) 1
     else mret false).
Proof.
  intros Hc. destruct (channel_index c Hc) as (Hi & Hi1 & Hb & Hb1 & Hsh).
  unfold setMode. rewrite Hi, Hb, Hsh.
  destruct (Z.leb_spec 0 c), (Z.leb_spec (c / 8) 1); try lia. by destruct inp, inv.
Qed.

Lemma setMode_chip d c inp inv :
  wf d -> 0 <= c < 16 ->
  exists d', setMode (mode_in inp inv) c d = (Ok true, d') /\ wf d' /\ kept_conv d d' /\
    (forall c', 0 <= c' < 16 ->
       bit_of d' Config c' = (if c' =? c then inp else bit_of d Config c') /\
       bit_of d' Polarity c' = if c' =? c then inv else bit_of d Polarity c') /\
    chip d' 2 = chip d 2 /\ chip d' 3 = chip d 3.
Proof.
  intros Hwf Hc. destruct (channel_index c Hc) as (Hi & Hi1 & Hb & Hb1 & Hsh).
  set (fc := set_bit (c mod 8) inp). set (fp := set_bit (c mod 8) inv).
  assert (Hfc : forall x, with_bit x (c mod 8) inp (fc x)) by (intros x; by apply set_bit_with).
  assert (Hfp : forall x, with_bit x (c mod 8) inv (fp x)) by (intros x; by apply set_bit_with).
  destruct (readSetup_one d (c / 8) Hwf Hi1) as (d1 & H1 & Hw1 & Hs1 & Hk1 & Hcf & Hpl).
  rewrite (setMode_channel c inp inv Hc). fold fc fp. rewrite (M_bind_ok _ _ _ _ _ _ _ _ H1).
  destruct (upd_ok d1 Config (c / 8) fc Hw1 Hi1) as (x & Hx & _ & H2 & Hw2); [intros x _; apply Hfc|].
  rewrite Hcf in Hx. injection Hx as <-. rewrite (M_bind_ok _ _ _ _ _ _ _ _ H2).
  set (d2 := set_regs _ d1) in *.
  destruct (upd_ok d2 Polarity (c / 8) fp Hw2 Hi1) as (x & Hx & _ & H3 & Hw3); [intros x _; apply Hfp|].
  assert (Hpl2 : get_bank Polarity (regs d2) = get_bank Polarity (regs d1)) by done.
  rewrite Hpl2, Hpl in Hx. injection Hx as <-. rewrite (M_bind_ok _ _ _ _ _ _ _ _ H3).
  set (d3 := set_regs _ d2) in *.
  destruct (writeSetup_one d3 (c / 8) (fc (chip d (6 + c / 8))) (fp (chip d (4 + c / 8))) Hw3 Hi1)
    as (d4 & H4 & Hw4 & (_ & Hk4) & Hc4).
  { subst d3 d2. cbn [regs set_regs]. rewrite get_set_bank_ne, get_set_bank by done.
    apply lget_lset_eq. rewrite (wf_len d1 Hw1). lia. }
  { subst d3. cbn [regs set_regs]. rewrite get_set_bank. apply lget_lset_eq.
    rewrite (wf_len d2 Hw2). lia. }
  change (chip d3) with (chip d1) in Hc4.
  exists d4. split; [done|]. split; [done|]. split; [by apply (kept_conv_trans d d1)|]. split.
  - intros c' Hc'. split.
    + apply (bit_of_store d d4 Config c inp (fc (chip d (6 + c / 8)))); [done|apply Hfc| |done].
      intros j Hj. rewrite Hc4, Hs1 by (cbn; lia). cbn. case_bool; lia || done.
    + apply (bit_of_store d d4 Polarity c inv (fp (chip d (4 + c / 8)))); [done|apply Hfp| |done].
      intros j Hj. rewrite Hc4, Hs1 by (cbn; lia). cbn. case_bool; lia || done.
  - rewrite !Hc4, !Hs1 by lia. case_bool; lia || done.
Qed.

(** ** Opening *)
Lemma readTimeout_chip d :
  wf d -> exists d', readTimeout d = (Ok true, d') /\ wf d' /\ same_chip d d' /\ kept_conv d d' /\
    regs d' = set_timeout (chip d 8) (regs d).
Proof.
  intros Hwf. destruct (readRegister_chip d 8 1 Hwf) as (d1 & H1 & [] & (Hr1 & Hk1) & Hc1);
    [left; lia|].
  unfold readTimeout. rewrite (M_bind_ok _ _ _ _ _ _ _ _ H1), seqZ_1. munfold.
  eexists. split; [reflexivity|]. split; [|split; [exact Hc1|split; [exact Hk1|by rewrite Hr1]]].
  by constructor.
Qed.

Lemma readAll_chip d :
  wf d -> exists d', readAllRegisters d = (Ok true, d') /\ wf d' /\ same_chip d d' /\ kept_conv d d' /\
    out_synced d' /\ polarity (regs d') = [chip d 4; chip d 5] /\ config (regs d') = [chip d 6; chip d 7].
Proof.
  intros Hwf. unfold readAllRegisters, and_then.
  destruct (readPorts_two d Input Hwf) as (d1 & H1 & Hw1 & Hs1 & Hk1 & Hr1).
  destruct (readPorts_two d1 Output Hw1) as (d2 & H2 & Hw2 & Hs2 & Hk2 & Hr2).
  destruct (readPorts_two d2 Polarity Hw2) as (d3 & H3 & Hw3 & Hs3 & Hk3 & Hr3).
  destruct (readPorts_two d3 Config Hw3) as (d4 & H4 & Hw4 & Hs4 & Hk4 & Hr4).
  destruct (readTimeout_chip d4 Hw4) as (d5 & H5 & Hw5 & Hs5 & Hk5 & Hr5).
  exists d5. rewrite (M_bind_ok _ _ _ _ _ _ _ _ H1), (M_bind_ok _ _ _ _ _ _ _ _ H2),
    (M_bind_ok _ _ _ _ _ _ _ _ H3), (M_bind_ok _ _ _ _ _ _ _ _ H4).
  split; [done|]. split; [done|].
  split; [intros r Hr; by rewrite Hs5, Hs4, Hs3, Hs2, Hs1 by done|].
  split; [eauto 6 using kept_conv_trans|].
  unfold out_synced. rewrite Hr5, Hr4, Hr3, Hr2, Hr1. cbn.
  rewrite ?Hs5, ?Hs4, ?Hs3, ?Hs2, ?Hs1 by lia. done.
Qed.

(** Writing back the setup that was just read changes nothing. *)
Lemma writeSetup_two d :
  wf d -> polarity (regs d) = [chip d 4; chip d 5] -> config (regs d) = [chip d 6; chip d 7] ->
  exists d', writeSetup 0 2 d = (Ok true, d') /\ wf d' /\ kept d d' /\ same_chip d d'.
Proof.
  intros Hwf Hp Hc. unfold writeSetup, and_then, writePolarityInversion, writeConfiguration.
  destruct (writePorts_two d Polarity _ _ Hwf ltac:(done) Hp) as (d1 & H1 & Hw1 & Hk1 & Hc1).
  destruct (writePorts_two d1 Config (chip d 6) (chip d 7) Hw1 ltac:(done)) as (d2 & H2 & Hw2 & Hk2 & Hc2).
  { destruct Hk1 as [-> _]. done. }
  exists d2. rewrite (M_bind_ok _ _ _ _ _ _ _ _ H1). split; [done|]. split; [done|].
  split; [unfold kept in *; intuition congruence|].
  intros r Hr. rewrite Hc2, Hc1 by done. cbn. case_bool; subst; done.
Qed.

Lemma open_chip d mode w1 :
  wf (set_i2c w1 d) -> I2cDev.open mode (i2c d) = (Ok true, w1) ->
  exists d', open mode d = (Ok true, d') /\ wf d' /\ out_synced d' /\ isConnected d' = true /\
    IoDevice.openMode (conv d') = mode /\ timeout (regs d') = (if busTimeout d then 1 else 0) /\
    forall r, 2 <= r -> chip d' r = chip_reg (I2cDev.kernel w1) r.
Proof.
  intros Hwf Ho. unfold open. rewrite (max7311_on_i2c_bind _ _ _ _ _ Ho).
  destruct (readAll_chip _ Hwf) as (d1 & H1 & Hw1 & Hs1 & (Hcv & Hbt & _) & Hos & Hp & Hc).
  rewrite (M_bind_ok _ _ _ _ _ _ _ _ H1).
  set (f := fun e => set_regs (set_timeout (if busTimeout e then 1 else 0) (regs e)) e).
  rewrite (M_bind_ok _ _ _ (modify f) _ d1 tt (f d1)) by done.
  assert (Hwf1 : wf (f d1)).
  { destruct Hw1. by constructor. }
  destruct (writeSetup_two (f d1) Hwf1) as (d2 & H2 & [] & (Hr2 & Hcv2 & _) & Hs2).
  { change (chip (f d1)) with (chip d1). rewrite !Hs1 by lia. exact Hp. }
  { change (chip (f d1)) with (chip d1). rewrite !Hs1 by lia. exact Hc. }
  rewrite (M_bind_ok _ _ _ _ _ _ _ _ H2). munfold. unfold conv_open. cbn.
  eexists. split; [reflexivity|].
  assert (Hsame : forall r, 2 <= r -> chip d2 r = chip_reg (I2cDev.kernel w1) r).
  { intros r Hr. rewrite Hs2 by done. change (chip (f d1) r) with (chip d1 r). by rewrite Hs1. }
  split; [by constructor|]. split.
  - unfold out_synced in *. cbn. rewrite Hr2. cbn. rewrite Hos.
    change (chip (set_conv _ _)) with (chip d2). rewrite !Hsame, !Hs1 by lia. done.
  - cbn. split; [done|]. split; [done|]. rewrite Hr2. cbn. rewrite Hbt. split; [done|]. exact Hsame.
Qed.

(** ** Whole ports *)
Lemma testbit_byte x i : 0 <= i < 8 -> Z.testbit (Z.land x 0xFF) i = Z.testbit x i.
Proof.
  intros Hi. change 0xFF with (Z.ones 8). rewrite Z.land_spec, Z.testbit_ones_nonneg by lia.
  destruct (Z.ltb_spec i 8); [|lia]. apply andb_true_r.
Qed.

Lemma byte_land x : byte (Z.land x 0xFF).
Proof. change 0xFF with (Z.ones 8). rewrite Z.land_ones by lia. apply Z.mod_pos_bound. lia. Qed.

Lemma write_chip d v :
  wf d -> exists d', write v d = (Ok true, d') /\ wf d' /\ out_synced d' /\ kept_conv d d' /\
    (forall c, 0 <= c < 16 -> bit_of d' Output c = Z.testbit v c) /\
    forall r, 4 <= r -> chip d' r = chip d r.
Proof.
  intros Hwf. unfold write, writeOutputPorts.
  destruct (upd_ok d Output 1 (fun _ => Z.land (Z.shiftr v 8) 0xFF) Hwf) as (x & _ & _ & H1 & Hw1);
    [lia|intros; apply byte_land|].
  rewrite (M_bind_ok _ _ _ _ _ _ _ _ H1). set (d1 := set_regs _ d) in *.
  destruct (upd_ok d1 Output 0 (fun _ => Z.land v 0xFF) Hw1) as (y & _ & _ & H2 & Hw2);
    [lia|intros; apply byte_land|].
  rewrite (M_bind_ok _ _ _ _ _ _ _ _ H2). set (d2 := set_regs _ d1) in *.
  destruct (writePorts_two d2 Output (Z.land v 0xFF) (Z.land (Z.shiftr v 8) 0xFF) Hw2 ltac:(done))
    as (d3 & H3 & Hw3 & (Hr3 & Hk3) & Hc3).
  { destruct (two_bytes d Output Hwf) as (a0 & b0 & Hab & _). subst d2 d1. cbn in *. by rewrite Hab. }
  exists d3. split; [done|]. split; [done|]. split; [|split; [exact Hk3|split]].
  - unfold out_synced. rewrite Hr3, !Hc3 by lia. cbn.
    destruct (two_bytes d Output Hwf) as (a0 & b0 & Hab & _). cbn in *. by rewrite Hab.
  - intros c Hc. unfold bit_of. pose proof (Z.mod_pos_bound c 8). pose proof (Z.div_mod c 8).
    rewrite Hc3 by (cbn; lia). assert (c / 8 = 0 \/ c / 8 = 1) as [E|E] by lia; rewrite E.
    + change (bankReg Output + 0 =? bankReg Output) with true. cbv iota.
      rewrite testbit_byte by lia. f_equal. lia.
    + change (bankReg Output + 1 =? bankReg Output) with false. rewrite Z.eqb_refl. cbv iota.
      rewrite testbit_byte, Z.shiftr_spec by lia. f_equal. lia.
  - intros r Hr. rewrite Hc3 by lia. cbn. case_bool; lia || done.
Qed.

Lemma read_chip d :
  wf d -> exists x d', read d = (Ok x, d') /\ wf d' /\ same_chip d d' /\ kept_conv d d' /\
    0 <= x < 2 ^ 16 /\ forall c, 0 <= c < 16 -> Z.testbit x c = bit_of d Input c.
Proof.
  intros Hwf. unfold read, readInputPorts.
  destruct (readPorts_two d Input Hwf) as (d1 & H1 & Hw1 & Hs1 & Hk1 & Hr1).
  assert (Hb := chip_byte (I2cDev.kernel (i2c d))). unfold byte in Hb.
  set (l := chip d 0). set (h := chip d 1).
  rewrite (M_bind_ok _ _ _ _ _ _ _ _ H1), (M_bind_ok _ _ _ (fetch Input 1) _ d1 h d1),
    (M_bind_ok _ _ _ (fetch Input 0) _ d1 l d1) by (unfold fetch; by rewrite Hr1).
  assert (Hl : 0 <= l < 2 ^ 8) by apply Hb. assert (Hh : 0 <= h < 2 ^ 8) by apply Hb.
  exists (Z.lor (Z.shiftl h 8) l), d1. split; [done|]. do 3 (split; [done|]).
  assert (0 <= Z.lor (Z.shiftl h 8) l) by (apply Z.lor_nonneg; rewrite Z.shiftl_nonneg; lia).
  split; [split; [done|]|].
  - apply bits_bound; [lia|done|]. intros n Hn.
    by rewrite Z.lor_spec, Z.shiftl_spec, (testbit_high h 8), (testbit_high l 8) by lia.
  - intros c Hc. unfold bit_of. pose proof (Z.mod_pos_bound c 8). pose proof (Z.div_mod c 8).
    rewrite Z.lor_spec, Z.shiftl_spec by lia. assert (c / 8 = 0 \/ c / 8 = 1) as [E|E] by lia; rewrite E.
    + rewrite (Z.testbit_neg_r h) by lia. cbn. fold l. f_equal. lia.
    + rewrite (testbit_high l 8) by lia. rewrite orb_false_r. cbn. fold h. f_equal. lia.
Qed.

End Chip.

(** ** A chip to instantiate the interface: a register file at every address *)
Definition chip_kernel : Kernel := {|
  kst := Z -> Z;
  k_rdwr ms k :=
    match ms with
    | [KWrite _ (reg :: bs)] => (inr [], fun r => default (k r) (lget bs (r - reg)))
    | [KWrite _ [reg]; KRead _ n] =>
        if 0 <=? n then (inr [(fun r => u8 (k r)) <$> seqZ reg n], k) else (inl 22, k)
    | _ => (inl 121, k)
    end;
  k_open _ _ k := (inr 3, k);
  k_close _ k := (None, k);
  k_funcs _ k := (inr 1, k) |}.

#[export] Instance chip_kernel_ok : KernelOk chip_kernel.
Proof.
  constructor; intros ms k x k'; cbn.
  - destruct ms as [|[a [|reg [|]]|] [|[|a' n] [|]]]; intros H; inversion H; try done.
    destruct (0 <=? n); by inversion H.
  - destruct ms as [|[a [|reg [|]]|] [|[|a' n] [|]]]; intros H; inversion H; try done.
    destruct (Z.leb_spec 0 n); inversion H; subst. cbn. rewrite length_fmap, length_seqZ. f_equal. lia.
Qed.

#[export] Instance chip_kernel_chip a : Max7311Chip chip_kernel a.
Proof.
  refine {| chip_reg (k : @kst chip_kernel) r := u8 (k r) |}.
  - intros k r. apply u8_bound.
  - intros k reg bs Hreg Hs Hb. eexists. split; [by destruct bs|]. intros r Hr. cbn.
    destruct (lget bs (r - reg)) as [b|] eqn:E; [|done]. cbn. apply u8_small.
    unfold lget in E. destruct (r - reg <? 0); [done|].
    eapply (proj1 (Forall_lookup _ _) Hb), E.
  - intros k reg n Hs. exists k. split; [|done]. cbn.
    destruct (Z.leb_spec 0 n); [done|]. unfold span in Hs. lia.
Defined.

(** A driver on that chip at address 32, just opened, its pins all inputs. *)
Definition demo_new : @max7311 chip_kernel :=
  new (@I2cDev.new chip_kernel (replicate 32 0) (replicate 32 0) 0
         (fun r => if r <=? 3 then 255 else if r <=? 5 then 0 else if r <=? 7 then 255 else 1)) 32.
Definition demo_dev : @max7311 chip_kernel := (open IoDevice.ReadWrite demo_new).2.

Lemma demo_closed : I2cDev.closed (i2c demo_new).
Proof. constructor; try done; constructor; vm_compute; done. Qed.

Definition demo_bus : @I2cDev.world chip_kernel := (I2cDev.open IoDevice.ReadWrite (i2c demo_new)).2.

Lemma demo_bus_open : I2cDev.open IoDevice.ReadWrite (i2c demo_new) = (Ok true, demo_bus).
Proof. done. Qed.

Lemma fresh_wf {K : Kernel} (a : Z) (d : max7311) (w : I2cDev.world) :
  I2cDev.queued w None -> addr d = a -> regs d = no_regs -> @wf K a (set_i2c w d).
Proof.
  intros Hq Ha Hr. constructor; cbn; try done; intros b; rewrite Hr; destruct b; cbn; try done;
    repeat constructor; done.
Qed.

Lemma demo_opened : @wf chip_kernel 32 demo_dev /\ @out_synced chip_kernel 32 _ demo_dev.
Proof.
  destruct (open_chip (a := 32) demo_new IoDevice.ReadWrite demo_bus) as (d' & H1 & H2 & H3 & _).
  - destruct (I2cDev.open_ready (i2c demo_new) IoDevice.ReadWrite demo_closed ltac:(done))
      as (b & w & Hw & Hb & H). rewrite demo_bus_open in Hw. injection Hw as <- <-.
    destruct H as [H _]. by apply fresh_wf.
  - apply demo_bus_open.
  - unfold demo_dev. rewrite H1. split; assumption.
Qed.

(** Opening the expander on an idle bus reads its registers into the
    cache and disturbs nothing: the output, polarity and direction registers
    keep their values and the cached outputs agree with the chip.  Nothing is
    written to the timeout register either, whatever the [bustimeout]
    parameter asked for. *)
Theorem max7311_open_syncs {K : Kernel} {KOK : KernelOk K} {a : Z} {C : Max7311Chip K a}
    (d : max7311) (mode : Z) (w1 : I2cDev.world) :
  I2cDev.closed (i2c d) -> mode <> IoDevice.NotOpen -> addr d = a -> regs d = no_regs ->
  I2cDev.open mode (i2c d) = (Ok true, w1) ->
  exists d', open mode d = (Ok true, d') /\ wf (a := a) d' /\ out_synced d' /\
    IoDevice.openMode (conv d') = mode /\ timeout (regs d') = (if busTimeout d then 1 else 0) /\
    forall r, 2 <= r -> chip d' r = chip_reg (I2cDev.kernel w1) r.
Proof.
  intros Hc Hm Ha Hr Ho.
  destruct (I2cDev.open_ready (i2c d) mode Hc Hm) as (b & w & Hw & Hb & H).
  rewrite Ho in Hw. injection Hw as <- <-. destruct H as [Hready _].
  destruct (open_chip d mode w1) as (d' & H1 & H2 & H3 & _ & H4); [by apply fresh_wf|done|].
  by exists d'.
Qed.

Lemma max7311_open_syncs_witness :
  exists d', open IoDevice.ReadWrite demo_new = (Ok true, d') /\ wf (a := 32) d' /\ out_synced (a := 32) d' /\
    IoDevice.openMode (conv d') = IoDevice.ReadWrite /\ timeout (regs d') = 1 /\
    forall r, 2 <= r -> chip (a := 32) d' r = chip_reg (a := 32) (I2cDev.kernel demo_bus) r.
Proof.
  exact (max7311_open_syncs (a := 32) demo_new IoDevice.ReadWrite demo_bus
    demo_closed ltac:(done) eq_refl eq_refl demo_bus_open).
Defined.

(** Writing a channel drives exactly that output: with the cached outputs
    in step with the chip, [writeChannel] sets the channel's output bit to
    whether the value is nonzero, leaves the other fifteen and all direction,
    polarity and timeout registers as they were, and the cache stays in step. *)
Theorem max7311_writeChannel_exact {K : Kernel} {KOK : KernelOk K} {a : Z} {C : Max7311Chip K a}
    (d : max7311) (v c : Z) (df : bool) :
  wf (a := a) d -> out_synced d -> 0 <= c < 16 ->
  exists d', writeChannel v c df d = (Ok true, d') /\ wf (a := a) d' /\ out_synced d' /\
    (forall c', 0 <= c' < 16 -> bit_of d' Output c' = if c' =? c then negb (v =? 0) else bit_of d Output c') /\
    forall r, 4 <= r -> chip d' r = chip d r.
Proof.
  intros Hwf Hs Hc. destruct (max7311_writeChannel_chip d v c df Hwf Hs Hc) as (d' & H1 & H2 & H3 & _ & H4).
  by exists d'.
Qed.

Lemma max7311_writeChannel_exact_witness :
  exists d', writeChannel 0 9 false demo_dev = (Ok true, d') /\ wf (a := 32) d' /\ out_synced (a := 32) d' /\
    (forall c', 0 <= c' < 16 -> bit_of (a := 32) d' Output c' = if c' =? 9 then false else bit_of (a := 32) demo_dev Output c') /\
    forall r, 4 <= r -> chip (a := 32) d' r = chip (a := 32) demo_dev r.
Proof.
  destruct demo_opened as [Hwf Hs].
  apply (max7311_writeChannel_exact (a := 32) demo_dev 0 9 false Hwf Hs). lia.
Defined.

(** Reading and writing all sixteen lines at once: [write] drives output
    [c] with bit [c] of the value, and [read] returns a 16-bit value whose bit
    [c] is the level of input [c]. *)
Theorem max7311_ports_exact {K : Kernel} {KOK : KernelOk K} {a : Z} {C : Max7311Chip K a}
    (d : max7311) (v : Z) :
  wf (a := a) d ->
  (exists d', write v d = (Ok true, d') /\ wf (a := a) d' /\ out_synced d' /\
     (forall c, 0 <= c < 16 -> bit_of d' Output c = Z.testbit v c) /\
     forall r, 4 <= r -> chip d' r = chip d r) /\
  (exists x d', read d = (Ok x, d') /\ wf (a := a) d' /\ same_chip d d' /\
     0 <= x < 2 ^ 16 /\ forall c, 0 <= c < 16 -> Z.testbit x c = bit_of d Input c).
Proof.
  intros Hwf. split.
  - destruct (write_chip d v Hwf) as (d' & ? & ? & ? & _ & ?). by exists d'.
  - destruct (read_chip d Hwf) as (x & d' & ? & ? & ? & _ & ?). by exists x, d'.
Qed.

Lemma max7311_ports_exact_witness :
  exists d', write 0xA50F demo_dev = (Ok true, d') /\
    forall c, 0 <= c < 16 -> bit_of (a := 32) d' Output c = Z.testbit 0xA50F c.
Proof.
  destruct demo_opened as [Hwf _].
  destruct (max7311_ports_exact (a := 32) demo_dev 0xA50F Hwf) as [(d' & H1 & _ & _ & H2 & _) _].
  exists d'. split; assumption.
Defined.

(** Toggling a channel inverts exactly that output, whether or not the
    cache was in step with the chip, and doing it twice restores all outputs. *)
Theorem max7311_toggle_involutive {K : Kernel} {KOK : KernelOk K} {a : Z} {C : Max7311Chip K a}
    (d : max7311) (c : Z) :
  wf (a := a) d -> 0 <= c < 16 ->
  exists d1 d2, toggle c d = (Ok true, d1) /\ toggle c d1 = (Ok true, d2) /\ wf (a := a) d2 /\
    (forall c', 0 <= c' < 16 ->
       bit_of d1 Output c' = (if c' =? c then negb (bit_of d Output c) else bit_of d Output c') /\
       bit_of d2 Output c' = bit_of d Output c').
Proof.
  intros Hwf Hc. destruct (toggle_chip d c Hwf Hc) as (d1 & H1 & Hw1 & _ & Hb1 & _).
  destruct (toggle_chip d1 c Hw1 Hc) as (d2 & H2 & Hw2 & _ & Hb2 & _).
  exists d1, d2. do 3 (split; [done|]). intros c' Hc'. split; [by apply Hb1|].
  rewrite Hb2, !Hb1, Z.eqb_refl by done.
  destruct (Z.eqb_spec c' c) as [->|]; [apply negb_involutive|done].
Qed.

Lemma max7311_toggle_involutive_witness :
  exists d1 d2, toggle 3 demo_dev = (Ok true, d1) /\ toggle 3 d1 = (Ok true, d2) /\ wf (a := 32) d2 /\
    (forall c', 0 <= c' < 16 ->
       bit_of (a := 32) d1 Output c' =
         (if c' =? 3 then negb (bit_of (a := 32) demo_dev Output 3) else bit_of (a := 32) demo_dev Output c') /\
       bit_of (a := 32) d2 Output c' = bit_of (a := 32) demo_dev Output c').
Proof.
  destruct demo_opened as [Hwf _].
  apply (max7311_toggle_involutive (a := 32) demo_dev 3 Hwf). lia.
Defined.

(** Setting a channel's mode is read back: after [setMode] with a direction
    and a polarity, [mode] reports them (an input also reports its pull-up),
    the other channels report what they did before, and the outputs are not
    disturbed. *)
Theorem max7311_setMode_mode {K : Kernel} {KOK : KernelOk K} {a : Z} {C : Max7311Chip K a}
    (d : max7311) (c c' : Z) (inp inv : bool) :
  wf (a := a) d -> 0 <= c < 16 -> 0 <= c' < 16 ->
  exists d1 d2 d3 m0, setMode (mode_in inp inv) c d = (Ok true, d1) /\
    mode c' d = (Ok m0, d2) /\
    mode c' d1 = (Ok (if c' =? c then Z.lor (mode_in inp inv) (if inp then Converter.PullUp else 0) else m0), d3) /\
    chip d1 2 = chip d 2 /\ chip d1 3 = chip d 3.
Proof.
  intros Hwf Hc Hc'. destruct (setMode_chip d c inp inv Hwf Hc) as (d1 & H1 & Hw1 & _ & Hb & Ho).
  destruct (mode_chip d c' Hwf Hc') as (d2 & H2 & _).
  destruct (mode_chip d1 c' Hw1 Hc') as (d3 & H3 & _).
  exists d1, d2, d3. eexists. split; [done|]. split; [done|]. split; [|done].
  rewrite H3. destruct (Hb c' Hc') as [-> ->].
  destruct (c' =? c); [by destruct inp, inv|done].
Qed.

Lemma max7311_setMode_mode_witness :
  exists d1 d2 d3 m0, setMode (mode_in true true) 12 demo_dev = (Ok true, d1) /\
    mode 12 demo_dev = (Ok m0, d2) /\ mode 12 d1 = (Ok 0x51, d3) /\
    chip (a := 32) d1 2 = chip (a := 32) demo_dev 2 /\ chip (a := 32) d1 3 = chip (a := 32) demo_dev 3.
Proof.
  destruct demo_opened as [Hwf _].
  apply (max7311_setMode_mode (a := 32) demo_dev 12 12 true true Hwf); lia.
Defined.

(** Changing flags of an input channel is refused: [mode] reports the
    pull-up of an input and [setMode] rejects it, so a [setModeFlags] whose mask
    leaves the pull-up bit alone returns false and changes nothing. *)
Theorem max7311_input_flags_rejected {K : Kernel} {KOK : KernelOk K} {a : Z} {C : Max7311Chip K a}
    (d : max7311) (c flags mask : Z) :
  wf (a := a) d -> 0 <= c < 16 -> bit_of d Config c = true -> Z.testbit mask 4 = false ->
  exists d', Converter.setModeFlags flags mask c d = (Ok false, d') /\ same_chip d d'.
Proof.
  intros Hwf Hc Hin Hm. destruct (mode_chip d c Hwf Hc) as (d1 & H1 & _ & Hs & _).
  exists d1. split; [|done]. unfold Converter.setModeFlags, Converter.mode_update.
  destruct (Z.eqb_spec c (-1)); [lia|].
  rewrite (proj2 (Z.leb_le 0 c)), (proj2 (Z.ltb_lt c _)) by (cbn; lia). cbn [andb].
  cbn [Converter.v_mode max7311_impl]. rewrite (M_bind_ok _ _ _ _ _ _ _ _ H1).
  cbn [Converter.v_setMode max7311_impl]. unfold setMode.
  match goal with |- context [test ?x ?y] => assert (test x y = true) as -> end; [|done].
  unfold test, to_bool. apply negb_true_iff, Z.eqb_neq. intros H0.
  apply (f_equal (fun z => Z.testbit z 4)) in H0. revert H0.
  rewrite Hin, Z.land_spec, Z.lor_spec, !Z.land_spec, !Z.lnot_spec, Hm, Z.bits_0 by lia.
  by destruct (bit_of d Polarity c).
Qed.

Lemma max7311_input_flags_rejected_witness :
  exists d', Converter.setModeFlags Converter.ActiveLow Converter.ActiveLow 5 demo_dev = (Ok false, d') /\
    same_chip (a := 32) demo_dev d'.
Proof.
  destruct demo_opened as [Hwf _].
  apply (max7311_input_flags_rejected (a := 32) demo_dev 5 _ _ Hwf); [lia|by vm_compute|done].
Defined.

(** The default channel of the public [writeChannel], -1, documented as all
    channels, shifts by 255 on the expander: undefined behaviour, for every
    state and value. *)
Theorem max7311_writeChannel_default_undefined {K : Kernel} (d : max7311) (v : Z) :
  IoDevice.isWritable (conv d) = true ->
  Converter.writeChannel v (-1) false d = (Throw UB, d).
Proof.
  intros H. unfold Converter.writeChannel. cbn [Converter.c_dev max7311_impl].
  unfold IoDevice.isWritable in H. by rewrite H.
Qed.

Lemma max7311_writeChannel_default_undefined_witness :
  Converter.writeChannel 1 (-1) false demo_dev = (Throw UB, demo_dev).
Proof. apply (max7311_writeChannel_default_undefined demo_dev 1). by vm_compute. Defined.

(** The registered parameter list offers hexadecimal addresses, but they
    are parsed in base 10 up to the first non-digit: [addr=0x20] selects the
    general-call address 0, while [addr=32] selects 0x20. *)
Lemma max7311_hex_address_is_zero {K : Kernel} (w : I2cDev.world) :
  (exists d, new_params w (Params.str_of "addr=0x20") = Ok d /\ addr d = 0) /\
  (exists d, new_params w (Params.str_of "addr=32") = Ok d /\ addr d = 0x20).
Proof. split; eexists; (split; [reflexivity|reflexivity]). Qed.

End Max7311.
