(* ===== verification/Max1161x.v ===== *)
(** * The MAX11612-MAX11617 converters, src/ext/max1161x.cpp and max1161x_p.h

    [max1161x] is [Max1161x::Private].  The chip is the interface
    [Max1161xChip]: a setup and a configuration register told apart by bit 7 of
    the byte written, and a 12-bit conversion of the configured input that is
    read as two bytes. *)
From S2P Require Import Prelude IoDevice Fifo I2cDev Converter.
Import Flags.

Module Max1161x.

Definition REG : Z := 0x80.
Definition SEL2 : Z := 0x40.
Definition SEL1 : Z := 0x20.
Definition SEL0 : Z := 0x10.
Definition CLK : Z := 0x08.
Definition BIP_UNI : Z := 0x04.
Definition RST : Z := 0x02.
Definition RefVdd : Z := 0.
Definition RefExt : Z := SEL1.
Definition RefInt1 : Z := SEL2.
Definition RefInt2 : Z := Z.lor SEL2 SEL0.
Definition RefInt3 : Z := Z.lor SEL2 SEL1.
Definition RefInt4 : Z := Z.lor (Z.lor SEL2 SEL1) SEL0.
Definition RefInt : Z := RefInt4.
Definition ScanOff : Z := 0x60.
Definition ScanMask : Z := 0x60.
Definition ChannelMask : Z := 0x1E.
Definition SGL : Z := 0x01.

(** The configuration byte; [channel] is a [uint8_t]. *)
Definition config (channel : Z) (differential : bool) (scan : Z) : Z :=
  u8 (Z.lor (Z.lor (Z.land scan ScanMask) (Z.land (Z.shiftl channel 1) ChannelMask))
        (if differential then 0 else SGL)).

Definition DefaultReference : Z := 0.
Definition InternalReference : Z := 1.
Definition VddReference : Z := 2.
Definition ExternalReference : Z := 3.
Definition Internal1Reference : Z := 4.
Definition Internal2Reference : Z := 5.
Definition Internal3Reference : Z := 6.
Definition Internal4Reference : Z := 7.
Definition InternalClock : Z := 1.
Definition ExternalClock : Z := 2.

Record info : Type := mk_info {
  id : Z; i_addr : Z; nchan : Z; intref : double; i_fsr : double; busId : Z }.

Definition maxInfoMap : list (Z * info) :=
  [(12, mk_info 12 0x34 4 (dbl_lit 4096 1000) (dbl_lit 5 1) 0);
   (13, mk_info 13 0x34 4 (dbl_lit 2048 1000) (dbl_lit 33 10) 0);
   (14, mk_info 14 0x33 8 (dbl_lit 4096 1000) (dbl_lit 5 1) 0);
   (15, mk_info 15 0x33 8 (dbl_lit 2048 1000) (dbl_lit 33 10) 0);
   (16, mk_info 16 0x35 12 (dbl_lit 4096 1000) (dbl_lit 5 1) 0);
   (17, mk_info 17 0x35 12 (dbl_lit 2048 1000) (dbl_lit 33 10) 0)].

Definition find_info (i : Z) : option info := (list_to_map maxInfoMap : gmap Z info) !! i.

(** [Info::setId] on an [Info] with bus [bid]: an unknown model is a MAX11615. *)
Definition setId (bid i : Z) : info :=
  let found := match find_info i with Some x => Some x | None => find_info 15 end in
  match found with
  | Some x => mk_info (id x) (i_addr x) (nchan x) (intref x) (i_fsr x) bid
  | None => mk_info i 0 0 (dbl_int 0) (dbl_int 0) bid
  end.

Definition referenceMap : list (Z * Z) :=
  [(DefaultReference, RefVdd); (InternalReference, RefInt); (VddReference, RefVdd);
   (ExternalReference, RefExt); (Internal1Reference, RefInt1); (Internal2Reference, RefInt2);
   (Internal3Reference, RefInt3); (Internal4Reference, RefInt4)].

Section Driver.
Context {K : Kernel}.

Record max1161x : Type := mk_max1161x {
  conv : IoDevice.iodevice;
  i2c : I2cDev.world;
  max : info;
  referenceId : Z;
  fsr : double;
  bipolar : bool;
  isConnected : bool;
  clkSetting : Z }.

Definition set_conv (c : IoDevice.iodevice) (d : max1161x) : max1161x :=
  mk_max1161x c (i2c d) (max d) (referenceId d) (fsr d) (bipolar d) (isConnected d) (clkSetting d).
Definition set_i2c (w : I2cDev.world) (d : max1161x) : max1161x :=
  mk_max1161x (conv d) w (max d) (referenceId d) (fsr d) (bipolar d) (isConnected d) (clkSetting d).
Definition set_ref (r : Z) (f : double) (d : max1161x) : max1161x :=
  mk_max1161x (conv d) (i2c d) (max d) r f (bipolar d) (isConnected d) (clkSetting d).
Definition set_bipolar (b : bool) (d : max1161x) : max1161x :=
  mk_max1161x (conv d) (i2c d) (max d) (referenceId d) (fsr d) b (isConnected d) (clkSetting d).
Definition set_connected (b : bool) (d : max1161x) : max1161x :=
  mk_max1161x (conv d) (i2c d) (max d) (referenceId d) (fsr d) (bipolar d) b (clkSetting d).
Definition set_clk (c : Z) (d : max1161x) : max1161x :=
  mk_max1161x (conv d) (i2c d) (max d) (referenceId d) (fsr d) (bipolar d) (isConnected d) c.

Definition on_i2c {A} : M I2cDev.world A -> M max1161x A := zoom i2c set_i2c.

Lemma max1161x_on_i2c_bind {A B} (m : M I2cDev.world A) (k : A -> M max1161x B) d x w :
  m (i2c d) = (Ok x, w) -> (on_i2c m ≫= k) d = k x (set_i2c w d).
Proof. intros H. apply M_bind_ok. unfold on_i2c. by apply zoom_eq. Qed.

(** [if (i2c->error()) setError (); else setError (code);] *)
Definition bus_error (code : Z) (d : max1161x) : max1161x :=
  let e := IoDevice.error (I2cDev.dev (I2cDev.i2c (i2c d))) in
  set_conv (if negb (e =? 0) then IoDevice.setError_errno (I2cDev.errno (i2c d)) (conv d)
            else IoDevice.setError_code code (conv d)) d.

Definition sendByte (data : Z) : M max1161x bool := fun d =>
  (ok ← on_i2c (I2cDev.beginTransmission (i_addr (max d));; I2cDev.write data;;
                I2cDev.endTransmission true);
   if (ok : bool) then modify (set_connected true);; mret true
   else modify (fun d => set_connected false (bus_error IoDevice.EIO d));; mret false) d.

(** The conversion, or [None] when the function returns false. *)
Definition getLastConversion : M max1161x (option Z) := fun d =>
  (n ← on_i2c (I2cDev.requestFrom (i_addr (max d)) 2 true);
   if n =? 2 then
     b1 ← on_i2c I2cDev.read;
     b2 ← on_i2c I2cDev.read;
     modify (set_connected true);;
     mret (Some (Z.lor (Z.shiftl (Z.land b1 0x0F) 8) b2))
   else modify (fun d => set_connected false (bus_error IoDevice.EIO d));; mret None) d.

Definition setupByte (d : max1161x) : Z :=
  let s := Z.lor REG RST in
  let s := match (list_to_map referenceMap : gmap Z Z) !! referenceId d with
           | Some r => Z.lor s r | None => s end in
  let s := if bipolar d then Z.lor s BIP_UNI else s in
  if clkSetting d =? ExternalClock then Z.lor s CLK else s.

Definition updateSetup : M max1161x bool := fun d => sendByte (setupByte d) d.

Definition MASK_12 : Z := 0xFFF.
Definition SIGN_BIT_12 : Z := Z.shiftl 1 11.

Definition readChannel (channel : Z) (differential : bool) : M max1161x Z := fun d =>
  if (0 <=? channel) && (channel <? nchan (max d)) then
    (ok ← sendByte (config (u8 channel) differential ScanOff);
     if (ok : bool) then
       r ← getLastConversion;
       match r with
       | Some result =>
           let result := Z.land result MASK_12 in
           let result := if bipolar d && differential then
                           if negb (Z.land result SIGN_BIT_12 =? 0)
                           then Z.lor result (Z.lnot MASK_12) else result
                         else result in
           modify (fun d => set_connected true (set_conv (IoDevice.clearError (conv d)) d));;
           mret result
       | None => mret Converter.InvalidValue
       end
     else mret Converter.InvalidValue) d
  else (Ok Converter.InvalidValue,
        set_connected false (set_conv (IoDevice.setError_code IoDevice.EINVAL (conv d)) d)).

Definition read : M max1161x Z := readChannel 0 false.

(** [setReference (referenceId, fsr)]: the reference's own full-scale value,
    replaced by the caller's when that is positive. *)
Definition setReference (rid : Z) (f : double) : M max1161x bool := fun d =>
  let zero := dbl_int 0 in
  let base := if (rid =? DefaultReference) || (rid =? VddReference) then Some (i_fsr (max d))
              else if (rid =? InternalReference) || (rid =? Internal1Reference) ||
                      (rid =? Internal2Reference) || (rid =? Internal3Reference) ||
                      (rid =? Internal4Reference) then Some (intref (max d))
              else if rid =? ExternalReference then
                if dbl_leb f zero then None else Some (fsr d)
              else None in
  match base with
  | None => (Ok false, d)
  | Some b =>
      let d := set_ref rid (if dbl_ltb zero f then f else b) d in
      if IoDevice.isOpen (conv d) then updateSetup d else (Ok true, d)
  end.

Definition setBipolar (b : bool) : M max1161x bool := fun d =>
  if negb (Bool.eqb (bipolar d) b) then
    let d := set_bipolar b d in if isConnected d then updateSetup d else (Ok true, d)
  else (Ok true, d).

Definition setClock (clock : Z) : M max1161x bool := fun d =>
  if negb (clock =? clkSetting d) then
    let d := set_clk clock d in if isConnected d then updateSetup d else (Ok true, d)
  else (Ok true, d).

Definition setFullScaleRange (f : double) : M max1161x bool := fun d =>
  (Ok true, set_ref (referenceId d) f d).

Definition conv_open (mode : Z) : M max1161x bool := fun d =>
  let '(b, c) := IoDevice.popen mode (conv d) in (Ok b, set_conv c d).

Definition open (mode : Z) : M max1161x bool :=
  ok ← on_i2c (I2cDev.open mode);
  if (ok : bool) then
    up ← updateSetup;
    if (up : bool) then modify (set_connected true);; conv_open mode else mret false
  else modify (fun d => set_connected false (bus_error IoDevice.ENODEV d));; mret false.

Definition close : M max1161x unit :=
  modify (fun d => set_conv (IoDevice.pclose (conv d)) (set_connected false d)).

(** The constructor; [junk_id] and [junk_fsr] are the uninitialised members. *)
Definition new (w : I2cDev.world) (maxId rid : Z) (f : double) (b : bool) (junk_id : Z) (junk_fsr : double) :
    outcome bool * max1161x :=
  setReference rid f (mk_max1161x IoDevice.new w (setId (I2cDev.bus (I2cDev.i2c w)) maxId)
    junk_id junk_fsr b false InternalClock).

#[export] Instance max1161x_impl : Converter.ConverterImpl max1161x := {|
  Converter.c_dev := conv;
  Converter.c_type _ := Converter.AnalogToDigital;
  Converter.numberOfChannels d := nchan (max d);
  Converter.range _ := 2 ^ 12;
  Converter.isBipolar := bipolar;
  Converter.v_open := open;
  Converter.v_close := close;
  Converter.v_read := read;
  Converter.v_write _ d := (Ok false, d);
  Converter.v_readChannel := readChannel;
  Converter.v_writeChannel _ _ _ d := (Ok false, d);
  Converter.v_toggle _ d := (Ok false, d);
  Converter.v_mode _ d := (Ok Converter.NoMode, d);
  Converter.v_setMode _ _ d := (Ok false, d) |}.

End Driver.

(** ** The chip *)
Class Max1161xChip (K : Kernel) (a : Z) : Type := {
  chip_setup : kst -> Z;
  chip_config : kst -> Z;
  (** The code a conversion gives for a setup and a configuration. *)
  chip_sample : kst -> Z -> Z -> Z;
  sample_12 : forall k s c, 0 <= chip_sample k s c < 2 ^ 12;
  chip_write_setup : forall k b, Z.testbit b 7 = true -> Z.testbit b 1 = true ->
    exists k', k_rdwr [KWrite a [b]] k = (inr [], k') /\ chip_setup k' = b /\
      chip_config k' = chip_config k;
  chip_write_config : forall k b, Z.testbit b 7 = false ->
    exists k', k_rdwr [KWrite a [b]] k = (inr [], k') /\ chip_config k' = b /\
      chip_setup k' = chip_setup k;
  chip_convert : forall k, let v := chip_sample k (chip_setup k) (chip_config k) in
    exists k', k_rdwr [KRead a 2] k = (inr [[Z.lor 0xF0 (v / 256); v mod 256]], k') /\
      chip_config k' = chip_config k /\ chip_setup k' = chip_setup k }.

Section Chip.
Context {K : Kernel} {KOK : KernelOk K} {a : Z} {C : Max1161xChip K a}.
Implicit Types d : max1161x.

Abbreviation kern d := (I2cDev.kernel (i2c d)).

Record wf d : Prop := {
  wf_ready : I2cDev.queued (i2c d) None;
  wf_addr : i_addr (max d) = a;
  wf_nchan : 0 <= nchan (max d) <= 12 }.

(** What a transfer leaves alone. *)
Definition kept d d' : Prop :=
  max d' = max d /\ referenceId d' = referenceId d /\ fsr d' = fsr d /\ bipolar d' = bipolar d /\
  clkSetting d' = clkSetting d.

Lemma sendByte_chip d b k' :
  wf d -> k_rdwr [KWrite a [b]] (kern d) = (inr [], k') ->
  exists d', sendByte b d = (Ok true, d') /\ wf d' /\ kept d d' /\ conv d' = conv d /\
    isConnected d' = true /\ kern d' = k'.
Proof.
  intros [] Hk. unfold sendByte. destruct (I2cDev.send_byte (i2c d) a b wf_ready0) as (w1 & H1 & Hr1 & Hk1 & _).
  rewrite Hk in H1, Hk1. rewrite wf_addr0. rewrite (max1161x_on_i2c_bind _ _ _ _ _ H1). cbn.
  eexists. split; [reflexivity|]. split; [by constructor|]. done.
Qed.

Lemma getLastConversion_chip d b1 b2 k' :
  wf d -> k_rdwr [KRead a 2] (kern d) = (inr [[b1; b2]], k') ->
  exists d', getLastConversion d = (Ok (Some (Z.lor (Z.shiftl (Z.land b1 0x0F) 8) b2)), d') /\
    wf d' /\ kept d d' /\ conv d' = conv d /\ kern d' = k'.
Proof.
  intros [] Hk. unfold getLastConversion. rewrite wf_addr0.
  destruct (I2cDev.request_two (i2c d) a b1 b2 k' wf_ready0 Hk) as (w1 & w2 & w3 & H1 & H2 & H3 & Hr & Hk3).
  rewrite (max1161x_on_i2c_bind _ _ _ _ _ H1). rewrite Z.eqb_refl.
  rewrite (max1161x_on_i2c_bind _ _ (set_i2c w1 d) _ _ H2), (max1161x_on_i2c_bind _ _ (set_i2c w2 (set_i2c w1 d)) _ _ H3).
  eexists. split; [reflexivity|]. split; [by constructor|]. done.
Qed.

(** The two bytes of a conversion put together. *)
Lemma two_bytes_value v :
  0 <= v < 2 ^ 12 -> Z.lor (Z.shiftl (Z.land (Z.lor 0xF0 (v / 256)) 0x0F) 8) (v mod 256) = v.
Proof.
  intros Hv. change 256 with (2 ^ 8). rewrite <- Z.shiftr_div_pow2, <- Z.land_ones by lia.
  apply Z.bits_inj'. intros n Hn. rewrite Z.lor_spec, Z.land_spec, Z.testbit_ones_nonneg, Z.shiftl_spec by lia.
  destruct (Z.ltb_spec n 8).
  - rewrite (Z.testbit_neg_r _ (n - 8)) by lia. cbn. apply andb_true_r.
  - rewrite andb_false_r, orb_false_r, Z.land_spec, Z.lor_spec, Z.shiftr_spec by lia.
    change 0x0F with (Z.ones 4). rewrite Z.testbit_ones_nonneg by lia.
    replace (n - 8 + 8) with n by lia. destruct (Z.ltb_spec (n - 8) 4).
    + change 0xF0 with (Z.shiftl 15 4). rewrite Z.shiftl_spec_low by lia. apply andb_true_r.
    + rewrite andb_false_r. symmetry. apply (testbit_high v 12); lia.
Qed.

(** The reference bits of a reference number. *)
Definition refBits (r : Z) : Z := default 0 ((list_to_map referenceMap : gmap Z Z) !! r).

Lemma refBits_cases r : refBits r ∈ [0; 32; 64; 80; 96; 112].
Proof.
  unfold refBits. destruct (_ !! r) as [x|] eqn:E; [|by vm_compute; repeat constructor].
  apply elem_of_list_to_map_2 in E. cbn. unfold referenceMap in E.
  repeat (apply elem_of_cons in E as [E|E]; [injection E as _ ->; vm_compute; set_solver|]).
  by apply elem_of_nil in E.
Qed.

(** The setup byte, field by field. *)
Lemma setupByte_eq d :
  setupByte d = Z.lor (Z.lor (Z.lor (Z.lor REG RST) (refBits (referenceId d)))
    (if bipolar d then BIP_UNI else 0)) (if clkSetting d =? ExternalClock then CLK else 0).
Proof.
  unfold setupByte, refBits. destruct (_ !! referenceId d) as [x|]; cbn;
    destruct (bipolar d), (clkSetting d =? ExternalClock); by rewrite ?Z.lor_0_r.
Qed.

Lemma setupByte_fields d :
  Z.testbit (setupByte d) 7 = true /\ Z.testbit (setupByte d) 1 = true /\
  Z.testbit (setupByte d) 2 = bipolar d /\
  Z.testbit (setupByte d) 3 = (clkSetting d =? ExternalClock) /\
  Z.land (setupByte d) 0x70 = refBits (referenceId d).
Proof.
  rewrite setupByte_eq. pose proof (refBits_cases (referenceId d)) as H.
  generalize dependent (refBits (referenceId d)). intros r H.
  repeat (apply elem_of_cons in H as [->|H];
    [destruct (bipolar d), (clkSetting d =? ExternalClock); by repeat split|]).
  by apply elem_of_nil in H.
Qed.

Lemma max1161x_updateSetup_chip d :
  wf d -> exists d', updateSetup d = (Ok true, d') /\ wf d' /\ kept d d' /\ conv d' = conv d /\
    isConnected d' = true /\ chip_setup (kern d') = setupByte d'.
Proof.
  intros Hwf. destruct (setupByte_fields d) as (H7 & H1 & _).
  destruct (chip_write_setup (kern d) (setupByte d) H7 H1) as (k' & Hk & Hs & _).
  destruct (sendByte_chip d _ k' Hwf Hk) as (d' & Hd & Hw & Hkept & Hcv & Hcn & Hk').
  exists d'. do 5 (split; [done|]). rewrite Hk', Hs. rewrite !setupByte_eq.
  by destruct Hkept as (_ & -> & _ & -> & ->).
Qed.

Definition decode (signed : bool) (v : Z) : Z := if signed && (2048 <=? v) then v - 4096 else v.

Lemma sign_extend v : 0 <= v < 2 ^ 12 ->
  Z.land v MASK_12 = v /\
  (if negb (Z.land v SIGN_BIT_12 =? 0) then Z.lor v (Z.lnot MASK_12) else v) =
    if 2048 <=? v then v - 4096 else v.
Proof.
  intros Hv. assert (Hm : Z.land v MASK_12 = v)
    by (change MASK_12 with (Z.ones 12); rewrite Z.land_ones by lia; by apply Z.mod_small).
  split; [done|]. change SIGN_BIT_12 with (2 ^ 11).
  assert (Hb : (Z.land v (2 ^ 11) =? 0) = negb (2048 <=? v)).
  { destruct (Z.leb_spec 2048 v); cbn.
    - apply Z.eqb_neq. intros H0. apply (f_equal (fun z => Z.testbit z 11)) in H0.
      rewrite Z.land_spec, Z.pow2_bits_true, andb_true_r, Z.bits_0 in H0 by lia.
      assert (Z.log2 v = 11) as Hlog by (apply Z.log2_unique; lia).
      rewrite <- Hlog, Z.bit_log2 in H0 by lia. done.
    - apply Z.eqb_eq, Z.bits_inj'. intros n Hn. rewrite Z.land_spec, Z.pow2_bits_eqb, Z.bits_0 by lia.
      destruct (Z.eqb_spec 11 n) as [<-|]; [|apply andb_false_r].
      rewrite (testbit_high v 11) by lia. done. }
  rewrite Hb, negb_involutive. destruct (Z.leb_spec 2048 v); [|done].
  assert (Hz : Z.land v (Z.lnot MASK_12) = 0) by (rewrite <- Hm at 1; rewrite <- Z.land_assoc; by rewrite Z.land_lnot_diag, Z.land_0_r).
  pose proof (Z.add_nocarry_lxor v (Z.lnot MASK_12) Hz) as Ha.
  rewrite <- Z.lxor_lor in * by done. rewrite <- Ha. unfold MASK_12, Z.lnot. lia.
Qed.

Lemma config_fields c df :
  0 <= c <= 12 -> let b := config (u8 c) df ScanOff in
  Z.testbit b 7 = false /\ field b 5 2 = 3 /\ field b 1 4 = c /\ Z.testbit b 0 = negb df.
Proof.
  intros Hc. assert (Hall : forallb (fun c => forallb (fun df => let b := config (u8 c) df ScanOff in
    negb (Z.testbit b 7) && (field b 5 2 =? 3) && (field b 1 4 =? c) && Bool.eqb (Z.testbit b 0) (negb df))
    [false; true]) (seqZ 0 13) = true) by (vm_compute; reflexivity).
  rewrite forallb_forall in Hall. specialize (Hall c).
  rewrite <- list_elem_of_In, elem_of_seqZ, forallb_forall in Hall. specialize (Hall ltac:(lia) df).
  rewrite <- list_elem_of_In in Hall. specialize (Hall ltac:(destruct df; set_solver)).
  rewrite !andb_true_iff, negb_true_iff, !Z.eqb_eq, eqb_true_iff in Hall.
  cbn. destruct Hall as [[[? ?] ?] ?]. done.
Qed.

Lemma readChannel_chip d c df :
  wf d -> 0 <= c < nchan (max d) ->
  exists d' k1, readChannel c df d =
      (Ok (decode (bipolar d && df) (chip_sample k1 (chip_setup (kern d)) (config (u8 c) df ScanOff))), d') /\
    wf d' /\ kept d d' /\ isConnected d' = true /\ chip_setup (kern d') = chip_setup (kern d) /\
    chip_config (kern d') = config (u8 c) df ScanOff /\
    IoDevice.openMode (conv d') = IoDevice.openMode (conv d) /\ IoDevice.error (conv d') = 0.
Proof.
  intros Hwf Hc. pose proof (wf_nchan _ Hwf). unfold readChannel.
  rewrite (proj2 (Z.leb_le 0 c)), (proj2 (Z.ltb_lt c _)) by lia. cbn [andb].
  destruct (config_fields c df) as (H7 & _); [lia|].
  destruct (chip_write_config (kern d) _ H7) as (k1 & Hk1 & Hcf & Hst).
  destruct (sendByte_chip d _ k1 Hwf Hk1) as (d1 & H1 & Hw1 & Hkept1 & Hcv1 & _ & Hk1').
  rewrite (M_bind_ok _ _ _ _ _ _ _ _ H1).
  destruct (chip_convert (kern d1)) as (k2 & Hk2 & Hcf2 & Hst2). rewrite Hk1', Hcf, Hst in *.
  pose proof (sample_12 k1 (chip_setup (kern d)) (config (u8 c) df ScanOff)) as Hv.
  set (v := chip_sample _ _ _) in *. rewrite <- Hk1' in Hk2.
  destruct (getLastConversion_chip d1 _ _ k2 Hw1 Hk2) as (d2 & H2 & Hw2 & Hkept2 & Hcv2 & Hk2').
  rewrite (two_bytes_value v Hv) in H2. rewrite (M_bind_ok _ _ _ _ _ _ _ _ H2).
  destruct (sign_extend v Hv) as [-> Hsx]. cbv zeta.
  eexists _, k1. split.
  { munfold. rewrite Hsx. unfold decode. by destruct (bipolar d && df). }
  cbn. rewrite Hk2', Hcf2, Hst2, Hcv2, Hcv1. split; [destruct Hw2; by constructor|].
  split; [unfold kept in *; cbn; intuition congruence|]. done.
Qed.

(** The chip's setup register is the one the driver's settings ask for. *)
Definition synced d : Prop := chip_setup (kern d) = setupByte d.

Lemma setters_sync d :
  wf d -> isConnected d = true -> synced d ->
  (forall b, exists d', setBipolar b d = (Ok true, d') /\ wf d' /\ synced d' /\ bipolar d' = b) /\
  (forall c, exists d', setClock c d = (Ok true, d') /\ wf d' /\ synced d' /\ clkSetting d' = c) /\
  (forall f, setFullScaleRange f d = (Ok true, set_ref (referenceId d) f d)).
Proof.
  intros Hwf Hcn Hs. split; [|split; [|done]].
  - intros b. unfold setBipolar. destruct (Bool.eqb (bipolar d) b) eqn:E.
    + exists d. apply eqb_prop in E. done.
    + cbn. rewrite Hcn.
      destruct (max1161x_updateSetup_chip (set_bipolar b d)) as (d' & H1 & Hw & Hk & _ & _ & Hsy);
        [destruct Hwf; by constructor|].
      exists d'. do 3 (split; [done|]). by destruct Hk as (_ & _ & _ & -> & _).
  - intros c. unfold setClock. destruct (Z.eqb_spec c (clkSetting d)) as [->|E]; cbn.
    + by exists d.
    + rewrite Hcn. destruct (max1161x_updateSetup_chip (set_clk c d)) as (d' & H1 & Hw & Hk & _ & _ & Hsy);
        [destruct Hwf; by constructor|].
      exists d'. do 3 (split; [done|]). by destruct Hk as (_ & _ & _ & _ & ->).
Qed.

(** A reference number [setReference] accepts with a full-scale value. *)
Definition ref_ok (rid : Z) (f : double) : bool :=
  (0 <=? rid) && (rid <=? 7) && negb ((rid =? ExternalReference) && dbl_leb f (dbl_int 0)).

Lemma setReference_sync d rid f :
  wf d -> IoDevice.isOpen (conv d) = true -> synced d ->
  exists d', setReference rid f d = (Ok (ref_ok rid f), d') /\ wf d' /\ synced d' /\
    referenceId d' = if ref_ok rid f then rid else referenceId d.
Proof.
  intros Hwf Ho Hs. unfold setReference, ref_ok.
  assert (Hup : forall x, exists d', (if IoDevice.isOpen (conv (set_ref rid x d))
    then updateSetup (set_ref rid x d) else (Ok true, set_ref rid x d)) = (Ok true, d') /\ wf d' /\ synced d' /\
    referenceId d' = rid).
  { intros x. change (conv (set_ref rid x d)) with (conv d). rewrite Ho.
    destruct (max1161x_updateSetup_chip (set_ref rid x d)) as (d' & H1 & Hw & Hk & _ & _ & Hsy);
      [destruct Hwf; by constructor|].
    exists d'. do 3 (split; [done|]). by destruct Hk as (_ & -> & _). }
  unfold DefaultReference, VddReference, InternalReference, Internal1Reference, Internal2Reference,
    Internal3Reference, Internal4Reference, ExternalReference.
  case_bool; subst; try lia; cbn; try apply Hup; try by exists d.
  destruct (dbl_leb f _); cbn; [by exists d|apply Hup].
Qed.

End Chip.
(** ** A chip to instantiate the interface: it answers every conversion with
    the channel number times 300 *)
Definition adc_kernel : Kernel := {|
  kst := Z * Z;
  k_rdwr ms k :=
    match ms with
    | [KWrite _ [b]] => (inr [], if Z.testbit b 7 then (b, k.2) else (k.1, b))
    | [KRead _ 2] => let v := (field k.2 1 4 * 300) mod 2 ^ 12 in
                     (inr [[Z.lor 0xF0 (v / 256); v mod 256]], k)
    | _ => (inl 121, k)
    end;
  k_open _ _ k := (inr 3, k);
  k_close _ k := (None, k);
  k_funcs _ k := (inr 1, k) |}.

#[export] Instance adc_kernel_ok : KernelOk adc_kernel.
Proof.
  constructor; intros ms k x k'; cbn; intros H; repeat case_match; simplify_eq/=; done.
Qed.

#[export] Instance adc_kernel_chip a : Max1161xChip adc_kernel a.
Proof.
  refine {| chip_setup (k : @kst adc_kernel) := k.1; chip_config (k : @kst adc_kernel) := k.2;
            chip_sample (_ : @kst adc_kernel) _ c := (field c 1 4 * 300) mod 2 ^ 12 |}.
  - intros k s c. apply Z.mod_pos_bound. lia.
  - intros k b H7 _. eexists. split; [reflexivity|]. by rewrite H7.
  - intros k b H7. eexists. split; [reflexivity|]. by rewrite H7.
  - intros k v. exists k. done.
Defined.

(** A MAX11615 on that chip, opened, in bipolar mode. *)
Definition demo_new : @max1161x adc_kernel :=
  (new (@I2cDev.new adc_kernel (replicate 32 0) (replicate 32 0) 0 (0, 0)) 15 InternalReference
     (dbl_int 0) true 0 (dbl_int 0)).2.
Definition demo_dev : @max1161x adc_kernel := (open IoDevice.ReadOnly demo_new).2.

Lemma max1161x_demo_wf : wf (a := 0x33) demo_dev.
Proof.
  constructor; [|by vm_compute|by vm_compute].
  split; [|by vm_compute]. constructor; try by vm_compute; constructor; by vm_compute.
Qed.

(** A reading is the conversion of the channel asked for: the chip is
    configured for that channel, single-ended or differential, without scanning,
    and the value returned is the 12-bit code of that conversion, as a
    two's-complement number exactly when the converter is bipolar and the reading
    differential; it lies between the converter's [min] and [max], and the
    settings of the chip and the driver are unchanged. *)
Theorem max1161x_reading_exact {K : Kernel} {KOK : KernelOk K} {a : Z} {C : Max1161xChip K a}
    (d : max1161x) (c : Z) (df : bool) :
  wf (a := a) d -> 0 <= c < nchan (max d) ->
  exists d' k1 cfg, field cfg 1 4 = c /\ field cfg 5 2 = 3 /\ Z.testbit cfg 0 = negb df /\
    readChannel c df d =
      (Ok (decode (bipolar d && df) (chip_sample k1 (chip_setup (I2cDev.kernel (i2c d))) cfg)), d') /\
    Converter.min d df <= decode (bipolar d && df) (chip_sample k1 (chip_setup (I2cDev.kernel (i2c d))) cfg)
      <= Converter.max d df /\
    wf (a := a) d' /\ kept d d' /\
    chip_setup (I2cDev.kernel (i2c d')) = chip_setup (I2cDev.kernel (i2c d)).
Proof.
  intros Hwf Hc. destruct (readChannel_chip d c df Hwf Hc) as (d' & k1 & H1 & Hw & Hk & _ & Hs & _).
  destruct (config_fields c df) as (_ & H5 & Hcc & Hd); [destruct Hwf; lia|].
  exists d', k1, (config (u8 c) df ScanOff). do 4 (split; [done|]). split; [|done].
  pose proof (sample_12 k1 (chip_setup (I2cDev.kernel (i2c d))) (config (u8 c) df ScanOff)) as Hv.
  unfold decode, Converter.min, Converter.max. cbn [Converter.isBipolar Converter.range max1161x_impl].
  change (Z.quot (2 ^ 12) 2) with 2048. change (Z.quot (- 2 ^ 12) 2) with (-2048).
  destruct (bipolar d && df); cbn; case_bool; lia.
Qed.

Lemma max1161x_reading_exact_witness :
  exists d' k1 cfg, field cfg 1 4 = 7 /\ field cfg 5 2 = 3 /\ Z.testbit cfg 0 = false /\
    readChannel 7 true demo_dev = (Ok (decode true
      (chip_sample (a := 0x33) k1 (chip_setup (a := 0x33) (I2cDev.kernel (i2c demo_dev))) cfg)), d').
Proof.
  destruct (max1161x_reading_exact (a := 0x33) demo_dev 7 true max1161x_demo_wf) as
    (d' & k1 & cfg & H1 & H2 & H3 & H4 & _); [vm_compute; split; congruence|].
  exists d', k1, cfg. split; [exact H1|]. split; [exact H2|]. split; [exact H3|]. exact H4.
Defined.

(** The chip always runs the setup the driver reports: on a connected
    converter whose setup register encodes its reference, polarity and clock,
    changing any of them rewrites the register to encode the new settings; a
    reference that is refused changes nothing; and the register encodes the
    settings field by field. *)
Theorem max1161x_setup_in_sync {K : Kernel} {KOK : KernelOk K} {a : Z} {C : Max1161xChip K a}
    (d : max1161x) :
  wf (a := a) d -> isConnected d = true -> IoDevice.isOpen (conv d) = true -> synced d ->
  (forall b, exists d', setBipolar b d = (Ok true, d') /\ wf (a := a) d' /\ synced d' /\ bipolar d' = b) /\
  (forall c, exists d', setClock c d = (Ok true, d') /\ wf (a := a) d' /\ synced d' /\ clkSetting d' = c) /\
  (forall rid f, exists d', setReference rid f d = (Ok (ref_ok rid f), d') /\ wf (a := a) d' /\ synced d' /\
     referenceId d' = if ref_ok rid f then rid else referenceId d) /\
  (let s := chip_setup (I2cDev.kernel (i2c d)) in
   Z.testbit s 2 = bipolar d /\ Z.testbit s 3 = (clkSetting d =? ExternalClock) /\
   Z.land s 0x70 = refBits (referenceId d)).
Proof.
  intros Hwf Hcn Ho Hs. destruct (setters_sync d Hwf Hcn Hs) as (H1 & H2 & _).
  split; [done|]. split; [done|]. split; [intros rid f; by apply setReference_sync|].
  unfold synced in Hs. cbv zeta. rewrite Hs. apply setupByte_fields.
Qed.

Lemma max1161x_setup_in_sync_witness :
  exists d', setBipolar false demo_dev = (Ok true, d') /\ wf (a := 0x33) d' /\ synced (a := 0x33) d' /\
    bipolar d' = false.
Proof.
  apply (max1161x_setup_in_sync (a := 0x33) demo_dev max1161x_demo_wf); by vm_compute.
Defined.

End Max1161x.
