(* ===== verification/Mcp4725.v ===== *)
(** * The MCP4725 converter, src/ext/mcp4725.cpp and src/ext/mcp4725_p.h

    [mcp4725] is [Mcp4725::Private]; its register buffer is the five bytes the
    source casts it to: configuration, two DAC bytes, two EEPROM bytes.  The
    chip is the interface [Mcp4725Chip]: the write commands of the data sheet
    (fast mode, DAC register, DAC register and EEPROM) and the five-byte read. *)
From S2P Require Import Prelude IoDevice Fifo I2cDev Converter.
Import Flags.

Module Mcp4725.

Definition WRDAC : Z := 0x40.
Definition WRDACEE : Z := 0x60.
Definition PD_1K : Z := 0x02.
Definition PD_100K : Z := 0x04.
Definition PD_500K : Z := 0x06.
Definition PD_MASK : Z := 0x06.
Definition READY : Z := 0xC0.
Definition DefaultAddress : Z := 0x60.
Definition RegReadLength : Z := 5.
Definition RegWriteLength : Z := 3.
Definition RegFastWriteLength : Z := 2.

Section Driver.
Context {K : Kernel}.

Record mcp4725 : Type := mk_mcp4725 {
  conv : IoDevice.iodevice;
  i2c : I2cDev.world;
  addr : Z;
  fsr : double;
  isConnected : bool;
  value : Z;
  currentMode : Z;
  modeSetByUser : bool;
  regs : list Z }.

Definition set_conv (c : IoDevice.iodevice) (d : mcp4725) : mcp4725 :=
  mk_mcp4725 c (i2c d) (addr d) (fsr d) (isConnected d) (value d) (currentMode d) (modeSetByUser d) (regs d).
Definition set_i2c (w : I2cDev.world) (d : mcp4725) : mcp4725 :=
  mk_mcp4725 (conv d) w (addr d) (fsr d) (isConnected d) (value d) (currentMode d) (modeSetByUser d) (regs d).
Definition set_connected (b : bool) (d : mcp4725) : mcp4725 :=
  mk_mcp4725 (conv d) (i2c d) (addr d) (fsr d) b (value d) (currentMode d) (modeSetByUser d) (regs d).
Definition set_value (v : Z) (d : mcp4725) : mcp4725 :=
  mk_mcp4725 (conv d) (i2c d) (addr d) (fsr d) (isConnected d) v (currentMode d) (modeSetByUser d) (regs d).
Definition set_mode (m : Z) (u : bool) (d : mcp4725) : mcp4725 :=
  mk_mcp4725 (conv d) (i2c d) (addr d) (fsr d) (isConnected d) (value d) m u (regs d).
Definition set_regs (r : list Z) (d : mcp4725) : mcp4725 :=
  mk_mcp4725 (conv d) (i2c d) (addr d) (fsr d) (isConnected d) (value d) (currentMode d) (modeSetByUser d) r.
Definition set_fsr (f : double) (d : mcp4725) : mcp4725 :=
  mk_mcp4725 (conv d) (i2c d) (addr d) f (isConnected d) (value d) (currentMode d) (modeSetByUser d) (regs d).

Definition on_i2c {A} : M I2cDev.world A -> M mcp4725 A := zoom i2c set_i2c.

Lemma mcp4725_on_i2c_bind {A B} (m : M I2cDev.world A) (k : A -> M mcp4725 B) d x w :
  m (i2c d) = (Ok x, w) -> (on_i2c m ≫= k) d = k x (set_i2c w d).
Proof. intros H. apply M_bind_ok. unfold on_i2c. by apply zoom_eq. Qed.

(** The constructor on a given I2C master. *)
Definition new (w : I2cDev.world) (address : Z) : mcp4725 :=
  mk_mcp4725 IoDevice.new w (u16 address) (dbl_lit 33 10) false 0
    (Z.lor Converter.NormalMode Converter.AnalogOutput) false [0; 0; 0; 0; 0].

Definition readRegisters (max : Z) : M mcp4725 bool := fun d =>
  if I2cDev.is_open (i2c d) then
    (n ← on_i2c (I2cDev.requestFrom (addr d) max true);
     if 0 <=? n then
       bytesRead ← gets (fun d => I2cDev.available (i2c d));
       bs ← on_i2c (I2cDev.read_buf (Z.min bytesRead max));
       modify (fun d => set_connected true (set_regs (bs ++ drop (length bs) (regs d)) d));;
       mret (bytesRead =? max)
     else mret false) d
  else (Ok false, d).

Definition writeRegisters (size : Z) : M mcp4725 bool := fun d =>
  if I2cDev.is_open (i2c d) then
    (ok ← on_i2c (I2cDev.beginTransmission (addr d);; I2cDev.write_buf (take (Z.to_nat size) (regs d));;
                  I2cDev.endTransmission true);
     if (ok : bool) then modify (set_connected true);; mret true else mret false) d
  else (Ok false, d).

(** The power-down bits of the configuration byte for a mode. *)
Definition pd_bits (m : Z) : Z :=
  if test m Converter.PwrDwnEn then
    let p := Z.land m Converter.PwrDwnMask in
    if p =? Converter.PwrDwnR1 then PD_1K
    else if p =? Converter.PwrDwnR2 then PD_100K
    else if p =? Converter.PwrDwnR3 then PD_500K else 0
  else 0.

(** The bytes [writeChannel] puts in the register buffer, and how many are sent. *)
Definition frame (m value : Z) (r : list Z) : list Z * Z :=
  if test m Converter.FastMode then
    (u8 (Z.shiftr value 8) :: Z.land value 0xFF :: drop 2 r, RegFastWriteLength)
  else
    (Z.lor (if m =? Converter.SaveToEEPROM then WRDACEE else WRDAC) (pd_bits m)
       :: Z.land (Z.shiftr value 4) 0xFF :: Z.land (Z.shiftl value 4) 0xF0 :: drop 3 r, RegWriteLength).

Definition writeChannel (value channel : Z) (differential : bool) : M mcp4725 bool := fun d =>
  if I2cDev.is_open (i2c d) then
    let '(r, bytesToWrite) := frame (currentMode d) value (regs d) in
    (modify (set_regs r);;
     ok ← writeRegisters bytesToWrite;
     if (ok : bool) then modify (set_value (u16 value));; mret true else mret false) d
  else (Ok false, d).

Definition write (value : Z) : M mcp4725 bool := writeChannel value 0 false.
Definition readChannel (channel : Z) (differential : bool) : M mcp4725 Z := gets value.
Definition read : M mcp4725 Z := readChannel 0 false.
Definition mode (channel : Z) : M mcp4725 Z := gets currentMode.

Definition mode_mask : Z :=
  Z.lor (Z.lor (Z.lor (Z.lor (Z.lor Converter.AnalogOutput Converter.FastMode) Converter.SaveToEEPROM)
    Converter.PwrDwnEn) Converter.PwrDwn0) Converter.PwrDwn1.

Definition setMode (m channel : Z) : M mcp4725 bool :=
  if test m (Z.lnot mode_mask) then mret false
  else if test m Converter.FastMode && test m Converter.SaveToEEPROM then mret false
  else if negb (test m Converter.PwrDwnEn) && test m (Z.lor Converter.PwrDwn0 Converter.PwrDwn1) then mret false
  else modify (set_mode (Z.lor m Converter.AnalogOutput) true);; mret true.

Definition byte_at (i : nat) (d : mcp4725) : Z := nth i (regs d) 0.

Definition updateSetup : M mcp4725 bool := fun d =>
  if I2cDev.is_open (i2c d) then
    (ok ← readRegisters RegReadLength;
     if (ok : bool) then
       modify (set_connected true);;
       config ← gets (byte_at 0);
       if Z.land config READY =? READY then
         modify (fun d =>
           if negb (modeSetByUser d) then
             let p := Z.land config PD_MASK in
             set_mode (Z.lor (currentMode d)
               (if p =? PD_1K then Converter.PwrDwnR1 else if p =? PD_100K then Converter.PwrDwnR2
                else if p =? PD_500K then Converter.PwrDwnR3 else Converter.NormalMode)) false d
           else d);;
         modify (fun d => set_value (u16
           (if test (currentMode d) Converter.SaveToEEPROM
            then Z.lor (Z.shiftl (Z.land (byte_at 3 d) 0x0F) 8) (byte_at 4 d)
            else Z.lor (Z.shiftl (byte_at 1 d) 4) (Z.land (Z.shiftr (byte_at 2 d) 4) 0x000F))) d);;
         mret true
       else mret false
     else mret false) d
  else (Ok false, d).

Definition conv_open (mode : Z) : M mcp4725 bool := fun d =>
  let '(b, c) := IoDevice.popen mode (conv d) in (Ok b, set_conv c d).

Definition open (mode : Z) : M mcp4725 bool :=
  ok ← on_i2c (I2cDev.open mode);
  if (ok : bool) then
    up ← updateSetup;
    if (up : bool) then conv_open mode else mret false
  else
    modify (fun d =>
      let e := IoDevice.error (I2cDev.dev (I2cDev.i2c (i2c d))) in
      set_connected false
        (set_conv (if negb (e =? 0) then IoDevice.setError_errno (I2cDev.errno (i2c d)) (conv d)
                   else IoDevice.setError_code IoDevice.ENODEV (conv d)) d));;
    mret false.

Definition close : M mcp4725 unit := modify (fun d => set_conv (IoDevice.pclose (conv d)) d).
Definition setFullScaleRange (f : double) : M mcp4725 bool := modify (set_fsr f);; mret true.

#[export] Instance mcp4725_impl : Converter.ConverterImpl mcp4725 := {|
  Converter.c_dev := conv;
  Converter.c_type _ := Converter.DigitalToAnalog;
  Converter.numberOfChannels _ := 1;
  Converter.range _ := 2 ^ 12;
  Converter.isBipolar _ := false;
  Converter.v_open := open;
  Converter.v_close := close;
  Converter.v_read := read;
  Converter.v_write := write;
  Converter.v_readChannel := readChannel;
  Converter.v_writeChannel := writeChannel;
  Converter.v_toggle _ d := (Ok false, d);
  Converter.v_mode := mode;
  Converter.v_setMode := setMode |}.

End Driver.
#[local] Arguments byte_at : simpl never.
(** ** The chip *)
Definition byte (x : Z) : Prop := 0 <= x < 2 ^ 8.

Class Mcp4725Chip (K : Kernel) (a : Z) : Type := {
  c_dac : kst -> Z;
  c_pd : kst -> Z;
  c_eeprom : kst -> Z;
  c_ready : kst -> bool;
  c_bounds : forall k, 0 <= c_dac k < 2 ^ 12 /\ 0 <= c_pd k < 4 /\ 0 <= c_eeprom k < 2 ^ 12;
  write_dac : forall k c h l, byte c -> byte h -> byte l -> Z.land c 0xE0 = 0x40 ->
    exists k', k_rdwr [KWrite a [c; h; l]] k = (inr [], k') /\
      c_dac k' = Z.lor (Z.shiftl h 4) (Z.shiftr l 4) /\ c_pd k' = field c 1 2 /\
      c_eeprom k' = c_eeprom k;
  write_fast : forall k b0 b1, byte b0 -> byte b1 -> Z.land b0 0xC0 = 0 ->
    exists k', k_rdwr [KWrite a [b0; b1]] k = (inr [], k') /\
      c_dac k' = Z.lor (Z.shiftl (Z.land b0 0x0F) 8) b1 /\ c_pd k' = field b0 4 2 /\
      c_eeprom k' = c_eeprom k;
  read_all : forall k, exists k' s,
    k_rdwr [KRead a 5] k = (inr [[s; Z.shiftr (c_dac k) 4; Z.shiftl (Z.land (c_dac k) 0xF) 4;
                                 Z.shiftr (c_eeprom k) 8; Z.land (c_eeprom k) 0xFF]], k') /\
      byte s /\ (Z.land s READY =? READY) = c_ready k /\ field s 1 2 = c_pd k /\
      c_dac k' = c_dac k /\ c_pd k' = c_pd k /\ c_eeprom k' = c_eeprom k }.

(** The mode always names an analog output. *)
Definition mode_ok (m : Z) : Prop := Z.testbit m 3 = true.

Section Chip.
Context {K : Kernel} {KOK : KernelOk K} {a : Z} {C : Mcp4725Chip K a}.
Implicit Types d : mcp4725.

Abbreviation kern d := (I2cDev.kernel (i2c d)).

Record wf d : Prop := {
  wf_ready : I2cDev.queued (i2c d) None;
  wf_addr : addr d = a;
  wf_mode : mode_ok (currentMode d);
  wf_regs : length (regs d) = 5%nat }.

Definition kept d d' : Prop :=
  currentMode d' = currentMode d /\ modeSetByUser d' = modeSetByUser d /\ addr d' = addr d /\
  regs d' = regs d /\ conv d' = conv d.

Lemma writeRegisters_chip d n k' :
  wf d -> 0 <= n <= 5 -> k_rdwr [KWrite a (take (Z.to_nat n) (regs d))] (kern d) = (inr [], k') ->
  exists d', writeRegisters n d = (Ok true, d') /\ wf d' /\ kept d d' /\ kern d' = k'.
Proof.
  intros [] Hn Hk. unfold writeRegisters. pose proof wf_ready0 as ([] & _). rewrite b_open, wf_addr0.
  destruct (I2cDev.send_buf (i2c d) a (take (Z.to_nat n) (regs d)) wf_ready0) as (w1 & H1 & Hr1 & Hk1 & _).
  { rewrite length_take. unfold I2cDev.I2C_BLOCK_MAX. lia. }
  rewrite Hk in H1, Hk1. rewrite (mcp4725_on_i2c_bind _ _ _ _ _ H1). cbn.
  eexists. split; [reflexivity|]. split; [by constructor|]. done.
Qed.

(** ** Frames *)
Lemma eeprom_never m : mode_ok m -> (m =? Converter.SaveToEEPROM) = false.
Proof. intros Hm. apply Z.eqb_neq. intros ->. discriminate Hm. Qed.

(** The two-bit power-down code of a mode. *)
Definition pd_code (m : Z) : Z := field (pd_bits m) 1 2.

Lemma pd_bits_cases m : pd_bits m ∈ [0; 2; 4; 6].
Proof. unfold pd_bits. repeat case_match; vm_compute; set_solver. Qed.

Lemma normal_config m :
  byte (Z.lor WRDAC (pd_bits m)) /\ Z.land (Z.lor WRDAC (pd_bits m)) 0xE0 = 0x40 /\
  field (Z.lor WRDAC (pd_bits m)) 1 2 = pd_code m.
Proof.
  pose proof (pd_bits_cases m) as H. unfold pd_code. generalize dependent (pd_bits m). intros p H.
  repeat (apply elem_of_cons in H as [->|H]; [by repeat split|]). by apply elem_of_nil in H.
Qed.

Lemma land_ff_byte x : byte (Z.land x 0xFF).
Proof. change 0xFF with (Z.ones 8). rewrite Z.land_ones by lia. apply Z.mod_pos_bound. lia. Qed.

(** A 12-bit value is put together from the bytes of a normal write. *)
Lemma normal_value v :
  0 <= v < 2 ^ 12 -> byte (Z.land (Z.shiftr v 4) 0xFF) /\ byte (Z.land (Z.shiftl v 4) 0xF0) /\
  Z.lor (Z.shiftl (Z.land (Z.shiftr v 4) 0xFF) 4) (Z.shiftr (Z.land (Z.shiftl v 4) 0xF0) 4) = v.
Proof.
  intros Hv. split; [apply land_ff_byte|]. split.
  { change 0xF0 with (Z.land 0xF0 0xFF). rewrite Z.land_assoc. apply land_ff_byte. }
  change 0xFF with (Z.ones 8). change 0xF0 with (Z.shiftl (Z.ones 4) 4).
  apply Z.bits_inj'. intros n Hn.
  rewrite Z.lor_spec, Z.shiftr_spec, Z.land_spec, !Z.shiftl_spec by lia.
  replace (n + 4 - 4) with n by lia. rewrite Z.testbit_ones_nonneg by lia.
  destruct (Z.ltb_spec n 4).
  - rewrite (Z.testbit_neg_r _ (n - 4)), andb_true_r by lia. done.
  - rewrite andb_false_r, orb_false_r, Z.land_spec, Z.shiftr_spec, Z.testbit_ones_nonneg by lia.
    replace (n - 4 + 4) with n by lia. destruct (Z.ltb_spec (n - 4) 8); [apply andb_true_r|].
    rewrite andb_false_r. symmetry. apply (testbit_high v 12); lia.
Qed.

Lemma fast_value v :
  0 <= v < 2 ^ 12 -> byte (u8 (Z.shiftr v 8)) /\ byte (Z.land v 0xFF) /\
  Z.land (u8 (Z.shiftr v 8)) 0xC0 = 0 /\ field (u8 (Z.shiftr v 8)) 4 2 = 0 /\
  Z.lor (Z.shiftl (Z.land (u8 (Z.shiftr v 8)) 0x0F) 8) (Z.land v 0xFF) = v.
Proof.
  intros Hv. split; [apply u8_bound|]. split; [apply land_ff_byte|].
  assert (Hs : 0 <= Z.shiftr v 8 < 2 ^ 4).
  { rewrite Z.shiftr_div_pow2 by lia. split; [apply Z.div_pos; lia|apply Z.div_lt_upper_bound; lia]. }
  rewrite u8_small by lia. assert (Hb : forall n, 4 <= n -> Z.testbit (Z.shiftr v 8) n = false)
    by (intros n Hn; by apply (testbit_high _ 4)).
  split; [|split].
  - apply Z.bits_inj'. intros n Hn. rewrite Z.land_spec, Z.bits_0. change 0xC0 with (Z.shiftl 3 6).
    destruct (Z.lt_ge_cases n 4); [rewrite Z.shiftl_spec_low by lia; apply andb_false_r|].
    by rewrite Hb.
  - apply Z.bits_inj'. intros n Hn. rewrite testbit_field, Z.bits_0, Hb by lia. done.
  - change 0x0F with (Z.ones 4). change 0xFF with (Z.ones 8).
    rewrite (Z.land_ones (Z.shiftr v 8)), Z.mod_small by lia.
    apply Z.bits_inj'. intros n Hn. rewrite Z.lor_spec, Z.land_spec, Z.testbit_ones_nonneg, Z.shiftl_spec by lia.
    destruct (Z.ltb_spec n 8).
    + rewrite (Z.testbit_neg_r _ (n - 8)), andb_true_r by lia. done.
    + rewrite andb_false_r, orb_false_r, Z.shiftr_spec by lia. f_equal. lia.
Qed.

Lemma mcp4725_writeChannel_chip d v c df :
  wf d -> 0 <= v < 2 ^ 12 ->
  exists d', writeChannel v c df d = (Ok true, d') /\ wf d' /\ value d' = v /\
    currentMode d' = currentMode d /\ c_dac (kern d') = v /\ c_eeprom (kern d') = c_eeprom (kern d) /\
    c_pd (kern d') = if test (currentMode d) Converter.FastMode then 0 else pd_code (currentMode d).
Proof.
  intros Hwf Hv. pose proof Hwf as [([] & _) _ Hm Hl]. unfold writeChannel. rewrite b_open.
  unfold frame. rewrite (eeprom_never _ Hm). destruct (test (currentMode d) Converter.FastMode).
  - destruct (fast_value v Hv) as (Hb0 & Hb1 & Hc0 & Hpd & Hval).
    destruct (write_fast (kern d) _ _ Hb0 Hb1 Hc0) as (k' & Hk & Hd & Hp & He).
    set (r := u8 _ :: _). munfold.
    destruct (writeRegisters_chip (set_regs r d) RegFastWriteLength k') as (d1 & H1 & [] & Hk1 & Hkk);
      [destruct Hwf; constructor; try done; subst r; cbn; rewrite length_drop; lia|done|exact Hk|].
    rewrite H1. eexists. split; [reflexivity|]. split; [by constructor|].
    cbn. rewrite u16_small, Hkk, Hd, Hp, He, Hval by lia. by destruct Hk1 as (-> & _).
  - destruct (normal_value v Hv) as (Hb1 & Hb2 & Hval). destruct (normal_config (currentMode d)) as (Hb0 & Hc0 & Hpd).
    destruct (write_dac (kern d) _ _ _ Hb0 Hb1 Hb2 Hc0) as (k' & Hk & Hd & Hp & He).
    set (r := Z.lor WRDAC _ :: _). munfold.
    destruct (writeRegisters_chip (set_regs r d) RegWriteLength k') as (d1 & H1 & [] & Hk1 & Hkk);
      [destruct Hwf; constructor; try done; subst r; cbn; rewrite length_drop; lia|done|exact Hk|].
    rewrite H1. eexists. split; [reflexivity|]. split; [by constructor|].
    cbn. rewrite u16_small, Hkk, Hd, Hp, He, Hval by lia. by destruct Hk1 as (-> & _).
Qed.

(** ** Reading the chip back *)
Lemma readRegisters_chip d bs k' :
  wf d -> k_rdwr [KRead a 5] (kern d) = (inr [bs], k') ->
  exists d', readRegisters RegReadLength d = (Ok true, d') /\ wf d' /\ regs d' = bs /\
    currentMode d' = currentMode d /\ modeSetByUser d' = modeSetByUser d /\ kern d' = k'.
Proof.
  intros [] Hk. unfold readRegisters, RegReadLength. pose proof wf_ready0 as ([] & _).
  rewrite b_open, wf_addr0.
  destruct (I2cDev.request_read (i2c d) None a 5 bs k' wf_ready0 ltac:(done) Hk)
    as (w1 & w2 & H1 & Ha & H2 & Hl & Hr2 & Hk2 & _).
  rewrite (mcp4725_on_i2c_bind _ _ _ _ _ H1). change (0 <=? 5) with true. cbv iota.
  rewrite (M_bind_ok _ _ _ (gets _) _ _ 5 (set_i2c w1 d)) by (unfold gets; cbn; by rewrite Ha).
  rewrite Z.min_id, (mcp4725_on_i2c_bind _ _ (set_i2c w1 d) _ _ H2).
  eexists. split; [reflexivity|]. cbn. rewrite drop_ge, app_nil_r by lia.
  split; [constructor; try done; cbn; lia|]. done.
Qed.

Lemma dac_bytes v :
  0 <= v < 2 ^ 12 ->
  u16 (Z.lor (Z.shiftl (Z.shiftr v 4) 4) (Z.land (Z.shiftr (Z.shiftl (Z.land v 0xF) 4) 4) 0x000F)) = v.
Proof.
  intros Hv. rewrite Z.shiftr_shiftl_l, Z.sub_diag, Z.shiftl_0_r by lia.
  rewrite <- Z.land_assoc, Z.land_diag.
  assert (Z.lor (Z.shiftl (Z.shiftr v 4) 4) (Z.land v 0xF) = v) as ->; [|apply u16_small; lia].
  change 0xF with (Z.ones 4). rewrite <- Z.ldiff_ones_r by lia. apply Z.bits_inj'. intros n Hn.
  rewrite Z.lor_spec, Z.ldiff_spec, Z.land_spec. destruct (Z.testbit v n), (Z.testbit (Z.ones 4) n); done.
Qed.

Lemma eeprom_bytes v :
  0 <= v < 2 ^ 12 ->
  u16 (Z.lor (Z.shiftl (Z.land (Z.shiftr v 8) 0x0F) 8) (Z.land v 0xFF)) = v.
Proof.
  intros Hv. destruct (fast_value v Hv) as (_ & _ & _ & _ & H). rewrite u8_small in H.
  - rewrite H. apply u16_small. lia.
  - rewrite Z.shiftr_div_pow2 by lia. split; [apply Z.div_pos; lia|apply Z.div_lt_upper_bound; lia].
Qed.

(** The mode flags of a power-down code. *)
Definition pd_mode (pd : Z) : Z :=
  if pd =? 1 then Converter.PwrDwnR1 else if pd =? 2 then Converter.PwrDwnR2
  else if pd =? 3 then Converter.PwrDwnR3 else Converter.NormalMode.

Lemma pd_mode_status s :
  byte s ->
  (let p := Z.land s PD_MASK in
   if p =? PD_1K then Converter.PwrDwnR1 else if p =? PD_100K then Converter.PwrDwnR2
   else if p =? PD_500K then Converter.PwrDwnR3 else Converter.NormalMode) = pd_mode (field s 1 2).
Proof.
  intros Hs. assert (Hp : Z.land s PD_MASK = Z.shiftl (field s 1 2) 1).
  { apply Z.bits_inj'. intros n Hn. change PD_MASK with (Z.shiftl (Z.ones 2) 1).
    rewrite Z.land_spec, !Z.shiftl_spec by done. destruct (Z.lt_ge_cases n 1).
    - rewrite !(Z.testbit_neg_r _ (n - 1)) by lia. apply andb_false_r.
    - rewrite testbit_field, Z.testbit_ones_nonneg by lia. by replace (n - 1 + 1) with n by lia. }
  cbv zeta. rewrite Hp. pose proof (field_bound s 1 2 ltac:(lia)) as Hb.
  assert (field s 1 2 = 0 \/ field s 1 2 = 1 \/ field s 1 2 = 2 \/ field s 1 2 = 3)
    as [-> | [-> | [-> | ->]]] by lia; reflexivity.
Qed.

Lemma mode_ok_lor m p : mode_ok m -> mode_ok (Z.lor m p).
Proof. unfold mode_ok. intros H. by rewrite Z.lor_spec, H. Qed.

Lemma mcp4725_updateSetup_chip d :
  wf d -> c_ready (kern d) = true ->
  exists d', updateSetup d = (Ok true, d') /\ wf d' /\
    currentMode d' = (if modeSetByUser d then currentMode d
                      else Z.lor (currentMode d) (pd_mode (c_pd (kern d)))) /\
    value d' = (if test (currentMode d') Converter.SaveToEEPROM then c_eeprom (kern d) else c_dac (kern d)) /\
    c_dac (kern d') = c_dac (kern d) /\ c_pd (kern d') = c_pd (kern d) /\
    c_eeprom (kern d') = c_eeprom (kern d).
Proof.
  intros Hwf Hready. pose proof Hwf as [([] & _) _ Hm Hl]. unfold updateSetup. rewrite b_open.
  destruct (read_all (kern d)) as (k' & s & Hk & Hs & Hrd & Hpd & Hd & Hp & He).
  destruct (readRegisters_chip d _ k' Hwf Hk) as (d1 & H1 & Hw1 & Hr1 & Hm1 & Hu1 & Hk1).
  rewrite (M_bind_ok _ _ _ _ _ _ _ _ H1). munfold.
  assert (Hs0 : byte_at 0 (set_connected true d1) = s) by (unfold byte_at; cbn; by rewrite Hr1).
  rewrite Hs0, Hrd, Hready. cbn. rewrite Hu1, Hm1. cbv zeta in *. pose proof (pd_mode_status s Hs) as Hpm. cbv zeta in Hpm.
  rewrite Hpm, Hpd. destruct (c_bounds (kern d)) as (Hbd & _ & Hbe).
  destruct Hw1. rewrite <- Hk1 in Hd, Hp, He.
  destruct (modeSetByUser d); cbn.
  - eexists. split; [reflexivity|]. split; [by constructor|]. cbn. rewrite Hm1. split; [done|].
    split; [|done]. unfold byte_at. cbn. rewrite Hr1. cbn.
    destruct (test _ _); [by apply eeprom_bytes|by apply dac_bytes].
  - eexists. split; [reflexivity|]. split; [constructor; try done; cbn; by apply mode_ok_lor|].
    cbn. split; [done|]. split; [|done]. unfold byte_at. cbn. rewrite Hr1. cbn.
    destruct (test _ _); [by apply eeprom_bytes|by apply dac_bytes].
Qed.

End Chip.

(** ** A chip to instantiate the interface: the registers of one MCP4725 *)
Record dac_st : Type := mk_dac { s_dac : Z; s_pd : Z; s_ee : Z }.
Definition dac_kernel : Kernel := {|
  kst := dac_st;
  k_rdwr ms k :=
    match ms with
    | [KWrite _ [c; h; l]] =>
        let v := Z.lor (Z.shiftl h 4) (Z.shiftr l 4) in
        (inr [], mk_dac v (field c 1 2) (if Z.land c 0xE0 =? 0x60 then v else s_ee k))
    | [KWrite _ [b0; b1]] =>
        (inr [], mk_dac (Z.lor (Z.shiftl (Z.land b0 0x0F) 8) b1) (field b0 4 2) (s_ee k))
    | [KRead _ 5] =>
        let v := s_dac k mod 2 ^ 12 in let e := s_ee k mod 2 ^ 12 in
        (inr [[Z.lor READY (Z.shiftl (s_pd k mod 4) 1); Z.shiftr v 4; Z.shiftl (Z.land v 0xF) 4;
               Z.shiftr e 8; Z.land e 0xFF]], k)
    | _ => (inl 121, k)
    end;
  k_open _ _ k := (inr 3, k);
  k_close _ k := (None, k);
  k_funcs _ k := (inr 1, k) |}.

#[export] Instance dac_kernel_ok : KernelOk dac_kernel.
Proof. constructor; intros ms k x k'; cbn; intros H; repeat case_match; simplify_eq/=; done. Qed.

Lemma lor_bound x y n : 0 <= n -> 0 <= x < 2 ^ n -> 0 <= y < 2 ^ n -> 0 <= Z.lor x y < 2 ^ n.
Proof.
  intros Hn Hx Hy. assert (0 <= Z.lor x y) by (apply Z.lor_nonneg; lia). split; [done|].
  apply bits_bound; [done|done|]. intros m Hm.
  by rewrite Z.lor_spec, (testbit_high x n), (testbit_high y n).
Qed.

Lemma shl_bound x n k : 0 <= k -> 0 <= n -> 0 <= x < 2 ^ n -> 0 <= Z.shiftl x k < 2 ^ (n + k).
Proof. intros Hk Hn Hx. rewrite Z.shiftl_mul_pow2, Z.pow_add_r by done. nia. Qed.

Lemma shr_bound x n k : 0 <= k -> 0 <= n -> 0 <= x < 2 ^ n -> 0 <= Z.shiftr x k < 2 ^ n.
Proof.
  intros Hk Hn Hx. rewrite Z.shiftr_div_pow2 by done. split; [apply Z.div_pos; lia|].
  apply Z.div_lt_upper_bound; [lia|]. nia.
Qed.

#[export] Instance dac_kernel_chip a : Mcp4725Chip dac_kernel a.
Proof.
  refine {| c_dac (k : @kst dac_kernel) := s_dac k mod 2 ^ 12; c_pd (k : @kst dac_kernel) := s_pd k mod 4;
            c_eeprom (k : @kst dac_kernel) := s_ee k mod 2 ^ 12; c_ready _ := true |}.
  - intros k. split; [|split]; apply Z.mod_pos_bound; lia.
  - intros k c h l Hc Hh Hl Hw. eexists. split; [reflexivity|]. cbn. rewrite Hw.
    split; [|split; [apply Z.mod_small, (field_bound c 1 2); lia|done]].
    apply Z.mod_small. apply (lor_bound _ _ 12); [lia|by apply (shl_bound h 8 4)|].
    pose proof (shr_bound l 8 4). unfold byte in *. lia.
  - intros k b0 b1 H0 H1 Hw. eexists. split; [reflexivity|]. cbn.
    split; [|split; [apply Z.mod_small, (field_bound b0 4 2); lia|done]].
    apply Z.mod_small. apply (lor_bound _ _ 12); [lia| |unfold byte in *; lia].
    apply (shl_bound _ 4 8); [lia..|]. change 0x0F with (Z.ones 4). rewrite Z.land_ones by lia.
    apply Z.mod_pos_bound. lia.
  - intros k. eexists k, _. split; [reflexivity|]. pose proof (Z.mod_pos_bound (s_pd k) 4 ltac:(lia)) as Hb.
    generalize dependent (s_pd k mod 4). intros p Hp.
    assert (p = 0 \/ p = 1 \/ p = 2 \/ p = 3) as [-> | [-> | [-> | ->]]] by lia; by repeat split.
Defined.

Definition demo_new : @mcp4725 dac_kernel :=
  new (@I2cDev.new dac_kernel (replicate 32 0) (replicate 32 0) 0 (mk_dac 2048 0 100)) DefaultAddress.
Definition demo_dev : @mcp4725 dac_kernel := (open IoDevice.ReadWrite demo_new).2.

Lemma mcp4725_demo_wf : wf (a := 0x60) demo_dev.
Proof.
  constructor; [|by vm_compute..].
  split; [|by vm_compute]. constructor; try by vm_compute; constructor; by vm_compute.
Qed.

(** A write sets the output: for every 12-bit value and every mode, in
    either frame format, the chip's DAC register becomes the value written and
    the driver remembers it.  The EEPROM is never written, not even in
    [SaveToEEPROM] mode, and the power-down bits follow the mode in the normal
    format but are always cleared in the fast one. *)
Theorem mcp4725_write_exact {K : Kernel} {KOK : KernelOk K} {a : Z} {C : Mcp4725Chip K a}
    (d : mcp4725) (v c : Z) (df : bool) :
  wf (a := a) d -> 0 <= v < 2 ^ 12 ->
  exists d', writeChannel v c df d = (Ok true, d') /\ wf (a := a) d' /\ value d' = v /\
    currentMode d' = currentMode d /\ c_dac (I2cDev.kernel (i2c d')) = v /\
    c_eeprom (I2cDev.kernel (i2c d')) = c_eeprom (I2cDev.kernel (i2c d)) /\
    c_pd (I2cDev.kernel (i2c d')) =
      if test (currentMode d) Converter.FastMode then 0 else pd_code (currentMode d).
Proof. apply mcp4725_writeChannel_chip. Qed.

Lemma mcp4725_write_exact_witness :
  exists d', writeChannel 0xABC 0 false demo_dev = (Ok true, d') /\ wf (a := 0x60) d' /\ value d' = 0xABC /\
    currentMode d' = currentMode demo_dev /\ c_dac (a := 0x60) (I2cDev.kernel (i2c d')) = 0xABC /\
    c_eeprom (a := 0x60) (I2cDev.kernel (i2c d')) = c_eeprom (a := 0x60) (I2cDev.kernel (i2c demo_dev)) /\
    c_pd (a := 0x60) (I2cDev.kernel (i2c d')) =
      if test (currentMode demo_dev) Converter.FastMode then 0 else pd_code (currentMode demo_dev).
Proof. apply (mcp4725_write_exact (a := 0x60) demo_dev 0xABC 0 false mcp4725_demo_wf). lia. Defined.

(** What was written is read back: writing a value, in any mode but
    [SaveToEEPROM], and reading the registers again gives the same value, and a
    mode the user chose survives. *)
Theorem mcp4725_write_read_back {K : Kernel} {KOK : KernelOk K} {a : Z} {C : Mcp4725Chip K a}
    (d : mcp4725) (v c : Z) (df : bool) :
  wf (a := a) d -> 0 <= v < 2 ^ 12 -> (forall k, c_ready k = true) ->
  test (currentMode d) Converter.SaveToEEPROM = false ->
  exists d1 d2, writeChannel v c df d = (Ok true, d1) /\ updateSetup d1 = (Ok true, d2) /\
    wf (a := a) d2 /\ value d2 = v /\ (modeSetByUser d1 = true -> currentMode d2 = currentMode d).
Proof.
  intros Hwf Hv Hr Hm.
  destruct (mcp4725_writeChannel_chip d v c df Hwf Hv) as (d1 & H1 & Hw1 & _ & Hm1 & Hd1 & _ & _).
  destruct (mcp4725_updateSetup_chip d1 Hw1 (Hr _)) as (d2 & H2 & Hw2 & Hm2 & Hv2 & _).
  exists d1, d2. do 3 (split; [done|]). rewrite Hv2, Hd1, Hm2, Hm1.
  split; [|intros ->; done]. destruct (modeSetByUser d1); [by rewrite Hm|].
  assert (test (Z.lor (currentMode d) (pd_mode (c_pd (I2cDev.kernel (i2c d1))))) Converter.SaveToEEPROM = false)
    as ->; [|done].
  revert Hm. unfold test, to_bool. rewrite Z.land_lor_distr_l.
  assert (Z.land (pd_mode (c_pd (I2cDev.kernel (i2c d1)))) Converter.SaveToEEPROM = 0) as ->; [|by rewrite Z.lor_0_r].
  unfold pd_mode. repeat case_match; done.
Qed.

Lemma mcp4725_write_read_back_witness :
  exists d1 d2, writeChannel 77 0 false demo_dev = (Ok true, d1) /\ updateSetup d1 = (Ok true, d2) /\
    wf (a := 0x60) d2 /\ value d2 = 77 /\ (modeSetByUser d1 = true -> currentMode d2 = currentMode demo_dev).
Proof.
  apply (mcp4725_write_read_back (a := 0x60) demo_dev 77 0 false mcp4725_demo_wf); [lia|done|by vm_compute].
Defined.

End Mcp4725.
