(* ===== verification/Mmio.v ===== *)
(** * Memory-mapped registers, src/iomap.cpp and include/piduino/iomap.h

    [IoMap] maps a window of physical memory through a device file; the system
    calls it makes are the interface [MapOs].  A driver then reads and writes
    32-bit registers at word offsets of the window: the registers are the
    interface [Device], and an access outside an open window is undefined.  The
    enumerations of [Pin] that the drivers share are in module [Pin]. *)
From S2P Require Import Prelude.

Module Pin.

Inductive mode : Type :=
  | ModeInput | ModeOutput | ModeDisabled | ModePwm
  | ModeAlt0 | ModeAlt1 | ModeAlt2 | ModeAlt3 | ModeAlt4 | ModeAlt5 | ModeAlt6 | ModeAlt7 | ModeAlt8
  | ModeAlt9 | ModeUnknown.
Inductive pull : Type := PullOff | PullDown | PullUp | PullUnknown.

#[export] Instance mode_eq_dec : EqDecision mode.
Proof. solve_decision. Defined.
#[export] Instance pull_eq_dec : EqDecision pull.
Proof. solve_decision. Defined.

(** [std::map::at] on a table; the first of two equal keys counts, as in a
    [std::map] built from an initialiser list. *)
Fixpoint tab {A B} `{EqDecision A} (t : list (A * B)) (k : A) : option B :=
  match t with
  | [] => None
  | (a, b) :: t' => if decide (a = k) then Some b else tab t' k
  end.

End Pin.

(** ** The mapping *)
Class MapOs : Type := {
  os : Type;
  sys_open : string -> os -> (Z + Z) * os;
  sys_mmap : Z -> Z -> Z -> os -> option Z * os;
  sys_munmap : Z -> os -> option Z * os;
  sys_close : Z -> os -> option Z * os }.

(** [open] returns a descriptor that is not negative. *)
Class MapOsOk (O : MapOs) : Prop := {
  open_fd : forall f o n o', sys_open f o = (inr n, o') -> 0 <= n;
  munmap_empty : forall o, exists e o', sys_munmap 0 o = (Some e, o') }.

Module IoMap.

(** [_map]: null, [MAP_FAILED], or a mapping. *)
Inductive mapping : Type := Null | Failed | Mapped.

Section IoMap.
Context {O : MapOs}.

Record iomap : Type := mk_iomap { base : Z; size : Z; fd : Z; map : mapping; sys : os }.

Definition new (o : os) : iomap := mk_iomap 0 0 (-1) Null o.

Definition isOpen (m : iomap) : bool := 0 <=? fd m.

Definition set_sys (o : os) (m : iomap) : iomap := mk_iomap (base m) (size m) (fd m) (map m) o.

Definition close : M iomap unit := fun m =>
  if isOpen m then
    match sys_munmap (size m) (sys m) with
    | (Some e, o) => (Throw (SystemError e), set_sys o m)
    | (None, o) =>
        match sys_close (fd m) o with
        | (Some e, o) => (Throw (SystemError e), set_sys o m)
        | (None, o) => (Ok tt, mk_iomap 0 0 (-1) Null o)
        end
    end
  else (Ok tt, m).

(** [open (device, s, b)] after its [close]; a failed [::open] returned -1. *)
Definition map_device (device : string) (s b : Z) : M iomap bool := fun m =>
  match sys_open device (sys m) with
  | (inl e, o) => (Throw (SystemError e), mk_iomap (base m) (size m) (-1) (map m) o)
  | (inr n, o) =>
      match sys_mmap s n b o with
      | (Some e, o) => (Throw (SystemError e), mk_iomap (base m) (size m) n Failed o)
      | (None, o) => let m := mk_iomap b s n Mapped o in (Ok (isOpen m), m)
      end
  end.

Definition open_device (device : string) (s b : Z) : M iomap bool := close;; map_device device s b.

Definition open (b s : Z) : M iomap bool := open_device "/dev/mem" s b.

(** The window an access goes through, in bytes. *)
Definition window (m : iomap) : Z := match map m with Mapped => size m | _ => 0 end.

End IoMap.

(** A failed mapping leaves an object that says it is open: when [mmap]
    fails, [open] throws with the descriptor still recorded, [isOpen] is true
    although no register can be accessed, and every later [close], the
    destructor's included, throws again without releasing the descriptor. *)
Theorem iomap_failed_open_stuck {O : MapOs} {OK : MapOsOk O} (o o1 o2 : os) (dev : string) (s b n e : Z) :
  sys_open dev o = (inr n, o1) -> sys_mmap s n b o1 = (Some e, o2) ->
  exists m, open_device dev s b (new o) = (Throw (SystemError e), m) /\ isOpen m = true /\ window m = 0 /\
    exists e' m', close m = (Throw (SystemError e'), m') /\ isOpen m' = true /\ fd m' = n.
Proof.
  intros Ho Hm. pose proof (open_fd _ _ _ _ Ho) as Hn.
  assert (Hopen : (0 <=? n) = true) by (by apply Z.leb_le).
  exists (mk_iomap 0 0 n Failed o2). unfold open_device, map_device. munfold.
  change (close (new o)) with (Ok tt, new o). cbn. rewrite Ho, Hm.
  split; [done|]. split; [done|]. split; [done|]. unfold close. unfold isOpen at 1. cbn. rewrite Hopen.
  destruct (munmap_empty o2) as (e' & o' & ->). by exists e'; eexists.
Qed.

(** A mapping that the system grants. *)
Lemma open_device_mapped {O : MapOs} {OK : MapOsOk O} (m : iomap) (o1 o2 : os) (dev : string) (s b n : Z) :
  isOpen m = false -> sys_open dev (sys m) = (inr n, o1) -> sys_mmap s n b o1 = (None, o2) ->
  open_device dev s b m = (Ok true, mk_iomap b s n Mapped o2).
Proof.
  intros Hc Ho Hm. pose proof (open_fd _ _ _ _ Ho) as Hn. unfold open_device, close, map_device. munfold.
  rewrite Hc, Ho, Hm. unfold isOpen. cbn. by rewrite (proj2 (Z.leb_le 0 n) Hn).
Qed.

(** A system where every file opens as descriptor 4 and no mapping succeeds. *)
Definition no_mmap : MapOs := {|
  os := unit;
  sys_open _ o := (inr 4, o);
  sys_mmap _ _ _ o := (Some 1, o);
  sys_munmap s o := (if s =? 0 then Some 22 else None, o);
  sys_close _ o := (None, o) |}.

#[export] Instance no_mmap_ok : MapOsOk no_mmap.
Proof.
  constructor.
  - intros f o n o' H. cbn in H. injection H as <- _. lia.
  - intros o. by exists 22, o.
Qed.

(** The same system with mappings that succeed. *)
Definition with_mmap : MapOs := {|
  os := unit;
  sys_open _ o := (inr 4, o);
  sys_mmap _ _ _ o := (None, o);
  sys_munmap s o := (if s =? 0 then Some 22 else None, o);
  sys_close _ o := (None, o) |}.

#[export] Instance with_mmap_ok : MapOsOk with_mmap.
Proof.
  constructor.
  - intros f o n o' H. cbn in H. injection H as <- _. lia.
  - intros o. by exists 22, o.
Qed.

Lemma iomap_failed_open_stuck_witness :
  exists m, @open_device no_mmap "/dev/mem" 4096 0 (@new no_mmap tt) = (Throw (SystemError 1), m) /\
    isOpen m = true /\ window m = 0 /\
    exists e' m', close m = (Throw (SystemError e'), m') /\ isOpen m' = true /\ fd m' = 4.
Proof.
  exact (@iomap_failed_open_stuck no_mmap no_mmap_ok tt tt tt "/dev/mem" 4096 0 4 1 eq_refl eq_refl).
Defined.

End IoMap.

(** ** Registers *)
Class Device : Type := {
  hw : Type;
  hw_read : Z -> hw -> Z;
  hw_write : Z -> Z -> hw -> hw;
  hw_word : forall o s, 0 <= hw_read o s < 2 ^ 32 }.
#[export] Hint Resolve hw_word : piduino.

Module Mmio.
Section Mmio.
Context {O : MapOs} {D : Device}.

(** The mapping of a driver and the registers behind it. *)
Record io : Type := mk_io { im : IoMap.iomap; regs : hw }.

Definition set_im (m : IoMap.iomap) (s : io) : io := mk_io m (regs s).
Definition set_regs (r : hw) (s : io) : io := mk_io (im s) r.

Definition in_window (offset : Z) (s : io) : bool :=
  (0 <=? offset) && (4 * offset + 4 <=? IoMap.window (im s)).

Definition atomicRead (offset : Z) : M io Z := fun s =>
  if in_window offset s then (Ok (hw_read offset (regs s)), s) else (Throw UB, s).

Definition atomicWrite (offset value : Z) : M io unit := fun s =>
  if in_window offset s then (Ok tt, set_regs (hw_write offset (u32 value) (regs s)) s)
  else (Throw UB, s).

(** A shift count of a 32-bit operand. *)
Definition shift (n : Z) : M io Z := if (0 <=? n) && (n <? 32) then mret n else throw UB.

(** [1 << g] as a register value. *)
Definition bit32 (g : Z) : M io Z := n ← shift g; mret (Z.shiftl 1 n).

(** [GpioDevice::toggle], for a device that does not redefine it. *)
Definition toggle (read : M io bool) (write : bool -> M io unit) : M io unit := v ← read; write (negb v).

Lemma in_window_ok o s : 0 <= o -> 4 * o + 4 <= IoMap.window (im s) -> in_window o s = true.
Proof.
  intros. unfold in_window. rewrite andb_true_iff, !Z.leb_le. lia.
Qed.

Lemma atomicRead_bind {A} (k : Z -> M io A) o s :
  in_window o s = true -> (atomicRead o ≫= k) s = k (hw_read o (regs s)) s.
Proof. intros H. apply M_bind_ok. unfold atomicRead. by rewrite H. Qed.

Lemma atomicWrite_ok o v s :
  in_window o s = true -> 0 <= v < 2 ^ 32 -> atomicWrite o v s = (Ok tt, set_regs (hw_write o v (regs s)) s).
Proof. intros H Hv. unfold atomicWrite. by rewrite H, u32_small. Qed.

Lemma atomicWrite_bind {A} (k : unit -> M io A) o v s :
  in_window o s = true -> 0 <= v < 2 ^ 32 ->
  (atomicWrite o v ≫= k) s = k tt (set_regs (hw_write o v (regs s)) s).
Proof. intros H Hv. by apply M_bind_ok, atomicWrite_ok. Qed.

Lemma bit32_bound g : 0 <= g < 32 -> 0 <= 2 ^ g < 2 ^ 32.
Proof. intros Hg. split; [lia|]. apply Z.pow_lt_mono_r; lia. Qed.

Lemma shift_bind {A} (k : Z -> M io A) n s : 0 <= n < 32 -> (shift n ≫= k) s = k n s.
Proof.
  intros Hn. unfold shift. by rewrite (proj2 (Z.leb_le 0 n)), (proj2 (Z.ltb_lt n 32)) by lia.
Qed.

Lemma bit32_bind {A} (k : Z -> M io A) g s : 0 <= g < 32 -> (bit32 g ≫= k) s = k (2 ^ g) s.
Proof.
  intros Hg. apply M_bind_ok. unfold bit32. rewrite shift_bind by done. by rewrite Z.shiftl_1_l.
Qed.

(** The source's [(r & ~(mask << sh)) | (v << sh)] on a 32-bit register. *)
Lemma rmw_field r sh w v :
  0 <= r < 2 ^ 32 -> 0 <= sh -> 0 <= w -> sh + w <= 32 -> 0 <= v < 2 ^ w ->
  Z.lor (Z.land r (u32 (Z.lnot (Z.shiftl (Z.ones w) sh)))) (u32 (Z.shiftl v sh)) = set_field r sh w v /\
  0 <= set_field r sh w v < 2 ^ 32.
Proof.
  intros Hr Hsh Hw Hk Hv. split; [|by apply set_field_bound].
  unfold set_field. f_equal.
  - by apply land_not_ldiff.
  - apply u32_small. rewrite Z.shiftl_mul_pow2 by done. split; [lia|].
    apply Z.lt_le_trans with (2 ^ w * 2 ^ sh); [nia|]. rewrite <- Z.pow_add_r by done.
    apply Z.pow_le_mono_r; lia.
Qed.

(** [(r & (1 << g)) != 0] *)
Lemma land_bit r g : 0 <= g -> negb (Z.land r (2 ^ g) =? 0) = Z.testbit r g.
Proof.
  intros Hg. destruct (Z.testbit r g) eqn:Hb.
  - destruct (Z.eqb_spec (Z.land r (2 ^ g)) 0) as [H0|]; [|done].
    assert (Z.testbit (Z.land r (2 ^ g)) g = false) as H by (rewrite H0; apply Z.bits_0).
    by rewrite Z.land_spec, Hb, Z.pow2_bits_true in H.
  - replace (Z.land r (2 ^ g)) with 0; [done|]. symmetry. apply Z.bits_inj'. intros n Hn.
    rewrite Z.land_spec, Z.bits_0, Z.pow2_bits_eqb by done.
    destruct (Z.eqb_spec g n) as [->|]; [by rewrite Hb|apply andb_false_r].
Qed.

End Mmio.
End Mmio.

(** ** What every GPIO driver keeps, [GpioDevice::Private] *)
Module GpioDevice.
Section GpioDevice.
Context {O : MapOs} {D : Device}.

Record gpio : Type := mk_gpio { isopen : bool; dev : Mmio.io }.

Definition is_open (s : gpio) : bool := isopen s.
Definition set_isopen (b : bool) (s : gpio) : gpio := mk_gpio b (dev s).
Definition set_dev (d : Mmio.io) (s : gpio) : gpio := mk_gpio (isopen s) d.

(** An operation of the member [iomap]. *)
Definition on_map {A} (m : M IoMap.iomap A) : M gpio A :=
  zoom dev set_dev (zoom Mmio.im Mmio.set_im m).

End GpioDevice.
End GpioDevice.
