(* ===== verification/GpioBcm2835.v ===== *)
(** * The GPIO driver of the Broadcom BCM2708..2711, gpio_bcm2835.cpp

    The register block is the interface [Bcm2835Regs] (function select, set,
    clear and level registers), [Bcm2835Pud] (the clocked pull control of the
    older chips) and [Bcm2711Pull] (the pull registers of the BCM2711); their
    laws are the behaviour the peripherals manual gives. *)
From S2P Require Import Prelude Mmio.
Import Pin Mmio.

Module Bcm2835.

Definition GpioSize : Z := 54.
Definition PioOffset : Z := 0x200000.
Definition MapBlockSize : Z := 4 * 1024.
Definition GFPSEL0 : Z := 0.
Definition GPSET0 : Z := 7.
Definition GPCLR0 : Z := 10.
Definition GPLEV0 : Z := 13.
Definition GPPUD : Z := 37.
Definition GPPUDCLK0 : Z := 38.
Definition GPPUPPDN0 : Z := 57.

Definition int2mode : list (Z * mode) :=
  [(0, ModeInput); (1, ModeOutput); (4, ModeAlt0); (5, ModeAlt1); (6, ModeAlt2); (7, ModeAlt3);
   (3, ModeAlt4); (2, ModeAlt5)].

Definition mode2int : list (mode * Z) :=
  [(ModeInput, 0); (ModeOutput, 1); (ModeAlt0, 4); (ModeAlt1, 5); (ModeAlt2, 6); (ModeAlt3, 7);
   (ModeAlt4, 3); (ModeAlt5, 2)].

Section Driver.
Context {O : MapOs} {D : Device} (is2711 : bool).

Definition hasAltRead : Z := 4.
Definition hasPullRead : Z := 2.

Definition flags : Z := Z.lor hasAltRead (if is2711 then hasPullRead else 0).

Definition open (piobase : Z) : M GpioDevice.gpio bool :=
  o ← gets GpioDevice.is_open;
  (if (o : bool) then mret tt
   else GpioDevice.on_map (IoMap.open piobase MapBlockSize);; modify (GpioDevice.set_isopen true));;
  gets GpioDevice.is_open.

Definition close : M GpioDevice.gpio unit :=
  o ← gets GpioDevice.is_open;
  if (o : bool) then GpioDevice.on_map IoMap.close;; modify (GpioDevice.set_isopen false) else mret tt.

(** The alternate functions that carry the PWM outputs. *)
Definition is_pwm (m : mode) (g : Z) : bool :=
  (bool_decide (m = ModeAlt0) && ((g =? 12) || (g =? 13))) ||
  (bool_decide (m = ModeAlt5) && ((g =? 18) || (g =? 19))).

Definition mode_of (g : Z) : M io mode :=
  r ← atomicRead (u64 (GFPSEL0 + Z.quot g 10));
  n ← shift (Z.rem g 10 * 3);
  m ← at_map (tab int2mode (Z.land (Z.shiftr r n) 7));
  mret (if is_pwm m g then ModePwm else m).

Definition pwm_function (g : Z) (m : mode) : M io mode :=
  if bool_decide (m = ModePwm) then
    if (g =? 12) || (g =? 13) then mret ModeAlt0
    else if (g =? 18) || (g =? 19) then mret ModeAlt5
    else throw InvalidArgument
  else mret m.

Definition setMode (g : Z) (m : mode) : M io unit :=
  m ← pwm_function g m;
  let offset := u32 (GFPSEL0 + Z.quot g 10) in
  rval ← atomicRead offset;
  lsr ← shift (u32 (Z.rem g 10 * 3));
  mval ← at_map (tab mode2int m);
  atomicWrite offset (Z.lor (Z.land rval (u32 (Z.lnot (Z.shiftl 7 lsr)))) (u32 (Z.shiftl mval lsr))).

Definition pull_of (g : Z) : M io pull :=
  if is2711 then
    r ← atomicRead (u64 (GPPUPPDN0 + Z.shiftr g 4));
    mret (match Z.land (Z.shiftr r (Z.shiftl (Z.land g 0xf) 1)) 3 with
          | 0 => PullOff | 2 => PullDown | 1 => PullUp | _ => PullUnknown
          end)
  else mret PullUnknown.

(** The two encodings of a pull; the other values leave the function early. *)
Definition pval_2711 (p : pull) : option Z :=
  match p with PullOff => Some 0 | PullUp => Some 1 | PullDown => Some 2 | PullUnknown => None end.
Definition pval_pud (p : pull) : option Z :=
  match p with PullOff => Some 0 | PullDown => Some 1 | PullUp => Some 2 | PullUnknown => None end.

Definition bank (g r : Z) : Z * Z := if 31 <? g then (g - 32, r + 1) else (g, r).

Definition setPull (g : Z) (p : pull) : M io unit :=
  if is2711 then
    match pval_2711 p with
    | None => mret tt
    | Some pval =>
        let r := u64 (GPPUPPDN0 + Z.shiftr g 4) in
        let pullshift := Z.shiftl (Z.land g 0xf) 1 in
        pullbits ← atomicRead r;
        atomicWrite r (Z.lor (Z.land pullbits (u32 (Z.lnot (Z.shiftl 3 pullshift)))) (u32 (Z.shiftl pval pullshift)))
    end
  else
    match pval_pud p with
    | None => mret tt
    | Some pval =>
        let '(g, pclk) := bank g GPPUDCLK0 in
        atomicWrite GPPUD pval;;
        b ← bit32 g;
        atomicWrite pclk b;;
        atomicWrite GPPUD 0;;
        atomicWrite pclk 0
    end.

Definition write (g : Z) (v : bool) : M io unit :=
  let '(g, offset) := bank g (if v then GPSET0 else GPCLR0) in
  b ← bit32 g; atomicWrite offset b.

Definition read (g : Z) : M io bool :=
  let '(g, offset) := bank g GPLEV0 in
  r ← atomicRead offset; b ← bit32 g; mret (negb (Z.land r b =? 0)).

End Driver.

(** ** The registers *)
(** The function select field of a pin, and its pull field on a BCM2711. *)
Definition fsel {D : Device} (g : Z) (s : hw) : Z := field (hw_read (GFPSEL0 + g / 10) s) (g mod 10 * 3) 3.
Definition pupd {D : Device} (g : Z) (s : hw) : Z := field (hw_read (GPPUPPDN0 + g / 16) s) (g mod 16 * 2) 2.

(** A write to [GPSETn] or [GPCLRn] drives the latches whose bit is one, no
    other write does; a pin selected as an output shows its latch, and [GPLEVn]
    shows the level of every pin; function select fields hold what is written. *)
Class Bcm2835Regs (D : Device) : Type := {
  latch : Z -> hw -> bool;
  level : Z -> hw -> bool;
  fsel_write : forall g o v s, 0 <= g < GpioSize -> 0 <= v < 2 ^ 32 ->
    fsel g (hw_write o v s) = if o =? GFPSEL0 + g / 10 then field v (g mod 10 * 3) 3 else fsel g s;
  latch_write : forall g o v s, 0 <= g < GpioSize ->
    latch g (hw_write o v s) =
      if (o =? GPSET0 + g / 32) && Z.testbit v (g mod 32) then true
      else if (o =? GPCLR0 + g / 32) && Z.testbit v (g mod 32) then false else latch g s;
  level_read : forall g s, 0 <= g < GpioSize ->
    Z.testbit (hw_read (GPLEV0 + g / 32) s) (g mod 32) = level g s;
  level_output : forall g s, 0 <= g < GpioSize -> fsel g s = 1 -> level g s = latch g s }.

(** The clocked control: [GPPUD] holds the control signal and a write to
    [GPPUDCLKn] clocks it into the pads whose bit is one. *)
Class Bcm2835Pud (D : Device) : Type := {
  pud : hw -> Z;
  pad_pull : Z -> hw -> Z;
  pud_write : forall o v s, 0 <= v < 2 ^ 32 -> pud (hw_write o v s) = if o =? GPPUD then v mod 4 else pud s;
  pull_write : forall g o v s, 0 <= g < GpioSize ->
    pad_pull g (hw_write o v s) =
      if (o =? GPPUDCLK0 + g / 32) && Z.testbit v (g mod 32) then pud s else pad_pull g s }.

(** The BCM2711 has a two-bit field per pin instead. *)
Class Bcm2711Pull (D : Device) : Prop := {
  pupd_write : forall g o v s, 0 <= g < GpioSize -> 0 <= v < 2 ^ 32 ->
    pupd g (hw_write o v s) = if o =? GPPUPPDN0 + g / 16 then field v (g mod 16 * 2) 2 else pupd g s }.

(** ** The driver on open registers *)
Section Proofs.
Context {O : MapOs} {D : Device} {R : Bcm2835Regs D}.

Definition mapped (s : io) : Prop := IoMap.window (im s) = MapBlockSize.

Lemma mapped_reg o s : mapped s -> 0 <= o < 1024 -> in_window o s = true.
Proof. intros Hm Ho. unfold mapped, MapBlockSize in Hm. apply in_window_ok; lia. Qed.

(** [open] establishes what the theorems below ask for. *)
Lemma bcm_open_mapped {OK : MapOsOk O} (s : GpioDevice.gpio) (o1 o2 : os) (piobase n : Z) :
  GpioDevice.isopen s = false -> IoMap.isOpen (im (GpioDevice.dev s)) = false ->
  sys_open "/dev/mem" (IoMap.sys (im (GpioDevice.dev s))) = (inr n, o1) ->
  sys_mmap MapBlockSize n piobase o1 = (None, o2) ->
  exists s', open piobase s = (Ok true, s') /\ GpioDevice.isopen s' = true /\ mapped (GpioDevice.dev s').
Proof.
  intros Hc Hm Ho Hp. pose proof (IoMap.open_device_mapped _ _ _ _ _ _ _ Hm Ho Hp) as Hd.
  unfold open, GpioDevice.on_map, IoMap.open, zoom. munfold. unfold GpioDevice.is_open.
  rewrite Hc, Hd. eexists. split; [reflexivity|]. by split.
Qed.

Lemma fsel_place g : 0 <= g < GpioSize ->
  Z.quot g 10 = g / 10 /\ Z.rem g 10 = g mod 10 /\ 0 <= g / 10 < 6 /\ 0 <= g mod 10 < 10.
Proof.
  unfold GpioSize. intros Hg. rewrite Z.quot_div_nonneg, Z.rem_mod_nonneg by lia.
  split; [done|]. split; [done|]. split; [|by apply Z.mod_pos_bound].
  split; [apply Z.div_pos; lia|]. apply Z.div_lt_upper_bound; lia.
Qed.

(** [mode] decodes the pin's function select field. *)
Lemma bcm_mode_of_eq g s : mapped s -> 0 <= g < GpioSize ->
  mode_of g s = match tab int2mode (fsel g (regs s)) with
                | Some m => (Ok (if is_pwm m g then ModePwm else m), s)
                | None => (Throw OutOfRange, s)
                end.
Proof.
  intros Hm Hg. destruct (fsel_place g Hg) as (Hq & Hr & Hd & Hmod). unfold mode_of.
  rewrite Hq, Hr, u64_small by (unfold GFPSEL0; lia).
  rewrite atomicRead_bind by (apply mapped_reg; [done|unfold GFPSEL0; lia]).
  rewrite shift_bind by lia. fold (fsel g (regs s)). unfold fsel, field.
  change (Z.ones 3) with 7. by destruct (tab int2mode _).
Qed.

(** The modes a pin can be given, and the one it then reports. *)
Definition settable (g : Z) (m : mode) : bool :=
  match m with
  | ModePwm => (g =? 12) || (g =? 13) || (g =? 18) || (g =? 19)
  | ModeDisabled | ModeAlt6 | ModeAlt7 | ModeAlt8 | ModeAlt9 | ModeUnknown => false
  | _ => true
  end.
Definition reported (g : Z) (m : mode) : mode := if is_pwm m g then ModePwm else m.

(** The code [setMode] writes reads back as the mode that was asked for. *)
Lemma bcm_setMode_code g m s : settable g m = true ->
  exists m' c, pwm_function g m s = (Ok m', s) /\ tab mode2int m' = Some c /\ 0 <= c < 2 ^ 3 /\
    tab int2mode c = Some m' /\ (if is_pwm m' g then ModePwm else m') = reported g m.
Proof.
  intros Hs. unfold pwm_function, reported.
  destruct m; try discriminate Hs; cbn [settable] in Hs |- *;
    try (eexists _, _; split; [reflexivity|]; split; [reflexivity|]; split; [lia|]; by split).
  case_bool_decide; [|done]. destruct ((g =? 12) || (g =? 13)) eqn:H1.
  - exists ModeAlt0, 4. do 3 (split; [done|]). split; [done|]. unfold is_pwm. by rewrite H1.
  - assert (H2 : (g =? 18) || (g =? 19) = true).
    { revert Hs H1. by destruct (g =? 12), (g =? 13). }
    rewrite H2.
    exists ModeAlt5, 2. do 3 (split; [done|]). split; [done|]. unfold is_pwm. by rewrite H2.
Qed.

(** [setMode] replaces the pin's function select field. *)
Lemma bcm_setMode_eq g m m' c s : mapped s -> 0 <= g < GpioSize ->
  pwm_function g m s = (Ok m', s) -> tab mode2int m' = Some c -> 0 <= c < 2 ^ 3 ->
  exists v, setMode g m s = (Ok tt, set_regs (hw_write (GFPSEL0 + g / 10) v (regs s)) s) /\ 0 <= v < 2 ^ 32 /\
    v = set_field (hw_read (GFPSEL0 + g / 10) (regs s)) (g mod 10 * 3) 3 c.
Proof.
  intros Hm Hg Hp Hc Hb. destruct (fsel_place g Hg) as (Hq & Hr & Hd & Hmod).
  destruct (rmw_field (hw_read (GFPSEL0 + g / 10) (regs s)) (g mod 10 * 3) 3 c) as [Hv Hvb];
    [auto with piduino|lia..|].
  eexists. split; [|by split]. unfold setMode.
  rewrite (M_bind_ok _ _ _ _ _ _ _ _ Hp), Hq, Hr, !u32_small by (unfold GFPSEL0; lia).
  assert (Hw : in_window (GFPSEL0 + g / 10) s = true) by (apply mapped_reg; [done|unfold GFPSEL0; lia]).
  rewrite atomicRead_bind, shift_bind by (done || lia). rewrite Hc.
  change 7 with (Z.ones 3). cbn [at_map]. rewrite <- Hv. by apply atomicWrite_ok; rewrite ?Hv.
Qed.

Lemma bcm_setMode_refused g m s : mapped s -> 0 <= g < GpioSize -> settable g m = false ->
  exists e, setMode g m s = (Throw e, s) /\ e = if bool_decide (m = ModePwm) then InvalidArgument else OutOfRange.
Proof.
  intros Hm Hg Hs. destruct (fsel_place g Hg) as (Hq & Hr & Hd & Hmod). eexists. split; [|done].
  unfold setMode. destruct (decide (m = ModePwm)) as [->|Hne].
  - cbn [settable] in Hs. apply M_bind_throw. unfold pwm_function. cbn [bool_decide decide].
    revert Hs. by destruct (g =? 12), (g =? 13), (g =? 18), (g =? 19).
  - rewrite (bool_decide_eq_false_2 (m = ModePwm)) by done.
    assert (pwm_function g m s = (Ok m, s)) as Hp
      by (unfold pwm_function; by rewrite (bool_decide_eq_false_2 (m = ModePwm))).
    rewrite (M_bind_ok _ _ _ _ _ _ _ _ Hp), Hq, Hr, !u32_small by (unfold GFPSEL0; lia).
    rewrite atomicRead_bind, shift_bind by (apply mapped_reg; [done|unfold GFPSEL0; lia]) || lia.
    by destruct m.
Qed.

(** Two pins of one register have disjoint fields. *)
Lemma field_apart g g' n w : 0 < n -> 0 <= w -> g' <> g -> g' / n = g / n ->
  g' mod n * w + w <= g mod n * w \/ g mod n * w + w <= g' mod n * w.
Proof.
  intros Hn Hw Hne Hd. pose proof (Z.div_mod g n) as H1. pose proof (Z.div_mod g' n) as H2.
  rewrite Hd in H2. assert (g' mod n < g mod n \/ g mod n < g' mod n) as [|] by lia; nia.
Qed.

Lemma fsel_setMode g g' c s :
  0 <= g < GpioSize -> 0 <= g' < GpioSize -> 0 <= c < 2 ^ 3 ->
  fsel g' (hw_write (GFPSEL0 + g / 10) (set_field (hw_read (GFPSEL0 + g / 10) s) (g mod 10 * 3) 3 c) s) =
  if g' =? g then c else fsel g' s.
Proof.
  intros Hg Hg' Hc. destruct (fsel_place g Hg) as (_ & _ & Hd & Hm), (fsel_place g' Hg') as (_ & _ & Hd' & Hm').
  rewrite fsel_write; [|done|apply set_field_bound; [auto with piduino|lia..]].
  destruct (Z.eqb_spec g' g) as [->|Hne].
  - rewrite Z.eqb_refl. apply field_set_same; lia.
  - destruct (Z.eqb_spec (GFPSEL0 + g / 10) (GFPSEL0 + g' / 10)); [|done].
    unfold fsel. replace (g' / 10) with (g / 10) by (unfold GFPSEL0 in *; lia).
    apply field_set_other; [lia..|]. apply field_apart; unfold GFPSEL0 in *; lia.
Qed.

Lemma latch_fsel g g' v s :
  0 <= g < GpioSize -> 0 <= g' < GpioSize -> latch g' (hw_write (GFPSEL0 + g / 10) v s) = latch g' s.
Proof.
  intros Hg Hg'. destruct (fsel_place g Hg) as (_ & _ & Hd & _). rewrite latch_write by done.
  assert (0 <= g' / 32) by (apply Z.div_pos; lia). unfold GFPSEL0, GPSET0, GPCLR0, GpioSize in *.
  rewrite !(proj2 (Z.eqb_neq _ _)) by lia. done.
Qed.

(** C40: [Bcm2835Gpio::setMode] on any pin 0 to 53 of an open device.  A mode
    the pin has is set so that [mode] reports it (the PWM outputs as
    [ModePwm]), and no other pin changes its mode nor any pin its output latch;
    any other mode is refused with an exception and nothing is written. *)
Theorem bcm2835_setMode_exact g m s :
  mapped s -> 0 <= g < GpioSize ->
  if settable g m then
    exists s', setMode g m s = (Ok tt, s') /\ mapped s' /\ mode_of g s' = (Ok (reported g m), s') /\
      forall g', 0 <= g' < GpioSize -> latch g' (regs s') = latch g' (regs s) /\
        (g' <> g -> fst (mode_of g' s') = fst (mode_of g' s))
  else exists e, setMode g m s = (Throw e, s) /\ e = if bool_decide (m = ModePwm) then InvalidArgument else OutOfRange.
Proof.
  intros Hm Hg. destruct (settable g m) eqn:Hs.
  - destruct (bcm_setMode_code g m s Hs) as (m' & c & Hp & Hc & Hb & Hi & Hrep).
    destruct (bcm_setMode_eq g m m' c s Hm Hg Hp Hc Hb) as (v & Heq & Hv & Hval).
    rewrite Heq. eexists. split; [reflexivity|]. split; [done|]. subst v.
    split; [|intros g' Hg'; split; [by apply latch_fsel|intros Hne]].
    + rewrite bcm_mode_of_eq by done. cbn [regs set_regs].
      by rewrite fsel_setMode, Z.eqb_refl, Hi, Hrep.
    + rewrite !bcm_mode_of_eq by done. cbn [regs set_regs].
      rewrite fsel_setMode by done. rewrite (proj2 (Z.eqb_neq g' g)) by done.
      by destruct (tab int2mode (fsel g' (regs s))).
  - by apply bcm_setMode_refused.
Qed.

(** ** Levels *)
Lemma bank_eq g r : 0 <= g < GpioSize -> bank g r = (g mod 32, r + g / 32) /\ 0 <= g mod 32 < 32 /\ 0 <= g / 32 < 2.
Proof.
  unfold GpioSize, bank. intros Hg. pose proof (Z.mod_pos_bound g 32 ltac:(lia)).
  destruct (Z.ltb_spec 31 g).
  - assert (g / 32 = 1 /\ g mod 32 = g - 32) as [-> ->].
    { pose proof (Z.div_mod g 32). assert (g / 32 = 1) by (symmetry; apply Z.div_unique with (g - 32); lia). lia. }
    split; [done|lia].
  - rewrite Z.div_small, Z.mod_small by lia. split; [f_equal; lia|lia].
Qed.

(** The register and bit of a pin tell it from the other pins. *)
Lemma bank_inj g g' : g / 32 = g' / 32 -> g mod 32 = g' mod 32 -> g = g'.
Proof. intros. rewrite (Z.div_mod g 32), (Z.div_mod g' 32); lia. Qed.

Definition out_reg (v : bool) (g : Z) : Z := (if v then GPSET0 else GPCLR0) + g / 32.

Lemma write_eq g v s : mapped s -> 0 <= g < GpioSize ->
  write g v s = (Ok tt, set_regs (hw_write (out_reg v g) (2 ^ (g mod 32)) (regs s)) s).
Proof.
  intros Hm Hg. destruct (bank_eq g (if v then GPSET0 else GPCLR0) Hg) as (Hb & Hmod & Hd).
  unfold write. rewrite Hb, bit32_bind by done. apply atomicWrite_ok; [|by apply bit32_bound].
  apply mapped_reg; [done|]. unfold out_reg, GPSET0, GPCLR0. destruct v; lia.
Qed.

Lemma latch_out v g g' s : 0 <= g < GpioSize -> 0 <= g' < GpioSize ->
  latch g' (hw_write (out_reg v g) (2 ^ (g mod 32)) s) = if g' =? g then v else latch g' s.
Proof.
  intros Hg Hg'. destruct (bank_eq g 0 Hg) as (_ & Hm & Hd), (bank_eq g' 0 Hg') as (_ & Hm' & Hd').
  rewrite latch_write, Z.pow2_bits_eqb by lia. unfold out_reg, GPSET0, GPCLR0.
  destruct (Z.eqb_spec g' g) as [->|Hne].
  - rewrite Z.eqb_refl. destruct v; case_bool; cbn; done || lia.
  - pose proof (bank_inj g g'). destruct v; case_bool; cbn; done || lia.
Qed.

Lemma fsel_out v g g' x s : 0 <= g < GpioSize -> 0 <= g' < GpioSize -> 0 <= x < 2 ^ 32 ->
  fsel g' (hw_write (out_reg v g) x s) = fsel g' s.
Proof.
  intros Hg Hg' Hx. destruct (fsel_place g' Hg') as (_ & _ & Hd' & _), (bank_eq g 0 Hg) as (_ & _ & Hd).
  rewrite fsel_write by done. rewrite (proj2 (Z.eqb_neq _ _)); [done|].
  unfold out_reg, GPSET0, GPCLR0, GFPSEL0. destruct v; lia.
Qed.

Lemma bcm_read_eq g s : mapped s -> 0 <= g < GpioSize -> read g s = (Ok (level g (regs s)), s).
Proof.
  intros Hm Hg. destruct (bank_eq g GPLEV0 Hg) as (Hb & Hmod & Hd). unfold read.
  rewrite Hb, atomicRead_bind by (apply mapped_reg; [done|unfold GPLEV0; lia]).
  rewrite bit32_bind by done. rewrite land_bit by lia. by rewrite level_read.
Qed.

(** [write] on an output pin of an open device drives exactly that pin:
    [read] then returns the value, [toggle] drives its negation, and no other
    pin's latch and no pin's function changes. *)
Theorem bcm2835_output_exact g v s :
  mapped s -> 0 <= g < GpioSize -> fsel g (regs s) = 1 ->
  exists s', write g v s = (Ok tt, s') /\ mapped s' /\ read g s' = (Ok v, s') /\
    (forall g', 0 <= g' < GpioSize ->
       fsel g' (regs s') = fsel g' (regs s) /\ (g' <> g -> latch g' (regs s') = latch g' (regs s))) /\
    exists s'', toggle (read g) (write g) s' = (Ok tt, s'') /\ read g s'' = (Ok (negb v), s'').
Proof.
  intros Hm Hg Hf. destruct (bank_eq g 0 Hg) as (_ & Hb & _). pose proof (bit32_bound _ Hb) as Hbit.
  assert (Hr : forall w t, mapped t -> fsel g (regs t) = 1 ->
    let t' := set_regs (hw_write (out_reg w g) (2 ^ (g mod 32)) (regs t)) t in read g t' = (Ok w, t')).
  { intros w t Ht Hft t'. rewrite bcm_read_eq by done. cbn [t' regs set_regs].
    rewrite level_output, latch_out, Z.eqb_refl by (done || by rewrite fsel_out). done. }
  rewrite write_eq by done. eexists. split; [reflexivity|]. split; [done|]. split; [by apply Hr|].
  split.
  - intros g' Hg'. cbn [regs set_regs]. rewrite fsel_out, latch_out by done.
    split; [done|]. intros Hne. by rewrite (proj2 (Z.eqb_neq g' g)).
  - eexists. unfold toggle. split.
    + rewrite (M_bind_ok _ _ _ _ _ _ _ _ (Hr v s Hm Hf)). by apply write_eq.
    + apply Hr; [done|]. cbn [regs set_regs]. by rewrite fsel_out.
Qed.

End Proofs.

(** ** Pulls *)
Section Pulls.
Context {O : MapOs} {D : Device}.

Lemma pupd_place g : 0 <= g < GpioSize ->
  Z.shiftr g 4 = g / 16 /\ Z.shiftl (Z.land g 0xf) 1 = g mod 16 * 2 /\ 0 <= g / 16 < 4 /\ 0 <= g mod 16 < 16.
Proof.
  unfold GpioSize. intros Hg. rewrite Z.shiftr_div_pow2, Z.shiftl_mul_pow2 by lia.
  change 0xf with (Z.ones 4). rewrite Z.land_ones by lia. change (2 ^ 4) with 16.
  split; [done|]. split; [lia|]. split; [|by apply Z.mod_pos_bound].
  split; [apply Z.div_pos; lia|]. apply Z.div_lt_upper_bound; lia.
Qed.

Definition pull_code (c : Z) : pull :=
  match c with 0 => PullOff | 2 => PullDown | 1 => PullUp | _ => PullUnknown end.

Lemma bcm_pull_of_eq g s : mapped s -> 0 <= g < GpioSize ->
  pull_of true g s = (Ok (pull_code (pupd g (regs s))), s).
Proof.
  intros Hm Hg. destruct (pupd_place g Hg) as (Hq & Hr & Hd & Hmod). unfold pull_of.
  rewrite Hq, Hr, u64_small by (unfold GPPUPPDN0; lia).
  by rewrite atomicRead_bind by (apply mapped_reg; [done|unfold GPPUPPDN0; lia]).
Qed.

Lemma setPull_2711_eq g p c s : mapped s -> 0 <= g < GpioSize -> pval_2711 p = Some c -> 0 <= c < 2 ^ 2 ->
  setPull true g p s =
  (Ok tt, set_regs (hw_write (GPPUPPDN0 + g / 16)
    (set_field (hw_read (GPPUPPDN0 + g / 16) (regs s)) (g mod 16 * 2) 2 c) (regs s)) s).
Proof.
  intros Hm Hg Hp Hc. destruct (pupd_place g Hg) as (Hq & Hr & Hd & Hmod).
  destruct (rmw_field (hw_read (GPPUPPDN0 + g / 16) (regs s)) (g mod 16 * 2) 2 c) as [Hv Hvb];
    [auto with piduino|lia..|].
  unfold setPull. rewrite Hp, Hq, Hr, u64_small by (unfold GPPUPPDN0; lia).
  assert (in_window (GPPUPPDN0 + g / 16) s = true) by (apply mapped_reg; [done|unfold GPPUPPDN0; lia]).
  rewrite atomicRead_bind by done. change 3 with (Z.ones 2).
  rewrite <- Hv. by apply atomicWrite_ok; rewrite ?Hv.
Qed.

Lemma pupd_setPull {P : Bcm2711Pull D} g g' c s :
  0 <= g < GpioSize -> 0 <= g' < GpioSize -> 0 <= c < 2 ^ 2 ->
  pupd g' (hw_write (GPPUPPDN0 + g / 16) (set_field (hw_read (GPPUPPDN0 + g / 16) s) (g mod 16 * 2) 2 c) s) =
  if g' =? g then c else pupd g' s.
Proof.
  intros Hg Hg' Hc. destruct (pupd_place g Hg) as (_ & _ & Hd & Hm), (pupd_place g' Hg') as (_ & _ & Hd' & Hm').
  rewrite pupd_write; [|done|apply set_field_bound; [auto with piduino|lia..]].
  destruct (Z.eqb_spec g' g) as [->|Hne].
  - rewrite Z.eqb_refl. apply field_set_same; lia.
  - destruct (Z.eqb_spec (GPPUPPDN0 + g / 16) (GPPUPPDN0 + g' / 16)); [|done].
    unfold pupd. replace (g' / 16) with (g / 16) by lia.
    apply field_set_other; [lia..|]. apply field_apart; lia.
Qed.

(** On a BCM2711 a pull that [setPull] sets is the one [pull] reports, no
    other pin's pull changes, and the value [PullUnknown] changes nothing. *)
Theorem bcm2711_pull_roundtrip {P : Bcm2711Pull D} g p s :
  mapped s -> 0 <= g < GpioSize ->
  if bool_decide (p = PullUnknown) then setPull true g p s = (Ok tt, s)
  else exists s', setPull true g p s = (Ok tt, s') /\ pull_of true g s' = (Ok p, s') /\
    forall g', 0 <= g' < GpioSize -> g' <> g -> fst (pull_of true g' s') = fst (pull_of true g' s).
Proof.
  intros Hm Hg. case_bool_decide as Hu; [by rewrite Hu|].
  assert (exists c, pval_2711 p = Some c /\ 0 <= c < 2 ^ 2 /\ pull_code c = p) as (c & Hc & Hb & Hp)
    by (destruct p; [exists 0|exists 2|exists 1|done]; repeat split; lia || done).
  rewrite (setPull_2711_eq g p c) by done. eexists. split; [reflexivity|]. split.
  - rewrite bcm_pull_of_eq by done. cbn [regs set_regs]. by rewrite pupd_setPull, Z.eqb_refl, Hp.
  - intros g' Hg' Hne. rewrite !bcm_pull_of_eq by done. cbn [regs set_regs fst].
    by rewrite pupd_setPull, (proj2 (Z.eqb_neq g' g)).
Qed.

(** On the older chips [setPull] clocks the control signal of the asked
    pull into exactly the pad of that pin, and leaves the control signal off,
    so that a later clock finds no pull to apply by accident. *)
Theorem bcm2835_setPull_sequence {P : Bcm2835Pud D} g p c s :
  mapped s -> 0 <= g < GpioSize -> pval_pud p = Some c ->
  exists s', setPull false g p s = (Ok tt, s') /\ pud (regs s') = 0 /\
    forall g', 0 <= g' < GpioSize -> pad_pull g' (regs s') = if g' =? g then c else pad_pull g' (regs s).
Proof.
  intros Hm Hg Hp. destruct (bank_eq g GPPUDCLK0 Hg) as (Hb & Hmod & Hd).
  assert (0 <= c < 4) as Hc by (destruct p; simplify_eq/=; lia).
  pose proof (bit32_bound _ Hmod) as Hbit. unfold setPull. rewrite Hp, Hb.
  rewrite atomicWrite_bind by (lia || (apply mapped_reg; [done|unfold GPPUD; lia])).
  rewrite bit32_bind by done.
  rewrite !atomicWrite_bind by (lia || (apply mapped_reg; [done|unfold GPPUD, GPPUDCLK0; lia])).
  rewrite atomicWrite_ok by (lia || (apply mapped_reg; [done|unfold GPPUDCLK0; lia])).
  eexists. split; [reflexivity|]. cbn [regs set_regs]. unfold GPPUD, GPPUDCLK0. split.
  - rewrite !pud_write by lia. by rewrite (proj2 (Z.eqb_neq _ _)) by (unfold GPPUD; lia).
  - intros g' Hg'. destruct (bank_eq g' 0 Hg') as (_ & Hm' & Hd').
    rewrite !pull_write, !pud_write, Z.bits_0, Z.pow2_bits_eqb, (Z.mod_small c 4) by lia.
    unfold GPPUD, GPPUDCLK0. pose proof (bank_inj g g'). case_bool; subst; cbn; done || lia.
Qed.

End Pulls.

(** ** A register block with these laws *)
Module Demo.

Record chip : Type := mk_chip { store : Z -> Z; word : Z -> Z; pads : Z -> Z }.

Definition chip_read (o : Z) (s : chip) : Z :=
  u32 (if (o =? GPLEV0) || (o =? GPLEV0 + 1) then word s (o - GPLEV0) else store s o).

Definition chip_write (o v : Z) (s : chip) : chip :=
  mk_chip (fun x => if o =? x then v else store s x)
    (fun b => if o =? GPSET0 + b then Z.lor (word s b) v
              else if o =? GPCLR0 + b then Z.ldiff (word s b) v else word s b)
    (fun g => if (o =? GPPUDCLK0 + g / 32) && Z.testbit v (g mod 32) then store s GPPUD mod 4 else pads s g).

Definition device : Device :=
  {| hw := chip; hw_read := chip_read; hw_write := chip_write; hw_word := fun o s => u32_bound _ |}.

Lemma store_read o s : 15 <= o \/ o < 13 -> chip_read o s = u32 (store s o).
Proof.
  intros Ho. unfold chip_read, GPLEV0. by rewrite (proj2 (Z.eqb_neq o 13)), (proj2 (Z.eqb_neq o (13 + 1))) by lia.
Qed.

#[export] Program Instance device_regs : Bcm2835Regs device := {|
  latch g s := Z.testbit (word s (g / 32)) (g mod 32);
  level g s := Z.testbit (word s (g / 32)) (g mod 32) |}.
Next Obligation.
  intros g o v s Hg Hv. destruct (fsel_place g Hg) as (_ & _ & Hd & _). unfold fsel. cbn -[field Z.div Z.modulo].
  rewrite !store_read by (unfold GFPSEL0; lia). unfold chip_write, GFPSEL0. cbn -[field Z.div Z.modulo].
  case_bool; [|done]. by rewrite u32_small.
Qed.
Next Obligation.
  intros g o v s Hg. destruct (bank_eq g 0 Hg) as (_ & _ & Hd). cbn -[Z.testbit Z.div Z.modulo].
  unfold GPSET0, GPCLR0. case_bool; try lia; cbn -[Z.testbit Z.div Z.modulo];
    rewrite ?Z.lor_spec, ?Z.ldiff_spec; [| |done].
  - by destruct (Z.testbit v _); rewrite ?orb_true_r, ?orb_false_r.
  - by destruct (Z.testbit v _); rewrite ?andb_true_r, ?andb_false_r.
Qed.
Next Obligation.
  intros g s Hg. destruct (bank_eq g 0 Hg) as (_ & Hm & Hd). cbn -[Z.testbit Z.div Z.modulo].
  unfold chip_read, GPLEV0. replace (13 + g / 32 - 13) with (g / 32) by lia.
  assert ((13 + g / 32 =? 13) || (13 + g / 32 =? 13 + 1) = true) as -> by (case_bool; done || lia).
  unfold u32. by rewrite Z.mod_pow2_bits_low by lia.
Qed.
Next Obligation. done. Qed.

#[export] Program Instance device_pud : Bcm2835Pud device := {|
  pud s := store s GPPUD mod 4;
  pad_pull g s := pads s g |}.
Next Obligation. intros o v s Hv. cbn -[Z.modulo]. by case_bool. Qed.
Next Obligation. done. Qed.

#[export] Instance device_2711 : Bcm2711Pull device.
Proof.
  constructor. intros g o v s Hg Hv. destruct (pupd_place g Hg) as (_ & _ & Hd & _). unfold pupd.
  cbn -[field Z.div Z.modulo]. rewrite !store_read by (unfold GPPUPPDN0; lia).
  unfold chip_write. cbn -[field Z.div Z.modulo]. case_bool; [|done]. by rewrite u32_small.
Qed.

(** The registers after reset, mapped. *)
Definition start : @io IoMap.no_mmap device :=
  @mk_io IoMap.no_mmap device (IoMap.mk_iomap 0x3F200000 MapBlockSize 4 IoMap.Mapped (tt : @os IoMap.no_mmap))
    (mk_chip (fun o => if o =? 1 then 0x40 else 0) (fun _ => 0) (fun _ => 0)).

Lemma bcm2835_setMode_exact_witness :
  exists s', setMode 18 ModePwm start = (Ok tt, s') /\ mapped s' /\ mode_of 18 s' = (Ok ModePwm, s') /\
    forall g', 0 <= g' < GpioSize -> latch g' (regs s') = latch g' (regs start) /\
      (g' <> 18 -> fst (mode_of g' s') = fst (mode_of g' start)).
Proof. exact (bcm2835_setMode_exact 18 ModePwm start eq_refl ltac:(unfold GpioSize; lia)). Defined.

Lemma bcm2835_output_exact_witness :
  exists s', write 12 true start = (Ok tt, s') /\ mapped s' /\ read 12 s' = (Ok true, s') /\
    (forall g', 0 <= g' < GpioSize ->
       fsel g' (regs s') = fsel g' (regs start) /\ (g' <> 12 -> latch g' (regs s') = latch g' (regs start))) /\
    exists s'', toggle (read 12) (write 12) s' = (Ok tt, s'') /\ read 12 s'' = (Ok false, s'').
Proof. exact (bcm2835_output_exact 12 true start eq_refl ltac:(unfold GpioSize; lia) eq_refl). Defined.

Lemma bcm2711_pull_roundtrip_witness :
  exists s', setPull true 40 PullUp start = (Ok tt, s') /\ pull_of true 40 s' = (Ok PullUp, s') /\
    forall g', 0 <= g' < GpioSize -> g' <> 40 -> fst (pull_of true g' s') = fst (pull_of true g' start).
Proof. exact (bcm2711_pull_roundtrip 40 PullUp start eq_refl ltac:(unfold GpioSize; lia)). Defined.

Lemma bcm2835_setPull_sequence_witness :
  exists s', setPull false 40 PullUp start = (Ok tt, s') /\ pud (regs s') = 0 /\
    forall g', 0 <= g' < GpioSize -> pad_pull g' (regs s') = if g' =? 40 then 2 else pad_pull g' (regs start).
Proof.
  exact (bcm2835_setPull_sequence 40 PullUp 2 start eq_refl ltac:(unfold GpioSize; lia) eq_refl).
Defined.

End Demo.
End Bcm2835.
