(* ===== verification/GpioHx.v ===== *)
(** * The GPIO driver of the Allwinner H3 and H5, gpio_hx.cpp

    A logical pin number runs through the ports A, C, D, E, F, G and L; the
    driver finds the port and the bit by [pinBank], then updates the port's
    registers in place.  The port controller is the interface [HxPio]. *)
From S2P Require Import Prelude Mmio.
Import Pin Mmio.

Module Hx.

Definition Io1Base : Z := 0x01C20000.
Definition Io2Base : Z := 0x01F02000.
Definition MapBlockSize : Z := 4 * 1024.
Definition Pio1Offset : Z := 0x800.
Definition Pio2Offset : Z := 0xC00.
Definition GpioSize : Z := 106.
Definition ENODEV : Z := 19.

Definition portSize : list Z := [22; 0; 17; 18; 16; 7; 14; 12; -1].

Definition int2mode : list (Z * mode) :=
  [(0, ModeInput); (1, ModeOutput); (2, ModeAlt2); (3, ModeAlt3); (4, ModeAlt4); (5, ModeAlt5);
   (6, ModeAlt6); (7, ModeDisabled)].

Definition mode2int : list (mode * Z) :=
  [(ModeInput, 0); (ModeOutput, 1); (ModeAlt2, 2); (ModeAlt3, 3); (ModeAlt4, 4); (ModeAlt5, 5);
   (ModeAlt6, 6); (ModeDisabled, 7)].

(** [struct PioBank] behind a pointer: its window and the word it starts at;
    the members are words of it. *)
Record PioBank : Type := mk_bank { window : bool; start : Z }.
Definition CFG : Z := 0.
Definition DAT : Z := 4.
Definition DRV : Z := 5.
Definition PUL : Z := 7.

Section Driver.
Context {O : MapOs} {D : Device}.

Record hx : Type := mk_hx { isopen : bool; iomap0 : io; iomap1 : io }.

Definition set_isopen (b : bool) (s : hx) : hx := mk_hx b (iomap0 s) (iomap1 s).
Definition iomap (w : bool) (s : hx) : io := if w then iomap1 s else iomap0 s.
Definition set_iomap (w : bool) (i : io) (s : hx) : hx :=
  if w then mk_hx (isopen s) (iomap0 s) i else mk_hx (isopen s) i (iomap1 s).

Definition on_io {A} (w : bool) (m : M io A) : M hx A := zoom (iomap w) (set_iomap w) m.
Definition on_map {A} (w : bool) (m : M IoMap.iomap A) : M hx A := on_io w (zoom im set_im m).

Definition open : M hx bool :=
  o ← gets isopen;
  (if (o : bool) then mret tt
   else on_map false (IoMap.open Io1Base MapBlockSize);;
        on_map true (IoMap.open Io2Base MapBlockSize);;
        modify (set_isopen true));;
  gets isopen.

Definition close : M hx unit :=
  o ← gets isopen;
  if (o : bool) then
    on_map false IoMap.close;; on_map true IoMap.close;; modify (set_isopen false)
  else mret tt.

(** [bank]; [None] is the null pointer. *)
Definition bank (bkindex : Z) : M hx (option PioBank) :=
  o ← gets isopen;
  if (o : bool) then
    mret (if bkindex <? 7 then Some (mk_bank false (Z.shiftr (Pio1Offset + bkindex * 0x24) 2))
          else if bkindex =? 7 then Some (mk_bank true (Z.shiftr Pio2Offset 2)) else None)
  else throw (SystemError ENODEV).

(** The [do] loop of [pinBank]: it steps past port B, and steps once otherwise. *)
Definition next_port (bkindex p : Z) : Z * Z :=
  if bkindex + 1 =? 1 then (bkindex + 2, p + 2) else (bkindex + 1, p + 1).

(** The [while] loop of [pinBank]; [None] is a read past [portSize], or not
    enough fuel. *)
Fixpoint find_port (fuel : nat) (bkindex p ng : Z) : option (Z * Z) :=
  match fuel with
  | 0%nat => None
  | S fuel =>
      n ← lget portSize p;
      if (0 <=? n) && (n <=? ng) then
        let '(bkindex, p) := next_port bkindex p in find_port fuel bkindex p (ng - n)
      else Some (bkindex, ng)
  end.

Definition pinBank (mcupin : Z) : M hx (PioBank * Z) :=
  match find_port 9 0 0 mcupin with
  | None => throw UB
  | Some (bkindex, ng) =>
      if bkindex <? 8 then
        b ← bank bkindex;
        match b with Some b => mret (b, ng) | None => throw UB end
      else throw OutOfRange
  end.

(** The element [r] of the array member at word [k], of [n] elements. *)
Definition elem (k n r : Z) : M hx Z := if (0 <=? r) && (r <? n) then mret (k + r) else throw UB.
(** [1 << g] *)
Definition one_shl (g : Z) : M hx Z := if (0 <=? g) && (g <? 32) then mret (Z.shiftl 1 g) else throw UB.

(** The member at word [k] of a bank, read and written. *)
Definition get (b : PioBank) (k : Z) : M hx Z := on_io (window b) (atomicRead (start b + k)).
Definition put (b : PioBank) (k v : Z) : M hx unit := on_io (window b) (atomicWrite (start b + k) v).

(** [b->R &= ~ (mask << i)] and [b->R |= v << i] *)
Definition and_not (b : PioBank) (k m : Z) : M hx unit := x ← get b k; put b k (Z.land x (u32 (Z.lnot m))).
Definition or_eq (b : PioBank) (k m : Z) : M hx unit := x ← get b k; put b k (Z.lor x (u32 m)).
Definition xor_eq (b : PioBank) (k m : Z) : M hx unit := x ← get b k; put b k (Z.lxor x (u32 m)).

Definition mode_of (g : Z) : M hx mode :=
  '(b, f) ← pinBank g;
  let r := Z.shiftr f 3 in
  let i := (f - r * 8) * 4 in
  k ← elem CFG 4 r;
  x ← get b k;
  ret ← at_map (tab int2mode (Z.land (Z.shiftr x i) 7));
  mret (if bool_decide (ret = ModeAlt3) && (g =? 5) then ModePwm else ret).

Definition pwm_function (g : Z) (m : mode) : M hx mode :=
  if bool_decide (m = ModePwm) then if g =? 5 then mret ModeAlt3 else throw InvalidArgument
  else mret m.

Definition setMode (g : Z) (m : mode) : M hx unit :=
  '(b, f) ← pinBank g;
  let r := Z.shiftr f 3 in
  let i := (f - r * 8) * 4 in
  m ← pwm_function g m;
  v ← at_map (tab mode2int m);
  k ← elem CFG 4 r;
  and_not b k (Z.shiftl 15 i);;
  or_eq b k (Z.shiftl v i).

Definition pull_of (g : Z) : M hx pull :=
  '(b, g) ← pinBank g;
  let r := Z.shiftr g 4 in
  let i := (g - r * 16) * 2 in
  k ← elem PUL 2 r;
  x ← get b k;
  mret (match Z.land (Z.shiftr x i) 3 with
        | 0 => PullOff | 2 => PullDown | 1 => PullUp | _ => PullUnknown
        end).

Definition pval (p : pull) : Z :=
  match p with PullOff => 0 | PullDown => 2 | PullUp => 1 | PullUnknown => -1 end.

Definition setPull (g : Z) (p : pull) : M hx unit :=
  '(b, f) ← pinBank g;
  let v := pval p in
  if 0 <=? v then
    let r := Z.shiftr f 4 in
    let i := (f - r * 16) * 2 in
    k ← elem PUL 2 r;
    and_not b k (Z.shiftl 3 i);; or_eq b k (Z.shiftl v i)
  else mret tt.

Definition write (g : Z) (v : bool) : M hx unit :=
  '(b, g) ← pinBank g;
  m ← one_shl g;
  if v then or_eq b DAT m else and_not b DAT m.

Definition toggle (g : Z) : M hx unit :=
  '(b, g) ← pinBank g; m ← one_shl g; xor_eq b DAT m.

Definition read (g : Z) : M hx bool :=
  '(b, g) ← pinBank g;
  x ← get b DAT; m ← one_shl g; mret (negb (Z.land x (u32 m) =? 0)).

Definition drive (g : Z) : M hx Z :=
  '(b, g) ← pinBank g;
  let r := Z.shiftr g 4 in
  let i := (g - r * 16) * 2 in
  k ← elem DRV 2 r;
  x ← get b k; mret (Z.land (Z.shiftr x i) 3).

Definition setDrive (g v : Z) : M hx unit :=
  '(b, f) ← pinBank g;
  if (0 <=? v) && (v <=? 3) then
    let r := Z.shiftr f 4 in
    let i := (f - r * 16) * 2 in
    k ← elem DRV 2 r;
    and_not b k (Z.shiftl 3 i);; or_eq b k (Z.shiftl v i)
  else throw InvalidArgument.

End Driver.

(** ** Pins and ports *)
Definition size (n : Z) : Z := default 0 (lget portSize n).
(** The pins before port [n]. *)
Definition first (n : Z) : Z := foldr Z.add 0 (take (Z.to_nat n) portSize).
(** The ports A, C to G and L; port [n] has its registers at [ptr n]. *)
Definition port (n : Z) : Prop := n = 0 \/ 2 <= n <= 7.
Definition ptr (n : Z) : PioBank := if n =? 7 then mk_bank true 0x300 else mk_bank false (0x200 + 9 * n).

Lemma port_cases n : port n -> n = 0 \/ n = 2 \/ n = 3 \/ n = 4 \/ n = 5 \/ n = 6 \/ n = 7.
Proof. unfold port. lia. Qed.

Ltac case_port H := apply port_cases in H; repeat destruct H as [H|H]; subst.

(** The sizes and first pins of concrete ports as numbers. *)
Ltac port_numbers :=
  repeat match goal with
  | |- context [first ?n] => let x := eval vm_compute in (first n) in change (first n) with x
  | H : context [size ?n] |- _ => let x := eval vm_compute in (size n) in change (size n) with x in H
  | |- context [size ?n] => let x := eval vm_compute in (size n) in change (size n) with x
  end.

Lemma find_port_skip fuel b p ng n b' p' :
  lget portSize p = Some n -> next_port b p = (b', p') -> 0 <= n <= ng ->
  find_port (S fuel) b p ng = find_port fuel b' p' (ng - n).
Proof.
  intros Hp Hb Hn. cbn [find_port]. rewrite Hp, Hb. cbn.
  by rewrite (proj2 (Z.leb_le 0 n)), (proj2 (Z.leb_le n ng)) by lia.
Qed.

Lemma find_port_stop fuel b p ng n :
  lget portSize p = Some n -> n < 0 \/ ng < n -> find_port (S fuel) b p ng = Some (b, ng).
Proof. intros Hp Hn. cbn [find_port]. rewrite Hp. cbn. case_bool; done || lia. Qed.

(** Run the loop of [pinBank]; [lia] decides each of its comparisons. *)
Ltac run_ports :=
  repeat match goal with
  | |- context [find_port (S ?f) ?b ?p ?ng] =>
      let n := eval vm_compute in (size p) in
      match eval vm_compute in (next_port b p) with
      | (?b', ?p') => first
          [ rewrite (find_port_skip f b p ng n b' p' eq_refl eq_refl) by lia
          | rewrite (find_port_stop f b p ng n eq_refl) by lia ]
      end
  end.

Lemma find_port_in n i : port n -> 0 <= i < size n -> find_port 9 0 0 (first n + i) = Some (n, i).
Proof.
  intros Hn. case_port Hn; intros Hi; port_numbers; run_ports; f_equal; f_equal; lia.
Qed.

Lemma find_port_out g : GpioSize <= g -> exists ng, find_port 9 0 0 g = Some (8, ng).
Proof. unfold GpioSize. intros Hg. eexists. run_ports. reflexivity. Qed.

Lemma pin_port g : 0 <= g < GpioSize -> exists n i, port n /\ 0 <= i < size n /\ g = first n + i.
Proof.
  unfold GpioSize. intros Hg.
  assert (exists n, port n /\ first n <= g < first n + size n) as (n & Hn & Hf).
  { destruct (Z.lt_ge_cases g 22); [exists 0; port_numbers; unfold port; lia|].
    destruct (Z.lt_ge_cases g 39); [exists 2; port_numbers; unfold port; lia|].
    destruct (Z.lt_ge_cases g 57); [exists 3; port_numbers; unfold port; lia|].
    destruct (Z.lt_ge_cases g 73); [exists 4; port_numbers; unfold port; lia|].
    destruct (Z.lt_ge_cases g 80); [exists 5; port_numbers; unfold port; lia|].
    destruct (Z.lt_ge_cases g 94); [exists 6; port_numbers; unfold port; lia|].
    exists 7; port_numbers; unfold port; lia. }
  exists n, (g - first n). split; [done|]. lia.
Qed.

Section Pins.
Context {O : MapOs} {D : Device}.

Lemma bank_port n (s : hx) : port n ->
  bank n s = if isopen s then (Ok (Some (ptr n)), s) else (Throw (SystemError ENODEV), s).
Proof. intros Hn. unfold bank. munfold. destruct (isopen s); [|done]. by case_port Hn. Qed.

Lemma pinBank_port n i (s : hx) : port n -> 0 <= i < size n ->
  pinBank (first n + i) s = if isopen s then (Ok (ptr n, i), s) else (Throw (SystemError ENODEV), s).
Proof.
  intros Hn Hi. unfold pinBank. rewrite find_port_in by done.
  rewrite (proj2 (Z.ltb_lt n 8)) by (unfold port in Hn; lia). munfold. rewrite bank_port by done.
  by destruct (isopen s).
Qed.

(** C27: [pinBank] numbers the pins of the chip without a gap or a collision:
    on an open device the pins 0 to 105 are exactly the bits of the ports A, C,
    D, E, F, G and L in this order, each found in the registers of its port;
    from 106 on the pin is out of range; on a closed device a pin of the chip
    is refused with ENODEV. *)
Theorem hx_pinBank_exact (s : hx) :
  (forall n i, port n -> 0 <= i < size n ->
     pinBank (first n + i) s = if isopen s then (Ok (ptr n, i), s) else (Throw (SystemError ENODEV), s)) /\
  (forall g, 0 <= g < GpioSize -> exists n i, port n /\ 0 <= i < size n /\ g = first n + i) /\
  (forall g, GpioSize <= g -> pinBank g s = (Throw OutOfRange, s)).
Proof.
  split; [|split].
  - intros n i. apply pinBank_port.
  - apply pin_port.
  - intros g Hg. destruct (find_port_out g Hg) as [ng Hf]. unfold pinBank. by rewrite Hf.
Qed.

End Pins.

(** ** The port controller *)
(** Where the fields of bit [i] of port [n] are. *)
Definition cfg_reg (n i : Z) : Z := start (ptr n) + (CFG + i / 8).
Definition drv_reg (n i : Z) : Z := start (ptr n) + (DRV + i / 16).
Definition pul_reg (n i : Z) : Z := start (ptr n) + (PUL + i / 16).
Definition dat_reg (n : Z) : Z := start (ptr n) + DAT.
Definition is_pin (n i : Z) : Prop := port n /\ 0 <= i < size n.

Definition cfg {D : Device} (n i : Z) (s : hw) : Z := field (hw_read (cfg_reg n i) s) (i mod 8 * 4) 3.
Definition drv {D : Device} (n i : Z) (s : hw) : Z := field (hw_read (drv_reg n i) s) (i mod 16 * 2) 2.
Definition pul {D : Device} (n i : Z) (s : hw) : Z := field (hw_read (pul_reg n i) s) (i mod 16 * 2) 2.

(** The configuration, drive and pull fields hold what is written to them; the
    data register sets the latches, and reads as the latch of an output and as
    the pin of any other. *)
Class HxPio (D : Device) : Type := {
  latch : Z -> Z -> hw -> bool;
  input : Z -> Z -> hw -> bool;
  cfg_write : forall n i o v s, is_pin n i -> 0 <= v < 2 ^ 32 ->
    cfg n i (hw_write o v s) = if o =? cfg_reg n i then field v (i mod 8 * 4) 3 else cfg n i s;
  drv_write : forall n i o v s, is_pin n i -> 0 <= v < 2 ^ 32 ->
    drv n i (hw_write o v s) = if o =? drv_reg n i then field v (i mod 16 * 2) 2 else drv n i s;
  pul_write : forall n i o v s, is_pin n i -> 0 <= v < 2 ^ 32 ->
    pul n i (hw_write o v s) = if o =? pul_reg n i then field v (i mod 16 * 2) 2 else pul n i s;
  latch_write : forall n i o v s, is_pin n i ->
    latch n i (hw_write o v s) = if o =? dat_reg n then Z.testbit v i else latch n i s;
  dat_read : forall n i s, is_pin n i ->
    Z.testbit (hw_read (dat_reg n) s) i = if cfg n i s =? 1 then latch n i s else input n i s }.

Lemma pin_bit n i : is_pin n i -> 0 <= i < 22.
Proof. intros [Hn Hi]. case_port Hn; port_numbers; lia. Qed.

Lemma start_cases n : port n -> 0x200 <= start (ptr n) <= 0x300.
Proof. intros Hn. by case_port Hn. Qed.

(** The registers of two ports do not overlap. *)
Lemma start_apart n n' k k' : port n -> port n' -> 0 <= k < 9 -> 0 <= k' < 9 ->
  start (ptr n) + k = start (ptr n') + k' -> n = n' /\ k = k'.
Proof. unfold port, ptr. intros Hn Hn' Hk Hk'. case_bool; cbn [start]; lia. Qed.

Lemma div_place i n m : 0 < n -> 0 <= i < n * m -> 0 <= i / n < m /\ 0 <= i mod n < n.
Proof.
  intros Hn Hi. split; [|by apply Z.mod_pos_bound].
  split; [apply Z.div_pos; lia|]. apply Z.div_lt_upper_bound; lia.
Qed.

(** Fields of width [w] at multiples of [W], [m] in a register, updated in two
    accesses as the driver does. *)
Section TwoStep.
Context {D : Device} (base m W w : Z) (F : Z -> Z -> hw -> Z).
Let reg n i := start (ptr n) + (base + i / m).
Hypothesis Hm : 0 < m.
Hypothesis HW : m * W = 32.
Hypothesis Hw : 0 <= w <= W.
Hypothesis Hbase : 0 <= base /\ forall i, 0 <= i < 22 -> base + i / m < 9.
Hypothesis F_read : forall n i s, F n i s = field (hw_read (reg n i) s) (i mod m * W) w.
Hypothesis F_write : forall n i o v s, is_pin n i -> 0 <= v < 2 ^ 32 ->
  F n i (hw_write o v s) = if o =? reg n i then field v (i mod m * W) w else F n i s.

Definition cleared (n i : Z) (s : hw) : hw :=
  hw_write (reg n i) (Z.ldiff (hw_read (reg n i) s) (Z.shiftl (Z.ones W) (i mod m * W))) s.
Definition updated (n i c : Z) (s : hw) : hw :=
  hw_write (reg n i) (Z.lor (hw_read (reg n i) (cleared n i s)) (Z.shiftl c (i mod m * W))) (cleared n i s).

Lemma reg_same n i n' i' : is_pin n i -> is_pin n' i' -> reg n i = reg n' i' ->
  n = n' /\ (i = i' \/ i' mod m * W + W <= i mod m * W \/ i mod m * W + W <= i' mod m * W).
Proof.
  intros Hp Hp' He. pose proof (pin_bit _ _ Hp). pose proof (pin_bit _ _ Hp').
  pose proof (Z.div_pos i m). pose proof (Z.div_pos i' m).
  destruct Hbase as [Hb0 Hb9]. pose proof (Hb9 i ltac:(lia)). pose proof (Hb9 i' ltac:(lia)).
  apply start_apart in He as [-> He]; [|apply Hp|apply Hp'|lia..]. split; [done|].
  pose proof (Z.div_mod i m). pose proof (Z.div_mod i' m).
  destruct (Z.lt_trichotomy (i mod m) (i' mod m)) as [|[|]]; [right; right; nia| |right; left; nia].
  left. assert (i / m = i' / m) by lia. nia.
Qed.

Lemma word_pos i : 0 <= i -> 0 <= i mod m * W /\ i mod m * W + W <= 32.
Proof. intros Hi. pose proof (Z.mod_pos_bound i m Hm). nia. Qed.

Lemma word_bounds n i c s : is_pin n i -> 0 <= c < 2 ^ w ->
  0 <= Z.ldiff (hw_read (reg n i) s) (Z.shiftl (Z.ones W) (i mod m * W)) < 2 ^ 32 /\
  0 <= Z.shiftl c (i mod m * W) < 2 ^ 32.
Proof.
  intros Hp Hc. pose proof (pin_bit _ _ Hp). destruct (word_pos i) as [H0 H32]; [lia|].
  assert (2 ^ w <= 2 ^ W) by (apply Z.pow_le_mono_r; lia). split.
  - pose proof (set_field_bound (hw_read (reg n i) s) (i mod m * W) W 0 32 (hw_word _ _)) as Hb.
    unfold set_field in Hb. rewrite Z.shiftl_0_l, Z.lor_0_r in Hb. apply Hb; lia.
  - pose proof (set_field_bound 0 (i mod m * W) W c 32) as Hb. unfold set_field in Hb.
    rewrite Z.ldiff_0_l, Z.lor_0_l in Hb. apply Hb; lia.
Qed.

Lemma lor_word n i c s : is_pin n i -> 0 <= c < 2 ^ w ->
  0 <= Z.lor (hw_read (reg n i) (cleared n i s)) (Z.shiftl c (i mod m * W)) < 2 ^ 32.
Proof.
  intros Hp Hc. destruct (word_bounds n i c s Hp Hc) as [_ Hs].
  pose proof (hw_word (reg n i) (cleared n i s)) as Hr.
  assert (0 <= Z.lor (hw_read (reg n i) (cleared n i s)) (Z.shiftl c (i mod m * W)))
    by (apply Z.lor_nonneg; lia).
  split; [done|]. apply bits_bound; [lia|done|]. intros k Hk.
  by rewrite Z.lor_spec, !(testbit_high _ 32 k).
Qed.

Lemma updated_same n i c s : is_pin n i -> 0 <= c < 2 ^ w -> F n i (updated n i c s) = c.
Proof.
  intros Hp Hc. destruct (word_bounds n i c s Hp Hc) as [Hl _].
  destruct (word_pos i) as [H0 H32]; [apply pin_bit in Hp; lia|].
  unfold updated. rewrite F_write, Z.eqb_refl by (done || by apply lor_word).
  rewrite field_lor, field_shiftl_same, <- F_read by lia.
  unfold cleared. by rewrite F_write, Z.eqb_refl, field_clear_same by (done || lia).
Qed.

Lemma updated_other n i c n' i' s : is_pin n i -> is_pin n' i' -> (n, i) <> (n', i') -> 0 <= c < 2 ^ w ->
  F n' i' (updated n i c s) = F n' i' s.
Proof.
  intros Hp Hp' Hne Hc. destruct (word_bounds n i c s Hp Hc) as [Hl _].
  destruct (word_pos i) as [H0 H32]; [apply pin_bit in Hp; lia|].
  destruct (word_pos i') as [H0' H32']; [apply pin_bit in Hp'; lia|].
  assert (2 ^ w <= 2 ^ W) by (apply Z.pow_le_mono_r; lia).
  assert (Hc' : F n' i' (cleared n i s) = F n' i' s).
  { unfold cleared. rewrite F_write by done. destruct (Z.eqb_spec (reg n i) (reg n' i')) as [He|]; [|done].
    destruct (reg_same _ _ _ _ Hp Hp' He) as [-> [->|Hd]]; [done|].
    rewrite field_clear_other, F_read, He by lia. done. }
  unfold updated. rewrite F_write by (done || by apply lor_word).
  destruct (Z.eqb_spec (reg n i) (reg n' i')) as [He|]; [|done].
  destruct (reg_same _ _ _ _ Hp Hp' He) as [-> [->|Hd]]; [done|].
  rewrite field_lor, (field_shiftl_other _ _ W), Z.lor_0_r, He, <- F_read by lia. done.
Qed.

End TwoStep.

(** ** The driver on open windows *)
Section Proofs.
Context {O : MapOs} {D : Device}.

Definition ready (s : hx) : Prop :=
  isopen s = true /\ forall w, IoMap.window (im (iomap w s)) = MapBlockSize.
(** The registers that hold port [n]. *)
Definition port_regs (n : Z) (s : hx) : hw := regs (iomap (window (ptr n)) s).
Definition with_regs (n : Z) (h : hw) (s : hx) : hx :=
  set_iomap (window (ptr n)) (set_regs h (iomap (window (ptr n)) s)) s.

Lemma port_regs_with n h s : port_regs n (with_regs n h s) = h.
Proof. unfold port_regs, with_regs. by destruct (window (ptr n)). Qed.

Lemma with_regs_with n h h' s : with_regs n h (with_regs n h' s) = with_regs n h s.
Proof. unfold with_regs. by destruct (window (ptr n)). Qed.

Lemma port_regs_other n n' h s : port_regs n' (with_regs n h s) =
  if bool_decide (window (ptr n) = window (ptr n')) then h else port_regs n' s.
Proof. unfold port_regs, with_regs. by destruct (window (ptr n)), (window (ptr n')). Qed.

Lemma hx_ready_with n h s : ready s -> ready (with_regs n h s).
Proof.
  intros [Ho Hw]. unfold with_regs.
  split; [by destruct (window (ptr n))|]. intros w. pose proof (Hw w).
  by destruct (window (ptr n)), w.
Qed.
#[local] Hint Resolve hx_ready_with : piduino.

(** [open] establishes it. *)
Lemma hx_open_ready {OK : MapOsOk O} (s : hx) (o1 o2 o3 o4 : os) (n n' : Z) :
  isopen s = false -> IoMap.isOpen (im (iomap0 s)) = false -> IoMap.isOpen (im (iomap1 s)) = false ->
  sys_open "/dev/mem" (IoMap.sys (im (iomap0 s))) = (inr n, o1) -> sys_mmap MapBlockSize n Io1Base o1 = (None, o2) ->
  sys_open "/dev/mem" (IoMap.sys (im (iomap1 s))) = (inr n', o3) -> sys_mmap MapBlockSize n' Io2Base o3 = (None, o4) ->
  exists s', open s = (Ok true, s') /\ ready s'.
Proof.
  intros Hc H0 H1 Ho Hm Ho' Hm'.
  pose proof (IoMap.open_device_mapped _ _ _ _ _ _ _ H0 Ho Hm) as Hd.
  pose proof (IoMap.open_device_mapped _ _ _ _ _ _ _ H1 Ho' Hm') as Hd'.
  unfold open, on_map, on_io, IoMap.open, zoom. munfold. rewrite Hc, Hd. cbn. rewrite Hd'.
  eexists. split; [reflexivity|]. split; [done|]. by intros [].
Qed.

Lemma bank_window n k s : ready s -> port n -> 0 <= k < 9 ->
  in_window (start (ptr n) + k) (iomap (window (ptr n)) s) = true.
Proof.
  intros [_ Hw] Hn Hk. pose proof (start_cases n Hn). apply in_window_ok; [lia|].
  rewrite Hw. unfold MapBlockSize. lia.
Qed.

Lemma hx_get_eq n k s : ready s -> port n -> 0 <= k < 9 ->
  get (ptr n) k s = (Ok (hw_read (start (ptr n) + k) (port_regs n s)), s).
Proof.
  intros Hs Hn Hk. unfold get, on_io, zoom, atomicRead. rewrite bank_window by done.
  unfold port_regs, set_iomap, iomap. by destruct s, (window (ptr n)).
Qed.

Lemma hx_put_eq n k v s : ready s -> port n -> 0 <= k < 9 -> 0 <= v < 2 ^ 32 ->
  put (ptr n) k v s = (Ok tt, with_regs n (hw_write (start (ptr n) + k) v (port_regs n s)) s).
Proof.
  intros Hs Hn Hk Hv. unfold put, on_io, zoom. by rewrite atomicWrite_ok by (done || by apply bank_window).
Qed.

Lemma and_not_eq n k x s : ready s -> port n -> 0 <= k < 9 ->
  0 <= Z.ldiff (hw_read (start (ptr n) + k) (port_regs n s)) x < 2 ^ 32 ->
  and_not (ptr n) k x s = (Ok tt, with_regs n (hw_write (start (ptr n) + k)
    (Z.ldiff (hw_read (start (ptr n) + k) (port_regs n s)) x) (port_regs n s)) s).
Proof.
  intros Hs Hn Hk Hv. unfold and_not. rewrite (M_bind_ok _ _ _ _ _ _ _ _ (hx_get_eq n k s Hs Hn Hk)).
  unfold u32. rewrite land_not_ldiff by (lia || auto with piduino). by apply hx_put_eq.
Qed.

Lemma or_eq_eq n k x s : ready s -> port n -> 0 <= k < 9 -> 0 <= x < 2 ^ 32 ->
  0 <= Z.lor (hw_read (start (ptr n) + k) (port_regs n s)) x < 2 ^ 32 ->
  or_eq (ptr n) k x s = (Ok tt, with_regs n (hw_write (start (ptr n) + k)
    (Z.lor (hw_read (start (ptr n) + k) (port_regs n s)) x) (port_regs n s)) s).
Proof.
  intros Hs Hn Hk Hx Hv. unfold or_eq. rewrite (M_bind_ok _ _ _ _ _ _ _ _ (hx_get_eq n k s Hs Hn Hk)).
  rewrite u32_small by done. by apply hx_put_eq.
Qed.

Lemma elem_bind {A} (k : Z -> M hx A) b n r s : 0 <= r < n -> (elem b n r ≫= k) s = k (b + r) s.
Proof.
  intros Hr. unfold elem. by rewrite (proj2 (Z.leb_le 0 r)), (proj2 (Z.ltb_lt r n)) by lia.
Qed.

Lemma pinBank_bind {A} (k : PioBank * Z -> M hx A) n i s : ready s -> is_pin n i ->
  (pinBank (first n + i) ≫= k) s = k (ptr n, i) s.
Proof.
  intros [Ho _] [Hn Hi]. apply M_bind_ok. by rewrite pinBank_port, Ho.
Qed.

(** The update of a field, [b->R[r] &= ~ (mask << i); b->R[r] |= v << i]. *)
Lemma two_step_eq base m W w n i c s :
  0 < m -> m * W = 32 -> 0 <= w <= W -> 0 <= base /\ (forall i, 0 <= i < 22 -> base + i / m < 9) ->
  ready s -> is_pin n i -> 0 <= c < 2 ^ w ->
  (and_not (ptr n) (base + i / m) (Z.shiftl (Z.ones W) (i mod m * W));;
   or_eq (ptr n) (base + i / m) (Z.shiftl c (i mod m * W))) s =
  (Ok tt, with_regs n (updated base m W n i c (port_regs n s)) s).
Proof.
  intros Hm HW Hw Hb Hs Hp Hc. pose proof (pin_bit _ _ Hp) as Hi22. destruct Hp as [Hn Hi].
  assert (0 <= base + i / m < 9) as Hk
    by (pose proof (Z.div_pos i m); destruct Hb as [? Hb]; pose proof (Hb i Hi22); lia).
  destruct (word_bounds base m W w Hm HW Hw n i c (port_regs n s)) as [Hl Hsh]; [by split|done|].
  rewrite (M_bind_ok _ _ _ _ _ _ _ _ (and_not_eq n _ _ s Hs Hn Hk Hl)).
  rewrite or_eq_eq; rewrite ?port_regs_with, ?with_regs_with; [done|auto with piduino|done..|].
  apply (lor_word base m W w); first [assumption|by split].
Qed.

Lemma shift_place i k m : 0 <= i -> m = 2 ^ k -> 0 <= k -> Z.shiftr i k = i / m /\ i - i / m * m = i mod m.
Proof. intros Hi -> Hk. rewrite Z.shiftr_div_pow2 by done. split; [done|]. rewrite Z.mod_eq by lia. lia. Qed.

Lemma cfg_hyp : 0 <= CFG /\ forall i, 0 <= i < 22 -> CFG + i / 8 < 9.
Proof. split; [done|]. intros i Hi. pose proof (Z.div_lt_upper_bound i 8 4). unfold CFG. lia. Qed.
Lemma drv_hyp : 0 <= DRV /\ forall i, 0 <= i < 22 -> DRV + i / 16 < 9.
Proof. split; [done|]. intros i Hi. pose proof (Z.div_lt_upper_bound i 16 2). unfold DRV. lia. Qed.
Lemma pul_hyp : 0 <= PUL /\ forall i, 0 <= i < 22 -> PUL + i / 16 < 9.
Proof. split; [done|]. intros i Hi. pose proof (Z.div_lt_upper_bound i 16 2). unfold PUL. lia. Qed.

(** The modes a pin can be given, and the one it then reports. *)
Definition settable (g : Z) (m : mode) : bool :=
  match m with
  | ModePwm => g =? 5
  | ModeAlt0 | ModeAlt1 | ModeAlt7 | ModeAlt8 | ModeAlt9 | ModeUnknown => false
  | _ => true
  end.
Definition pwm_name (g : Z) (m : mode) : mode := if bool_decide (m = ModeAlt3) && (g =? 5) then ModePwm else m.

Lemma hx_mode_of_eq n i s : ready s -> is_pin n i ->
  mode_of (first n + i) s = match tab int2mode (cfg n i (port_regs n s)) with
                            | Some m => (Ok (pwm_name (first n + i) m), s)
                            | None => (Throw OutOfRange, s)
                            end.
Proof.
  intros Hs Hp. pose proof (pin_bit _ _ Hp) as Hi. unfold mode_of. rewrite pinBank_bind by done.
  destruct (shift_place i 3 8) as [-> ->]; [lia..|]. destruct (div_place i 8 4) as [Hd Hm]; [lia..|].
  rewrite elem_bind by done.
  rewrite (M_bind_ok _ _ _ _ _ _ _ _ (hx_get_eq n (CFG + i / 8) s Hs (proj1 Hp) ltac:(unfold CFG; lia))).
  change (Z.land (Z.shiftr (hw_read (start (ptr n) + (CFG + i / 8)) (port_regs n s)) (i mod 8 * 4)) 7)
    with (cfg n i (port_regs n s)).
  by destruct (tab int2mode (cfg n i (port_regs n s))).
Qed.

Lemma hx_setMode_code g m s : settable g m = true ->
  exists m' c, pwm_function g m s = (Ok m', s) /\ tab mode2int m' = Some c /\ 0 <= c < 2 ^ 3 /\
    tab int2mode c = Some m' /\ pwm_name g m' = pwm_name g m.
Proof.
  intros Hs. unfold pwm_function.
  destruct m; try discriminate Hs; cbn [settable] in Hs |- *;
    try (eexists _, _; split; [reflexivity|]; split; [reflexivity|]; split; [lia|]; by split).
  case_bool_decide; [|done]. rewrite Hs. exists ModeAlt3, 3. unfold pwm_name. rewrite Hs. repeat split; lia || done.
Qed.

Lemma hx_setMode_eq n i m m' c s : ready s -> is_pin n i ->
  pwm_function (first n + i) m s = (Ok m', s) -> tab mode2int m' = Some c -> 0 <= c < 2 ^ 3 ->
  setMode (first n + i) m s = (Ok tt, with_regs n (updated CFG 8 4 n i c (port_regs n s)) s).
Proof.
  intros Hs Hp Hf Hc Hb. pose proof (pin_bit _ _ Hp) as Hi. unfold setMode. rewrite pinBank_bind by done.
  destruct (shift_place i 3 8) as [-> ->]; [lia..|]. destruct (div_place i 8 4) as [Hd Hm]; [lia..|].
  rewrite (M_bind_ok _ _ _ _ _ _ _ _ Hf), Hc. cbn [at_map].
  rewrite (M_bind_ok _ _ _ (mret c) _ s c s eq_refl), elem_bind by done.
  apply (two_step_eq CFG 8 4 3); first [assumption | lia | apply cfg_hyp].
Qed.

Lemma hx_setMode_refused n i m s : ready s -> is_pin n i -> settable (first n + i) m = false ->
  exists e, setMode (first n + i) m s = (Throw e, s) /\
    e = if bool_decide (m = ModePwm) then InvalidArgument else OutOfRange.
Proof.
  intros Hs Hp Hm. eexists. split; [|done]. unfold setMode. rewrite pinBank_bind by done.
  destruct m; try discriminate Hm; try done. apply M_bind_throw.
  cbn [settable] in Hm. unfold pwm_function. by rewrite Hm.
Qed.

Context {R : HxPio D}.

Lemma latch_updated base m W n i c n' i' s :
  is_pin n i -> is_pin n' i' -> 0 <= base + i / m < 9 -> base + i / m <> DAT ->
  latch n' i' (updated base m W n i c s) = latch n' i' s.
Proof.
  intros [Hn Hi] Hp' Hk Hne. unfold updated, cleared. rewrite !latch_write by done.
  rewrite (proj2 (Z.eqb_neq _ _)); [done|]. unfold dat_reg. intros He.
  apply start_apart in He as [_ He]; [done|done|apply Hp'|done|unfold DAT; lia].
Qed.

(** [AllWinnerHxGpio::setMode] on any pin of an open device.  A mode the
    pin has is set so that [mode] reports it (on PA5 the function that carries
    the PWM is [ModePwm]), no other pin changes its mode nor any pin its output
    latch; any other mode is refused with an exception and nothing is written. *)
Theorem hx_setMode_exact g m s :
  ready s -> 0 <= g < GpioSize ->
  if settable g m then
    exists s', setMode g m s = (Ok tt, s') /\ ready s' /\ mode_of g s' = (Ok (pwm_name g m), s') /\
      forall n i, is_pin n i -> latch n i (port_regs n s') = latch n i (port_regs n s) /\
        (first n + i <> g -> fst (mode_of (first n + i) s') = fst (mode_of (first n + i) s))
  else exists e, setMode g m s = (Throw e, s) /\
         e = if bool_decide (m = ModePwm) then InvalidArgument else OutOfRange.
Proof.
  intros Hs Hg. destruct (pin_port g Hg) as (n & i & Hn & Hi & ->). assert (is_pin n i) as Hp by done.
  destruct (settable _ m) eqn:Hm; [|by apply hx_setMode_refused].
  destruct (hx_setMode_code _ m s Hm) as (m' & c & Hf & Hc & Hb & Hi' & Hrep).
  pose proof (pin_bit _ _ Hp) as H22. destruct (div_place i 8 4) as [Hd _]; [lia..|].
  rewrite (hx_setMode_eq n i m m' c) by done. eexists. split; [reflexivity|].
  split; [by apply hx_ready_with|]. split.
  - rewrite hx_mode_of_eq, port_regs_with by auto with piduino.
    rewrite (updated_same CFG 8 4 3 cfg) by (done || lia || apply cfg_write). by rewrite Hi', Hrep.
  - intros n' i' Hp'. rewrite port_regs_other. split.
    + case_bool_decide as Hw; [|done]. rewrite latch_updated by (done || unfold CFG, DAT; lia).
      unfold port_regs. by rewrite Hw.
    + intros Hne. rewrite !hx_mode_of_eq, port_regs_other by auto with piduino.
      assert (cfg n' i' (updated CFG 8 4 n i c (port_regs n s)) = cfg n' i' (port_regs n s)) as Hcfg.
      { apply (updated_other CFG 8 4 3 cfg); try done; try lia; [apply cfg_hyp|apply cfg_write|congruence]. }
      case_bool_decide as Hw; [|by destruct (tab int2mode (cfg n' i' (port_regs n' s)))].
      rewrite Hcfg. replace (port_regs n s) with (port_regs n' s) by (unfold port_regs; by rewrite Hw).
      by destruct (tab int2mode (cfg n' i' (port_regs n' s))).
Qed.

(** ** Pulls and drives *)
Definition pull_code (c : Z) : pull :=
  match c with 0 => PullOff | 2 => PullDown | 1 => PullUp | _ => PullUnknown end.

Lemma hx_pull_of_eq n i s : ready s -> is_pin n i ->
  pull_of (first n + i) s = (Ok (pull_code (pul n i (port_regs n s))), s).
Proof.
  intros Hs Hp. pose proof (pin_bit _ _ Hp) as Hi. unfold pull_of. rewrite pinBank_bind by done.
  destruct (shift_place i 4 16) as [-> ->]; [lia..|]. destruct (div_place i 16 2) as [Hd Hm]; [lia..|].
  rewrite elem_bind by done.
  by rewrite (M_bind_ok _ _ _ _ _ _ _ _ (hx_get_eq n (PUL + i / 16) s Hs (proj1 Hp) ltac:(unfold PUL; lia))).
Qed.

Lemma drive_eq n i s : ready s -> is_pin n i -> drive (first n + i) s = (Ok (drv n i (port_regs n s)), s).
Proof.
  intros Hs Hp. pose proof (pin_bit _ _ Hp) as Hi. unfold drive. rewrite pinBank_bind by done.
  destruct (shift_place i 4 16) as [-> ->]; [lia..|]. destruct (div_place i 16 2) as [Hd Hm]; [lia..|].
  rewrite elem_bind by done.
  by rewrite (M_bind_ok _ _ _ _ _ _ _ _ (hx_get_eq n (DRV + i / 16) s Hs (proj1 Hp) ltac:(unfold DRV; lia))).
Qed.

Lemma setPull_eq n i p s : ready s -> is_pin n i -> 0 <= pval p ->
  setPull (first n + i) p s = (Ok tt, with_regs n (updated PUL 16 2 n i (pval p) (port_regs n s)) s).
Proof.
  intros Hs Hp Hv. pose proof (pin_bit _ _ Hp) as Hi. unfold setPull. rewrite pinBank_bind by done.
  destruct (shift_place i 4 16) as [-> ->]; [lia..|]. destruct (div_place i 16 2) as [Hd Hm]; [lia..|].
  cbn zeta. rewrite (proj2 (Z.leb_le _ _) Hv), elem_bind by done.
  apply (two_step_eq PUL 16 2 2); first [assumption | lia | apply pul_hyp | destruct p; cbn in *; lia].
Qed.

Lemma setDrive_eq n i v s : ready s -> is_pin n i -> 0 <= v <= 3 ->
  setDrive (first n + i) v s = (Ok tt, with_regs n (updated DRV 16 2 n i v (port_regs n s)) s).
Proof.
  intros Hs Hp Hv. pose proof (pin_bit _ _ Hp) as Hi. unfold setDrive. rewrite pinBank_bind by done.
  destruct (shift_place i 4 16) as [-> ->]; [lia..|]. destruct (div_place i 16 2) as [Hd Hm]; [lia..|].
  rewrite (proj2 (Z.leb_le 0 v)), (proj2 (Z.leb_le v 3)) by lia. cbn [andb].
  rewrite elem_bind by done. apply (two_step_eq DRV 16 2 2); first [assumption | lia | apply drv_hyp].
Qed.

(** The registers of another kind keep their fields. *)
Lemma reg_apart n i n' i' k k' : is_pin n i -> is_pin n' i' -> 0 <= k < 9 -> 0 <= k' < 9 -> k <> k' ->
  (start (ptr n) + k =? start (ptr n') + k') = false.
Proof.
  intros [Hn _] [Hn' _] Hk Hk' Hne. apply Z.eqb_neq. intros He. by apply start_apart in He as [_ He].
Qed.

Lemma drv_after_pul n i c n' i' s : is_pin n i -> is_pin n' i' -> 0 <= c < 2 ^ 2 ->
  drv n' i' (updated PUL 16 2 n i c s) = drv n' i' s.
Proof.
  intros Hp Hp' Hc. pose proof (pin_bit _ _ Hp). pose proof (pin_bit _ _ Hp').
  destruct (div_place i 16 2) as [Hd _], (div_place i' 16 2) as [Hd' _]; [lia..|].
  destruct (word_bounds PUL 16 2 2 ltac:(lia) ltac:(lia) ltac:(lia) n i c s Hp Hc) as [Hl _].
  unfold updated. rewrite drv_write by (done || apply (lor_word PUL 16 2 2); done || lia).
  unfold drv_reg. rewrite (reg_apart n i n' i') by (done || unfold PUL, DRV; lia).
  unfold cleared. rewrite drv_write by done.
  unfold drv_reg. by rewrite (reg_apart n i n' i') by (done || unfold PUL, DRV; lia).
Qed.

Lemma pul_after_drv n i c n' i' s : is_pin n i -> is_pin n' i' -> 0 <= c < 2 ^ 2 ->
  pul n' i' (updated DRV 16 2 n i c s) = pul n' i' s.
Proof.
  intros Hp Hp' Hc. pose proof (pin_bit _ _ Hp). pose proof (pin_bit _ _ Hp').
  destruct (div_place i 16 2) as [Hd _], (div_place i' 16 2) as [Hd' _]; [lia..|].
  destruct (word_bounds DRV 16 2 2 ltac:(lia) ltac:(lia) ltac:(lia) n i c s Hp Hc) as [Hl _].
  unfold updated. rewrite pul_write by (done || apply (lor_word DRV 16 2 2); done || lia).
  unfold pul_reg. rewrite (reg_apart n i n' i') by (done || unfold PUL, DRV; lia).
  unfold cleared. rewrite pul_write by done.
  unfold pul_reg. by rewrite (reg_apart n i n' i') by (done || unfold PUL, DRV; lia).
Qed.

(** [setPull] and [setDrive] on any pin of an open device: [pull] and
    [drive] read back what was set, every other pin keeps its pull and its
    drive, and neither operation touches the other setting of any pin.
    [PullUnknown] changes nothing; a drive that is not 0 to 3 is refused. *)
Theorem hx_pull_drive_exact g s :
  ready s -> 0 <= g < GpioSize ->
  (forall p, if bool_decide (p = PullUnknown) then setPull g p s = (Ok tt, s)
     else exists s', setPull g p s = (Ok tt, s') /\ pull_of g s' = (Ok p, s') /\
       forall n i, is_pin n i -> fst (drive (first n + i) s') = fst (drive (first n + i) s) /\
         (first n + i <> g -> fst (pull_of (first n + i) s') = fst (pull_of (first n + i) s))) /\
  (forall v, if (0 <=? v) && (v <=? 3) then
       exists s', setDrive g v s = (Ok tt, s') /\ drive g s' = (Ok v, s') /\
         forall n i, is_pin n i -> fst (pull_of (first n + i) s') = fst (pull_of (first n + i) s) /\
           (first n + i <> g -> fst (drive (first n + i) s') = fst (drive (first n + i) s))
     else setDrive g v s = (Throw InvalidArgument, s)).
Proof.
  intros Hs Hg. destruct (pin_port g Hg) as (n & i & Hn & Hi & ->). assert (is_pin n i) as Hp by done.
  split; [intros p|intros v].
  - case_bool_decide as Hu; [rewrite Hu; unfold setPull; by rewrite pinBank_bind|].
    assert (0 <= pval p < 2 ^ 2 /\ pull_code (pval p) = p) as [Hv Hc] by (by destruct p).
    rewrite setPull_eq by (done || lia). eexists. split; [reflexivity|]. split.
    + rewrite hx_pull_of_eq, port_regs_with by auto with piduino.
      rewrite (updated_same PUL 16 2 2 pul) by (done || lia || apply pul_write). by rewrite Hc.
    + intros n' i' Hp'. rewrite !drive_eq, !hx_pull_of_eq, port_regs_other by auto with piduino.
      case_bool_decide as Hw; [|done].
      replace (port_regs n' s) with (port_regs n s) by (unfold port_regs; by rewrite Hw).
      cbn [fst]. rewrite drv_after_pul by done. split; [done|]. intros Hne.
      rewrite (updated_other PUL 16 2 2 pul);
        [done|lia..|apply pul_hyp|done|apply pul_write|done|done|congruence|done].
  - destruct (Z.leb_spec 0 v), (Z.leb_spec v 3); cbn [andb];
      try (unfold setDrive; rewrite pinBank_bind by done; case_bool; done || lia).
    assert (0 <= v < 2 ^ 2) by lia. rewrite setDrive_eq by lia || done.
    eexists. split; [reflexivity|]. split.
    + rewrite drive_eq, port_regs_with by auto with piduino.
      by rewrite (updated_same DRV 16 2 2 drv) by (done || lia || apply drv_write).
    + intros n' i' Hp'. rewrite !drive_eq, !hx_pull_of_eq, port_regs_other by auto with piduino.
      case_bool_decide as Hw; [|done].
      replace (port_regs n' s) with (port_regs n s) by (unfold port_regs; by rewrite Hw).
      cbn [fst]. rewrite pul_after_drv by done. split; [done|]. intros Hne.
      rewrite (updated_other DRV 16 2 2 drv);
        [done|lia..|apply drv_hyp|done|apply drv_write|done|done|congruence|done].
Qed.

(** ** Levels *)
Definition level (n i : Z) (s : hx) : bool :=
  if cfg n i (port_regs n s) =? 1 then latch n i (port_regs n s) else input n i (port_regs n s).

Lemma one_shl_bind {A} (k : Z -> M hx A) g s : 0 <= g < 32 -> (one_shl g ≫= k) s = k (2 ^ g) s.
Proof.
  intros Hg. unfold one_shl. rewrite (proj2 (Z.leb_le 0 g)), (proj2 (Z.ltb_lt g 32)) by lia.
  cbn [andb]. by rewrite Z.shiftl_1_l.
Qed.

Lemma hx_read_eq n i s : ready s -> is_pin n i -> read (first n + i) s = (Ok (level n i s), s).
Proof.
  intros Hs Hp. pose proof (pin_bit _ _ Hp) as Hi. pose proof (bit32_bound i ltac:(lia)).
  unfold read. rewrite pinBank_bind by done.
  rewrite (M_bind_ok _ _ _ _ _ _ _ _ (hx_get_eq n DAT s Hs (proj1 Hp) ltac:(unfold DAT; lia))).
  rewrite one_shl_bind, u32_small by lia. rewrite land_bit by lia.
  fold (dat_reg n). by rewrite dat_read.
Qed.

(** The data word [write] and [toggle] store. *)
Definition data (op : option bool) (x i : Z) : Z :=
  match op with
  | Some true => Z.lor x (2 ^ i) | Some false => Z.ldiff x (2 ^ i) | None => Z.lxor x (2 ^ i)
  end.

Lemma data_bit op x i j : 0 <= i -> 0 <= j ->
  Z.testbit (data op x i) j = if j =? i then default (negb (Z.testbit x j)) op else Z.testbit x j.
Proof.
  intros Hi Hj. destruct op as [[]|]; cbn [data];
    rewrite ?Z.lor_spec, ?Z.ldiff_spec, ?Z.lxor_spec, Z.pow2_bits_eqb, (Z.eqb_sym i j) by done;
    destruct (j =? i); cbn; by rewrite ?orb_false_r, ?orb_true_r, ?andb_false_r, ?andb_true_r, ?xorb_false_r, ?xorb_true_r.
Qed.

Lemma data_bound op x i : 0 <= x < 2 ^ 32 -> 0 <= i < 32 -> 0 <= data op x i < 2 ^ 32.
Proof.
  intros Hx Hi. assert (0 <= data op x i).
  { destruct op as [[]|]; cbn [data].
    - apply Z.lor_nonneg. lia.
    - apply Z.ldiff_nonneg. lia.
    - apply Z.lxor_nonneg. lia. }
  split; [done|]. apply bits_bound; [lia|done|]. intros k Hk.
  rewrite data_bit by lia. rewrite (proj2 (Z.eqb_neq k i)) by lia. by apply (testbit_high x 32).
Qed.

(** [write] and [toggle], the latter as no value. *)
Definition drive_pin (op : option bool) (g : Z) : M hx unit :=
  match op with Some v => write g v | None => toggle g end.

Lemma hx_drive_pin_eq op n i s : ready s -> is_pin n i ->
  drive_pin op (first n + i) s =
  (Ok tt, with_regs n (hw_write (dat_reg n) (data op (hw_read (dat_reg n) (port_regs n s)) i) (port_regs n s)) s).
Proof.
  intros Hs Hp. pose proof (pin_bit _ _ Hp) as Hi. pose proof (bit32_bound i ltac:(lia)) as Hb.
  pose proof (hw_word (dat_reg n) (port_regs n s)) as Hx. pose proof (data_bound op _ i Hx ltac:(lia)) as Hd.
  assert (0 <= DAT < 9) by (unfold DAT; lia). destruct Hp as [Hn Hsz]. unfold dat_reg in *.
  destruct op as [[]|]; cbn [drive_pin data] in *; unfold write, toggle;
    rewrite pinBank_bind by done; rewrite one_shl_bind by lia.
  - by apply or_eq_eq.
  - by apply and_not_eq.
  - unfold xor_eq. rewrite (M_bind_ok _ _ _ _ _ _ _ _ (hx_get_eq n DAT s Hs Hn ltac:(done))).
    rewrite u32_small by done. by apply hx_put_eq.
Qed.

Lemma cfg_dat n n' i' v s : port n -> is_pin n' i' -> 0 <= v < 2 ^ 32 ->
  cfg n' i' (hw_write (dat_reg n) v s) = cfg n' i' s.
Proof.
  intros Hn Hp' Hv. pose proof (pin_bit _ _ Hp'). destruct (div_place i' 8 4) as [Hd' _]; [lia..|].
  rewrite cfg_write by done. unfold dat_reg, cfg_reg.
  destruct (Z.eqb_spec (start (ptr n) + DAT) (start (ptr n') + (CFG + i' / 8))) as [He|]; [|done].
  apply start_apart in He as [_ He]; [|done|apply Hp'|..]; unfold DAT, CFG in *; lia.
Qed.

(** [write] and [toggle] drive the latch of exactly the addressed pin among
    the output pins, and on an output [read] returns the new value.  The update
    reads the whole data register and writes it back, so the latch of a pin of
    the same port that is not an output takes the level the pin has. *)
Theorem hx_output_exact op g s :
  ready s -> 0 <= g < GpioSize ->
  exists n i s', is_pin n i /\ g = first n + i /\ drive_pin op g s = (Ok tt, s') /\ ready s' /\
    latch n i (port_regs n s') = default (negb (level n i s)) op /\
    (cfg n i (port_regs n s) = 1 -> read g s' = (Ok (default (negb (latch n i (port_regs n s))) op), s')) /\
    forall n' i', is_pin n' i' -> cfg n' i' (port_regs n' s') = cfg n' i' (port_regs n' s) /\
      ((n', i') <> (n, i) -> latch n' i' (port_regs n' s') =
         if n' =? n then level n' i' s else latch n' i' (port_regs n' s)).
Proof.
  intros Hs Hg. destruct (pin_port g Hg) as (n & i & Hn & Hi & ->). assert (is_pin n i) as Hp by done.
  pose proof (pin_bit _ _ Hp) as H22. pose proof (hw_word (dat_reg n) (port_regs n s)) as Hx.
  pose proof (data_bound op _ i Hx ltac:(lia)) as Hd.
  exists n, i. eexists. split; [done|]. split; [done|]. split; [by apply hx_drive_pin_eq|].
  split; [by apply hx_ready_with|].
  assert (Hl : latch n i (hw_write (dat_reg n) (data op (hw_read (dat_reg n) (port_regs n s)) i) (port_regs n s))
    = default (negb (level n i s)) op).
  { rewrite latch_write, Z.eqb_refl, data_bit, Z.eqb_refl by (done || lia). by rewrite dat_read. }
  split; [by rewrite port_regs_with|]. split.
  - intros Hc. rewrite hx_read_eq by auto with piduino. unfold level at 1.
    rewrite port_regs_with, cfg_dat, Hc, Hl by done. cbn. unfold level. by rewrite Hc.
  - intros n' i' Hp'. rewrite port_regs_other. case_bool_decide as Hw.
    + replace (port_regs n' s) with (port_regs n s) by (unfold port_regs; by rewrite Hw).
      split; [by apply cfg_dat|]. intros Hne. pose proof (pin_bit _ _ Hp'). rewrite latch_write by done.
      destruct (Z.eqb_spec n' n) as [->|Hnn].
      * rewrite Z.eqb_refl, data_bit, dat_read by (done || lia). destruct (Z.eqb_spec i' i); [congruence|done].
      * unfold dat_reg. destruct (Z.eqb_spec (start (ptr n) + DAT) (start (ptr n') + DAT)) as [He|]; [|done].
        apply start_apart in He as [? _]; [by subst|done|apply Hp'|unfold DAT; lia..].
    + split; [done|]. intros Hne. destruct (Z.eqb_spec n' n) as [->|]; [done|done].
Qed.

End Proofs.

(** ** A controller with these laws: every register is a word of memory *)
Module Demo.

Definition ram_read (o : Z) (s : Z -> Z) : Z := u32 (s o).
Definition ram_write (o v : Z) (s : Z -> Z) : Z -> Z := fun x => if o =? x then v else s x.

Definition device : Device :=
  {| hw := Z -> Z; hw_read := ram_read; hw_write := ram_write; hw_word := fun o s => u32_bound _ |}.

Lemma ram_field o r v s sh w : 0 <= v < 2 ^ 32 ->
  field (ram_read r (ram_write o v s)) sh w = if o =? r then field v sh w else field (ram_read r s) sh w.
Proof. intros Hv. unfold ram_read, ram_write. destruct (o =? r); [|done]. by rewrite u32_small. Qed.

#[export] Program Instance device_pio : HxPio device := {|
  latch n i s := Z.testbit (s (dat_reg n)) i;
  input n i s := Z.testbit (s (dat_reg n)) i |}.
Next Obligation. intros. by apply ram_field. Qed.
Next Obligation. intros. by apply ram_field. Qed.
Next Obligation. intros. by apply ram_field. Qed.
Next Obligation. intros. cbn. unfold ram_write. by destruct (o =? dat_reg n). Qed.
Next Obligation.
  intros n i s Hp. pose proof (pin_bit _ _ Hp). cbn -[Z.testbit]. unfold ram_read, u32.
  rewrite Z.mod_pow2_bits_low by lia. by destruct (cfg n i s =? 1).
Qed.

Definition window_at (b : Z) : @io IoMap.no_mmap device :=
  @mk_io IoMap.no_mmap device (IoMap.mk_iomap b MapBlockSize 4 IoMap.Mapped (tt : @os IoMap.no_mmap)) (fun _ => 0x11111111).
Definition demo : @hx IoMap.no_mmap device := mk_hx true (window_at Io1Base) (window_at Io2Base).

Lemma hx_demo_ready : ready demo.
Proof. split; [done|]. by intros []. Qed.

Lemma hx_pinBank_exact_witness : pinBank 30 demo = (Ok (ptr 2, 8), demo) /\ pinBank 106 demo = (Throw OutOfRange, demo).
Proof.
  destruct (hx_pinBank_exact demo) as (H1 & _ & H3). split.
  - exact (H1 2 8 ltac:(unfold port; lia) ltac:(port_numbers; lia)).
  - exact (H3 106 ltac:(unfold GpioSize; lia)).
Defined.

Lemma hx_setMode_exact_witness :
  exists s', setMode 5 ModePwm demo = (Ok tt, s') /\ ready s' /\ mode_of 5 s' = (Ok ModePwm, s') /\
    forall n i, is_pin n i -> latch n i (port_regs n s') = latch n i (port_regs n demo) /\
      (first n + i <> 5 -> fst (mode_of (first n + i) s') = fst (mode_of (first n + i) demo)).
Proof. exact (hx_setMode_exact 5 ModePwm demo hx_demo_ready ltac:(unfold GpioSize; lia)). Defined.

Lemma hx_pull_drive_exact_witness :
  exists s', setPull 100 PullUp demo = (Ok tt, s') /\ pull_of 100 s' = (Ok PullUp, s') /\
    forall n i, is_pin n i -> fst (drive (first n + i) s') = fst (drive (first n + i) demo) /\
      (first n + i <> 100 -> fst (pull_of (first n + i) s') = fst (pull_of (first n + i) demo)).
Proof.
  exact (proj1 (hx_pull_drive_exact 100 demo hx_demo_ready ltac:(unfold GpioSize; lia)) PullUp).
Defined.

Lemma hx_output_exact_witness :
  exists n i s', is_pin n i /\ 30 = first n + i /\ drive_pin (Some false) 30 demo = (Ok tt, s') /\ ready s' /\
    latch n i (port_regs n s') = false.
Proof.
  destruct (hx_output_exact (Some false) 30 demo hx_demo_ready ltac:(unfold GpioSize; lia))
    as (n & i & s' & H1 & H2 & H3 & H4 & H5 & _).
  exists n, i, s'. split; [exact H1|]. split; [exact H2|]. split; [exact H3|]. split; [exact H4|exact H5].
Defined.

End Demo.
End Hx.
