(* ===== verification/GpioRp1.v ===== *)
(** * The GPIO driver of the Raspberry Pi 5 south bridge, gpio_rp1.cpp

    Three register banks share one mapping: the control and status words of the
    pins, the pads, and the RIO block whose aliases set, clear and flip bits
    atomically.  They are the interface [Rp1Regs]. *)
From S2P Require Import Prelude Mmio.
Import Pin Mmio.

Module Rp1.

Definition GpioBlockSize : Z := 0x40100000 - 0x400d0000.
Definition PCIeBlockSize : Z := 0x00400000.
Definition GpioOffset : Z := (0x400d0000 - 0x40000000) / 4.
Definition PadsOffset : Z := (0x400f0000 - 0x400d0000) / 4.
Definition RioOffset : Z := (0x400e0000 - 0x400d0000) / 4.

Definition FselGpio : Z := 5.
Definition FselNone : Z := 9.
Definition FselNoneHw : Z := 0x1f.
Definition GPIO_RIO_OUT : Z := 0.
Definition GPIO_RIO_OE : Z := 1.
Definition GPIO_RIO_IN : Z := 2.
Definition GPIO_RIO_SET_OFFSET : Z := 0x2000 / 4.
Definition GPIO_RIO_CLR_OFFSET : Z := 0x3000 / 4.
Definition GPIO_RIO_XOR_OFFSET : Z := 0x1000 / 4.
Definition GPIO_PAD_DRIVE_LSB : Z := 4.
Definition GPIO_PAD_SLEWFAST : Z := 0x01.
Definition GPIO_PAD_SCHMITT : Z := 0x02.
Definition GPIO_PAD_PULL_OFF : Z := 0x00.
Definition GPIO_PAD_PULL_DOWN : Z := 0x04.
Definition GPIO_PAD_PULL_UP : Z := 0x08.
Definition GPIO_PAD_DRIVE_4MA : Z := 0x10.
Definition GPIO_PAD_IN_ENABLE : Z := 0x40.
Definition GPIO_PAD_OUT_DISABLE : Z := 0x80.
Definition GPIO_PAD_PULL_MASK : Z := Z.lor GPIO_PAD_PULL_UP GPIO_PAD_PULL_DOWN.
Definition GPIO_PAD_DRIVE_MASK : Z := 0x30.
Definition GPIO_PAD_HW_0TO8 : Z :=
  Z.lor (Z.lor (Z.lor GPIO_PAD_OUT_DISABLE GPIO_PAD_DRIVE_4MA) GPIO_PAD_PULL_UP) GPIO_PAD_SCHMITT.
Definition GPIO_PAD_HW_FROM9 : Z :=
  Z.lor (Z.lor (Z.lor GPIO_PAD_OUT_DISABLE GPIO_PAD_DRIVE_4MA) GPIO_PAD_PULL_DOWN) GPIO_PAD_SCHMITT.
Definition GPIO_STATUS_OE : Z := Z.lor (2 ^ 12) (2 ^ 13).
Definition GPIO_CTRL_FUNCSEL_MASK : Z := 0x1f.
Definition GPIO_CTRL_DEBOUNCE_DEFAULT : Z := Z.shiftl 4 5.
Definition GPIO_CTRL_IRQRESET : Z := 2 ^ 28.
Definition useGpioMem : Z := 0x00010000.

(** Two entries for one key: a [std::map] keeps the first. *)
Definition fsel2mode : list (Z * mode) :=
  [(FselGpio, ModeInput); (FselGpio, ModeOutput); (0, ModeAlt0); (1, ModeAlt1); (2, ModeAlt2);
   (3, ModeAlt3); (4, ModeAlt4); (5, ModeAlt5); (6, ModeAlt6); (7, ModeAlt7); (8, ModeAlt8);
   (FselNoneHw, ModeDisabled); (FselNone, ModeUnknown)].

Definition mode2fsel : list (mode * Z) :=
  [(ModeInput, FselGpio); (ModeOutput, FselGpio); (ModeAlt0, 0); (ModeAlt1, 1); (ModeAlt2, 2);
   (ModeAlt3, 3); (ModeAlt4, 4); (ModeAlt5, 5); (ModeAlt6, 6); (ModeAlt7, 7); (ModeAlt8, 8);
   (ModeDisabled, FselNoneHw); (ModeUnknown, FselNone)].

Section Driver.
Context {O : MapOs} {D : Device}.

(** [gpio] is the word the pointer of that name is at, [None] when it is null;
    [pad] and [rio] are set and reset with it, at fixed distances. *)
Record rp1 : Type := mk_rp1 { isopen : bool; flags : Z; gpio : option Z; dev : io }.

Definition set_open (b : bool) (g : option Z) (s : rp1) : rp1 := mk_rp1 b (flags s) g (dev s).
Definition set_flags (f : Z) (s : rp1) : rp1 := mk_rp1 (isopen s) f (gpio s) (dev s).
Definition set_dev (d : io) (s : rp1) : rp1 := mk_rp1 (isopen s) (flags s) (gpio s) d.
Definition on_map {A} (m : M IoMap.iomap A) : M rp1 A := zoom dev set_dev (zoom im set_im m).

(** [open]; [findPCIeDevice] returns the file of the device or an empty string. *)
Definition open (findPCIeDevice : string) : M rp1 bool :=
  o ← gets isopen;
  (if (o : bool) then mret tt
   else
     f ← gets flags;
     if bool_decide (findPCIeDevice = EmptyString) || negb (Z.land f useGpioMem =? 0) then
       on_map (IoMap.open_device "/dev/gpiomem0" GpioBlockSize 0);;
       modify (set_flags (Z.lor f useGpioMem));;
       modify (set_open true (Some 0))
     else
       on_map (IoMap.open_device findPCIeDevice PCIeBlockSize 0);;
       modify (set_flags (Z.land f (u32 (Z.lnot useGpioMem))));;
       modify (set_open true (Some GpioOffset)));;
  gets isopen.

Definition close : M rp1 unit :=
  o ← gets isopen;
  if (o : bool) then on_map IoMap.close;; modify (set_open false None) else mret tt.

(** An access through [gpio], at a distance in words. *)
Definition get (k : Z) : M rp1 Z :=
  g ← gets gpio;
  match g with None => throw UB | Some b => zoom dev set_dev (atomicRead (b + k)) end.
Definition put (k v : Z) : M rp1 unit :=
  g ← gets gpio;
  match g with None => throw UB | Some b => zoom dev set_dev (atomicWrite (b + k) v) end.

Definition setCtrlReg (p v : Z) : M rp1 unit := put (p * 2 + 1) v.
Definition ctrlReg (p : Z) : M rp1 Z := get (p * 2 + 1).
Definition statusReg (p : Z) : M rp1 Z := get (p * 2).
Definition setPadReg (p v : Z) : M rp1 unit := put (PadsOffset + (p + 1)) v.
Definition padReg (p : Z) : M rp1 Z := get (PadsOffset + (p + 1)).
(** [1 << p] *)
Definition one_shl (p : Z) : M rp1 Z := if (0 <=? p) && (p <? 32) then mret (Z.shiftl 1 p) else throw UB.
(** [rio[k] = 1 << p] *)
Definition setRio (k p : Z) : M rp1 unit := b ← one_shl p; put (RioOffset + k) b.

Definition is_pwm (m : mode) (p : Z) : bool :=
  (bool_decide (m = ModeAlt0) && ((p =? 12) || (p =? 13))) ||
  (bool_decide (m = ModeAlt3) && ((p =? 18) || (p =? 19))).

Definition mode_of (p : Z) : M rp1 mode :=
  c ← ctrlReg p;
  let fsel := Z.land c GPIO_CTRL_FUNCSEL_MASK in
  m ← at_map (tab fsel2mode fsel);
  if fsel =? FselGpio then
    st ← statusReg p;
    mret (if Z.land st GPIO_STATUS_OE =? GPIO_STATUS_OE then ModeOutput else ModeInput)
  else mret (if is_pwm m p then ModePwm else m).

Definition pwm_function (p : Z) (m : mode) : M rp1 mode :=
  if bool_decide (m = ModePwm) then
    if (p =? 12) || (p =? 13) then mret ModeAlt0
    else if (p =? 18) || (p =? 19) then mret ModeAlt3
    else throw InvalidArgument
  else mret m.

Definition pad_hw (p : Z) : Z := if p <=? 8 then GPIO_PAD_HW_0TO8 else GPIO_PAD_HW_FROM9.

(** The alternate functions; also the end of the PWM case when it falls through. *)
Definition set_alt (p fsel : Z) : M rp1 unit :=
  c ← ctrlReg p;
  let ctrl := Z.lor (Z.land c (u32 (Z.lnot GPIO_CTRL_FUNCSEL_MASK))) fsel in
  setPadReg p (pad_hw p);; setCtrlReg p ctrl;; setRio (GPIO_RIO_OE + GPIO_RIO_CLR_OFFSET) p.

(** The [switch] of [setMode]. *)
Definition set_function (p fsel pad : Z) (isPwm : bool) (m : mode) : M rp1 unit :=
  match m with
  | ModeInput =>
      setPadReg p pad;; setCtrlReg p (Z.lor FselGpio GPIO_CTRL_DEBOUNCE_DEFAULT);;
      setRio (GPIO_RIO_OE + GPIO_RIO_CLR_OFFSET) p
  | ModeOutput =>
      setPadReg p pad;; setCtrlReg p (Z.lor FselGpio GPIO_CTRL_DEBOUNCE_DEFAULT);;
      setRio (GPIO_RIO_OE + GPIO_RIO_SET_OFFSET) p
  | ModeDisabled =>
      setPadReg p (pad_hw p);;
      setCtrlReg p (Z.lor (Z.lor GPIO_CTRL_IRQRESET FselNoneHw) GPIO_CTRL_DEBOUNCE_DEFAULT);;
      setRio (GPIO_RIO_OE + GPIO_RIO_CLR_OFFSET) p
  | ModeAlt0 | ModeAlt3 =>
      if isPwm then setPadReg p pad;; setCtrlReg p (Z.lor fsel GPIO_CTRL_DEBOUNCE_DEFAULT)
      else set_alt p fsel
  | ModeAlt1 | ModeAlt2 | ModeAlt4 | ModeAlt6 | ModeAlt7 | ModeAlt8 => set_alt p fsel
  | _ => mret tt
  end.

Definition setMode (p : Z) (m : mode) : M rp1 unit :=
  let isPwm := bool_decide (m = ModePwm) in
  m ← pwm_function p m;
  fsel ← at_map (tab mode2fsel m);
  x ← padReg p;
  let pad := Z.lor (Z.land x (Z.lor GPIO_PAD_PULL_MASK GPIO_PAD_DRIVE_MASK))
               (Z.lor (Z.lor GPIO_PAD_IN_ENABLE GPIO_PAD_SCHMITT) GPIO_PAD_SLEWFAST) in
  set_function p fsel pad isPwm m.

Definition pull_bits (p : pull) : option Z :=
  match p with
  | PullOff => Some GPIO_PAD_PULL_OFF | PullDown => Some GPIO_PAD_PULL_DOWN | PullUp => Some GPIO_PAD_PULL_UP
  | PullUnknown => None
  end.

Definition setPull (p : Z) (v : pull) : M rp1 unit :=
  x ← padReg p;
  let pull := Z.land x (u32 (Z.lnot GPIO_PAD_PULL_MASK)) in
  match pull_bits v with Some b => setPadReg p (Z.lor pull b) | None => mret tt end.

Definition pull_of (p : Z) : M rp1 pull :=
  x ← padReg p;
  mret (match Z.land x GPIO_PAD_PULL_MASK with
        | 0x00 => PullOff | 0x04 => PullDown | 0x08 => PullUp | _ => PullUnknown
        end).

Definition setDrive (p drive : Z) : M rp1 unit :=
  x ← padReg p;
  setPadReg p (Z.lor (Z.land x (u32 (Z.lnot GPIO_PAD_DRIVE_MASK)))
                     (Z.land (u32 (Z.shiftl drive GPIO_PAD_DRIVE_LSB)) GPIO_PAD_DRIVE_MASK)).

Definition drive_of (p : Z) : M rp1 Z :=
  x ← padReg p; mret (Z.shiftr (Z.land x GPIO_PAD_DRIVE_MASK) GPIO_PAD_DRIVE_LSB).

Definition write (p : Z) (v : bool) : M rp1 unit :=
  setRio (GPIO_RIO_OUT + (if v then GPIO_RIO_SET_OFFSET else GPIO_RIO_CLR_OFFSET)) p.

Definition toggle (p : Z) : M rp1 unit := setRio (GPIO_RIO_OUT + GPIO_RIO_XOR_OFFSET) p.

Definition read (p : Z) : M rp1 bool :=
  x ← get (RioOffset + GPIO_RIO_IN); b ← one_shl p; mret (negb (Z.land x b =? 0)).

End Driver.

(** ** The registers *)
Definition GpioCount : Z := 28.
Definition ctrl_reg (b p : Z) : Z := b + (p * 2 + 1).
Definition pad_reg (b p : Z) : Z := b + (PadsOffset + (p + 1)).
Definition rio_reg (b k : Z) : Z := b + (RioOffset + k).

(** Function select, filter and overrides of a pin; its pad. *)
Definition ctrl {D : Device} (b p : Z) (s : hw) : Z := field (hw_read (ctrl_reg b p) s) 0 18.
Definition pad {D : Device} (b p : Z) (s : hw) : Z := field (hw_read (pad_reg b p) s) 0 8.
Definition funcsel (c : Z) : Z := field c 0 5.
(** The output and output-enable overrides. *)
Definition over (c : Z) : Z := field c 12 4.

(** A bit of a RIO register after a write to the register or to an alias. *)
Definition rio_write (r o v p : Z) (old : bool) : bool :=
  if o =? r then Z.testbit v p
  else if o =? r + GPIO_RIO_XOR_OFFSET then xorb old (Z.testbit v p)
  else if o =? r + GPIO_RIO_SET_OFFSET then old || Z.testbit v p
  else if o =? r + GPIO_RIO_CLR_OFFSET then old && negb (Z.testbit v p)
  else old.

(** The registers through a pointer at word [b].  A pin under the RIO function
    without override has the output enable of the RIO block, which its status
    word shows; when its pad drives and listens it has the level of the RIO
    output, which the RIO input shows. *)
Class Rp1Regs (D : Device) (b : Z) : Type := {
  oe : Z -> hw -> bool;
  out : Z -> hw -> bool;
  level : Z -> hw -> bool;
  ctrl_write : forall p o v s, 0 <= p < GpioCount -> 0 <= v < 2 ^ 32 ->
    ctrl b p (hw_write o v s) = if o =? ctrl_reg b p then field v 0 18 else ctrl b p s;
  pad_write : forall p o v s, 0 <= p < GpioCount -> 0 <= v < 2 ^ 32 ->
    pad b p (hw_write o v s) = if o =? pad_reg b p then field v 0 8 else pad b p s;
  oe_write : forall p o v s, 0 <= p < GpioCount -> 0 <= v < 2 ^ 32 ->
    oe p (hw_write o v s) = rio_write (rio_reg b GPIO_RIO_OE) o v p (oe p s);
  out_write : forall p o v s, 0 <= p < GpioCount -> 0 <= v < 2 ^ 32 ->
    out p (hw_write o v s) = rio_write (rio_reg b GPIO_RIO_OUT) o v p (out p s);
  status_oe : forall p s, 0 <= p < GpioCount -> funcsel (ctrl b p s) = FselGpio -> over (ctrl b p s) = 0 ->
    Z.land (hw_read (b + p * 2) s) GPIO_STATUS_OE = if oe p s then GPIO_STATUS_OE else 0;
  level_read : forall p s, 0 <= p < GpioCount ->
    Z.testbit (hw_read (rio_reg b GPIO_RIO_IN) s) p = level p s;
  level_output : forall p s, 0 <= p < GpioCount -> funcsel (ctrl b p s) = FselGpio -> over (ctrl b p s) = 0 ->
    oe p s = true -> Z.testbit (pad b p s) 7 = false -> Z.testbit (pad b p s) 6 = true ->
    level p s = out p s }.

(** ** Driver accesses *)
(** The constants of the register map as numbers, and comparisons decided by [lia]. *)
Ltac rp1_numbers :=
  change PadsOffset with 0x8000 in *; change RioOffset with 0x4000 in *;
  change GPIO_RIO_XOR_OFFSET with 0x400 in *; change GPIO_RIO_SET_OFFSET with 0x800 in *;
  change GPIO_RIO_CLR_OFFSET with 0xC00 in *; change GPIO_RIO_OE with 1 in *;
  change GPIO_RIO_OUT with 0 in *; change GPIO_RIO_IN with 2 in *; change GpioCount with 28 in *.
Ltac decide_eqb :=
  repeat match goal with
  | |- context [?x =? ?y] =>
      first [ rewrite (proj2 (Z.eqb_eq x y)) by lia | rewrite (proj2 (Z.eqb_neq x y)) by lia ]
  end; try done.
Ltac tell_registers :=
  unfold rio_write, ctrl_reg, pad_reg, rio_reg in *; rp1_numbers;
  decide_eqb.

Section Proofs.
Context {O : MapOs} {D : Device} {b : Z} {R : Rp1Regs D b}.

Definition ready (s : rp1) : Prop :=
  gpio s = Some b /\ 0 <= b /\ 4 * b + GpioBlockSize <= IoMap.window (im (dev s)).
Definition regs_of (s : rp1) : hw := regs (dev s).
Definition with_regs (h : hw) (s : rp1) : rp1 := set_dev (set_regs h (dev s)) s.

Lemma ready_window k s : ready s -> 0 <= k < 0xC000 -> in_window (b + k) (dev s) = true.
Proof. intros (_ & Hb & Hw) Hk. unfold GpioBlockSize in Hw. apply in_window_ok; lia. Qed.

Lemma rp1_ready_with h s : ready s -> ready (with_regs h s).
Proof. done. Qed.

Lemma rp1_get_eq k s : ready s -> 0 <= k < 0xC000 -> get k s = (Ok (hw_read (b + k) (regs_of s)), s).
Proof.
  intros Hs Hk. pose proof (ready_window k s Hs Hk) as Hw. destruct Hs as [Hg _]. unfold get. munfold.
  rewrite Hg. unfold zoom, atomicRead. rewrite Hw. by destruct s.
Qed.

Lemma rp1_put_eq k v s : ready s -> 0 <= k < 0xC000 -> 0 <= v < 2 ^ 32 ->
  put k v s = (Ok tt, with_regs (hw_write (b + k) v (regs_of s)) s).
Proof.
  intros Hs Hk Hv. pose proof (ready_window k s Hs Hk) as Hw. destruct Hs as [Hg _]. unfold put. munfold.
  rewrite Hg. unfold zoom. by rewrite atomicWrite_ok.
Qed.

Lemma setRio_eq k p s : ready s -> 0 <= k < 0x4000 -> 0 <= p < GpioCount ->
  setRio k p s = (Ok tt, with_regs (hw_write (rio_reg b k) (2 ^ p) (regs_of s)) s).
Proof.
  intros Hs Hk Hp. unfold GpioCount in Hp. pose proof (bit32_bound p ltac:(lia)). unfold setRio, one_shl.
  rewrite (proj2 (Z.leb_le 0 p)), (proj2 (Z.ltb_lt p 32)) by lia. cbn [andb]. rewrite Z.shiftl_1_l.
  rewrite (M_bind_ok _ _ _ (mret _) _ s _ s eq_refl).
  apply rp1_put_eq; [done| |done]. change RioOffset with 0x4000. lia.
Qed.

Lemma setPad_eq p v s : ready s -> 0 <= p < GpioCount -> 0 <= v < 2 ^ 32 ->
  setPadReg p v s = (Ok tt, with_regs (hw_write (pad_reg b p) v (regs_of s)) s).
Proof.
  intros Hs Hp Hv. unfold GpioCount in Hp. apply rp1_put_eq; [done| |done]. change PadsOffset with 0x8000. lia.
Qed.

Lemma setCtrl_eq p v s : ready s -> 0 <= p < GpioCount -> 0 <= v < 2 ^ 32 ->
  setCtrlReg p v s = (Ok tt, with_regs (hw_write (ctrl_reg b p) v (regs_of s)) s).
Proof. intros Hs Hp Hv. unfold GpioCount in Hp. apply rp1_put_eq; [done|lia|done]. Qed.

(** What the driver can change of a pin. *)
Definition view (q : Z) (s : hw) : Z * Z * bool * bool := (ctrl b q s, pad b q s, oe q s, out q s).

Lemma view_ctrl p v q s : 0 <= p < GpioCount -> 0 <= q < GpioCount -> 0 <= v < 2 ^ 32 ->
  view q (hw_write (ctrl_reg b p) v s) =
  if q =? p then (field v 0 18, pad b q s, oe q s, out q s) else view q s.
Proof.
  intros Hp Hq Hv. unfold view. rewrite ctrl_write, pad_write, oe_write, out_write by done.
  destruct (Z.eqb_spec q p) as [->|Hne]; tell_registers.
Qed.

Lemma view_pad p v q s : 0 <= p < GpioCount -> 0 <= q < GpioCount -> 0 <= v < 2 ^ 32 ->
  view q (hw_write (pad_reg b p) v s) =
  if q =? p then (ctrl b q s, field v 0 8, oe q s, out q s) else view q s.
Proof.
  intros Hp Hq Hv. unfold view. rewrite ctrl_write, pad_write, oe_write, out_write by done.
  destruct (Z.eqb_spec q p) as [->|Hne]; tell_registers.
Qed.

(** A write of [1 << p] to the alias at [a] of the enables or of the outputs. *)
Definition alias (a : Z) (old : bool) : bool :=
  if a =? GPIO_RIO_XOR_OFFSET then negb old else a =? GPIO_RIO_SET_OFFSET.
Definition is_alias (a : Z) : Prop :=
  a = GPIO_RIO_XOR_OFFSET \/ a = GPIO_RIO_SET_OFFSET \/ a = GPIO_RIO_CLR_OFFSET.

Lemma rio_write_alias r a p q old : is_alias a -> 0 <= p -> 0 <= q ->
  rio_write r (r + a) (2 ^ p) q old = if q =? p then alias a old else old.
Proof.
  intros Ha Hp Hq. unfold rio_write, alias. rewrite Z.pow2_bits_eqb, (Z.eqb_sym p q) by done.
  destruct Ha as [->|[->| ->]]; rp1_numbers; destruct (q =? p), old; decide_eqb.
Qed.

Lemma view_oe a p q s : is_alias a -> 0 <= p < GpioCount -> 0 <= q < GpioCount ->
  view q (hw_write (rio_reg b (GPIO_RIO_OE + a)) (2 ^ p) s) =
  (ctrl b q s, pad b q s, if q =? p then alias a (oe q s) else oe q s, out q s).
Proof.
  intros Ha Hp Hq. pose proof (bit32_bound p ltac:(unfold GpioCount in *; lia)) as Hv.
  unfold view. rewrite ctrl_write, pad_write, oe_write, out_write by done.
  replace (rio_reg b (GPIO_RIO_OE + a)) with (rio_reg b GPIO_RIO_OE + a) by (unfold rio_reg; lia).
  rewrite rio_write_alias by (done || lia).
  destruct Ha as [->|[->| ->]]; destruct (q =? p) eqn:E; tell_registers.
Qed.

Lemma view_out a p q s : is_alias a -> 0 <= p < GpioCount -> 0 <= q < GpioCount ->
  view q (hw_write (rio_reg b (GPIO_RIO_OUT + a)) (2 ^ p) s) =
  (ctrl b q s, pad b q s, oe q s, if q =? p then alias a (out q s) else out q s).
Proof.
  intros Ha Hp Hq. pose proof (bit32_bound p ltac:(unfold GpioCount in *; lia)) as Hv.
  unfold view. rewrite ctrl_write, pad_write, oe_write, out_write by done.
  replace (rio_reg b (GPIO_RIO_OUT + a)) with (rio_reg b GPIO_RIO_OUT + a) by (unfold rio_reg; lia).
  rewrite rio_write_alias by (done || lia).
  destruct Ha as [->|[->| ->]]; destruct (q =? p) eqn:E; tell_registers.
Qed.

(** ** Modes *)
Lemma funcsel_ctrl x : funcsel (field x 0 18) = Z.land x GPIO_CTRL_FUNCSEL_MASK.
Proof. unfold funcsel, field. rewrite !Z.shiftr_0_r, <- Z.land_assoc. done. Qed.

(** [mode] decodes the function select of the pin; under the RIO function and
    without override the output enable makes it an output. *)
Lemma rp1_mode_of_eq p s : ready s -> 0 <= p < GpioCount ->
  let c := ctrl b p (regs_of s) in
  funcsel c <> FselGpio \/ over c = 0 ->
  mode_of p s = match tab fsel2mode (funcsel c) with
                | None => (Throw OutOfRange, s)
                | Some m => (Ok (if funcsel c =? FselGpio then if oe p (regs_of s) then ModeOutput else ModeInput
                                 else if is_pwm m p then ModePwm else m), s)
                end.
Proof.
  intros Hs Hp c Hc. assert (Hp' : 0 <= p < 28) by done. unfold mode_of, ctrlReg, statusReg.
  rewrite (M_bind_ok _ _ _ _ _ _ _ _ (rp1_get_eq (p * 2 + 1) s Hs ltac:(lia))).
  fold (ctrl_reg b p). rewrite <- funcsel_ctrl. fold (ctrl b p (regs_of s)). fold c.
  destruct (tab fsel2mode (funcsel c)) as [m|]; [|done].
  cbn [at_map]. rewrite (M_bind_ok _ _ _ (mret m) _ s m s eq_refl).
  destruct (Z.eqb_spec (funcsel c) FselGpio) as [Hf|]; [|done].
  rewrite (M_bind_ok _ _ _ _ _ _ _ _ (rp1_get_eq (p * 2) s Hs ltac:(lia))).
  destruct Hc as [|Hc]; [done|]. rewrite (status_oe p) by done. by destruct (oe p (regs_of s)).
Qed.

(** What [setMode] leaves of the control word, pad and output enable. *)
Definition pad_gpio (x : Z) : Z := Z.lor (Z.land x 0x3C) 0x43.
Definition alt_ctrl (x fsel : Z) : Z := Z.lor (Z.land x (u32 (Z.lnot GPIO_CTRL_FUNCSEL_MASK))) fsel.

Lemma pad_gpio_field x : field (pad_gpio x) 0 8 = pad_gpio (field x 0 8).
Proof.
  unfold pad_gpio, field. rewrite !Z.shiftr_0_r, Z.land_lor_distr_l, <- !Z.land_assoc. done.
Qed.

Lemma pad_gpio_bound x : 0 <= pad_gpio x < 2 ^ 32.
Proof.
  unfold pad_gpio. assert (0 <= Z.land x 0x3C) by (apply Z.land_nonneg; lia).
  assert (0 <= Z.lor (Z.land x 0x3C) 0x43) by (apply Z.lor_nonneg; lia).
  split; [done|]. apply bits_bound; [lia|done|]. intros n Hn.
  by rewrite Z.lor_spec, Z.land_spec, (testbit_high 0x3C 32 n), (testbit_high 0x43 32 n), andb_false_r by lia.
Qed.

Lemma alt_ctrl_sel x fsel : 0 <= fsel < 2 ^ 5 -> funcsel (field (alt_ctrl x fsel) 0 18) = fsel.
Proof.
  intros Hf. rewrite funcsel_ctrl. unfold alt_ctrl. rewrite Z.land_lor_distr_l, <- Z.land_assoc.
  change (Z.land (u32 (Z.lnot GPIO_CTRL_FUNCSEL_MASK)) GPIO_CTRL_FUNCSEL_MASK) with 0.
  change GPIO_CTRL_FUNCSEL_MASK with (Z.ones 5). rewrite Z.land_0_r, Z.land_ones, Z.mod_small; [done|lia..].
Qed.

Lemma alt_ctrl_bound x fsel : 0 <= x < 2 ^ 32 -> 0 <= fsel < 2 ^ 5 -> 0 <= alt_ctrl x fsel < 2 ^ 32.
Proof.
  intros Hx Hf. unfold alt_ctrl. change (u32 (Z.lnot GPIO_CTRL_FUNCSEL_MASK)) with 0xFFFFFFE0.
  assert (0 <= Z.land x 0xFFFFFFE0) by (apply Z.land_nonneg; lia).
  assert (0 <= Z.lor (Z.land x 0xFFFFFFE0) fsel) by (apply Z.lor_nonneg; lia).
  split; [done|]. apply bits_bound; [lia|done|]. intros n Hn.
  by rewrite Z.lor_spec, Z.land_spec, (testbit_high x 32 n), (testbit_high fsel 5 n) by lia.
Qed.

(** Every way [setMode] can go: the function, pad and enable it leaves. *)
Definition after (p : Z) (m : mode) (x : Z) (pd : Z) (e : bool) : option (Z * Z * bool) :=
  match m with
  | ModeInput => Some (0x85, pad_gpio pd, false)
  | ModeOutput => Some (0x85, pad_gpio pd, true)
  | ModeDisabled => Some (0x9f, pad_hw p, false)
  | ModePwm =>
      if (p =? 12) || (p =? 13) then Some (0x80, pad_gpio pd, e)
      else if (p =? 18) || (p =? 19) then Some (0x83, pad_gpio pd, e) else None
  | ModeAlt0 | ModeAlt1 | ModeAlt2 | ModeAlt3 | ModeAlt4 | ModeAlt6 | ModeAlt7 | ModeAlt8 =>
      option_map (fun f => (field (alt_ctrl x f) 0 18, pad_hw p, false)) (tab mode2fsel m)
  | _ => None
  end.

Lemma view_split q s c pd e o : view q s = (c, pd, e, o) ->
  ctrl b q s = c /\ pad b q s = pd /\ oe q s = e /\ out q s = o.
Proof. unfold view. by intros [= -> -> -> ->]. Qed.

(** The writes of the pad, the control word and the enable, in this order. *)
Lemma set_three p pv cv a s : ready s -> 0 <= p < GpioCount -> 0 <= pv < 2 ^ 32 -> 0 <= cv < 2 ^ 32 ->
  is_alias a -> a <> GPIO_RIO_XOR_OFFSET ->
  exists s', (setPadReg p pv;; setCtrlReg p cv;; setRio (GPIO_RIO_OE + a) p) s = (Ok tt, s') /\ ready s' /\
    forall q, 0 <= q < GpioCount -> view q (regs_of s') =
      if q =? p then (field cv 0 18, field pv 0 8, a =? GPIO_RIO_SET_OFFSET, out q (regs_of s)) else view q (regs_of s).
Proof.
  intros Hs Hp Hpv Hcv Ha Hx.
  assert (0 <= GPIO_RIO_OE + a < 0x4000) by (destruct Ha as [->|[->| ->]]; rp1_numbers; lia).
  rewrite (M_bind_ok _ _ _ _ _ _ _ _ (setPad_eq p pv s Hs Hp Hpv)).
  rewrite (M_bind_ok _ _ _ _ _ _ _ _ (setCtrl_eq p cv _ (rp1_ready_with _ _ Hs) Hp Hcv)).
  rewrite setRio_eq by (done || by apply rp1_ready_with). eexists. split; [reflexivity|]. split; [done|].
  intros q Hq. unfold regs_of, with_regs. cbn. rewrite view_oe by done.
  pose proof (view_pad p pv q (regs (dev s)) Hp Hq Hpv) as H1.
  pose proof (view_ctrl p cv q (hw_write (pad_reg b p) pv (regs (dev s))) Hp Hq Hcv) as H2.
  unfold alias. rewrite (proj2 (Z.eqb_neq a _) Hx).
  destruct (q =? p); apply view_split in H1 as (H11 & H12 & H13 & H14), H2 as (H21 & H22 & H23 & H24).
  - by rewrite H21, H22, H24, H12, H14.
  - unfold view. by rewrite H21, H22, H23, H24, H11, H12, H13, H14.
Qed.

(** The writes of the pad and the control word of the PWM case. *)
Lemma set_two p pv cv s : ready s -> 0 <= p < GpioCount -> 0 <= pv < 2 ^ 32 -> 0 <= cv < 2 ^ 32 ->
  exists s', (setPadReg p pv;; setCtrlReg p cv) s = (Ok tt, s') /\ ready s' /\
    forall q, 0 <= q < GpioCount -> view q (regs_of s') =
      if q =? p then (field cv 0 18, field pv 0 8, oe q (regs_of s), out q (regs_of s)) else view q (regs_of s).
Proof.
  intros Hs Hp Hpv Hcv. rewrite (M_bind_ok _ _ _ _ _ _ _ _ (setPad_eq p pv s Hs Hp Hpv)).
  rewrite (setCtrl_eq p cv _ (rp1_ready_with _ _ Hs) Hp Hcv). eexists. split; [reflexivity|]. split; [done|].
  intros q Hq. unfold regs_of, with_regs. cbn. rewrite view_ctrl by done.
  pose proof (view_pad p pv q (regs (dev s)) Hp Hq Hpv) as H1.
  destruct (q =? p); [|done]. apply view_split in H1 as (_ & -> & -> & ->). done.
Qed.

Lemma setMode_head p m m' f s : ready s -> 0 <= p < GpioCount ->
  pwm_function p m s = (Ok m', s) -> tab mode2fsel m' = Some f ->
  setMode p m s =
  set_function p f (pad_gpio (hw_read (pad_reg b p) (regs_of s))) (bool_decide (m = ModePwm)) m' s.
Proof.
  intros Hs Hp Hm Hf. unfold setMode, padReg. rewrite (M_bind_ok _ _ _ _ _ _ _ _ Hm), Hf. cbn [at_map].
  rewrite (M_bind_ok _ _ _ (mret f) _ s f s eq_refl).
  by rewrite (M_bind_ok _ _ _ _ _ _ _ _ (rp1_get_eq (PadsOffset + (p + 1)) s Hs ltac:(rp1_numbers; lia))).
Qed.

Ltac setMode_body := erewrite setMode_head; [|eassumption|eassumption|reflexivity|reflexivity].

Lemma set_alt_eq p f s : ready s -> 0 <= p < GpioCount -> 0 <= f < 2 ^ 5 ->
  exists s', set_alt p f s = (Ok tt, s') /\ ready s' /\
    forall q, 0 <= q < GpioCount -> view q (regs_of s') =
      if q =? p then (field (alt_ctrl (hw_read (ctrl_reg b p) (regs_of s)) f) 0 18, pad_hw p, false, out q (regs_of s))
      else view q (regs_of s).
Proof.
  intros Hs Hp Hf. unfold set_alt, ctrlReg.
  rewrite (M_bind_ok _ _ _ _ _ _ _ _ (rp1_get_eq (p * 2 + 1) s Hs ltac:(rp1_numbers; lia))).
  assert (0 <= pad_hw p < 2 ^ 32 /\ field (pad_hw p) 0 8 = pad_hw p) as [Hb He]
    by (unfold pad_hw; by destruct (p <=? 8)).
  fold (ctrl_reg b p). fold (alt_ctrl (hw_read (ctrl_reg b p) (regs_of s)) f).
  destruct (set_three p (pad_hw p) (alt_ctrl (hw_read (ctrl_reg b p) (regs_of s)) f) GPIO_RIO_CLR_OFFSET s)
    as (s' & H1 & H2 & H3); [done..|apply alt_ctrl_bound; [auto with piduino|done]|by right; right|done|].
  exists s'. split; [done|]. split; [done|]. intros q Hq. rewrite H3, He by done. done.
Qed.

Lemma rp1_setMode_eq p m s c pd e : ready s -> 0 <= p < GpioCount ->
  after p m (hw_read (ctrl_reg b p) (regs_of s)) (pad b p (regs_of s)) (oe p (regs_of s)) = Some (c, pd, e) ->
  exists s', setMode p m s = (Ok tt, s') /\ ready s' /\
    forall q, 0 <= q < GpioCount ->
      view q (regs_of s') = if q =? p then (c, pd, e, out q (regs_of s)) else view q (regs_of s).
Proof.
  intros Hs Hp Ha. pose proof (pad_gpio_bound (hw_read (pad_reg b p) (regs_of s))) as Hpad.
  pose proof (pad_gpio_field (hw_read (pad_reg b p) (regs_of s))) as Hpf. fold (pad b p (regs_of s)) in Hpf.
  assert (0 <= pad_hw p < 2 ^ 32 /\ field (pad_hw p) 0 8 = pad_hw p) as [Hb He]
    by (unfold pad_hw; by destruct (p <=? 8)).
  destruct m; cbn [after] in Ha; try discriminate Ha;
    try (setMode_body;
         injection Ha as <- <- <-; by apply set_alt_eq).
  - setMode_body. injection Ha as <- <- <-. rewrite <- Hpf.
    exact (set_three p _ (Z.lor FselGpio GPIO_CTRL_DEBOUNCE_DEFAULT) GPIO_RIO_CLR_OFFSET s Hs Hp Hpad
      ltac:(done) ltac:(by right; right) ltac:(done)).
  - setMode_body. injection Ha as <- <- <-. rewrite <- Hpf.
    exact (set_three p _ (Z.lor FselGpio GPIO_CTRL_DEBOUNCE_DEFAULT) GPIO_RIO_SET_OFFSET s Hs Hp Hpad
      ltac:(done) ltac:(by right; left) ltac:(done)).
  - setMode_body. injection Ha as <- <- <-.
    pose proof (set_three p _ (Z.lor (Z.lor GPIO_CTRL_IRQRESET FselNoneHw) GPIO_CTRL_DEBOUNCE_DEFAULT)
      GPIO_RIO_CLR_OFFSET s Hs Hp Hb ltac:(done) ltac:(by right; right) ltac:(done)) as H.
    rewrite He in H. exact H.
  - destruct ((p =? 12) || (p =? 13)) eqn:H1; [|destruct ((p =? 18) || (p =? 19)) eqn:H2; [|done]];
      injection Ha as <- <- <-; rewrite <- Hpf.
    + rewrite (setMode_head p _ ModeAlt0 0 s) by (done || unfold pwm_function; by rewrite H1).
      destruct (set_two p (pad_gpio (hw_read (pad_reg b p) (regs_of s))) 0x80 s) as (s' & E & Hr & Hv); [done..|].
      exists s'. split; [done|]. split; [done|]. intros q Hq. rewrite Hv by done.
      by destruct (Z.eqb_spec q p) as [->|].
    + rewrite (setMode_head p _ ModeAlt3 3 s) by (done || unfold pwm_function; by rewrite H1, H2).
      destruct (set_two p (pad_gpio (hw_read (pad_reg b p) (regs_of s))) 0x83 s) as (s' & E & Hr & Hv); [done..|].
      exists s'. split; [done|]. split; [done|]. intros q Hq. rewrite Hv by done.
      by destruct (Z.eqb_spec q p) as [->|].
Qed.

(** The modes that can be given to a pin, the one it then reports, and those
    that keep its pull and drive. *)
Definition settable (p : Z) (m : mode) : bool :=
  match m with
  | ModePwm => (p =? 12) || (p =? 13) || (p =? 18) || (p =? 19)
  | ModeAlt5 | ModeAlt9 | ModeUnknown => false
  | _ => true
  end.
Definition reported (p : Z) (m : mode) : mode := if is_pwm m p then ModePwm else m.
Definition keeps_pad (m : mode) : bool := bool_decide (m = ModeInput \/ m = ModeOutput \/ m = ModePwm).

Definition decoded (p c : Z) (e : bool) : option mode :=
  m ← tab fsel2mode (funcsel c);
  Some (if funcsel c =? FselGpio then if (e : bool) then ModeOutput else ModeInput
        else if is_pwm m p then ModePwm else m).

Lemma pad_gpio_keeps x : Z.land (pad_gpio x) 0x3C = Z.land x 0x3C.
Proof.
  unfold pad_gpio. rewrite Z.land_lor_distr_l, <- Z.land_assoc.
  change (Z.land 0x3C 0x3C) with 0x3C. change (Z.land 0x43 0x3C) with 0. apply Z.lor_0_r.
Qed.

Lemma after_settable p m x pd e : settable p m = true ->
  exists c pd' e', after p m x pd e = Some (c, pd', e') /\ (funcsel c <> FselGpio \/ over c = 0) /\
    decoded p c e' = Some (reported p m) /\ (keeps_pad m = true -> Z.land pd' 0x3C = Z.land pd 0x3C).
Proof.
  intros Hs. destruct m; cbn [settable] in Hs; try discriminate Hs; cbn [after];
    try (eexists _, _, _; split; [reflexivity|]; unfold decoded; rewrite alt_ctrl_sel by done;
         split; [by left|]; by split).
  - eexists _, _, _. split; [reflexivity|]. split; [by right|]. split; [done|]. intros _. apply pad_gpio_keeps.
  - eexists _, _, _. split; [reflexivity|]. split; [by right|]. split; [done|]. intros _. apply pad_gpio_keeps.
  - eexists _, _, _. split; [reflexivity|]. split; [by left|]. by split.
  - destruct ((p =? 12) || (p =? 13)) eqn:H1; [|assert (H2 : (p =? 18) || (p =? 19) = true)
      by (revert Hs H1; by destruct (p =? 12), (p =? 13)); rewrite H2];
    (eexists _, _, _; split; [reflexivity|]; split; [by left|]; split; [|intros _; apply pad_gpio_keeps]).
    + unfold decoded, is_pwm. cbn. by rewrite H1.
    + unfold decoded, is_pwm. cbn. by rewrite H2.
Qed.

Lemma mode_of_decoded p s m : ready s -> 0 <= p < GpioCount ->
  let c := ctrl b p (regs_of s) in
  funcsel c <> FselGpio \/ over c = 0 -> decoded p c (oe p (regs_of s)) = Some m -> mode_of p s = (Ok m, s).
Proof.
  intros Hs Hp c Hc. rewrite rp1_mode_of_eq by done. fold c. unfold decoded.
  destruct (tab fsel2mode (funcsel c)); [|done]. cbn. by intros [= ->].
Qed.

(** ** Pads *)
Definition pull_code (c : Z) : pull :=
  match c with 0x00 => PullOff | 0x04 => PullDown | 0x08 => PullUp | _ => PullUnknown end.

Lemma field_mask x m : Z.land 0xff m = m -> Z.land (field x 0 8) m = Z.land x m.
Proof. intros Hm. unfold field. rewrite Z.shiftr_0_r, <- Z.land_assoc. f_equal. exact Hm. Qed.

Lemma rp1_pull_of_eq p s : ready s -> 0 <= p < GpioCount ->
  pull_of p s = (Ok (pull_code (Z.land (pad b p (regs_of s)) GPIO_PAD_PULL_MASK)), s).
Proof.
  intros Hs Hp. unfold pull_of, padReg, pad. rewrite field_mask by done.
  by rewrite (M_bind_ok _ _ _ _ _ _ _ _ (rp1_get_eq (PadsOffset + (p + 1)) s Hs ltac:(rp1_numbers; lia))).
Qed.

Lemma drive_of_eq p s : ready s -> 0 <= p < GpioCount ->
  drive_of p s = (Ok (Z.shiftr (Z.land (pad b p (regs_of s)) GPIO_PAD_DRIVE_MASK) 4), s).
Proof.
  intros Hs Hp. unfold drive_of, padReg, pad. rewrite field_mask by done.
  by rewrite (M_bind_ok _ _ _ _ _ _ _ _ (rp1_get_eq (PadsOffset + (p + 1)) s Hs ltac:(rp1_numbers; lia))).
Qed.

Lemma pad_settings x y : Z.land x 0x3C = Z.land y 0x3C ->
  Z.land x GPIO_PAD_PULL_MASK = Z.land y GPIO_PAD_PULL_MASK /\
  Z.land x GPIO_PAD_DRIVE_MASK = Z.land y GPIO_PAD_DRIVE_MASK.
Proof.
  intros H. change GPIO_PAD_PULL_MASK with (Z.land 0x3C 0x0C). change GPIO_PAD_DRIVE_MASK with (Z.land 0x3C 0x30).
  by rewrite !Z.land_assoc, H.
Qed.

(** The modes a pin cannot have change nothing. *)
Lemma setMode_other p m s : ready s -> 0 <= p < GpioCount -> settable p m = false -> setMode p m s =
  (match m with ModePwm => Throw InvalidArgument | ModeAlt9 => Throw OutOfRange | _ => Ok tt end, s).
Proof.
  intros Hs Hp Hm. destruct m; cbn [settable] in Hm; try discriminate Hm; try (by setMode_body); [|done].
  unfold setMode. apply M_bind_throw. unfold pwm_function. cbn [bool_decide decide].
  revert Hm. by destruct (p =? 12), (p =? 13), (p =? 18), (p =? 19).
Qed.

(** C39: [Rp1Gpio::setMode] on any of the 28 pins of an open device.  A mode the
    pin has is set so that [mode] reports it (the PWM functions as [ModePwm]),
    the output value is kept, an input, output or PWM pin keeps its pull and its
    drive, and nothing of another pin changes.  [ModeAlt5] and [ModeUnknown]
    are accepted and change nothing; any other mode is refused. *)
Theorem rp1_setMode_exact p m s :
  ready s -> 0 <= p < GpioCount ->
  if settable p m then
    exists s', setMode p m s = (Ok tt, s') /\ ready s' /\ mode_of p s' = (Ok (reported p m), s') /\
      out p (regs_of s') = out p (regs_of s) /\
      (keeps_pad m = true -> fst (pull_of p s') = fst (pull_of p s) /\ fst (drive_of p s') = fst (drive_of p s)) /\
      forall q, 0 <= q < GpioCount -> q <> p -> view q (regs_of s') = view q (regs_of s)
  else setMode p m s =
    (match m with ModePwm => Throw InvalidArgument | ModeAlt9 => Throw OutOfRange | _ => Ok tt end, s).
Proof.
  intros Hs Hp. destruct (settable p m) eqn:Hm.
  - destruct (after_settable p m (hw_read (ctrl_reg b p) (regs_of s)) (pad b p (regs_of s)) (oe p (regs_of s)) Hm)
      as (c & pd & e & Ha & Hc & Hd & Hk).
    destruct (rp1_setMode_eq p m s c pd e Hs Hp Ha) as (s' & He & Hr & Hv). exists s'.
    pose proof (Hv p Hp) as Hvp. rewrite Z.eqb_refl in Hvp. apply view_split in Hvp as (Hvc & Hvd & Hve & Hvo).
    split; [done|]. split; [done|]. split; [|split; [done|split]].
    + apply mode_of_decoded; rewrite ?Hvc, ?Hve; done.
    + intros Hkm. rewrite !rp1_pull_of_eq, !drive_of_eq, Hvd by done.
      by destruct (pad_settings _ _ (Hk Hkm)) as [-> ->].
    + intros q Hq Hne. rewrite Hv by done. by rewrite (proj2 (Z.eqb_neq q p)).
  - by apply setMode_other.
Qed.

(** [(x & ~m) | v]: the bits of [m] come from [v], the others from [x]. *)
Definition masked (x m v : Z) : Z := Z.lor (Z.land x (u32 (Z.lnot m))) v.

Lemma masked_in x m v : Z.land (u32 (Z.lnot m)) m = 0 -> Z.land v m = v -> Z.land (masked x m v) m = v.
Proof.
  intros H0 Hv. unfold masked. by rewrite Z.land_lor_distr_l, <- Z.land_assoc, H0, Z.land_0_r, Hv.
Qed.

Lemma masked_out x m v m' : Z.land (u32 (Z.lnot m)) m' = m' -> Z.land v m' = 0 ->
  Z.land (masked x m v) m' = Z.land x m'.
Proof.
  intros H0 Hv. unfold masked. by rewrite Z.land_lor_distr_l, <- Z.land_assoc, H0, Hv, Z.lor_0_r.
Qed.

Lemma masked_bound x m v : 0 <= x < 2 ^ 32 -> 0 <= v < 2 ^ 32 -> 0 <= masked x m v < 2 ^ 32.
Proof.
  intros Hx Hv. pose proof (u32_bound (Z.lnot m)) as Hu. unfold masked.
  assert (0 <= Z.lor (Z.land x (u32 (Z.lnot m))) v) as Hn
    by (apply Z.lor_nonneg; split; [apply Z.land_nonneg; lia|lia]).
  split; [done|]. apply bits_bound; [lia|done|]. intros n Hn'.
  by rewrite Z.lor_spec, Z.land_spec, (testbit_high x 32 n), (testbit_high v 32 n).
Qed.

(** A write of [masked] to the pad of a pin. *)
Lemma set_masked p m v s : ready s -> 0 <= p < GpioCount -> 0 <= v < 2 ^ 32 ->
  exists s', setPadReg p (masked (hw_read (pad_reg b p) (regs_of s)) m v) s = (Ok tt, s') /\ ready s' /\
    pad b p (regs_of s') = field (masked (hw_read (pad_reg b p) (regs_of s)) m v) 0 8 /\
    forall q, 0 <= q < GpioCount -> ctrl b q (regs_of s') = ctrl b q (regs_of s) /\
      oe q (regs_of s') = oe q (regs_of s) /\ out q (regs_of s') = out q (regs_of s) /\
      (q <> p -> pad b q (regs_of s') = pad b q (regs_of s)).
Proof.
  intros Hs Hp Hv. pose proof (masked_bound _ m v (hw_word (pad_reg b p) (regs_of s)) Hv) as Hb.
  rewrite setPad_eq by done. eexists. split; [reflexivity|]. split; [done|].
  assert (H : forall q, 0 <= q < GpioCount -> _) by exact (fun q Hq => view_pad p _ q (regs_of s) Hp Hq Hb).
  split.
  - specialize (H p Hp). rewrite Z.eqb_refl in H. by apply view_split in H as (_ & H & _).
  - intros q Hq. specialize (H q Hq). destruct (Z.eqb_spec q p); apply view_split in H as (H1 & H2 & H3 & H4); by split_and!.
Qed.

Lemma drive_bits d : Z.shiftr (Z.land (u32 (Z.shiftl d 4)) 0x30) 4 = d mod 4.
Proof.
  replace (d mod 4) with (Z.land d (Z.ones 2)) by (by rewrite Z.land_ones). apply Z.bits_inj'. intros n Hn.
  rewrite Z.shiftr_spec, !Z.land_spec by done. change 0x30 with (Z.shiftl (Z.ones 2) 4).
  rewrite Z.shiftl_spec, Z.add_simpl_r by lia. destruct (Z.lt_ge_cases n 2).
  - unfold u32. rewrite Z.mod_pow2_bits_low, Z.shiftl_spec by lia. by rewrite Z.add_simpl_r.
  - rewrite (Z.ones_spec_high 2 n), !andb_false_r by lia. done.
Qed.

(** [setPull] and [setDrive] on any of the 28 pins of an open device: [pull]
    reads back the pull and [drive] the two low bits of the drive; the other
    setting of the pin, its mode, its output and every other pin stay as they
    were, and [PullUnknown] changes nothing. *)
Theorem rp1_pads_exact p s :
  ready s -> 0 <= p < GpioCount ->
  setPull p PullUnknown s = (Ok tt, s) /\
  (forall v, v <> PullUnknown -> exists s', setPull p v s = (Ok tt, s') /\ pull_of p s' = (Ok v, s') /\
     fst (drive_of p s') = fst (drive_of p s) /\
     ctrl b p (regs_of s') = ctrl b p (regs_of s) /\ oe p (regs_of s') = oe p (regs_of s) /\
     out p (regs_of s') = out p (regs_of s) /\
     forall q, 0 <= q < GpioCount -> q <> p -> view q (regs_of s') = view q (regs_of s)) /\
  (forall d, exists s', setDrive p d s = (Ok tt, s') /\ drive_of p s' = (Ok (d mod 4), s') /\
     fst (pull_of p s') = fst (pull_of p s) /\
     ctrl b p (regs_of s') = ctrl b p (regs_of s) /\ oe p (regs_of s') = oe p (regs_of s) /\
     out p (regs_of s') = out p (regs_of s) /\
     forall q, 0 <= q < GpioCount -> q <> p -> view q (regs_of s') = view q (regs_of s)).
Proof.
  intros Hs Hp. assert (Hget : padReg p s = (Ok (hw_read (pad_reg b p) (regs_of s)), s))
    by (apply rp1_get_eq; [done|rp1_numbers; lia]).
  split; [unfold setPull; by rewrite (M_bind_ok _ _ _ _ _ _ _ _ Hget)|]. split; [intros v Hv|intros d].
  - assert (exists x, pull_bits v = Some x /\ 0 <= x < 2 ^ 32 /\ Z.land x GPIO_PAD_PULL_MASK = x /\
      Z.land x GPIO_PAD_DRIVE_MASK = 0 /\ pull_code x = v) as (x & Hx & Hb & Hm & Hd & Hc)
      by (destruct v; try done; (eexists; split; [reflexivity|]; by split_and!)).
    unfold setPull. rewrite (M_bind_ok _ _ _ _ _ _ _ _ Hget), Hx.
    destruct (set_masked p GPIO_PAD_PULL_MASK x s Hs Hp Hb) as (s' & E & Hr & Hpad & Hq).
    exists s'. split; [exact E|]. destruct (Hq p Hp) as (H1 & H2 & H3 & _).
    rewrite rp1_pull_of_eq, !drive_of_eq, Hpad by done. unfold pad.
    rewrite !field_mask, masked_in, masked_out, Hc by done.
    split_and!; try done. intros q Hq' Hne. destruct (Hq q Hq') as (G1 & G2 & G3 & G4).
    unfold view. by rewrite G1, G2, G3, G4.
  - unfold setDrive. rewrite (M_bind_ok _ _ _ _ _ _ _ _ Hget).
    set (x := Z.land (u32 (Z.shiftl d GPIO_PAD_DRIVE_LSB)) GPIO_PAD_DRIVE_MASK).
    assert (Hb : 0 <= x < 2 ^ 32).
    { unfold x. assert (0 <= Z.land (u32 (Z.shiftl d GPIO_PAD_DRIVE_LSB)) 0x30) by (apply Z.land_nonneg; lia).
      split; [done|]. apply bits_bound; [lia|done|]. intros n Hn.
      by rewrite Z.land_spec, (testbit_high GPIO_PAD_DRIVE_MASK 32 n), andb_false_r by done. }
    destruct (set_masked p GPIO_PAD_DRIVE_MASK x s Hs Hp Hb) as (s' & E & Hr & Hpad & Hq).
    exists s'. split; [exact E|]. destruct (Hq p Hp) as (H1 & H2 & H3 & _).
    rewrite drive_of_eq, !rp1_pull_of_eq, Hpad by done. unfold pad.
    rewrite !field_mask, masked_in, masked_out; try done;
      try (unfold x; rewrite <- Z.land_assoc; done || (f_equal; done) || apply Z.land_0_r).
    split; [by unfold x; rewrite drive_bits|]. split_and!; try done.
    intros q Hq' Hne. destruct (Hq q Hq') as (G1 & G2 & G3 & G4). unfold view. by rewrite G1, G2, G3, G4.
Qed.

(** ** Levels *)
(** [write], and [toggle] as no value. *)
Definition drive_pin (op : option bool) (p : Z) : M rp1 unit :=
  match op with Some v => write p v | None => toggle p end.

Lemma rp1_drive_pin_eq op p s : ready s -> 0 <= p < GpioCount ->
  exists s', drive_pin op p s = (Ok tt, s') /\ ready s' /\
    forall q, 0 <= q < GpioCount -> view q (regs_of s') =
      (ctrl b q (regs_of s), pad b q (regs_of s), oe q (regs_of s),
       if q =? p then default (negb (out q (regs_of s))) op else out q (regs_of s)).
Proof.
  intros Hs Hp.
  assert (H : forall a, is_alias a -> exists s', setRio (GPIO_RIO_OUT + a) p s = (Ok tt, s') /\ ready s' /\
    forall q, 0 <= q < GpioCount -> view q (regs_of s') =
      (ctrl b q (regs_of s), pad b q (regs_of s), oe q (regs_of s),
       if q =? p then alias a (out q (regs_of s)) else out q (regs_of s))).
  { intros a Ha. assert (0 <= GPIO_RIO_OUT + a < 0x4000) by (destruct Ha as [->|[->| ->]]; rp1_numbers; lia).
    rewrite setRio_eq by done. eexists. split; [reflexivity|]. split; [done|]. intros q Hq. by apply view_out. }
  destruct op as [[]|]; [exact (H GPIO_RIO_SET_OFFSET ltac:(by right; left))|
    exact (H GPIO_RIO_CLR_OFFSET ltac:(by right; right))|exact (H GPIO_RIO_XOR_OFFSET ltac:(by left))].
Qed.

Lemma rp1_read_eq p s : ready s -> 0 <= p < GpioCount -> read p s = (Ok (level p (regs_of s)), s).
Proof.
  intros Hs Hp. assert (Hp' : 0 <= p < 28) by done. unfold read.
  rewrite (M_bind_ok _ _ _ _ _ _ _ _ (rp1_get_eq (RioOffset + GPIO_RIO_IN) s Hs ltac:(done))).
  unfold one_shl. rewrite (proj2 (Z.leb_le 0 p)), (proj2 (Z.ltb_lt p 32)) by lia. cbn [andb].
  rewrite (M_bind_ok _ _ _ (mret _) _ s _ s eq_refl), Z.shiftl_1_l, land_bit by lia.
  fold (rio_reg b GPIO_RIO_IN). by rewrite level_read.
Qed.

Lemma pad_gpio_drives x : Z.testbit (pad_gpio x) 7 = false /\ Z.testbit (pad_gpio x) 6 = true.
Proof.
  unfold pad_gpio. rewrite !Z.lor_spec, !Z.land_spec. change (Z.testbit 0x3C 7) with false.
  change (Z.testbit 0x43 7) with false. change (Z.testbit 0x43 6) with true.
  by rewrite andb_false_r, orb_true_r.
Qed.

(** [write] and [toggle] through the RIO aliases change the output of the
    addressed pin and nothing else of any pin; on a
    pin that [setMode] made an output, [read] then returns the new value. *)
Theorem rp1_output_exact op p s :
  ready s -> 0 <= p < GpioCount ->
  (exists s', drive_pin op p s = (Ok tt, s') /\ ready s' /\
    out p (regs_of s') = default (negb (out p (regs_of s))) op /\
    forall q, 0 <= q < GpioCount -> ctrl b q (regs_of s') = ctrl b q (regs_of s) /\
      pad b q (regs_of s') = pad b q (regs_of s) /\ oe q (regs_of s') = oe q (regs_of s) /\
      (q <> p -> out q (regs_of s') = out q (regs_of s))) /\
  exists s1 s2, setMode p ModeOutput s = (Ok tt, s1) /\ drive_pin op p s1 = (Ok tt, s2) /\
    read p s2 = (Ok (default (negb (out p (regs_of s))) op), s2).
Proof.
  intros Hs Hp. split.
  - destruct (rp1_drive_pin_eq op p s Hs Hp) as (s' & He & Hr & Hv). exists s'. split; [done|]. split; [done|].
    pose proof (Hv p Hp) as H. apply view_split in H as (_ & _ & _ & H). rewrite Z.eqb_refl in H.
    split; [done|]. intros q Hq. apply Hv in Hq. apply view_split in Hq as (H1 & H2 & H3 & H4).
    split_and!; try done. intros Hne. by rewrite H4, (proj2 (Z.eqb_neq q p)).
  - destruct (rp1_setMode_eq p ModeOutput s _ _ _ Hs Hp eq_refl) as (s1 & He & Hr & Hv).
    destruct (rp1_drive_pin_eq op p s1 Hr Hp) as (s2 & He2 & Hr2 & Hv2). exists s1, s2. split; [done|]. split; [done|].
    specialize (Hv p Hp). rewrite Z.eqb_refl in Hv. apply view_split in Hv as (H1 & H2 & H3 & H4).
    specialize (Hv2 p Hp). rewrite Z.eqb_refl in Hv2. apply view_split in Hv2 as (G1 & G2 & G3 & G4).
    destruct (pad_gpio_drives (pad b p (regs_of s))) as [Hd7 Hd6].
    rewrite rp1_read_eq, level_output by (done || by rewrite ?G1, ?G2, ?G3, ?H1, ?H2, ?H3). by rewrite G4, H4.
Qed.

End Proofs.

(** ** Opening *)
(** [Rp1Gpio::open] on a closed driver maps the registers and leaves it
    ready for every operation above: through the PCI device when one is found
    and the use of gpiomem was not asked for, at the offset of the GPIO block,
    and through /dev/gpiomem0 otherwise; the flag records which of the two it
    was, and an open driver is left as it is. *)
Theorem rp1_open_ready {O : MapOs} {OK : MapOsOk O} {D : Device} (s : rp1) (pcie : string) (o1 o2 : os) (n : Z) :
  let mem := bool_decide (pcie = EmptyString) || negb (Z.land (flags s) useGpioMem =? 0) in
  IoMap.isOpen (im (dev s)) = false ->
  sys_open (if mem then "/dev/gpiomem0" else pcie) (IoMap.sys (im (dev s))) = (inr n, o1) ->
  sys_mmap (if mem then GpioBlockSize else PCIeBlockSize) n 0 o1 = (None, o2) ->
  if isopen s then open pcie s = (Ok true, s)
  else exists s', open pcie s = (Ok true, s') /\ ready (b := if mem then 0 else GpioOffset) s' /\
    isopen s' = true /\ regs_of s' = regs_of s /\
    negb (Z.land (flags s') useGpioMem =? 0) = mem.
Proof.
  intros mem Hc Ho Hm. destruct (isopen s) eqn:Hs; [unfold open; munfold; rewrite Hs; cbn; by rewrite Hs|].
  pose proof (IoMap.open_device_mapped _ _ _ _ _ _ _ Hc Ho Hm) as Hd.
  unfold open, on_map, zoom. munfold. rewrite Hs. fold mem.
  destruct mem; cbn [IoMap.open_device]; rewrite Hd; eexists; (split; [reflexivity|]).
  - split; [done|]. split; [done|]. split; [done|]. cbn.
    change useGpioMem with (2 ^ 16). rewrite land_bit, Z.lor_spec by done. apply orb_true_r.
  - split; [done|]. split; [done|]. split; [done|]. cbn. by rewrite <- Z.land_assoc, Z.land_0_r.
Qed.

(** ** Registers with these laws *)
Module Demo.

Record chip : Type := mk_chip { words : Z -> Z; oe_word : Z; out_word : Z }.

Definition rio_word (r o v old : Z) : Z :=
  if o =? r then v
  else if o =? r + GPIO_RIO_XOR_OFFSET then Z.lxor old v
  else if o =? r + GPIO_RIO_SET_OFFSET then Z.lor old v
  else if o =? r + GPIO_RIO_CLR_OFFSET then Z.ldiff old v
  else old.

Lemma rio_word_bit r o v p old : Z.testbit (rio_word r o v old) p = rio_write r o v p (Z.testbit old p).
Proof.
  unfold rio_word, rio_write. repeat case_match; by rewrite ?Z.lxor_spec, ?Z.lor_spec, ?Z.ldiff_spec.
Qed.

(** Every pin but the outputs of the RIO block is a word of memory; the status
    word of a pin shows the output enable. *)
Definition chip_read (o : Z) (s : chip) : Z :=
  u32 (if o =? rio_reg 0 GPIO_RIO_IN then out_word s
       else if (o <? 56) && Z.even o then if Z.testbit (oe_word s) (o / 2) then GPIO_STATUS_OE else 0
       else words s o).

Definition chip_write (o v : Z) (s : chip) : chip :=
  mk_chip (fun x => if o =? x then v else words s x)
    (rio_word (rio_reg 0 GPIO_RIO_OE) o v (oe_word s)) (rio_word (rio_reg 0 GPIO_RIO_OUT) o v (out_word s)).

Definition device : Device :=
  {| hw := chip; hw_read := chip_read; hw_write := chip_write; hw_word := fun o s => u32_bound _ |}.

Lemma ctrl_word p s : 0 <= p < GpioCount -> chip_read (ctrl_reg 0 p) s = u32 (words s (ctrl_reg 0 p)).
Proof.
  intros Hp. unfold chip_read, ctrl_reg, rio_reg. rp1_numbers. rewrite (proj2 (Z.eqb_neq _ _)) by lia.
  replace (0 + (p * 2 + 1)) with (1 + 2 * p) by lia. by rewrite Z.even_add_mul_2, andb_false_r.
Qed.

Lemma pad_word p s : 0 <= p < GpioCount -> chip_read (pad_reg 0 p) s = u32 (words s (pad_reg 0 p)).
Proof.
  intros Hp. unfold chip_read, pad_reg, rio_reg. rp1_numbers. rewrite (proj2 (Z.eqb_neq _ _)) by lia.
  by rewrite (proj2 (Z.ltb_ge _ _)) by lia.
Qed.

#[export] Program Instance device_regs : Rp1Regs device 0 := {|
  oe p s := Z.testbit (oe_word s) p;
  out p s := Z.testbit (out_word s) p;
  level p s := Z.testbit (out_word s) p |}.
Next Obligation.
  intros p o v s Hp Hv. unfold ctrl. cbn -[field]. rewrite !ctrl_word by done. cbn -[field].
  destruct (o =? ctrl_reg 0 p); [by rewrite u32_small|done].
Qed.
Next Obligation.
  intros p o v s Hp Hv. unfold pad. cbn -[field]. rewrite !pad_word by done. cbn -[field].
  destruct (o =? pad_reg 0 p); [by rewrite u32_small|done].
Qed.
Next Obligation. intros. apply rio_word_bit. Qed.
Next Obligation. intros. apply rio_word_bit. Qed.
Next Obligation.
  intros p s Hp _ _. cbn -[Z.land Z.testbit]. unfold chip_read, rio_reg. rp1_numbers.
  rewrite (proj2 (Z.eqb_neq _ _)), (proj2 (Z.ltb_lt _ _)) by lia.
  replace (0 + p * 2) with (0 + 2 * p) by lia.
  replace (Z.even (0 + 2 * p)) with true by (by rewrite Z.even_add_mul_2).
  replace ((0 + 2 * p) / 2) with p by (rewrite Z.add_0_l, Z.mul_comm, Z.div_mul; lia).
  cbn [andb]. by destruct (Z.testbit (oe_word s) p).
Qed.
Next Obligation.
  intros p s Hp. cbn -[Z.testbit]. unfold chip_read. rewrite Z.eqb_refl. unfold u32. rp1_numbers.
  apply Z.mod_pow2_bits_low. lia.
Qed.
Next Obligation. done. Qed.

(** All pins disabled, through /dev/gpiomem0. *)
Definition demo : @rp1 IoMap.no_mmap device :=
  mk_rp1 true useGpioMem (Some 0)
    (@mk_io IoMap.no_mmap device (IoMap.mk_iomap 0 GpioBlockSize 4 IoMap.Mapped (tt : @os IoMap.no_mmap))
      (mk_chip (fun _ => 0x9f) 0 0)).

Lemma rp1_demo_ready : ready (b := 0) demo.
Proof. by split. Qed.

Lemma rp1_setMode_exact_witness :
  exists s', setMode 18 ModePwm demo = (Ok tt, s') /\ ready (b := 0) s' /\ mode_of 18 s' = (Ok ModePwm, s') /\
    out 18 (regs_of s') = out 18 (regs_of demo) /\
    (keeps_pad ModePwm = true -> fst (pull_of 18 s') = fst (pull_of 18 demo) /\ fst (drive_of 18 s') = fst (drive_of 18 demo)) /\
    forall q, 0 <= q < GpioCount -> q <> 18 -> view (b := 0) q (regs_of s') = view (b := 0) q (regs_of demo).
Proof. exact (rp1_setMode_exact (b := 0) 18 ModePwm demo rp1_demo_ready ltac:(unfold GpioCount; lia)). Defined.

(** A closed driver of a board whose PCI device was found. *)
Definition closed : @rp1 IoMap.with_mmap device :=
  mk_rp1 false 0 None (@mk_io IoMap.with_mmap device (IoMap.new (tt : @os IoMap.with_mmap)) (mk_chip (fun _ => 0x9f) 0 0)).

Lemma rp1_open_ready_witness :
  exists s', open "/sys/bus/pci/devices/0002:01:00.0/resource1" closed = (Ok true, s') /\
    ready (b := GpioOffset) s' /\ isopen s' = true.
Proof.
  destruct (rp1_open_ready (OK := IoMap.with_mmap_ok) closed "/sys/bus/pci/devices/0002:01:00.0/resource1" (tt : @os IoMap.with_mmap)
    (tt : @os IoMap.with_mmap) 4 eq_refl eq_refl eq_refl) as (s' & H1 & H2 & H3 & _).
  exists s'. split; [exact H1|]. split; [exact H2|exact H3].
Defined.

Lemma rp1_pads_exact_witness : setPull 4 PullUnknown demo = (Ok tt, demo) /\
  exists s', setDrive 4 2 demo = (Ok tt, s') /\ drive_of 4 s' = (Ok (2 mod 4), s').
Proof.
  destruct (rp1_pads_exact (b := 0) 4 demo rp1_demo_ready ltac:(unfold GpioCount; lia)) as (H1 & _ & H2).
  split; [exact H1|]. destruct (H2 2) as (s' & H3 & H4 & _). exists s'. split; [exact H3|exact H4].
Defined.

Lemma rp1_output_exact_witness :
  exists s1 s2, setMode 27 ModeOutput demo = (Ok tt, s1) /\ drive_pin (Some true) 27 s1 = (Ok tt, s2) /\
    read 27 s2 = (Ok true, s2).
Proof.
  exact (proj2 (rp1_output_exact (b := 0) (Some true) 27 demo rp1_demo_ready ltac:(unfold GpioCount; lia))).
Defined.

End Demo.
End Rp1.
