(* ===== verification/TSQueue.v ===== *)
(** * The thread-safe queue, include/piduino/tsqueue.h

    A queue shared by threads through one mutex and one condition variable.  A
    state holds the queue, the owner of the mutex and what each thread is doing;
    [step] is one atomic action of one thread: taking the mutex, the body of a
    critical section, going to sleep, being woken, giving the mutex back.  The
    ghost field [log] lists the operations in the order they took effect, which
    is what the queue is compared with.  A sleeping thread may also wake without
    being notified, as the C++ standard allows. *)
From S2P Require Import Prelude.

Module TSQueue.
Section Queue.
Context {T : Type}.

(** What a thread is doing.  [Idle] is outside the queue; an operation in
    [Enter] waits for the mutex, in [Inside] it owns it and has not acted yet,
    [Notify] is a push that has stored its item, [Leave] an operation that only
    has the mutex to give back; [Sleep] is a pop waiting on the condition. *)
Inductive op : Type := Push (item : T) | Pop | Empty | Size | Clear.
Inductive pc : Type := Idle | Enter (o : op) | Inside (o : op) | Notify | Sleep | Leave.

Inductive event : Type := Pushed (item : T) | Popped (item : T) | Cleared | Observed (n : nat).

Record state : Type := mk_state {
  m_queue : list T; owner : option nat; threads : list pc; log : list (nat * event) }.

Definition init (n : nat) : state := mk_state [] None (replicate n Idle) [].

Definition set_pc (i : nat) (p : pc) (s : state) : state :=
  mk_state (m_queue s) (owner s) (<[i := p]> (threads s)) (log s).
Definition set_owner (o : option nat) (s : state) : state :=
  mk_state (m_queue s) o (threads s) (log s).
Definition act (i : nat) (q : list T) (e : event) (s : state) : state :=
  mk_state q (owner s) (threads s) (log s ++ [(i, e)]).

(** The body of an operation, with the mutex held: the new state and what the
    thread does next.  A pop of an empty queue sleeps and gives the mutex back. *)
Definition body (i : nat) (o : op) (s : state) : state * pc :=
  match o with
  | Push v => (act i (m_queue s ++ [v]) (Pushed v) s, Notify)
  | Pop =>
      match m_queue s with
      | [] => (set_owner None s, Sleep)
      | v :: q => (act i q (Popped v) s, Leave)
      end
  | Empty | Size => (act i (m_queue s) (Observed (length (m_queue s))) s, Leave)
  | Clear => (act i [] Cleared s, Leave)
  end.

(** [notify_one] wakes one of the threads that sleep, if there is one. *)
Definition sleeping (s : state) (j : nat) : Prop := threads s !! j = Some Sleep.

(** One action of one thread.  [Call] starts an operation, [Spurious] is a
    wake-up without cause, [Run] is everything the threads already inside do. *)
Inductive label : Type := Call | Run | Spurious.
Inductive step : label -> state -> state -> Prop :=
  | step_call i o s : threads s !! i = Some Idle -> step Call s (set_pc i (Enter o) s)
  | step_lock i o s : threads s !! i = Some (Enter o) -> owner s = None ->
      step Run s (set_owner (Some i) (set_pc i (Inside o) s))
  | step_body i o s : threads s !! i = Some (Inside o) -> owner s = Some i ->
      step Run s (set_pc i (body i o s).2 (body i o s).1)
  | step_notify i j s : threads s !! i = Some Notify -> owner s = Some i -> sleeping s j ->
      step Run s (set_pc i Leave (set_pc j (Enter Pop) s))
  | step_notify_none i s : threads s !! i = Some Notify -> owner s = Some i ->
      (forall j, ~ sleeping s j) -> step Run s (set_pc i Leave s)
  | step_unlock i s : threads s !! i = Some Leave -> owner s = Some i ->
      step Run s (set_owner None (set_pc i Idle s))
  | step_spurious j s : sleeping s j -> step Spurious s (set_pc j (Enter Pop) s).

Definition any_step (s s' : state) : Prop := exists l, step l s s'.
Definition reachable (n : nat) (s : state) : Prop := rtc any_step (init n) s.

(** ** The queue as a sequential object *)
Inductive runs : list event -> list T -> Prop :=
  | runs_nil : runs [] []
  | runs_push l q v : runs l q -> runs (l ++ [Pushed v]) (q ++ [v])
  | runs_pop l q v : runs l (v :: q) -> runs (l ++ [Popped v]) q
  | runs_clear l q : runs l q -> runs (l ++ [Cleared]) []
  | runs_observe l q : runs l q -> runs (l ++ [Observed (length q)]) q.

(** ** Counting threads *)
Definition total (w : pc -> nat) (l : list pc) : nat := sum_list_with w l.
Definition count (P : pc -> bool) : list pc -> nat := total (fun p => if P p then 1%nat else 0%nat).

Lemma total_insert w l i p p' : l !! i = Some p -> (total w (<[i := p']> l) + w p = total w l + w p')%nat.
Proof.
  revert i. induction l as [|x l IH]; intros [|i] H; simplify_eq/=; [lia|].
  specialize (IH _ H). unfold total in *. lia.
Qed.

Lemma total_zero w l : total w l = 0%nat -> forall i p, l !! i = Some p -> w p = 0%nat.
Proof.
  induction l as [|x l IH]; intros H [|i] p Hp; simplify_eq/=; unfold total in *; cbn in H; [lia|].
  eapply IH; [|done]. lia.
Qed.

Lemma count_insert P l i p p' : l !! i = Some p ->
  (count P (<[i := p']> l) + (if P p then 1 else 0) = count P l + (if P p' then 1 else 0))%nat.
Proof. apply total_insert. Qed.

(** ** Invariants *)
Definition holds (p : pc) : bool := match p with Inside _ | Notify | Leave => true | _ => false end.
Definition awake_pop (p : pc) : bool := match p with Enter Pop | Inside Pop | Notify => true | _ => false end.

(** The owner of the mutex is the one thread in a critical section. *)
Definition mutex (o : option nat) (ts : list pc) : Prop :=
  (forall i p, ts !! i = Some p -> holds p = bool_decide (o = Some i)) /\
  forall i, o = Some i -> is_Some (ts !! i).
(** No wake-up is lost: while a pop sleeps, every item of the queue has an
    operation that is awake and will pop it or notify. *)
Definition no_lost_wakeup (q : list T) (ts : list pc) : Prop :=
  (exists j, ts !! j = Some Sleep) -> (length q <= count awake_pop ts)%nat.

Record inv (s : state) : Prop := {
  inv_mutex : mutex (owner s) (threads s);
  inv_log : runs (snd <$> log s) (m_queue s);
  inv_wakeup : no_lost_wakeup (m_queue s) (threads s) }.

Lemma pc_lookup (ts : list pc) i j p p0 : ts !! i = Some p0 ->
  <[i := p]> ts !! j = if decide (i = j) then Some p else ts !! j.
Proof.
  intros H. destruct (decide (i = j)) as [<-|Hne].
  - apply list_lookup_insert_eq. by eapply lookup_lt_Some.
  - by apply list_lookup_insert_ne.
Qed.

Lemma inv_init n : inv (init n).
Proof.
  constructor; cbn.
  - split; [|done]. intros i p H. by apply lookup_replicate in H as [-> _].
  - constructor.
  - intros [j Hj]. by apply lookup_replicate in Hj as [? _].
Qed.

(** Thread [i] changes its state, taking or giving back the mutex as it does. *)
Lemma mutex_insert o o' ts i p p' : mutex o ts -> ts !! i = Some p ->
  o = o' \/ (o = None /\ o' = Some i) \/ (o = Some i /\ o' = None) ->
  holds p' = bool_decide (o' = Some i) -> mutex o' (<[i := p']> ts).
Proof.
  intros [H1 H2] Hi Ho Hp. split.
  - intros j q. rewrite (pc_lookup _ _ _ _ _ Hi). destruct (decide (i = j)) as [<-|Hne]; [by intros [= <-]|].
    intros Hj. rewrite (H1 _ _ Hj). apply bool_decide_ext. naive_solver.
  - intros j Hj. rewrite (pc_lookup _ _ _ _ _ Hi). destruct (decide (i = j)); [done|]. naive_solver.
Qed.

(** Thread [i] changes its state without hiding a wake-up. *)
Lemma wakeup_insert q q' ts i p p' : no_lost_wakeup q ts -> ts !! i = Some p ->
  (p' = Sleep -> q' = []) ->
  q' = [] \/ (length q' + (if awake_pop p then 1 else 0) <= length q + (if awake_pop p' then 1 else 0))%nat ->
  no_lost_wakeup q' (<[i := p']> ts).
Proof.
  intros H Hi Hs [->|Hl] [j Hj]; [cbn; lia|]. pose proof (count_insert awake_pop _ _ _ p' Hi).
  rewrite (pc_lookup _ _ _ _ _ Hi) in Hj. destruct (decide (i = j)) as [<-|Hne].
  - injection Hj as ->. rewrite Hs by done. cbn. lia.
  - assert (length q <= count awake_pop ts)%nat by (apply H; by exists j). lia.
Qed.

Lemma mutex_holds o ts i p : mutex o ts -> ts !! i = Some p -> holds p = bool_decide (o = Some i).
Proof. intros [H _]. apply H. Qed.

Lemma log_snoc i e (s : state) : snd <$> (log s ++ [(i, e)]) = (snd <$> log s) ++ [e].
Proof. by rewrite fmap_app. Qed.

Lemma inv_body i o s : inv s -> threads s !! i = Some (Inside o) -> owner s = Some i ->
  inv (set_pc i (body i o s).2 (body i o s).1).
Proof.
  intros [H1 H2 H3] Hi Ho.
  assert (Hm : forall p o', holds p = bool_decide (o' = Some i) -> o' = Some i \/ o' = None ->
    mutex o' (<[i := p]> (threads s))).
  { intros p o' Hp Ho'. eapply mutex_insert; [exact H1|exact Hi| |done]. naive_solver. }
  assert (Hm' : forall p, holds p = true -> mutex (owner s) (<[i := p]> (threads s)))
    by (intros p Hp; apply Hm; [rewrite Ho, bool_decide_true|]; auto).
  destruct o; cbn [body]; [|destruct (m_queue s) as [|v q] eqn:Hq|..]; constructor;
    cbn [threads owner log m_queue set_pc set_owner act fst snd];
    try (by apply Hm'); try (by apply Hm; auto); try (rewrite ?log_snoc, ?Hq; by econstructor);
    try (eapply wakeup_insert; [done..|]; auto).
  - right. cbn. rewrite length_app. cbn. lia.
  - by rewrite Hq.
  - right. cbn. lia.
Qed.

Lemma inv_step l s s' : inv s -> step l s s' -> inv s'.
Proof.
  intros HI. destruct 1 as [i o s Hi|i o s Hi Ho|i o s Hi Ho|i j s Hi Ho Hj|i s Hi Ho Hn|i s Hi Ho|j s Hj].
  - destruct HI as [H1 H2 H3]. pose proof (mutex_holds _ _ _ _ H1 Hi). constructor; cbn; [|done|].
    + eapply mutex_insert; [done..|by left|done].
    + eapply wakeup_insert; [done..|]. right. destruct o; cbn; lia.
  - destruct HI as [H1 H2 H3]. constructor; cbn; [|done|].
    + eapply mutex_insert; [done..|auto|]. by rewrite bool_decide_true.
    + eapply wakeup_insert; [done..|]. right. by destruct o.
  - by apply inv_body.
  - destruct HI as [H1 H2 H3]. pose proof (mutex_holds _ _ _ _ H1 Hi) as Hh. pose proof (mutex_holds _ _ _ _ H1 Hj).
    assert (i <> j) by (intros <-; unfold sleeping in Hj; congruence).
    assert (Hi' : <[j := Enter Pop]> (threads s) !! i = Some Notify) by (by rewrite list_lookup_insert_ne).
    constructor; cbn; [|done|].
    + apply (mutex_insert (owner s) _ _ _ Notify); [|exact Hi'|by left|done].
      by apply (mutex_insert (owner s) _ _ _ Sleep); [..|left|].
    + intros [k Hk]. pose proof (count_insert awake_pop _ _ _ Leave Hi') as C1.
      pose proof (count_insert awake_pop _ _ _ (Enter Pop) Hj) as C2. cbn in C1, C2.
      assert (length (m_queue s) <= count awake_pop (threads s))%nat by (apply H3; by exists j). lia.
  - destruct HI as [H1 H2 H3]. pose proof (mutex_holds _ _ _ _ H1 Hi) as Hh. constructor; cbn; [|done|].
    + eapply mutex_insert; [done..|by left|done].
    + intros [j Hj]. exfalso. rewrite (pc_lookup _ _ _ _ _ Hi) in Hj. destruct (decide (i = j)); [done|]. by apply (Hn j).
  - destruct HI as [H1 H2 H3]. constructor; cbn; [|done|].
    + eapply mutex_insert; [done..|auto|done].
    + eapply wakeup_insert; [done..|]. right. cbn. lia.
  - destruct HI as [H1 H2 H3]. pose proof (mutex_holds _ _ _ _ H1 Hj). constructor; cbn; [|done|].
    + eapply mutex_insert; [done..|by left|done].
    + eapply wakeup_insert; [done..|]. right. cbn. lia.
Qed.

Lemma inv_reachable n s : reachable n s -> inv s.
Proof.
  revert s. apply rtc_ind_r; [apply inv_init|].
  intros s1 s2 _ [l Hs] HI. by eapply inv_step.
Qed.

(** ** Every operation finishes *)
Definition weight (p : pc) : nat :=
  match p with
  | Idle | Sleep => 0 | Leave => 1 | Notify => 5
  | Inside (Push _) => 6 | Enter (Push _) => 7 | Inside _ => 2 | Enter _ => 3
  end.
Definition measure (s : state) : nat := total weight (threads s).

Lemma measure_run s s' : step Run s s' -> (measure s' < measure s)%nat.
Proof.
  unfold measure. inversion 1 as [|i o s0 Hi Ho|i o s0 Hi Ho|i j s0 Hi Ho Hj|i s0 Hi Ho Hn|i s0 Hi Ho|]; subst; cbn [threads set_pc set_owner].
  - pose proof (total_insert weight _ _ _ (Inside o) Hi). destruct o; cbn [weight] in *; lia.
  - pose proof (total_insert weight _ _ _ (body i o s).2 Hi).
    assert (threads (body i o s).1 = threads s) as -> by (destruct o; cbn; try done; by destruct (m_queue s)).
    assert (weight (body i o s).2 < weight (Inside o))%nat by (destruct o; cbn; try lia; destruct (m_queue s); cbn; lia).
    lia.
  - assert (i <> j) by (intros <-; unfold sleeping in Hj; congruence).
    assert (Hi' : <[j := Enter Pop]> (threads s) !! i = Some Notify) by (by rewrite list_lookup_insert_ne).
    pose proof (total_insert weight _ _ _ Leave Hi'). pose proof (total_insert weight _ _ _ (Enter Pop) Hj).
    cbn [weight] in *. lia.
  - pose proof (total_insert weight _ _ _ Leave Hi). cbn [weight] in *. lia.
  - pose proof (total_insert weight _ _ _ Idle Hi). cbn [weight] in *. lia.
Qed.

Lemma sleeping_dec s : (exists j, sleeping s j) \/ forall j, ~ sleeping s j.
Proof.
  unfold sleeping. induction (threads s) as [|p ts IH]; [by right|].
  destruct p; try (destruct IH as [[j Hj]|IH]; [left; by exists (S j)|right; intros [|j]; [done|apply IH]]).
  left. by exists 0%nat.
Qed.

(** The owner of the mutex can always go on. *)
Lemma owner_runs s i : inv s -> owner s = Some i -> exists s', step Run s s'.
Proof.
  intros [[H1 H2] _ _] Ho. destruct (H2 _ Ho) as [p Hp]. pose proof (H1 _ _ Hp) as Hh.
  rewrite Ho, bool_decide_true in Hh by done.
  destruct p as [|o|o| | |]; try discriminate Hh; try (eexists; by econstructor).
  destruct (sleeping_dec s) as [[j Hj]|Hn]; eexists; by econstructor.
Qed.

(** Without a step of the threads inside, nobody is inside but the pops that
    sleep, and those sleep on an empty queue. *)
Lemma stuck_idle s : inv s -> (forall s', ~ step Run s s') ->
  forall i p, threads s !! i = Some p -> p = Idle \/ (p = Sleep /\ m_queue s = []).
Proof.
  intros HI Hn. assert (Ho : owner s = None).
  { destruct (owner s) as [i|] eqn:Ho; [|done]. destruct (owner_runs s i HI Ho) as [s' Hs]. by destruct (Hn s'). }
  destruct HI as [[H1 _] _ H3].
  assert (Hall : forall i p, threads s !! i = Some p -> p = Idle \/ p = Sleep).
  { intros i p Hp. pose proof (H1 _ _ Hp) as Hh. rewrite Ho in Hh. cbn in Hh.
    destruct p as [|o|o| | |]; try discriminate Hh; auto. edestruct Hn. by econstructor. }
  intros i p Hp. destruct (Hall _ _ Hp) as [->| ->]; [by left|]. right. split; [done|].
  assert (count awake_pop (threads s) = 0%nat) as Hc.
  { revert Hall. clear. unfold count, total. induction (threads s) as [|p ts IH]; intros H; [done|]. cbn.
    rewrite IH by (intros i; apply (H (S i))). by destruct (H 0%nat p eq_refl) as [->| ->]. }
  assert (length (m_queue s) <= 0)%nat by (rewrite <- Hc; apply H3; by exists i).
  destruct (m_queue s); [done|]. cbn in *. lia.
Qed.

(** ** Order of the items *)
Definition pushed (l : list event) : list T := omap (fun e => match e with Pushed v => Some v | _ => None end) l.
Definition popped (l : list event) : list T := omap (fun e => match e with Popped v => Some v | _ => None end) l.

Lemma runs_fifo l q : runs l q -> Cleared ∉ l -> pushed l = popped l ++ q.
Proof.
  unfold pushed, popped.
  induction 1 as [|l q v _ IH|l q v _ IH|l q _ IH|l q _ IH]; intros Hc; [done|..];
    rewrite ?not_elem_of_app in Hc; rewrite !omap_app; cbn.
  - rewrite IH, <- app_assoc, app_nil_r by tauto. done.
  - rewrite IH, app_nil_r, <- app_assoc by tauto. done.
  - destruct Hc as [_ Hc]. by destruct Hc; constructor.
  - rewrite !app_nil_r. apply IH. tauto.
Qed.

End Queue.

(** C2: However the calls of any number of threads interleave, the queue behaves
    as one operation after the other: at most one thread is in a critical
    section, the operations in the order they took effect are a run of a
    first-in-first-out queue that ends in the present contents, so every pop
    returned the item at the front and no item is lost or delivered twice. *)
Theorem tsqueue_linearizable {T} (n : nat) (s : @state T) : reachable n s ->
  (forall i j p q, threads s !! i = Some p -> threads s !! j = Some q -> holds p = true -> holds q = true -> i = j) /\
  runs (snd <$> log s) (m_queue s) /\
  (Cleared ∉ (snd <$> log s) -> pushed (snd <$> log s) = popped (snd <$> log s) ++ m_queue s).
Proof.
  intros [[H1 _] H2 _]%inv_reachable. split; [|split; [done|by apply runs_fifo]].
  intros i j p q Hi Hj Hp Hq. rewrite (H1 _ _ Hi) in Hp. rewrite (H1 _ _ Hj) in Hq.
  apply bool_decide_eq_true in Hp, Hq. congruence.
Qed.

(** C35: No operation is left hanging and no wake-up is lost: from any reachable
    state the threads that are inside the queue can only take finitely many
    steps, in whatever order they are scheduled, and when none of them can go on
    all operations have returned but pops that sleep, and then the queue is
    empty. *)
Theorem tsqueue_progress {T} (n : nat) (s : @state T) : reachable n s ->
  sn (step Run) s /\
  forall s', rtc (step Run) s s' -> nf (step Run) s' ->
    owner s' = None /\
    forall i p, threads s' !! i = Some p -> p = Idle \/ (p = Sleep /\ m_queue s' = []).
Proof.
  intros Hr. split.
  - apply (well_founded_lt_compat _ measure). intros x y. apply measure_run.
  - intros s' Hs' Hnf. assert (HI : inv s').
    { apply (inv_reachable n). eapply (PreOrder_Transitive (R := rtc any_step)); [exact Hr|].
      eapply rtc_subrel; [|exact Hs']. intros x y Hxy. by exists Run. }
    assert (Hn : forall s'', ~ step Run s' s'') by (intros s'' Hs; apply Hnf; by exists s'').
    split; [|by apply stuck_idle]. destruct (owner s') as [i|] eqn:Ho; [|done].
    destruct (owner_runs _ _ HI Ho) as [s'' Hs]. by destruct (Hn s'').
Qed.

(** ** Two threads: one sleeps in a pop and the other pushes *)
Definition demo_run (s : @state nat) : list (@state nat) :=
  let s1 := set_pc 0 (Enter Pop) s in
  let s2 := set_owner (Some 0%nat) (set_pc 0 (Inside Pop) s1) in
  let s3 := set_pc 0 (body 0 Pop s2).2 (body 0 Pop s2).1 in
  let s4 := set_pc 1 (Enter (Push 7%nat)) s3 in
  let s5 := set_owner (Some 1%nat) (set_pc 1 (Inside (Push 7%nat)) s4) in
  let s6 := set_pc 1 (body 1 (Push 7%nat) s5).2 (body 1 (Push 7%nat) s5).1 in
  [s1; s2; s3; s4; s5; s6].
Definition demo : @state nat := default (init 2) (last (demo_run (init 2))).

Lemma demo_reachable : reachable 2 demo.
Proof.
  unfold reachable, demo. cbn.
  eapply rtc_l; [exists Call; by apply (step_call 0 Pop)|].
  eapply rtc_l; [exists Run; by apply (step_lock 0 Pop)|].
  eapply rtc_l; [exists Run; by apply (step_body 0 Pop)|].
  eapply rtc_l; [exists Call; by apply (step_call 1 (Push 7%nat))|].
  eapply rtc_l; [exists Run; by apply (step_lock 1 (Push 7%nat))|].
  eapply rtc_l; [exists Run; by apply (step_body 1 (Push 7%nat))|]. apply rtc_refl.
Qed.

Lemma tsqueue_linearizable_witness : reachable 2 demo /\ runs (snd <$> log demo) [7%nat].
Proof. split; [exact demo_reachable|]. exact (proj1 (proj2 (tsqueue_linearizable 2 demo demo_reachable))). Defined.

Lemma tsqueue_progress_witness : reachable 2 demo /\ sn (step Run) demo.
Proof. split; [exact demo_reachable|]. exact (proj1 (tsqueue_progress 2 demo demo_reachable)). Defined.

End TSQueue.
