(* ===== verification/FileDevice.v ===== *)
(** * Files, src/filedevice.cpp and src/filedevice_p.h

    A file device is an [IoDevice] with a descriptor, which is its own when the
    device was given a path and somebody else's when it was given a descriptor.
    The system calls are the class [FileOs]; the laws of [FileOsOk] are those of
    the descriptor table. *)
From S2P Require Import Prelude IoDevice.
Import Flags IoDevice.

Module FileDevice.

Definition O_ACCMODE : Z := 3.

(** The system calls; [errno] is what the last failed call has set, and
    [open_fds] the descriptors of the process. *)
Class FileOs (W : Type) : Type := {
  sys_open : string -> Z -> W -> Z * W;
  sys_close : Z -> W -> Z * W;
  sys_getfl : Z -> W -> Z * W;
  sys_read : Z -> Z -> W -> (Z * list Z) * W;
  sys_write : Z -> list Z -> W -> Z * W;
  sys_ioctl : Z -> Z -> W -> Z * W;
  errno_of : W -> Z;
  open_fds : W -> gset Z }.

(** [open] gives a descriptor that was not in use, or -1; [close] releases the
    descriptor whatever it returns, and does nothing on one that is not in use;
    the other calls leave the descriptors alone, and read gives no more bytes
    than it was asked for. *)
Class FileOsOk (W : Type) `{FileOs W} : Prop := {
  open_spec path flags w : let '(fd, w') := sys_open path flags w in
    (fd = -1 /\ open_fds w' = open_fds w) \/ (0 <= fd /\ fd ∉ open_fds w /\ open_fds w' = {[fd]} ∪ open_fds w);
  close_spec fd w : open_fds (sys_close fd w).2 = open_fds w ∖ {[fd]};
  getfl_spec fd w : open_fds (sys_getfl fd w).2 = open_fds w;
  read_spec fd n w : 0 <= n -> open_fds (sys_read fd n w).2 = open_fds w /\
    let '(r, bs) := (sys_read fd n w).1 in
    if 0 <=? r then r = Z.of_nat (length bs) /\ r <= n else bs = [];
  write_spec fd bs w : open_fds (sys_write fd bs w).2 = open_fds w;
  ioctl_spec fd req w : open_fds (sys_ioctl fd req w).2 = open_fds w;
  fds_nonneg fd w : fd ∈ open_fds w -> 0 <= fd }.

Section FileDevice.
Context {W : Type} `{FileOs W}.

Record file : Type := mk_file {
  base : iodevice;
  fd : Z;
  ourFile : bool;
  path : string;
  world : W }.

Definition with_base (b : iodevice) (f : file) : file := mk_file b (fd f) (ourFile f) (path f) (world f).
Definition with_fd (n : Z) (f : file) : file := mk_file (base f) n (ourFile f) (path f) (world f).
Definition with_world (w : W) (f : file) : file := mk_file (base f) (fd f) (ourFile f) (path f) w.

(** [FileDevice ()] *)
Definition new (w : W) : file := mk_file IoDevice.new (-1) true "" w.

Definition isOpen (f : file) : bool := IoDevice.isOpen (base f).
Definition setError (f : file) : file := with_base (setError_errno (errno_of (world f)) (base f)) f.

(** [FileDevice::Private::open]; the additional flags are those a subclass
    passes. *)
Definition popen (m additionalPosixFlags : Z) (f : file) : bool * file :=
  let flags := Z.lor (Z.land additionalPosixFlags (Z.lnot (Z.lor O_ACCMODE (Z.lor O_APPEND O_TRUNC))))
                     (modeToPosixFlags m) in
  let '(n, w) := sys_open (path f) flags (world f) in
  let f := with_world w (with_fd n f) in
  if fd f =? -1 then (false, setError f)
  else let '(r, b) := IoDevice.popen m (base f) in (r, with_base b f).

(** [FileDevice::Private::close] *)
Definition pclose (f : file) : file :=
  let '(r, w) := sys_close (fd f) (world f) in
  let f := with_world w f in
  let f := if negb (r =? 0) then setError f else f in
  let f := with_fd (-1) f in
  with_base (IoDevice.pclose (base f)) f.

Definition open (m : Z) (f : file) : bool * file :=
  if negb (isOpen f) && ourFile f then popen m 0 f else (isOpen f, f).

Definition close (f : file) : file := if isOpen f && ourFile f then pclose f else f.

Definition setPath (p : string) (f : file) : file :=
  let f := close f in mk_file (base f) (-1) true p (world f).

Definition setFd (fdesc : Z) (f : file) : bool * file :=
  if negb (fdesc =? fd f) then
    let '(flags, w) := sys_getfl fdesc (world f) in
    let f := with_world w f in
    if 0 <=? flags then
      let f := close f in
      let acc := Z.land flags O_ACCMODE in
      let m := if acc =? O_RDONLY then ReadOnly else if acc =? O_WRONLY then WriteOnly
               else if acc =? O_RDWR then ReadWrite else NotOpen in
      if negb (m =? NotOpen) then
        let m := if test flags O_APPEND then Z.lor m Append else m in
        let '(r, b) := IoDevice.open m (base f) in
        (r, mk_file b fdesc false "" (world f))
      else (isOpen f, f)
    else (isOpen f, f)
  else (isOpen f, f).

Definition read (n : Z) (f : file) : (Z * list Z) * file :=
  if test (openMode (base f)) ReadOnly then
    let '((len, bs), w) := sys_read (fd f) n (world f) in
    let f := with_world w f in
    ((len, bs), if len <? 0 then setError f else f)
  else ((-1, []), f).

Definition write (buf : list Z) (f : file) : Z * file :=
  if test (openMode (base f)) WriteOnly then
    let '(len, w) := sys_write (fd f) buf (world f) in
    let f := with_world w f in
    (len, if len <? 0 then setError f else f)
  else (-1, f).

(** [ioctl (req)]; the variant with an argument differs in the system call only. *)
Definition ioctl (req : Z) (f : file) : Z * file :=
  let '(r, w) := sys_ioctl (fd f) req (world f) in
  let f := with_world w f in (r, if r <? 0 then setError f else f).

(** The calls on one device. *)
Inductive call : Type :=
  | Open (m : Z) | Close | SetPath (p : string) | SetFd (fdesc : Z)
  | Read (n : nat) | Write (buf : list Z) | Ioctl (req : Z).
Definition run1 (c : call) (f : file) : file :=
  match c with
  | Open m => (open m f).2 | Close => close f | SetPath p => setPath p f | SetFd n => (setFd n f).2
  | Read n => (read (Z.of_nat n) f).2 | Write b => (write b f).2 | Ioctl r => (ioctl r f).2
  end.
Definition run (cs : list call) (f : file) : file := foldl (fun f c => run1 c f) f cs.

(** The descriptor the device has to close. *)
Definition owned (f : file) : gset Z :=
  if ourFile f && isOpen f && (0 <=? fd f) then {[fd f]} else ∅.

Section Laws.
Context {OK : FileOsOk W}.

(** The descriptors of the process are those of others and the owned one; a
    closed device of its own has none. *)
Record inv (others : gset Z) (f : file) : Prop := {
  inv_fds : open_fds (world f) = owned f ∪ others;
  inv_apart : owned f ## others;
  inv_closed : ourFile f = true -> isOpen f = false -> fd f = -1 }.

Lemma setError_same f : isOpen (setError f) = isOpen f /\ fd (setError f) = fd f /\
  ourFile (setError f) = ourFile f /\ world (setError f) = world f.
Proof. unfold setError, setError_errno, isOpen, IoDevice.isOpen. by case_bool. Qed.

(** A step that moves neither the mode nor the descriptor keeps the invariant. *)
Lemma inv_same o f f' : inv o f -> isOpen f' = isOpen f -> fd f' = fd f -> ourFile f' = ourFile f ->
  open_fds (world f') = open_fds (world f) -> inv o f'.
Proof.
  intros [H1 H2 H3] Ho Hfd Hour Hw. assert (Heq : owned f' = owned f) by (unfold owned; by rewrite Ho, Hfd, Hour).
  constructor; rewrite ?Heq, ?Hw, ?Hour, ?Ho, ?Hfd; done.
Qed.

Lemma inv_close o f : inv o f -> inv o (close f) /\ (ourFile f = true -> isOpen (close f) = false).
Proof.
  intros HI. unfold close. destruct (isOpen f && ourFile f) eqn:E.
  - apply andb_true_iff in E as [Eo Eu]. split; [|intros _].
    + destruct HI as [H1 H2 H3]. unfold pclose.
      destruct (sys_close (fd f) (world f)) as [r w] eqn:Ec.
      pose proof (close_spec (fd f) (world f)) as Hc. rewrite Ec in Hc. cbn in Hc.
      assert (Hw : open_fds w = o).
      { rewrite Hc, H1. unfold owned. rewrite Eu, Eo. cbn. destruct (Z.leb_spec 0 (fd f)).
        - unfold owned in H2. rewrite Eu, Eo, (proj2 (Z.leb_le 0 _)) in H2 by done. cbn in H2. set_solver.
        - assert (fd f ∉ o); [|set_solver]. intros Hin.
          assert (fd f ∈ open_fds (world f)) by (rewrite H1; set_solver). apply fds_nonneg in H4. lia. }
      destruct (negb (r =? 0)); [destruct (setError_same (with_world w f)) as (?&?&?&Hs)|];
        constructor; unfold owned, isOpen, IoDevice.isOpen; cbn; rewrite ?andb_false_r; cbn;
        unfold setError in *; cbn in *; rewrite ?Hw; set_solver.
    + unfold pclose. by destruct (sys_close (fd f) (world f)).
  - split; [done|]. intros Hu. rewrite Hu, andb_true_r in E. done.
Qed.

Lemma inv_new w : inv (open_fds w) (new w).
Proof. constructor; unfold owned; cbn; set_solver. Qed.

Lemma inv_open o m f : m <> NotOpen -> inv o f -> inv o (open m f).2.
Proof.
  intros Hm HI. unfold open. destruct (negb (isOpen f) && ourFile f) eqn:E; [|done].
  apply andb_true_iff in E as [Eo%negb_true_iff Eu]. destruct HI as [H1 H2 H3].
  unfold owned in *. rewrite Eu, Eo in *. cbn in *. unfold popen.
  match goal with |- context [sys_open ?p ?fl ?w] => pose proof (open_spec p fl w) as Hs end.
  destruct (sys_open _ _ _) as [n w]. destruct Hs as [[-> Hw]|(Hn & Hnew & Hw)].
  - cbn. destruct (setError_same (with_world w (with_fd (-1) f))) as (Ho & Hf & Hu & HW).
    constructor; unfold owned; rewrite ?Ho, ?Hf, ?Hu, ?HW; cbn; rewrite ?Hw, ?H1, ?andb_false_r; set_solver.
  - cbn. destruct (Z.eqb_spec n (-1)); [lia|]. cbn.
    constructor; unfold owned, isOpen, IoDevice.isOpen; cbn; rewrite Eu, (proj2 (Z.eqb_neq m _) Hm); cbn;
      [..|done]; rewrite (proj2 (Z.leb_le 0 n) Hn), ?Hw, ?H1; set_solver.
Qed.

Lemma owned_close o f : inv o f -> owned (close f) = ∅.
Proof.
  intros HI. destruct (inv_close _ _ HI) as [_ Hc]. unfold owned. destruct (ourFile f) eqn:E.
  - by rewrite (Hc eq_refl), andb_false_r.
  - unfold close. by rewrite E, andb_false_r, E.
Qed.

Lemma inv_setPath o p f : inv o f -> inv o (setPath p f).
Proof.
  intros HI. destruct (inv_close _ _ HI) as [[H1 H2 H3] _]. rewrite (owned_close _ _ HI) in *.
  unfold setPath. constructor; unfold owned, isOpen in *; cbn; rewrite ?andb_false_r, ?H1; set_solver.
Qed.

Lemma inv_setFd o n f : inv o f -> inv o (setFd n f).2.
Proof.
  intros HI. unfold setFd. destruct (negb (n =? fd f)); [|done].
  pose proof (getfl_spec n (world f)) as Hg. destruct (sys_getfl n (world f)) as [flags w]. cbn in Hg.
  assert (HI' : inv o (with_world w f)) by (by apply (inv_same o f)).
  destruct (inv_close _ _ HI') as [HC _]. pose proof (owned_close _ _ HI') as Ho.
  destruct (0 <=? flags); [|done]. case_match eqn:Hm; [|done].
  destruct HC as [H1 H2 H3]. cbn. rewrite Ho in *. constructor; unfold owned; cbn; rewrite ?H1; set_solver.
Qed.

(** A system call that leaves the descriptors alone, and its error. *)
Lemma inv_world o f w (b : bool) : inv o f -> open_fds w = open_fds (world f) ->
  inv o (if b then setError (with_world w f) else with_world w f).
Proof.
  intros HI Hw. destruct b; [|by apply (inv_same o f)].
  destruct (setError_same (with_world w f)) as (Ho & Hf & Hu & HW).
  apply (inv_same o f); [done..|]. by rewrite HW.
Qed.

Lemma inv_io o c f : match c with Read _ | Write _ | Ioctl _ => True | _ => False end ->
  inv o f -> inv o (run1 c f).
Proof.
  intros Hc HI. destruct c as [| | | |n|bs|req]; try done; cbn.
  - unfold read. case_match; [|done]. destruct (read_spec (fd f) (Z.of_nat n) (world f)) as [Hr _]; [lia|].
    destruct (sys_read _ _ _) as [[l bs] w]. by apply inv_world.
  - unfold write. case_match; [|done]. pose proof (write_spec (fd f) bs (world f)) as Hr.
    destruct (sys_write _ _ _) as [l w]. by apply inv_world.
  - unfold ioctl. pose proof (ioctl_spec (fd f) req (world f)) as Hr.
    destruct (sys_ioctl _ _ _) as [l w]. by apply inv_world.
Qed.

Lemma inv_run o cs f : inv o f -> Forall (fun c => c <> Open NotOpen) cs -> inv o (run cs f).
Proof.
  intros HI Hcs. revert f HI. induction Hcs as [|c cs Hc _ IH]; intros f HI; [done|].
  apply IH. destruct c; try by apply inv_io.
  - apply inv_open; [congruence|done].
  - by apply inv_close.
  - by apply inv_setPath.
  - by apply inv_setFd.
Qed.

(** C36: A file device neither leaks a descriptor nor closes one that is not its
    own: after any calls of open, close, setPath, setFd, read, write and ioctl on
    a new device, in any order and whichever of them fail, and then its
    destructor, the open descriptors of the process are exactly those it
    started with, provided no call of open has the mode [NotOpen], which opens
    the file and then counts as closed. *)
Theorem file_no_descriptor_leak (w : W) (cs : list call) :
  Forall (fun c => c <> Open NotOpen) cs ->
  open_fds (world (close (run cs (new w)))) = open_fds w.
Proof.
  intros Hcs. pose proof (inv_run _ _ _ (inv_new w) Hcs) as HI.
  destruct (inv_close _ _ HI) as [[H1 _ _] _]. rewrite (owned_close _ _ HI) in H1. set_solver.
Qed.

End Laws.
End FileDevice.

(** A process with one file: descriptor 3 is given when it is free, reading
    fails, and descriptor 0 is the terminal, open for reading. *)
Definition demo_world : Type := gset Z.
#[export] Instance demo_os : FileOs demo_world := {
  sys_open _ _ w := if decide (3 ∈ w) then (-1, w) else (3, {[3]} ∪ w);
  sys_close fd w := (if decide (fd ∈ w) then 0 else -1, w ∖ {[fd]});
  sys_getfl fd w := (if decide (fd ∈ w) then 0 else -1, w);
  sys_read _ _ w := ((-1, []), w);
  sys_write _ bs w := (Z.of_nat (length bs), w);
  sys_ioctl _ _ w := (-1, w);
  errno_of _ := EIO;
  open_fds w := filter (fun fd => 0 <= fd) w }.

#[export] Instance demo_ok : FileOsOk demo_world.
Proof.
  constructor; cbn; intros; try done; try (case_decide; set_solver by lia); set_solver.
Qed.

Definition demo_calls : list call := [Open ReadWrite; Read 4; SetFd 0; SetPath "/tmp/x"; Close; Open ReadOnly].

Lemma file_no_descriptor_leak_witness :
  Forall (fun c => c <> Open NotOpen) demo_calls /\
  open_fds (world (close (run demo_calls (new ({[0; 1]} : demo_world))))) = open_fds ({[0; 1]} : demo_world).
Proof.
  assert (Forall (fun c => c <> Open NotOpen) demo_calls) as Hf by (by repeat constructor).
  split; [exact Hf|]. exact (file_no_descriptor_leak _ demo_calls Hf).
Defined.

(** [open (NotOpen)] opens the file and leaves the device closed: the descriptor
    is not given back, and the next [open] takes another. *)
Lemma open_notopen_leaks :
  let f := close (run [Open NotOpen] (new ({[0; 1]} : demo_world))) in
  isOpen f = false /\ fd f = 3 /\ 3 ∈ open_fds (world f).
Proof. split_and!; [by vm_compute..|]. by apply (bool_decide_unpack _); vm_compute. Qed.

(** A device that was given a descriptor and then a path still counts as open,
    on descriptor -1: [open] does nothing and succeeds. *)
Lemma setPath_after_setFd : let f := setPath "/tmp/x" (setFd 0 (new ({[0; 1]} : demo_world))).2 in
  isOpen f = true /\ fd f = -1 /\ open ReadOnly f = (true, f).
Proof. vm_compute. done. Qed.

(** A second descriptor keeps the mode of the first. *)
Lemma setFd_keeps_mode {W} `{FileOs W} (n : Z) (f : @file W) : ourFile f = false -> isOpen f = true ->
  openMode (base (setFd n f).2) = openMode (base f).
Proof.
  intros Hu Ho. unfold setFd. case_match; [|done]. destruct (sys_getfl n (world f)) as [fl w].
  unfold close. cbn. rewrite Hu, andb_false_r. unfold isOpen in Ho. cbn.
  repeat case_match; unfold IoDevice.open in *; cbn in *; simplify_eq; cbn; by rewrite ?Ho.
Qed.

End FileDevice.
