(* ===== verification/ThreadSafeBuffer.v ===== *)
(** * The thread-safe buffer and the terminal reader that feeds it

    include/piduino/threadsafebuffer.h and src/terminalnotifier.cpp.  Every
    operation holds the mutex of the buffer from its first action to its last,
    except while it waits, so an operation is a function on the buffer; what the
    other threads do while it waits, and the time at which it wakes, are the
    arguments of the waiting loop. *)
From S2P Require Import Prelude IoDevice FileDevice.
Import Flags IoDevice.

Module Tsb.
Section Buffer.
Context {T : Type}.
(** [sizeOfData], which is [sizeof (T)] unless a subclass overrides it. *)
Context (sizeOfData : T -> Z).

Record tsb : Type := mk_tsb { queue : list T; numEnqueued : Z }.
Definition new : tsb := mk_tsb [] 0.

Definition size (b : tsb) : Z := numEnqueued b.

Definition writeData (data : T) (b : tsb) : tsb := mk_tsb (queue b ++ [data]) (u64 (numEnqueued b + 1)).
Fixpoint writeData_buf (buf : list T) (b : tsb) : tsb :=
  match buf with [] => b | data :: buf => writeData_buf buf (writeData data b) end.

(** [readData (T&)]: the element taken, or nothing. *)
Definition readData (b : tsb) : option T * tsb :=
  match queue b with
  | [] => (None, b)
  | data :: q => (Some data, mk_tsb q (u64 (numEnqueued b - 1)))
  end.
Definition peekData (b : tsb) : option T := head (queue b).

(** The loop of [readData (std::vector<T>&)]: the elements appended to the
    vector, the size returned and the buffer left; [None] when the fuel ends. *)
Fixpoint readData_vec (fuel : nat) (sz : Z) (out : list T) (b : tsb) : option (list T * Z * tsb) :=
  match fuel with
  | 0%nat => None
  | S fuel =>
      match readData b with
      | (Some data, b) => readData_vec fuel (u64 (sz + sizeOfData data)) (out ++ [data]) b
      | (None, b) => Some (out, sz, b)
      end
  end.

(** The loop of [readData (T *, size_t)], after [max] has been cut to the number
    of elements; [out] is what was stored from [buf] on. *)
Fixpoint readData_loop (fuel : nat) (max sz : Z) (out : list T) (b : tsb) : option (list T * Z * tsb) :=
  match fuel with
  | 0%nat => None
  | S fuel =>
      match readData b with
      | (Some data, b) =>
          if sz <=? max then readData_loop fuel max (u64 (sz + sizeOfData data)) (out ++ [data]) b
          else Some (out, sz, b)
      | (None, b) => Some (out, sz, b)
      end
  end.
Definition readData_buf (fuel : nat) (max : Z) (b : tsb) : option (list T * Z * tsb) :=
  readData_loop fuel (Z.min (numEnqueued b) max) 0 [] b.

Fixpoint peekData_vec (fuel : nat) (sz : Z) (out : list T) (b : tsb) : option (list T * Z) :=
  match fuel with
  | 0%nat => None
  | S fuel =>
      match peekData b with
      | Some data => peekData_vec fuel (u64 (sz + sizeOfData data)) (out ++ [data]) b
      | None => Some (out, sz)
      end
  end.

Fixpoint peekData_loop (fuel : nat) (max sz : Z) (out : list T) (b : tsb) : option (list T * Z) :=
  match fuel with
  | 0%nat => None
  | S fuel =>
      match peekData b with
      | Some data =>
          if sz <=? max then peekData_loop fuel max (u64 (sz + sizeOfData data)) (out ++ [data]) b
          else Some (out, sz)
      | None => Some (out, sz)
      end
  end.
Definition peekData_buf (fuel : nat) (max : Z) (b : tsb) : option (list T * Z) :=
  peekData_loop fuel (Z.min (numEnqueued b) max) 0 [] b.

(** One return from [wait] or [wait_until]: what the other threads did to the
    buffer in the meantime and the time on the clock. *)
Record wake : Type := mk_wake { meanwhile : tsb -> tsb; now : Z }.

(** The loop of [waitForData], one wake-up at a time; [None] when the thread is
    still asleep after the given ones. *)
Fixpoint wait_loop (msTimeout timeLimit : Z) (wakes : list wake) (b : tsb) : option (tsb * list wake) :=
  match queue b with
  | _ :: _ => Some (b, wakes)
  | [] =>
      match wakes with
      | [] => None
      | k :: ks =>
          let b := meanwhile k b in
          if 0 <? msTimeout then
            if timeLimit <=? now k then Some (b, ks) else wait_loop msTimeout timeLimit ks b
          else wait_loop msTimeout timeLimit ks b
      end
  end.
(** [start] is the time at the call, in milliseconds. *)
Definition waitForData (start msTimeout : Z) (wakes : list wake) (b : tsb) : option (tsb * list wake) :=
  if negb (msTimeout =? 0) then wait_loop msTimeout (start + msTimeout) wakes b else Some (b, wakes).

(** The public operations. *)
Definition write (data : T) (b : tsb) : tsb := writeData data b.
Definition write_buf (buf : list T) (b : tsb) : tsb := writeData_buf buf b.
Definition write_vec (dataVec : list T) (b : tsb) : tsb := write_buf dataVec b.
Definition read (start ms : Z) (wakes : list wake) (b : tsb) : option (option T * tsb) :=
  '(b, _) ← waitForData start ms wakes b; Some (readData b).
Definition read_vec (fuel : nat) (start ms : Z) (wakes : list wake) (b : tsb) : option (list T * Z * tsb) :=
  '(b, _) ← waitForData start ms wakes b; readData_vec fuel 0 [] b.
Definition read_buf (fuel : nat) (max start ms : Z) (wakes : list wake) (b : tsb) : option (list T * Z * tsb) :=
  '(b, _) ← waitForData start ms wakes b; readData_buf fuel max b.
Definition peek (start ms : Z) (wakes : list wake) (b : tsb) : option (option T * tsb) :=
  '(b, _) ← waitForData start ms wakes b; Some (peekData b, b).
Definition peek_vec (fuel : nat) (start ms : Z) (wakes : list wake) (b : tsb) : option (list T * Z) :=
  '(b, _) ← waitForData start ms wakes b; peekData_vec fuel 0 [] b.
Definition peek_buf (fuel : nat) (max start ms : Z) (wakes : list wake) (b : tsb) : option (list T * Z) :=
  '(b, _) ← waitForData start ms wakes b; peekData_buf fuel max b.
(** [iterate]: the functor changes the list and says by how much. *)
Definition iterate (functor : list T -> list T * Z) (b : tsb) : tsb :=
  let '(q, numChanged) := functor (queue b) in mk_tsb q (u64 (numEnqueued b + numChanged)).

(** ** Invariant: the counter is the length of the list *)
Definition inv (b : tsb) : Prop := numEnqueued b = Z.of_nat (length (queue b)) /\ numEnqueued b < 2 ^ 64.

Lemma writeData_buf_spec buf b : numEnqueued b = u64 (Z.of_nat (length (queue b))) ->
  queue (writeData_buf buf b) = queue b ++ buf /\
  numEnqueued (writeData_buf buf b) = u64 (Z.of_nat (length (queue b ++ buf))).
Proof.
  revert b. induction buf as [|x buf IH]; intros b Hb; cbn; [by rewrite app_nil_r|].
  destruct (IH (writeData x b)) as [H1 H2]; cbn.
  - rewrite length_app, Hb. unfold u64. cbn. rewrite Zplus_mod_idemp_l. f_equal. lia.
  - rewrite H1, H2. cbn. by rewrite <- app_assoc.
Qed.

Lemma inv_write buf b : inv b -> Z.of_nat (length (queue b ++ buf)) < 2 ^ 64 ->
  inv (write_buf buf b) /\ queue (write_buf buf b) = queue b ++ buf.
Proof.
  intros [H1 H2] Hl. destruct (writeData_buf_spec buf b) as [E1 E2].
  - rewrite H1. symmetry. apply u64_small. lia.
  - unfold inv, write_buf. rewrite E1, E2, u64_small by lia. done.
Qed.

Lemma readData_cons x q n : n = Z.of_nat (length (x :: q)) -> n < 2 ^ 64 ->
  readData (mk_tsb (x :: q) n) = (Some x, mk_tsb q (Z.of_nat (length q))).
Proof. intros -> Hn. unfold readData. cbn in *. rewrite u64_small by lia. do 2 f_equal. lia. Qed.

Lemma readData_vec_spec fuel sz out b : inv b -> (length (queue b) < fuel)%nat ->
  exists sz', readData_vec fuel sz out b = Some (out ++ queue b, sz', new).
Proof.
  destruct b as [q n]. intros [H1 H2]. cbn in *. revert fuel sz out n H1 H2.
  induction q as [|x q IH]; intros [|fuel] sz out n H1 H2 Hf; cbn in Hf; try lia; cbn [readData_vec].
  - exists sz. unfold readData. cbn. subst n. by rewrite app_nil_r.
  - rewrite readData_cons by done.
    destruct (IH fuel (u64 (sz + sizeOfData x)) (out ++ [x]) (Z.of_nat (length q))) as [sz' Hs];
      [done|cbn in *; lia|lia|].
    exists sz'. rewrite Hs. by rewrite <- app_assoc.
Qed.

(** ** Waiting *)
Lemma wait_loop_timed ms limit wakes b k : 0 < ms -> k ∈ wakes -> limit <= now k ->
  exists b' rest, wait_loop ms limit wakes b = Some (b', rest).
Proof.
  intros Hms Hk Hl. revert b. induction wakes as [|k' ks IH]; intros b; [by apply not_elem_of_nil in Hk|].
  cbn. destruct (queue b); [|by eauto]. rewrite (proj2 (Z.ltb_lt 0 ms) Hms).
  destruct (Z.leb_spec limit (now k')); [by eauto|]. apply IH. apply elem_of_cons in Hk as [->|]; [lia|done].
Qed.

(** What the buffer is after the other threads had the given turns. *)
Definition after (ks : list wake) (b : tsb) : tsb := foldl (fun b k => meanwhile k b) b ks.

(** The loop is left with an element, or at the time limit. *)
Lemma wait_loop_left ms limit wakes b b' rest : wait_loop ms limit wakes b = Some (b', rest) ->
  exists ks, wakes = ks ++ rest /\ b' = after ks b /\
    (queue b' <> [] \/ 0 < ms /\ exists k, last ks = Some k /\ limit <= now k).
Proof.
  revert b. induction wakes as [|k ks IH]; intros b; cbn; destruct (queue b) eqn:Eq; intros Hw; simplify_eq.
  - exists []. cbn. split_and!; [done..|]. left. congruence.
  - assert (Hrec : wait_loop ms limit ks (meanwhile k b) = Some (b', rest) ->
      exists ks0, k :: ks = ks0 ++ rest /\ b' = after ks0 b /\
      (queue b' <> [] \/ 0 < ms /\ exists k0, last ks0 = Some k0 /\ limit <= now k0)).
    { intros (ks0 & -> & -> & Hd)%IH. exists (k :: ks0). split_and!; [done..|].
      destruct Hd as [|(? & k0 & Hk0 & ?)]; [by left|right]. split; [done|]. exists k0.
      split; [|done]. destruct ks0; [done|]. done. }
    destruct (Z.ltb_spec 0 ms); [|by apply Hrec].
    destruct (Z.leb_spec limit (now k)); [|by apply Hrec]. simplify_eq.
    exists [k]. cbn. split_and!; [done..|]. right. eauto.
  - exists []. cbn. split_and!; [done..|]. left. congruence.
Qed.

Lemma wait_loop_data ms limit ks1 ks2 b : ms < 0 -> queue (after ks1 b) <> [] ->
  exists b' rest, wait_loop ms limit (ks1 ++ ks2) b = Some (b', rest).
Proof.
  intros Hms. revert b. induction ks1 as [|k ks1 IH]; intros b Hq; cbn in *.
  - destruct ks2; cbn; destruct (queue b); by eauto.
  - destruct (queue b); [|by eauto]. destruct (Z.ltb_spec 0 ms); [lia|]. by apply IH.
Qed.
End Buffer.

(** ** Buffers of characters, the only ones the library makes *)
Notation char_size := (fun _ : Z => 1) (only parsing).

Lemma readData_loop_char fuel m sz out q :
  (length q < fuel)%nat -> 0 <= sz <= m + 1 -> m + 1 < 2 ^ 64 -> Z.of_nat (length q) < 2 ^ 64 ->
  let k := Z.to_nat (m + 1 - sz) in
  readData_loop char_size fuel m sz out (mk_tsb q (Z.of_nat (length q))) =
  Some (out ++ take k q, sz + Z.of_nat (k `min` length q), mk_tsb (drop (S k) q) (Z.of_nat (length (drop (S k) q)))).
Proof.
  revert fuel sz out. induction q as [|x q IH]; intros [|fuel] sz out Hf Hsz Hm Hn k; cbn in Hf; try lia;
    cbn [readData_loop].
  - unfold readData. cbn. rewrite take_nil, app_nil_r. do 3 f_equal. lia.
  - rewrite readData_cons by done. cbn in Hn. destruct (Z.leb_spec sz m).
    + unfold u64. rewrite Z.mod_small, IH by lia. unfold k.
      replace (Z.to_nat (m + 1 - sz)) with (S (Z.to_nat (m + 1 - (sz + 1)))) by lia.
      rewrite <- app_assoc. cbn. do 3 f_equal. lia.
    + unfold k. replace (m + 1 - sz) with 0 by lia. cbn. rewrite app_nil_r. do 3 f_equal; lia.
Qed.

(** Reading into an array of [max] characters is right when the buffer
    holds no more than that: all are stored and counted.  With more, the loop
    stores [max] + 1 characters, one past the end of the array, and one more
    character, if there is one, is taken from the buffer and lost. *)
Theorem tsb_read_array_exact (q : list Z) (max : Z) (fuel : nat) :
  (length q < fuel)%nat -> 0 <= max < 2 ^ 64 - 1 -> Z.of_nat (length q) < 2 ^ 64 - 1 ->
  readData_buf char_size fuel max (mk_tsb q (Z.of_nat (length q))) =
  if Z.of_nat (length q) <=? max then Some (q, Z.of_nat (length q), new)
  else let k := Z.to_nat (max + 1) in
       Some (take k q, max + 1, mk_tsb (drop (S k) q) (Z.of_nat (length (drop (S k) q)))).
Proof.
  intros Hf Hm Hn. unfold readData_buf. cbn [numEnqueued]. rewrite readData_loop_char by lia.
  cbn [app]. case_bool.
  - rewrite Z.min_l, take_ge, drop_ge by lia. unfold new. do 3 f_equal. lia.
  - rewrite Z.min_r, Z.sub_0_r by lia. do 3 f_equal. lia.
Qed.

Lemma tsb_read_array_exact_witness :
  readData_buf char_size 5 2 (mk_tsb [10; 11; 12; 13] 4) = Some ([10; 11; 12], 3, mk_tsb [] 0).
Proof. exact (tsb_read_array_exact [10; 11; 12; 13] 2 5 ltac:(cbn; lia) ltac:(lia) ltac:(cbn; lia)). Defined.

(** [peek] into a vector never returns on a buffer that is not empty: the loop
    never takes what it looks at. *)
Lemma peek_vec_diverges {T} (f : T -> Z) (fuel : nat) sz out (b : tsb) :
  queue b <> [] -> peekData_vec f fuel sz out b = None.
Proof.
  intros Hq. revert sz out. induction fuel as [|fuel IH]; intros sz out; [done|].
  cbn [peekData_vec]. unfold peekData in *. destruct (queue b); [done|]. apply IH.
Qed.

(** A read that waits returns.  With a time limit it returns once the thread
    is woken at or after the limit, and without one once the other threads have
    left something in the buffer; it returns an element exactly when there is
    one, the first of the buffer at that moment, and it returns nothing only
    after a wake-up at or past the limit. *)
Theorem tsb_read_returns {T} (b : @tsb T) (start ms : Z) (wakes : list wake) : ms <> 0 ->
  (0 < ms /\ (exists k, k ∈ wakes /\ start + ms <= now k)) \/
  (ms < 0 /\ exists ks1 ks2, wakes = ks1 ++ ks2 /\ queue (after ks1 b) <> []) ->
  exists ks rest, wakes = ks ++ rest /\
    read start ms wakes b = Some (readData (after ks b)) /\
    (readData (after ks b)).1 = head (queue (after ks b)) /\
    ((readData (after ks b)).1 = None -> 0 < ms /\ exists k, last ks = Some k /\ start + ms <= now k).
Proof.
  intros Hms Hw. unfold read, waitForData. rewrite (proj2 (Z.eqb_neq ms 0) Hms). cbn [negb].
  assert (exists b' rest, wait_loop ms (start + ms) wakes b = Some (b', rest)) as (b' & rest & Hr).
  { destruct Hw as [[? (k & ? & ?)]|(? & ks1 & ks2 & -> & ?)]; [by eapply wait_loop_timed|by apply wait_loop_data]. }
  rewrite Hr. destruct (wait_loop_left _ _ _ _ _ _ Hr) as (ks & -> & -> & Hl).
  exists ks, rest. split_and!; [done..| |]; unfold readData; destruct (queue (after ks b)); try done.
  intros _. by destruct Hl.
Qed.

Lemma tsb_read_returns_witness :
  let wakes := [mk_wake (fun b => b) 5; mk_wake (writeData 42) 7] in
  exists ks rest, wakes = ks ++ rest /\ read 0 (-1) wakes new = Some (readData (after ks new)).
Proof.
  intros wakes. destruct (tsb_read_returns (@new Z) 0 (-1) wakes ltac:(lia)) as (ks & rest & Hw & Hr & _).
  - right. split; [lia|]. exists wakes, []. done.
  - by exists ks, rest.
Defined.
End Tsb.

(** * The terminal reader *)
Module TerminalNotifier.
Import FileDevice Tsb.

Definition EINTR : Z := 4.

(** Input of a terminal: [pending] are the bytes typed and not read yet. *)
Class Tty (W : Type) `{FileOs W} : Type := { pending : W -> list Z }.
(** [read] takes the bytes it returns from the front of the input, and a failed
    call takes none. *)
Class TtyOk (W : Type) `{Tty W} : Prop := {
  tty_read fd n w : let '((r, bs), w') := sys_read fd n w in
    pending w = (if 0 <=? r then bs else []) ++ pending w' }.

Section Notifier.
Context {W : Type} {FOS : FileOs W} {TY : Tty W}.

Record notifier : Type := mk_notifier { io : @file W; buf : @tsb Z }.

(** What the calls of [poll] return in one turn of the loop: [select], its
    [errno], [FD_ISSET], the [ioctl] and the number it stores. *)
Record polled : Type := mk_polled {
  sel : Z; sel_errno : Z; is_set : bool; fionread : Z; available_data : Z }.

Definition poll (p : polled) : Z :=
  if sel p =? -1 then (if sel_errno p =? EINTR then 0 else sel p)
  else if (0 <? sel p) && is_set p then (if fionread p =? 0 then available_data p else fionread p)
  else sel p.

(** The body of the loop; the length is the one the loop condition tests next. *)
Definition turn (p : polled) (d : notifier) : Z * notifier :=
  let len := poll p in
  if 0 <? len then
    let '((ret, bs), f) := FileDevice.read len (io d) in
    let v := bs ++ drop (length bs) (replicate (Z.to_nat len) 0) in
    if 0 <? ret then
      let v := if negb (ret =? len) then take (Z.to_nat ret) v else v in
      (len, mk_notifier f (write_vec v (buf d)))
    else (len, mk_notifier f (buf d))
  else (len, d).

(** [readNotifier]; each turn comes with the answer of the future, [true] when
    it is still pending, and the result says whether the loop has ended. *)
Fixpoint readNotifier (turns : list (bool * polled)) (len : Z) (d : notifier) : bool * notifier :=
  match turns with
  | [] => (false, d)
  | (running, p) :: turns =>
      if running && (0 <=? len) && test (openMode (base (io d))) ReadOnly then
        let '(len, d) := turn p d in readNotifier turns len d
      else (true, d)
  end.

(** [read (std::string &)] *)
Definition read_str (fuel : nat) (start ms : Z) (wakes : list wake) (d : notifier) : option (list Z * Z * notifier) :=
  '(v, _, b) ← read_vec (fun _ => 1) fuel start ms wakes (buf d);
  Some (v, Z.of_nat (length v), mk_notifier (io d) b).

(** The thread and the promise that stops it: whether the thread can be joined,
    whether the future was taken and whether the value was set. *)
Record thread : Type := mk_thread { joinable : bool; future_taken : bool; value_set : bool }.
Definition not_started : thread := mk_thread false false false.

Definition isRunning (t : thread) : bool := joinable t.

(** [start]; [got] and [set] are the results of [tcgetattr] and [tcsetattr], and
    taking the future a second time throws. *)
Definition start (readable : bool) (got set : Z) : M thread bool := fun t =>
  if negb (isRunning t) && readable then
    if got =? -1 then (Ok false, t)
    else if set =? -1 then (Ok false, t)
    else if future_taken t then (Throw RuntimeError, t)
    else let t := mk_thread true true (value_set t) in (Ok (isRunning t), t)
  else (Ok (isRunning t), t).

Definition terminate (t : thread) : thread :=
  if isRunning t then mk_thread false (future_taken t) true else t.

(** A reader that was stopped cannot be started again. *)
Lemma restart_throws (t : thread) : isRunning t = true -> future_taken t = true ->
  start true 0 0 (terminate t) = (Throw RuntimeError, terminate t).
Proof. intros Hr Hf. unfold start, terminate. rewrite Hr. cbn. by rewrite Hf. Qed.

(** The characters typed and not yet handed to the program. *)
Definition undelivered (d : notifier) : list Z := queue (buf d) ++ pending (world (io d)).

Section Laws.
Context {OK : FileOsOk W} {TTY : TtyOk W}.

Lemma turn_spec p d : Tsb.inv (buf d) -> Z.of_nat (length (undelivered d)) < 2 ^ 64 ->
  Tsb.inv (buf (turn p d).2) /\ undelivered (turn p d).2 = undelivered d.
Proof.
  intros HI Hl. unfold turn. destruct (Z.ltb_spec 0 (poll p)); [|done]. unfold FileDevice.read.
  destruct (test (openMode (base (io d))) ReadOnly); [|done].
  pose proof (read_spec (fd (io d)) (poll p) (world (io d)) ltac:(lia)) as [_ Hr].
  pose proof (tty_read (fd (io d)) (poll p) (world (io d))) as Ht.
  destruct (sys_read _ _ _) as [[r bs] w]. cbn in Hr.
  assert (Hw : world (if r <? 0 then setError (with_world w (io d)) else with_world w (io d)) = w).
  { destruct (r <? 0); [apply setError_same|done]. }
  unfold undelivered in *. destruct (Z.ltb_spec 0 r); cbn [io buf snd]; rewrite Hw.
  - rewrite (proj2 (Z.leb_le 0 r)) in * by lia. destruct Hr as [-> Hr].
    assert (Hv : (if negb (Z.of_nat (length bs) =? poll p)
      then take (Z.to_nat (Z.of_nat (length bs))) (bs ++ drop (length bs) (replicate (Z.to_nat (poll p)) 0))
      else bs ++ drop (length bs) (replicate (Z.to_nat (poll p)) 0)) = bs).
    { case_bool; cbn; [|by rewrite Nat2Z.id, take_app_length].
      rewrite drop_ge by (rewrite length_replicate; lia). apply app_nil_r. }
    rewrite Hv, Ht in *. rewrite app_assoc, length_app in Hl.
    destruct (inv_write bs (buf d) HI) as [E1 E2]; [lia|]. unfold write_vec. rewrite E2, <- app_assoc. done.
  - split; [done|]. f_equal. rewrite Ht. destruct (Z.leb_spec 0 r); [|done].
    destruct Hr as [Hr _]. by destruct bs; [|cbn in Hr; lia].
Qed.

Lemma readNotifier_spec turns len d : Tsb.inv (buf d) -> Z.of_nat (length (undelivered d)) < 2 ^ 64 ->
  Tsb.inv (buf (readNotifier turns len d).2) /\ undelivered (readNotifier turns len d).2 = undelivered d.
Proof.
  revert len d. induction turns as [|[running p] turns IH]; intros len d HI Hl; [done|]. cbn [readNotifier].
  case_match; [|done]. destruct (turn_spec p d HI Hl) as [H1 H2]. destruct (turn p d) as [len' d'].
  cbn [snd] in *. rewrite <- H2 in *. by apply IH.
Qed.

(** The terminal reader hands over what is typed, in order: whatever the
    system calls return in each turn of the reading thread, short reads and
    errors included, the characters in the buffer followed by those still in the
    terminal are the same as before; and reading a string takes the characters
    that have arrived, all of them, and leaves the rest. *)
Theorem notifier_delivers (turns : list (bool * polled)) (len : Z) (d : notifier) (fuel : nat) :
  Tsb.inv (buf d) -> Z.of_nat (length (undelivered d)) < 2 ^ 64 ->
  let d' := (readNotifier turns len d).2 in
  (length (queue (buf d')) < fuel)%nat ->
  exists s n d'', read_str fuel 0 0 [] d' = Some (s, n, d'') /\ n = Z.of_nat (length s) /\
    s = queue (buf d') /\ s ++ undelivered d'' = undelivered d.
Proof.
  intros HI Hl d' Hf. destruct (readNotifier_spec turns len d HI Hl) as [H1 H2]. fold d' in H1, H2. clearbody d'.
  unfold read_str, read_vec, waitForData. change (0 =? 0) with true.
  destruct (readData_vec_spec (fun _ => 1) fuel 0 [] (buf d') H1 Hf) as [sz Hs]. cbn -[readData_vec]. rewrite Hs. cbn.
  do 3 eexists. split_and!; [done..|]. rewrite <- H2. done.
Qed.

End Laws.
End Notifier.

(** A terminal on which five characters were typed and which gives at most
    three at a time. *)
Module Demo.
Definition tty : Type := list Z.
#[export] Instance tty_os : FileOs tty := {
  sys_open _ _ w := (-1, w);
  sys_close _ w := (0, w);
  sys_getfl _ w := (0, w);
  sys_read _ n w := let k := (3 `min` Z.to_nat n)%nat in
    ((Z.of_nat (length (take k w)), take k w), drop k w);
  sys_write _ bs w := (Z.of_nat (length bs), w);
  sys_ioctl _ _ w := (0, w);
  errno_of _ := 0;
  open_fds _ := ∅ }.
#[export] Instance tty_fdok : FileOsOk tty.
Proof.
  constructor; cbn -[Nat.min]; intros; try done; [by left|set_solver|]. split; [done|].
  destruct (Z.leb_spec 0 (Z.of_nat (length (take (3 `min` Z.to_nat n) w)))); [|lia].
  split; [done|]. rewrite length_take. lia.
Qed.
#[export] Instance tty_pending : Tty tty := { pending w := w }.
#[export] Instance tty_ok : TtyOk tty.
Proof.
  constructor. cbn. intros _ n w. case_bool; [|lia]. by rewrite take_drop.
Qed.

Definition typed : @notifier tty :=
  mk_notifier (setFd 0 (FileDevice.new [104; 101; 108; 108; 111])).2 Tsb.new.
Definition turns : list (bool * polled) :=
  [(true, mk_polled (-1) EINTR false 0 0); (true, mk_polled 1 0 true 0 5); (true, mk_polled 0 0 false 0 0);
   (true, mk_polled 1 0 true 0 2); (false, mk_polled 0 0 false 0 0)].

Lemma notifier_delivers_witness :
  exists s n d'', read_str 9 0 0 [] (readNotifier turns 0 typed).2 = Some (s, n, d'') /\
    s ++ undelivered d'' = [104; 101; 108; 108; 111].
Proof.
  destruct (notifier_delivers turns 0 typed 9) as (s & n & d'' & H1 & _ & _ & H2).
  - split; vm_compute; reflexivity.
  - vm_compute. reflexivity.
  - vm_compute. lia.
  - exists s, n, d''. split; [exact H1|exact H2].
Defined.

Lemma all_typed : readNotifier turns 0 typed = (true, mk_notifier (io (readNotifier turns 0 typed).2)
  (mk_tsb [104; 101; 108; 108; 111] 5)).
Proof. vm_compute. reflexivity. Qed.
End Demo.
End TerminalNotifier.
