(* ===== verification/ArduinoTerminal.v ===== *)
(** * The terminal of a sketch, src/arduino/Terminal.cpp and src/arduino/Console.cpp

    [Terminal] reads from the buffer of the terminal reader of ThreadSafeBuffer.v
    and writes to a standard output stream whose errors it turns into a number.
    The stream is its state, the mask of the states that throw, and what its
    buffer does with bytes, which is an interface.  A failure of the stream has
    the code 1, [std::io_errc::stream]; the value of [errno] is an argument of the
    operations that look at it, since none of them sets it. *)
From S2P Require Import Prelude IoDevice FileDevice ThreadSafeBuffer.

(** What the buffer of the stream does with bytes and with a synchronisation: whether it succeeds, and what it is
    afterwards. *)
Class Sink (W : Type) : Type := {
  sputn : list Z -> W -> bool * W;
  pubsync : W -> bool * W;
  received : W -> list Z }.
(** The documented behaviour: the characters are consumed in their order, all of them, or it fails and fewer are. *)
Class SinkOk (W : Type) `{Sink W} : Prop := {
  sputn_ok xs w w' : sputn xs w = (true, w') -> received w' = received w ++ xs;
  sputn_fail xs w w' : sputn xs w = (false, w') -> exists n, (n < length xs)%nat /\ received w' = received w ++ take n xs;
  pubsync_keeps w ok w' : pubsync w = (ok, w') -> received w' = received w }.

Module ArduinoTerminal.
Import Tsb TerminalNotifier.

Definition goodbit : Z := 0.
Definition badbit : Z := 1.
Definition failbit : Z := 4.

Section Term.
Context {W : Type} {SK : Sink W}.

(** ** The stream *)
Record ostream : Type := mk_ostream { rdstate : Z; except : Z; dev : W }.
Definition failure : exn := SystemError 1.
Definition clear_state (st : Z) : M ostream unit := fun o =>
  let o := mk_ostream st (except o) (dev o) in
  if Z.land st (except o) =? 0 then (Ok tt, o) else (Throw failure, o).
Definition setstate (st : Z) : M ostream unit := s ← gets rdstate; clear_state (Z.lor s st).
(** [exceptions (mask)] sets the mask and then the state that there is. *)
Definition set_exceptions (mask : Z) : M ostream unit :=
  s ← gets rdstate; modify (fun o => mk_ostream (rdstate o) mask (dev o));; clear_state s.
(** [put], [write] and [<<] of a text: nothing is written to a stream that has failed. *)
Definition insert (xs : list Z) : M ostream unit := fun o =>
  if rdstate o =? goodbit then
    match sputn xs (dev o) with
    | (true, w) => (Ok tt, mk_ostream (rdstate o) (except o) w)
    | (false, w) => setstate badbit (mk_ostream (rdstate o) (except o) w)
    end
  else setstate failbit o.
Definition flush_stream : M ostream unit := fun o =>
  if rdstate o =? goodbit then
    match pubsync (dev o) with
    | (true, w) => (Ok tt, mk_ostream (rdstate o) (except o) w)
    | (false, w) => setstate badbit (mk_ostream (rdstate o) (except o) w)
    end
  else (Ok tt, o).

(** ** [Terminal] *)
Record terminal : Type := mk_terminal { read_error : Z; write_error : Z; os_state : Z; os : ostream; buf : tsb (T := Z); _timeout : Z }.
Definition new_terminal (o : ostream) (b : tsb) : terminal := mk_terminal 0 0 goodbit o b 1000.
Definition setReadError (e : Z) (t : terminal) : terminal := mk_terminal e (write_error t) (os_state t) (os t) (buf t) (_timeout t).
Definition setWriteError (e : Z) (t : terminal) : terminal := mk_terminal (read_error t) e (os_state t) (os t) (buf t) (_timeout t).
Definition with_os (o : ostream) (t : terminal) : terminal := mk_terminal (read_error t) (write_error t) (os_state t) o (buf t) (_timeout t).
Definition with_buf (b : tsb) (t : terminal) : terminal := mk_terminal (read_error t) (write_error t) (os_state t) (os t) b (_timeout t).
Definition on_os {A} (m : M ostream A) : M terminal A := zoom os with_os m.

Definition begin_ : M terminal unit :=
  modify (fun t => mk_terminal (read_error t) (write_error t) (except (os t)) (os t) (buf t) (_timeout t));;
  on_os (set_exceptions (Z.lor failbit badbit));;
  on_os (clear_state goodbit).
Definition end_ : M terminal unit := st ← gets os_state; on_os (set_exceptions st).

Definition available (errno : Z) (t : terminal) : Z * terminal :=
  let ret := i32 (numEnqueued (buf t)) in
  (ret, if ret <? 0 then setReadError errno t else t).
(** What the reader gives, as a number; [None] while the call waits. *)
Definition char_result (errno : Z) (t : terminal) (r : option (option Z * tsb)) : option (Z * terminal) :=
  match r with
  | Some (Some c, b) => Some (u8 c, with_buf b t)
  | Some (None, b) => Some (-1, setReadError errno (with_buf b t))
  | None => None
  end.
Definition read (errno start : Z) (wakes : list wake) (t : terminal) : option (Z * terminal) :=
  char_result errno t (Tsb.read start 0 wakes (buf t)).
Definition timedRead (errno start : Z) (wakes : list wake) (t : terminal) : option (Z * terminal) :=
  char_result errno t (Tsb.read start (_timeout t) wakes (buf t)).
Definition peek (errno start : Z) (wakes : list wake) (t : terminal) : option (Z * terminal) :=
  char_result errno t (Tsb.peek start 0 wakes (buf t)).
Definition timedPeek (errno start : Z) (wakes : list wake) (t : terminal) : option (Z * terminal) :=
  char_result errno t (Tsb.peek start (_timeout t) wakes (buf t)).

(** A failure of the stream is kept as a number, and the stream is made good again; another exception goes on. *)
Definition guarded (m : M ostream unit) (ok : Z) : M terminal Z := fun t =>
  match m (os t) with
  | (Ok _, o) => (Ok ok, with_os o t)
  | (Throw (SystemError e), o) => (on_os (clear_state goodbit);; mret (u64 (-1))) (setWriteError e (with_os o t))
  | (Throw e, o) => (Throw e, with_os o t)
  end.
Definition write_byte (c : Z) : M terminal Z := guarded (insert [u8 c]) 1.
Definition write_str (str : list Z) : M terminal Z := guarded (insert str) (Z.of_nat (length str)).
Definition write_buf (buffer : list Z) : M terminal Z := guarded (insert buffer) (Z.of_nat (length buffer)).
Definition flush : M terminal unit := guarded flush_stream 0;; mret tt.
(** [std::endl] is a newline and a flush. *)
Definition writeln : M terminal Z := guarded (insert [10];; flush_stream) 2.

(** ** [PiConsole]: the terminal and the thread of its reader *)
Record console : Type := mk_console { term : terminal; reader : thread }.
Definition on_term {A} (m : M terminal A) : M console A := zoom term (fun t c => mk_console t (reader c)) m.
Definition on_reader {A} (m : M thread A) : M console A := zoom reader (fun r c => mk_console (term c) r) m.
Definition console_begin (readable : bool) (got set : Z) : M console unit :=
  on_term begin_;; on_reader (TerminalNotifier.start readable got set);; mret tt.
Definition console_end : M console unit :=
  modify (fun c => mk_console (term c) (terminate (reader c)));; on_term end_.

(** ** Sequences of writes *)
Inductive wop : Type := WByte (c : Z) | WStr (s : list Z) | WBuf (s : list Z) | WFlush | WLn.
Definition bytes_of (o : wop) : list Z := match o with WByte c => [u8 c] | WStr s | WBuf s => s | WFlush => [] | WLn => [10] end.
Definition exec (o : wop) : M terminal Z :=
  match o with
  | WByte c => write_byte c | WStr s => write_str s | WBuf s => write_buf s | WFlush => flush;; mret 0 | WLn => writeln
  end.
Fixpoint run (ops : list wop) : M terminal (list Z) :=
  match ops with
  | [] => mret []
  | o :: ops => r ← exec o; rs ← run ops; mret (r :: rs)
  end.

(** ** What reading gives: the oldest character, at once, or -1 *)
Lemma read_exact errno start wakes t :
  read errno start wakes t = Some
    match queue (buf t) with
    | c :: q => (u8 c, with_buf (mk_tsb q (u64 (numEnqueued (buf t) - 1))) t)
    | [] => (-1, setReadError errno (with_buf (buf t) t))
    end.
Proof. unfold read, Tsb.read, waitForData, readData. change (negb (0 =? 0)) with false. cbn. by destruct (queue (buf t)). Qed.

(** A character that was looked at is the one that is read. *)
Lemma peek_read errno e' start s' wakes w' t c t1 : peek errno start wakes t = Some (c, t1) -> 0 <= c ->
  exists t2, read e' s' w' t1 = Some (c, t2).
Proof.
  rewrite read_exact. unfold peek, Tsb.peek, waitForData, peekData. change (negb (0 =? 0)) with false. cbn. destruct (queue (buf t)) as [|x q] eqn:E; cbn; intros [= <- <-] Hc; [done|].
  cbn. rewrite E. by eexists.
Qed.

(** ** What writing does *)
Definition ready (t : terminal) : Prop := rdstate (os t) = goodbit /\ except (os t) = Z.lor failbit badbit.
Definition result (o : wop) : Z := match o with WByte _ => 1 | WStr s | WBuf s => Z.of_nat (length s) | WFlush => 0 | WLn => 2 end.
(** The piece [p] that the stream got from an operation, and its result: the count and all the bytes, or -1 and fewer
    of them; a newline whose flush alone failed is the one operation with -1 and all its bytes. *)
Definition wrote (o : wop) (r : Z) (p : list Z) : Prop :=
  r = result o /\ p = bytes_of o \/
  r = 2 ^ 64 - 1 /\ ((exists n, (n < length (bytes_of o))%nat /\ p = take n (bytes_of o)) \/ o = WLn /\ p = [10]).

Section Laws.
Context {OK : SinkOk W}.

Lemma insert_spec xs o : rdstate o = goodbit -> except o = Z.lor failbit badbit ->
  exists p o', received (dev o') = received (dev o) ++ p /\ except o' = except o /\
    (insert xs o = (Ok tt, o') /\ p = xs /\ rdstate o' = goodbit \/ insert xs o = (Throw failure, o') /\ exists n, (n < length xs)%nat /\ p = take n xs).
Proof.
  intros Hg He. unfold insert. rewrite Hg. cbn. destruct (sputn xs (dev o)) as [[] w] eqn:E.
  - exists xs, (mk_ostream goodbit (except o) w). split_and!; [exact (sputn_ok _ _ _ E)|done|by left].
  - destruct (sputn_fail _ _ _ E) as (n & Hl & Hn). unfold setstate, clear_state. munfold. rewrite He. cbn.
    exists (take n xs), (mk_ostream badbit (Z.lor failbit badbit) w). split_and!; [exact Hn|done|right]. split; [done|by exists n].
Qed.

Lemma flush_spec o : rdstate o = goodbit -> except o = Z.lor failbit badbit ->
  exists o', received (dev o') = received (dev o) /\ except o' = except o /\
    (flush_stream o = (Ok tt, o') /\ rdstate o' = goodbit \/ flush_stream o = (Throw failure, o')).
Proof.
  intros Hg He. unfold flush_stream. rewrite Hg. cbn. destruct (pubsync (dev o)) as [[] w] eqn:E; apply pubsync_keeps in E.
  - exists (mk_ostream goodbit (except o) w). split_and!; [done|done|by left].
  - exists (mk_ostream badbit (except o) w). split_and!; [done|done|right].
    unfold setstate, clear_state. munfold. by rewrite He.
Qed.

(** A guarded operation leaves the terminal ready. *)
Lemma guarded_spec m ok t o' : ready t -> except o' = except (os t) ->
  (m (os t) = (Ok tt, o') /\ rdstate o' = goodbit -> guarded m ok t = (Ok ok, with_os o' t) /\ ready (with_os o' t)) /\
  (m (os t) = (Throw failure, o') -> exists t', guarded m ok t = (Ok (2 ^ 64 - 1), t') /\ ready t' /\ dev (os t') = dev o' /\ write_error t' = 1).
Proof.
  intros [Hg He] Hx. unfold guarded. split.
  - intros [-> Hs]. split; [done|]. split; cbn; congruence.
  - intros ->. cbn. unfold on_os, zoom, clear_state. munfold. eexists. split; [reflexivity|]. split; [|done].
    split; cbn; congruence.
Qed.

Lemma terminal_exec_spec o t : ready t -> exists r p t', exec o t = (Ok r, t') /\ ready t' /\ wrote o r p /\
  received (dev (os t')) = received (dev (os t)) ++ p.
Proof.
  intros Ht. pose proof Ht as [Hg He].
  assert (Hins : forall xs k, exists r p t', guarded (insert xs) k t = (Ok r, t') /\ ready t' /\
    received (dev (os t')) = received (dev (os t)) ++ p /\ (r = k /\ p = xs \/ r = 2 ^ 64 - 1 /\ exists n, (n < length xs)%nat /\ p = take n xs)).
  { intros xs k. destruct (insert_spec xs (os t) Hg He) as (p & o' & Hr & Hx & Hc).
    destruct (guarded_spec (insert xs) k t o' Ht Hx) as [G1 G2]. destruct Hc as [(Hi & -> & Hs)|[Hi Hn]].
    - destruct (G1 (conj Hi Hs)) as [-> Hre]. eexists _, _, _. split; [reflexivity|]. split; [done|]. split; [exact Hr|by left].
    - destruct (G2 Hi) as (t' & -> & Hre & Hd & _). exists (2 ^ 64 - 1), p, t'. rewrite Hd. split_and!; auto. }
  destruct o as [c|s|s| |]; cbn [exec].
  1-3: unfold write_byte, write_str, write_buf;
       edestruct Hins as (r & p & t' & -> & Hre & Hr & Hc); exists r, p, t'; unfold wrote; cbn [result bytes_of]; split_and!; [done..|tauto|done].
  - destruct (flush_spec (os t) Hg He) as (o' & Hr & Hx & Hc). destruct (guarded_spec flush_stream 0 t o' Ht Hx) as [G1 G2].
    unfold flush. munfold. destruct Hc as [Hi|Hi].
    + destruct (G1 Hi) as [-> Hre]. exists 0, [], (with_os o' t). rewrite app_nil_r. split_and!; [done..|by left|done].
    + destruct (G2 Hi) as (t' & -> & Hre & Hd & _). exists 0, [], t'. rewrite app_nil_r, Hd. split_and!; [done..|by left|done].
  - unfold writeln. destruct (insert_spec [10] (os t) Hg He) as (p & o1 & Hr & Hx & [(Hi & -> & Hs)|[Hi Hn]]).
    + destruct (flush_spec o1 Hs ltac:(congruence)) as (o' & Hr' & Hx' & Hc).
      destruct (guarded_spec (insert [10];; flush_stream) 2 t o' Ht ltac:(congruence)) as [G1 G2].
      rewrite (M_bind_ok _ _ _ _ _ _ _ _ Hi) in G1, G2. destruct Hc as [Hc|Hc].
      * destruct (G1 Hc) as [-> Hre]. exists 2, [10], (with_os o' t). split_and!; [done..|by left|]. cbn. congruence.
      * destruct (G2 Hc) as (t' & -> & Hre & Hd & _). exists (2 ^ 64 - 1), [10], t'. rewrite Hd.
        split_and!; [done..|by right; split; [|right]|congruence].
    + destruct (guarded_spec (insert [10];; flush_stream) 2 t o1 Ht Hx) as [_ G2].
      rewrite (M_bind_throw _ _ _ _ _ _ _ _ Hi) in G2. destruct (G2 eq_refl) as (t' & -> & Hre & Hd & _).
      exists (2 ^ 64 - 1), p, t'. rewrite Hd. split_and!; [done..|by right; split; [|left]|done].
Qed.

(** C33: After [begin] on a good stream every sequence of writes ends without an exception and leaves the terminal ready
    for more.  The stream has then got one piece for each operation, in their order.  An operation that gives its count
    has all its bytes in the stream; one that gives -1, as an unsigned number, has a beginning of them there and not all,
    except a newline, which also gives -1 when its byte was written and only its flush failed.  A flush writes nothing
    and never gives -1. *)
Theorem terminal_writes_exact (ops : list wop) (t : terminal) :
  rdstate (os t) = goodbit ->
  exists rs ps t', (begin_;; run ops) t = (Ok rs, t') /\ ready t' /\ Forall3 wrote ops rs ps /\
    received (dev (os t')) = received (dev (os t)) ++ concat ps.
Proof.
  intros Hg. assert (Hb : exists t0, begin_ t = (Ok tt, t0) /\ ready t0 /\ dev (os t0) = dev (os t)).
  { unfold begin_, on_os, zoom, set_exceptions, clear_state. munfold. rewrite Hg. cbn. eexists. by split_and!. }
  destruct Hb as (t0 & Hb & Hr & <-). rewrite (M_bind_ok _ _ _ _ _ _ _ _ Hb). clear Hg Hb. revert t0 Hr.
  induction ops as [|o ops IH]; intros t0 Hr.
  - exists [], [], t0. rewrite app_nil_r. split_and!; [done..|constructor|done].
  - destruct (terminal_exec_spec o t0 Hr) as (r & p & t1 & He & Hr1 & Hw & Hc).
    destruct (IH t1 Hr1) as (rs & ps & t2 & Hrun & Hr2 & Hws & Hcs).
    exists (r :: rs), (p :: ps), t2. cbn [run]. rewrite (M_bind_ok _ _ _ _ _ _ _ _ He), (M_bind_ok _ _ _ _ _ _ _ _ Hrun).
    split_and!; [done..|by constructor|]. cbn. by rewrite Hcs, Hc, <- app_assoc.
Qed.
End Laws.

(** The mask of exceptions is set before the state is cleared: [begin] throws on a stream that has failed before. *)
Lemma begin_failed_stream t : rdstate (os t) = badbit -> (begin_ t).1 = Throw failure.
Proof. intros H. unfold begin_, on_os, zoom, set_exceptions, clear_state. munfold. by rewrite H. Qed.

(** A console that was ended cannot begin again: the future of its reader was taken. *)
Lemma console_restart c c1 c2 : rdstate (os (term c)) = goodbit -> reader c = not_started ->
  console_begin true 0 0 c = (Ok tt, c1) -> console_end c1 = (Ok tt, c2) -> rdstate (os (term c2)) = goodbit ->
  (console_begin true 0 0 c2).1 = Throw RuntimeError.
Proof.
  intros Hg Hr H1 H2 Hg2. unfold console_begin, on_term, on_reader, begin_, on_os, zoom, set_exceptions, clear_state in *. munfold.
  rewrite Hg in H1. cbn in H1. rewrite Hr in H1. cbn in H1. injection H1 as <-.
  unfold console_end, on_term, end_, on_os, zoom, set_exceptions, clear_state in *. munfold.
  injection H2 as <-. cbn. done.
Qed.
End Term.

(** ** A device with room for four bytes *)
Module Demo.
Definition small : Type := list Z.
#[export] Instance small_sink : Sink small := {|
  sputn xs w := if (length xs <=? 4 - length w)%nat then (true, w ++ xs) else (false, w ++ take (4 - length w) xs);
  pubsync w := (true, w);
  received w := w |}.
#[export] Instance small_ok : SinkOk small.
Proof.
  constructor; cbn.
  - intros xs w w'. case_match; by intros [= <-].
  - intros xs w w'. case_match; [done|]. intros [= <-]. exists (4 - length w)%nat.
    split; [|done]. by apply Nat.leb_gt in H; lia.
  - by intros w ok w' [= _ <-].
Qed.
Definition t0 : terminal := new_terminal (mk_ostream goodbit 0 ([] : small)) Tsb.new.

(** The buffer that does not fit is cut, and the next newline finds no room either. *)
Lemma full_device :
  let r := (begin_;; run [WByte 65; WLn; WBuf [1; 2; 3]; WLn]) t0 in
  r.1 = Ok [1; 2; 2 ^ 64 - 1; 2 ^ 64 - 1] /\ received (dev (os r.2)) = [65; 10; 1; 2] /\ write_error r.2 = 1.
Proof. by vm_compute. Qed.

Lemma terminal_writes_exact_witness :
  exists rs ps t', (begin_;; run [WByte 65; WBuf [1; 2; 3; 4]]) t0 = (Ok rs, t') /\
    Forall3 wrote [WByte 65; WBuf [1; 2; 3; 4]] rs ps /\ received (dev (os t')) = concat ps.
Proof.
  destruct (terminal_writes_exact [WByte 65; WBuf [1; 2; 3; 4]] t0 eq_refl) as (rs & ps & t' & H1 & _ & H2 & H3).
  exists rs, ps, t'. split; [exact H1|]. split; [exact H2|]. exact H3.
Defined.

(** A console that begins, ends and begins again *)
Lemma console_again : (console_begin true 0 0;; console_end;; console_begin true 0 0) (mk_console t0 not_started)
  = (Throw RuntimeError, ((console_begin true 0 0;; console_end;; console_begin true 0 0) (mk_console t0 not_started)).2).
Proof. by vm_compute. Qed.
End Demo.
End ArduinoTerminal.
