(* ===== verification/SocPwm.v ===== *)
(** * Hardware PWM, src/gpio/socpwm.cpp and the converter functions it inherits

    A [SocPwm] is a converter whose engine depends on the chip.  [PwmEngine] has
    the virtual functions an engine implements; the public functions of
    [Converter] guard and clamp on top of them.  [PwmSpec] is what the engines
    promise, in terms of an abstract PWM with a value, a range and a switch, and
    the theorem of this file is proved against that interface. *)
From S2P Require Import Prelude IoDevice.
Import Flags IoDevice.

Module SocPwm.

(** The engine made for a chip. *)
Inductive soc_id : Type := Bcm2708 | Bcm2709 | Bcm2710 | Bcm2711 | Bcm2712 | H3 | H5 | OtherSoc.
Inductive engine_kind : Type := Bcm2835Engine | Rp1Engine | HxEngine.
Definition engineFactory (id : soc_id) : outcome engine_kind :=
  match id with
  | Bcm2708 | Bcm2709 | Bcm2710 | Bcm2711 => Ok Bcm2835Engine
  | Bcm2712 => Ok Rp1Engine
  | H3 | H5 => Ok HxEngine
  | OtherSoc => Throw RuntimeError
  end.

Class PwmEngine (S : Type) : Type := {
  p_dev : S -> iodevice;
  p_read : M S Z;
  p_write : Z -> M S bool;
  p_range : M S Z;
  p_max : M S Z;
  p_min : M S Z;
  p_setRange : Z -> M S Z;
  p_setEnable : bool -> M S unit;
  p_isEnabled : M S bool;
  p_frequency : M S Z;
  p_setFrequency : Z -> M S Z }.

Section Public.
Context {S : Type} {E : PwmEngine S}.

(** The public functions; a [long] that is not read is [LONG_MIN]. *)
Definition InvalidValue : Z := - 2 ^ 63.

Definition clampValue (value : Z) : M S Z :=
  mn ← p_min; mx ← p_max;
  let value := if value <? mn then mn else value in
  mret (if mx <? value then mx else value).
Definition read : M S Z := fun s =>
  if test (openMode (p_dev s)) ReadOnly then p_read s else (Ok InvalidValue, s).
Definition write (value : Z) : M S bool := fun s =>
  if test (openMode (p_dev s)) WriteOnly then (v ← clampValue value; p_write v) s else (Ok false, s).
Definition setRange (r : Z) : M S Z := p_setRange r.
Definition setEnable (enable : bool) : M S unit := p_setEnable enable.
Definition isEnabled : M S bool := p_isEnabled.
Definition frequency : M S Z := p_frequency.
Definition setFrequency (f : Z) : M S Z := p_setFrequency f.
(** [1L << resolution] is undefined outside the width of a [long]. *)
Definition setResolution (resolution : Z) : M S Z :=
  if (0 <=? resolution) && (resolution <? 63) then setRange (Z.shiftl 1 resolution) else throw UB.
End Public.

(** ** The abstract PWM *)
Record pwm : Type := mk_pwm { duty : Z; top : Z; on : bool }.

Inductive op : Type := Write (v : Z) | Enable (b : bool) | SetRange (r : Z) | SetResolution (n : Z).

(** A value outside the range is clamped; a value that a new range leaves
    outside is for the engine to choose. *)
Inductive astep : op -> pwm -> pwm -> Prop :=
  | a_write v p : astep (Write v) p (mk_pwm (Z.max 0 (Z.min v (top p - 1))) (top p) (on p))
  | a_enable b p : astep (Enable b) p (mk_pwm (duty p) (top p) b)
  | a_range r p d : (duty p < r -> d = duty p) -> astep (SetRange r) p (mk_pwm d r (on p))
  | a_resolution n p p' : astep (SetRange (2 ^ n)) p p' -> astep (SetResolution n) p p'.

Inductive asteps : list op -> pwm -> pwm -> Prop :=
  | asteps_nil p : asteps [] p p
  | asteps_cons o ops p p' p'' : astep o p p' -> asteps ops p' p'' -> asteps (o :: ops) p p''.

(** What an engine promises once it is [ready]; [range_max] is the largest
    range it has. *)
Class PwmSpec (S : Type) (E : PwmEngine S) : Type := {
  ready : S -> Prop;
  abs : S -> pwm;
  range_max : Z;
  spec_read s : ready s -> p_read s = (Ok (duty (abs s)), s);
  spec_range s : ready s -> p_range s = (Ok (top (abs s)), s);
  spec_limits s : ready s -> p_min s = (Ok 0, s) /\ p_max s = (Ok (top (abs s) - 1), s);
  spec_isEnabled s : ready s -> p_isEnabled s = (Ok (on (abs s)), s);
  spec_write s v : ready s -> 0 <= v < top (abs s) -> exists s', p_write v s = (Ok true, s') /\ ready s' /\
    abs s' = mk_pwm v (top (abs s)) (on (abs s)) /\ p_dev s' = p_dev s;
  spec_setEnable s b : ready s -> exists s', p_setEnable b s = (Ok tt, s') /\ ready s' /\
    abs s' = mk_pwm (duty (abs s)) (top (abs s)) b /\ p_dev s' = p_dev s;
  spec_setRange s r : ready s -> 2 <= r <= range_max -> exists s' x, p_setRange r s = (Ok x, s') /\ ready s' /\
    top (abs s') = r /\ on (abs s') = on (abs s) /\ (duty (abs s) < r -> duty (abs s') = duty (abs s)) /\
    p_dev s' = p_dev s }.

Section Client.
Context {S : Type} {E : PwmEngine S} {P : PwmSpec S E}.

(** One public call; what it returns is dropped. *)
Definition exec (o : op) : M S unit :=
  match o with
  | Write v => write v;; mret tt
  | Enable b => setEnable b
  | SetRange r => setRange r;; mret tt
  | SetResolution n => setResolution n;; mret tt
  end.
Definition run (ops : list op) : M S unit := foldr (fun o k => exec o;; k) (mret tt) ops.

Definition legal (o : op) : Prop :=
  match o with
  | SetRange r => 2 <= r <= range_max
  | SetResolution n => 1 <= n < 63 /\ 2 ^ n <= range_max
  | _ => True
  end.

Lemma clampValue_engine s v : ready s -> 1 <= top (abs s) ->
  clampValue v s = (Ok (Z.max 0 (Z.min v (top (abs s) - 1))), s).
Proof.
  intros Hr Ht. destruct (spec_limits s Hr) as [Hmin Hmax].
  unfold clampValue. rewrite (M_bind_ok _ _ _ _ _ _ _ _ Hmin), (M_bind_ok _ _ _ _ _ _ _ _ Hmax).
  unfold mret, M_ret. do 2 f_equal. destruct (Z.ltb_spec v 0); case_bool; lia.
Qed.

Lemma write_spec s v : ready s -> 1 <= top (abs s) -> isWritable (p_dev s) = true ->
  exists s', write v s = (Ok true, s') /\ ready s' /\
    abs s' = mk_pwm (Z.max 0 (Z.min v (top (abs s) - 1))) (top (abs s)) (on (abs s)) /\ p_dev s' = p_dev s.
Proof.
  intros Hr Ht Hw. unfold write. unfold isWritable in Hw. rewrite Hw.
  rewrite (M_bind_ok _ _ _ _ _ _ _ _ (clampValue_engine s v Hr Ht)). apply spec_write; [done|lia].
Qed.

Lemma exec_spec s o : ready s -> 2 <= top (abs s) -> isWritable (p_dev s) = true -> legal o ->
  exists s', exec o s = (Ok tt, s') /\ ready s' /\ astep o (abs s) (abs s') /\ 2 <= top (abs s') /\ p_dev s' = p_dev s.
Proof.
  intros Hr Ht Hw Hl.
  assert (Hrange : forall r, 2 <= r <= range_max -> exists s' x, setRange r s = (Ok x, s') /\ ready s' /\
    astep (SetRange r) (abs s) (abs s') /\ 2 <= top (abs s') /\ p_dev s' = p_dev s).
  { intros r Hrr. destruct (spec_setRange s r Hr Hrr) as (s' & x & Hs & Hr' & H1 & H2 & H3 & H4).
    exists s', x. split_and!; try done; [|lia]. destruct (abs s') as [d t o']. cbn in *. subst. by constructor. }
  destruct o as [v|b|r|n]; cbn in *.
  - destruct (write_spec s v Hr ltac:(lia) Hw) as (s' & Hs & Hr' & Ha & Hd).
    exists s'. rewrite (M_bind_ok _ _ _ _ _ _ _ _ Hs). split_and!; try done; rewrite Ha; [constructor|done].
  - destruct (spec_setEnable s b Hr) as (s' & Hs & Hr' & Ha & Hd).
    exists s'. split_and!; try done; rewrite Ha; [constructor|done].
  - destruct (Hrange r Hl) as (s' & x & Hs & ?). exists s'. by rewrite (M_bind_ok _ _ _ _ _ _ _ _ Hs).
  - destruct Hl as [Hn Hm]. assert (2 ^ 1 <= 2 ^ n) by (apply Z.pow_le_mono_r; lia).
    destruct (Hrange (2 ^ n)) as (s' & x & Hs & ? & ? & ? & ?); [lia|]. exists s'.
    unfold setResolution. rewrite (proj2 (Z.leb_le 0 n)), (proj2 (Z.ltb_lt n 63)), Z.shiftl_1_l by lia. cbn [andb].
    rewrite (M_bind_ok _ _ _ _ _ _ _ _ Hs). split_and!; try done. by constructor.
Qed.

(** Every engine that keeps its promises is a PWM: any sequence of public
    calls that write values, switch the output or change the range or the
    resolution runs without an exception, follows the abstract PWM step by step,
    with values outside the range clamped to it, and a final read returns the
    value, range and state the abstract PWM has. *)
Theorem socpwm_refines (ops : list op) (s : S) :
  ready s -> 2 <= top (abs s) -> openMode (p_dev s) = ReadWrite -> Forall legal ops ->
  exists s' p, run ops s = (Ok tt, s') /\ asteps ops (abs s) p /\
    read s' = (Ok (duty p), s') /\ p_range s' = (Ok (top p), s') /\ isEnabled s' = (Ok (on p), s').
Proof.
  intros Hr Ht Hm Hl. revert s Hr Ht Hm. induction Hl as [|o ops Ho _ IH]; intros s Hr Ht Hm.
  - exists s, (abs s). split; [done|]. split; [constructor|]. unfold read. rewrite Hm.
    split; [by apply spec_read|]. split; [by apply spec_range|by apply spec_isEnabled].
  - destruct (exec_spec s o Hr Ht) as (s1 & H1 & Hr1 & Ha & Ht1 & Hd); [|done|].
    { unfold isWritable. by rewrite Hm. }
    destruct (IH s1 Hr1 Ht1) as (s' & p & H2 & Has & Hrest); [by rewrite Hd|].
    exists s', p. split; [|split; [by econstructor|done]]. cbn. by rewrite (M_bind_ok _ _ _ _ _ _ _ _ H1).
Qed.
End Client.
End SocPwm.
