(* ===== verification/PwmBcm2835.v ===== *)
(** * The PWM engine of the Broadcom BCM2708..2711, pwm_bcm2835.cpp

    The engine drives two register blocks: the PWM block, which holds the range,
    the value and the control bits of two channels, and the clock manager, whose
    divisor can only be changed while the clock is stopped.  Stopping and
    starting take time, which passes in [tick], and the driver polls the busy
    bit; the loops have fuel. *)
From S2P Require Import Prelude Double IoDevice Mmio SocPwm.
Import Flags Pin Mmio.

Module PwmBcm.

Definition PwmOffset : Z := 0x20C000.
Definition ClockOffset : Z := 0x101000.
Definition MapBlockSize : Z := 4 * 1024.
Definition CTL : Z := 0.
Definition RNG1 : Z := 4.
Definition DAT1 : Z := 5.
Definition RNG2 : Z := 8.
Definition DAT2 : Z := 9.
Definition PWEN1 : Z := Z.shiftl 1 0.
Definition RPTL1 : Z := Z.shiftl 1 2.
Definition SBIT1 : Z := Z.shiftl 1 3.
Definition POLA1 : Z := Z.shiftl 1 4.
Definition MSEN1 : Z := Z.shiftl 1 7.
Definition PWEN2 : Z := Z.shiftl 1 8.
Definition RPTL2 : Z := Z.shiftl 1 10.
Definition SBIT2 : Z := Z.shiftl 1 11.
Definition POLA2 : Z := Z.shiftl 1 12.
Definition MSEN2 : Z := Z.shiftl 1 15.
Definition CM_PWMCTL : Z := 40.
Definition CM_PWMDIV : Z := 41.
Definition PASSWD : Z := 0x5A000000.
Definition BUSY : Z := Z.shiftl 1 7.
Definition KILL : Z := Z.shiftl 1 5.
Definition ENAB : Z := Z.shiftl 1 4.
Definition SRC_OSC : Z := 1.
Definition PLL_CLOCK_DIVISOR_MIN : Z := 2.
Definition PLL_CLOCK_DIVISOR_MAX : Z := 4095.
Definition PLL_CLOCK_FREQ : Z := 19200000.
Definition PLL_CLOCK_FREQ_2711 : Z := 54000000.

(** What the constructor works out from the pin and the chip. *)
Record config : Type := mk_config {
  rngReg : Z; dataReg : Z; ctlMasqInit : Z; ctlMasqStartStop : Z; clkFreq : Z }.

Definition config_of (is2711 : bool) (mcuNumber : Z) : config :=
  let f := if is2711 then PLL_CLOCK_FREQ_2711 else PLL_CLOCK_FREQ in
  if (mcuNumber =? 13) || (mcuNumber =? 19) then
    mk_config RNG2 DAT2 (Z.lor (Z.lor RPTL2 SBIT2) POLA2) (Z.lor MSEN2 PWEN2) f
  else mk_config RNG1 DAT1 (Z.lor (Z.lor RPTL1 SBIT1) POLA1) (Z.lor MSEN1 PWEN1) f.

(** Hardware that changes as time passes, in microseconds. *)
Class Timed (D : Device) : Type := { tick : Z -> hw -> hw }.

Section Engine.
Context {O : MapOs} {DP DC : Device} {T : Timed DC} (c : config).

Record engine : Type := mk_engine { base : IoDevice.iodevice; pwm : io (D := DP); clock : io (D := DC) }.
Definition set_base (b : IoDevice.iodevice) (s : engine) : engine := mk_engine b (pwm s) (clock s).
Definition set_pwm (p : io (D := DP)) (s : engine) : engine := mk_engine (base s) p (clock s).
Definition set_clock (k : io (D := DC)) (s : engine) : engine := mk_engine (base s) (pwm s) k.

Definition readPwm (offset : Z) : M engine Z := zoom pwm set_pwm (atomicRead offset).
Definition writePwm (offset value : Z) : M engine unit := zoom pwm set_pwm (atomicWrite offset value).
Definition readClock (offset : Z) : M engine Z := zoom clock set_clock (atomicRead offset).
Definition writeClock (offset value : Z) : M engine unit := zoom clock set_clock (atomicWrite offset value).
Definition delayMicroseconds (us : Z) : M engine unit :=
  modify (fun s => set_clock (set_regs (tick us (regs (clock s))) (clock s)) s).

Definition pwm_map {A} (m : M IoMap.iomap A) : M engine A := zoom pwm set_pwm (zoom im set_im m).
Definition clock_map {A} (m : M IoMap.iomap A) : M engine A := zoom clock set_clock (zoom im set_im m).

(** [SocPwm::Private::open] and [close] are those of [IoDevice::Private]. *)
Definition base_open (m : Z) : M engine bool := fun s =>
  let '(r, b) := IoDevice.popen m (base s) in (Ok r, set_base b s).

Definition open (iobase m : Z) : M engine bool :=
  p ← pwm_map (IoMap.open (iobase + PwmOffset) MapBlockSize);
  if negb p then mret false else
  k ← clock_map (IoMap.open (iobase + ClockOffset) MapBlockSize);
  if negb k then pwm_map IoMap.close;; mret false else
  base_open m.

Definition close : M engine unit :=
  pwm_map IoMap.close;; clock_map IoMap.close;; modify (fun s => set_base (IoDevice.pclose (base s)) s).

Definition read : M engine Z := readPwm (dataReg c).
Definition write (value : Z) : M engine bool := writePwm (dataReg c) value;; mret true.

Definition setEnable (enable : bool) : M engine unit :=
  ctl ← readPwm CTL;
  let ctl := if enable then Z.lor (Z.land ctl (u32 (Z.lnot (ctlMasqInit c)))) (ctlMasqStartStop c)
             else Z.land ctl (u32 (Z.lnot (ctlMasqStartStop c))) in
  writePwm CTL ctl;; delayMicroseconds 10.

Definition isEnabled : M engine bool :=
  ctl ← readPwm CTL; mret (Z.land ctl (ctlMasqStartStop c) =? ctlMasqStartStop c).

Definition range : M engine Z := readPwm (rngReg c).
Definition max : M engine Z := r ← range; mret (r - 1).
Definition min : M engine Z := mret 0.
Definition setRange (r : Z) : M engine Z := writePwm (rngReg c) r;; range.

Definition clockDivisor : M engine Z := r ← readClock CM_PWMDIV; mret (Z.shiftr r 12).

(** Dividing by a range of 0 is undefined. *)
Definition frequency : M engine Z :=
  div ← clockDivisor;
  if negb (div =? 0) then
    r ← range; if r =? 0 then throw UB else mret (Z.quot (clkFreq c / div) r)
  else mret 0.

(** [while (busy == b) delayMicroseconds (1)] *)
Fixpoint wait_while (fuel : nat) (b : bool) : M engine unit :=
  match fuel with
  | 0%nat => throw OutOfFuel
  | S fuel =>
      r ← readClock CM_PWMCTL;
      if Bool.eqb (test r BUSY) b then delayMicroseconds 1;; wait_while fuel b else mret tt
  end.

Definition clamp_divisor (div : Z) : Z :=
  if div <? PLL_CLOCK_DIVISOR_MIN then PLL_CLOCK_DIVISOR_MIN
  else if PLL_CLOCK_DIVISOR_MAX <? div then PLL_CLOCK_DIVISOR_MAX else div.

Definition setClockDivisor (fuel : nat) (div : Z) : M engine unit :=
  let div := clamp_divisor div in
  backupctl ← readPwm CTL;
  writePwm CTL 0;; delayMicroseconds 10;;
  writeClock CM_PWMCTL (Z.lor PASSWD KILL);; delayMicroseconds 110;;
  wait_while fuel true;;
  writeClock CM_PWMDIV (Z.lor PASSWD (u32 (Z.shiftl div 12)));;
  writeClock CM_PWMCTL (Z.lor (Z.lor PASSWD ENAB) SRC_OSC);;
  writePwm CTL backupctl;;
  wait_while fuel false.

Definition frequencyDivisor (freq : Z) : M engine Z :=
  r ← range;
  match dbl_ceil_to 32 (dbl_div (dbl_div (dbl_int (clkFreq c)) (dbl_int freq)) (dbl_int r)) with
  | Some v => mret v
  | None => throw UB
  end.

Definition setFrequency (fuel : nat) (f : Z) : M engine Z :=
  (if 0 <? f then d ← frequencyDivisor f; setClockDivisor fuel d else mret tt);; frequency.

End Engine.

(** ** The registers *)
(** The bits of a register of the PWM block that exist; bit 6 of the control
    register clears the FIFO when it is written and reads 0. *)
Definition reg_mask (o : Z) : Z := if o =? CTL then 0xBFBF else Z.ones 32.
Definition is_reg (o : Z) : bool := (o =? CTL) || (o =? RNG1) || (o =? DAT1) || (o =? RNG2) || (o =? DAT2).

Class BcmPwmRegs (D : Device) : Prop := {
  reg_write : forall o o' v s, is_reg o = true -> 0 <= v < 2 ^ 32 ->
    hw_read o (hw_write o' v s) = if o =? o' then Z.land v (reg_mask o) else hw_read o s;
  reg_read : forall o s, is_reg o = true -> Z.land (hw_read o s) (reg_mask o) = hw_read o s }.

(** The clock manager: a write counts only with the password in its top byte.
    The busy bit follows the enable bit, after at most [settle_max]
    microseconds; the divisor is the low 24 bits of its register. *)
Class ClockManager (D : Device) (T : Timed D) : Type := {
  settle_max : Z;
  settle : hw -> Z;
  enabled : hw -> bool;
  settle_tick : forall d s, 0 <= d -> settle (tick d s) <= Z.max 0 (settle s - d);
  enabled_tick : forall d s, enabled (tick d s) = enabled s;
  div_tick : forall d s, hw_read CM_PWMDIV (tick d s) = hw_read CM_PWMDIV s;
  busy_settled : forall s, settle s <= 0 -> test (hw_read CM_PWMCTL s) BUSY = enabled s;
  ctl_write : forall v s, 0 <= v < 2 ^ 32 -> Z.shiftr v 24 = 0x5A ->
    let s' := hw_write CM_PWMCTL v s in
    enabled s' = Z.testbit v 4 /\ settle s' <= settle_max /\ hw_read CM_PWMDIV s' = hw_read CM_PWMDIV s;
  div_write : forall v s, 0 <= v < 2 ^ 32 -> Z.shiftr v 24 = 0x5A ->
    let s' := hw_write CM_PWMDIV v s in
    hw_read CM_PWMDIV s' = v mod 2 ^ 24 /\ enabled s' = enabled s /\ settle s' <= settle s }.

(** ** The engine on open registers *)
Section Proofs.
Context {O : MapOs} {DP DC : Device} {T : Timed DC} {RP : BcmPwmRegs DP} {RC : ClockManager DC T}.
Abbreviation eng := (engine (O := O) (DP := DP) (DC := DC)).

Definition ready (s : eng) : Prop :=
  IoMap.window (im (pwm s)) = MapBlockSize /\ IoMap.window (im (clock s)) = MapBlockSize.

Definition preg (o : Z) (s : eng) : Z := hw_read o (regs (pwm s)).
Definition creg (o : Z) (s : eng) : Z := hw_read o (regs (clock s)).
Definition divisor (s : eng) : Z := Z.shiftr (creg CM_PWMDIV s) 12.

Definition put_pwm (o v : Z) (s : eng) : eng := set_pwm (set_regs (hw_write o v (regs (pwm s))) (pwm s)) s.
Definition put_clock (o v : Z) (s : eng) : eng := set_clock (set_regs (hw_write o v (regs (clock s))) (clock s)) s.
Definition wait (d : Z) (s : eng) : eng := set_clock (set_regs (tick d (regs (clock s))) (clock s)) s.

Lemma page_reg {D : Device} o (m : io (D := D)) :
  IoMap.window (im m) = MapBlockSize -> 0 <= o < 1024 -> in_window o m = true.
Proof. intros Hm Ho. unfold MapBlockSize in Hm. apply in_window_ok; lia. Qed.

Lemma readPwm_eq o s : ready s -> 0 <= o < 1024 -> readPwm o s = (Ok (preg o s), s).
Proof. intros [Hr _] Ho. unfold readPwm, zoom, atomicRead. rewrite page_reg by done. by destruct s. Qed.
Lemma readClock_eq o s : ready s -> 0 <= o < 1024 -> readClock o s = (Ok (creg o s), s).
Proof. intros [_ Hr] Ho. unfold readClock, zoom, atomicRead. rewrite page_reg by done. by destruct s. Qed.
Lemma readPwm_bind {A} (k : Z -> M eng A) o s : ready s -> 0 <= o < 1024 -> (readPwm o ≫= k) s = k (preg o s) s.
Proof. intros. by apply M_bind_ok, readPwm_eq. Qed.
Lemma readClock_bind {A} (k : Z -> M eng A) o s : ready s -> 0 <= o < 1024 -> (readClock o ≫= k) s = k (creg o s) s.
Proof. intros. by apply M_bind_ok, readClock_eq. Qed.
Lemma writePwm_eq o v s : ready s -> 0 <= o < 1024 -> 0 <= v < 2 ^ 32 -> writePwm o v s = (Ok tt, put_pwm o v s).
Proof. intros [Hr _] Ho Hv. unfold writePwm, zoom. by rewrite atomicWrite_ok by (try apply page_reg; done). Qed.
Lemma writeClock_eq o v s : ready s -> 0 <= o < 1024 -> 0 <= v < 2 ^ 32 -> writeClock o v s = (Ok tt, put_clock o v s).
Proof. intros [_ Hr] Ho Hv. unfold writeClock, zoom. by rewrite atomicWrite_ok by (try apply page_reg; done). Qed.
Lemma writePwm_bind {A} (k : unit -> M eng A) o v s : ready s -> 0 <= o < 1024 -> 0 <= v < 2 ^ 32 ->
  (writePwm o v ≫= k) s = k tt (put_pwm o v s).
Proof. intros. by apply M_bind_ok, writePwm_eq. Qed.
Lemma writeClock_bind {A} (k : unit -> M eng A) o v s : ready s -> 0 <= o < 1024 -> 0 <= v < 2 ^ 32 ->
  (writeClock o v ≫= k) s = k tt (put_clock o v s).
Proof. intros. by apply M_bind_ok, writeClock_eq. Qed.

Lemma delay_bind {A} (k : unit -> M eng A) d s : (delayMicroseconds d ≫= k) s = k tt (wait d s).
Proof. done. Qed.

(** Writing a register of the PWM block that is not the one read. *)
Lemma preg_put o o' v s : is_reg o = true -> 0 <= v < 2 ^ 32 ->
  preg o (put_pwm o' v s) = if o =? o' then Z.land v (reg_mask o) else preg o s.
Proof. intros. unfold preg. cbn. by apply reg_write. Qed.

(** Polling ends: the busy bit settles. *)
Lemma wait_while_spec fuel b s : ready s -> enabled (regs (clock s)) = negb b ->
  settle (regs (clock s)) < Z.of_nat fuel -> (0 < fuel)%nat ->
  exists s', wait_while fuel b s = (Ok tt, s') /\ ready s' /\ pwm s' = pwm s /\ base s' = base s /\
    enabled (regs (clock s')) = negb b /\ creg CM_PWMDIV s' = creg CM_PWMDIV s /\
    test (creg CM_PWMCTL s') BUSY = negb b.
Proof.
  revert s. induction fuel as [|fuel IH]; intros s Hr He Hs Hf; [lia|]. cbn [wait_while].
  rewrite readClock_bind by (done || lia). unfold creg at 1.
  destruct (Bool.eqb (test (hw_read CM_PWMCTL (regs (clock s))) BUSY) b) eqn:Eb.
  - apply eqb_prop in Eb. assert (0 < settle (regs (clock s))).
    { destruct (Z.lt_ge_cases 0 (settle (regs (clock s)))) as [|Hle]; [done|].
      rewrite (busy_settled _ Hle), He in Eb. by destruct b. }
    pose proof (settle_tick 1 (regs (clock s)) ltac:(lia)) as Ht.
    destruct (IH (wait 1 s)) as (s' & Hw & Hr' & Hp & Hb & He' & Hd & Hbusy);
      [done|cbn; by rewrite enabled_tick|cbn; lia|lia|].
    exists s'. split_and!; try done. rewrite Hd. apply div_tick.
  - exists s. split_and!; try done. unfold creg. by destruct (test _ _), b.
Qed.

Lemma password v : 0 <= v < 2 ^ 24 -> 0 <= Z.lor PASSWD v < 2 ^ 32 /\ Z.shiftr (Z.lor PASSWD v) 24 = 0x5A /\
  Z.lor PASSWD v mod 2 ^ 24 = v.
Proof.
  intros Hv. assert (Hl : Z.lor PASSWD v = PASSWD + v).
  { assert (Z.land PASSWD v = 0) as H0.
    { apply Z.bits_inj'. intros i Hi. rewrite Z.land_spec, Z.bits_0. destruct (Z.lt_ge_cases i 24).
      - change PASSWD with (Z.shiftl 0x5A 24). by rewrite Z.shiftl_spec_low.
      - rewrite (testbit_high v 24 i) by lia. apply andb_false_r. }
    by rewrite <- Z.lxor_lor, <- Z.add_nocarry_lxor. }
  rewrite Hl. unfold PASSWD. split; [lia|]. rewrite Z.shiftr_div_pow2 by lia. split.
  - symmetry. apply (Z.div_unique _ _ _ v); lia.
  - symmetry. apply (Z.mod_unique _ _ 0x5A); lia.
Qed.

Lemma clamp_divisor_bound d : 2 <= clamp_divisor d <= 4095.
Proof. unfold clamp_divisor, PLL_CLOCK_DIVISOR_MIN, PLL_CLOCK_DIVISOR_MAX. case_bool; lia. Qed.

(** The least divisor of the interval that divides [clk] down to [d] or less. *)
Lemma clamp_divisor_least clk d : 0 < d -> let D := clamp_divisor ((clk + d - 1) / d) in
  (D < 4095 -> clk <= d * D) /\ (2 < D -> d * (D - 1) < clk).
Proof.
  intros Hd. pose proof (Z.div_mod (clk + d - 1) d ltac:(lia)) as He.
  pose proof (Z.mod_pos_bound (clk + d - 1) d Hd). cbn zeta.
  unfold clamp_divisor, PLL_CLOCK_DIVISOR_MIN, PLL_CLOCK_DIVISOR_MAX. case_bool; nia.
Qed.

(** The divisor is changed and the PWM block is as it was. *)
Lemma setClockDivisor_spec fuel d s : ready s -> settle_max < Z.of_nat fuel -> (0 < fuel)%nat ->
  exists s', setClockDivisor fuel d s = (Ok tt, s') /\ ready s' /\ base s' = base s /\
    divisor s' = clamp_divisor d /\ (forall o, is_reg o = true -> preg o s' = preg o s) /\
    test (creg CM_PWMCTL s') BUSY = true.
Proof.
  intros Hr Hf Hf0. pose proof (clamp_divisor_bound d) as Hd. unfold setClockDivisor. cbn zeta.
  set (dv := clamp_divisor d) in *.
  assert (Hb : 0 <= preg CTL s < 2 ^ 32) by apply hw_word.
  rewrite readPwm_bind by (done || (unfold CTL; lia)).
  rewrite writePwm_bind, delay_bind by (done || (unfold CTL; lia)).
  destruct (password KILL) as (K1 & K2 & _); [done|].
  rewrite writeClock_bind, delay_bind by (done || (unfold CM_PWMCTL; lia)).
  set (s1 := wait 110 _).
  assert (H1 : ready s1 /\ enabled (regs (clock s1)) = negb true /\ settle (regs (clock s1)) < Z.of_nat fuel).
  { pose proof (ctl_write (Z.lor PASSWD KILL) (regs (clock (wait 10 (put_pwm CTL 0 s)))) K1 K2) as (E & S & _).
    split; [done|]. unfold s1. cbn in E, S |- *. rewrite enabled_tick, E. split; [done|].
    eapply Z.le_lt_trans; [apply settle_tick; lia|]. lia. }
  destruct (wait_while_spec fuel true s1) as (s2 & W2 & R2 & P2 & B2 & E2 & D2 & _); [naive_solver..|].
  rewrite (M_bind_ok _ _ _ _ _ _ _ _ W2).
  assert (Hsh : u32 (Z.shiftl dv 12) = dv * 4096) by (rewrite Z.shiftl_mul_pow2 by lia; apply u32_small; lia).
  rewrite Hsh. destruct (password (dv * 4096)) as (V1 & V2 & V3); [lia|].
  rewrite writeClock_bind by (done || (unfold CM_PWMDIV; lia)).
  destruct (password (Z.lor ENAB SRC_OSC)) as (N1 & N2 & _); [done|].
  rewrite Z.lor_assoc in N1, N2.
  rewrite writeClock_bind by (done || (unfold CM_PWMCTL; lia)).
  rewrite writePwm_bind by (done || (unfold CTL; lia)).
  set (s3 := put_clock CM_PWMDIV _ s2). set (s4 := put_pwm CTL _ _).
  pose proof (div_write (Z.lor PASSWD (dv * 4096)) (regs (clock s2)) V1 V2) as (D3 & _ & _).
  pose proof (ctl_write _ (regs (clock s3)) N1 N2) as (E4 & S4 & D4).
  destruct (wait_while_spec fuel false s4) as (s5 & W5 & R5 & P5 & B5 & E5 & D5 & Busy); [done|exact E4|exact (Z.le_lt_trans _ _ _ S4 Hf)|done|].
  exists s5. split; [exact W5|]. split_and!; [done|by rewrite B5; cbn; rewrite B2|..|done].
  - unfold divisor. rewrite D5, (eq_trans D4 D3 : creg CM_PWMDIV s4 = _), V3, Z.shiftr_div_pow2 by lia.
    apply Z.div_mul. lia.
  - intros o Ho. unfold preg at 1. rewrite P5. change (preg o s4 = preg o s). unfold s4.
    rewrite preg_put by done. change (preg o (put_clock _ _ s3)) with (preg o s2).
    destruct (Z.eqb_spec o CTL) as [->|Hne]; [by apply reg_read|].
    unfold preg at 1. rewrite P2. change (preg o (put_pwm CTL 0 s) = preg o s).
    rewrite preg_put by (done || lia). by destruct (Z.eqb_spec o CTL).
Qed.

Section Channel.
Context (is2711 : bool) (g : Z).
Abbreviation cf := (config_of is2711 g).

Lemma config_regs : is_reg (rngReg cf) = true /\ is_reg (dataReg cf) = true /\ rngReg cf <> CTL /\ dataReg cf <> CTL /\
  rngReg cf <> dataReg cf /\ 0 <= rngReg cf < 1024 /\ 0 <= dataReg cf < 1024 /\ 1 <= clkFreq cf < 2 ^ 26.
Proof. unfold config_of. destruct ((g =? 13) || (g =? 19)), is2711; cbn; by split_and!. Qed.

Lemma range_bind {A} (k : Z -> M eng A) s : ready s -> (range cf ≫= k) s = k (preg (rngReg cf) s) s.
Proof. intros. apply readPwm_bind; [done|]. apply config_regs. Qed.

(** The double computation is the exact ceiling. *)
Lemma frequencyDivisor_exact f s : ready s -> 1 <= preg (rngReg cf) s -> 0 < f < 2 ^ 53 ->
  let d := f * preg (rngReg cf) s in frequencyDivisor cf f s = (Ok ((clkFreq cf + d - 1) / d), s).
Proof.
  intros Hr Hrng Hf. unfold frequencyDivisor. rewrite range_bind by done.
  destruct config_regs as (_ & _ & _ & _ & _ & _ & _ & Hc).
  pose proof (hw_word (rngReg cf) (regs (pwm s))) as Hw. fold (preg (rngReg cf) s) in Hw.
  by rewrite dbl_ceil_to_div by lia.
Qed.

Lemma frequency_eq s : ready s -> divisor s <> 0 -> preg (rngReg cf) s <> 0 ->
  frequency cf s = (Ok (clkFreq cf / divisor s / preg (rngReg cf) s), s).
Proof.
  intros Hr Hd Hrng. unfold frequency, clockDivisor.
  rewrite (M_bind_ok _ _ _ _ _ _ (divisor s) s) by (by rewrite readClock_bind by (done || (unfold CM_PWMDIV; lia))).
  rewrite (proj2 (Z.eqb_neq _ _) Hd). cbn [negb]. rewrite range_bind by done.
  rewrite (proj2 (Z.eqb_neq _ _) Hrng). unfold mret, M_ret. do 2 f_equal.
  destruct config_regs as (_ & _ & _ & _ & _ & _ & _ & Hc).
  pose proof (hw_word (rngReg cf) (regs (pwm s))) as Hw. fold (preg (rngReg cf) s) in Hw.
  pose proof (hw_word CM_PWMDIV (regs (clock s))) as Hw2.
  apply Z.quot_div_nonneg; [|lia]. apply Z.div_pos; [lia|].
  assert (0 <= divisor s) by (apply Z.shiftr_nonneg; unfold creg; lia). lia.
Qed.

Lemma land_enable ctl a ss m : Z.land ss m = ss ->
  Z.land (Z.land (Z.lor (Z.land ctl a) ss) m) ss = ss.
Proof.
  intros H. rewrite <- Z.land_assoc, (Z.land_comm m), H. apply Z.bits_inj'. intros n Hn.
  rewrite Z.land_spec, Z.lor_spec. destruct (Z.testbit ss n); rewrite ?orb_true_r, ?andb_false_r; done.
Qed.

Definition is_on (s : eng) : bool := Z.land (preg CTL s) (ctlMasqStartStop cf) =? ctlMasqStartStop cf.

(** What switching writes leaves the control bits [m] that are not its own. *)
Lemma enable_foreign_bits x m (b : bool) : Z.land m (Z.lor (ctlMasqInit cf) (ctlMasqStartStop cf)) = 0 ->
  Z.land m 0xBFBF = m ->
  Z.land (Z.land (if b then Z.lor (Z.land x (u32 (Z.lnot (ctlMasqInit cf)))) (ctlMasqStartStop cf)
                  else Z.land x (u32 (Z.lnot (ctlMasqStartStop cf)))) 0xBFBF) m = Z.land x m.
Proof.
  intros H0 Hm. apply Z.bits_inj'. intros n Hn. rewrite !Z.land_spec.
  destruct (Z.testbit m n) eqn:Em; [|by rewrite !andb_false_r].
  pose proof (f_equal (fun z => Z.testbit z n) Hm) as Hb. cbn beta in Hb. rewrite Z.land_spec, Em in Hb.
  assert (Hn32 : n < 32). { destruct (Z.lt_ge_cases n 32); [done|]. by rewrite (testbit_high 0xBFBF 32 n) in Hb by lia. }
  pose proof (f_equal (fun z => Z.testbit z n) H0) as Hz. cbn beta in Hz.
  rewrite Z.land_spec, Z.lor_spec, Em, Z.bits_0 in Hz. cbn [andb] in Hz, Hb. apply orb_false_iff in Hz as [Hi Hs].
  rewrite Hb, !andb_true_r. unfold u32.
  destruct b; rewrite ?Z.lor_spec, Z.land_spec, Z.mod_pow2_bits_low, Z.lnot_spec, ?Hi, ?Hs by lia; cbn;
    by rewrite ?andb_true_r, ?orb_false_r.
Qed.

Lemma setEnable_spec b s : ready s -> exists s', setEnable cf b s = (Ok tt, s') /\ ready s' /\ base s' = base s /\
  is_on s' = b /\ (forall o, is_reg o = true -> o <> CTL -> preg o s' = preg o s) /\ divisor s' = divisor s /\
  forall m, Z.land m (Z.lor (ctlMasqInit cf) (ctlMasqStartStop cf)) = 0 -> Z.land m 0xBFBF = m ->
    Z.land (preg CTL s') m = Z.land (preg CTL s) m.
Proof.
  intros Hr. unfold setEnable. rewrite readPwm_bind by (done || (unfold CTL; lia)). cbn zeta.
  set (ctl := if b then _ else _).
  assert (Hw : 0 <= preg CTL s < 2 ^ 32) by apply hw_word.
  assert (Hctl : 0 <= ctl < 2 ^ 32).
  { assert (Hland : forall x, 0 <= Z.land (preg CTL s) (u32 x) < 2 ^ 32).
    { intros x. split; [apply Z.land_nonneg; lia|]. apply bits_bound; [lia|apply Z.land_nonneg; lia|].
      intros n Hn. rewrite Z.land_spec, (testbit_high (preg CTL s) 32 n) by lia. done. }
    unfold ctl. destruct b; [|apply Hland]. destruct (Hland (Z.lnot (ctlMasqInit cf))) as [H1 H2].
    assert (H3 : 0 <= ctlMasqStartStop cf < 2 ^ 32) by (unfold config_of; by destruct ((g =? 13) || (g =? 19))).
    split; [apply Z.lor_nonneg; lia|]. apply bits_bound; [lia|apply Z.lor_nonneg; lia|]. intros n Hn.
    by rewrite Z.lor_spec, !(testbit_high _ 32 n) by lia. }
  rewrite writePwm_bind by (done || (unfold CTL; lia)).
  exists (wait 10 (put_pwm CTL ctl s)). split; [done|]. split; [done|]. split; [done|]. split_and!.
  - unfold is_on. change (preg CTL (wait 10 (put_pwm CTL ctl s))) with (preg CTL (put_pwm CTL ctl s)).
    rewrite preg_put, Z.eqb_refl by done. unfold ctl, config_of. destruct b.
    + apply Z.eqb_eq. destruct ((g =? 13) || (g =? 19)); by apply land_enable.
    + rewrite <- !Z.land_assoc. destruct ((g =? 13) || (g =? 19)); cbn; by rewrite Z.land_0_r.
  - intros o Ho Hne. change (preg o (put_pwm CTL ctl s) = preg o s). rewrite preg_put by done.
    by destruct (Z.eqb_spec o CTL).
  - unfold divisor, creg. cbn. by rewrite div_tick.
  - intros m H0 Hm. change (preg CTL (wait 10 (put_pwm CTL ctl s))) with (preg CTL (put_pwm CTL ctl s)).
    rewrite preg_put, Z.eqb_refl by done. by apply enable_foreign_bits.
Qed.

(** The engine behind the interface of [SocPwm]. *)
#[export] Instance bcm_engine (fuel : nat) : SocPwm.PwmEngine eng := {
  p_dev := base;
  p_read := read cf;
  p_write := write cf;
  p_range := range cf;
  p_max := max cf;
  p_min := min;
  p_setRange := setRange cf;
  p_setEnable := setEnable cf;
  p_isEnabled := isEnabled cf;
  p_frequency := frequency cf;
  p_setFrequency := setFrequency cf fuel }.

Definition bcm_abs (s : eng) : SocPwm.pwm := SocPwm.mk_pwm (preg (dataReg cf) s) (preg (rngReg cf) s) (is_on s).

Lemma put_abs o v s : is_reg o = true -> o <> CTL -> 0 <= v < 2 ^ 32 ->
  bcm_abs (put_pwm o v s) = SocPwm.mk_pwm (if dataReg cf =? o then v else preg (dataReg cf) s)
    (if rngReg cf =? o then v else preg (rngReg cf) s) (is_on s).
Proof.
  intros Ho Hne Hv. destruct config_regs as (R1 & R2 & R3 & R4 & _). unfold bcm_abs, is_on.
  assert (Hm : forall o', o' <> CTL -> Z.land v (reg_mask o') = v).
  { intros o' H'. unfold reg_mask. destruct (Z.eqb_spec o' CTL); [done|].
    rewrite Z.land_ones by lia. by apply Z.mod_small. }
  rewrite !preg_put, !Hm by done. by destruct (Z.eqb_spec CTL o).
Qed.

#[export] Instance bcm_spec (fuel : nat) : SocPwm.PwmSpec eng (bcm_engine fuel).
Proof.
  refine {| SocPwm.ready := ready; SocPwm.abs := bcm_abs; SocPwm.range_max := 2 ^ 32 - 1 |}; cbn;
    destruct config_regs as (R1 & R2 & R3 & R4 & R5 & R6 & R7 & _).
  - intros s Hr. by apply readPwm_eq.
  - intros s Hr. by apply readPwm_eq.
  - intros s Hr. split; [done|]. unfold max. by rewrite range_bind.
  - intros s Hr. unfold isEnabled. by rewrite readPwm_bind by (done || (unfold CTL; lia)).
  - intros s v Hr Hv. pose proof (hw_word (rngReg cf) (regs (pwm s))) as Hw. fold (preg (rngReg cf) s) in Hw.
    exists (put_pwm (dataReg cf) v s). unfold write. rewrite writePwm_bind by (done || lia).
    split_and!; try done. rewrite put_abs by (done || lia). rewrite Z.eqb_refl.
    by destruct (Z.eqb_spec (rngReg cf) (dataReg cf)).
  - intros s b Hr. destruct (setEnable_spec b s Hr) as (s' & Hs & Hr' & Hb & Ho & Hp & _).
    exists s'. split_and!; try done. unfold bcm_abs. by rewrite Ho, !Hp.
  - intros s r Hr Hrr. exists (put_pwm (rngReg cf) r s), (preg (rngReg cf) (put_pwm (rngReg cf) r s)).
    unfold setRange. rewrite writePwm_bind by (done || lia). split; [by apply readPwm_eq|]. split; [done|].
    pose proof (put_abs (rngReg cf) r s R1 R3 ltac:(lia)) as Ha. unfold bcm_abs in Ha.
    rewrite Z.eqb_refl in Ha. destruct (Z.eqb_spec (dataReg cf) (rngReg cf)); [congruence|].
    injection Ha as Hd Ht Ho. by split_and!.
Defined.

End Channel.

(** ** A channel as its user sees it *)
(** The value, the range, the switch and the divisor of the clock. *)
Record channel : Type := mk_channel { duty : Z; top : Z; on : bool; div : Z }.

(** The least divisor of [D], [D + 1], ... that brings [clk] down to [d] or
    less; the largest one when none does. *)
Fixpoint search_divisor (n : nat) (D clk d : Z) : Z :=
  match n with
  | 0%nat => D
  | S n => if clk <=? d * D then D else search_divisor n (D + 1) clk d
  end.

Inductive call : Type := Public (o : SocPwm.op) | SetFrequency (f : Z).

(** The value stays when a new range leaves it outside. *)
Definition after (clk : Z) (o : call) (p : channel) : channel :=
  match o with
  | Public (SocPwm.Write v) => mk_channel (Z.max 0 (Z.min v (top p - 1))) (top p) (on p) (div p)
  | Public (SocPwm.Enable b) => mk_channel (duty p) (top p) b (div p)
  | Public (SocPwm.SetRange r) => mk_channel (duty p) r (on p) (div p)
  | Public (SocPwm.SetResolution n) => mk_channel (duty p) (2 ^ n) (on p) (div p)
  | SetFrequency f =>
      mk_channel (duty p) (top p) (on p) (if 0 <? f then search_divisor 4093 2 clk (f * top p) else div p)
  end.

Definition legal (o : call) : Prop :=
  match o with
  | Public (SocPwm.SetRange r) => 2 <= r < 2 ^ 32
  | Public (SocPwm.SetResolution n) => 1 <= n < 32
  | Public _ => True
  | SetFrequency f => f < 2 ^ 53
  end.

Lemma search_divisor_clamp clk d : 0 < d ->
  search_divisor 4093 2 clk d = clamp_divisor ((clk + d - 1) / d).
Proof.
  intros Hd. set (q := (clk + d - 1) / d).
  assert (Hq : forall D, clk <= d * D <-> q <= D).
  { intros D. pose proof (Z.div_mod (clk + d - 1) d ltac:(lia)) as He.
    pose proof (Z.mod_pos_bound (clk + d - 1) d Hd). fold q in He. split; nia. }
  assert (Hs : forall n D, 2 <= D -> D + Z.of_nat n = 4095 -> (D = 2 \/ D <= q) ->
    search_divisor n D clk d = clamp_divisor q).
  { unfold clamp_divisor, PLL_CLOCK_DIVISOR_MIN, PLL_CLOCK_DIVISOR_MAX.
    induction n as [|n IH]; intros D H2 Hn Hlow; cbn [search_divisor]; [case_bool; lia|].
    destruct (Z.leb_spec clk (d * D)) as [H|H].
    - apply Hq in H. case_bool; lia.
    - apply IH; [lia..|]. right. destruct (Z.le_gt_cases q D) as [H'|]; [apply Hq in H'; lia|lia]. }
  apply Hs; lia.
Qed.
#[local] Arguments search_divisor : simpl never.

Section Refinement.
Context (is2711 : bool) (g : Z) (fuel : nat).
Context (Hfuel : settle_max < Z.of_nat fuel) (Hfuel0 : (0 < fuel)%nat).
Abbreviation cf := (config_of is2711 g).
#[local] Instance this_engine : SocPwm.PwmEngine eng := bcm_engine is2711 g fuel.
#[local] Instance this_spec : SocPwm.PwmSpec eng this_engine := bcm_spec is2711 g fuel.

Definition exec (o : call) : M eng unit :=
  match o with
  | Public o => SocPwm.exec o
  | SetFrequency f => SocPwm.setFrequency f;; mret tt
  end.
Definition run (l : list call) : M eng unit := foldr (fun o k => exec o;; k) (mret tt) l.

Definition view (s : eng) : channel :=
  mk_channel (preg (dataReg cf) s) (preg (rngReg cf) s) (is_on is2711 g s) (divisor s).

(** The registers of the other channel and its bits of the control register. *)
Definition other_channel : Z := if (g =? 13) || (g =? 19) then 18 else 19.
Abbreviation co := (config_of is2711 other_channel).
Definition others (s : eng) : Z * Z * Z :=
  (preg (rngReg co) s, preg (dataReg co) s, Z.land (preg CTL s) (Z.lor (ctlMasqInit co) (ctlMasqStartStop co))).

Lemma frame_regs o : o = rngReg co \/ o = dataReg co ->
  is_reg o = true /\ o <> CTL /\ o <> rngReg cf /\ o <> dataReg cf.
Proof.
  unfold other_channel, config_of. destruct ((g =? 13) || (g =? 19)); intros [->| ->]; cbn; by split_and!.
Qed.
Lemma frame_mask : let m := Z.lor (ctlMasqInit co) (ctlMasqStartStop co) in
  Z.land m (Z.lor (ctlMasqInit cf) (ctlMasqStartStop cf)) = 0 /\ Z.land m 0xBFBF = m.
Proof. unfold other_channel, config_of. by destruct ((g =? 13) || (g =? 19)), is2711. Qed.

(** Writing the value or the range of this channel. *)
Lemma put_others o v s : o = rngReg cf \/ o = dataReg cf -> 0 <= v < 2 ^ 32 -> others (put_pwm o v s) = others s.
Proof.
  intros Ho Hv. destruct (config_regs is2711 g) as (_ & _ & R3 & R4 & _).
  destruct (frame_regs (rngReg co) (or_introl eq_refl)) as (I1 & _ & A1 & A2).
  destruct (frame_regs (dataReg co) (or_intror eq_refl)) as (I2 & _ & B1 & B2).
  unfold others. rewrite !preg_put by done.
  rewrite !(proj2 (Z.eqb_neq _ _)) by (destruct Ho as [->| ->]; done || by apply not_eq_sym). done.
Qed.

(** Whatever the frequency asked for, only the divisor changes. *)
Lemma setFrequency_step f s : ready s -> 2 <= preg (rngReg cf) s -> f < 2 ^ 53 ->
  exists x s', setFrequency cf fuel f s = (Ok x, s') /\ ready s' /\ base s' = base s /\
    divisor s' = (if 0 <? f then search_divisor 4093 2 (clkFreq cf) (f * preg (rngReg cf) s) else divisor s) /\
    forall o, is_reg o = true -> preg o s' = preg o s.
Proof.
  intros Hr Hrng Hf. assert (Hfreq : forall t, ready t -> preg (rngReg cf) t <> 0 -> exists x, frequency cf t = (Ok x, t)).
  { intros t Ht Hn. destruct (decide (divisor t = 0)) as [Hz|Hz]; [|eexists; by apply frequency_eq].
    exists 0. unfold frequency, clockDivisor.
    rewrite (M_bind_ok _ _ _ _ _ _ (divisor t) t) by (by rewrite readClock_bind by (done || (unfold CM_PWMDIV; lia))).
    by rewrite Hz. }
  unfold setFrequency. destruct (Z.ltb_spec 0 f) as [Hpos|Hneg].
  - set (q := (clkFreq cf + f * preg (rngReg cf) s - 1) / (f * preg (rngReg cf) s)).
    destruct (setClockDivisor_spec fuel q s Hr Hfuel Hfuel0) as (s' & Hs & Hr' & Hb & Hd & Hp & _).
    assert (Hreg : preg (rngReg cf) s' = preg (rngReg cf) s) by (apply Hp, config_regs).
    destruct (Hfreq s' Hr') as [x Hx]; [lia|]. exists x, s'. split_and!; try done.
    + erewrite (M_bind_ok _ _ _ (_ ≫= _)); [exact Hx|].
      erewrite M_bind_ok by (apply frequencyDivisor_exact; done || lia). exact Hs.
    + rewrite search_divisor_clamp by nia. exact Hd.
  - destruct (Hfreq s Hr) as [x Hx]; [lia|]. exists x, s. by split_and!.
Qed.

Lemma put_view o v s : o = rngReg cf \/ o = dataReg cf -> 0 <= v < 2 ^ 32 ->
  view (put_pwm o v s) = mk_channel (if dataReg cf =? o then v else preg (dataReg cf) s)
    (if rngReg cf =? o then v else preg (rngReg cf) s) (is_on is2711 g s) (divisor s).
Proof.
  intros Ho Hv. destruct (config_regs is2711 g) as (R1 & R2 & R3 & R4 & _).
  assert (Ha : is_reg o = true /\ o <> CTL) by (destruct Ho as [->| ->]; done).
  pose proof (put_abs is2711 g o v s (proj1 Ha) (proj2 Ha) Hv) as Hp. injection Hp as H1 H2 H3.
  unfold view. by rewrite H1, H2, H3.
Qed.

Lemma setRange_step r s : ready s -> 2 <= r < 2 ^ 32 ->
  exists s', (setRange cf r ≫= fun _ => mret tt) s = (Ok tt, s') /\ ready s' /\ base s' = base s /\
    view s' = mk_channel (preg (dataReg cf) s) r (is_on is2711 g s) (divisor s) /\
    others s' = others s /\ 2 <= top (view s').
Proof.
  intros Hr Hrr. destruct (config_regs is2711 g) as (_ & _ & _ & _ & R5 & R6 & _). exists (put_pwm (rngReg cf) r s).
  assert (Hv : view (put_pwm (rngReg cf) r s) = mk_channel (preg (dataReg cf) s) r (is_on is2711 g s) (divisor s)).
  { rewrite put_view by (by left || lia). rewrite Z.eqb_refl. destruct (Z.eqb_spec (dataReg cf) (rngReg cf)); congruence. }
  rewrite put_others, Hv by (by left || lia). split_and!; try done; [|cbn; lia].
  erewrite M_bind_ok; [done|]. unfold setRange. rewrite writePwm_bind by (done || lia). by apply readPwm_eq.
Qed.

Lemma exec_step o s : ready s -> 2 <= top (view s) -> IoDevice.openMode (base s) = IoDevice.ReadWrite -> legal o ->
  exists s', exec o s = (Ok tt, s') /\ ready s' /\ base s' = base s /\ view s' = after (clkFreq cf) o (view s) /\
    others s' = others s /\ 2 <= top (view s').
Proof.
  intros Hr Ht Hm Hl. cbn in Ht. destruct (config_regs is2711 g) as (R1 & R2 & R3 & R4 & R5 & R6 & R7 & _).
  pose proof (hw_word (rngReg cf) (regs (pwm s))) as Hw. fold (preg (rngReg cf) s) in Hw.
  destruct o as [[v|b|r|n]|f]; cbn in Hl.
  - set (w := Z.max 0 (Z.min v (preg (rngReg cf) s - 1))). exists (put_pwm (dataReg cf) w s).
    assert (He : exec (Public (SocPwm.Write v)) s = (Ok tt, put_pwm (dataReg cf) w s)).
    { unfold exec, SocPwm.exec. rewrite (M_bind_ok _ _ _ _ _ _ true (put_pwm (dataReg cf) w s)); [done|]. unfold SocPwm.write.
      change (SocPwm.p_dev s) with (base s). rewrite Hm. change (test IoDevice.ReadWrite IoDevice.WriteOnly) with true. cbv iota.
      rewrite (M_bind_ok _ _ _ _ _ _ _ _ (SocPwm.clampValue_engine (P := this_spec) s v Hr ltac:(cbn; lia))).
      change (write cf w s = (Ok true, put_pwm (dataReg cf) w s)). unfold write. by rewrite writePwm_bind by (done || lia). }
    assert (Hv : view (put_pwm (dataReg cf) w s) = mk_channel w (preg (rngReg cf) s) (is_on is2711 g s) (divisor s)).
    { rewrite put_view by (by right || lia). rewrite Z.eqb_refl. destruct (Z.eqb_spec (rngReg cf) (dataReg cf)); congruence. }
    rewrite He, put_others, Hv by (by right || lia). by split_and!.
  - destruct (setEnable_spec is2711 g b s Hr) as (s' & Hs & Hr' & Hb & Ho & Hp & Hd & Hc).
    exists s'. destruct frame_mask as [M1 M2].
    destruct (frame_regs (rngReg co) (or_introl eq_refl)) as (I1 & N1 & _).
    destruct (frame_regs (dataReg co) (or_intror eq_refl)) as (I2 & N2 & _).
    unfold view, others. cbn. rewrite !Hp, Ho, Hd, Hc by done. by split_and!.
  - exact (setRange_step r s Hr Hl).
  - assert (2 ^ 1 <= 2 ^ n < 2 ^ 32) by (split; [apply Z.pow_le_mono_r|apply Z.pow_lt_mono_r]; lia).
    destruct (setRange_step (2 ^ n) s Hr) as (s' & Hs & Hrest); [lia|]. exists s'. split; [|exact Hrest].
    cbn. unfold SocPwm.setResolution. rewrite (proj2 (Z.leb_le 0 n)), (proj2 (Z.ltb_lt n 63)), Z.shiftl_1_l by lia. exact Hs.
  - destruct (setFrequency_step f s Hr Ht Hl) as (x & s' & Hs & Hr' & Hb & Hd & Hp). exists s'.
    unfold view, others, is_on. cbn. rewrite !Hp, Hd by (done || (apply frame_regs; auto)). split_and!; try done.
    by rewrite (M_bind_ok _ _ _ _ _ _ _ _ Hs).
Qed.

(** C9: A hardware PWM channel of a Broadcom chip behaves as the value, range,
    switch and clock divisor its user sees: from a channel open for reading and
    writing with a range of at least 2, any sequence of public calls that write any value, switch the
    output, set a range of 2..2^32-1, a resolution of 1..31 bits or a frequency
    below 2^53 Hz runs without an exception, given fuel for the time the clock
    takes to stop or start; each call changes exactly its part, a value being
    clamped into the range, a frequency giving the least divisor of 2..4095 that
    does not exceed it, or 4095; reading returns the resulting value, range and
    state; and the range, value and control bits of the other channel of the
    block are those from before. *)
Theorem bcm_pwm_refines (l : list call) (s : eng) :
  ready s -> 2 <= top (view s) -> IoDevice.openMode (base s) = IoDevice.ReadWrite -> Forall legal l ->
  exists s', run l s = (Ok tt, s') /\ view s' = foldl (fun p o => after (clkFreq cf) o p) (view s) l /\
    SocPwm.read s' = (Ok (duty (view s')), s') /\ SocPwm.p_range s' = (Ok (top (view s')), s') /\
    SocPwm.isEnabled s' = (Ok (on (view s')), s') /\ others s' = others s.
Proof.
  intros Hr Ht Hm Hl. revert s Hr Ht Hm. induction Hl as [|o l Ho _ IH]; intros s Hr Ht Hm.
  - exists s. split; [done|]. split; [done|]. unfold SocPwm.read. change (SocPwm.p_dev s) with (base s). rewrite Hm.
    split; [exact (SocPwm.spec_read s Hr)|]. split; [exact (SocPwm.spec_range s Hr)|].
    split; [exact (SocPwm.spec_isEnabled s Hr)|done].
  - destruct (exec_step o s Hr Ht Hm Ho) as (s1 & H1 & Hr1 & Hb & Hv & Hoth & Ht1).
    destruct (IH s1 Hr1 Ht1) as (s' & H2 & Hv' & Hrd & Hrg & Hen & Hoth'); [by rewrite Hb|].
    exists s'. split_and!; try done; [|by rewrite Hv', Hv|by rewrite Hoth', Hoth].
    cbn [run foldr]. by rewrite (M_bind_ok _ _ _ _ _ _ _ _ H1).
Qed.
End Refinement.

(** C34: Setting the frequency of a Broadcom PWM, with a range of at least 1 and
    a positive frequency below 2^53 Hz, terminates, whatever the clock generator
    was doing, once the fuel covers the time the generator takes to stop or
    start; the clock then runs with the least divisor of 2..4095 whose frequency
    does not exceed the one asked for, or with 4095 when no smaller one does, and
    then the frequency may exceed it; the divisor is exact although it is
    computed in floating point, the function returns the frequency that results
    and no register of the PWM block has changed. *)
Theorem bcm_pwm_setFrequency_exact (is2711 : bool) (g f : Z) (fuel : nat) (s : eng) :
  let c := config_of is2711 g in
  let r := preg (rngReg c) s in
  ready s -> 1 <= r -> 0 < f < 2 ^ 53 -> settle_max < Z.of_nat fuel -> (0 < fuel)%nat ->
  exists s' D, setFrequency c fuel f s = (Ok (clkFreq c / D / r), s') /\ divisor s' = D /\
    2 <= D <= 4095 /\ (D < 4095 -> clkFreq c <= f * r * D) /\ (2 < D -> f * r * (D - 1) < clkFreq c) /\
    test (creg CM_PWMCTL s') BUSY = true /\ forall o, is_reg o = true -> preg o s' = preg o s.
Proof.
  cbn zeta. intros Hr Hrng Hf Hfuel Hf0. set (c := config_of is2711 g) in *. set (r := preg (rngReg c) s) in *.
  destruct (setClockDivisor_spec fuel ((clkFreq c + f * r - 1) / (f * r)) s Hr Hfuel Hf0)
    as (s' & Hs & Hr' & _ & Hd & Hp & Hb).
  pose proof (clamp_divisor_bound ((clkFreq c + f * r - 1) / (f * r))) as Hcl.
  assert (Hreg : preg (rngReg c) s' = r) by (apply Hp, config_regs).
  exists s', (divisor s'). split_and!; try done; try lia.
  - unfold setFrequency. rewrite (proj2 (Z.ltb_lt 0 f)) by lia.
    erewrite (M_bind_ok _ _ _ (_ ≫= _)); [|erewrite M_bind_ok by (by apply frequencyDivisor_exact); exact Hs].
    unfold c. rewrite frequency_eq; fold c; [by rewrite Hreg|done|lia|rewrite Hreg; lia].
  - rewrite Hd. apply clamp_divisor_least. nia.
  - rewrite Hd. apply clamp_divisor_least. nia.
Qed.
End Proofs.

(** ** A chip whose clock takes 150 microseconds to stop and to start *)
Module Demo.
Lemma mask_word x o : 0 <= Z.land x (reg_mask o) < 2 ^ 32.
Proof.
  assert (H : 0 <= reg_mask o < 2 ^ 32) by (unfold reg_mask; by destruct (o =? CTL)).
  split; [apply Z.land_nonneg; lia|]. apply bits_bound; [lia|apply Z.land_nonneg; lia|].
  intros n Hn. rewrite Z.land_spec, (testbit_high (reg_mask o) 32 n) by lia. apply andb_false_r.
Qed.

Definition pwm_block : Device := {|
  hw := Z -> Z;
  hw_read o s := Z.land (s o) (reg_mask o);
  hw_write o v s := fun x => if x =? o then v else s x;
  hw_word o s := mask_word (s o) o |}.

#[export] Instance pwm_block_ok : BcmPwmRegs pwm_block.
Proof.
  constructor; cbn.
  - intros o o' v s _ _. by destruct (o =? o').
  - intros o s _. by rewrite <- Z.land_assoc, Z.land_diag.
Qed.

Record cm : Type := mk_cm { cm_div : Z; cm_en : bool; cm_busy : bool; cm_left : Z }.
Definition busy_now (s : cm) : bool := if cm_left s <=? 0 then cm_en s else cm_busy s.
Definition cm_read (o : Z) (s : cm) : Z :=
  if o =? CM_PWMDIV then cm_div s mod 2 ^ 24
  else if o =? CM_PWMCTL then (if busy_now s then 128 else 0) + (if cm_en s then 16 else 0) else 0.
Definition cm_write (o v : Z) (s : cm) : cm :=
  if negb (Z.shiftr v 24 =? 0x5A) then s
  else if o =? CM_PWMDIV then mk_cm v (cm_en s) (cm_busy s) (cm_left s)
  else if o =? CM_PWMCTL then mk_cm (cm_div s) (Z.testbit v 4) (busy_now s) 150 else s.

Lemma cm_word o s : 0 <= cm_read o s < 2 ^ 32.
Proof.
  unfold cm_read. pose proof (Z.mod_pos_bound (cm_div s) (2 ^ 24) ltac:(lia)).
  case_bool; [lia|destruct (busy_now s), (cm_en s); lia|lia].
Qed.
Definition clock_block : Device := {| hw := cm; hw_read := cm_read; hw_write := cm_write; hw_word := cm_word |}.
#[export] Instance clock_timed : Timed clock_block := {
  tick d s := mk_cm (cm_div s) (cm_en s) (busy_now s) (Z.max 0 (cm_left s - d)) }.
#[export] Instance clock_ok : ClockManager clock_block clock_timed.
Proof.
  refine {| settle_max := 150; settle := (cm_left : @hw clock_block -> Z); enabled := (cm_en : @hw clock_block -> bool) |}; cbn; try done.
  - intros s Hs. unfold cm_read, busy_now. cbn. rewrite (proj2 (Z.leb_le _ _) Hs). by destruct (cm_en s).
  - intros v s _ Hp. unfold cm_write. rewrite Hp. by split_and!.
  - intros v s _ Hp. unfold cm_write. rewrite Hp. by split_and!.
Defined.

Definition page {D : Device} (r : hw) : io (O := IoMap.with_mmap) (D := D) :=
  mk_io (IoMap.mk_iomap 0 MapBlockSize 4 IoMap.Mapped (tt : @os IoMap.with_mmap)) r.
Definition chip : engine (O := IoMap.with_mmap) (DP := pwm_block) (DC := clock_block) :=
  mk_engine (IoDevice.mk_iodevice IoDevice.ReadWrite false 0 IoDevice.NoText)
    (page ((fun o => if o =? RNG1 then 1024 else 0) : @hw pwm_block))
    (page (mk_cm 0 true true 0 : @hw clock_block)).

Lemma bcm_chip_ready : ready chip.
Proof. by split. Qed.

Lemma bcm_pwm_setFrequency_exact_witness :
  exists s' D, setFrequency (config_of false 18) 200 1000 chip = (Ok (19200000 / D / 1024), s') /\ divisor s' = D /\
    2 <= D <= 4095 /\ (D < 4095 -> 19200000 <= 1000 * 1024 * D) /\ (2 < D -> 1000 * 1024 * (D - 1) < 19200000).
Proof.
  destruct (bcm_pwm_setFrequency_exact false 18 1000 200 chip bcm_chip_ready) as (s' & D & H1 & H2 & H3 & H4 & H5 & _);
    [vm_compute; discriminate|lia|vm_compute; reflexivity|lia|].
  exists s', D. split; [exact H1|]. split; [exact H2|]. split; [exact H3|]. split; [exact H4|exact H5].
Defined.

Definition calls : list call :=
  [Public (SocPwm.SetResolution 8); Public (SocPwm.Write 300); SetFrequency 1000; Public (SocPwm.Enable true)].
Lemma bcm_pwm_refines_witness :
  exists s', run false 18 200 calls chip = (Ok tt, s') /\
    view false 18 s' = foldl (fun p o => after 19200000 o p) (view false 18 chip) calls /\
    others false 18 s' = others false 18 chip.
Proof.
  destruct (bcm_pwm_refines (O := IoMap.with_mmap) (RP := pwm_block_ok) (RC := clock_ok) false 18 200 eq_refl
    ltac:(lia) calls chip bcm_chip_ready)
    as (s' & H1 & H2 & _ & _ & _ & H3).
  - vm_compute. discriminate.
  - reflexivity.
  - repeat constructor; vm_compute; discriminate || reflexivity.
  - exists s'. split; [exact H1|]. split; [exact H2|exact H3].
Defined.

(** A resolution of 8 bits, the value clamped to it, 1 kHz and the output on. *)
Lemma bcm_calls_end : foldl (fun p o => after 19200000 o p) (view false 18 chip) calls = mk_channel 255 256 true 75.
Proof. vm_compute. reflexivity. Qed.

(** What the driver does on it: divisor 19 and so 986 Hz. *)
Lemma bcm_chip_runs : (setFrequency (config_of false 18) 200 1000 chip).1 = Ok 986.
Proof. vm_compute. reflexivity. Qed.
End Demo.
End PwmBcm.
