(* ===== verification/PwmHx.v ===== *)
(** * The PWM engine of the Allwinner H3 and H5, pwm_hx.cpp

    One channel, with a control register and a period register that holds the
    range in its upper half and the value in its lower half.  The clock has
    eleven divisors, and the driver looks for the one whose frequency is nearest
    to the frequency asked for. *)
From S2P Require Import Prelude Double IoDevice Mmio SocPwm.
Import Flags Mmio.

Module PwmHx.

Definition PWM_CH_CTRL : Z := 0x100.
Definition PWM_CH0_PERIOD : Z := 0x101.
Definition PWM_CH0_PRESCAL_MASK : Z := 0xF.
Definition PWM_CH0_EN : Z := Z.shiftl 1 4.
Definition PWM_CH0_ACT_STA : Z := Z.shiftl 1 5.
Definition SCLK_CH0_GATING : Z := Z.shiftl 1 6.
Definition PWM_CHANNEL0_MODE : Z := Z.shiftl 1 7.
Definition PWM0_BYPASS : Z := Z.shiftl 1 9.
Definition PWM0_RDY : Z := Z.shiftl 1 28.
Definition PLL_CLOCK_FREQ : Z := 24000000.
Definition PLL_CLOCK_DIVISOR_MIN : Z := 1.
Definition PLL_CLOCK_DIVISOR_MAX : Z := 72000.
Definition Io1Base : Z := 0x01C20000.
Definition PwmOffset : Z := 0x1000.
Definition pageSize : Z := 4096.

(** In the order of the keys, which is the order of iteration. *)
Definition divisorMap : list (Z * Z) :=
  [(1, 15); (120, 0); (180, 1); (240, 2); (360, 3); (480, 4); (12000, 8); (24000, 9); (36000, 10);
   (48000, 11); (72000, 12)].

Section Engine.
Context {O : MapOs} {D : Device}.

Record engine : Type := mk_engine { base : IoDevice.iodevice; pwm : io }.
Definition set_base (b : IoDevice.iodevice) (s : engine) : engine := mk_engine b (pwm s).
Definition set_pwm (p : io) (s : engine) : engine := mk_engine (base s) p.

Definition readReg (offset : Z) : M engine Z := zoom pwm set_pwm (atomicRead offset).
Definition writeReg (offset value : Z) : M engine unit := zoom pwm set_pwm (atomicWrite offset value).
Definition pwm_map {A} (m : M IoMap.iomap A) : M engine A := zoom pwm set_pwm (zoom im set_im m).

(** [SocPwm::Private::open] is that of [IoDevice::Private]. *)
Definition base_open (m : Z) : M engine bool := fun s =>
  let '(r, b) := IoDevice.popen m (base s) in (Ok r, set_base b s).

Definition open (m : Z) : M engine bool :=
  p ← pwm_map (IoMap.open (Io1Base + PwmOffset) pageSize);
  if (p : bool) then
    ctl ← readReg PWM_CH_CTRL;
    let ctl := Z.land ctl (u32 (Z.lnot (Z.lor (Z.lor PWM0_RDY PWM0_BYPASS) PWM_CHANNEL0_MODE))) in
    let ctl := Z.lor ctl PWM_CH0_ACT_STA in
    writeReg PWM_CH_CTRL ctl;;
    r ← readReg PWM_CH_CTRL;
    if ctl =? Z.land r (u32 (Z.lnot PWM0_RDY)) then base_open m else mret false
  else mret false.

Definition close : M engine unit :=
  pwm_map IoMap.close;; modify (fun s => set_base (IoDevice.pclose (base s)) s).

Definition period : M engine Z := readReg PWM_CH0_PERIOD.
Definition setPeriod (p : Z) : M engine bool := writeReg PWM_CH0_PERIOD p;; mret true.
Definition value : M engine Z := p ← period; mret (Z.land p 0xFFFF).
(** The argument is a [uint16_t]. *)
Definition setValue (v : Z) : M engine bool :=
  p ← period; setPeriod (Z.lor (Z.land p (u32 (Z.lnot 0xFFFF))) (u16 v)).

Definition read : M engine Z := value.
Definition write (v : Z) : M engine bool := setValue v.

Definition enable_bits : Z := Z.lor PWM_CH0_EN SCLK_CH0_GATING.
Definition setEnable (enable : bool) : M engine unit :=
  ctl ← readReg PWM_CH_CTRL;
  writeReg PWM_CH_CTRL (if enable then Z.lor ctl enable_bits else Z.land ctl (u32 (Z.lnot enable_bits))).
Definition isEnabled : M engine bool :=
  ctl ← readReg PWM_CH_CTRL; mret (Z.land ctl enable_bits =? enable_bits).

Definition range : M engine Z :=
  p ← period; let r := Z.shiftr p 16 in mret (if r =? 0 then 0 else r + 1).
Definition max : M engine Z := r ← range; mret (r - 1).
Definition min : M engine Z := mret 0.

(** A [bool] that is returned as a [long] is 0 or 1. *)
Definition setRange (r : Z) : M engine Z :=
  let r := if r <? 2 then 2 else r in
  let r := Z.land r 0xFFFF in
  p ← period;
  ok ← setPeriod (Z.lor (Z.land p (u32 (Z.lnot 0xFFFF0000))) (u32 (Z.shiftl (u32 (r - 1)) 16)));
  if (ok : bool) then
    v ← value; mx ← max;
    if mx <? v then mx ← max; ok ← setValue mx; mret (Z.b2z ok) else range
  else mret (-1).

(** The loop of [clockDivisor]. *)
Fixpoint find_bits (m : list (Z * Z)) (divBits : Z) : Z :=
  match m with
  | [] => 0
  | (d, b) :: m => if b =? divBits then d else find_bits m divBits
  end.
Definition clockDivisor : M engine Z :=
  ctl ← readReg PWM_CH_CTRL; mret (find_bits divisorMap (u8 (Z.land ctl PWM_CH0_PRESCAL_MASK))).

(** Unsigned divisions; a range of 0 is undefined. *)
Definition divisorFrequency (divisor : Z) : M engine Z :=
  r ← range; if (divisor =? 0) || (r =? 0) then throw UB else mret (PLL_CLOCK_FREQ / divisor / r).

Definition frequency : M engine Z :=
  d ← clockDivisor; r ← range;
  let r := u16 r in
  mret (if negb (d =? 0) && negb (r =? 0) then PLL_CLOCK_FREQ / d / r else 0).

(** The loop of [findValidDivisor] over the rest of the map. *)
Fixpoint nearest (fTarget : Z) (m : list (Z * Z)) (ret delta : Z) : M engine Z :=
  match m with
  | [] => mret ret
  | (d, _) :: m =>
      f ← divisorFrequency d;
      if Z.abs (fTarget - f) <? delta then nearest fTarget m d (Z.abs (fTarget - f))
      else nearest fTarget m ret delta
  end.

Definition findValidDivisor (div : Z) : M engine Z :=
  if negb (div =? 0) then
    match Pin.tab divisorMap div with
    | Some _ => mret div
    | None =>
        fTarget ← divisorFrequency div;
        match divisorMap with
        | [] => throw UB
        | (d, _) :: rest => f ← divisorFrequency d; nearest fTarget rest d (Z.abs (fTarget - f))
        end
    end
  else mret 0.

Definition when (b : bool) (m : M engine unit) : M engine unit := if b then m else mret tt.

Definition clamp_divisor (div : Z) : Z :=
  if div <? PLL_CLOCK_DIVISOR_MIN then PLL_CLOCK_DIVISOR_MIN
  else if PLL_CLOCK_DIVISOR_MAX <? div then PLL_CLOCK_DIVISOR_MAX else div.

Definition setClockDivisor (div : Z) : M engine unit :=
  div ← findValidDivisor (clamp_divisor div);
  previousState ← isEnabled;
  when previousState (setEnable false);;
  ctl ← readReg PWM_CH_CTRL;
  bits ← at_map (Pin.tab divisorMap div);
  writeReg PWM_CH_CTRL (Z.lor (Z.land ctl (u32 (Z.lnot PWM_CH0_PRESCAL_MASK))) bits);;
  when previousState (setEnable previousState).

Definition frequencyDivisor (freq : Z) : M engine Z :=
  r ← range;
  match dbl_ceil_to 64 (dbl_div (dbl_div (dbl_int PLL_CLOCK_FREQ) (dbl_int freq)) (dbl_int r)) with
  | Some v => findValidDivisor v
  | None => throw UB
  end.

Definition setFrequency (f : Z) : M engine Z :=
  if 0 <? f then d ← frequencyDivisor f; setClockDivisor d;; frequency else mret 0.

End Engine.

(** ** The registers *)
(** The control bits of the cycle mode hold what is written, and so does the
    period. *)
Definition reg_mask (o : Z) : Z := if o =? PWM_CH_CTRL then 0x2FF else Z.ones 32.
Definition is_reg (o : Z) : bool := (o =? PWM_CH_CTRL) || (o =? PWM_CH0_PERIOD).

Class HxPwmRegs (D : Device) : Prop := {
  hx_reg_write : forall o o' v s, is_reg o = true -> 0 <= v < 2 ^ 32 ->
    Z.land (hw_read o (hw_write o' v s)) (reg_mask o) =
    if o =? o' then Z.land v (reg_mask o) else Z.land (hw_read o s) (reg_mask o) }.

(** ** The engine on open registers *)
Section Proofs.
Context {O : MapOs} {D : Device} {R : HxPwmRegs D}.

Definition ready (s : engine) : Prop := IoMap.window (im (pwm s)) = pageSize.
Definition preg (o : Z) (s : engine) : Z := hw_read o (regs (pwm s)).
(** Some control bits, the value and the range. *)
Definition cbits (k : Z) (s : engine) : Z := Z.land (preg PWM_CH_CTRL s) k.
Definition duty_of (s : engine) : Z := field (preg PWM_CH0_PERIOD s) 0 16.
Definition top_of (s : engine) : Z :=
  let r := field (preg PWM_CH0_PERIOD s) 16 16 in if r =? 0 then 0 else r + 1.
Definition is_on (s : engine) : bool := cbits enable_bits s =? enable_bits.
Definition put (o v : Z) (s : engine) : engine := set_pwm (set_regs (hw_write o v (regs (pwm s))) (pwm s)) s.

Lemma hx_page o s : ready s -> 0 <= o < 1024 -> in_window o (pwm s) = true.
Proof. unfold ready, pageSize. intros Hr Ho. apply in_window_ok; lia. Qed.
Lemma readReg_eq o s : ready s -> 0 <= o < 1024 -> readReg o s = (Ok (preg o s), s).
Proof. intros Hr Ho. unfold readReg, zoom, atomicRead. rewrite hx_page by done. by destruct s. Qed.
Lemma readReg_bind {A} (k : Z -> M engine A) o s : ready s -> 0 <= o < 1024 -> (readReg o ≫= k) s = k (preg o s) s.
Proof. intros. by apply M_bind_ok, readReg_eq. Qed.
Lemma writeReg_eq o v s : ready s -> 0 <= o < 1024 -> 0 <= v < 2 ^ 32 -> writeReg o v s = (Ok tt, put o v s).
Proof. intros Hr Ho Hv. unfold writeReg, zoom. by rewrite atomicWrite_ok by (try apply hx_page; done). Qed.
Lemma writeReg_bind {A} (k : unit -> M engine A) o v s : ready s -> 0 <= o < 1024 -> 0 <= v < 2 ^ 32 ->
  (writeReg o v ≫= k) s = k tt (put o v s).
Proof. intros. by apply M_bind_ok, writeReg_eq. Qed.

(** Writing the control register, and writing the period. *)
Lemma put_land o o' v s : is_reg o = true -> 0 <= v < 2 ^ 32 ->
  Z.land (preg o (put o' v s)) (reg_mask o) = Z.land (if o =? o' then v else preg o s) (reg_mask o).
Proof. intros Ho Hv. unfold preg. cbn. rewrite hx_reg_write by done. by destruct (o =? o'). Qed.
Lemma put_period_reg o v s : 0 <= v < 2 ^ 32 ->
  preg PWM_CH0_PERIOD (put o v s) = if PWM_CH0_PERIOD =? o then v else preg PWM_CH0_PERIOD s.
Proof.
  intros Hv. pose proof (put_land PWM_CH0_PERIOD o v s eq_refl Hv) as H.
  change (reg_mask PWM_CH0_PERIOD) with (Z.ones 32) in H. rewrite !Z.land_ones in H by lia.
  rewrite !Z.mod_small in H; [done|destruct (_ =? _); [done|apply hw_word]|apply hw_word].
Qed.
Lemma put_cbits o v k s : 0 <= v < 2 ^ 32 -> Z.land 0x2FF k = k ->
  cbits k (put o v s) = if PWM_CH_CTRL =? o then Z.land v k else cbits k s.
Proof.
  intros Hv Hk. pose proof (put_land PWM_CH_CTRL o v s eq_refl Hv) as H.
  change (reg_mask PWM_CH_CTRL) with 0x2FF in H. unfold cbits. rewrite <- Hk, !Z.land_assoc, H.
  by destruct (_ =? _).
Qed.

Lemma period_field s : Z.shiftr (preg PWM_CH0_PERIOD s) 16 = field (preg PWM_CH0_PERIOD s) 16 16 /\
  Z.land (preg PWM_CH0_PERIOD s) 0xFFFF = duty_of s.
Proof.
  pose proof (hw_word PWM_CH0_PERIOD (regs (pwm s))) as Hw. fold (preg PWM_CH0_PERIOD s) in Hw.
  unfold duty_of, field. rewrite Z.shiftr_0_r. split; [|done]. rewrite Z.land_ones by lia. symmetry. apply Z.mod_small.
  rewrite Z.shiftr_div_pow2 by lia. split; [apply Z.div_pos; lia|apply Z.div_lt_upper_bound; lia].
Qed.

Lemma value_eq s : ready s -> value s = (Ok (duty_of s), s).
Proof.
  intros Hr. unfold value, period. rewrite readReg_bind by (done || (unfold PWM_CH0_PERIOD; lia)).
  by rewrite (proj2 (period_field s)).
Qed.
Lemma hx_range_eq s : ready s -> range s = (Ok (top_of s), s).
Proof.
  intros Hr. unfold range, period. rewrite readReg_bind by (done || (unfold PWM_CH0_PERIOD; lia)).
  by rewrite (proj1 (period_field s)).
Qed.
Lemma hx_range_bind {A} (k : Z -> M engine A) s : ready s -> (range ≫= k) s = k (top_of s) s.
Proof. intros. by apply M_bind_ok, hx_range_eq. Qed.
Lemma max_eq s : ready s -> max s = (Ok (top_of s - 1), s).
Proof. intros Hr. unfold max. by rewrite hx_range_bind. Qed.

Lemma top_bound s : 0 <= top_of s <= 65536.
Proof.
  pose proof (field_bound (preg PWM_CH0_PERIOD s) 16 16 ltac:(lia)). unfold top_of. case_bool; lia.
Qed.

(** The state after the period register was given a new value or range field. *)
Definition with_duty (v : Z) (s : engine) : engine := put PWM_CH0_PERIOD (set_field (preg PWM_CH0_PERIOD s) 0 16 v) s.
Definition with_top (r : Z) (s : engine) : engine := put PWM_CH0_PERIOD (set_field (preg PWM_CH0_PERIOD s) 16 16 (r - 1)) s.

Lemma with_duty_spec v s : 0 <= v < 2 ^ 16 ->
  duty_of (with_duty v s) = v /\ top_of (with_duty v s) = top_of s /\
  forall k, Z.land 0x2FF k = k -> cbits k (with_duty v s) = cbits k s.
Proof.
  intros Hv. pose proof (hw_word PWM_CH0_PERIOD (regs (pwm s))) as Hw.
  assert (Hb : 0 <= set_field (preg PWM_CH0_PERIOD s) 0 16 v < 2 ^ 32) by (apply set_field_bound; done || lia).
  unfold with_duty, duty_of, top_of. rewrite put_period_reg, Z.eqb_refl by done.
  rewrite field_set_same, field_set_other by lia. split_and!; [done..|]. intros k Hk. by rewrite put_cbits.
Qed.
Lemma with_top_spec r s : 2 <= r <= 65536 ->
  top_of (with_top r s) = r /\ duty_of (with_top r s) = duty_of s /\
  forall k, Z.land 0x2FF k = k -> cbits k (with_top r s) = cbits k s.
Proof.
  intros Hv. pose proof (hw_word PWM_CH0_PERIOD (regs (pwm s))) as Hw.
  assert (Hb : 0 <= set_field (preg PWM_CH0_PERIOD s) 16 16 (r - 1) < 2 ^ 32) by (apply set_field_bound; done || lia).
  unfold with_top, duty_of, top_of. rewrite put_period_reg, Z.eqb_refl by done.
  rewrite field_set_same, field_set_other by lia. split_and!; [case_bool; lia|done|]. intros k Hk. by rewrite put_cbits.
Qed.

Lemma setPeriod_eq p s : ready s -> 0 <= p < 2 ^ 32 -> setPeriod p s = (Ok true, put PWM_CH0_PERIOD p s).
Proof. intros. unfold setPeriod. by rewrite writeReg_bind by (done || (unfold PWM_CH0_PERIOD; lia)). Qed.

Lemma setValue_eq v s : ready s -> 0 <= v < 2 ^ 16 -> setValue v s = (Ok true, with_duty v s).
Proof.
  intros Hr Hv. unfold setValue, period. rewrite readReg_bind by (done || (unfold PWM_CH0_PERIOD; lia)).
  destruct (rmw_field (preg PWM_CH0_PERIOD s) 0 16 v) as [He Hb]; [apply hw_word|lia..|].
  rewrite Z.shiftl_0_r, Z.shiftl_0_r, (u32_small v) in He by lia. change (Z.ones 16) with 0xFFFF in He.
  rewrite u16_small by done. rewrite He. by apply setPeriod_eq.
Qed.

(** A range of 2..65536 is set; 65536 wraps to the field's largest value. *)
Lemma setRange_spec r s : ready s -> 2 <= r <= 65536 ->
  exists x, setRange r s = (Ok x, if r - 1 <? duty_of s then with_duty (r - 1) (with_top r s) else with_top r s).
Proof.
  intros Hr Hrr. unfold setRange, period. rewrite (proj2 (Z.ltb_ge r 2)) by lia.
  rewrite readReg_bind by (done || (unfold PWM_CH0_PERIOD; lia)).
  destruct (rmw_field (preg PWM_CH0_PERIOD s) 16 16 (r - 1)) as [He Hb]; [apply hw_word|lia..|].
  assert (Hu : u32 (Z.shiftl (u32 (Z.land r 0xFFFF - 1)) 16) = u32 (Z.shiftl (r - 1) 16)).
  { change 0xFFFF with (Z.ones 16). rewrite Z.land_ones, !Z.shiftl_mul_pow2 by lia. unfold u32.
    destruct (decide (r = 65536)) as [->|]; [done|]. rewrite (Z.mod_small r) by lia.
    by rewrite (Z.mod_small (r - 1)) by lia. }
  rewrite Hu. change (u32 (Z.lnot 0xFFFF0000)) with (u32 (Z.lnot (Z.shiftl (Z.ones 16) 16))). rewrite He.
  rewrite (M_bind_ok _ _ _ _ _ _ _ _ (setPeriod_eq _ _ Hr Hb)). fold (with_top r s).
  assert (Hr' : ready (with_top r s)) by done.
  destruct (with_top_spec r s Hrr) as (Ht & Hd & _).
  rewrite (M_bind_ok _ _ _ _ _ _ _ _ (value_eq _ Hr')), (M_bind_ok _ _ _ _ _ _ _ _ (max_eq _ Hr')).
  rewrite Ht, Hd. destruct (Z.ltb_spec (r - 1) (duty_of s)).
  - rewrite (M_bind_ok _ _ _ _ _ _ _ _ (max_eq _ Hr')), Ht.
    rewrite (M_bind_ok _ _ _ _ _ _ _ _ (setValue_eq (r - 1) _ Hr' ltac:(lia))). by eexists.
  - rewrite hx_range_eq by done. by eexists.
Qed.

(** ** Control bits *)
Lemma hx_ctrl_word x s : 0 <= Z.land (preg PWM_CH_CTRL s) (u32 x) < 2 ^ 32.
Proof.
  pose proof (hw_word PWM_CH_CTRL (regs (pwm s))) as Hw. fold (preg PWM_CH_CTRL s) in Hw.
  split; [apply Z.land_nonneg; lia|]. apply bits_bound; [lia|apply Z.land_nonneg; lia|].
  intros n Hn. by rewrite Z.land_spec, (testbit_high (preg PWM_CH_CTRL s) 32 n) by lia.
Qed.
Lemma hx_lor_word x y : 0 <= x < 2 ^ 32 -> 0 <= y < 2 ^ 32 -> 0 <= Z.lor x y < 2 ^ 32.
Proof.
  intros Hx Hy. split; [apply Z.lor_nonneg; lia|]. apply bits_bound; [lia|apply Z.lor_nonneg; lia|].
  intros n Hn. by rewrite Z.lor_spec, !(testbit_high _ 32 n) by lia.
Qed.

Lemma lor_absorb x e : Z.lor (Z.land x e) e = e.
Proof.
  apply Z.bits_inj'. intros n _. rewrite Z.lor_spec, Z.land_spec.
  by destruct (Z.testbit x n), (Z.testbit e n).
Qed.

(** The prescaler bits are not touched by the switch. *)
Lemma hx_setEnable_spec b s : ready s -> exists s', setEnable b s = (Ok tt, s') /\ ready s' /\ base s' = base s /\
  is_on s' = b /\ cbits 0xF s' = cbits 0xF s /\ preg PWM_CH0_PERIOD s' = preg PWM_CH0_PERIOD s.
Proof.
  intros Hr. unfold setEnable. rewrite readReg_bind by (done || (unfold PWM_CH_CTRL; lia)).
  set (ctl := if b then _ else _).
  assert (Hc : 0 <= ctl < 2 ^ 32).
  { unfold ctl. destruct b; [|apply hx_ctrl_word]. apply hx_lor_word; [apply hw_word|done]. }
  rewrite writeReg_eq by (done || (unfold PWM_CH_CTRL; lia)).
  exists (put PWM_CH_CTRL ctl s). split_and!; try done.
  - unfold is_on. rewrite put_cbits, Z.eqb_refl by done. unfold ctl. destruct b.
    + rewrite Z.land_lor_distr_l, Z.land_diag, lor_absorb. apply Z.eqb_refl.
    + rewrite <- Z.land_assoc. change (Z.land (u32 (Z.lnot enable_bits)) enable_bits) with 0. by rewrite Z.land_0_r.
  - rewrite put_cbits, Z.eqb_refl by done. unfold ctl, cbits. destruct b.
    + rewrite Z.land_lor_distr_l. change (Z.land enable_bits 15) with 0. apply Z.lor_0_r.
    + by rewrite <- Z.land_assoc.
  - by rewrite put_period_reg.
Qed.

(** ** The divisor *)
Definition freq_of (s : engine) (d : Z) : Z := PLL_CLOCK_FREQ / d / top_of s.
Definition divisors : list Z := divisorMap.*1.

Lemma divisors_bound d : d ∈ divisors -> 1 <= d <= 72000.
Proof.
  assert (Forall (fun d => 1 <= d <= 72000) divisors) as H by (unfold divisors; cbn; repeat (apply Forall_cons_2; [lia|]); apply Forall_nil_2).
  rewrite Forall_forall in H. apply H.
Qed.
Lemma divisors_tab d : d ∈ divisors <-> is_Some (Pin.tab divisorMap d).
Proof.
  unfold divisors. generalize divisorMap. intros m. induction m as [|[d' b] m IH]; cbn.
  - split; [intros H; by apply not_elem_of_nil in H|by intros []].
  - rewrite elem_of_cons, IH. destruct (decide (d' = d)) as [->|]; naive_solver.
Qed.

Lemma divisorFrequency_bind {A} (k : Z -> M engine A) d s : ready s -> d <> 0 -> top_of s <> 0 ->
  (divisorFrequency d ≫= k) s = k (freq_of s d) s.
Proof.
  intros Hr Hd Ht. apply M_bind_ok. unfold divisorFrequency. rewrite hx_range_bind by done.
  by rewrite (proj2 (Z.eqb_neq _ _) Hd), (proj2 (Z.eqb_neq _ _) Ht).
Qed.

Lemma nearest_spec fT m ret s : ready s -> top_of s <> 0 -> Forall (fun d => d <> 0) m.*1 ->
  exists d, nearest fT m ret (Z.abs (fT - freq_of s ret)) s = (Ok d, s) /\ d ∈ ret :: m.*1 /\
    forall d', d' ∈ ret :: m.*1 -> Z.abs (fT - freq_of s d) <= Z.abs (fT - freq_of s d').
Proof.
  intros Hr Ht. revert ret. induction m as [|[d b] m IH]; intros ret Hm; cbn [nearest].
  - exists ret. split; [done|]. split; [by constructor|]. by intros d' ->%list_elem_of_singleton.
  - inversion_clear Hm as [|? ? Hd Hm']. rewrite divisorFrequency_bind by done.
    destruct (Z.ltb_spec (Z.abs (fT - freq_of s d)) (Z.abs (fT - freq_of s ret))).
    + destruct (IH d Hm') as (x & Hx & Hin & Hmin). exists x. split; [done|]. cbn. split; [set_solver|].
      intros d' [->|Hd']%elem_of_cons; [|by apply Hmin]. specialize (Hmin d ltac:(set_solver)). lia.
    + destruct (IH ret Hm') as (x & Hx & Hin & Hmin). exists x. split; [done|]. cbn. split; [set_solver|].
      intros d' [->|[->|Hd']%elem_of_cons]%elem_of_cons; [apply Hmin; set_solver| |apply Hmin; set_solver].
      specialize (Hmin ret ltac:(set_solver)). lia.
Qed.

(** The divisor found is one of the chip's, and none is nearer. *)
Lemma findValidDivisor_spec q s : ready s -> top_of s <> 0 -> 0 < q ->
  exists d, findValidDivisor q s = (Ok d, s) /\ d ∈ divisors /\ (q ∈ divisors -> d = q) /\
    forall d', d' ∈ divisors -> Z.abs (freq_of s q - freq_of s d) <= Z.abs (freq_of s q - freq_of s d').
Proof.
  intros Hr Ht Hq. unfold findValidDivisor. rewrite (proj2 (Z.eqb_neq q 0)) by lia. cbn [negb].
  destruct (Pin.tab divisorMap q) as [b|] eqn:E.
  - assert (q ∈ divisors) by (apply divisors_tab; eauto). exists q. split_and!; try done. intros d' _. lia.
  - rewrite divisorFrequency_bind by (done || lia). cbn [divisorMap].
    rewrite divisorFrequency_bind by done.
    destruct (nearest_spec (freq_of s q) (tail divisorMap) 1 s Hr Ht) as (d & Hd & Hin & Hmin).
    { cbn. repeat (apply Forall_cons_2; [discriminate|]). apply Forall_nil_2. }
    exists d. split; [exact Hd|]. split; [exact Hin|]. split; [|exact Hmin].
    intros Hc. apply divisors_tab in Hc. rewrite E in Hc. by destruct Hc.
Qed.

Lemma divisor_bits d : d ∈ divisors -> exists b, Pin.tab divisorMap d = Some b /\ 0 <= b < 16 /\ find_bits divisorMap b = d.
Proof.
  assert (Forall (fun d => exists b, Pin.tab divisorMap d = Some b /\ 0 <= b < 16 /\ find_bits divisorMap b = d) divisors) as H.
  { unfold divisors; cbn [divisorMap fmap list_fmap fst]. repeat (apply Forall_cons_2; [eexists; split; [reflexivity|]; split; [lia|reflexivity]|]). apply Forall_nil_2. }
  rewrite Forall_forall in H. apply H.
Qed.

Definition divisor_of (s : engine) : Z := find_bits divisorMap (cbits 0xF s).

(** A divisor of the chip is set, with the output off meanwhile and as it was
    afterwards. *)
Lemma hx_setClockDivisor_spec d s : ready s -> top_of s <> 0 -> d ∈ divisors ->
  exists s', setClockDivisor d s = (Ok tt, s') /\ ready s' /\ base s' = base s /\ divisor_of s' = d /\
    is_on s' = is_on s /\ preg PWM_CH0_PERIOD s' = preg PWM_CH0_PERIOD s.
Proof.
  intros Hr Ht Hd. pose proof (divisors_bound d Hd) as Hb. unfold setClockDivisor.
  assert (Hcl : clamp_divisor d = d).
  { unfold clamp_divisor, PLL_CLOCK_DIVISOR_MIN, PLL_CLOCK_DIVISOR_MAX. case_bool; lia. }
  destruct (findValidDivisor_spec d s Hr Ht ltac:(lia)) as (x & Hx & _ & Hq & _). specialize (Hq Hd). subst x.
  rewrite Hcl, (M_bind_ok _ _ _ _ _ _ _ _ Hx).
  rewrite (M_bind_ok _ _ _ _ _ _ (is_on s) s) by (unfold isEnabled; by rewrite readReg_bind by (done || (unfold PWM_CH_CTRL; lia))).
  assert (Hoff : exists s1, when (is_on s) (setEnable false) s = (Ok tt, s1) /\ ready s1 /\ base s1 = base s /\
    is_on s1 = false /\ preg PWM_CH0_PERIOD s1 = preg PWM_CH0_PERIOD s).
  { destruct (is_on s) eqn:E; [|by exists s].
    destruct (hx_setEnable_spec false s Hr) as (s1 & H1 & H2 & H3 & H4 & _ & H6). by exists s1. }
  destruct Hoff as (s1 & H1 & Hr1 & Hb1 & Ho1 & Hp1). rewrite (M_bind_ok _ _ _ _ _ _ _ _ H1).
  rewrite readReg_bind by (done || (unfold PWM_CH_CTRL; lia)).
  destruct (divisor_bits d Hd) as (b & Htab & Hb16 & Hf). rewrite Htab. cbn [at_map]. rewrite (M_bind_ok _ _ _ _ _ _ b s1 eq_refl).
  set (ctl := Z.lor _ b).
  assert (Hc : 0 <= ctl < 2 ^ 32) by (apply hx_lor_word; [apply hx_ctrl_word|lia]).
  rewrite writeReg_bind by (done || (unfold PWM_CH_CTRL; lia)).
  set (s2 := put PWM_CH_CTRL ctl s1).
  assert (Hb15 : Z.land b 15 = b) by (change 15 with (Z.ones 4); rewrite Z.land_ones by lia; apply Z.mod_small; lia).
  assert (H2 : cbits 0xF s2 = b /\ is_on s2 = false /\ preg PWM_CH0_PERIOD s2 = preg PWM_CH0_PERIOD s1).
  { unfold s2. rewrite put_period_reg by done. split_and!; [| |done].
    - rewrite put_cbits, Z.eqb_refl by done. unfold ctl. rewrite Z.land_lor_distr_l, <- Z.land_assoc.
      change (Z.land (u32 (Z.lnot PWM_CH0_PRESCAL_MASK)) 15) with 0. by rewrite Z.land_0_r, Hb15.
    - rewrite <- Ho1. unfold is_on. rewrite put_cbits, Z.eqb_refl by done. unfold ctl, cbits.
      rewrite Z.land_lor_distr_l, <- Z.land_assoc, <- Hb15, <- Z.land_assoc.
      change (Z.land 15 enable_bits) with 0. rewrite Z.land_0_r, Z.lor_0_r. done. }
  destruct H2 as (Hc2 & Ho2 & Hp2). destruct (is_on s) eqn:E; cbn [when].
  - destruct (hx_setEnable_spec true s2) as (s3 & H3 & Hr3 & Hb3 & Ho3 & Hc3 & Hp3); [done|].
    exists s3. unfold divisor_of. rewrite Hc3, Hc2, Hb3, Hp3, Hp2, Hp1. by split_and!.
  - exists s2. unfold divisor_of. rewrite Hc2, Hp2, Hp1. by split_and!.
Qed.

Lemma hx_frequency_eq s : ready s -> divisor_of s <> 0 -> top_of s <> 0 ->
  frequency s = (Ok (if top_of s =? 65536 then 0 else freq_of s (divisor_of s)), s).
Proof.
  intros Hr Hd Ht. pose proof (top_bound s) as Hb. unfold frequency, clockDivisor.
  assert (Hu : u8 (cbits 0xF s) = cbits 0xF s).
  { apply u8_small. unfold cbits. change 15 with (Z.ones 4). rewrite Z.land_ones by lia.
    pose proof (Z.mod_pos_bound (preg PWM_CH_CTRL s) (2 ^ 4) ltac:(lia)). lia. }
  erewrite (M_bind_ok _ _ _ (_ ≫= _)) by (rewrite readReg_bind by (done || (unfold PWM_CH_CTRL; lia)); reflexivity).
  rewrite hx_range_bind by done. change (find_bits divisorMap (u8 (Z.land _ _))) with (find_bits divisorMap (u8 (cbits 0xF s))).
  rewrite Hu. fold (divisor_of s). rewrite (proj2 (Z.eqb_neq _ _) Hd). cbn [negb andb]. unfold mret, M_ret. do 2 f_equal.
  destruct (Z.eqb_spec (top_of s) 65536) as [->|]; [done|].
  rewrite u16_small by lia. by rewrite (proj2 (Z.eqb_neq _ _) Ht).
Qed.

(** C38: Setting the frequency of an Allwinner PWM selects, among the eleven
    divisors of the clock, one that comes nearest to the frequency of the exact
    divisor, which is computed in floating point and is the rounded-up quotient
    of clock, frequency and range; the period register is not touched and the
    output is enabled afterwards exactly when it was before.  The frequency that
    results is returned, except for the largest range, 65536, where the function
    returns 0. *)
Theorem hx_pwm_setFrequency_nearest (f : Z) (s : engine) :
  let r := top_of s in let q := (PLL_CLOCK_FREQ + f * r - 1) / (f * r) in
  ready s -> r <> 0 -> 0 < f < 2 ^ 53 ->
  exists s' d, setFrequency f s = (Ok (if r =? 65536 then 0 else PLL_CLOCK_FREQ / d / r), s') /\
    d ∈ divisors /\ divisor_of s' = d /\ is_on s' = is_on s /\ preg PWM_CH0_PERIOD s' = preg PWM_CH0_PERIOD s /\
    forall d', d' ∈ divisors ->
      Z.abs (PLL_CLOCK_FREQ / q / r - PLL_CLOCK_FREQ / d / r) <= Z.abs (PLL_CLOCK_FREQ / q / r - PLL_CLOCK_FREQ / d' / r).
Proof.
  cbn zeta. intros Hr Ht Hf. pose proof (top_bound s) as Hb.
  set (q := (PLL_CLOCK_FREQ + f * top_of s - 1) / (f * top_of s)).
  assert (Hq : 1 <= q <= PLL_CLOCK_FREQ) by (apply ceil_div_bounds; unfold PLL_CLOCK_FREQ; lia).
  destruct (findValidDivisor_spec q s Hr Ht ltac:(lia)) as (d & Hd & Hin & _ & Hmin).
  destruct (hx_setClockDivisor_spec d s Hr Ht Hin) as (s' & Hs & Hr' & _ & Hdiv & Hon & Hp).
  assert (Hfd : frequencyDivisor f s = (Ok d, s)).
  { unfold frequencyDivisor. rewrite hx_range_bind by done.
    rewrite dbl_ceil_to_div by (unfold PLL_CLOCK_FREQ; lia). exact Hd. }
  exists s', d. split; [|by split_and!]. unfold setFrequency. rewrite (proj2 (Z.ltb_lt 0 f)) by lia.
  rewrite (M_bind_ok _ _ _ _ _ _ _ _ Hfd), (M_bind_ok _ _ _ _ _ _ _ _ Hs).
  assert (Htop : top_of s' = top_of s) by (unfold top_of; by rewrite Hp).
  pose proof (divisors_bound d Hin). rewrite hx_frequency_eq; [|done|lia|congruence].
  unfold freq_of. by rewrite Htop, Hdiv.
Qed.

(** The engine behind the interface of [SocPwm]. *)
#[export] Instance hx_engine : SocPwm.PwmEngine engine := {
  p_dev := base;
  p_read := read;
  p_write := write;
  p_range := range;
  p_max := max;
  p_min := min;
  p_setRange := setRange;
  p_setEnable := setEnable;
  p_isEnabled := isEnabled;
  p_frequency := frequency;
  p_setFrequency := setFrequency }.

Definition hx_abs (s : engine) : SocPwm.pwm := SocPwm.mk_pwm (duty_of s) (top_of s) (is_on s).

#[export] Instance hx_spec : SocPwm.PwmSpec engine hx_engine.
Proof.
  refine {| SocPwm.ready := ready; SocPwm.abs := hx_abs; SocPwm.range_max := 65536 |}; cbn.
  - apply value_eq.
  - apply hx_range_eq.
  - intros s Hr. split; [done|by apply max_eq].
  - intros s Hr. unfold isEnabled. by rewrite readReg_bind by (done || (unfold PWM_CH_CTRL; lia)).
  - intros s v Hr Hv. pose proof (top_bound s). exists (with_duty v s). split; [apply setValue_eq; [done|lia]|].
    split; [done|]. split; [|done]. destruct (with_duty_spec v s) as (H1 & H2 & H3); [lia|].
    unfold hx_abs, is_on. by rewrite H1, H2, H3.
  - intros s b Hr. destruct (hx_setEnable_spec b s Hr) as (s' & Hs & Hr' & Hb & Ho & _ & Hp).
    exists s'. split_and!; try done. unfold hx_abs, duty_of, top_of. by rewrite Ho, Hp.
  - intros s r Hr Hrr. destruct (setRange_spec r s Hr Hrr) as [x Hx].
    destruct (with_top_spec r s Hrr) as (T1 & T2 & T3). eexists _, x. split; [exact Hx|].
    unfold is_on. destruct (Z.ltb_spec (r - 1) (duty_of s)).
    + destruct (with_duty_spec (r - 1) (with_top r s)) as (H1 & H2 & H3); [lia|].
      rewrite H2, H3, T1, T3 by done. split_and!; try done. lia.
    + rewrite T1, T2, T3 by done. by split_and!.
Defined.
End Proofs.

(** ** A chip whose registers hold what is written *)
Module Demo.
Definition block : Device := {|
  hw := Z -> Z;
  hw_read o s := s o mod 2 ^ 32;
  hw_write o v s := fun x => if x =? o then v else s x;
  hw_word o s := u32_bound (s o) |}.
#[export] Instance block_ok : HxPwmRegs block.
Proof.
  constructor. cbn. intros o o' v s _ Hv. destruct (o =? o'); [|done]. by rewrite Z.mod_small.
Qed.

Definition chip : engine (O := IoMap.with_mmap) (D := block) :=
  mk_engine (IoDevice.mk_iodevice IoDevice.ReadWrite false 0 IoDevice.NoText)
    (mk_io (IoMap.mk_iomap 0 pageSize 4 IoMap.Mapped (tt : @os IoMap.with_mmap))
       ((fun o => if o =? PWM_CH0_PERIOD then 0x03FF0080 else 0x50) : @hw block)).

Lemma hx_pwm_setFrequency_nearest_witness :
  exists s' d, setFrequency 100 chip = (Ok (24000000 / d / 1024), s') /\ d ∈ divisors /\ divisor_of s' = d /\
    forall d', d' ∈ divisors -> Z.abs (24000000 / 235 / 1024 - 24000000 / d / 1024) <= Z.abs (24000000 / 235 / 1024 - 24000000 / d' / 1024).
Proof.
  destruct (hx_pwm_setFrequency_nearest 100 chip eq_refl) as (s' & d & H1 & H2 & H3 & _ & _ & H4);
    [vm_compute; discriminate|lia|].
  exists s', d. split; [exact H1|]. split; [exact H2|]. split; [exact H3|exact H4].
Defined.

(** 100 Hz on a range of 1024: the nearest divisor is 240. *)
Lemma hx_chip_runs : (setFrequency 100 chip).1 = Ok 97 /\ divisor_of (setFrequency 100 chip).2 = 240.
Proof. split; vm_compute; reflexivity. Qed.

(** A range of 65537 is taken for 1 and leaves a range of 0 and a full value;
    and when the value had to be lowered the range returned is 1. *)
Lemma setRange_edges :
  (setRange 65537 chip).1 = Ok 1 /\ top_of (setRange 65537 chip).2 = 0 /\ duty_of (setRange 65537 chip).2 = 65535 /\
  (setRange 100 chip).1 = Ok 1 /\ top_of (setRange 100 chip).2 = 100.
Proof. split_and!; vm_compute; reflexivity. Qed.
End Demo.
End PwmHx.
