(* ===== verification/PwmRp1.v ===== *)
(** * The PWM engine of the Raspberry Pi 5, pwm_rp1.cpp

    Four channels in one register block, and one mapping that all engines share:
    it is opened by the first engine that opens and released when the last
    engine is destroyed.  [shared] holds the static members, [engine] the members
    of one object. *)
From S2P Require Import Prelude Double IoDevice Mmio.
Import Flags Mmio.

Module PwmRp1.

Definition PCIeBlockSize : Z := 0x00400000.
Definition ClockOffset : Z := (0x40018000 - 0x40000000) / 4.
Definition Pwm0Offset : Z := (0x40098000 - 0x40000000) / 4.
Definition PwmGlobalCtrlReg : Z := 0x00 / 4.
Definition PwmChanBlockBase : Z := 0x14 / 4.
Definition PwmChanBlockSize : Z := 0x10 / 4.
Definition PwmChanCtrlReg : Z := 0.
Definition PwmChanRangeReg : Z := 1.
Definition PwmChanDutyReg : Z := 3.
Definition PwmGlobalCtrlSetUpdate : Z := 2 ^ 31.
Definition TrailingEdgeMsMode : Z := 0x01.
Definition PwmChanCtrlFifoPopMask : Z := 2 ^ 8.
Definition PwmClkOscFreq : Z := 50000000.
Definition Pwm0ClkCtrlReg : Z := 0x74 / 4.
Definition Pwm0ClkDivIntReg : Z := 0x78 / 4.
Definition Pwm0ClkDivFracReg : Z := 0x7C / 4.
Definition Pwm0SelReg : Z := 0x80 / 4.
Definition PwmClkCtrlMagicDisable : Z := 0x10000000.
Definition PwmClkCtrlMagicEnable : Z := 0x11000840.
Definition PwmClkDivIntMin : Z := 1.
Definition PwmClkDivIntMax : Z := 4095.

Section Engine.
Context {O : MapOs} {D : Device}.

(** The static members; a pointer into the mapping is the word it is at. *)
Record shared : Type := mk_shared { clock : option Z; instanceCount : Z; iomap : io }.
Record engine : Type := mk_engine { base : IoDevice.iodevice; pwm : option Z; channel : Z }.

(** One engine and what it shares with the others. *)
Record st : Type := mk_st { sh : shared; eng : engine }.

Definition set_io (m : io) (s : st) : st := mk_st (mk_shared (clock (sh s)) (instanceCount (sh s)) m) (eng s).
Definition set_clock (c : option Z) (s : st) : st := mk_st (mk_shared c (instanceCount (sh s)) (iomap (sh s))) (eng s).
Definition set_pwm (p : option Z) (s : st) : st := mk_st (sh s) (mk_engine (base (eng s)) p (channel (eng s))).
Definition set_base (b : IoDevice.iodevice) (s : st) : st := mk_st (sh s) (mk_engine b (pwm (eng s)) (channel (eng s))).
Definition the_io (s : st) : io := iomap (sh s).
Definition on_map {A} (m : M IoMap.iomap A) : M st A := zoom the_io set_io (zoom im set_im m).

(** The constructor, after the pin has been put in PWM mode. *)
Definition channel_of (mcuNumber : Z) : option Z :=
  if mcuNumber =? 12 then Some 0 else if mcuNumber =? 13 then Some 1
  else if mcuNumber =? 18 then Some 2 else if mcuNumber =? 19 then Some 3 else None.
Definition new (mcuNumber : Z) (g : shared) : outcome engine * shared :=
  match channel_of mcuNumber with
  | Some c => (Ok (mk_engine IoDevice.new None c), mk_shared (clock g) (instanceCount g + 1) (iomap g))
  | None => (Throw RuntimeError, g)
  end.

(** The destructor. *)
Definition delete (g : shared) : outcome unit * shared :=
  let g := mk_shared (clock g) (instanceCount g - 1) (iomap g) in
  if (instanceCount g =? 0) && IoMap.isOpen (im (iomap g)) then
    match IoMap.close (im (iomap g)) with
    | (Ok _, m) => (Ok tt, mk_shared None (instanceCount g) (set_im m (iomap g)))
    | (Throw e, m) => (Throw e, mk_shared (clock g) (instanceCount g) (set_im m (iomap g)))
    end
  else (Ok tt, g).

(** [open]; [findPCIeDevice] returns the file of the device or an empty string. *)
Definition map_shared (findPCIeDevice : string) : M st bool :=
  o ← gets (fun s => IoMap.isOpen (im (the_io s)));
  if (o : bool) then mret true
  else if bool_decide (findPCIeDevice = EmptyString) then throw (SystemError IoDevice.ENODEV)
  else ok ← on_map (IoMap.open_device findPCIeDevice PCIeBlockSize 0);
       if (ok : bool) then modify (set_clock (Some ClockOffset));; mret true else mret false.
Definition base_open (m : Z) : M st bool := fun s =>
  let '(r, b) := IoDevice.popen m (base (eng s)) in (Ok r, set_base b s).
Definition open (findPCIeDevice : string) (m : Z) : M st bool :=
  ok ← map_shared findPCIeDevice;
  if (ok : bool) then
    modify (set_pwm (Some Pwm0Offset));; base_open m
  else mret false.

Definition close : M st unit :=
  modify (set_pwm None);; modify (fun s => set_base (IoDevice.pclose (base (eng s))) s).

(** Accesses through the two pointers. *)
Definition readPwm (offset : Z) : M st Z :=
  p ← gets (fun s => pwm (eng s));
  match p with None => throw UB | Some b => zoom the_io set_io (atomicRead (b + offset)) end.
Definition writePwm (offset value : Z) : M st unit :=
  p ← gets (fun s => pwm (eng s));
  match p with None => throw UB | Some b => zoom the_io set_io (atomicWrite (b + offset) value) end.
Definition readClock (offset : Z) : M st Z :=
  p ← gets (fun s => clock (sh s));
  match p with None => throw UB | Some b => zoom the_io set_io (atomicRead (b + offset)) end.
Definition writeClock (offset value : Z) : M st unit :=
  p ← gets (fun s => clock (sh s));
  match p with None => throw UB | Some b => zoom the_io set_io (atomicWrite (b + offset) value) end.

Definition chan_reg (c k : Z) : Z := PwmChanBlockBase + PwmChanBlockSize * c + k.
Definition dataReg : M st Z := gets (fun s => chan_reg (channel (eng s)) PwmChanDutyReg).
Definition rngReg : M st Z := gets (fun s => chan_reg (channel (eng s)) PwmChanRangeReg).
Definition ctlReg : M st Z := gets (fun s => chan_reg (channel (eng s)) PwmChanCtrlReg).
Definition BIT_channel : M st Z := gets (fun s => Z.shiftl 1 (channel (eng s))).

Definition read : M st Z := r ← dataReg; readPwm r.
Definition write (value : Z) : M st bool := r ← dataReg; writePwm r value;; mret true.

Definition chan_on : Z := Z.lor TrailingEdgeMsMode PwmChanCtrlFifoPopMask.
Definition setEnable (enable : bool) : M st unit :=
  ctl ← readPwm PwmGlobalCtrlReg; b ← BIT_channel; r ← ctlReg;
  if enable then
    let ctl := Z.lor ctl (Z.lor b PwmGlobalCtrlSetUpdate) in
    writePwm r chan_on;; writePwm PwmGlobalCtrlReg ctl
  else
    writePwm r 0;;
    let ctl := Z.lor (Z.land ctl (u32 (Z.lnot b))) PwmGlobalCtrlSetUpdate in
    writePwm PwmGlobalCtrlReg ctl.
Definition isEnabled : M st bool :=
  r ← ctlReg; c ← readPwm r; b ← BIT_channel;
  if c =? chan_on then g ← readPwm PwmGlobalCtrlReg; mret (Z.land g b =? b) else mret false.

Definition range : M st Z := r ← rngReg; readPwm r.
Definition max : M st Z := r ← range; mret (r + 1).
Definition min : M st Z := mret 0.
Definition setRange (r : Z) : M st Z := g ← rngReg; writePwm g r;; range.

Definition clockDivisor : M st Z := readClock Pwm0ClkDivIntReg.
Definition frequency : M st Z :=
  div ← clockDivisor;
  if negb (div =? 0) then
    r ← range; if r =? 0 then throw UB else mret (Z.quot (PwmClkOscFreq / div) r)
  else mret 0.

(** The register that is saved, cleared and restored is number
    [PwmChanCtrlReg] of the block, which is the global control register. *)
Definition setClockDivisor (div : Z) : M st unit :=
  let div := if PwmClkDivIntMax <? div then PwmClkDivIntMax else div in
  backupctl ← readPwm PwmChanCtrlReg;
  writePwm PwmChanCtrlReg 0;;
  writeClock Pwm0ClkCtrlReg PwmClkCtrlMagicDisable;;
  if PwmClkDivIntMin <=? div then
    writeClock Pwm0ClkDivIntReg div;;
    writeClock Pwm0ClkDivFracReg 0;;
    writeClock Pwm0SelReg 1;;
    writeClock Pwm0ClkCtrlReg PwmClkCtrlMagicEnable;;
    writePwm PwmChanCtrlReg backupctl
  else mret tt.

Definition frequencyDivisor (freq : Z) : M st Z :=
  r ← range;
  match dbl_ceil_to 32 (dbl_div (dbl_div (dbl_int PwmClkOscFreq) (dbl_int freq)) (dbl_int r)) with
  | Some v => mret v
  | None => throw UB
  end.
Definition setFrequency (f : Z) : M st Z :=
  if 0 <? f then d ← frequencyDivisor f; setClockDivisor d;; frequency else mret 0.

End Engine.

(** ** The registers *)
(** The global register has an enable bit per channel; the control register of
    a channel has no bits 9 to 11; ranges and values are 32 bits. *)
Definition is_reg (o : Z) : bool := (o =? 0) || ((5 <=? o) && (o <? 21)).
Definition reg_mask (o : Z) : Z :=
  if o =? 0 then 0xF else if (o - 5) mod 4 =? 0 then 0xFFFFF1FF else Z.ones 32.

Class Rp1PwmRegs (D : Device) : Prop := {
  rp1_write : forall o o' v s, is_reg o = true -> 0 <= v < 2 ^ 32 ->
    Z.land (hw_read (Pwm0Offset + o) (hw_write o' v s)) (reg_mask o) =
    if o' =? Pwm0Offset + o then Z.land v (reg_mask o) else Z.land (hw_read (Pwm0Offset + o) s) (reg_mask o);
  rp1_read : forall o s, is_reg o = true -> o <> 0 ->
    Z.land (hw_read (Pwm0Offset + o) s) (reg_mask o) = hw_read (Pwm0Offset + o) s;
  rp1_div : forall o v s, 0 <= v < 2 ^ 32 ->
    hw_read (ClockOffset + Pwm0ClkDivIntReg) (hw_write o v s) =
    if o =? ClockOffset + Pwm0ClkDivIntReg then v mod 2 ^ 16 else hw_read (ClockOffset + Pwm0ClkDivIntReg) s }.

(** ** One engine on an open mapping *)
Section Proofs.
Context {O : MapOs} {D : Device} {R : Rp1PwmRegs D}.

Record ready (s : st) : Prop := {
  rd_map : IoMap.window (im (the_io s)) = PCIeBlockSize;
  rd_pwm : pwm (eng s) = Some Pwm0Offset;
  rd_clock : clock (sh s) = Some ClockOffset;
  rd_channel : 0 <= channel (eng s) < 4 }.

(** The registers as the channels see them. *)
Definition word (o : Z) (s : st) : Z := hw_read o (regs (the_io s)).
Definition preg (o : Z) (s : st) : Z := word (Pwm0Offset + o) s.
Definition bits (o : Z) (s : st) : Z := Z.land (preg o s) (reg_mask o).
Definition divisor (s : st) : Z := word (ClockOffset + Pwm0ClkDivIntReg) s.
Definition chan_enabled (c : Z) (s : st) : bool := Z.testbit (preg PwmGlobalCtrlReg s) c.
Definition put (o v : Z) (s : st) : st := set_io (set_regs (hw_write o v (regs (the_io s))) (the_io s)) s.

Lemma map_word o s : ready s -> 0 <= o < 0x100000 -> in_window o (the_io s) = true.
Proof. intros [Hm _ _ _] Ho. unfold PCIeBlockSize in Hm. apply in_window_ok; lia. Qed.

Lemma pwm_word o : 0 <= o < 1024 -> 0 <= Pwm0Offset + o < 0x100000.
Proof. change Pwm0Offset with 0x26000. lia. Qed.
Lemma clock_word o : 0 <= o < 1024 -> 0 <= ClockOffset + o < 0x100000.
Proof. change ClockOffset with 0x6000. lia. Qed.

Lemma st_eta s : set_io (the_io s) s = s.
Proof. by destruct s as [[] ?]. Qed.
Lemma rp1_readPwm_eq o s : ready s -> 0 <= o < 1024 -> readPwm o s = (Ok (preg o s), s).
Proof.
  intros Hr Ho. unfold readPwm. erewrite M_bind_ok by reflexivity. cbn. rewrite (rd_pwm s Hr). unfold zoom, atomicRead.
  rewrite map_word by (done || by apply pwm_word). by rewrite st_eta.
Qed.
Lemma rp1_readClock_eq o s : ready s -> 0 <= o < 1024 -> readClock o s = (Ok (word (ClockOffset + o) s), s).
Proof.
  intros Hr Ho. unfold readClock. erewrite M_bind_ok by reflexivity. cbn. rewrite (rd_clock s Hr). unfold zoom, atomicRead.
  rewrite map_word by (done || by apply clock_word). by rewrite st_eta.
Qed.
Lemma rp1_writePwm_eq o v s : ready s -> 0 <= o < 1024 -> 0 <= v < 2 ^ 32 ->
  writePwm o v s = (Ok tt, put (Pwm0Offset + o) v s).
Proof.
  intros Hr Ho Hv. unfold writePwm. erewrite M_bind_ok by reflexivity. cbn. rewrite (rd_pwm s Hr). unfold zoom.
  by rewrite atomicWrite_ok by (done || (apply map_word; [done|by apply pwm_word])).
Qed.
Lemma rp1_writeClock_eq o v s : ready s -> 0 <= o < 1024 -> 0 <= v < 2 ^ 32 ->
  writeClock o v s = (Ok tt, put (ClockOffset + o) v s).
Proof.
  intros Hr Ho Hv. unfold writeClock. erewrite M_bind_ok by reflexivity. cbn. rewrite (rd_clock s Hr). unfold zoom.
  by rewrite atomicWrite_ok by (done || (apply map_word; [done|by apply clock_word])).
Qed.
Lemma ready_put o v s : ready s -> ready (put o v s).
Proof. by intros []. Qed.

Lemma bits_put o o' v s : is_reg o = true -> 0 <= v < 2 ^ 32 ->
  bits o (put o' v s) = if o' =? Pwm0Offset + o then Z.land v (reg_mask o) else bits o s.
Proof. intros. unfold bits, preg, word. by apply rp1_write. Qed.
Lemma preg_bits o s : is_reg o = true -> o <> 0 -> preg o s = bits o s.
Proof. intros. unfold bits, preg, word. by rewrite rp1_read. Qed.

Lemma enabled_bits c s : 0 <= c < 4 -> chan_enabled c s = Z.testbit (bits 0 s) c.
Proof.
  intros Hc. unfold chan_enabled, bits. change (reg_mask 0) with (Z.ones 4). change PwmGlobalCtrlReg with 0.
  rewrite Z.land_spec, Z.testbit_ones_nonneg by lia. by rewrite (proj2 (Z.ltb_lt c 4)), andb_true_r by lia.
Qed.

(** Writing the global register, and writing any other. *)
Lemma enabled_put_global c v s : 0 <= c < 4 -> 0 <= v < 2 ^ 32 ->
  chan_enabled c (put (Pwm0Offset + 0) v s) = Z.testbit v c.
Proof.
  intros Hc Hv. rewrite enabled_bits, bits_put, Z.eqb_refl by done. change (reg_mask 0) with (Z.ones 4).
  rewrite Z.land_spec, Z.testbit_ones_nonneg by lia. by rewrite (proj2 (Z.ltb_lt c 4)), andb_true_r by lia.
Qed.
Lemma enabled_put_other c o v s : 0 <= c < 4 -> 0 <= v < 2 ^ 32 -> o <> Pwm0Offset + 0 ->
  chan_enabled c (put o v s) = chan_enabled c s.
Proof.
  intros Hc Hv Ho. rewrite !enabled_bits, bits_put by done. by rewrite (proj2 (Z.eqb_neq _ _) Ho).
Qed.
Lemma preg_put_other o o' v s : is_reg o = true -> o <> 0 -> 0 <= v < 2 ^ 32 -> o' <> Pwm0Offset + o ->
  preg o (put o' v s) = preg o s.
Proof. intros Ho H0 Hv Hne. rewrite !preg_bits, bits_put by done. by rewrite (proj2 (Z.eqb_neq _ _) Hne). Qed.

Lemma land_pow2 r g : 0 <= g -> (Z.land r (2 ^ g) =? 2 ^ g) = Z.testbit r g.
Proof.
  intros Hg. pose proof (land_bit r g Hg) as Hb. destruct (Z.testbit r g) eqn:E.
  - apply Z.eqb_eq. apply Z.bits_inj'. intros n Hn. rewrite Z.land_spec, Z.pow2_bits_eqb by done.
    destruct (Z.eqb_spec g n) as [<-|]; [by rewrite E|apply andb_false_r].
  - apply negb_false_iff, Z.eqb_eq in Hb. rewrite Hb. apply Z.eqb_neq. pose proof (Z.pow_pos_nonneg 2 g). lia.
Qed.

Lemma chan_reg_ok c k : 0 <= c < 4 -> 0 <= k < 4 -> is_reg (chan_reg c k) = true /\ 5 <= chan_reg c k < 21.
Proof.
  intros Hc Hk. unfold chan_reg. change PwmChanBlockBase with 5. change PwmChanBlockSize with 4.
  unfold is_reg. split; [|lia]. apply orb_true_iff. right. apply andb_true_iff. rewrite Z.leb_le, Z.ltb_lt. lia.
Qed.
Lemma chan_ctrl_mask c : 0 <= c < 4 -> reg_mask (chan_reg c 0) = 0xFFFFF1FF.
Proof.
  intros Hc. unfold reg_mask, chan_reg. change PwmChanBlockBase with 5. change PwmChanBlockSize with 4.
  replace (5 + 4 * c + 0 - 5) with (c * 4) by lia. rewrite Z.mod_mul by lia. by destruct (Z.eqb_spec (5 + 4 * c + 0) 0); [lia|].
Qed.

Lemma word_bits v w : 0 <= v -> (forall n, 32 <= n -> Z.testbit v n = false) -> w = 32 -> 0 <= v < 2 ^ w.
Proof. intros Hv Hn ->. split; [done|]. by apply bits_bound. Qed.

(** What the two branches write to the global register. *)
Definition global_new (b : bool) (s : st) : Z :=
  let c := 2 ^ channel (eng s) in
  if b then Z.lor (preg 0 s) (Z.lor c PwmGlobalCtrlSetUpdate)
  else Z.lor (Z.land (preg 0 s) (u32 (Z.lnot c))) PwmGlobalCtrlSetUpdate.

Lemma global_new_spec b s : ready s -> 0 <= global_new b s < 2 ^ 32 /\
  forall c, 0 <= c < 4 -> Z.testbit (global_new b s) c = if c =? channel (eng s) then b else Z.testbit (preg 0 s) c.
Proof.
  intros Hr. pose proof (rd_channel s Hr) as Hc. assert (Hw : 0 <= preg 0 s < 2 ^ 32) by apply hw_word.
  pose proof (bit32_bound (channel (eng s)) ltac:(lia)) as Hp. unfold global_new, PwmGlobalCtrlSetUpdate.
  set (c := 2 ^ channel (eng s)) in *. assert (Hu : 0 <= 2 ^ 31 < 2 ^ 32) by lia.
  pose proof (u32_bound (Z.lnot c)) as Hn. split.
  - destruct b; apply word_bits; try done; rewrite ?Z.lor_nonneg, ?Z.land_nonneg; try lia;
      intros n Hn32; rewrite ?Z.lor_spec, ?Z.land_spec, ?(testbit_high (preg 0 s) 32 n),
        ?(testbit_high c 32 n), ?(testbit_high (2 ^ 31) 32 n) by lia; done.
  - intros i Hi. destruct b; rewrite ?Z.lor_spec, ?Z.land_spec; unfold c;
      rewrite (Z.pow2_bits_false 31), ?orb_false_r by lia.
    + rewrite Z.pow2_bits_eqb, (Z.eqb_sym i) by lia. destruct (_ =? i); by rewrite ?orb_true_r, ?orb_false_r.
    + unfold u32. rewrite Z.mod_pow2_bits_low, Z.lnot_spec, Z.pow2_bits_eqb, (Z.eqb_sym i) by lia.
      destruct (_ =? i); by rewrite ?andb_false_r, ?andb_true_r.
Qed.

Lemma setEnable_eq b s : ready s ->
  setEnable b s = (Ok tt, put (Pwm0Offset + 0) (global_new b s)
    (put (Pwm0Offset + chan_reg (channel (eng s)) 0) (if b then chan_on else 0) s)).
Proof.
  intros Hr. pose proof (rd_channel s Hr) as Hc. destruct (chan_reg_ok (channel (eng s)) 0 Hc ltac:(lia)) as [_ Hb].
  destruct (global_new_spec b s Hr) as [Hg _].
  unfold setEnable. rewrite (M_bind_ok _ _ _ _ _ _ _ _ (rp1_readPwm_eq 0 s Hr ltac:(lia))).
  unfold BIT_channel, ctlReg. do 2 (erewrite M_bind_ok by reflexivity). rewrite Z.shiftl_1_l.
  change PwmChanCtrlReg with 0. unfold global_new in *. destruct b; cbn zeta.
  - rewrite (M_bind_ok _ _ _ _ _ _ _ _ (rp1_writePwm_eq (chan_reg (channel (eng s)) 0) chan_on s Hr ltac:(lia) ltac:(done))).
    by rewrite rp1_writePwm_eq by (done || (apply ready_put; done)).
  - rewrite (M_bind_ok _ _ _ _ _ _ _ _ (rp1_writePwm_eq (chan_reg (channel (eng s)) 0) 0 s Hr ltac:(lia) ltac:(lia))).
    by rewrite rp1_writePwm_eq by (done || (apply ready_put; done)).
Qed.

Lemma isEnabled_eq s : ready s ->
  isEnabled s = (Ok ((preg (chan_reg (channel (eng s)) 0) s =? chan_on) && chan_enabled (channel (eng s)) s), s).
Proof.
  intros Hr. pose proof (rd_channel s Hr) as Hc. destruct (chan_reg_ok (channel (eng s)) 0 Hc ltac:(lia)) as [_ Hb].
  unfold isEnabled, ctlReg, BIT_channel. erewrite M_bind_ok by reflexivity. change PwmChanCtrlReg with 0.
  rewrite (M_bind_ok _ _ _ _ _ _ _ _ (rp1_readPwm_eq (chan_reg (channel (eng s)) 0) s Hr ltac:(lia))).
  erewrite M_bind_ok by reflexivity. destruct (_ =? chan_on); [|done]. cbn [andb].
  rewrite (M_bind_ok _ _ _ _ _ _ _ _ (rp1_readPwm_eq 0 s Hr ltac:(lia))). rewrite Z.shiftl_1_l, land_pow2 by lia. done.
Qed.

(** Switching a Raspberry Pi 5 PWM channel does what it says and stays in
    its lane: afterwards the channel reports the state asked for, the enable
    bits of the other three channels are as they were, and no range, value or
    control register of any other channel has changed. *)
Theorem rp1_pwm_enable_exact (b : bool) (s : st) : ready s ->
  exists s', setEnable b s = (Ok tt, s') /\ ready s' /\ isEnabled s' = (Ok b, s') /\
    (forall c, 0 <= c < 4 -> c <> channel (eng s) -> chan_enabled c s' = chan_enabled c s) /\
    (forall o, is_reg o = true -> o <> 0 -> o <> chan_reg (channel (eng s)) 0 -> preg o s' = preg o s).
Proof.
  intros Hr. rewrite setEnable_eq by done. pose proof (rd_channel s Hr) as Hc.
  destruct (chan_reg_ok (channel (eng s)) 0 Hc ltac:(lia)) as [Hreg Hb]. destruct (global_new_spec b s Hr) as [Hg Hbits].
  set (cr := chan_reg (channel (eng s)) 0) in *. set (v := if b then chan_on else 0).
  assert (Hv : 0 <= v < 2 ^ 32) by (unfold v; by destruct b). set (s1 := put (Pwm0Offset + cr) v s).
  eexists. split; [reflexivity|]. split; [by repeat apply ready_put|]. split; [|split].
  - rewrite isEnabled_eq by (by repeat apply ready_put). cbn [eng put set_io s1]. fold cr.
    rewrite preg_put_other, enabled_put_global, Hbits, Z.eqb_refl by (done || lia).
    unfold s1. rewrite preg_bits, bits_put, Z.eqb_refl by (done || lia). unfold cr. rewrite chan_ctrl_mask by done.
    unfold v. by destruct b.
  - intros c Hc4 Hne. rewrite enabled_put_global, Hbits, (proj2 (Z.eqb_neq _ _) Hne) by done.
    by unfold chan_enabled.
  - intros o Ho H0 Hne. rewrite preg_put_other by (done || lia). unfold s1. apply preg_put_other; [done..|lia].
Qed.

(** ** Frequency *)
Definition clamp_div (d : Z) : Z := Z.min 4095 d.

Lemma rp1_setClockDivisor_spec d s : ready s -> 1 <= d < 2 ^ 32 ->
  exists s', setClockDivisor d s = (Ok tt, s') /\ ready s' /\ eng s' = eng s /\ divisor s' = clamp_div d /\
    (forall c, 0 <= c < 4 -> chan_enabled c s' = chan_enabled c s) /\
    (forall o, is_reg o = true -> o <> 0 -> preg o s' = preg o s).
Proof.
  intros Hr Hd. unfold setClockDivisor. cbn zeta.
  replace (if PwmClkDivIntMax <? d then PwmClkDivIntMax else d) with (clamp_div d)
    by (unfold clamp_div, PwmClkDivIntMax; case_bool; lia).
  assert (Hcl : 1 <= clamp_div d <= 4095) by (unfold clamp_div; lia).
  assert (Hw : 0 <= preg 0 s < 2 ^ 32) by apply hw_word. change PwmChanCtrlReg with 0.
  rewrite (M_bind_ok _ _ _ _ _ _ _ _ (rp1_readPwm_eq 0 s Hr ltac:(lia))).
  rewrite (M_bind_ok _ _ _ _ _ _ _ _ (rp1_writePwm_eq 0 0 s Hr ltac:(lia) ltac:(lia))).
  pose proof (ready_put (Pwm0Offset + 0) 0 s Hr) as R1. set (s1 := put _ _ s) in *.
  rewrite (M_bind_ok _ _ _ _ _ _ _ _ (rp1_writeClock_eq Pwm0ClkCtrlReg PwmClkCtrlMagicDisable s1 R1 ltac:(done) ltac:(done))).
  unfold PwmClkDivIntMin. rewrite (proj2 (Z.leb_le 1 (clamp_div d))) by lia.
  set (s2 := put _ _ s1) in *. assert (R2 : ready s2) by (by apply ready_put).
  rewrite (M_bind_ok _ _ _ _ _ _ _ _ (rp1_writeClock_eq Pwm0ClkDivIntReg (clamp_div d) s2 R2 ltac:(done) ltac:(lia))).
  set (s3 := put _ _ s2) in *. assert (R3 : ready s3) by (by apply ready_put).
  rewrite (M_bind_ok _ _ _ _ _ _ _ _ (rp1_writeClock_eq Pwm0ClkDivFracReg 0 s3 R3 ltac:(done) ltac:(lia))).
  set (s4 := put _ _ s3) in *. assert (R4 : ready s4) by (by apply ready_put).
  rewrite (M_bind_ok _ _ _ _ _ _ _ _ (rp1_writeClock_eq Pwm0SelReg 1 s4 R4 ltac:(done) ltac:(lia))).
  set (s5 := put _ _ s4) in *. assert (R5 : ready s5) by (by apply ready_put).
  rewrite (M_bind_ok _ _ _ _ _ _ _ _ (rp1_writeClock_eq Pwm0ClkCtrlReg PwmClkCtrlMagicEnable s5 R5 ltac:(done) ltac:(done))).
  set (s6 := put _ _ s5) in *. assert (R6 : ready s6) by (by apply ready_put).
  rewrite rp1_writePwm_eq by done. eexists. split; [reflexivity|]. split; [by apply ready_put|]. split; [done|]. split; [|split].
  - assert (Hdiv : forall o v s, 0 <= v < 2 ^ 32 -> o <> ClockOffset + Pwm0ClkDivIntReg -> divisor (put o v s) = divisor s).
    { intros o v s' Hv Ho. unfold divisor, word. cbn. rewrite rp1_div by done. by rewrite (proj2 (Z.eqb_neq _ _) Ho). }
    unfold s6, s5, s4. rewrite !Hdiv by (done || lia). unfold s3, divisor, word. cbn.
    rewrite rp1_div, Z.eqb_refl by lia. apply Z.mod_small. lia.
  - intros c Hc. by rewrite enabled_put_global by done.
  - intros o Ho H0. assert (Hb : 5 <= o < 21).
    { unfold is_reg in Ho. apply orb_true_iff in Ho as [Ho%Z.eqb_eq|[H1%Z.leb_le H2%Z.ltb_lt]%andb_true_iff]; lia. }
    assert (Hfar : forall k, 0 <= k < 1024 -> ClockOffset + k <> Pwm0Offset + o).
    { change ClockOffset with 0x6000. change Pwm0Offset with 0x26000. lia. }
    unfold s6, s5, s4, s3, s2, s1. rewrite !preg_put_other by (done || lia || (apply Hfar; done)). done.
Qed.

Lemma rp1_range_eq s : ready s -> range s = (Ok (preg (chan_reg (channel (eng s)) 1) s), s).
Proof.
  intros Hr. destruct (chan_reg_ok (channel (eng s)) 1 (rd_channel s Hr) ltac:(lia)) as [_ Hb].
  unfold range, rngReg. erewrite M_bind_ok by reflexivity. by apply rp1_readPwm_eq; [|lia].
Qed.

(** Setting the frequency of a Raspberry Pi 5 PWM sets the least divisor up
    to 4095 whose frequency does not exceed the one asked for, computed in
    floating point and yet exact, and returns the frequency that results; the
    enable bits of all channels, which are cleared meanwhile, and the channel
    registers end as they were. *)
Theorem rp1_pwm_setFrequency_exact (f : Z) (s : st) :
  let r := preg (chan_reg (channel (eng s)) 1) s in
  ready s -> 1 <= r -> 0 < f < 2 ^ 53 ->
  exists s' d, setFrequency f s = (Ok (PwmClkOscFreq / d / r), s') /\ ready s' /\ divisor s' = d /\ 1 <= d <= 4095 /\
    (d < 4095 -> PwmClkOscFreq <= f * r * d) /\ f * r * (d - 1) < PwmClkOscFreq /\
    (forall c, 0 <= c < 4 -> chan_enabled c s' = chan_enabled c s) /\
    (forall o, is_reg o = true -> o <> 0 -> preg o s' = preg o s).
Proof.
  cbn zeta. intros Hr Hrng Hf. set (r := preg _ s) in *.
  assert (Hrw : 0 <= r < 2 ^ 32) by apply hw_word.
  set (q := (PwmClkOscFreq + f * r - 1) / (f * r)).
  assert (Hq : 1 <= q <= PwmClkOscFreq) by (apply ceil_div_bounds; unfold PwmClkOscFreq; lia).
  assert (Hfd : frequencyDivisor f s = (Ok q, s)).
  { unfold frequencyDivisor. rewrite (M_bind_ok _ _ _ _ _ _ _ _ (rp1_range_eq s Hr)). fold r.
    by rewrite dbl_ceil_to_div by (unfold PwmClkOscFreq; lia). }
  destruct (rp1_setClockDivisor_spec q s Hr) as (s' & Hs & Hr' & He & Hdiv & Hen & Hp); [unfold PwmClkOscFreq in Hq; lia|].
  destruct (chan_reg_ok (channel (eng s)) 1 (rd_channel s Hr) ltac:(lia)) as [Hreg Hb].
  assert (Hrs : preg (chan_reg (channel (eng s')) 1) s' = r) by (rewrite He; apply Hp; [done|lia]).
  exists s', (divisor s'). split; [|rewrite Hdiv; unfold clamp_div; split_and!; try done; try lia].
  - unfold setFrequency. rewrite (proj2 (Z.ltb_lt 0 f)) by lia.
    rewrite (M_bind_ok _ _ _ _ _ _ _ _ Hfd), (M_bind_ok _ _ _ _ _ _ _ _ Hs). unfold frequency, clockDivisor.
    rewrite (M_bind_ok _ _ _ _ _ _ _ _ (rp1_readClock_eq Pwm0ClkDivIntReg s' Hr' ltac:(done))). fold (divisor s').
    rewrite (proj2 (Z.eqb_neq (divisor s') 0)) by (rewrite Hdiv; unfold clamp_div; lia). cbn [negb].
    rewrite (M_bind_ok _ _ _ _ _ _ _ _ (rp1_range_eq s' Hr')), Hrs, (proj2 (Z.eqb_neq r 0)) by lia.
    unfold mret, M_ret. do 2 f_equal. apply Z.quot_div_nonneg; [|lia]. apply Z.div_pos; [done|].
    rewrite Hdiv. unfold clamp_div. lia.
  - pose proof (Z.div_mod (PwmClkOscFreq + f * r - 1) (f * r) ltac:(lia)) as E. fold q in E.
    pose proof (Z.mod_pos_bound (PwmClkOscFreq + f * r - 1) (f * r) ltac:(lia)). intros Hlt.
    rewrite Z.min_r in * by lia. lia.
  - pose proof (Z.div_mod (PwmClkOscFreq + f * r - 1) (f * r) ltac:(lia)) as E. fold q in E.
    pose proof (Z.mod_pos_bound (PwmClkOscFreq + f * r - 1) (f * r) ltac:(lia)).
    apply Z.le_lt_trans with (f * r * (q - 1)); [|lia]. apply Z.mul_le_mono_nonneg_l; lia.
Qed.
End Proofs.

(** ** The mapping the engines share *)
Section Pool.
Context {O : MapOs} {D : Device} (findPCIeDevice : string).

(** The engines of a program, by number. *)
Record pool : Type := mk_pool { common : shared; engines : gmap nat engine }.
Inductive action : Type := Create (i : nat) (mcuNumber : Z) | Open (i : nat) (m : Z) | Close (i : nat) | Destroy (i : nat).

(** An operation of engine [i]; there is nothing to do for one that does not
    exist. *)
Definition with_engine {A} (i : nat) (m : M st A) : M pool unit := fun p =>
  match engines p !! i with
  | Some e => let '(o, s) := m (mk_st (common p) e) in
              (match o with Ok _ => Ok tt | Throw x => Throw x end, mk_pool (sh s) (<[i := eng s]> (engines p)))
  | None => (Ok tt, p)
  end.

Definition act (a : action) : M pool unit := fun p =>
  match a with
  | Create i g =>
      match engines p !! i with
      | Some _ => (Ok tt, p)
      | None => match new g (common p) with
                | (Ok e, c) => (Ok tt, mk_pool c (<[i := e]> (engines p)))
                | (Throw x, c) => (Throw x, mk_pool c (engines p))
                end
      end
  | Open i m => with_engine i (open findPCIeDevice m) p
  | Close i => with_engine i close p
  | Destroy i =>
      match engines p !! i with
      | Some _ => let '(o, c) := delete (common p) in (o, mk_pool c (base.delete i (engines p)))
      | None => (Ok tt, p)
      end
  end.
Definition acts (l : list action) : M pool unit := foldr (fun a k => act a;; k) (mret tt) l.
Definition start (m : io) : pool := mk_pool (mk_shared None 0 m) ∅.

(** Either the mapping is there, or no engine points into it. *)
Record pool_inv (p : pool) : Prop := {
  pi_count : instanceCount (common p) = Z.of_nat (size (engines p));
  pi_channel : map_Forall (fun _ e => 0 <= channel e < 4) (engines p);
  pi_map :
    (IoMap.isOpen (im (iomap (common p))) = true /\ IoMap.window (im (iomap (common p))) = PCIeBlockSize /\
     clock (common p) = Some ClockOffset /\ engines p <> ∅ /\
     map_Forall (fun _ e => pwm e = None \/ pwm e = Some Pwm0Offset) (engines p)) \/
    (IoMap.isOpen (im (iomap (common p))) = false /\ map_Forall (fun _ e => pwm e = None) (engines p)) }.

Context {OK : MapOsOk O}.

Lemma inv_start m : IoMap.isOpen (im m) = false -> pool_inv (start m).
Proof. intros Hm. constructor; cbn; [done|apply map_Forall_empty|]. right. split; [done|apply map_Forall_empty]. Qed.

(** [open] by an engine: the mapping exists afterwards. *)
Lemma open_ok m s r s' : open findPCIeDevice m s = (Ok r, s') ->
  (IoMap.isOpen (im (the_io s)) = true -> IoMap.window (im (the_io s)) = PCIeBlockSize /\ clock (sh s) = Some ClockOffset) ->
  IoMap.isOpen (im (the_io s')) = true /\ IoMap.window (im (the_io s')) = PCIeBlockSize /\
  clock (sh s') = Some ClockOffset /\ instanceCount (sh s') = instanceCount (sh s) /\
  pwm (eng s') = Some Pwm0Offset /\ channel (eng s') = channel (eng s).
Proof.
  intros Ho Hopen. unfold open, map_shared in Ho. munfold.
  destruct (IoMap.isOpen (im (the_io s))) eqn:E.
  - cbn in Ho. injection Ho as _ <-. destruct (Hopen eq_refl). by split_and!.
  - destruct (bool_decide (findPCIeDevice = EmptyString)); [done|].
    unfold on_map, zoom, IoMap.open_device, IoMap.close, IoMap.map_device in Ho. munfold. rewrite E in Ho.
    destruct (sys_open findPCIeDevice (IoMap.sys (im (the_io s)))) as [[e|n] o1] eqn:Es; [done|].
    destruct (sys_mmap PCIeBlockSize n 0 o1) as [[e|] o2]; [done|]. cbn in Ho.
    pose proof (open_fd _ _ _ _ Es) as Hn. unfold IoMap.isOpen in Ho. cbn in Ho.
    rewrite (proj2 (Z.leb_le 0 n) Hn) in Ho. cbn in Ho. injection Ho as _ <-. cbn.
    unfold IoMap.isOpen. cbn. rewrite (proj2 (Z.leb_le 0 n) Hn). by split_and!.
Qed.

(** A new engine, or one that was closed, does not point into the mapping. *)
Lemma inv_insert p c i e : pool_inv p -> iomap c = iomap (common p) -> clock c = clock (common p) ->
  instanceCount c = Z.of_nat (size (<[i := e]> (engines p))) -> pwm e = None -> 0 <= channel e < 4 ->
  pool_inv (mk_pool c (<[i := e]> (engines p))).
Proof.
  intros [H1 H2 H3] Hio Hck Hn Hp Hc. constructor; cbn; [done|by apply map_Forall_insert_2|]. rewrite Hio, Hck.
  destruct H3 as [(A & B & C & Dn & E)|[A B]]; [left|right].
  - split_and!; try done; [apply insert_non_empty|apply map_Forall_insert_2; [by left|done]].
  - split; [done|]. by apply map_Forall_insert_2.
Qed.

Lemma rp1_inv_open i m p p' : pool_inv p -> act (Open i m) p = (Ok tt, p') -> pool_inv p'.
Proof.
  intros [H1 H2 H3]. cbn. unfold with_engine. destruct (engines p !! i) as [e|] eqn:Ei; [|by intros [= <-]].
  destruct (open findPCIeDevice m (mk_st (common p) e)) as [[r|x] s'] eqn:Eo; [|done]. intros [= <-].
  destruct (open_ok _ _ _ _ Eo) as (A & B & C & Dn & E & F).
  { unfold the_io. cbn. intros Hop. destruct H3 as [(_ & ? & ? & _)|[Hcl _]]; [done|]. by rewrite Hcl in Hop. }
  cbn in *. constructor; cbn.
  - rewrite map_size_insert_Some by (exact (mk_is_Some _ _ Ei)). by rewrite Dn.
  - apply map_Forall_insert_2; [|done]. rewrite F. by apply (H2 i).
  - left. split_and!; try done; [apply insert_non_empty|]. apply map_Forall_insert_2; [by right|].
    destruct H3 as [(_ & _ & _ & _ & G)|[_ G]]; [done|]. intros j e' Hj. left. by apply (G j).
Qed.

Lemma inv_destroy i p p' : pool_inv p -> act (Destroy i) p = (Ok tt, p') -> pool_inv p'.
Proof.
  intros [H1 H2 H3]. cbn. destruct (engines p !! i) as [e|] eqn:Ei; [|by intros [= <-]]. unfold delete. cbn.
  assert (Hsz : size (base.delete i (engines p)) = (size (engines p) - 1)%nat)
    by (rewrite map_size_delete_Some by (exact (mk_is_Some _ _ Ei)); lia).
  assert (Hpos : size (engines p) <> 0%nat) by (intros Hz; apply map_size_empty_inv in Hz; rewrite Hz in Ei; done).
  destruct ((instanceCount (common p) - 1 =? 0) && IoMap.isOpen (im (iomap (common p)))) eqn:Ec.
  - apply andb_true_iff in Ec as [Hc0%Z.eqb_eq Hop].
    destruct (IoMap.close (im (iomap (common p)))) as [[[]|x] m'] eqn:Ecl; [|done]. intros [= <-].
    constructor; cbn; [lia|by apply map_Forall_delete|]. right.
    assert (Hem : base.delete i (engines p) = ∅) by (apply map_size_empty_inv; lia).
    rewrite Hem. split; [|apply map_Forall_empty]. unfold IoMap.close in Ecl. rewrite Hop in Ecl.
    destruct (sys_munmap _ _) as [[?|] o]; [done|]. destruct (sys_close _ _) as [[?|] o']; [done|]. by injection Ecl as <-.
  - intros [= <-]. constructor; cbn; [lia|by apply map_Forall_delete|].
    destruct H3 as [(A & B & C & Dn & E)|[A B]]; [left|right; split; [done|by apply map_Forall_delete]].
    rewrite A, andb_true_r in Ec. apply Z.eqb_neq in Ec.
    split_and!; try done; [|by apply map_Forall_delete]. intros Hem. rewrite Hem, map_size_empty in Hsz. lia.
Qed.

Lemma inv_act a p p' : pool_inv p -> act a p = (Ok tt, p') -> pool_inv p'.
Proof.
  intros HI. pose proof HI as [H1 H2 _]. destruct a as [i g|i m|i|i]; [|by apply rp1_inv_open| |by apply inv_destroy]; cbn.
  - destruct (engines p !! i) eqn:Ei; [by intros [= <-]|]. unfold new.
    destruct (channel_of g) as [c|] eqn:Ec; [|done]. intros [= <-].
    apply inv_insert; cbn; try done; [rewrite map_size_insert_None by done; lia|].
    unfold channel_of in Ec; repeat case_match; simplify_eq; lia.
  - unfold with_engine. destruct (engines p !! i) as [e|] eqn:Ei; [|by intros [= <-]].
    intros [= <-]. apply inv_insert; cbn; try done; [|exact (H2 i e Ei)].
    by rewrite map_size_insert_Some by (exact (mk_is_Some _ _ Ei)).
Qed.

Lemma inv_acts l p p' : pool_inv p -> acts l p = (Ok tt, p') -> pool_inv p'.
Proof.
  revert p. induction l as [|a l IH]; intros p HI; cbn; [by intros [= <-]|]. unfold mbind, M_bind.
  destruct (act a p) as [[[]|x] p1] eqn:Ea; [|done]. apply IH. by eapply inv_act.
Qed.

End Pool.

(** ** A chip whose registers hold what is written *)
Module Demo.
Definition mask_at (o : Z) : Z :=
  if is_reg (o - Pwm0Offset) then (if o =? Pwm0Offset then Z.ones 32 else reg_mask (o - Pwm0Offset)) else Z.ones 32.
Definition rd (o : Z) (s : Z -> Z) : Z :=
  if o =? ClockOffset + Pwm0ClkDivIntReg then s o mod 2 ^ 16 else Z.land (s o) (mask_at o).

Lemma mask_at_bound o : 0 <= mask_at o < 2 ^ 32.
Proof.
  unfold mask_at, reg_mask. destruct (is_reg _); [|done]. destruct (o =? Pwm0Offset); [done|].
  destruct (_ =? 0); [done|]. by destruct (_ =? 0).
Qed.
Lemma rd_word o s : 0 <= rd o s < 2 ^ 32.
Proof.
  unfold rd. pose proof (mask_at_bound o). destruct (_ =? _).
  - pose proof (Z.mod_pos_bound (s o) (2 ^ 16) ltac:(lia)). lia.
  - apply word_bits; [apply Z.land_nonneg; lia| |done]. intros n Hn.
    rewrite Z.land_spec, (testbit_high (mask_at o) 32 n) by lia. apply andb_false_r.
Qed.
Definition block : Device := {| hw := Z -> Z; hw_read := rd; hw_write o v s := fun x => if x =? o then v else s x; hw_word := rd_word |}.

Lemma rd_pwm o s : is_reg o = true -> rd (Pwm0Offset + o) s = Z.land (s (Pwm0Offset + o)) (if o =? 0 then Z.ones 32 else reg_mask o).
Proof.
  intros Ho. assert (Hb : 0 <= o < 21).
  { unfold is_reg in Ho. apply orb_true_iff in Ho as [Ho%Z.eqb_eq|[H1%Z.leb_le H2%Z.ltb_lt]%andb_true_iff]; lia. }
  unfold rd, mask_at. replace (Pwm0Offset + o - Pwm0Offset) with o by lia. rewrite Ho.
  change (ClockOffset + Pwm0ClkDivIntReg) with 0x601E. change Pwm0Offset with 0x26000.
  destruct (Z.eqb_spec (0x26000 + o) 0x601E); [lia|].
  destruct (Z.eqb_spec (0x26000 + o) 0x26000), (Z.eqb_spec o 0); done || lia.
Qed.
Lemma mask_twice x o : Z.land (Z.land x (if o =? 0 then Z.ones 32 else reg_mask o)) (reg_mask o) = Z.land x (reg_mask o).
Proof. rewrite <- Z.land_assoc. f_equal. destruct (Z.eqb_spec o 0) as [->|]; [done|apply Z.land_diag]. Qed.

#[export] Instance block_ok : Rp1PwmRegs block.
Proof.
  constructor; cbn.
  - intros o o' v s Ho Hv. rewrite !rd_pwm, !mask_twice by done. rewrite Z.eqb_sym. by destruct (_ =? _).
  - intros o s Ho H0. rewrite !rd_pwm by done. rewrite (proj2 (Z.eqb_neq o 0) H0).
    by rewrite <- Z.land_assoc, Z.land_diag.
  - intros o v s Hv. unfold rd. rewrite Z.eqb_refl, Z.eqb_sym. by destruct (_ =? _).
Qed.

Definition closed : io (O := IoMap.with_mmap) (D := block) :=
  mk_io (IoMap.new (tt : @os IoMap.with_mmap)) ((fun o => if o =? Pwm0Offset + 6 then 1024 else 0) : @hw block).
Definition program : list action := [Create 1 12; Create 2 18; Open 1 24; Close 1; Destroy 1; Open 2 24].
Definition after : pool (O := IoMap.with_mmap) (D := block) := (acts "/sys/rp1" program (start closed)).2.


(** Channel 0 open, with a range of 1024. *)
Definition chip : st (O := IoMap.with_mmap) (D := block) :=
  mk_st (mk_shared (Some ClockOffset) 1
    (mk_io (IoMap.mk_iomap 0 PCIeBlockSize 4 IoMap.Mapped (tt : @os IoMap.with_mmap)) (regs closed)))
    (mk_engine (IoDevice.mk_iodevice IoDevice.ReadWrite false 0 IoDevice.NoText) (Some Pwm0Offset) 0).
Lemma rp1_chip_ready : ready chip.
Proof. constructor; try reflexivity. cbn. lia. Qed.

Lemma rp1_pwm_enable_exact_witness :
  ready chip /\ exists s', setEnable true chip = (Ok tt, s') /\ isEnabled s' = (Ok true, s').
Proof.
  split; [exact rp1_chip_ready|]. destruct (rp1_pwm_enable_exact true chip rp1_chip_ready) as (s' & H1 & _ & H2 & _).
  exists s'. split; [exact H1|exact H2].
Defined.

Lemma rp1_pwm_setFrequency_exact_witness :
  exists s' d, setFrequency 1000 chip = (Ok (PwmClkOscFreq / d / 1024), s') /\ divisor s' = d /\
    (d < 4095 -> PwmClkOscFreq <= 1000 * 1024 * d) /\ 1000 * 1024 * (d - 1) < PwmClkOscFreq.
Proof.
  destruct (rp1_pwm_setFrequency_exact 1000 chip rp1_chip_ready) as (s' & d & H1 & _ & H2 & _ & H3 & H4 & _);
    [vm_compute; discriminate|lia|].
  exists s', d. split; [exact H1|]. split; [exact H2|]. split; [exact H3|exact H4].
Defined.

(** The largest value offered is one more than the range. *)
Lemma max_above_range : (range chip).1 = Ok 1024 /\ (max chip).1 = Ok 1025.
Proof. split; vm_compute; reflexivity. Qed.

(** A mapping that failed is taken for an open one by the next engine, which
    then accesses registers that are not there. *)
Definition failing : io (O := IoMap.no_mmap) (D := block) := mk_io (IoMap.new (tt : @os IoMap.no_mmap)) (regs closed).
Lemma open_after_failure :
  let s := mk_st (mk_shared None 1 failing) (mk_engine IoDevice.new None 0) in
  let s1 := (open "/sys/rp1" 24 s).2 in
  (open "/sys/rp1" 24 s).1 = Throw (SystemError 1) /\ (open "/sys/rp1" 24 s1).1 = Ok true /\
  (read (open "/sys/rp1" 24 s1).2).1 = Throw UB.
Proof. split_and!; vm_compute; reflexivity. Qed.
End Demo.
End PwmRp1.
