(* ===== verification/Mcp4728.v ===== *)
(** * The MCP4728 converter, src/ext/mcp4728.cpp and src/ext/mcp4728_p.h

    Four 12-bit outputs, each with its own mode, reference and gain.  [mcp4728]
    is [Mcp4728::Private] and [channel] one entry of its array; a
    [ChannelBuffer] is the three bytes the source casts it to.  The chip is the
    interface [Mcp4728Chip]: a 16-bit register and a 16-bit EEPROM word per
    output, the write commands of the data sheet and the 24-byte read. *)
From Stdlib Require Import SpecFloat.
From S2P Require Import Prelude IoDevice Fifo I2cDev Converter.
Import Flags Params.

Module Mcp4728.

Definition SGWRDACEE : Z := 0x58.
Definition MTWRDAC : Z := 0x40.
Definition WRCHIDX : Z := 1.
Definition UDAC : Z := 0x01.
Definition VREF : Z := 0x80.
Definition GX : Z := 0x10.
Definition PD_1K : Z := 0x20.
Definition PD_100K : Z := 0x40.
Definition PD_500K : Z := 0x60.
Definition PD_MASK : Z := 0x60.
Definition RWCHIDX : Z := 4.
Definition EEPROM : Z := 0x08.
Definition READY : Z := 0xC0.
Definition DefaultAddress : Z := 0x60.
Definition NofChannels : Z := 4.
Definition GainEn : Z := 0x00100000.
Definition GainMask : Z := 0x001E0000.
Definition Gain1 : Z := GainEn.
Definition Gain2 : Z := Z.lor GainEn 0x00020000.
Definition DefaultReference : Z := 0.
Definition InternalReference : Z := 1.
Definition VddReference : Z := 2.
Definition DefaultMode : Z := Z.lor (Z.lor Converter.NormalMode Converter.AnalogOutput) Gain1.
Definition DefaultFullScaleRange : double := dbl_lit 33 10.
Definition InternalFullScaleRange : double := dbl_lit 2048 1000.

Record channel : Type := mk_channel {
  fsr : double;
  value : Z;
  eeprom : Z;
  mode : Z;
  refId : Z;
  modeSetByUser : bool;
  refSetByUser : bool;
  isReady : bool }.

Definition new_channel : channel := mk_channel DefaultFullScaleRange 0 0 DefaultMode VddReference false false false.

Definition with_fsr (x : double) (c : channel) : channel :=
  mk_channel x (value c) (eeprom c) (mode c) (refId c) (modeSetByUser c) (refSetByUser c) (isReady c).
Definition with_value (v : Z) (c : channel) : channel :=
  mk_channel (fsr c) v (eeprom c) (mode c) (refId c) (modeSetByUser c) (refSetByUser c) (isReady c).
Definition with_eeprom (v : Z) (c : channel) : channel :=
  mk_channel (fsr c) (value c) v (mode c) (refId c) (modeSetByUser c) (refSetByUser c) (isReady c).
Definition with_mode (m : Z) (u : bool) (c : channel) : channel :=
  mk_channel (fsr c) (value c) (eeprom c) m (refId c) u (refSetByUser c) (isReady c).
Definition with_ref (r : Z) (c : channel) : channel :=
  mk_channel (fsr c) (value c) (eeprom c) (mode c) r (modeSetByUser c) (refSetByUser c) (isReady c).
Definition with_ref_user (u : bool) (c : channel) : channel :=
  mk_channel (fsr c) (value c) (eeprom c) (mode c) (refId c) (modeSetByUser c) u (isReady c).
Definition with_ready (b : bool) (c : channel) : channel :=
  mk_channel (fsr c) (value c) (eeprom c) (mode c) (refId c) (modeSetByUser c) (refSetByUser c) b.

(** [Channel::setReference] *)
Definition ch_setReference (referenceId : Z) (f : double) (c : channel) : channel :=
  let c :=
    if negb (SFeqb f (S754_zero false)) then with_fsr f c
    else if negb (refId c =? referenceId) then
      if referenceId =? InternalReference then
        let x := InternalFullScaleRange in
        with_fsr (if Z.land (mode c) GainMask =? Gain2 then SFmul 53 1024 x (dbl_int 2) else x) c
      else with_fsr DefaultFullScaleRange c
    else c in
  with_ref referenceId c.

(** ** Channel buffers *)
Definition pd_bits (m : Z) : Z :=
  if test m Converter.PwrDwnEn then
    let p := Z.land m Converter.PwrDwnMask in
    if p =? Converter.PwrDwnR1 then PD_1K
    else if p =? Converter.PwrDwnR2 then PD_100K
    else if p =? Converter.PwrDwnR3 then PD_500K else 0
  else 0.

(** [setBuffer], with [wrCmd] 0 as all callers leave it. *)
Definition setBuffer (index : Z) (noUpdate : bool) (c : channel) : list Z * channel :=
  let cmd := if test (mode c) Converter.SaveToEEPROM then SGWRDACEE else MTWRDAC in
  let cmd := Z.lor (Z.lor cmd (Z.shiftl index WRCHIDX)) (if noUpdate then UDAC else 0) in
  let d0 := u8 (Z.shiftr (value c) 8) in
  let d0 := Z.lor d0 (if refId c =? InternalReference then VREF else 0) in
  let d0 := Z.lor d0 (if Z.land (mode c) GainMask =? Gain2 then GX else 0) in
  let d0 := Z.lor d0 (pd_bits (mode c)) in
  ([cmd; d0; Z.land (value c) 0xFF],
   if test (mode c) Converter.SaveToEEPROM then with_eeprom (value c) c else c).

Definition buf_value (d0 d1 : Z) : Z := Z.lor (Z.shiftl (Z.land d0 0x0F) 8) d1.
Definition buf_reference (d0 : Z) : Z := if test d0 VREF then InternalReference else VddReference.
Definition buf_channel (cmd : Z) (isRxFrame : bool) : Z :=
  Z.land (Z.shiftr cmd (if isRxFrame then RWCHIDX else WRCHIDX)) 0x03.
Definition pd_mode (p : Z) : Z :=
  if p =? PD_1K then Converter.PwrDwnR1 else if p =? PD_100K then Converter.PwrDwnR2
  else if p =? PD_500K then Converter.PwrDwnR3 else 0.
Definition buf_mode (d0 : Z) : Z :=
  Z.lor (Z.lor Converter.AnalogOutput (if test d0 GX then Gain2 else Gain1)) (pd_mode (Z.land d0 PD_MASK)).

Definition keep_mask : Z := Z.lor Converter.PwrDwnMask GainMask.
Definition setChannel (cmd d0 d1 : Z) (c : channel) : channel :=
  if test cmd EEPROM then
    with_ready (Z.land cmd READY =? READY) (with_eeprom (buf_value d0 d1) c)
  else
    let c := with_value (buf_value d0 d1) c in
    let c := if negb (modeSetByUser c) then
               with_mode (Z.lor (Z.land (mode c) (Z.lnot keep_mask)) (Z.land (buf_mode d0) keep_mask)) false c
             else c in
    if negb (refSetByUser c) then ch_setReference (buf_reference d0) (S754_zero false) c else c.

(** The passing of time, in milliseconds, as the chips on the bus see it. *)
Class Clock (K : Kernel) : Type := { k_delay : Z -> kst -> kst }.

Section Driver.
Context {K : Kernel} {T : Clock K}.

Record mcp4728 : Type := mk_mcp4728 {
  conv : IoDevice.iodevice;
  i2c : I2cDev.world;
  addr : Z;
  isConnected : bool;
  chan : list channel }.

Definition set_conv (c : IoDevice.iodevice) (d : mcp4728) : mcp4728 :=
  mk_mcp4728 c (i2c d) (addr d) (isConnected d) (chan d).
Definition set_i2c (w : I2cDev.world) (d : mcp4728) : mcp4728 :=
  mk_mcp4728 (conv d) w (addr d) (isConnected d) (chan d).
Definition set_connected (b : bool) (d : mcp4728) : mcp4728 :=
  mk_mcp4728 (conv d) (i2c d) (addr d) b (chan d).
Definition set_chan (c : list channel) (d : mcp4728) : mcp4728 :=
  mk_mcp4728 (conv d) (i2c d) (addr d) (isConnected d) c.

Definition on_i2c {A} : M I2cDev.world A -> M mcp4728 A := zoom i2c set_i2c.

(** The constructor on a given I2C master. *)
Definition new (w : I2cDev.world) (address : Z) : mcp4728 :=
  mk_mcp4728 IoDevice.new w (u16 address) false (replicate 4 new_channel).

(** The channels the constructor on a parameter string makes: [fsr] is the
    number given by the parameter of that name, 0 without it. *)
Definition find_param (k : string) (params : gmap str str) : option str := params !! str_of k.
Definition param_gain (params : gmap str str) (m : Z) : outcome (Z * bool) :=
  match find_param "gain" params with
  | None => Ok (m, false)
  | Some [] => Ok (m, true)
  | Some s => match stoi s with
              | Ok g => Ok (if g =? 2 then Z.lor (Z.land m (Z.lnot GainMask)) Gain2 else m, true)
              | Throw e => Throw e
              end
  end.
Definition param_mode (params : gmap str str) (m : Z) (byUser : bool) : Z * bool :=
  match find_param "mode" params with
  | None => (m, byUser)
  | Some s =>
      if decide (s = str_of "eeprom") then (Z.lor m Converter.SaveToEEPROM, byUser)
      else if decide (s = str_of "fast") then (Z.lor m Converter.FastMode, byUser)
      else if decide (s = str_of "pd1k") then (Z.lor m Converter.PwrDwnR1, true)
      else if decide (s = str_of "pd100k") then (Z.lor m Converter.PwrDwnR2, true)
      else if decide (s = str_of "pd500k") then (Z.lor m Converter.PwrDwnR3, true)
      else (m, byUser)
  end.
Definition param_ref (params : gmap str str) : Z * bool :=
  match find_param "ref" params with
  | Some s => if decide (s = str_of "int") then (InternalReference, true)
              else if decide (s = str_of "vdd") then (VddReference, true) else (DefaultReference, false)
  | None => (DefaultReference, false)
  end.
Definition param_channel (params : gmap str str) (f : double) : outcome channel :=
  match param_gain params DefaultMode with
  | Ok (m, byUser) =>
      let '(m, byUser) := param_mode params m byUser in
      let '(r, refByUser) := param_ref params in
      Ok (ch_setReference r f (with_ref_user refByUser (with_mode m byUser new_channel)))
  | Throw e => Throw e
  end.

(** [chan.at (channel)] *)
Definition at_chan (i : Z) : M mcp4728 channel := fun d => at_map (lget (chan d) i) d.
Definition upd_chan (i : Z) (f : channel -> channel) : M mcp4728 unit :=
  c ← at_chan i; modify (fun d => set_chan (lset (chan d) i (f c)) d).
Definition upd_all (f : channel -> channel) : M mcp4728 unit := modify (fun d => set_chan (f <$> chan d) d).

Definition readRegisters : M mcp4728 (option (list Z)) := fun d =>
  if I2cDev.is_open (i2c d) then
    (n ← on_i2c (I2cDev.requestFrom (addr d) 24 true);
     if 0 <=? n then
       bytesRead ← gets (fun d => I2cDev.available (i2c d));
       bs ← on_i2c (I2cDev.read_buf (Z.min bytesRead 24));
       modify (set_connected true);;
       mret (if bytesRead =? 24 then Some bs else None)
     else mret None) d
  else (Ok None, d).

Definition writeRegisters (buffer : list Z) : M mcp4728 bool := fun d =>
  if I2cDev.is_open (i2c d) then
    (ok ← on_i2c (I2cDev.beginTransmission (addr d);; I2cDev.write_buf buffer;; I2cDev.endTransmission true);
     if (ok : bool) then modify (set_connected true);; mret true else mret false) d
  else (Ok false, d).

Definition fast_bytes (v : Z) : list Z := [u8 (Z.land (Z.shiftr v 8) 0x0F); u8 (Z.land v 0xFF)].
(** [fastWrite] on the four values of an array, and on one value for all. *)
Definition fastWrite_values (values : list Z) : M mcp4728 bool := writeRegisters (concat (fast_bytes <$> values)).
Definition fastWrite (v : Z) : M mcp4728 bool := writeRegisters (concat (replicate 4 (fast_bytes v))).

(** The buffers of all channels from number [i] on, and the channels after. *)
Fixpoint all_buffers (i : Z) (noUpdate : bool) (cs : list channel) : list (list Z) * list channel :=
  match cs with
  | [] => ([], [])
  | c :: cs => let '(b, c) := setBuffer i noUpdate c in
               let '(bs, cs) := all_buffers (i + 1) noUpdate cs in (b :: bs, c :: cs)
  end.

(** [clk.delay] *)
Definition clk_delay (ms : Z) : M mcp4728 unit := modify (fun d =>
  set_i2c (I2cDev.set_env (I2cDev.errno (i2c d)) (k_delay ms (I2cDev.kernel (i2c d))) (i2c d)) d).

(** One buffer per channel, with a pause before the ones for the EEPROM. *)
Fixpoint write_each (cs : list channel) (bs : list (list Z)) : M mcp4728 bool :=
  match cs, bs with
  | c :: cs, b :: bs =>
      (if test (mode c) Converter.SaveToEEPROM then clk_delay 55 else mret tt);;
      ok ← writeRegisters b;
      if (ok : bool) then write_each cs bs else mret false
  | _, _ => mret true
  end.

Definition writeChannel (v ch : Z) (noUpdate : bool) : M mcp4728 bool :=
  if ch =? -1 then
    upd_all (with_value (u16 v));;
    cs ← gets chan;
    if existsb (fun c => test (mode c) Converter.FastMode) cs then fastWrite (u16 v)
    else
      let '(bs, cs') := all_buffers 0 noUpdate cs in
      modify (set_chan cs');;
      if existsb (fun c => test (mode c) Converter.SaveToEEPROM) cs then write_each cs bs
      else writeRegisters (concat bs)
  else if (0 <=? ch) && (ch <? NofChannels) then
    upd_chan ch (with_value (u16 v));;
    c ← at_chan ch;
    let '(b, c) := setBuffer ch noUpdate c in
    upd_chan ch (fun _ => c);;
    ok ← writeRegisters b;
    if (ok : bool) then mret true else upd_chan ch (with_value 0);; mret false
  else mret false.

Definition write (v : Z) : M mcp4728 bool := writeChannel v (-1) false.

(** The mode that is asked for the EEPROM flag is the one of channel 0. *)
Definition readChannel (ch : Z) (differential : bool) : M mcp4728 Z :=
  c0 ← at_chan 0; c ← at_chan ch;
  mret (if test (mode c0) Converter.SaveToEEPROM then eeprom c else value c).
Definition read : M mcp4728 Z := readChannel 0 false.

Definition get_mode (ch : Z) : M mcp4728 Z := c ← at_chan ch; mret (mode c).
Definition fullScaleRange (ch : Z) : M mcp4728 double := c ← at_chan ch; mret (fsr c).
Definition reference (ch : Z) : M mcp4728 Z := c ← at_chan ch; mret (refId c).

Definition mode_mask : Z :=
  Z.lor (Z.lor (Z.lor (Z.lor Converter.AnalogOutput GainMask) Converter.SaveToEEPROM) Converter.PwrDwnMask) Converter.FastMode.

Definition setMode (m ch : Z) : M mcp4728 bool :=
  if test m (Z.lnot mode_mask) then mret false
  else if negb (test m Converter.PwrDwnEn) && test m (Z.lor Converter.PwrDwn0 Converter.PwrDwn1) then mret false
  else if ch =? -1 then upd_all (with_mode (Z.lor m Converter.AnalogOutput) true);; mret true
  else if (0 <=? ch) && (ch <? NofChannels) then
    upd_chan ch (with_mode (Z.lor m Converter.AnalogOutput) true);; mret true
  else mret false.

Definition setFullScaleRange (f : double) (ch : Z) : M mcp4728 bool :=
  if negb (SFeqb f (S754_zero false)) then
    (if ch =? -1 then upd_all (with_fsr f) else upd_chan ch (with_fsr f));; mret true
  else mret false.

Definition user_reference (referenceId : Z) (f : double) (c : channel) : channel :=
  ch_setReference referenceId f (if negb (referenceId =? refId c) then with_ref_user true c else c).
Definition setReference (referenceId : Z) (f : double) (ch : Z) : M mcp4728 bool :=
  if (referenceId =? VddReference) || (referenceId =? InternalReference) || (referenceId =? DefaultReference) then
    (if ch =? -1 then upd_all (user_reference referenceId f) else upd_chan ch (user_reference referenceId f));; mret true
  else mret false.

(** The frames of a read, three bytes each, in the order they come. *)
Fixpoint set_frames (bs : list Z) (cs : list channel) : list channel :=
  match bs with
  | cmd :: d0 :: d1 :: bs => set_frames bs (alter (setChannel cmd d0 d1) (Z.to_nat (buf_channel cmd true)) cs)
  | _ => cs
  end.

Definition updateSetup : M mcp4728 bool :=
  r ← readRegisters;
  match r with
  | Some bs => modify (fun d => set_chan (set_frames bs (chan d)) d);; mret true
  | None => mret false
  end.

Definition conv_open (m : Z) : M mcp4728 bool := fun d =>
  let '(b, c) := IoDevice.popen m (conv d) in (Ok b, set_conv c d).

Definition open (m : Z) : M mcp4728 bool :=
  ok ← on_i2c (I2cDev.open m);
  if (ok : bool) then
    up ← updateSetup;
    if (up : bool) then conv_open m else mret false
  else
    modify (fun d =>
      let e := IoDevice.error (I2cDev.dev (I2cDev.i2c (i2c d))) in
      set_connected false
        (set_conv (if negb (e =? 0) then IoDevice.setError_errno (I2cDev.errno (i2c d)) (conv d)
                   else IoDevice.setError_code IoDevice.ENODEV (conv d)) d));;
    mret false.

Definition close : M mcp4728 unit := modify (fun d => set_conv (IoDevice.pclose (conv d)) d).

#[export] Instance mcp4728_impl : Converter.ConverterImpl mcp4728 := {|
  Converter.c_dev := conv;
  Converter.c_type _ := Converter.DigitalToAnalog;
  Converter.numberOfChannels _ := NofChannels;
  Converter.range _ := 2 ^ 12;
  Converter.isBipolar _ := false;
  Converter.v_open := open;
  Converter.v_close := close;
  Converter.v_read := read;
  Converter.v_write := write;
  Converter.v_readChannel := readChannel;
  Converter.v_writeChannel := writeChannel;
  Converter.v_toggle _ d := (Ok false, d);
  Converter.v_mode := get_mode;
  Converter.v_setMode := setMode |}.
End Driver.

(** ** The chip *)
Definition byte (x : Z) : Prop := 0 <= x < 2 ^ 8.

(** A 16-bit register: the reference in bit 15, the power-down code in bits 13
    and 14, the gain in bit 12, the value below. *)
Definition word (vref gx : bool) (pd v : Z) : Z := v + 2 ^ 12 * Z.b2z gx + 2 ^ 13 * pd + 2 ^ 15 * Z.b2z vref.

(** Input registers, output registers and EEPROM words of the four channels. *)
Record regs : Type := mk_regs { r_in : list Z; r_out : list Z; r_ee : list Z }.

Definition saves (cmd : Z) : bool := Z.land cmd 0xF8 =? SGWRDACEE.
Definition apply_group (r : regs) (g : Z * Z * Z) : regs :=
  let '(cmd, d0, d1) := g in
  let ch := Z.to_nat (field cmd 1 2) in let w := 2 ^ 8 * d0 + d1 in
  mk_regs (<[ch := w]> (r_in r))
    (if Z.testbit cmd 0 then r_out r else <[ch := w]> (r_out r))
    (if saves cmd then <[ch := w]> (r_ee r) else r_ee r).
Definition group_bytes (g : Z * Z * Z) : list Z := let '(cmd, d0, d1) := g in [cmd; d0; d1].
Definition group_ok (g : Z * Z * Z) : Prop := let '(cmd, d0, d1) := g in byte cmd /\ byte d0 /\ byte d1.

(** A fast write keeps the reference and the gain of a register. *)
Definition fast_word (w b0 b1 : Z) : Z :=
  word (Z.testbit w 15) (Z.testbit w 12) (field b0 4 2) (2 ^ 8 * Z.land b0 0x0F + b1).

(** The two frames of channel [c] in a read: [s] and [s'] are the status bytes. *)
Definition frame_status (s : Z) (c : nat) (ee : bool) : Prop :=
  byte s /\ field s 4 2 = Z.of_nat c /\ Z.testbit s 3 = ee.
Definition frames (s s' w e : Z) : list Z :=
  [s; Z.shiftr w 8; Z.land w 0xFF; s'; Z.shiftr e 8; Z.land e 0xFF].

(** What the data sheet says of the commands, for a chip that is not busy
    programming its EEPROM; 50 milliseconds are enough for that.  The words of
    [r_ee] are those the EEPROM holds or is being programmed with; a read while the
    chip is busy may show any word for them. *)
Class Mcp4728Chip (K : Kernel) (T : Clock K) (a : Z) : Type := {
  chip : kst -> regs;
  busy : kst -> bool;
  chip_lengths : forall k, length (r_in (chip k)) = 4%nat /\ length (r_out (chip k)) = 4%nat /\ length (r_ee (chip k)) = 4%nat;
  chip_bounds : forall k w, w ∈ r_in (chip k) \/ w ∈ r_ee (chip k) -> 0 <= w < 2 ^ 16;
  chip_delay : forall k ms, 50 <= ms -> chip (k_delay ms k) = chip k /\ busy (k_delay ms k) = false;
  write_multi : forall k gs, busy k = false -> gs <> [] ->
    Forall (fun g => group_ok g /\ Z.land g.1.1 0xF8 = MTWRDAC) gs ->
    exists k', k_rdwr [KWrite a (concat (group_bytes <$> gs))] k = (inr [], k') /\
      chip k' = fold_left apply_group gs (chip k) /\ busy k' = false;
  write_single : forall k g, busy k = false -> group_ok g -> saves g.1.1 = true ->
    exists k', k_rdwr [KWrite a (group_bytes g)] k = (inr [], k') /\
      chip k' = apply_group (chip k) g /\ busy k' = true;
  write_fast : forall k (bs : list (Z * Z)), busy k = false -> length bs = 4%nat ->
    Forall (fun b => byte b.1 /\ byte b.2 /\ Z.land b.1 0xC0 = 0) bs ->
    exists k', k_rdwr [KWrite a (concat ((fun b => [b.1; b.2]) <$> bs))] k = (inr [], k') /\
      r_in (chip k') = zip_with (fun w b => fast_word w b.1 b.2) (r_in (chip k)) bs /\
      r_ee (chip k') = r_ee (chip k) /\ busy k' = false;
  read_all : forall k, exists k' fs,
    k_rdwr [KRead a 24] k = (inr [concat fs], k') /\ chip k' = chip k /\ busy k' = busy k /\
    length fs = 4%nat /\
    forall c f w e, fs !! c = Some f -> r_in (chip k) !! c = Some w -> r_ee (chip k) !! c = Some e ->
      exists s s' e', f = frames s s' w e' /\ frame_status s c false /\ frame_status s' c true /\
        0 <= e' < 2 ^ 16 /\ (busy k = false -> e' = e) }.

(** ** Words *)
Lemma field_div r sh w : 0 <= sh -> 0 <= w -> field r sh w = (r / 2 ^ sh) mod 2 ^ w.
Proof. intros Hs Hw. unfold field. rewrite Z.land_ones, Z.shiftr_div_pow2; done. Qed.

Lemma word_fields vref gx pd v :
  0 <= v < 2 ^ 12 -> 0 <= pd < 4 ->
  0 <= word vref gx pd v < 2 ^ 16 /\ field (word vref gx pd v) 0 12 = v /\
  Z.testbit (word vref gx pd v) 12 = gx /\ field (word vref gx pd v) 13 2 = pd /\
  Z.testbit (word vref gx pd v) 15 = vref.
Proof.
  intros Hv Hp. set (w := word _ _ _ _). assert (Hw : w = v + 4096 * Z.b2z gx + 8192 * pd + 32768 * Z.b2z vref) by done.
  clearbody w. pose proof (Z.testbit_spec' w 12 ltac:(lia)) as H12. pose proof (Z.testbit_spec' w 15 ltac:(lia)) as H15.
  change (2 ^ 12) with 4096 in *. change (2 ^ 15) with 32768 in *. rewrite !field_div by lia.
  change (2 ^ 0) with 1. change (2 ^ 13) with 8192. change (2 ^ 2) with 4. change (2 ^ 12) with 4096.
  assert (0 <= Z.b2z gx <= 1 /\ 0 <= Z.b2z vref <= 1) as [] by (destruct gx, vref; cbn; lia).
  assert ((w / 4096) mod 2 = Z.b2z gx) as Hg by (Z.to_euclidean_division_equations; lia).
  assert ((w / 32768) mod 2 = Z.b2z vref) as Hr by (Z.to_euclidean_division_equations; lia).
  rewrite Hg in H12. rewrite Hr in H15.
  repeat split; [lia..|Z.to_euclidean_division_equations; lia| |Z.to_euclidean_division_equations; lia|].
  - by destruct gx, (Z.testbit w 12).
  - by destruct vref, (Z.testbit w 15).
Qed.

Definition pd_code (m : Z) : Z :=
  let p := Z.land m Converter.PwrDwnMask in
  if p =? Converter.PwrDwnR1 then 1 else if p =? Converter.PwrDwnR2 then 2
  else if p =? Converter.PwrDwnR3 then 3 else 0.
Definition gain2 (m : Z) : bool := Z.land m GainMask =? Gain2.

(** The word a channel describes. *)
Definition chan_word (c : channel) : Z :=
  word (refId c =? InternalReference) (gain2 (mode c)) (pd_code (mode c)) (value c).

Lemma pd_code_bound m : 0 <= pd_code m < 4.
Proof. unfold pd_code. repeat case_match; lia. Qed.

Lemma pd_bits_code m : pd_bits m = 2 ^ 5 * pd_code m.
Proof.
  unfold pd_bits, pd_code. assert (Ht : test m Converter.PwrDwnEn = test (Z.land m Converter.PwrDwnMask) Converter.PwrDwnEn).
  { unfold test. by rewrite <- Z.land_assoc. }
  rewrite Ht. generalize (Z.land m Converter.PwrDwnMask). intros p. cbv zeta.
  repeat case_bool; subst; try done. by destruct (test p _).
Qed.

Lemma data0_sum h (vref gx : bool) p :
  0 <= h < 2 ^ 4 -> 0 <= p < 4 ->
  Z.lor (Z.lor (Z.lor h (if vref then VREF else 0)) (if gx then GX else 0)) (2 ^ 5 * p) =
  h + 2 ^ 4 * Z.b2z gx + 2 ^ 5 * p + 2 ^ 7 * Z.b2z vref.
Proof.
  intros Hh Hp. apply Z.eqb_eq.
  assert (H : forallb (fun h => forallb (fun p => forallb (fun vref : bool => forallb (fun gx : bool =>
     Z.lor (Z.lor (Z.lor h (if vref then VREF else 0)) (if gx then GX else 0)) (2 ^ 5 * p) =?
     h + 2 ^ 4 * Z.b2z gx + 2 ^ 5 * p + 2 ^ 7 * Z.b2z vref) [true; false]) [true; false])
     (seqZ 0 4)) (seqZ 0 16) = true) by (vm_compute; reflexivity).
  rewrite forallb_forall in H. specialize (H h ltac:(apply list_elem_of_In, elem_of_seqZ; lia)).
  rewrite forallb_forall in H. specialize (H p ltac:(apply list_elem_of_In, elem_of_seqZ; lia)).
  rewrite forallb_forall in H. specialize (H vref ltac:(destruct vref; cbn; tauto)).
  rewrite forallb_forall in H. by apply (H gx ltac:(destruct gx; cbn; tauto)).
Qed.

Lemma cmd_spec (e nu : bool) i :
  0 <= i < 4 ->
  let cmd := Z.lor (Z.lor (if e then SGWRDACEE else MTWRDAC) (Z.shiftl i WRCHIDX)) (if nu then UDAC else 0) in
  byte cmd /\ field cmd 1 2 = i /\ Z.testbit cmd 0 = nu /\ saves cmd = e /\
  Z.land cmd 0xF8 = if e then SGWRDACEE else MTWRDAC.
Proof.
  intros Hi. assert (i = 0 \/ i = 1 \/ i = 2 \/ i = 3) as [-> | [-> | [-> | ->]]] by lia;
    destruct e, nu; by repeat split.
Qed.

Definition eeprom_mode (c : channel) : bool := test (mode c) Converter.SaveToEEPROM.
Definition chan_saved (c : channel) : channel := if eeprom_mode c then with_eeprom (value c) c else c.

(** The bytes of a channel buffer, as the chip takes them. *)
Lemma setBuffer_spec i nu c :
  0 <= i < 4 -> 0 <= value c < 2 ^ 12 ->
  exists g, setBuffer i nu c = (group_bytes g, chan_saved c) /\ group_ok g /\ saves g.1.1 = eeprom_mode c /\
    Z.land g.1.1 0xF8 = (if eeprom_mode c then SGWRDACEE else MTWRDAC) /\
    forall r, apply_group r g =
      mk_regs (<[Z.to_nat i := chan_word c]> (r_in r))
        (if nu then r_out r else <[Z.to_nat i := chan_word c]> (r_out r))
        (if eeprom_mode c then <[Z.to_nat i := chan_word c]> (r_ee r) else r_ee r).
Proof.
  intros Hi Hv. unfold setBuffer. fold (gain2 (mode c)). rewrite pd_bits_code.
  set (vr := refId c =? InternalReference). set (gx := gain2 (mode c)).
  destruct (cmd_spec (eeprom_mode c) nu i Hi) as (Hb & Hf & Hu & Hs & Hl). fold (eeprom_mode c).
  assert (Hh : u8 (Z.shiftr (value c) 8) = value c / 2 ^ 8).
  { rewrite Z.shiftr_div_pow2 by lia. apply u8_small. split; [apply Z.div_pos; lia|apply Z.div_lt_upper_bound; lia]. }
  assert (Hq : 0 <= value c / 2 ^ 8 < 2 ^ 4) by (split; [apply Z.div_pos; lia|apply Z.div_lt_upper_bound; lia]).
  rewrite Hh, data0_sum by (done || apply pd_code_bound).
  replace (Z.land (value c) 0xFF) with (value c mod 2 ^ 8) by (symmetry; apply (Z.land_ones _ 8); lia).
  set (d0 := value c / 2 ^ 8 + _ + _ + _). pose proof (pd_code_bound (mode c)) as Hp.
  pose proof (Z.mod_pos_bound (value c) (2 ^ 8) ltac:(lia)).
  assert (byte d0) by (unfold byte, d0; destruct vr, gx; cbn; lia).
  eexists (_, d0, _). split; [reflexivity|]. split; [done|]. split; [done|]. split; [done|].
  intros r. unfold apply_group. rewrite Hf, Hu, Hs.
  replace (2 ^ 8 * d0 + value c mod 2 ^ 8) with (chan_word c); [done|].
  unfold chan_word, word, d0. fold vr gx. pose proof (Z.div_mod (value c) (2 ^ 8) ltac:(lia)).
  destruct vr, gx; cbn [Z.b2z]; lia.
Qed.

Section Chip.
Context {K : Kernel} {KOK : KernelOk K} {T : Clock K} {a : Z} {C : Mcp4728Chip K T a}.
Implicit Types d : mcp4728.

Abbreviation kern d := (I2cDev.kernel (i2c d)).

Record wf d : Prop := {
  wf_ready : I2cDev.queued (i2c d) None;
  wf_addr : addr d = a;
  wf_chan : length (chan d) = 4%nat }.

Lemma mcp4728_on_i2c_bind {A B} (m : M I2cDev.world A) (k : A -> M mcp4728 B) d x w :
  m (i2c d) = (Ok x, w) -> (on_i2c m ≫= k) d = k x (set_i2c w d).
Proof. intros H. apply M_bind_ok. unfold on_i2c. by apply zoom_eq. Qed.

Lemma writeRegisters_sent d bs k' :
  wf d -> (length bs < 32)%nat -> k_rdwr [KWrite a bs] (kern d) = (inr [], k') ->
  exists d', writeRegisters bs d = (Ok true, d') /\ wf d' /\ chan d' = chan d /\ kern d' = k'.
Proof.
  intros [] Hn Hk. unfold writeRegisters. pose proof wf_ready0 as ([] & _). rewrite b_open, wf_addr0.
  destruct (I2cDev.send_buf (i2c d) a bs wf_ready0) as (w1 & H1 & Hr1 & Hk1 & _).
  { unfold I2cDev.I2C_BLOCK_MAX. lia. }
  rewrite Hk in H1, Hk1. rewrite (mcp4728_on_i2c_bind _ _ _ _ _ H1). cbn.
  eexists. split; [reflexivity|]. split; [by constructor|]. done.
Qed.

(** One group in a message of its own, saved or not. *)
Lemma write_group d g :
  wf d -> busy (kern d) = false -> group_ok g ->
  Z.land g.1.1 0xF8 = (if saves g.1.1 then SGWRDACEE else MTWRDAC) ->
  exists d', writeRegisters (group_bytes g) d = (Ok true, d') /\ wf d' /\ chan d' = chan d /\
    chip (kern d') = apply_group (chip (kern d)) g /\ busy (kern d') = saves g.1.1.
Proof.
  intros Hwf Hb Hg Hc. assert (Hl : (length (group_bytes g) < 32)%nat) by (destruct g as [[]]; cbn; lia).
  destruct (saves g.1.1) eqn:Es.
  - destruct (write_single (kern d) g Hb Hg Es) as (k' & Hk & Hr & Hb').
    destruct (writeRegisters_sent d _ k' Hwf Hl Hk) as (d' & H & Hw & Hc' & Hk'). subst k'. eauto 7.
  - destruct (write_multi (kern d) [g] Hb ltac:(done)) as (k' & Hk & Hr & Hb').
    { by constructor; [|constructor]. }
    cbn in Hk. rewrite app_nil_r in Hk.
    destruct (writeRegisters_sent d _ k' Hwf Hl Hk) as (d' & H & Hw & Hc' & Hk'). subst k'. eauto 7.
Qed.

Lemma at_chan_ok d ch c :
  0 <= ch -> chan d !! Z.to_nat ch = Some c -> at_chan ch d = (Ok c, d).
Proof. intros Hc Hl. unfold at_chan, lget. destruct (Z.ltb_spec ch 0); [lia|]. by rewrite Hl. Qed.

Lemma upd_chan_ok d ch c f :
  0 <= ch -> chan d !! Z.to_nat ch = Some c ->
  upd_chan ch f d = (Ok tt, set_chan (<[Z.to_nat ch := f c]> (chan d)) d).
Proof. intros Hc Hl. unfold upd_chan. by rewrite (M_bind_ok _ _ _ _ _ _ _ _ (at_chan_ok d ch c Hc Hl)). Qed.

Lemma wf_set_chan d cs : wf d -> length cs = length (chan d) -> wf (set_chan cs d).
Proof. intros [] Hl. constructor; cbn; congruence. Qed.

Lemma mcp4728_writeChannel_chip d v ch nu c :
  wf d -> busy (kern d) = false -> 0 <= v < 2 ^ 12 -> 0 <= ch -> chan d !! Z.to_nat ch = Some c ->
  exists d', writeChannel v ch nu d = (Ok true, d') /\ wf d' /\
    chan d' = <[Z.to_nat ch := chan_saved (with_value v c)]> (chan d) /\
    busy (kern d') = eeprom_mode c /\
    let w := chan_word (with_value v c) in
    chip (kern d') = mk_regs (<[Z.to_nat ch := w]> (r_in (chip (kern d))))
      (if nu then r_out (chip (kern d)) else <[Z.to_nat ch := w]> (r_out (chip (kern d))))
      (if eeprom_mode c then <[Z.to_nat ch := w]> (r_ee (chip (kern d))) else r_ee (chip (kern d))).
Proof.
  intros Hwf Hb Hv Hc Hl. pose proof (lookup_lt_Some _ _ _ Hl) as Hlt. rewrite (wf_chan _ Hwf) in Hlt.
  unfold writeChannel, NofChannels. destruct (Z.eqb_spec ch (-1)); [lia|].
  destruct (Z.leb_spec 0 ch), (Z.ltb_spec ch 4); [|lia..]. cbn [andb].
  rewrite u16_small by lia.
  rewrite (M_bind_ok _ _ _ _ _ _ _ _ (upd_chan_ok d ch c _ Hc Hl)). set (d1 := set_chan _ d).
  assert (Hl1 : chan d1 !! Z.to_nat ch = Some (with_value v c)) by (cbn; apply list_lookup_insert_eq; by rewrite (wf_chan _ Hwf)).
  rewrite (M_bind_ok _ _ _ _ _ _ _ _ (at_chan_ok d1 ch _ Hc Hl1)).
  destruct (setBuffer_spec ch nu (with_value v c)) as (g & Hg & Hok & Hs & Hcm & Ha); [lia|done|].
  rewrite Hg. rewrite (M_bind_ok _ _ _ _ _ _ _ _ (upd_chan_ok d1 ch _ _ Hc Hl1)). set (d2 := set_chan _ d1).
  assert (Hw2 : wf d2).
  { apply wf_set_chan; [apply wf_set_chan; [done|]|]; by rewrite length_insert. }
  destruct (write_group d2 g Hw2 Hb Hok) as (d3 & H3 & Hw3 & Hc3 & Hr3 & Hb3); [by rewrite Hs|].
  rewrite (M_bind_ok _ _ _ _ _ _ _ _ H3). eexists. split; [reflexivity|]. split; [done|].
  rewrite Hc3, Hb3, Hr3, Hs, Ha. cbn. rewrite list_insert_insert_eq. done.
Qed.

(** ** All channels at once *)
Definition encodes (c : channel) (g : Z * Z * Z) : Prop :=
  group_ok g /\ saves g.1.1 = eeprom_mode c /\ Z.land g.1.1 0xF8 = if eeprom_mode c then SGWRDACEE else MTWRDAC.

Lemma all_buffers_spec nu e cs : forall i,
  (i + length cs <= 4)%nat -> Forall (fun c => 0 <= value c < 2 ^ 12 /\ eeprom_mode c = e) cs ->
  exists gs, all_buffers (Z.of_nat i) nu cs = (group_bytes <$> gs, chan_saved <$> cs) /\ Forall2 encodes cs gs /\
    forall r, fold_left apply_group gs r =
      let ws := chan_word <$> cs in
      mk_regs (list_inserts i ws (r_in r)) (if nu then r_out r else list_inserts i ws (r_out r))
        (if e then list_inserts i ws (r_ee r) else r_ee r).
Proof.
  induction cs as [|c cs IH]; intros i Hi Hcs.
  { exists []. split; [done|]. split; [constructor|]. intros []. cbn. by destruct nu, e. }
  inversion_clear Hcs as [|? ? [Hv He] Hcs']. cbn in Hi.
  destruct (IH (S i) ltac:(lia) Hcs') as (gs & Hgs & Henc & Hf).
  destruct (setBuffer_spec (Z.of_nat i) nu c) as (g & Hg & Hok & Hs & Hcm & Ha); [lia|done|].
  exists (g :: gs). cbn [all_buffers]. rewrite Hg. replace (Z.of_nat i + 1) with (Z.of_nat (S i)) by lia.
  rewrite Hgs. split; [done|]. split; [by constructor|]. intros r. cbn. rewrite Hf, Ha, He, Nat2Z.id. cbn.
  by destruct nu, e; rewrite ?list_insert_inserts_lt by lia.
Qed.

Lemma write_each_saved cs : forall gs d,
  wf d -> Forall2 encodes cs gs -> Forall (fun c => eeprom_mode c = true) cs ->
  exists d', write_each cs (group_bytes <$> gs) d = (Ok true, d') /\ wf d' /\ chan d' = chan d /\
    chip (kern d') = fold_left apply_group gs (chip (kern d)).
Proof.
  induction cs as [|c cs IH]; intros gs d Hwf Henc He; inversion_clear Henc as [|? g ? gs' (Hg & Hs & Hc) Henc'].
  { by exists d. }
  inversion_clear He as [|? ? Hec He']. cbn [write_each fmap list_fmap]. fold (eeprom_mode c). rewrite Hec in *.
  set (d1 := set_i2c (I2cDev.set_env (I2cDev.errno (i2c d)) (k_delay 55 (kern d)) (i2c d)) d).
  destruct (chip_delay (kern d) 55 ltac:(lia)) as (Hch & Hb).
  assert (Hw1 : wf d1).
  { destruct Hwf as [(Hbf & Hq) Ha Hl]. constructor; [|done..]. split; [|done]. by destruct Hbf. }
  destruct (write_group d1 g Hw1 Hb Hg) as (d2 & H2 & Hw2 & Hc2 & Hr2 & _); [by rewrite Hs|].
  destruct (IH gs' d2 Hw2 Henc' He') as (d3 & H3 & Hw3 & Hc3 & Hr3).
  exists d3. rewrite (M_bind_ok _ _ _ (clk_delay 55) _ d tt d1) by done.
  rewrite (M_bind_ok _ _ _ _ _ _ _ _ H2). rewrite Hc3, Hc2, Hr3, Hr2. cbn. by rewrite Hch.
Qed.

Lemma list_inserts_all {A} (ws l : list A) : length ws = length l -> list_inserts 0 ws l = ws.
Proof.
  intros Hl. apply list_eq_same_length with (length ws); [done|by rewrite length_inserts|].
  intros i x y Hi Hx Hy. rewrite list_lookup_inserts in Hx by lia. rewrite Nat.sub_0_r in Hx. congruence.
Qed.

Lemma fast_byte v :
  0 <= v < 2 ^ 12 ->
  let b0 := u8 (Z.land (Z.shiftr v 8) 0x0F) in let b1 := u8 (Z.land v 0xFF) in
  byte b0 /\ byte b1 /\ Z.land b0 0xC0 = 0 /\
  forall w, fast_word w b0 b1 = word (Z.testbit w 15) (Z.testbit w 12) 0 v.
Proof.
  intros Hv. cbv zeta. change 0x0F with (Z.ones 4). change 0xFF with (Z.ones 8).
  rewrite !Z.land_ones, Z.shiftr_div_pow2 by lia.
  assert (Hq : 0 <= v / 2 ^ 8 < 2 ^ 4) by (split; [apply Z.div_pos; lia|apply Z.div_lt_upper_bound; lia]).
  rewrite (Z.mod_small (v / 2 ^ 8)) by done. pose proof (Z.mod_pos_bound v (2 ^ 8) ltac:(lia)).
  rewrite !u8_small by lia. split; [unfold byte; lia|]. split; [done|].
  assert (Hh : Z.land (v / 2 ^ 8) 0xC0 = 0 /\ field (v / 2 ^ 8) 4 2 = 0).
  { rewrite field_div, (Z.div_small (v / 2 ^ 8)) by lia. split; [|done].
    change 0xC0 with (Z.shiftl 3 6). apply Z.bits_inj'. intros n Hn. rewrite Z.land_spec, Z.bits_0.
    destruct (Z.lt_ge_cases n 4); [rewrite Z.shiftl_spec_low by lia; apply andb_false_r|].
    by rewrite (testbit_high _ 4). }
  destruct Hh as [-> Hf]. split; [done|]. intros w. unfold fast_word. rewrite Hf. f_equal.
  change 0x0F with (Z.ones 4). rewrite Z.land_ones, (Z.mod_small (v / 2 ^ 8)) by lia.
  pose proof (Z.div_mod v (2 ^ 8) ltac:(lia)). lia.
Qed.

Lemma fastWrite_chip d v :
  wf d -> busy (kern d) = false -> 0 <= v < 2 ^ 12 ->
  exists d', fastWrite v d = (Ok true, d') /\ wf d' /\ chan d' = chan d /\
    r_in (chip (kern d')) = (fun w => word (Z.testbit w 15) (Z.testbit w 12) 0 v) <$> r_in (chip (kern d)) /\
    r_ee (chip (kern d')) = r_ee (chip (kern d)).
Proof.
  intros Hwf Hb Hv. destruct (fast_byte v Hv) as (H0 & H1 & Hc & Hw). set (b0 := u8 (Z.land (Z.shiftr v 8) 15)) in *. set (b1 := u8 (Z.land v 255)) in *.
  destruct (write_fast (kern d) (replicate 4 (b0, b1)) Hb ltac:(done)) as (k' & Hk & Hi & He & _).
  { by apply Forall_replicate. }
  destruct (writeRegisters_sent d (concat (replicate 4 [b0; b1])) k' Hwf) as (d' & H & Hw' & Hc' & Hk');
    [cbn; lia|exact Hk|].
  exists d'. split; [exact H|]. rewrite Hk', Hi, He. do 2 (split; [done|]). split; [|done].
  rewrite zip_with_replicate_r_eq by apply (chip_lengths (kern d)). apply list_fmap_ext. intros i w _. apply Hw.
Qed.

Lemma existsb_with_value f v cs :
  existsb (fun c => test (mode c) f) (with_value v <$> cs) = existsb (fun c => test (mode c) f) cs.
Proof. induction cs as [|c cs IH]; [done|]. change (test (mode c) f || existsb (fun c => test (mode c) f) (with_value v <$> cs) = test (mode c) f || existsb (fun c => test (mode c) f) cs). by rewrite IH. Qed.

Lemma existsb_saved cs :
  (0 < length cs)%nat -> Forall (fun c => eeprom_mode c = true) cs ->
  existsb (fun c => test (mode c) Converter.SaveToEEPROM) cs = true.
Proof.
  intros Hl H. destruct cs as [|c cs]; [cbn in Hl; lia|]. inversion_clear H as [|? ? Hc _]. cbn.
  change (eeprom_mode c || existsb eeprom_mode cs = true). by rewrite Hc.
Qed.

Lemma existsb_unsaved cs :
  Forall (fun c => eeprom_mode c = false) cs ->
  existsb (fun c => test (mode c) Converter.SaveToEEPROM) cs = false.
Proof.
  induction 1 as [|c cs Hc _ IH]; [done|]. cbn. unfold eeprom_mode in Hc. by rewrite Hc, IH.
Qed.

Lemma mcp4728_write_all_chip d v nu e :
  wf d -> 0 <= v < 2 ^ 12 -> busy (kern d) = false -> Forall (fun c => eeprom_mode c = e) (chan d) ->
  let cs := with_value v <$> chan d in
  let ws := chan_word <$> cs in
  exists d', writeChannel v (-1) nu d = (Ok true, d') /\ wf d' /\
    if existsb (fun c => test (mode c) Converter.FastMode) (chan d) then
      chan d' = cs /\ r_ee (chip (kern d')) = r_ee (chip (kern d)) /\
      r_in (chip (kern d')) = (fun w => word (Z.testbit w 15) (Z.testbit w 12) 0 v) <$> r_in (chip (kern d))
    else
      chan d' = chan_saved <$> cs /\
      chip (kern d') = mk_regs ws (if nu then r_out (chip (kern d)) else ws) (if e then ws else r_ee (chip (kern d))).
Proof.
  intros Hwf Hv Hb He cs ws. unfold writeChannel. change (-1 =? -1) with true. cbv iota.
  rewrite (M_bind_ok _ _ _ (upd_all _) _ d tt (set_chan cs d)) by (unfold upd_all; rewrite u16_small by lia; done).
  set (d1 := set_chan cs d).
  assert (Hw1 : wf d1) by (apply wf_set_chan; [done|apply length_fmap]).
  rewrite (M_bind_ok _ _ _ (gets chan) _ d1 cs d1) by done.
  assert (Hx : forall f, existsb (fun c => test (mode c) f) cs = existsb (fun c => test (mode c) f) (chan d)).
  { intros f. apply existsb_with_value. }
  rewrite !Hx. destruct (existsb _ (chan d)).
  { rewrite u16_small by lia. destruct (fastWrite_chip d1 v Hw1 Hb Hv) as (d2 & H2 & Hw2 & Hc2 & Hi2 & He2). eauto 7. }
  assert (Hlen : length cs = 4%nat) by (unfold cs; rewrite length_fmap; apply (wf_chan _ Hwf)).
  destruct (all_buffers_spec nu e cs 0) as (gs & Hgs & Henc & Hf); [lia| |].
  { unfold cs. rewrite Forall_fmap. eapply Forall_impl; [exact He|]. intros c Hc. by split. }
  change (Z.of_nat 0) with 0 in Hgs. rewrite Hgs. set (d2 := set_chan (chan_saved <$> cs) d1).
  rewrite (M_bind_ok _ _ _ (modify _) _ d1 tt d2) by done.
  assert (Hw2 : wf d2) by (apply wf_set_chan; [done|apply length_fmap]).
  assert (Hr : fold_left apply_group gs (chip (kern d)) =
    mk_regs ws (if nu then r_out (chip (kern d)) else ws) (if e then ws else r_ee (chip (kern d)))).
  { rewrite Hf. cbv zeta. destruct (chip_lengths (kern d)) as (L1 & L2 & L3).
    rewrite !list_inserts_all by (rewrite length_fmap; congruence). done. }
  rewrite <- Hr. destruct e.
  - rewrite existsb_saved by (rewrite ?(wf_chan _ Hwf); done || lia).
    destruct (write_each_saved cs gs d2 Hw2 Henc) as (d3 & H3 & Hw3 & Hc3 & Hr3); [|by exists d3].
    unfold cs. by rewrite Forall_fmap.
  - rewrite existsb_unsaved by done.
    destruct (write_multi (kern d) gs Hb) as (k' & Hk & Hr' & _).
    { intros ->. apply Forall2_length in Henc. cbn in Henc. lia. }
    { eapply Forall2_Forall_r; [exact Henc|]. unfold cs. rewrite Forall_fmap. eapply Forall_impl; [exact He|].
      intros c Hc g (Hg & _ & Hm). split; [done|]. rewrite Hm. change (eeprom_mode (with_value v c)) with (eeprom_mode c). by rewrite Hc. }
    destruct (writeRegisters_sent d2 (concat (group_bytes <$> gs)) k' Hw2) as (d3 & H3 & Hw3 & Hc3 & Hk3); [|exact Hk|].
    { apply Forall2_length in Henc. rewrite Hlen in Henc. clear -Henc.
      destruct gs as [|[[]] [|[[]] [|[[]] [|[[]] [|]]]]]; try discriminate Henc. cbn. lia. }
    exists d3. rewrite Hc3, Hk3, <- Hr'. done.
Qed.

(** ** Reading the chip back *)
Lemma readRegisters_sent d bs k' :
  wf d -> k_rdwr [KRead a 24] (kern d) = (inr [bs], k') ->
  exists d', readRegisters d = (Ok (Some bs), d') /\ wf d' /\ chan d' = chan d /\ kern d' = k'.
Proof.
  intros [] Hk. unfold readRegisters. pose proof wf_ready0 as ([] & _).
  rewrite b_open, wf_addr0.
  destruct (I2cDev.request_read (i2c d) None a 24 bs k' wf_ready0 ltac:(done) Hk)
    as (w1 & w2 & H1 & Ha & H2 & Hl & Hr2 & Hk2 & _).
  rewrite (mcp4728_on_i2c_bind _ _ _ _ _ H1). change (0 <=? 24) with true. cbv iota.
  rewrite (M_bind_ok _ _ _ (gets _) _ _ 24 (set_i2c w1 d)) by (unfold gets; cbn; by rewrite Ha).
  rewrite Z.min_id, (mcp4728_on_i2c_bind _ _ (set_i2c w1 d) _ _ H2).
  eexists. split; [reflexivity|]. split; [by constructor|]. done.
Qed.

(** What reading registers [w] and [e] makes of a channel. *)
Record synced (c c' : channel) (w e : Z) : Prop := {
  s_value : value c' = field w 0 12;
  s_eeprom : eeprom c' = field e 0 12;
  s_mode_user : modeSetByUser c = true -> mode c' = mode c;
  s_mode_chip : modeSetByUser c = false ->
    gain2 (mode c') = Z.testbit w 12 /\ pd_code (mode c') = field w 13 2 /\
    Z.land (mode c') (Z.lnot keep_mask) = Z.land (mode c) (Z.lnot keep_mask);
  s_ref : refId c' = if refSetByUser c then refId c
                     else if Z.testbit w 15 then InternalReference else VddReference;
  s_users : modeSetByUser c' = modeSetByUser c /\ refSetByUser c' = refSetByUser c }.

Lemma merge_low m b k g :
  Z.land k g = g -> Z.land (Z.lor (Z.land m (Z.lnot k)) (Z.land b k)) g = Z.land b g.
Proof.
  intros Hk. rewrite Z.land_lor_distr_l, <- !Z.land_assoc, Hk. rewrite <- Hk at 1. rewrite (Z.land_assoc (Z.lnot k)).
  rewrite (Z.land_comm (Z.lnot k)), Z.land_lnot_diag, Z.land_0_l, Z.land_0_r. apply Z.lor_0_l.
Qed.

Lemma merge_high m b k : Z.land (Z.lor (Z.land m (Z.lnot k)) (Z.land b k)) (Z.lnot k) = Z.land m (Z.lnot k).
Proof.
  rewrite Z.land_lor_distr_l, <- !Z.land_assoc, Z.land_diag, Z.land_lnot_diag, Z.land_0_r. apply Z.lor_0_r.
Qed.

Lemma register_bytes w :
  0 <= w < 2 ^ 16 ->
  buf_value (Z.shiftr w 8) (Z.land w 0xFF) = field w 0 12 /\
  test (Z.shiftr w 8) VREF = Z.testbit w 15 /\ test (Z.shiftr w 8) GX = Z.testbit w 12 /\
  Z.land (Z.shiftr w 8) PD_MASK = Z.shiftl (field w 13 2) 5.
Proof.
  intros Hw. split; [|split; [|split]].
  - unfold buf_value, field. change 0x0F with (Z.ones 4). change 0xFF with (Z.ones 8). apply Z.bits_inj'. intros n Hn.
    rewrite Z.lor_spec, Z.shiftl_spec, (Z.land_spec w), (Z.land_spec (Z.shiftr w 0)), Z.shiftr_0_r by lia.
    rewrite !(Z.testbit_ones_nonneg _ n) by lia. destruct (Z.lt_ge_cases n 8).
    + rewrite (Z.testbit_neg_r _ (n - 8)) by lia. cbn. f_equal. case_bool; done || lia.
    + rewrite Z.land_spec, Z.testbit_ones_nonneg, Z.shiftr_spec by lia. replace (n - 8 + 8) with n by lia.
      destruct (Z.ltb_spec n 8); [lia|]. rewrite andb_false_r, orb_false_r. f_equal. case_bool; done || lia.
  - change VREF with (2 ^ 7). rewrite test_single, Z.shiftr_spec by lia. done.
  - change GX with (2 ^ 4). rewrite test_single, Z.shiftr_spec by lia. done.
  - apply Z.bits_inj'. intros n Hn. change PD_MASK with (Z.shiftl (Z.ones 2) 5).
    rewrite Z.land_spec, !Z.shiftl_spec by done. destruct (Z.lt_ge_cases n 5).
    + rewrite !(Z.testbit_neg_r _ (n - 5)) by lia. apply andb_false_r.
    + rewrite testbit_field, Z.testbit_ones_nonneg, Z.shiftr_spec by lia. by replace (n - 5 + 13) with (n + 8) by lia.
Qed.

Lemma buf_mode_spec w :
  0 <= w < 2 ^ 16 ->
  gain2 (buf_mode (Z.shiftr w 8)) = Z.testbit w 12 /\ pd_code (buf_mode (Z.shiftr w 8)) = field w 13 2.
Proof.
  intros Hw. destruct (register_bytes w Hw) as (_ & _ & Hg & Hp). unfold buf_mode. rewrite Hg, Hp.
  pose proof (field_bound w 13 2 ltac:(lia)) as Hb.
  assert (field w 13 2 = 0 \/ field w 13 2 = 1 \/ field w 13 2 = 2 \/ field w 13 2 = 3)
    as [-> | [-> | [-> | ->]]] by lia; destruct (Z.testbit w 12); by vm_compute.
Qed.

Lemma setChannel_frames c i s s' w e :
  frame_status s i false -> frame_status s' i true -> 0 <= w < 2 ^ 16 -> 0 <= e < 2 ^ 16 ->
  synced c (setChannel s' (Z.shiftr e 8) (Z.land e 0xFF) (setChannel s (Z.shiftr w 8) (Z.land w 0xFF) c)) w e.
Proof.
  intros (_ & _ & H0) (_ & _ & H1) Hw He. unfold setChannel. change EEPROM with (2 ^ 3). rewrite !test_single, H0, H1 by lia.
  destruct (register_bytes w Hw) as (Hv & Hr & _). destruct (register_bytes e He) as (Hv' & _).
  destruct (buf_mode_spec w Hw) as (Hg & Hp). rewrite Hv, Hv'.
  assert (Hm : forall m, let m' := Z.lor (Z.land m (Z.lnot keep_mask)) (Z.land (buf_mode (Z.shiftr w 8)) keep_mask) in
     gain2 m' = Z.testbit w 12 /\ pd_code m' = field w 13 2 /\ Z.land m' (Z.lnot keep_mask) = Z.land m (Z.lnot keep_mask)).
  { intros m. unfold gain2, pd_code in *. cbv zeta. rewrite !merge_low by done. by rewrite merge_high. }
  unfold buf_reference. rewrite Hr.
  split; destruct (modeSetByUser c) eqn:Eu, (refSetByUser c) eqn:Er; cbn; rewrite ?Eu, ?Er; cbn; rewrite ?Eu, ?Er; try done;
    unfold ch_setReference; repeat case_match; cbn; rewrite ?Eu, ?Er; try done; intros; by apply Hm.
Qed.

Lemma alter_twice {A} (f g : A -> A) i (l : list A) : alter g i (alter f i l) = alter (fun x => g (f x)) i l.
Proof. revert i. induction l as [|x l IH]; intros [|i]; cbn; [done..|]. by rewrite <- IH. Qed.

Lemma set_frames_app i s s' w e bs cs :
  frame_status s i false -> frame_status s' i true ->
  set_frames (frames s s' w e ++ bs) cs =
  set_frames bs (alter (fun c => setChannel s' (Z.shiftr e 8) (Z.land e 0xFF) (setChannel s (Z.shiftr w 8) (Z.land w 0xFF) c)) i cs).
Proof.
  intros (_ & Hs & _) (_ & Hs' & _). unfold frames. cbn [app set_frames]. unfold buf_channel, RWCHIDX.
  change 0x03 with (Z.ones 2). fold (field s 4 2) (field s' 4 2). rewrite Hs, Hs', Nat2Z.id.
  by rewrite alter_twice.
Qed.

Lemma four {A} (l : list A) : length l = 4%nat -> exists x0 x1 x2 x3, l = [x0; x1; x2; x3].
Proof. intros H. destruct l as [|x0 [|x1 [|x2 [|x3 [|]]]]]; try discriminate H. eauto. Qed.

(** Time passing, enough for the EEPROM. *)
Lemma delayed_chip d ms (waited : bool) : wf d -> 50 <= ms ->
  let d' := if waited then (clk_delay ms d).2 else d in
  wf d' /\ chan d' = chan d /\ chip (kern d') = chip (kern d) /\ (waited = true -> busy (kern d') = false).
Proof.
  intros Hwf Hms. destruct waited; [|done]. destruct (chip_delay (kern d) ms Hms) as [Hc Hb]. cbn.
  split; [|done]. destruct Hwf as [(Hbf & Hq) Ha Hl]. constructor; [|done..]. split; [|done]. by destruct Hbf.
Qed.

Lemma mcp4728_updateSetup_chip d :
  wf d ->
  exists d', updateSetup d = (Ok true, d') /\ wf d' /\ chip (kern d') = chip (kern d) /\ busy (kern d') = busy (kern d) /\
    forall i c w e, chan d !! i = Some c -> r_in (chip (kern d)) !! i = Some w -> r_ee (chip (kern d)) !! i = Some e ->
      exists c' e', chan d' !! i = Some c' /\ synced c c' w e' /\ (busy (kern d) = false -> e' = e).
Proof.
  intros Hwf. destruct (read_all (kern d)) as (k' & fs & Hk & Hc & Hb & Hl & Hfs).
  destruct (readRegisters_sent d _ k' Hwf Hk) as (d1 & H1 & Hw1 & Hc1 & Hk1).
  unfold updateSetup. rewrite (M_bind_ok _ _ _ _ _ _ _ _ H1). munfold.
  destruct (chip_lengths (kern d)) as (Li & _ & Le). pose proof (chip_bounds (kern d)) as Hbd.
  destruct (four _ Hl) as (f0 & f1 & f2 & f3 & ->), (four _ Li) as (w0 & w1 & w2 & w3 & Ei),
    (four _ Le) as (e0 & e1 & e2 & e3 & Ee), (four _ (wf_chan _ Hwf)) as (c0 & c1 & c2 & c3 & Ec).
  rewrite Ei, Ee in Hfs, Hbd. rewrite Ei, Ee, Ec.
  destruct (Hfs 0%nat _ _ _ eq_refl eq_refl eq_refl) as (s0 & t0 & x0 & -> & S0 & T0 & X0 & Y0).
  destruct (Hfs 1%nat _ _ _ eq_refl eq_refl eq_refl) as (s1 & t1 & x1 & -> & S1 & T1 & X1 & Y1).
  destruct (Hfs 2%nat _ _ _ eq_refl eq_refl eq_refl) as (s2 & t2 & x2 & -> & S2 & T2 & X2 & Y2).
  destruct (Hfs 3%nat _ _ _ eq_refl eq_refl eq_refl) as (s3 & t3 & x3 & -> & S3 & T3 & X3 & Y3).
  assert (Hset : set_frames (concat [frames s0 t0 w0 x0; frames s1 t1 w1 x1; frames s2 t2 w2 x2; frames s3 t3 w3 x3]) (chan d1)
    = zip_with (fun f c => f c)
        (zip_with (fun st we c => setChannel st.2 (Z.shiftr we.2 8) (Z.land we.2 0xFF) (setChannel st.1 (Z.shiftr we.1 8) (Z.land we.1 0xFF) c))
          [(s0, t0); (s1, t1); (s2, t2); (s3, t3)] [(w0, x0); (w1, x1); (w2, x2); (w3, x3)]) [c0; c1; c2; c3]).
  { rewrite Hc1, Ec. cbn [concat]. rewrite app_nil_r, (set_frames_app 0 _ _ _ _ _ _ S0 T0), (set_frames_app 1 _ _ _ _ _ _ S1 T1),
      (set_frames_app 2 _ _ _ _ _ _ S2 T2). rewrite <- (app_nil_r (frames s3 _ _ _)), (set_frames_app 3 _ _ _ _ _ _ S3 T3). done. }
  eexists. split; [reflexivity|]. cbn [chan set_chan i2c]. rewrite Hk1. split; [|split; [done|split; [done|]]].
  { apply wf_set_chan; [done|]. rewrite Hset, Hc1, Ec. done. }
  rewrite Hset. intros i c w e Hic Hiw Hie.
  destruct i as [|[|[|[|i]]]]; [..|done]; injection Hic as <-; injection Hiw as <-; injection Hie as <-;
    (eexists _, _; split; [reflexivity|]); (split; [eapply setChannel_frames; [eassumption..|apply Hbd; left|eassumption]|eassumption]);
    rewrite !elem_of_cons; tauto.
Qed.
End Chip.

(** ** A chip to instantiate the interface *)
Definition reg_ok (w : Z) : bool := (0 <=? w) && (w <? 2 ^ 16).
Definition four_ok (l : list Z) : bool := (length l =? 4)%nat && forallb reg_ok l.
Definition norm (l : list Z) : list Z := if four_ok l then l else [0; 0; 0; 0].
Definition norm_regs (r : regs) : regs := mk_regs (norm (r_in r)) (norm (r_out r)) (norm (r_ee r)).

Fixpoint groups (bs : list Z) : list (Z * Z * Z) :=
  match bs with c :: d0 :: d1 :: bs => (c, d0, d1) :: groups bs | _ => [] end.
Fixpoint pairs (bs : list Z) : list (Z * Z) :=
  match bs with b0 :: b1 :: bs => (b0, b1) :: pairs bs | _ => [] end.

Definition quad_write (bs : list Z) (k : regs * bool) : regs * bool :=
  let r := norm_regs k.1 in
  match bs with
  | [] => k
  | b :: _ =>
      if Z.land b 0xC0 =? 0 then
        (mk_regs (zip_with (fun w b => fast_word w b.1 b.2) (r_in r) (pairs bs)) (r_out r) (r_ee r), false)
      else (fold_left apply_group (groups bs) r, saves b)
  end.
Definition quad_read (k : regs * bool) : list (list Z) :=
  (fun c => frames (0xC0 + 16 * Z.of_nat c) (0xC8 + 16 * Z.of_nat c)
     (norm (r_in k.1) !!! c) (if k.2 then 0 else norm (r_ee k.1) !!! c)) <$> seq 0 4.

Definition quad_kernel : Kernel := {|
  kst := regs * bool;
  k_rdwr ms k :=
    match ms with
    | [KWrite _ bs] => if k.2 then (inl 121, k) else (inr [], quad_write bs k)
    | [KRead _ 24] => (inr [concat (quad_read k)], k)
    | _ => (inl 121, k)
    end;
  k_open _ _ k := (inr 3, k);
  k_close _ k := (None, k);
  k_funcs _ k := (inr 1, k) |}.
#[export] Instance quad_clock : Clock quad_kernel :=
  {| k_delay ms (k : @kst quad_kernel) := (k.1, if 50 <=? ms then false else k.2) |}.

#[export] Instance quad_kernel_ok : KernelOk quad_kernel.
Proof. constructor; intros ms k x k'; cbn; intros H; repeat case_match; simplify_eq/=; done. Qed.

Lemma four_ok_spec l : four_ok l = true <-> length l = 4%nat /\ Forall (fun w => 0 <= w < 2 ^ 16) l.
Proof.
  unfold four_ok. rewrite andb_true_iff, Nat.eqb_eq, forallb_forall, Forall_forall. unfold reg_ok.
  setoid_rewrite andb_true_iff. setoid_rewrite Z.leb_le. setoid_rewrite Z.ltb_lt. setoid_rewrite list_elem_of_In. done.
Qed.

Lemma norm_ok l : four_ok (norm l) = true.
Proof. unfold norm. destruct (four_ok l) eqn:E; [done|reflexivity]. Qed.

Lemma norm_id l : four_ok l = true -> norm l = l.
Proof. unfold norm. by intros ->. Qed.

Lemma values_set v (cs : list channel) : value <$> (with_value v <$> cs) = replicate (length cs) v.
Proof. induction cs as [|c cs IH]; [done|]. cbn. f_equal. exact IH. Qed.

Lemma values_saved (cs : list channel) : value <$> (chan_saved <$> cs) = value <$> cs.
Proof.
  rewrite <- list_fmap_compose. apply list_fmap_ext. intros i c _. cbn. unfold chan_saved. by destruct (eeprom_mode c).
Qed.

Definition regs_ok (r : regs) : Prop := four_ok (r_in r) = true /\ four_ok (r_out r) = true /\ four_ok (r_ee r) = true.

Lemma norm_regs_id r : regs_ok r -> norm_regs r = r.
Proof. intros (H1 & H2 & H3). unfold norm_regs. rewrite !norm_id by done. by destruct r. Qed.

Lemma four_ok_insert i w l : 0 <= w < 2 ^ 16 -> four_ok l = true -> four_ok (<[i := w]> l) = true.
Proof. rewrite !four_ok_spec. intros Hw [Hl Hf]. rewrite length_insert. split; [done|]. by apply Forall_insert. Qed.

Lemma apply_group_ok r g : group_ok g -> regs_ok r -> regs_ok (apply_group r g).
Proof.
  destruct g as [[cmd d0] d1]. intros (_ & H0 & H1) (R1 & R2 & R3). unfold byte in *.
  assert (0 <= 2 ^ 8 * d0 + d1 < 2 ^ 16) by lia.
  split; [|split]; cbn; repeat case_match; by try apply four_ok_insert.
Qed.

Lemma fold_groups_ok gs : forall r, Forall group_ok gs -> regs_ok r -> regs_ok (fold_left apply_group gs r).
Proof.
  induction gs as [|g gs IH]; intros r Hg Hr; [done|]. inversion_clear Hg. cbn. apply IH; [done|]. by apply apply_group_ok.
Qed.

Lemma norm_regs_ok r : regs_ok (norm_regs r).
Proof. split; [|split]; apply norm_ok. Qed.

Lemma groups_bytes gs : groups (concat (group_bytes <$> gs)) = gs.
Proof. induction gs as [|[[]] gs IH]; [done|]. cbn. by rewrite IH. Qed.

Lemma pairs_bytes bs : pairs (concat ((fun b => [b.1; b.2]) <$> bs)) = bs.
Proof. induction bs as [|[] bs IH]; [done|]. cbn. by rewrite IH. Qed.

Lemma land_C0 c x : Z.land c 0xF8 = x -> Z.land c 0xC0 = Z.land x 0xC0.
Proof. intros <-. by rewrite <- Z.land_assoc. Qed.

Lemma fast_word_bound w b0 b1 : byte b0 -> byte b1 -> 0 <= fast_word w b0 b1 < 2 ^ 16.
Proof.
  intros H0 H1. apply word_fields; [|apply (field_bound b0 4 2); lia]. change 0x0F with (Z.ones 4).
  rewrite Z.land_ones by lia. pose proof (Z.mod_pos_bound b0 (2 ^ 4) ltac:(lia)). unfold byte in *. lia.
Qed.

Lemma fast_ok l bs :
  four_ok l = true -> length bs = 4%nat -> Forall (fun b => byte b.1 /\ byte b.2 /\ Z.land b.1 0xC0 = 0) bs ->
  four_ok (zip_with (fun w b => fast_word w b.1 b.2) l bs) = true.
Proof.
  rewrite !four_ok_spec. intros [Hl Hf] Hb Hbs. rewrite length_zip_with, Hl, Hb. split; [done|].
  apply Forall_lookup_2. intros i x Hx. apply lookup_zip_with_Some in Hx as (w & b & -> & _ & Hib).
  eapply Forall_lookup_1 in Hbs as (H0 & H1 & _); [|exact Hib]. by apply fast_word_bound.
Qed.

Lemma quad_read_frames (k : regs * bool) c f w e :
  quad_read k !! c = Some f -> norm (r_in k.1) !! c = Some w -> norm (r_ee k.1) !! c = Some e ->
  exists s s' e', f = frames s s' w e' /\ frame_status s c false /\ frame_status s' c true /\
    0 <= e' < 2 ^ 16 /\ (k.2 = false -> e' = e).
Proof.
  intros Hf Hw He. unfold quad_read in Hf. apply list_lookup_fmap_Some in Hf as (c' & -> & Hc).
  apply lookup_seq in Hc as [-> Hc]. rewrite (list_lookup_total_correct _ _ _ Hw), (list_lookup_total_correct _ _ _ He).
  assert (Hb : 0 <= e < 2 ^ 16).
  { apply list_elem_of_lookup_2 in He. exact (proj1 (Forall_forall _ _) (proj2 (proj1 (four_ok_spec _) (norm_ok _))) e He). }
  assert (Hx : 0 <= (if k.2 then 0 else e) < 2 ^ 16) by (destruct k.2; lia).
  eexists _, _, _. split; [reflexivity|]. assert (c = 0 \/ c = 1 \/ c = 2 \/ c = 3)%nat as [-> | [-> | [-> | ->]]] by lia;
    (split; [by repeat split|split; [by repeat split|split; [exact Hx|by intros ->]]]).
Qed.

Lemma quad_write_groups g gs (k : regs * bool) :
  Z.land g.1.1 0xC0 = 0x40 ->
  quad_write (concat (group_bytes <$> g :: gs)) k = (fold_left apply_group (g :: gs) (norm_regs k.1), saves g.1.1).
Proof.
  intros Hc. destruct g as [[cmd d0] d1]. unfold quad_write. cbn [fmap list_fmap concat group_bytes app groups].
  rewrite groups_bytes. cbn [fst] in *. by rewrite Hc.
Qed.

#[export] Instance quad_chip a : Mcp4728Chip quad_kernel quad_clock a.
Proof.
  refine {| chip (k : @kst quad_kernel) := norm_regs k.1; busy (k : @kst quad_kernel) := k.2 |}.
  - intros k. split; [|split]; apply four_ok_spec, norm_ok.
  - intros k w [Hw|Hw]; refine (proj1 (Forall_forall _ _) (proj2 (proj1 (four_ok_spec _) (norm_ok _))) w Hw).
  - intros k ms Hms. cbn. split; [done|]. by destruct (Z.leb_spec 50 ms); [|lia].
  - intros k gs Hb Hne Hgs. cbn. rewrite Hb. eexists. split; [reflexivity|].
    destruct gs as [|g gs]; [done|]. pose proof Hgs as Hgs'. inversion_clear Hgs' as [|? ? [Hg Hc] _].
    rewrite quad_write_groups by apply (land_C0 _ _ Hc). split; [|cbn; unfold saves; by rewrite Hc].
    apply norm_regs_id, fold_groups_ok; [|apply norm_regs_ok]. eapply Forall_impl; [exact Hgs|]. by intros ? [].
  - intros k g Hb Hg Hs. cbn. rewrite Hb. eexists. split; [reflexivity|]. pose proof Hs as Hc. apply Z.eqb_eq in Hc.
    rewrite <- (app_nil_r (group_bytes g)). change (group_bytes g ++ []) with (concat (group_bytes <$> [g])).
    rewrite quad_write_groups by apply (land_C0 _ _ Hc). split; [|done].
    apply norm_regs_id, apply_group_ok; [done|apply norm_regs_ok].
  - intros k bs Hb Hl Hbs. cbn. rewrite Hb. eexists. split; [reflexivity|].
    destruct bs as [|[b0 b1] bs]; [done|]. pose proof Hbs as Hbs'. inversion_clear Hbs' as [|? ? (_ & _ & Hc) _]. cbn in Hc.
    unfold quad_write. set (bs1 := (b0, b1) :: bs) in *. rewrite (pairs_bytes bs1). cbn [fmap list_fmap concat bs1 app fst snd].
    rewrite Hc. cbn. split; [|split; [|done]]; apply norm_id; [|apply norm_ok].
    apply fast_ok; [apply norm_ok|done|done].
  - intros k. exists k, (quad_read k). do 4 (split; [done|]). intros c f w e. apply quad_read_frames.
Defined.

Definition demo_new : @mcp4728 quad_kernel :=
  new (@I2cDev.new quad_kernel (replicate 32 0) (replicate 32 0) 0
    (mk_regs [2048; 0x9064; 0; 0x2FFF] [0; 0; 0; 0] [0; 0; 100; 0], false)) DefaultAddress.
Definition demo_dev : @mcp4728 quad_kernel := (setMode (Z.lor Gain2 Converter.SaveToEEPROM) 2 (open IoDevice.ReadWrite demo_new).2).2.

Lemma mcp4728_demo_wf : wf (a := 0x60) demo_dev.
Proof.
  constructor; [|by vm_compute..].
  split; [|by vm_compute]. constructor; try by vm_compute; constructor; by vm_compute.
Qed.

Abbreviation quad_state d := (chip (a := 0x60) (I2cDev.kernel (i2c d))).

(** The fast frames go out before the EEPROM is thought of, and cached values of
    the public fast write stay behind. *)
Lemma fastWrite_values_stale :
  value <$> chan (fastWrite_values [1; 2; 3; 4] demo_dev).2 = value <$> chan demo_dev /\
  r_in (quad_state (fastWrite_values [1; 2; 3; 4] demo_dev).2) = [1; 0x9002; 3; 4].
Proof. by vm_compute. Qed.

(** The EEPROM flag of channel 2 is not looked at when channel 2 is read. *)
Lemma readChannel_ignores_mode :
  (readChannel 2 false demo_dev).1 = Ok 0 /\ eeprom <$> chan demo_dev !! 2%nat = Some 100 /\
  eeprom_mode <$> chan demo_dev !! 2%nat = Some true.
Proof. by vm_compute. Qed.

(** A channel with the EEPROM flag followed by one without: the second write
    meets a chip that is still programming. *)
Lemma write_after_eeprom_refused :
  (writeChannel 7 (-1) false demo_dev).1 = Ok false.
Proof. by vm_compute. Qed.

(** Writing one channel of the MCP4728 sets exactly that channel: its input
    register holds the 12-bit value with the reference, gain and power-down code
    the channel was given, its output follows unless the update is held back, its
    EEPROM word is rewritten if and only if the channel is in [SaveToEEPROM] mode,
    and all registers of the three other channels stay as they were. *)
Theorem mcp4728_writeChannel_exact {K : Kernel} {KOK : KernelOk K} {T : Clock K} {a : Z} {C : Mcp4728Chip K T a}
    (d : mcp4728) (v ch : Z) (noUpdate : bool) (c : channel) :
  let R d := chip (a := a) (I2cDev.kernel (i2c d)) in
  wf (a := a) d -> busy (a := a) (I2cDev.kernel (i2c d)) = false -> 0 <= v < 2 ^ 12 ->
  0 <= ch -> chan d !! Z.to_nat ch = Some c ->
  exists d', writeChannel v ch noUpdate d = (Ok true, d') /\ wf (a := a) d' /\
    chan d' = <[Z.to_nat ch := chan_saved (with_value v c)]> (chan d) /\
    let w := word (refId c =? InternalReference) (gain2 (mode c)) (pd_code (mode c)) v in
    r_in (R d') = <[Z.to_nat ch := w]> (r_in (R d)) /\
    r_out (R d') = (if noUpdate then r_out (R d) else <[Z.to_nat ch := w]> (r_out (R d))) /\
    r_ee (R d') = if test (mode c) Converter.SaveToEEPROM then <[Z.to_nat ch := w]> (r_ee (R d)) else r_ee (R d).
Proof.
  intros R Hwf Hb Hv Hc Hl.
  destruct (mcp4728_writeChannel_chip d v ch noUpdate c Hwf Hb Hv Hc Hl) as (d' & H & Hw & Hch & _ & Hr).
  exists d'. do 3 (split; [done|]). unfold R. cbv zeta in Hr. rewrite Hr. done.
Qed.

Lemma mcp4728_writeChannel_exact_witness :
  exists d', writeChannel 0xABC 2 false demo_dev = (Ok true, d') /\ r_in (quad_state d') = [2048; 0x9064; 0x1ABC; 0x2FFF] /\
    r_ee (quad_state d') = [0; 0; 0x1ABC; 0].
Proof.
  destruct (mcp4728_writeChannel_exact (a := 0x60) demo_dev 0xABC 2 false
    (nth 2 (chan demo_dev) new_channel)) as (d' & H & _ & _ & Hi & _ & He);
    [exact mcp4728_demo_wf|vm_compute; reflexivity|lia|lia|vm_compute; reflexivity|].
  exists d'. split; [exact H|]. split; [rewrite Hi|rewrite He]; vm_compute; reflexivity.
Defined.

(** Writing all channels of the MCP4728 sets all four: for channels that agree
    on the EEPROM flag, every input register holds the value, in the fast format
    with the power-down code cleared and the chip's own reference and gain kept,
    otherwise with each channel's own settings, and then the outputs follow unless
    held back and the EEPROM is rewritten exactly in [SaveToEEPROM] mode.  With
    one channel in [FastMode] the EEPROM is left alone. *)
Theorem mcp4728_write_all_exact {K : Kernel} {KOK : KernelOk K} {T : Clock K} {a : Z} {C : Mcp4728Chip K T a}
    (d : mcp4728) (v : Z) (noUpdate saved : bool) :
  let R d := chip (a := a) (I2cDev.kernel (i2c d)) in
  wf (a := a) d -> 0 <= v < 2 ^ 12 -> busy (a := a) (I2cDev.kernel (i2c d)) = false ->
  Forall (fun c => test (mode c) Converter.SaveToEEPROM = saved) (chan d) ->
  let ws := (fun c => word (refId c =? InternalReference) (gain2 (mode c)) (pd_code (mode c)) v) <$> chan d in
  exists d', writeChannel v (-1) noUpdate d = (Ok true, d') /\ wf (a := a) d' /\
    (value <$> chan d') = replicate 4 v /\
    if existsb (fun c => test (mode c) Converter.FastMode) (chan d) then
      r_ee (R d') = r_ee (R d) /\
      r_in (R d') = (fun w => word (Z.testbit w 15) (Z.testbit w 12) 0 v) <$> r_in (R d)
    else
      r_in (R d') = ws /\ r_out (R d') = (if noUpdate then r_out (R d) else ws) /\
      r_ee (R d') = if saved then ws else r_ee (R d).
Proof.
  intros R Hwf Hv Hb He ws.
  destruct (mcp4728_write_all_chip d v noUpdate saved Hwf Hv Hb He) as (d' & H & Hw & Hx).
  exists d'. do 2 (split; [done|]).
  assert (Hws : chan_word <$> (with_value v <$> chan d) = ws) by (rewrite <- list_fmap_compose; done).
  pose proof (wf_chan _ Hwf) as Hl. destruct (existsb _ (chan d)).
  - destruct Hx as (Hc & Hx). split; [|done]. by rewrite Hc, values_set, Hl.
  - destruct Hx as (Hc & Hx). split; [by rewrite Hc, values_saved, values_set, Hl|]. unfold R. rewrite Hx. cbn [r_in r_out r_ee]. by rewrite Hws.
Qed.

Definition demo_all : @mcp4728 quad_kernel := (setMode (Z.lor Gain2 Converter.SaveToEEPROM) (-1) demo_dev).2.

Lemma mcp4728_all_wf : wf (a := 0x60) demo_all.
Proof.
  constructor; [|by vm_compute..].
  split; [|by vm_compute]. constructor; try by vm_compute; constructor; by vm_compute.
Qed.

Lemma demo_all_saved : Forall (fun c => test (mode c) Converter.SaveToEEPROM = true) (chan demo_all).
Proof.
  assert (H : forallb (fun c => test (mode c) Converter.SaveToEEPROM) (chan demo_all) = true) by (vm_compute; reflexivity).
  rewrite forallb_forall in H. apply Forall_forall. intros c Hc. by apply H, list_elem_of_In.
Qed.

Lemma mcp4728_write_all_exact_witness :
  exists d', writeChannel 0xABC (-1) true demo_all = (Ok true, d') /\
    r_ee (quad_state d') = [0x1ABC; 0x9ABC; 0x1ABC; 0x1ABC] /\ r_out (quad_state d') = [0; 0; 0; 0].
Proof.
  destruct (mcp4728_write_all_exact (a := 0x60) demo_all 0xABC true true) as (d' & H & _ & _ & Hx);
    [exact mcp4728_all_wf|lia|vm_compute; reflexivity|exact demo_all_saved|].
  assert (E : existsb (fun c => test (mode c) Converter.FastMode) (chan demo_all) = false) by (vm_compute; reflexivity).
  rewrite E in Hx. destruct Hx as (_ & Ho & He). exists d'. split; [exact H|].
  split; [rewrite He|rewrite Ho]; vm_compute; reflexivity.
Defined.

(** C37: Reading the MCP4728 back gives what was written.  On a chip that is not
    programming its EEPROM, after a write to one channel and a read of the 24
    registers, at once or later, the channel has the value written, the gain,
    power-down code and reference it was written with, whether the user had chosen
    them or not, and every mode flag the chip does not store is as before.  In
    [SaveToEEPROM] mode the channel also has this value as EEPROM value when 50
    milliseconds or more have passed before the read. *)
Theorem mcp4728_write_read_back {K : Kernel} {KOK : KernelOk K} {T : Clock K} {a : Z} {C : Mcp4728Chip K T a}
    (d : mcp4728) (v ch ms : Z) (noUpdate waited : bool) (c : channel) :
  wf (a := a) d -> busy (a := a) (I2cDev.kernel (i2c d)) = false -> 0 <= v < 2 ^ 12 ->
  0 <= ch -> chan d !! Z.to_nat ch = Some c -> 50 <= ms ->
  exists d1 d2 c2, writeChannel v ch noUpdate d = (Ok true, d1) /\
    updateSetup (if waited then (clk_delay ms d1).2 else d1) = (Ok true, d2) /\
    wf (a := a) d2 /\ chan d2 !! Z.to_nat ch = Some c2 /\ value c2 = v /\
    gain2 (mode c2) = gain2 (mode c) /\ pd_code (mode c2) = pd_code (mode c) /\
    (refId c2 =? InternalReference) = (refId c =? InternalReference) /\
    Z.land (mode c2) (Z.lnot keep_mask) = Z.land (mode c) (Z.lnot keep_mask) /\
    (waited = true -> test (mode c) Converter.SaveToEEPROM = true -> eeprom c2 = v).
Proof.
  intros Hwf Hb Hv Hc Hl Hms.
  destruct (mcp4728_writeChannel_chip d v ch noUpdate c Hwf Hb Hv Hc Hl) as (d1 & H1 & Hw1 & Hch & _ & Hr). cbv zeta in Hr.
  destruct (delayed_chip d1 ms waited Hw1 Hms) as (Hw1' & Hch' & Hr' & Hb'). set (d1' := if waited then _ else _) in *.
  rewrite Hch in Hch'. rewrite Hr in Hr'.
  destruct (mcp4728_updateSetup_chip d1' Hw1') as (d2 & H2 & Hw2 & _ & _ & Hs).
  pose proof (lookup_lt_Some _ _ _ Hl) as Hlt. pose proof (wf_chan _ Hwf) as H4.
  destruct (chip_lengths (a := a) (I2cDev.kernel (i2c d))) as (Li & _ & Le).
  set (cv := with_value v c) in *. set (w := chan_word cv) in *.
  destruct (lookup_lt_is_Some_2 (r_ee (chip (a := a) (I2cDev.kernel (i2c d1')))) (Z.to_nat ch)) as (e & He).
  { pose proof (chip_lengths (a := a) (I2cDev.kernel (i2c d1'))). lia. }
  destruct (Hs (Z.to_nat ch) (chan_saved cv) w e) as (c2 & e2 & Hc2 & [Sv Se Smu Smc Sr _] & He2);
    [by rewrite Hch', list_lookup_insert_eq|by rewrite Hr'; cbn; apply list_lookup_insert_eq; lia|done|].
  destruct (word_fields (refId c =? InternalReference) (gain2 (mode c)) (pd_code (mode c)) v Hv (pd_code_bound _))
    as (_ & F1 & F2 & F3 & F4). change (word _ _ _ _) with w in F1, F2, F3, F4.
  rewrite F1 in Sv. rewrite F2, F3 in Smc. rewrite F4 in Sr.
  assert (Hsv : modeSetByUser (chan_saved cv) = modeSetByUser c /\ mode (chan_saved cv) = mode c /\
    refSetByUser (chan_saved cv) = refSetByUser c /\ refId (chan_saved cv) = refId c)
    by (unfold chan_saved; by destruct (eeprom_mode cv)).
  destruct Hsv as (E1 & E2 & E3 & E4). rewrite E1, E2 in Smu, Smc. rewrite E3, E4 in Sr.
  assert (Hm : gain2 (mode c2) = gain2 (mode c) /\ pd_code (mode c2) = pd_code (mode c) /\
    Z.land (mode c2) (Z.lnot keep_mask) = Z.land (mode c) (Z.lnot keep_mask)).
  { destruct (modeSetByUser c); [by rewrite Smu|by apply Smc]. }
  destruct Hm as (M1 & M2 & M3). exists d1, d2, c2. do 7 (split; [done|]).
  split; [rewrite Sr; by destruct (refSetByUser c), (refId c =? InternalReference)|]. split; [done|].
  intros Hwt Hsave. rewrite Se, (He2 (Hb' Hwt)), <- F1. f_equal. rewrite Hr' in He. cbn in He. change (eeprom_mode c = true) in Hsave.
  rewrite Hsave, list_lookup_insert_eq in He by lia. congruence.
Qed.

Lemma mcp4728_write_read_back_witness :
  exists d1 d2 c2, writeChannel 0xABC 2 true demo_dev = (Ok true, d1) /\ updateSetup (clk_delay 60 d1).2 = (Ok true, d2) /\
    chan d2 !! 2%nat = Some c2 /\ value c2 = 0xABC /\ eeprom c2 = 0xABC.
Proof.
  destruct (mcp4728_write_read_back (a := 0x60) demo_dev 0xABC 2 60 true true (nth 2 (chan demo_dev) new_channel))
    as (d1 & d2 & c2 & H1 & H2 & _ & Hc & Hv & _ & _ & _ & _ & He);
    [exact mcp4728_demo_wf|vm_compute; reflexivity|lia|lia|vm_compute; reflexivity|lia|].
  exists d1, d2, c2. do 3 (split; [assumption|]). split; [exact Hv|apply He; vm_compute; reflexivity].
Defined.
End Mcp4728.
