(* ===== verification/Gpio2.v ===== *)
(** * GPIO lines of the kernel, include/piduino/gpio2.h and src/gpio/gpio_dev2.cpp

    Module [Gpio2] has the classes [Chip] and [Line], which make the requests of
    the GPIO character device; the kernel is the interface [LineOs], with the C
    convention that a failed call returns -1 and leaves its reason in [errno].
    Module [GpioDev2] is the pin device on one line: configuration, levels and
    the wait for an edge.  The interrupt thread is modelled by one turn of its
    loop. *)
From S2P Require Import Prelude IoDevice Mmio.
Import Flags Pin.

Module Gpio2.

(** [gpio_v2_line_flag] and [gpio_v2_line_attr_id] *)
Definition FLAG_USED : Z := 2 ^ 0.
Definition FLAG_INPUT : Z := 2 ^ 2.
Definition FLAG_OUTPUT : Z := 2 ^ 3.
Definition FLAG_EDGE_RISING : Z := 2 ^ 4.
Definition FLAG_EDGE_FALLING : Z := 2 ^ 5.
Definition FLAG_BIAS_PULL_UP : Z := 2 ^ 8.
Definition FLAG_BIAS_PULL_DOWN : Z := 2 ^ 9.
Definition FLAG_BIAS_DISABLED : Z := 2 ^ 10.
Definition ATTR_ID_OUTPUT_VALUES : Z := 2.
Definition ATTR_ID_DEBOUNCE : Z := 3.

(** [LineConfig]: the flags and the first attribute, the only one in use; the
    64-bit [c_value] is the union of [values] and [debounce_period_us]. *)
Record config : Type := mk_config { flags : Z; num_attrs : Z; attr_id : Z; attr_value : Z; attr_mask : Z }.
Definition clear : config := mk_config 0 0 0 0 0.
Definition with_flags (f : Z) (c : config) : config := mk_config f (num_attrs c) (attr_id c) (attr_value c) (attr_mask c).

#[export] Instance config_eq_dec : EqDecision config.
Proof. solve_decision. Defined.

Record event : Type := mk_event { timestamp_ns : Z; event_id : Z; event_offset : Z; seqno : Z; line_seqno : Z }.
Definition no_event : event := mk_event 0 0 0 0 0.

Class LineOs (W : Type) : Type := {
  errno : W -> Z;
  sys_open : string -> W -> Z * W;
  sys_close : Z -> W -> Z * W;
  sys_line_info : Z -> Z -> W -> (Z * Z) * W;
  sys_get_line : Z -> Z -> config -> W -> (Z * Z) * W;
  sys_set_config : Z -> config -> W -> Z * W;
  sys_get_values : Z -> Z -> W -> (Z * Z) * W;
  sys_set_values : Z -> Z -> Z -> W -> Z * W;
  sys_poll : Z -> Z -> W -> Z * W;
  sys_read_event : Z -> W -> (Z * event) * W }.

Record chip : Type := mk_chip { c_dev : string; c_fd : Z; c_error : Z; c_result : Z }.
Record line : Type := mk_line { l_offset : Z; l_config : config; l_fd : Z; l_error : Z; l_result : Z }.

Definition new_chip : chip := mk_chip EmptyString (-1) 0 0.
Definition new_line (offset : Z) : line := mk_line offset clear (-1) 0 0.
Definition chip_isOpen (c : chip) : bool := negb (c_fd c =? -1).
Definition line_isOpen (l : line) : bool := 0 <=? l_fd l.

Definition set_config (c : config) (l : line) : line := mk_line (l_offset l) c (l_fd l) (l_error l) (l_result l).
Definition set_fd (fd : Z) (l : line) : line := mk_line (l_offset l) (l_config l) fd (l_error l) (l_result l).
Definition set_result (e r : Z) (l : line) : line := mk_line (l_offset l) (l_config l) (l_fd l) e r.

Section Calls.
Context {W : Type} {L : LineOs W}.

(** [errno] after a call that failed, 0 after one that did not. *)
Definition failed (r : Z) (w : W) : Z := if r =? -1 then errno w else 0.

(** [Chip::open], which does not look at the descriptor it already has. *)
Definition chip_open (dev : string) (c : chip) (w : W) : bool * chip * W :=
  let '(fd, w) := sys_open dev w in
  if negb (fd =? -1) then (true, mk_chip dev fd 0 (c_result c), w)
  else (false, mk_chip dev fd (errno w) (c_result c), w).
Definition chip_close (c : chip) (w : W) : bool * chip * W :=
  if chip_isOpen c then
    let '(r, w) := sys_close (c_fd c) w in (negb (r =? -1), mk_chip (c_dev c) (-1) (failed r w) r, w)
  else (true, c, w).

(** [Chip::ioCtl] records the result of a request. *)
Definition io_result (r : Z) (c : chip) (w : W) : chip := mk_chip (c_dev c) (c_fd c) (failed r w) r.

(** The operations of [Line] on its chip. *)
Record lst : Type := mk_lst { s_line : line; s_chip : chip; s_w : W }.

(** The error of the chip becomes the one of the line. *)
Definition chip_error (r : Z) (c : chip) (l : line) : line :=
  if r =? -1 then set_result (c_error c) (c_result c) l else set_result 0 0 l.

Definition line_getInfo : M lst (option Z) := fun s =>
  let '(r, flags, w) := sys_line_info (c_fd (s_chip s)) (l_offset (s_line s)) (s_w s) in
  let c := io_result r (s_chip s) w in
  (Ok (if r =? -1 then None else Some flags), mk_lst (chip_error r c (s_line s)) c w).

Definition line_open (cfg : config) : M lst bool := fun s =>
  if chip_isOpen (s_chip s) && negb (line_isOpen (s_line s)) then
    let l := set_config cfg (s_line s) in
    let '(r, fd, w) := sys_get_line (c_fd (s_chip s)) (l_offset l) cfg (s_w s) in
    let c := io_result r (s_chip s) w in
    let l := chip_error r c (if r =? -1 then l else set_fd fd l) in
    (Ok (line_isOpen l), mk_lst l c w)
  else (Ok (line_isOpen (s_line s)), s).

Definition line_setConfig (cfg : config) : M lst bool := fun s =>
  let l := set_config cfg (s_line s) in
  if line_isOpen l then
    let '(r, w) := sys_set_config (l_fd l) cfg (s_w s) in
    (Ok (0 <=? r), mk_lst (set_result (failed r w) r l) (s_chip s) w)
  else (Ok false, mk_lst l (s_chip s) (s_w s)).

Definition line_close : M lst bool := fun s =>
  if line_isOpen (s_line s) then
    let '(r, w) := sys_close (l_fd (s_line s)) (s_w s) in
    (Ok (r =? 0), mk_lst (set_fd (-1) (set_result (failed r w) r (s_line s))) (s_chip s) w)
  else (Ok false, s).

Definition line_getValue : M lst bool := fun s =>
  if line_isOpen (s_line s) then
    let '(r, bits, w) := sys_get_values (l_fd (s_line s)) 1 (s_w s) in
    let s := mk_lst (set_result (failed r w) r (s_line s)) (s_chip s) w in
    if negb (r =? -1) then (Ok (negb (Z.land bits 1 =? 0)), s) else (Throw (SystemError (errno w)), s)
  else (Ok false, s).

Definition line_setValue (value : bool) : M lst bool := fun s =>
  if line_isOpen (s_line s) then
    let '(r, w) := sys_set_values (l_fd (s_line s)) (if value then 1 else 0) 1 (s_w s) in
    (Ok (negb (r =? -1)), mk_lst (set_result (failed r w) r (s_line s)) (s_chip s) w)
  else (Ok false, s).

(** The low half of the union is the debounce period. *)
Definition line_debounce (l : line) : Z := u32 (attr_value (l_config l)) / 1000.
Definition with_period (us : Z) (v : Z) : Z := Z.shiftl (Z.shiftr v 32) 32 + us.
Definition line_setDebounce (debounce_ms : Z) : M lst bool := fun s =>
  if negb (debounce_ms =? line_debounce (s_line s)) then
    let c := l_config (s_line s) in
    line_setConfig
      (if 0 <? debounce_ms
       then mk_config (flags c) 1 ATTR_ID_DEBOUNCE (with_period (u32 (debounce_ms * 1000)) (attr_value c)) (Z.lor (attr_mask c) 1)
       else mk_config (flags c) 0 ATTR_ID_DEBOUNCE (with_period 0 (attr_value c)) 0) s
  else (Ok true, s).

(** After a time-out, and after a short read, [errno] is what it was. *)
Definition EVENT_SIZE : Z := 48.
Definition line_waitForEvent (timeout_ms : Z) : M lst (option event) := fun s =>
  if line_isOpen (s_line s) then
    let l := s_line s in
    let '(r, w) := sys_poll (l_fd l) timeout_ms (s_w s) in
    if 0 <? r then
      let '(n, ev, w) := sys_read_event (l_fd l) w in
      if n =? EVENT_SIZE then (Ok (Some ev), mk_lst (set_result 0 n l) (s_chip s) w)
      else (Ok None, mk_lst (set_result (errno w) n l) (s_chip s) w)
    else (Ok None, mk_lst (set_result (errno w) r l) (s_chip s) w)
  else (Ok None, s).
End Calls.
End Gpio2.

Module GpioDev2.
Import Gpio2.

Inductive edge : Type := EdgeNone | EdgeRising | EdgeFalling | EdgeBoth | EdgeUnknown.

(** [GpioDev2::Private]; [isr] is the thread of an attached interrupt. *)
Record gpiodev2 : Type := mk_gpiodev2 {
  base : IoDevice.iodevice; gline : line; debounce : Z; gmode : mode; gpull : pull; outputValue : Z; isr : bool }.

Definition set_base (f : IoDevice.iodevice -> IoDevice.iodevice) (d : gpiodev2) : gpiodev2 :=
  mk_gpiodev2 (f (base d)) (gline d) (debounce d) (gmode d) (gpull d) (outputValue d) (isr d).
Definition set_gline (l : line) (d : gpiodev2) : gpiodev2 :=
  mk_gpiodev2 (base d) l (debounce d) (gmode d) (gpull d) (outputValue d) (isr d).
Definition set_debounce (n : Z) (d : gpiodev2) : gpiodev2 :=
  mk_gpiodev2 (base d) (gline d) n (gmode d) (gpull d) (outputValue d) (isr d).
Definition set_gmode (m : mode) (d : gpiodev2) : gpiodev2 :=
  mk_gpiodev2 (base d) (gline d) (debounce d) m (gpull d) (outputValue d) (isr d).
Definition set_gpull (p : pull) (d : gpiodev2) : gpiodev2 :=
  mk_gpiodev2 (base d) (gline d) (debounce d) (gmode d) p (outputValue d) (isr d).
Definition set_outputValue (v : Z) (d : gpiodev2) : gpiodev2 :=
  mk_gpiodev2 (base d) (gline d) (debounce d) (gmode d) (gpull d) v (isr d).
Definition set_isr (b : bool) (d : gpiodev2) : gpiodev2 :=
  mk_gpiodev2 (base d) (gline d) (debounce d) (gmode d) (gpull d) (outputValue d) b.

Definition isOpen (d : gpiodev2) : bool := IoDevice.isOpen (base d).
Definition error (d : gpiodev2) : Z := IoDevice.error (base d).

(** The modes a line has, [Private::modes]. *)
Definition modes : list (mode * string) := [(ModeInput, "in"); (ModeOutput, "out")].

(** [pinConfig]: [m], [p] and [v] are the mode, the pull and the level of the pin. *)
Definition pinConfig (m : mode) (p : pull) (v : bool) : config :=
  let bias := match p with PullUp => FLAG_BIAS_PULL_UP | PullDown => FLAG_BIAS_PULL_DOWN | _ => FLAG_BIAS_DISABLED end in
  match m with
  | ModeInput => mk_config (Z.lor FLAG_INPUT bias) 0 0 0 0
  | ModeOutput => mk_config (Z.lor FLAG_OUTPUT bias) 1 ATTR_ID_OUTPUT_VALUES (if v then 1 else 0) 1
  | _ => mk_config (Z.lor FLAG_INPUT FLAG_BIAS_PULL_DOWN) 0 0 0 0
  end.

Definition edge_config (e : edge) (c : config) : option config :=
  match e with
  | EdgeRising => Some (with_flags (Z.lor (flags c) FLAG_EDGE_RISING) c)
  | EdgeFalling => Some (with_flags (Z.lor (flags c) FLAG_EDGE_FALLING) c)
  | EdgeBoth => Some (with_flags (Z.lor (flags c) (Z.lor FLAG_EDGE_FALLING FLAG_EDGE_RISING)) c)
  | EdgeNone | EdgeUnknown => None
  end.

Definition mode_config (m : mode) (c : config) : config :=
  match m with
  | ModeInput => with_flags (Z.land (Z.lor (flags c) FLAG_INPUT) (Z.lnot FLAG_OUTPUT)) c
  | ModeOutput => with_flags (Z.land (Z.lor (flags c) FLAG_OUTPUT) (Z.lnot FLAG_INPUT)) c
  | ModeDisabled => with_flags (Z.land (flags c) (Z.lnot (Z.lor FLAG_INPUT FLAG_OUTPUT))) c
  | _ => c
  end.
Definition pull_config (p : pull) (c : config) : config :=
  match p with
  | PullUp => with_flags (Z.land (Z.lor (flags c) FLAG_BIAS_PULL_UP) (Z.lnot (Z.lor FLAG_BIAS_PULL_DOWN FLAG_BIAS_DISABLED))) c
  | PullDown => with_flags (Z.land (Z.lor (flags c) FLAG_BIAS_PULL_DOWN) (Z.lnot (Z.lor FLAG_BIAS_PULL_UP FLAG_BIAS_DISABLED))) c
  | PullOff => with_flags (Z.land (Z.lor (flags c) FLAG_BIAS_DISABLED) (Z.lnot (Z.lor FLAG_BIAS_PULL_UP FLAG_BIAS_PULL_DOWN))) c
  | PullUnknown => c
  end.

Section Device.
Context {W : Type} {L : LineOs W}.

Record st : Type := mk_st { dev : gpiodev2; chp : chip; w : W }.

Definition upd (f : gpiodev2 -> gpiodev2) : M st unit := modify (fun s => mk_st (f (dev s)) (chp s) (w s)).
Definition on_line {A} (m : M lst A) : M st A :=
  zoom (fun s => mk_lst (gline (dev s)) (chp s) (w s)) (fun l s => mk_st (set_gline (s_line l) (dev s)) (s_chip l) (s_w l)) m.
(** [setError (line->errorCode (), line->errorMessage ())] *)
Definition line_error : M st unit := upd (fun d => set_base (IoDevice.setError_text (l_error (gline d)) "line") d).
Definition clear_error : M st unit := upd (set_base IoDevice.clearError).

(** The constructor, on the chip of the pin. *)
Definition new_dev (offset : Z) : gpiodev2 :=
  mk_gpiodev2 IoDevice.new (new_line offset) 0 ModeUnknown PullUnknown (-1) false.
Definition construct (chipNumber : string) (offset : Z) (c : chip) (x : W) : st :=
  let '(ok, c, x) := chip_open chipNumber c x in
  let d := new_dev offset in
  mk_st (if (ok : bool) then d else set_base (IoDevice.setError_text (c_error c) "chip") d) c x.

(** [open] with the configuration of the pin. *)
Definition open (openmode : Z) (cfg : M st config) : M st bool := fun s =>
  if isOpen (dev s) then (Ok true, s)
  else if chip_isOpen (chp s) then
    (c ← cfg;
     ok ← on_line (line_open c);
     if (ok : bool) then upd (set_base (fun b => (IoDevice.popen openmode b).2));; mret true
     else line_error;; mret false) s
  else (Ok false, s).

Definition detachInterrupt : M st unit := upd (set_isr false).
Definition close : M st unit := fun s =>
  if isOpen (dev s) then
    (detachInterrupt;;
     ok ← on_line line_close;
     (if (ok : bool) then clear_error else line_error);;
     upd (set_outputValue (-1));; upd (set_base IoDevice.pclose)) s
  else (Ok tt, s).
(** The destructor; the line closes its descriptor itself. *)
Definition destroy : M st unit := detachInterrupt;; close;; on_line line_close;; mret tt.

Definition mode_of_flags (f : Z) : mode :=
  if test f FLAG_OUTPUT then ModeOutput else if test f FLAG_INPUT then ModeInput else ModeDisabled.
Definition get_mode : M st mode := fun s =>
  if isOpen (dev s) then
    (i ← on_line line_getInfo;
     match i with
     | Some f => upd (set_gmode (mode_of_flags f))
     | None => line_error
     end;;
     gets (fun s => gmode (dev s))) s
  else (Ok (gmode (dev s)), s).

Definition pull_of_flags (f : Z) (old : pull) : pull :=
  if test f FLAG_BIAS_PULL_UP then PullUp else if test f FLAG_BIAS_PULL_DOWN then PullDown
  else if test f FLAG_BIAS_DISABLED then PullOff else old.
Definition get_pull : M st pull := fun s =>
  if isOpen (dev s) then
    (i ← on_line line_getInfo;
     match i with
     | Some f => upd (fun d => set_gpull (pull_of_flags f (gpull d)) d)
     | None => line_error
     end;;
     gets (fun s => gpull (dev s))) s
  else (Ok (gpull (dev s)), s).

Definition config_of (s : st) : config := l_config (gline (dev s)).
(** The configuration is sent to the kernel; a refusal is recorded. *)
Definition send (c : config) : M st unit :=
  ok ← on_line (line_setConfig c);
  if (ok : bool) then mret tt else line_error.

Definition setMode (m : mode) : M st unit := fun s =>
  match tab modes m with
  | None => (Throw InvalidArgument, s)
  | Some _ =>
      (upd (set_gmode m);;
       if isOpen (dev s) then c ← gets config_of; send (mode_config m c) else mret tt) s
  end.

Definition setPull (p : pull) : M st unit := fun s =>
  if bool_decide (p = PullUnknown) then (Throw InvalidArgument, s)
  else
    (upd (set_gpull p);;
     if isOpen (dev s) then c ← gets config_of; send (pull_config p c) else mret tt) s.

Definition write (v : bool) : M st unit := fun s =>
  if isOpen (dev s) then
    (ok ← on_line (line_setValue v);
     if (ok : bool) then clear_error else line_error) s
  else upd (set_outputValue (if v then 1 else 0)) s.

Definition read : M st bool := fun s =>
  if isOpen (dev s) then on_line line_getValue s else (Ok false, s).

Definition setDebounce (ms : Z) : M st unit := upd (set_debounce ms).

(** [setPinEdge] and the private [setDebounce]. *)
Definition setPinEdge (e : edge) (cfg : M st config) : M st bool :=
  c ← cfg;
  match edge_config e c with
  | None => mret false
  | Some c =>
      ok ← on_line (line_setConfig c);
      if (ok : bool) then clear_error;; mret true
      else modify (fun s => mk_st (set_base (IoDevice.setError_errno (errno (w s))) (dev s)) (chp s) (w s));; mret false
  end.
Definition pSetDebounce : M st bool := fun s => on_line (line_setDebounce (debounce (dev s))) s.

(** The private [waitForInterrupt]. *)
Definition pWait (timeout_ms : Z) : M st (option event) :=
  e ← on_line (line_waitForEvent timeout_ms);
  match e with
  | Some ev => clear_error;; mret (Some ev)
  | None => line_error;; mret None
  end.

Definition waitForInterrupt (e : edge) (cfg : M st config) (timeout_ms : Z) : M st (option event) := fun s =>
  if isOpen (dev s) then
    (ok ← setPinEdge e cfg;
     if (ok : bool) then
       ok ← pSetDebounce;
       if (ok : bool) then clear_error;; pWait timeout_ms else mret None
     else mret None) s
  else (Ok None, s).

Definition attachInterrupt (e : edge) (cfg : M st config) : M st bool := fun s =>
  if isOpen (dev s) then
    (ok ← setPinEdge e cfg;
     if (ok : bool) then
       ok ← pSetDebounce;
       if (ok : bool) then clear_error;; upd (set_isr true);; mret true else mret false
     else mret false) s
  else (Ok false, s).

(** One turn of [isrFunc]: the event the user's function gets, if any; an error
    ends the program, [std::terminate]. *)
Definition isr_turn : M st (option event) :=
  e ← pWait 10;
  match e with
  | Some ev => mret (Some ev)
  | None => b ← gets (fun s => error (dev s));
            if negb (b =? 0) then throw RuntimeError else mret None
  end.
End Device.

(** ** The kernel's side of one line

    A configuration is accepted when it has one direction, at most one bias,
    edges and debouncing on inputs only.  [req] is the request that holds the
    line: its descriptor, its flags and the level it drives; a configuration
    for an output sets the level to the value it names, inactive without one. *)
Definition one_of (a b c : bool) : bool := negb (a && b || a && c || b && c).
Definition valid (c : config) : bool :=
  xorb (test (flags c) FLAG_INPUT) (test (flags c) FLAG_OUTPUT) &&
  one_of (test (flags c) FLAG_BIAS_PULL_UP) (test (flags c) FLAG_BIAS_PULL_DOWN) (test (flags c) FLAG_BIAS_DISABLED) &&
  (test (flags c) FLAG_INPUT ||
   negb (test (flags c) FLAG_EDGE_RISING || test (flags c) FLAG_EDGE_FALLING ||
         ((num_attrs c =? 1) && (attr_id c =? ATTR_ID_DEBOUNCE)))).
Definition level_of (c : config) : bool :=
  (num_attrs c =? 1) && (attr_id c =? ATTR_ID_OUTPUT_VALUES) && Z.testbit (attr_mask c) 0 && Z.testbit (attr_value c) 0.

Class LineOsOk (W : Type) (L : LineOs W) (off : Z) : Type := {
  req : W -> option (Z * Z * bool);
  ok_get_line : forall cfd c x, 0 <= cfd -> req x = None -> valid c = true ->
    exists fd x', sys_get_line cfd off c x = ((0, fd), x') /\ 0 <= fd /\ req x' = Some (fd, flags c, level_of c);
  ok_set_config : forall fd f v c x, req x = Some (fd, f, v) -> valid c = true ->
    exists x', sys_set_config fd c x = (0, x') /\ req x' = Some (fd, flags c, level_of c);
  bad_set_config : forall fd f v c x, req x = Some (fd, f, v) -> valid c = false ->
    exists x', sys_set_config fd c x = (-1, x') /\ req x' = req x /\ errno x' <> 0;
  ok_info : forall cfd fd f v x, 0 <= cfd -> req x = Some (fd, f, v) ->
    exists x', sys_line_info cfd off x = ((0, Z.lor f FLAG_USED), x') /\ req x' = req x;
  ok_set_value : forall fd f v b x, req x = Some (fd, f, v) -> test f FLAG_OUTPUT = true ->
    exists x', sys_set_values fd (if b : bool then 1 else 0) 1 x = (0, x') /\ req x' = Some (fd, f, b);
  bad_set_value : forall fd f v b x, req x = Some (fd, f, v) -> test f FLAG_OUTPUT = false ->
    exists x', sys_set_values fd b 1 x = (-1, x') /\ req x' = req x /\ errno x' <> 0 }.

#[local] Arguments mode_of_flags : simpl never.
#[local] Arguments pull_of_flags : simpl never.
#[local] Arguments valid : simpl never.
#[local] Arguments level_of : simpl never.

(** The modes and pulls a line can be asked for. *)
Inductive line_mode : Type := LInput | LOutput.
Inductive line_pull : Type := LOff | LDown | LUp.
Definition to_mode (m : line_mode) : mode := match m with LInput => ModeInput | LOutput => ModeOutput end.
Definition to_pull (p : line_pull) : pull := match p with LOff => PullOff | LDown => PullDown | LUp => PullUp end.
Definition flags_of (m : line_mode) (p : line_pull) : Z :=
  Z.lor (match m with LInput => FLAG_INPUT | LOutput => FLAG_OUTPUT end)
    (match p with LOff => FLAG_BIAS_DISABLED | LDown => FLAG_BIAS_PULL_DOWN | LUp => FLAG_BIAS_PULL_UP end).

(** A configuration without edges and debouncing. *)
Definition plain (c : config) (m : line_mode) (p : line_pull) : Prop :=
  flags c = flags_of m p /\ (num_attrs c = 0 \/ num_attrs c = 1 /\ attr_id c = ATTR_ID_OUTPUT_VALUES).

Lemma plain_valid c m p : plain c m p -> valid c = true.
Proof.
  intros (Hf & Ha). unfold valid. rewrite Hf.
  assert ((num_attrs c =? 1) && (attr_id c =? ATTR_ID_DEBOUNCE) = false) as -> by (destruct Ha as [->|[-> ->]]; done).
  by destruct m, p.
Qed.

Lemma plain_pinConfig m p v : plain (pinConfig (to_mode m) (to_pull p) v) m p.
Proof. destruct m, p; (split; [reflexivity|cbn; auto]). Qed.

Lemma plain_mode c m p m' : plain c m p -> plain (mode_config (to_mode m') c) m' p.
Proof. intros (Hf & Ha). destruct m'; (split; [cbn; rewrite Hf; by destruct m, p|exact Ha]). Qed.

Lemma plain_pull c m p p' : plain c m p -> plain (pull_config (to_pull p') c) m p'.
Proof. intros (Hf & Ha). destruct p'; (split; [cbn; rewrite Hf; by destruct m, p|exact Ha]). Qed.

Lemma mode_of_plain m p : mode_of_flags (Z.lor (flags_of m p) FLAG_USED) = to_mode m.
Proof. by destruct m, p. Qed.

Lemma pull_of_plain m p old : pull_of_flags (Z.lor (flags_of m p) FLAG_USED) old = to_pull p.
Proof. by destruct m, p. Qed.

Section Proofs.
Context {W : Type} {L : LineOs W} {off : Z} {OK : LineOsOk W L off}.

(** An open device whose configuration the kernel has accepted. *)
Record holds (s : st) (m : line_mode) (p : line_pull) (v : bool) : Prop := {
  h_open : isOpen (dev s) = true;
  h_chip : 0 <= c_fd (chp s);
  h_off : l_offset (gline (dev s)) = off;
  h_fd : 0 <= l_fd (gline (dev s));
  h_plain : plain (l_config (gline (dev s))) m p;
  h_req : req (w s) = Some (l_fd (gline (dev s)), flags_of m p, v) }.

Lemma get_mode_holds s m p v :
  holds s m p v -> exists s', get_mode s = (Ok (to_mode m), s') /\ holds s' m p v /\ config_of s' = config_of s.
Proof.
  intros []. unfold get_mode. rewrite h_open0.
  destruct (ok_info (c_fd (chp s)) _ _ _ (w s) h_chip0 h_req0) as (x' & Hi & Hr).
  munfold. unfold on_line, zoom, line_getInfo. cbn. rewrite h_off0, Hi.
  change (0 =? -1) with false. munfold. rewrite mode_of_plain.
  eexists. split; [reflexivity|]. split; [|done]. constructor; cbn; try done. by rewrite Hr.
Qed.

Lemma get_pull_holds s m p v :
  holds s m p v -> exists s', get_pull s = (Ok (to_pull p), s') /\ holds s' m p v /\ config_of s' = config_of s.
Proof.
  intros []. unfold get_pull. rewrite h_open0.
  destruct (ok_info (c_fd (chp s)) _ _ _ (w s) h_chip0 h_req0) as (x' & Hi & Hr).
  munfold. unfold on_line, zoom, line_getInfo. cbn. rewrite h_off0, Hi.
  change (0 =? -1) with false. munfold. rewrite pull_of_plain.
  eexists. split; [reflexivity|]. split; [|done]. constructor; cbn; try done. by rewrite Hr.
Qed.

Lemma send_holds s c m p v m' p' :
  holds s m p v -> plain c m' p' ->
  exists s', send c s = (Ok tt, s') /\ holds s' m' p' (level_of c) /\ config_of s' = c.
Proof.
  intros [] Hc. destruct (ok_set_config _ _ _ c (w s) h_req0 (plain_valid _ _ _ Hc)) as (x' & Hs & Hr).
  unfold send, on_line. munfold. unfold zoom, line_setConfig, line_isOpen. cbn.
  rewrite (proj2 (Z.leb_le 0 _) h_fd0), Hs. change (0 <=? 0) with true. munfold. eexists. split; [reflexivity|]. split; [|done].
  constructor; cbn; try done. by rewrite Hr, (proj1 Hc).
Qed.

(** Requests on an open device, and what they make of the line: a change of the
    mode or the pull drives the level [v0] named when the line was opened. *)
Inductive op : Type := SetMode (m : line_mode) | SetPull (p : line_pull) | Write (b : bool).
Definition exec (o : op) : M st unit :=
  match o with SetMode m => setMode (to_mode m) | SetPull p => setPull (to_pull p) | Write b => write b end.
Definition run (ops : list op) : M st unit := foldr (fun o k => exec o;; k) (mret tt) ops.

Definition astep (v0 : bool) (a : line_mode * line_pull * bool) (o : op) : line_mode * line_pull * bool :=
  let '(m, p, v) := a in
  match o, m with
  | SetMode m', _ => (m', p, v0)
  | SetPull p', _ => (m, p', v0)
  | Write b, LOutput => (m, p, b)
  | Write b, LInput => (m, p, v)
  end.

Lemma level_mode c m : level_of (mode_config m c) = level_of c.
Proof. by destruct m. Qed.
Lemma level_pull c p : level_of (pull_config p c) = level_of c.
Proof. by destruct p. Qed.

Lemma holds_upd s m p v f :
  holds s m p v -> gline (f (dev s)) = gline (dev s) -> isOpen (f (dev s)) = true ->
  holds (mk_st (f (dev s)) (chp s) (w s)) m p v.
Proof. intros [] Hg Ho. constructor; cbn; rewrite ?Hg; done. Qed.

Lemma setMode_holds s m p v m' :
  holds s m p v ->
  exists s', setMode (to_mode m') s = (Ok tt, s') /\ holds s' m' p (level_of (config_of s)) /\
    level_of (config_of s') = level_of (config_of s).
Proof.
  intros H. pose proof (h_open _ _ _ _ H) as Ho. unfold setMode.
  assert (exists n, tab modes (to_mode m') = Some n) as (n & ->) by (destruct m'; eauto).
  set (s1 := mk_st (set_gmode (to_mode m') (dev s)) (chp s) (w s)).
  assert (H1 : holds s1 m p v) by (by apply (holds_upd s m p v (set_gmode (to_mode m')))).
  destruct (send_holds s1 (mode_config (to_mode m') (config_of s)) m p v m' p) as (s2 & H2 & Hh & Hc).
  { done. } { apply (plain_mode _ m), (h_plain _ _ _ _ H). }
  exists s2. rewrite Ho. rewrite level_mode in Hh. rewrite Hc, level_mode. done.
Qed.

Lemma setPull_holds s m p v p' :
  holds s m p v ->
  exists s', setPull (to_pull p') s = (Ok tt, s') /\ holds s' m p' (level_of (config_of s)) /\
    level_of (config_of s') = level_of (config_of s).
Proof.
  intros H. pose proof (h_open _ _ _ _ H) as Ho. unfold setPull.
  assert (bool_decide (to_pull p' = PullUnknown) = false) as -> by (by destruct p').
  set (s1 := mk_st (set_gpull (to_pull p') (dev s)) (chp s) (w s)).
  assert (H1 : holds s1 m p v) by (by apply (holds_upd s m p v (set_gpull (to_pull p')))).
  destruct (send_holds s1 (pull_config (to_pull p') (config_of s)) m p v m p') as (s2 & H2 & Hh & Hc).
  { done. } { apply (plain_pull _ m p), (h_plain _ _ _ _ H). }
  exists s2. rewrite Ho. rewrite level_pull in Hh. rewrite Hc, level_pull. done.
Qed.

Lemma output_flag m p : test (flags_of m p) FLAG_OUTPUT = match m with LOutput => true | LInput => false end.
Proof. by destruct m, p. Qed.

Lemma write_holds s m p v b :
  holds s m p v ->
  exists s', write b s = (Ok tt, s') /\ holds s' m p (match m with LOutput => b | LInput => v end) /\
    config_of s' = config_of s.
Proof.
  intros H. pose proof H as []. unfold write. rewrite h_open0. unfold on_line.
  munfold. unfold zoom, line_setValue, line_isOpen. cbn. rewrite (proj2 (Z.leb_le 0 _) h_fd0).
  pose proof (output_flag m p) as Hf. destruct m.
  - destruct (bad_set_value _ _ _ (if b then 1 else 0) (w s) h_req0 Hf) as (x' & -> & Hr & _). munfold.
    eexists. split; [reflexivity|]. split; [|done]. constructor; cbn; try done. by rewrite Hr.
  - destruct (ok_set_value _ _ _ b (w s) h_req0 Hf) as (x' & -> & Hr). munfold.
    eexists. split; [reflexivity|]. split; [|done]. by constructor.
Qed.

Lemma run_holds ops : forall s m p v v0,
  holds s m p v -> level_of (config_of s) = v0 ->
  exists s', run ops s = (Ok tt, s') /\
    let '(m', p', v') := fold_left (astep v0) ops (m, p, v) in holds s' m' p' v'.
Proof.
  induction ops as [|o ops IH]; intros s m p v v0 H Hv; [by exists s|]. cbn [run foldr fold_left].
  assert (exists s1, exec o s = (Ok tt, s1) /\ level_of (config_of s1) = v0 /\
    let '(m', p', v') := astep v0 (m, p, v) o in holds s1 m' p' v') as (s1 & H1 & Hv1 & Hh).
  { destruct o as [m'|p'|b]; cbn.
    - destruct (setMode_holds s m p v m' H) as (s1 & ? & Hh & ?). exists s1. by rewrite <- Hv.
    - destruct (setPull_holds s m p v p' H) as (s1 & ? & Hh & ?). exists s1. by rewrite <- Hv.
    - destruct (write_holds s m p v b H) as (s1 & ? & Hh & Hc). exists s1. rewrite Hc. by destruct m. }
  destruct (astep v0 (m, p, v) o) as [[m1 p1] v1].
  destruct (IH s1 m1 p1 v1 v0 Hh Hv1) as (s2 & H2 & Hh2).
  exists s2. split; [|done]. rewrite (M_bind_ok _ _ _ _ _ _ _ _ H1). exact H2.
Qed.

(** Before the line is requested. *)
Record idle (s : st) : Prop := {
  i_closed : isOpen (dev s) = false;
  i_chip : 0 <= c_fd (chp s);
  i_off : l_offset (gline (dev s)) = off;
  i_fd : l_fd (gline (dev s)) = -1;
  i_req : req (w s) = None }.

Lemma open_holds s m p v :
  idle s ->
  exists s', open IoDevice.ReadWrite (mret (pinConfig (to_mode m) (to_pull p) v)) s = (Ok true, s') /\
    holds s' m p (match m with LOutput => v | LInput => false end) /\
    level_of (config_of s') = (match m with LOutput => v | LInput => false end).
Proof.
  intros []. unfold open. rewrite i_closed0. unfold chip_isOpen. rewrite (proj2 (Z.eqb_neq _ (-1))) by lia. cbn [negb].
  pose proof (plain_pinConfig m p v) as Hc. set (c := pinConfig _ _ _) in *.
  destruct (ok_get_line (c_fd (chp s)) c (w s) i_chip0 i_req0 (plain_valid _ _ _ Hc)) as (fd & x' & Hg & Hfd & Hr).
  assert (Hl : level_of c = match m with LOutput => v | LInput => false end) by (by destruct m, p, v).
  munfold. unfold on_line, zoom, line_open, chip_isOpen, line_isOpen. cbn. rewrite i_fd0, i_off0.
  rewrite (proj2 (Z.eqb_neq (c_fd (chp s)) (-1))) by lia. change (0 <=? -1) with false. cbn [negb andb].
  rewrite Hg. unfold chip_error. change (0 =? -1) with false. cbn. rewrite (proj2 (Z.leb_le 0 fd) Hfd). munfold.
  eexists. split; [reflexivity|]. split; [|done]. constructor; cbn; try done. by rewrite Hr, (proj1 Hc), Hl.
Qed.

Lemma edge_flags e c0 c p :
  edge_config e c0 = Some c -> flags c0 = flags_of LInput p ->
  valid (mk_config (flags c) 0 0 0 0) = true /\ num_attrs c = num_attrs c0 /\
  mode_of_flags (Z.lor (flags c) FLAG_USED) = ModeInput /\
  valid (mode_config ModeOutput c) = false.
Proof.
  intros He Hf. destruct e; simplify_eq/=; rewrite Hf; destruct p; split_and!; reflexivity.
Qed.
End Proofs.

(** C10: The device on a kernel line keeps the line as it was asked to: opened with
    the mode, pull and level of the pin, and after any sequence of [setMode],
    [setPull] and [write], the kernel's line has the last mode and the last pull
    asked for, [mode] and [pull] report them, and an output drives the last level
    written, except that every change of mode or pull drives again the level
    the line was opened with. *)
Theorem gpiodev2_refines {W} {L : LineOs W} {off : Z} {OK : LineOsOk W L off}
    (s : st) (m : line_mode) (p : line_pull) (v : bool) (ops : list op) :
  idle (off := off) s ->
  let v0 := match m with LOutput => v | LInput => false end in
  let '(m', p', v') := fold_left (astep v0) ops (m, p, v0) in
  exists s1 s2, open IoDevice.ReadWrite (mret (pinConfig (to_mode m) (to_pull p) v)) s = (Ok true, s1) /\
    run ops s1 = (Ok tt, s2) /\ req (w s2) = Some (l_fd (gline (dev s2)), flags_of m' p', v') /\
    (get_mode s2).1 = Ok (to_mode m') /\ (get_pull s2).1 = Ok (to_pull p').
Proof.
  intros Hi v0. destruct (open_holds s m p v Hi) as (s1 & H1 & Hh1 & Hv1). fold v0 in Hh1, Hv1.
  destruct (run_holds ops s1 m p v0 v0 Hh1 Hv1) as (s2 & H2 & Hh2).
  destruct (fold_left (astep v0) ops (m, p, v0)) as [[m' p'] v'].
  destruct (get_mode_holds s2 m' p' v' Hh2) as (? & Hm & _), (get_pull_holds s2 m' p' v' Hh2) as (? & Hp & _).
  exists s1, s2. rewrite Hm, Hp. do 2 (split; [done|]). split; [apply Hh2|done].
Qed.

(** After a wait for an edge the line cannot be made an output: the edge flags
    stay in the configuration, the kernel refuses them on an output, and the
    refusal is lost, for [setMode] returns without an error and [error] is 0 while
    the line is still an input. *)
Theorem gpiodev2_edge_blocks_output {W} {L : LineOs W} {off : Z} {OK : LineOsOk W L off}
    (s : st) (p : line_pull) (v : bool) (e : edge) (c : config) :
  holds (off := off) s LInput p v -> edge_config e (pinConfig ModeInput (to_pull p) false) = Some c ->
  exists s1 s2, setPinEdge e (mret (pinConfig ModeInput (to_pull p) false)) s = (Ok true, s1) /\
    setMode ModeOutput s1 = (Ok tt, s2) /\ error (dev s2) = 0 /\ (get_mode s2).1 = Ok ModeInput.
Proof.
  intros [Ho Hcf Hof Hfd Hpl Hrq] He. set (c0 := pinConfig _ _ _) in *.
  destruct (plain_pinConfig LInput p false) as (Hf0 & _).
  destruct (edge_flags e c0 c p He Hf0) as (Hv & Hn & Hm & Hbad).
  assert (Hvc : valid c = true).
  { unfold valid in *. rewrite Hn. cbn [flags num_attrs attr_id] in Hv. exact Hv. }
  destruct (ok_set_config _ _ _ c (w s) Hrq Hvc) as (x1 & Hs1 & Hr1).
  destruct (bad_set_config _ _ _ (mode_config ModeOutput c) x1 Hr1 Hbad) as (x2 & Hs2 & Hr2 & _).
  rewrite Hr1 in Hr2. destruct (ok_info (c_fd (chp s)) _ _ _ x2 Hcf Hr2) as (x3 & Hi3 & _).
  eexists _, _. split; [|split; [|split]].
  - unfold setPinEdge. munfold. rewrite He. unfold on_line. munfold. unfold zoom, line_setConfig, line_isOpen. cbn.
    rewrite (proj2 (Z.leb_le 0 _) Hfd), Hs1. change (0 <=? 0) with true. munfold. reflexivity.
  - unfold setMode. cbn [tab modes].  cbn.
    unfold isOpen, IoDevice.isOpen in *. cbn. rewrite Ho. unfold send, on_line. munfold. unfold zoom, line_setConfig, line_isOpen. cbn.
    rewrite (proj2 (Z.leb_le 0 _) Hfd). unfold config_of. cbn. rewrite Hs2. munfold. reflexivity.
  - done.
  - unfold get_mode, isOpen, IoDevice.isOpen in *. cbn. rewrite Ho. unfold on_line. munfold. unfold zoom, line_getInfo. cbn. rewrite Hof, Hi3.
    change (0 =? -1) with false. munfold. by rewrite Hm.
Qed.

(** ** A kernel to evaluate on: one line, descriptors counted *)
Module Demo.
Record kline : Type := mk_kline { k_req : option (Z * Z * bool); k_errno : Z; k_open : list Z }.

Definition next_fd (k : kline) : Z := 3 + Z.of_nat (length (k_open k)).
Definition fail (e : Z) (k : kline) : kline := mk_kline (k_req k) e (k_open k).

#[export] Instance demo_lines : LineOs kline := {|
  errno := k_errno;
  sys_open _ k := (next_fd k, mk_kline (k_req k) (k_errno k) (next_fd k :: k_open k));
  sys_close fd k := (0, mk_kline (k_req k) (k_errno k) (filter (fun x => x <> fd) (k_open k)));
  sys_line_info _ _ k := match k_req k with Some (_, f, _) => ((0, Z.lor f FLAG_USED), k) | None => ((0, FLAG_INPUT), k) end;
  sys_get_line _ _ c k :=
    match k_req k with
    | None => if valid c then ((0, 100), mk_kline (Some (100, flags c, level_of c)) (k_errno k) (k_open k)) else ((-1, 0), fail 22 k)
    | Some _ => ((-1, 0), fail 16 k)
    end;
  sys_set_config fd c k :=
    match k_req k with
    | Some (fd', _, _) => if valid c then (0, mk_kline (Some (fd', flags c, level_of c)) (k_errno k) (k_open k)) else (-1, fail 22 k)
    | None => (-1, fail 9 k)
    end;
  sys_get_values _ _ k := match k_req k with Some (_, _, v) => ((0, if v : bool then 1 else 0), k) | None => ((-1, 0), fail 9 k) end;
  sys_set_values fd b _ k :=
    match k_req k with
    | Some (fd', f, _) => if test f FLAG_OUTPUT then (0, mk_kline (Some (fd', f, b =? 1)) (k_errno k) (k_open k)) else (-1, fail 1 k)
    | None => (-1, fail 9 k)
    end;
  sys_poll _ _ k := (0, k);
  sys_read_event _ k := ((-1, no_event), fail 11 k) |}.

#[export] Instance demo_lines_ok : LineOsOk kline demo_lines 17.
Proof.
  refine {| req := k_req |}.
  - intros cfd c x _ Hr Hv. eexists 100, _. cbn. rewrite Hr, Hv. split; [reflexivity|]. split; [lia|done].
  - intros fd f v c x Hr Hv. eexists. cbn. rewrite Hr, Hv. done.
  - intros fd f v c x Hr Hv. eexists. cbn. rewrite Hr, Hv. split; [reflexivity|]. by rewrite <- Hr.
  - intros cfd fd f v x _ Hr. eexists. cbn. rewrite Hr. split; [reflexivity|]. done.
  - intros fd f v b x Hr Ht. eexists. cbn. rewrite Hr, Ht. split; [reflexivity|]. by destruct b.
  - intros fd f v b x Hr Ht. eexists. cbn. rewrite Hr, Ht. split; [reflexivity|]. by rewrite <- Hr.
Defined.

Definition kline0 : kline := mk_kline None 0 [].
Definition dev0 : @st kline := construct "/dev/gpiochip0" 17 new_chip kline0.

Lemma dev0_idle : idle (off := 17) dev0.
Proof. constructor; (reflexivity || (vm_compute; discriminate)). Qed.

(** A second device on the chip opens it again and the first descriptor is lost. *)
Lemma chip_descriptor_lost :
  k_open (w dev0) = [3] /\
  k_open (w (construct "/dev/gpiochip0" 18 (chp dev0) (w dev0))) = [4; 3] /\
  c_fd (chp (construct "/dev/gpiochip0" 18 (chp dev0) (w dev0))) = 4.
Proof. by vm_compute. Qed.

(** A time-out leaves in the line whatever [errno] was. *)
Lemma timeout_keeps_errno :
  let s := (open IoDevice.ReadWrite (mret (pinConfig ModeInput PullUp false)) dev0).2 in
  let s' := (pWait 10 (mk_st (dev s) (chp s) (fail 4 (w s)))).2 in
  l_error (gline (dev s')) = 4 /\ error (dev s') = 0.
Proof. by vm_compute. Qed.

Lemma gpiodev2_refines_witness :
  let ops := [Write true; SetPull LUp; SetMode LInput; Write true; SetMode LOutput; Write false] in
  exists s1 s2, open IoDevice.ReadWrite (mret (pinConfig ModeOutput PullOff true)) dev0 = (Ok true, s1) /\
    run ops s1 = (Ok tt, s2) /\ req (off := 17) (w s2) = Some (l_fd (gline (dev s2)), flags_of LOutput LUp, false) /\
    (get_mode s2).1 = Ok ModeOutput /\ (get_pull s2).1 = Ok PullUp.
Proof.
  exact (gpiodev2_refines (off := 17) dev0 LOutput LOff true
    [Write true; SetPull LUp; SetMode LInput; Write true; SetMode LOutput; Write false] dev0_idle).
Defined.

Definition dev1 : @st kline := (open IoDevice.ReadWrite (mret (pinConfig ModeInput PullUp false)) dev0).2.

Lemma dev1_holds : holds (off := 17) dev1 LInput LUp false.
Proof. constructor; try (vm_compute; (reflexivity || discriminate)). split; [reflexivity|by left]. Qed.

Lemma gpiodev2_edge_blocks_output_witness :
  exists s1 s2, setPinEdge EdgeBoth (mret (pinConfig ModeInput PullUp false)) dev1 = (Ok true, s1) /\
    setMode ModeOutput s1 = (Ok tt, s2) /\ error (dev s2) = 0 /\ (get_mode s2).1 = Ok ModeInput.
Proof.
  exact (gpiodev2_edge_blocks_output (off := 17) dev1 LUp false EdgeBoth _ dev1_holds eq_refl).
Defined.
End Demo.
End GpioDev2.
