(* ===== verification/GpioPin.v ===== *)
(** * Pins, src/gpio/gpiopin.cpp, src/gpio/gpiopin_p.cpp and src/gpio/gpiopin_p.h

    A pin is used through the driver of the GPIO device (the interface
    [PinDevice], one pin of it) until an interrupt is asked for; then a
    [GpioDev2] on its kernel line takes over.  The mode and the pull found in the
    hardware are kept in [holdMode] and [holdPull] before they are changed for
    the first time, and [release] puts them back. *)
From stdpp Require Import pretty.
From S2P Require Import Prelude IoDevice Mmio Gpio2.
Import Flags Pin.

(** What the code asks of a [GpioDevice] for one pin; [has_device] is false when
    the connector has none.  The flags are those of [GpioDevice]. *)
Definition hasToggle : Z := 0x1.
Definition hasPullRead : Z := 0x2.
Definition hasAltRead : Z := 0x4.
Definition hasDrive : Z := 0x8.

Class PinDevice (W : Type) : Type := {
  has_device : bool;
  d_flags : Z;
  d_modes : list (mode * string);
  d_write : bool -> M W unit;
  d_read : M W bool;
  d_toggle : M W unit;
  d_setMode : mode -> M W unit;
  d_mode : M W mode;
  d_setPull : pull -> M W unit;
  d_pull : M W pull;
  d_setDrive : Z -> M W unit;
  d_drive : M W Z }.

Module GpioPin.
Import Gpio2 GpioDev2.

Inductive ptype : Type := TypeGpio | TypePower | TypeUsb | TypeSound | TypeVideo | TypeNotConnected | TypeNet | TypeUnknown.
#[export] Instance ptype_eq_dec : EqDecision ptype.
Proof. solve_decision. Defined.
Inductive numbering : Type := NumberingLogical | NumberingMcu | NumberingSystem | NumberingUnknown.

Record number : Type := mk_number { logical : Z; mcu : Z; system : Z; row : Z; column : Z; chip_no : Z; offset : Z }.
Record descriptor : Type := mk_descriptor { type_of : ptype; num : number; pin_id : Z; names : list (mode * string) }.

(** [Chip::devPath] *)
Definition devPath (n : Z) : string := ("/dev/gpiochip" ++ pretty (Z.to_N (u32 n)))%string.

(** [Pin::Private], with the chip shared by all pins of the chip and the world
    the driver and the kernel act on. *)
Record pin {W : Type} : Type := mk_pin {
  desc : descriptor; isopen : bool;
  holdMode : mode; holdPull : pull; holdState : bool;
  pmode : mode; ppull : pull; pdrive : Z;
  gpiodev : option gpiodev2; chp : chip; pw : W }.
Arguments pin : clear implicits.
Arguments mk_pin {W}.

Section Pin.
Context {W : Type} {L : LineOs W} {D : PinDevice W}.
Abbreviation P := (pin W).

Definition new (d : descriptor) (c : chip) (x : W) : P :=
  mk_pin d false ModeUnknown PullUnknown false ModeUnknown PullUnknown (-1) None c x.

Definition set_isopen (b : bool) (s : P) : P :=
  mk_pin (desc s) b (holdMode s) (holdPull s) (holdState s) (pmode s) (ppull s) (pdrive s) (gpiodev s) (chp s) (pw s).
Definition set_holdMode (m : mode) (s : P) : P :=
  mk_pin (desc s) (isopen s) m (holdPull s) (holdState s) (pmode s) (ppull s) (pdrive s) (gpiodev s) (chp s) (pw s).
Definition set_holdPull (p : pull) (s : P) : P :=
  mk_pin (desc s) (isopen s) (holdMode s) p (holdState s) (pmode s) (ppull s) (pdrive s) (gpiodev s) (chp s) (pw s).
Definition set_holdState (b : bool) (s : P) : P :=
  mk_pin (desc s) (isopen s) (holdMode s) (holdPull s) b (pmode s) (ppull s) (pdrive s) (gpiodev s) (chp s) (pw s).
Definition set_pmode (m : mode) (s : P) : P :=
  mk_pin (desc s) (isopen s) (holdMode s) (holdPull s) (holdState s) m (ppull s) (pdrive s) (gpiodev s) (chp s) (pw s).
Definition set_ppull (p : pull) (s : P) : P :=
  mk_pin (desc s) (isopen s) (holdMode s) (holdPull s) (holdState s) (pmode s) p (pdrive s) (gpiodev s) (chp s) (pw s).
Definition set_pdrive (n : Z) (s : P) : P :=
  mk_pin (desc s) (isopen s) (holdMode s) (holdPull s) (holdState s) (pmode s) (ppull s) n (gpiodev s) (chp s) (pw s).
Definition set_gpiodev (g : option gpiodev2) (s : P) : P :=
  mk_pin (desc s) (isopen s) (holdMode s) (holdPull s) (holdState s) (pmode s) (ppull s) (pdrive s) g (chp s) (pw s).
Definition set_world (c : chip) (x : W) (s : P) : P :=
  mk_pin (desc s) (isopen s) (holdMode s) (holdPull s) (holdState s) (pmode s) (ppull s) (pdrive s) (gpiodev s) c x.

Definition isGpio (s : P) : bool := bool_decide (type_of (desc s) = TypeGpio).
Definition isGpioDevEnabled (s : P) : bool := match gpiodev s with Some _ => true | None => false end.
Definition isGpioDevOpen (s : P) : bool := match gpiodev s with Some g => GpioDev2.isOpen g | None => false end.

(** A call of the driver, and one of the pin's [GpioDev2]; either through a
    null pointer is undefined. *)
Definition on_dev {A} (m : M W A) : M P A := fun s =>
  if has_device then zoom pw (fun x s => set_world (chp s) x s) m s else (Throw UB, s).
Definition on_gpio {A} (m : M st A) : M P A := fun s =>
  match gpiodev s with
  | Some g => let '(o, t) := m (mk_st g (chp s) (pw s)) in
              (o, set_gpiodev (Some (dev t)) (set_world (GpioDev2.chp t) (w t) s))
  | None => (Throw UB, s)
  end.

(** [if (b) m], and a condition on the state. *)
Definition when (b : bool) (m : M P unit) : M P unit := if b then m else mret tt.
Definition ask {A} (c : P -> bool) (m1 m2 : M P A) : M P A := fun s => if c s then m1 s else m2 s.
Definition check_gpio {A} (m : M P A) : M P A := ask isGpio m (throw DomainError).

(** ** [Pin::Private] *)
Definition setHoldPull : M P unit := fun s =>
  if bool_decide (holdPull s = PullUnknown) && has_device then (p ← on_dev d_pull; modify (set_holdPull p)) s
  else (Ok tt, s).
Definition setHoldMode : M P unit := fun s =>
  if bool_decide (holdMode s = ModeUnknown) && has_device then
    (m ← on_dev d_mode;
     modify (set_holdMode m);;
     when (bool_decide (m = ModeOutput)) (v ← on_dev d_read; modify (set_holdState v))) s
  else (Ok tt, s).

Definition writePull : M P unit := fun s =>
  if isGpioDevOpen s then on_gpio (GpioDev2.setPull (ppull s)) s
  else when has_device (setHoldPull;; on_dev (d_setPull (ppull s))) s.
Definition readPull : M P unit :=
  ask isGpioDevOpen (p ← on_gpio get_pull; modify (set_ppull p))
    (when (has_device && test d_flags hasPullRead) (p ← on_dev d_pull; modify (set_ppull p))).
Definition readMode : M P unit :=
  ask isGpioDevOpen (m ← on_gpio get_mode; modify (set_pmode m))
    (when has_device (m ← on_dev d_mode; modify (set_pmode m))).
Definition writeMode : M P unit :=
  setHoldMode;;
  ask isGpioDevOpen (m ← gets pmode; on_gpio (GpioDev2.setMode m)) (m ← gets pmode; on_dev (d_setMode m)).
Definition writeDrive : M P unit :=
  when has_device (if test d_flags hasDrive then n ← gets pdrive; on_dev (d_setDrive n) else throw DomainError).
Definition readDrive : M P unit :=
  when has_device (if test d_flags hasDrive then n ← on_dev d_drive; modify (set_pdrive n) else throw DomainError).

(** ** [Pin] *)
Definition get_pull : M P pull :=
  check_gpio (ask isopen readPull (mret tt));; gets ppull.
Definition setPull (p : pull) : M P unit :=
  check_gpio (modify (set_ppull p);; ask isopen writePull (mret tt)).
Definition get_mode : M P mode :=
  ask isGpio (ask isopen readMode (mret tt)) (mret tt);; gets pmode.
Definition setMode (m : mode) : M P unit :=
  check_gpio (modify (set_pmode m);; ask isopen writeMode (mret tt)).
Definition get_drive : M P Z :=
  check_gpio (ask isopen readDrive (mret tt));; gets pdrive.
Definition setDrive (n : Z) : M P unit :=
  check_gpio (modify (set_pdrive n);; ask isopen writeDrive (mret tt)).
Definition flags (s : P) : Z := if isGpio s && has_device then d_flags else 0.

Definition number_of (n : numbering) (s : P) : outcome Z :=
  match n with
  | NumberingLogical => Ok (logical (num (desc s)))
  | NumberingMcu => Ok (mcu (num (desc s)))
  | NumberingSystem => Ok (system (num (desc s)))
  | NumberingUnknown => Throw InvalidArgument
  end.

Definition usable (s : P) : bool := isopen s && isGpio s.

Definition read : M P bool :=
  ask usable (ask isGpioDevOpen (on_gpio GpioDev2.read) (on_dev d_read)) (mret false).
Definition write (v : bool) : M P unit :=
  ask usable
    (ask isGpioDevOpen
       (on_gpio (GpioDev2.write v);;
        e ← gets (fun s => match gpiodev s with Some g => GpioDev2.error g | None => 0 end);
        if negb (e =? 0) then throw (SystemError e) else mret tt)
       (on_dev (d_write v)))
    (mret tt).
Definition toggle : M P unit :=
  ask usable
    (ask (fun s => negb (isGpioDevOpen s) && test d_flags hasToggle) (on_dev d_toggle)
       (v ← read; write (negb v)))
    (mret tt).

Definition release : M P unit :=
  ask usable
    (m ← gets holdMode;
     when (negb (bool_decide (m = ModeUnknown)))
       (setMode m;;
        v ← gets holdState;
        when (bool_decide (m = ModeOutput)) (write v);;
        modify (set_holdMode ModeUnknown));;
     p ← gets holdPull;
     when (negb (bool_decide (p = PullUnknown))) (setPull p;; modify (set_holdPull PullUnknown)))
    (mret tt).

(** The configuration [GpioDev2::Private::pinConfig] asks the pin for. *)
Definition config_for (g : gpiodev2) : M P config :=
  m ← (if bool_decide (gmode g = ModeUnknown) then get_mode else mret (gmode g));
  p ← (if bool_decide (gpull g = PullUnknown) then get_pull else mret (gpull g));
  v ← (if bool_decide (m = ModeOutput)
       then if 0 <=? outputValue g then mret (negb (outputValue g =? 0)) else read else mret false);
  mret (pinConfig m p v).
Definition pin_config : M P config := fun s =>
  match gpiodev s with None => (Throw UB, s) | Some g => config_for g s end.
Definition gpiodev_open : M P bool := fun s =>
  if isGpioDevOpen s then (Ok true, s)
  else if chip_isOpen (chp s) then (c ← pin_config; on_gpio (GpioDev2.open IoDevice.ReadWrite (mret c))) s
  else (Ok false, s).

(** [gpiodev.reset ()] and [std::make_unique<GpioDev2>] *)
Definition gpiodev_reset : M P unit := on_gpio GpioDev2.destroy;; modify (set_gpiodev None).
Definition gpiodev_make : M P unit := modify (fun s =>
  let t := construct (devPath (chip_no (num (desc s)))) (u32 (offset (num (desc s)))) (chp s) (pw s) in
  set_gpiodev (Some (dev t)) (set_world (GpioDev2.chp t) (w t) s)).

Definition enableGpioDev (enable : bool) : M P bool :=
  ask (fun s => enable && negb (isGpioDevEnabled s) && isGpio s)
    (gpiodev_make;;
     ask isopen
       (setHoldMode;; setHoldPull;;
        ok ← gpiodev_open;
        when (negb ok) gpiodev_reset)
       (mret tt))
    (ask (fun s => negb enable && isGpioDevEnabled s) gpiodev_reset (mret tt));;
  gets isGpioDevEnabled.
Definition public_enableGpioDev (enable : bool) : M P bool := check_gpio (enableGpioDev enable).

Definition detachInterrupt : M P unit := ask isGpioDevEnabled (on_gpio GpioDev2.detachInterrupt) (mret tt).

(** The steps before a wait: the line takes over, a pending event is cleared. *)
Definition prepare_wait (debounce_ms : Z) : M P unit :=
  ok ← enableGpioDev true;
  if negb (ok : bool) then throw DomainError
  else
    when (0 <=? debounce_ms) (on_gpio (GpioDev2.setDebounce debounce_ms));;
    on_gpio GpioDev2.read;; mret tt.
Definition gpio_error (s : P) : Z := match gpiodev s with Some g => GpioDev2.error g | None => 0 end.

Definition waitForInterrupt (e : edge) (debounce_ms timeout_ms : Z) : M P (option event) :=
  ask usable
    (prepare_wait debounce_ms;;
     ev ← ask isGpioDevOpen (c ← pin_config; on_gpio (GpioDev2.waitForInterrupt e (mret c) timeout_ms)) (mret None);
     match ev with
     | Some x => mret (Some x)
     | None => n ← gets gpio_error; if negb (n =? 0) then throw (SystemError n) else mret None
     end)
    (mret None).
Definition attachInterrupt (e : edge) (debounce_ms : Z) : M P unit :=
  ask usable
    (prepare_wait debounce_ms;;
     ok ← ask isGpioDevOpen (c ← pin_config; on_gpio (GpioDev2.attachInterrupt e (mret c))) (mret false);
     if (ok : bool) then mret tt else n ← gets gpio_error; throw (SystemError n))
    (mret tt).

Definition open_gpio : M P unit :=
  ok ← ask isGpioDevEnabled gpiodev_open (mret true);
  modify (set_isopen ok);;
  when ok
    (ask (fun s => negb (bool_decide (pmode s = ModeUnknown))) writeMode readMode;;
     when has_device
       (ask (fun s => negb (bool_decide (ppull s = PullUnknown))) writePull readPull;;
        ask (fun s => negb (pdrive s =? -1)) writeDrive (when (test d_flags hasDrive) readDrive))).
Definition open : M P bool :=
  ask isopen (mret tt) (ask isGpio open_gpio (modify (set_isopen true)));; gets isopen.

Definition close (releaseOnClose : bool) : M P unit :=
  ask isopen
    (ask isGpio (detachInterrupt;; enableGpioDev false;; when releaseOnClose release) (mret tt);;
     modify (set_isopen false))
    (mret tt).

(** Without a driver the [GpioDev2] is asked, through a null pointer when there
    is none. *)
Definition modes (s : P) : outcome (list (mode * string)) :=
  if isGpio s then
    if isGpioDevEnabled s || negb has_device then
      match gpiodev s with Some _ => Ok GpioDev2.modes | None => Throw UB end
    else Ok d_modes
  else Throw DomainError.
Definition name_of (m : mode) (s : P) : outcome string :=
  match tab (names (desc s)) m with Some n => Ok n | None => Throw OutOfRange end.
Definition name : M P string := fun s =>
  if usable s then
    let '(o, s') := get_mode s in
    match o with
    | Ok m => match name_of m s' with Ok n => (Ok n, s') | Throw _ => (name_of ModeInput s', s') end
    | Throw _ => (name_of ModeInput s', s')
    end
  else (name_of ModeInput s, s).
End Pin.

(** ** What the driver promises for one pin

    [hw] is the pin as the hardware has it; [ok] says that the driver can be used.
    A mode the pin can have is taken and shown as [shown], any other changes
    nothing; every mode the pin is found in is one it can be put back to.  The
    modes of [keeps_pull] leave the pull as it is, the others may set it.  Calls on kernel lines may change the
    pin but leave the driver usable, opening the character device changes no pin. *)
Record hwpin : Type := mk_hwpin { h_mode : mode; h_pull : pull; h_level : bool }.

Class PinDeviceOk (W : Type) (D : PinDevice W) : Type := {
  ok : W -> Prop;
  hw : W -> hwpin;
  can : mode -> bool;
  shown : mode -> mode;
  keeps_pull : mode -> bool;
  ok_device : has_device = true;
  ok_mode : forall x, ok x -> d_mode x = (Ok (h_mode (hw x)), x);
  ok_read : forall x, ok x -> d_read x = (Ok (h_level (hw x)), x);
  ok_pull : forall x, ok x -> d_pull x = (Ok (h_pull (hw x)), x);
  ok_setMode : forall x m, ok x -> exists o x', d_setMode m x = (o, x') /\ ok x' /\
    (keeps_pull m = true -> h_pull (hw x') = h_pull (hw x)) /\
    if can m then o = Ok tt /\ h_mode (hw x') = shown m else x' = x;
  ok_back : forall x, ok x -> h_mode (hw x) <> ModeUnknown ->
    can (h_mode (hw x)) = true /\ shown (h_mode (hw x)) = h_mode (hw x);
  ok_setPull : forall x p, ok x -> exists o x', d_setPull p x = (o, x') /\ ok x' /\ h_mode (hw x') = h_mode (hw x) /\
    (p <> PullUnknown -> o = Ok tt /\ h_pull (hw x') = p) /\
    (h_mode (hw x) = ModeOutput -> h_level (hw x') = h_level (hw x));
  ok_write : forall x v, ok x -> exists x', d_write v x = (Ok tt, x') /\ ok x' /\ h_mode (hw x') = h_mode (hw x) /\
    h_pull (hw x') = h_pull (hw x) /\ (h_mode (hw x) = ModeOutput -> h_level (hw x') = v);
  ok_toggle : forall x, ok x -> exists x', d_toggle x = (Ok tt, x') /\ ok x' /\ h_mode (hw x') = h_mode (hw x) /\
    h_pull (hw x') = h_pull (hw x) /\ (h_mode (hw x) = ModeOutput -> h_level (hw x') = negb (h_level (hw x)));
  ok_drive : forall x, ok x -> exists o, d_drive x = (o, x);
  ok_setDrive : forall x n, ok x -> exists o x', d_setDrive n x = (o, x') /\ ok x' /\ h_mode (hw x') = h_mode (hw x) /\
    h_pull (hw x') = h_pull (hw x) }.

Class LinesKeep (W : Type) (L : LineOs W) (ok : W -> Prop) (hw : W -> hwpin) : Prop := {
  k_sys_open : forall d x, ok x -> ok (sys_open d x).2 /\ hw (sys_open d x).2 = hw x;
  k_sys_close : forall fd x, ok x -> ok (sys_close fd x).2;
  k_line_info : forall fd o x, ok x -> ok (sys_line_info fd o x).2;
  k_get_line : forall fd o c x, ok x -> ok (sys_get_line fd o c x).2;
  k_set_config : forall fd c x, ok x -> ok (sys_set_config fd c x).2;
  k_get_values : forall fd m x, ok x -> ok (sys_get_values fd m x).2;
  k_set_values : forall fd b m x, ok x -> ok (sys_set_values fd b m x).2;
  k_poll : forall fd t x, ok x -> ok (sys_poll fd t x).2;
  k_read_event : forall fd x, ok x -> ok (sys_read_event fd x).2 }.

Section Lines.
Context {W : Type} {L : LineOs W} {D : PinDevice W} {OK : PinDeviceOk W D} {LK : LinesKeep W L ok hw}.

(** Every operation of a [GpioDev2] leaves the driver usable. *)
Abbreviation lkeeps := (keeps (fun s : lst => ok (s_w s))).
Abbreviation gkeeps := (keeps (fun s : st => ok (w s))).

Ltac line_call := intros [l0 c0 x0] H; unfold line_getInfo, line_open, line_setConfig, line_close, line_getValue,
  line_setValue, line_waitForEvent; cbn in *;
  repeat match goal with
  | |- context [sys_line_info ?a ?b ?x] => pose proof (k_line_info a b x H); destruct (sys_line_info a b x) as [[] ?]
  | |- context [sys_get_line ?a ?b ?c ?x] => pose proof (k_get_line a b c x H); destruct (sys_get_line a b c x) as [[] ?]
  | |- context [sys_set_config ?a ?b ?x] => pose proof (k_set_config a b x H); destruct (sys_set_config a b x) as [? ?]
  | |- context [sys_close ?a ?x] => pose proof (k_sys_close a x H); destruct (sys_close a x) as [? ?]
  | |- context [sys_get_values ?a ?b ?x] => pose proof (k_get_values a b x H); destruct (sys_get_values a b x) as [[] ?]
  | |- context [sys_set_values ?a ?b ?c ?x] => pose proof (k_set_values a b c x H); destruct (sys_set_values a b c x) as [? ?]
  end; repeat case_match; simplify_eq/=; done.

Lemma keeps_getInfo : lkeeps line_getInfo.
Proof. line_call. Qed.
Lemma keeps_line_open c : lkeeps (line_open c).
Proof. line_call. Qed.
Lemma keeps_setConfig c : lkeeps (line_setConfig c).
Proof. line_call. Qed.
Lemma keeps_line_close : lkeeps line_close.
Proof. line_call. Qed.
Lemma keeps_getValue : lkeeps line_getValue.
Proof. line_call. Qed.
Lemma keeps_setValue v : lkeeps (line_setValue v).
Proof. line_call. Qed.
Lemma keeps_setDebounce n : lkeeps (line_setDebounce n).
Proof. intros s H. unfold line_setDebounce. destruct (negb _); [|done]. by apply keeps_setConfig. Qed.
Lemma keeps_waitForEvent n : lkeeps (line_waitForEvent n).
Proof.
  intros [l c x] H. unfold line_waitForEvent. cbn in *. destruct (line_isOpen l); [|done].
  pose proof (k_poll (l_fd l) n x H) as Hp. destruct (sys_poll (l_fd l) n x) as [r x1]. destruct (0 <? r); [|done].
  pose proof (k_read_event (l_fd l) x1 Hp) as Hr. destruct (sys_read_event (l_fd l) x1) as [[] x2]. by destruct (_ =? _).
Qed.
Hint Resolve keeps_getInfo keeps_line_open keeps_setConfig keeps_line_close keeps_getValue keeps_setValue
  keeps_setDebounce keeps_waitForEvent : keeps.

Lemma keeps_on_line {A} (m : M lst A) : lkeeps m -> gkeeps (on_line m).
Proof.
  intros Hm [d c x] H. unfold on_line, zoom. cbn. specialize (Hm (mk_lst (gline d) c x) H).
  by destruct (m (mk_lst (gline d) c x)) as [o []].
Qed.
Lemma keeps_upd f : gkeeps (upd f).
Proof. by intros [d c x] H. Qed.
Lemma keeps_line_error : gkeeps line_error.
Proof. apply keeps_upd. Qed.
Lemma keeps_clear_error : gkeeps clear_error.
Proof. apply keeps_upd. Qed.
Hint Resolve keeps_on_line keeps_upd keeps_line_error keeps_clear_error : keeps.

(** The shape of every operation: guards, then calls in sequence. *)
Ltac gkeep := repeat (intros; first
  [ apply keeps_bind | apply keeps_ret | apply keeps_gets | apply keeps_throw | apply keeps_upd
  | apply keeps_line_error | apply keeps_clear_error | apply keeps_on_line; solve [auto with keeps]
  | progress cbv beta iota | case_match ]).

Lemma keeps_send c : gkeeps (send c).
Proof. unfold send. gkeep. Qed.
Hint Resolve keeps_send : keeps.

Lemma keeps_guard {S A} (I : S -> Prop) (b : S -> bool) (m : M S A) (o : S -> outcome A) :
  keeps I m -> keeps I (fun s => if b s then m s else (o s, s)).
Proof. intros Hm s H. destruct (b s); [by apply Hm|done]. Qed.
Ltac at_state s H := refine ((_ : keeps (fun s => ok (w s)) _) s H).
Ltac guarded b := match goal with |- keeps ?I (fun s => _) => refine (keeps_guard I b _ _ _) end.

Lemma keeps_gmode : gkeeps GpioDev2.get_mode.
Proof. unfold GpioDev2.get_mode. guarded (fun s : @st W => GpioDev2.isOpen (dev s)). gkeep. Qed.
Lemma keeps_gpull : gkeeps GpioDev2.get_pull.
Proof. unfold GpioDev2.get_pull. guarded (fun s : @st W => GpioDev2.isOpen (dev s)). gkeep. Qed.
Lemma keeps_gsetMode m : gkeeps (GpioDev2.setMode m).
Proof. intros s H. unfold GpioDev2.setMode. destruct (tab _ _); [|done]. destruct (GpioDev2.isOpen _); at_state s H; gkeep. Qed.
Lemma keeps_gsetPull p : gkeeps (GpioDev2.setPull p).
Proof. intros s H. unfold GpioDev2.setPull. destruct (bool_decide _); [done|]. destruct (GpioDev2.isOpen _); at_state s H; gkeep. Qed.
Lemma keeps_gwrite v : gkeeps (GpioDev2.write v).
Proof. intros s H. unfold GpioDev2.write. destruct (GpioDev2.isOpen _); [|by apply keeps_upd]. at_state s H. gkeep. Qed.
Lemma keeps_gread : gkeeps GpioDev2.read.
Proof. unfold GpioDev2.read. guarded (fun s : @st W => GpioDev2.isOpen (dev s)). gkeep. Qed.
Lemma keeps_gsetDebounce n : gkeeps (GpioDev2.setDebounce n).
Proof. apply keeps_upd. Qed.
Lemma keeps_gdetach : gkeeps GpioDev2.detachInterrupt.
Proof. apply keeps_upd. Qed.
Lemma keeps_gclose : gkeeps GpioDev2.close.
Proof. unfold GpioDev2.close, GpioDev2.detachInterrupt. guarded (fun s : @st W => GpioDev2.isOpen (dev s)). gkeep. Qed.
Lemma keeps_gdestroy : gkeeps GpioDev2.destroy.
Proof. unfold GpioDev2.destroy. apply keeps_bind; [apply keeps_gdetach|]. intros. apply keeps_bind; [apply keeps_gclose|]. gkeep. Qed.
Lemma keeps_gopen n c : gkeeps (GpioDev2.open n (mret c)).
Proof.
  intros s H. unfold GpioDev2.open. destruct (GpioDev2.isOpen _); [done|]. destruct (chip_isOpen _); [|done]. at_state s H. gkeep.
Qed.
Lemma keeps_setPinEdge e c : gkeeps (setPinEdge e (mret c)).
Proof. unfold setPinEdge. gkeep. Qed.
Lemma keeps_pSetDebounce : gkeeps pSetDebounce.
Proof. intros s. apply keeps_on_line. auto with keeps. Qed.
Lemma keeps_pWait n : gkeeps (pWait n).
Proof. unfold pWait. gkeep. Qed.
Lemma keeps_gwait e c n : gkeeps (GpioDev2.waitForInterrupt e (mret c) n).
Proof.
  unfold GpioDev2.waitForInterrupt. guarded (fun s : @st W => GpioDev2.isOpen (dev s)).
  apply keeps_bind; [apply keeps_setPinEdge|]. intros []; [|apply keeps_ret].
  apply keeps_bind; [apply keeps_pSetDebounce|]. intros []; [|apply keeps_ret].
  apply keeps_bind; [apply keeps_clear_error|]. intros. apply keeps_pWait.
Qed.
Lemma keeps_gattach e c : gkeeps (GpioDev2.attachInterrupt e (mret c)).
Proof.
  unfold GpioDev2.attachInterrupt. guarded (fun s : @st W => GpioDev2.isOpen (dev s)).
  apply keeps_bind; [apply keeps_setPinEdge|]. intros []; [|apply keeps_ret].
  apply keeps_bind; [apply keeps_pSetDebounce|]. intros []; [|apply keeps_ret]. gkeep.
Qed.
Hint Resolve keeps_gmode keeps_gpull keeps_gsetMode keeps_gsetPull keeps_gwrite keeps_gread keeps_gsetDebounce keeps_gdetach
  keeps_gdestroy keeps_gopen keeps_gwait keeps_gattach : keeps.

(** ** The invariant of an open pin

    [h0] is the hardware as it was found.  What has not been kept is still as it
    was found, what has been kept is what was found; with a [GpioDev2], which may
    change the pin behind the driver, both have been kept.  What is said of the
    pull is said under [PK]: that the pull can be read and that the modes used
    keep it. *)
Abbreviation hwof s := (hw (pw s)).
Context (PK : Prop).

Record held (h0 : hwpin) (s : pin W) : Prop := {
  i_ok : ok (pw s);
  i_gpio : isGpio s = true;
  i_open : isopen s = true;
  i_mode : (holdMode s = ModeUnknown /\ h_mode (hwof s) = h_mode h0) \/ holdMode s = h_mode h0;
  i_pull : PK ->
           (holdPull s = PullUnknown /\ h_pull (hwof s) = h_pull h0) \/ holdPull s = h_pull h0 }.
Definition kept (h0 : hwpin) (s : pin W) : Prop :=
  holdMode s = h_mode h0 /\ (PK -> holdPull s = h_pull h0).
Definition held_kept (h0 : hwpin) (s : pin W) : Prop := held h0 s /\ kept h0 s.
Definition inv (h0 : hwpin) (s : pin W) : Prop := held h0 s /\ (gpiodev s = None \/ kept h0 s).

Section Inv.
Context (h0 : hwpin) (Hm0 : h_mode h0 <> ModeUnknown) (HPK : PK -> h_pull h0 <> PullUnknown).

Lemma dev_zoom {A} (m : M W A) s : on_dev m s = let '(o, x) := m (pw s) in (o, set_world (chp s) x s).
Proof. unfold on_dev, zoom. rewrite ok_device. done. Qed.

Lemma kept_inv s : held_kept h0 s -> inv h0 s.
Proof. intros [Hh Hk]. by split; [|right]. Qed.

(** Steps that keep both forms of the invariant; a step that keeps [held] does
    if it changes neither what is kept nor whether there is a [GpioDev2]. *)
Definition quiet {A} (m : M (pin W) A) : Prop := keeps (held_kept h0) m /\ keeps (inv h0) m.

Lemma quiet_step {A} (m : M (pin W) A) :
  (forall s, held h0 s -> held h0 (m s).2 /\ holdMode (m s).2 = holdMode s /\ holdPull (m s).2 = holdPull s /\
     gpiodev (m s).2 = gpiodev s) -> quiet m.
Proof.
  intros H. split.
  - intros s [Hs Hk]. destruct (H s Hs) as (Hs' & E1 & E2 & _). split; [done|]. unfold kept in *. by rewrite E1, E2.
  - intros s [Hs Hk]. destruct (H s Hs) as (Hs' & E1 & E2 & E3). split; [done|]. unfold kept in *. by rewrite E1, E2, E3.
Qed.

Lemma quiet_ret {A} (x : A) : quiet (mret x : M (pin W) A).
Proof. split; apply keeps_ret. Qed.
Lemma quiet_throw {A} e : quiet (throw e : M (pin W) A).
Proof. split; apply keeps_throw. Qed.
Lemma quiet_gets {A} (f : pin W -> A) : quiet (gets f).
Proof. split; apply keeps_gets. Qed.
Lemma quiet_bind {A B} (m : M (pin W) A) (k : A -> M (pin W) B) : quiet m -> (forall x, quiet (k x)) -> quiet (m ≫= k).
Proof. intros (H1 & H2) Hk. split; apply keeps_bind; try done; intros x; apply Hk. Qed.
Lemma quiet_ask {A} c (m1 m2 : M (pin W) A) : quiet m1 -> quiet m2 -> quiet (ask c m1 m2).
Proof. intros (H1 & H2) (H3 & H4). split; intros s H; unfold ask; destruct (c s); auto. Qed.
Lemma quiet_when b (m : M (pin W) unit) : quiet m -> quiet (when b m).
Proof. intros H. destruct b; [done|]. apply quiet_ret. Qed.

(** Updates of the cached mode, pull and drive. *)
Lemma quiet_modify (f : pin W -> pin W) :
  (forall s, pw (f s) = pw s /\ desc (f s) = desc s /\ isopen (f s) = isopen s /\ holdMode (f s) = holdMode s /\
     holdPull (f s) = holdPull s /\ gpiodev (f s) = gpiodev s) -> quiet (modify f).
Proof.
  intros Hf. apply quiet_step. intros s [Hok Hg Ho Hmd Hpl]. destruct (Hf s) as (E1 & E2 & E3 & E4 & E5 & E6).
  split; [|done]. constructor; cbn; unfold isGpio in *; rewrite ?E1, ?E2, ?E3, ?E4, ?E5; done.
Qed.

(** Calls of the driver that change neither mode nor pull. *)
Lemma quiet_dev {A} (m : M W A) :
  (forall x, ok x -> ok (m x).2 /\ h_mode (hw (m x).2) = h_mode (hw x) /\ h_pull (hw (m x).2) = h_pull (hw x)) ->
  quiet (on_dev m).
Proof.
  intros Hm. apply quiet_step. intros s [Hok Hg Ho Hmd Hpl]. rewrite dev_zoom.
  destruct (Hm (pw s) Hok) as (H1 & H2 & H3). destruct (m (pw s)) as [o x]. cbn in *. split; [|done].
  constructor; cbn; rewrite ?H2, ?H3; done.
Qed.
Lemma quiet_d_mode : quiet (on_dev d_mode).
Proof. apply quiet_dev. intros x H. by rewrite ok_mode. Qed.
Lemma quiet_d_pull : quiet (on_dev d_pull).
Proof. apply quiet_dev. intros x H. by rewrite ok_pull. Qed.
Lemma quiet_d_read : quiet (on_dev d_read).
Proof. apply quiet_dev. intros x H. by rewrite ok_read. Qed.
Lemma quiet_d_write v : quiet (on_dev (d_write v)).
Proof. apply quiet_dev. intros x H. destruct (ok_write x v H) as (x' & -> & ? & ? & ? & _). done. Qed.
Lemma quiet_d_toggle : quiet (on_dev d_toggle).
Proof. apply quiet_dev. intros x H. destruct (ok_toggle x H) as (x' & -> & ? & ? & ? & _). done. Qed.
Lemma quiet_d_drive : quiet (on_dev d_drive).
Proof. apply quiet_dev. intros x H. by destruct (ok_drive x H) as (o & ->). Qed.
Lemma quiet_d_setDrive n : quiet (on_dev (d_setDrive n)).
Proof. apply quiet_dev. intros x H. by destruct (ok_setDrive x n H) as (o & x' & -> & ?). Qed.

(** Calls of the [GpioDev2] need what they may change to be kept. *)
Lemma kept_on_gpio {A} (m : M st A) : gkeeps m -> keeps (held_kept h0) (on_gpio m).
Proof.
  intros Hm s Hi. pose proof Hi as [[Hok Hg Ho Hmd Hpl] Hk]. unfold on_gpio. destruct (gpiodev s) as [g|]; [|done].
  specialize (Hm (mk_st g (chp s) (pw s)) Hok). destruct (m _) as [o t]. split; [|done].
  destruct Hk as [Hk1 Hk2]. constructor; cbn in *; try done; [by right|]. intros Hu. right. auto.
Qed.
Lemma quiet_on_gpio {A} (m : M st A) : gkeeps m -> quiet (on_gpio m).
Proof.
  intros Hm. split; [by apply kept_on_gpio|]. intros s Hi. pose proof Hi as [Hh [Hn|Hk]]; [unfold on_gpio; by rewrite Hn|].
  by apply kept_inv, kept_on_gpio.
Qed.

Lemma setHoldMode_spec s :
  held h0 s -> exists s', setHoldMode s = (Ok tt, s') /\ held h0 s' /\ holdMode s' = h_mode h0 /\
    holdPull s' = holdPull s /\ gpiodev s' = gpiodev s /\ pmode s' = pmode s.
Proof.
  intros Hi. pose proof Hi as [Hok Hg Ho Hmd Hpl]. unfold setHoldMode. rewrite ok_device, andb_true_r.
  case_bool_decide as E; [|exists s; split_and!; try done; by destruct Hmd as [[]|]].
  destruct Hmd as [[_ Hmd]|Hmd]; [|by rewrite E in Hmd]. unfold mbind, M_bind. rewrite dev_zoom, ok_mode by done. munfold.
  assert (Hinv : forall v, held h0 (set_holdState v (set_holdMode (h_mode h0) (set_world (chp s) (pw s) s))))
    by (intros v; constructor; cbn; try done; by right).
  destruct (bool_decide (h_mode (hwof s) = ModeOutput)) eqn:Eo; cbn.
  - unfold mbind, M_bind. rewrite dev_zoom. cbn. rewrite ok_read by done. munfold. rewrite Hmd. eexists. split; [reflexivity|].
    split; [apply Hinv|]. done.
  - munfold. rewrite Hmd. eexists. split; [reflexivity|]. split; [apply (Hinv (holdState s))|]. done.
Qed.

Lemma setHoldPull_spec s :
  held h0 s -> exists s', setHoldPull s = (Ok tt, s') /\ held h0 s' /\ holdMode s' = holdMode s /\
    (PK -> holdPull s' = h_pull h0) /\ gpiodev s' = gpiodev s.
Proof.
  intros Hi. pose proof Hi as [Hok Hg Ho Hmd Hpl]. unfold setHoldPull. rewrite ok_device, andb_true_r.
  case_bool_decide as E.
  - unfold mbind, M_bind. rewrite dev_zoom, ok_pull by done. munfold. eexists. split; [reflexivity|].
    assert (Hp : PK -> h_pull (hwof s) = h_pull h0).
    { intros Hu. destruct (Hpl Hu) as [[_ ?]|Hx]; [done|]. apply HPK in Hu. by rewrite <- Hx in Hu. }
    split; [|done]. constructor; cbn; try done. intros Hu. right. auto.
  - exists s. split_and!; try done. intros Hu. by destruct (Hpl Hu) as [[]|].
Qed.

Lemma step_setMode s m :
  (PK -> keeps_pull m = true) -> held h0 s -> holdMode s = h_mode h0 ->
  let s' := (on_dev (d_setMode m) s).2 in
  held h0 s' /\ holdMode s' = holdMode s /\ holdPull s' = holdPull s /\ gpiodev s' = gpiodev s.
Proof.
  intros Hk [Hok Hg Ho Hmd Hpl] Hh. rewrite dev_zoom. destruct (ok_setMode (pw s) m Hok) as (o & x' & -> & Hx & Hp & _).
  cbn. split; [|done]. constructor; cbn; try done; [by right|]. intros Hu. rewrite Hp by auto. auto.
Qed.
Lemma step_setPull s p :
  held h0 s -> (PK -> holdPull s = h_pull h0) ->
  let s' := (on_dev (d_setPull p) s).2 in
  held h0 s' /\ holdMode s' = holdMode s /\ holdPull s' = holdPull s /\ gpiodev s' = gpiodev s.
Proof.
  intros [Hok Hg Ho Hmd Hpl] Hh. rewrite dev_zoom. destruct (ok_setPull (pw s) p Hok) as (o & x' & -> & Hx & Hm & _).
  cbn. split; [|done]. constructor; cbn; try done; [by rewrite Hm|]. intros Hu. right. auto.
Qed.

(** Writing the mode [m], which the state has. *)
Lemma writeMode_step m : (PK -> keeps_pull m = true) ->
  (forall s, held_kept h0 s -> pmode s = m -> held_kept h0 (writeMode s).2) /\
  (forall s, inv h0 s -> pmode s = m -> inv h0 (writeMode s).2).
Proof.
  intros Hkp. split.
  - intros s [Hh [Hk1 Hk2]] Hm. unfold writeMode. destruct (setHoldMode_spec s Hh) as (s1 & H1 & Hh1 & E1 & E2 & E3 & E4).
    rewrite (M_bind_ok _ _ _ _ _ _ _ _ H1). unfold ask. assert (Hk : held_kept h0 s1) by (split; [done|split; [done|by rewrite E2]]).
    destruct (isGpioDevOpen s1).
    + by apply (keeps_bind _ _ _ (keeps_gets _ _)); [intros m'; apply kept_on_gpio; auto with keeps|].
    + unfold gets, mbind, M_bind. rewrite E4, Hm. destruct (step_setMode s1 m Hkp Hh1 E1) as (Ha & Hb & Hc & _).
      split; [done|]. unfold kept. by rewrite Hb, Hc, E2.
  - intros s [Hh Hk] Hm. unfold writeMode. destruct (setHoldMode_spec s Hh) as (s1 & H1 & Hh1 & E1 & E2 & E3 & E4).
    rewrite (M_bind_ok _ _ _ _ _ _ _ _ H1). unfold ask.
    assert (Hk1 : gpiodev s1 = None \/ kept h0 s1) by (rewrite E3; destruct Hk as [?|[_ ?]]; [by left|right; split; [done|by rewrite E2]]).
    destruct (isGpioDevOpen s1) eqn:Eo.
    + apply (keeps_bind _ _ _ (keeps_gets _ _)); [intros m'; apply quiet_on_gpio; auto with keeps|]. by split.
    + unfold gets, mbind, M_bind. rewrite E4, Hm. destruct (step_setMode s1 m Hkp Hh1 E1) as (Ha & Hb & Hc & Hd).
      split; [done|]. unfold kept in *. by rewrite Hb, Hc, Hd.
Qed.

Lemma inv_set_pmode m s : inv h0 s -> inv h0 (set_pmode m s).
Proof. intros [[] Hk]. split; [by constructor|done]. Qed.
Lemma inv_setMode m : (PK -> keeps_pull m = true) -> keeps (inv h0) (setMode m).
Proof.
  intros Hk s Hi. unfold setMode, check_gpio, ask. destruct (isGpio s); [|done].
  rewrite (M_bind_ok _ _ _ _ _ s tt (set_pmode m s)) by done. destruct (isopen _); [|by apply inv_set_pmode].
  apply (writeMode_step m Hk); [by apply inv_set_pmode|done].
Qed.

Lemma quiet_writePull : quiet writePull.
Proof.
  assert (Hstep : forall s, held h0 s -> isGpioDevOpen s = false ->
    let s' := (writePull s).2 in held h0 s' /\ holdMode s' = holdMode s /\ (PK -> holdPull s' = h_pull h0) /\
      gpiodev s' = gpiodev s).
  { intros s Hh Ho. unfold writePull. rewrite Ho, ok_device. cbn [when].
    destruct (setHoldPull_spec s Hh) as (s1 & H1 & Hh1 & E1 & E2 & E3). rewrite (M_bind_ok _ _ _ _ _ _ _ _ H1).
    destruct (step_setPull s1 (ppull s) Hh1 E2) as (Ha & Hb & Hc & Hd). split; [done|]. by rewrite Hb, Hc, Hd. }
  split.
  - intros s Hk. destruct (isGpioDevOpen s) eqn:Eo.
    + unfold writePull. rewrite Eo. apply kept_on_gpio; [|done]. auto with keeps.
    + destruct Hk as [Hh [Hk1 Hk2]]. destruct (Hstep s Hh Eo) as (Ha & Hb & Hc & _). split; [done|]. by split; [rewrite Hb|].
  - intros s Hi. destruct (isGpioDevOpen s) eqn:Eo.
    + unfold writePull. rewrite Eo. apply quiet_on_gpio; [|done]. auto with keeps.
    + destruct Hi as [Hh Hk]. destruct (Hstep s Hh Eo) as (Ha & Hb & Hc & Hd). split; [done|]. rewrite Hd.
      destruct Hk as [?|[Hk1 _]]; [by left|right]. by split; [rewrite Hb|].
Qed.

Ltac quiet := repeat (intros; first
  [ apply quiet_writePull | apply quiet_d_mode | apply quiet_d_pull | apply quiet_d_read
  | apply quiet_d_write | apply quiet_d_toggle | apply quiet_d_drive | apply quiet_d_setDrive
  | apply quiet_bind | apply quiet_ret | apply quiet_throw | apply quiet_gets | apply quiet_ask | apply quiet_when
  | apply quiet_on_gpio; solve [auto with keeps] | apply quiet_modify; done | progress unfold check_gpio
  | progress cbv beta iota | case_match ]).

Lemma quiet_readPull : quiet readPull.
Proof. unfold readPull. quiet. Qed.
Lemma quiet_readMode : quiet readMode.
Proof. unfold readMode. quiet. Qed.
Lemma quiet_writeDrive : quiet writeDrive.
Proof. unfold writeDrive. quiet. Qed.
Lemma quiet_readDrive : quiet readDrive.
Proof. unfold readDrive. quiet. Qed.
Lemma quiet_get_mode : quiet get_mode.
Proof. unfold get_mode. quiet. Qed.
Lemma quiet_get_pull : quiet get_pull.
Proof. unfold get_pull. quiet. Qed.
Lemma quiet_read : quiet read.
Proof. unfold read. quiet. Qed.
Lemma quiet_write v : quiet (write v).
Proof. unfold write. quiet. Qed.

Lemma quiet_pin_config : quiet pin_config.
Proof.
  assert (H : forall g, quiet (config_for g)).
  { intros g. unfold config_for.
    apply quiet_bind; [destruct (bool_decide _); [apply quiet_get_mode|apply quiet_ret]|]. intros m.
    apply quiet_bind; [destruct (bool_decide _); [apply quiet_get_pull|apply quiet_ret]|]. intros p.
    apply quiet_bind; [|intros; apply quiet_ret].
    destruct (bool_decide _); [|apply quiet_ret]. destruct (0 <=? _); [apply quiet_ret|apply quiet_read]. }
  split; intros s Hs; unfold pin_config; destruct (gpiodev s) as [g|]; try done; by apply (H g).
Qed.

Lemma quiet_gpiodev_open : quiet gpiodev_open.
Proof.
  assert (H : quiet (c ← pin_config; on_gpio (GpioDev2.open IoDevice.ReadWrite (mret c)))).
  { apply quiet_bind; [apply quiet_pin_config|]. quiet. }
  split; intros s Hs; unfold gpiodev_open; destruct (isGpioDevOpen s); try done; destruct (chip_isOpen (chp s)); try done;
    by apply H.
Qed.

Lemma kept_reset : keeps (held_kept h0) gpiodev_reset.
Proof.
  apply keeps_bind; [apply kept_on_gpio; auto with keeps|]. intros _. apply keeps_modify.
  intros s [[] Hk]. split; [by constructor|done].
Qed.
Lemma inv_reset : keeps (inv h0) gpiodev_reset.
Proof.
  apply keeps_bind; [apply quiet_on_gpio; auto with keeps|]. intros _. apply keeps_modify.
  intros s [[] Hk]. split; [by constructor|by left].
Qed.

(** The driver hands over to the kernel line only when all is kept. *)
Lemma inv_enable b : keeps (inv h0) (enableGpioDev b).
Proof.
  apply keeps_bind; [|intros; apply keeps_gets]. intros s Hi. unfold ask at 1.
  destruct (b && negb (isGpioDevEnabled s) && isGpio s) eqn:E.
  - destruct Hi as [[Hok Hg Ho Hmd Hpl] _]. unfold gpiodev_make. unfold modify at 1, mbind at 1, M_bind at 1, ask.
    unfold construct, chip_open. pose proof (k_sys_open (devPath (chip_no (num (desc s)))) (pw s) Hok) as [Hok1 Hhw1].
    destruct (sys_open (devPath (chip_no (num (desc s)))) (pw s)) as [fd x]. cbn in Hok1, Hhw1.
    match goal with |- context [isopen ?u] => set (s1 := u) end.
    assert (Hh : held h0 s1).
    { subst s1. constructor; cbn; destruct (negb (fd =? -1)); cbn; rewrite ?Hhw1; done. }
    rewrite (i_open _ _ Hh).
    destruct (setHoldMode_spec s1 Hh) as (s2 & H2 & Hh2 & E21 & E22 & E23 & _).
    destruct (setHoldPull_spec s2 Hh2) as (s3 & H3 & Hh3 & E31 & E32 & E33).
    rewrite (M_bind_ok _ _ _ _ _ _ _ _ H2), (M_bind_ok _ _ _ _ _ _ _ _ H3).
    apply kept_inv. refine ((_ : keeps (held_kept h0) _) s3 _); [|by split; [|split; [rewrite E31|]]].
    apply keeps_bind; [apply quiet_gpiodev_open|]. intros ok. destruct ok; [apply keeps_ret|apply kept_reset].
  - unfold ask. destruct (negb b && _); [by apply inv_reset|done].
Qed.

(** ** Using an open pin: the calls of a program, each with its exception caught *)
Inductive op : Type :=
  | SetMode (m : mode) | SetPull (p : pull) | SetDrive (n : Z) | GetMode | GetPull | GetDrive | Name
  | Write (v : bool) | Read | Toggle | Open | EnableGpioDev (b : bool)
  | Wait (e : edge) (debounce_ms timeout_ms : Z) | Attach (e : edge) (debounce_ms : Z) | Detach.
Definition ignore {A} (m : M (pin W) A) : M (pin W) unit := m;; mret tt.
Definition exec (o : op) : M (pin W) unit :=
  match o with
  | SetMode m => setMode m | SetPull p => setPull p | SetDrive n => setDrive n
  | GetMode => ignore get_mode | GetPull => ignore get_pull | GetDrive => ignore get_drive | Name => ignore name
  | Write v => write v | Read => ignore read | Toggle => toggle | Open => ignore open
  | EnableGpioDev b => ignore (public_enableGpioDev b)
  | Wait e d t => ignore (waitForInterrupt e d t) | Attach e d => attachInterrupt e d | Detach => detachInterrupt
  end.
Definition run (ops : list op) (s : pin W) : pin W := fold_left (fun s o => (exec o s).2) ops s.

Lemma keeps_ask {A} I (c : pin W -> bool) (m1 m2 : M (pin W) A) : keeps I m1 -> keeps I m2 -> keeps I (ask c m1 m2).
Proof. intros H1 H2 s H. unfold ask. destruct (c s); auto. Qed.

Lemma inv_prepare d : keeps (inv h0) (prepare_wait d).
Proof.
  apply keeps_bind; [apply inv_enable|]. intros [|]; [|apply keeps_throw]. cbn [negb].
  assert (H : quiet (when (0 <=? d) (on_gpio (GpioDev2.setDebounce d));; on_gpio GpioDev2.read;; mret tt)) by quiet.
  apply H.
Qed.

Definition mode_kept (o : op) : Prop := forall m, o = SetMode m -> PK -> keeps_pull m = true.

Lemma inv_exec o : mode_kept o -> keeps (inv h0) (exec o).
Proof.
  intros Hkm.
  assert (Hq : forall A (m : M (pin W) A), quiet m -> keeps (inv h0) m) by (intros A m [_ H]; exact H).
  assert (Hc : forall A (k : config -> M (pin W) A) (r : A), (forall c, quiet (k c)) ->
     keeps (inv h0) (ask isGpioDevOpen (c ← pin_config; k c) (mret r))).
  { intros A k r Hk. apply Hq, quiet_ask; [|apply quiet_ret]. by apply quiet_bind; [apply quiet_pin_config|]. }
  destruct o; cbn [exec]; unfold ignore; try (by apply inv_setMode, Hkm);
    try (apply Hq; unfold setPull, setDrive, get_drive, toggle, detachInterrupt, write, read; quiet; fail).
  - apply keeps_bind; [|intros; apply keeps_ret]. intros s Hs. unfold name. destruct (usable s); [|done].
    pose proof (proj2 quiet_get_mode s Hs) as H. destruct (get_mode s) as [[m|e] s']; [|done]. by destruct (name_of m s').
  - apply keeps_bind; [|intros; apply keeps_ret]. apply keeps_bind; [|intros; apply keeps_gets].
    intros s Hs. unfold ask. by rewrite (i_open _ _ (proj1 Hs)).
  - apply keeps_bind; [|intros; apply keeps_ret]. apply keeps_ask; [apply inv_enable|apply keeps_throw].
  - apply keeps_bind; [|intros; apply keeps_ret]. apply keeps_ask; [|apply keeps_ret].
    apply keeps_bind; [apply inv_prepare|]. intros _. apply keeps_bind; [apply Hc; quiet|].
    intros [x|]; [apply keeps_ret|]. apply Hq. quiet.
  - apply keeps_ask; [|apply keeps_ret]. apply keeps_bind; [apply inv_prepare|]. intros _.
    apply keeps_bind; [apply Hc; quiet|]. intros [|]; [apply keeps_ret|]. apply Hq. quiet.
Qed.

Lemma pin_inv_run ops : Forall mode_kept ops -> forall s, inv h0 s -> inv h0 (run ops s).
Proof. induction 1 as [|o ops Ho _ IH]; intros s Hs; [done|]. cbn. apply IH. by apply inv_exec. Qed.

(** ** Closing *)
Lemma destroy_total (x : @st W) : exists x', GpioDev2.destroy x = (Ok tt, x').
Proof.
  assert (Hl : forall y, exists b z, line_close y = (Ok b, z)).
  { intros y. unfold line_close. destruct (line_isOpen _); [|eauto]. destruct (sys_close _ _). eauto. }
  assert (Hg : forall y : @st W, exists b z, on_line line_close y = (Ok b, z)).
  { intros y. unfold on_line, zoom. destruct (Hl (mk_lst (gline (dev y)) (GpioDev2.chp y) (w y))) as (b & z & ->). eauto. }
  unfold GpioDev2.destroy, GpioDev2.close, GpioDev2.detachInterrupt, line_error, clear_error, upd. munfold.
  destruct (GpioDev2.isOpen _); munfold.
  - match goal with |- context [on_line line_close ?y] => destruct (Hg y) as (b & z & ->) end. munfold.
    destruct b; munfold; match goal with |- context [on_line line_close ?y] => destruct (Hg y) as (b' & z' & ->) end; eauto.
  - match goal with |- context [on_line line_close ?y] => destruct (Hg y) as (b & z & ->) end. eauto.
Qed.

(** Without a [GpioDev2], and with what is there kept, the calls go to the driver. *)
Lemma setMode_direct s m :
  isGpio s = true -> isopen s = true -> gpiodev s = None -> holdMode s <> ModeUnknown ->
  setMode m s = let '(o, x) := d_setMode m (pw s) in (o, set_world (chp s) x (set_pmode m s)).
Proof.
  intros Hg Ho Hn Hh. unfold setMode, check_gpio, ask, writeMode, setHoldMode. rewrite Hg. munfold. rewrite Ho.
  rewrite (bool_decide_eq_false_2 _ Hh). cbn. unfold ask, isGpioDevOpen. cbn. rewrite Hn. munfold. by rewrite dev_zoom.
Qed.
Lemma setPull_direct s p :
  isGpio s = true -> isopen s = true -> gpiodev s = None -> holdPull s <> PullUnknown ->
  setPull p s = let '(o, x) := d_setPull p (pw s) in (o, set_world (chp s) x (set_ppull p s)).
Proof.
  intros Hg Ho Hn Hh. unfold setPull, check_gpio, ask, writePull, setHoldPull, isGpioDevOpen. rewrite Hg. munfold.
  rewrite Ho, Hn, ok_device. munfold. rewrite (bool_decide_eq_false_2 _ Hh). cbn. by rewrite dev_zoom.
Qed.
Lemma write_direct s v :
  isGpio s = true -> isopen s = true -> gpiodev s = None ->
  write v s = let '(o, x) := d_write v (pw s) in (o, set_world (chp s) x s).
Proof.
  intros Hg Ho Hn. unfold write, ask, usable, isGpioDevOpen. rewrite Hg, Ho, Hn. cbn. apply dev_zoom.
Qed.

(** The mode is put back, and the level with it. *)
Lemma release_mode s :
  held h0 s -> gpiodev s = None -> can (h_mode h0) = true -> shown (h_mode h0) = h_mode h0 -> holdMode s = h_mode h0 ->
  exists s', (setMode (holdMode s);; v ← gets holdState; when (bool_decide (holdMode s = ModeOutput)) (write v);;
              modify (set_holdMode ModeUnknown)) s = (Ok tt, s') /\
    ok (pw s') /\ isGpio s' = true /\ isopen s' = true /\ gpiodev s' = None /\ h_mode (hwof s') = h_mode h0 /\
    (keeps_pull (h_mode h0) = true -> h_pull (hwof s') = h_pull (hwof s)) /\ holdPull s' = holdPull s /\ (h_mode h0 = ModeOutput -> h_level (hwof s') = holdState s).
Proof.
  intros [Hok Hg Ho _ _] Hn Hcan Hsh Hh. rewrite Hh.
  destruct (ok_setMode (pw s) (h_mode h0) Hok) as (o & x1 & H1 & Hok1 & Hp1 & Hm1). rewrite Hcan in Hm1. destruct Hm1 as [-> Hm1].
  set (s1 := set_world (chp s) x1 (set_pmode (h_mode h0) s)).
  rewrite (M_bind_ok _ _ _ _ _ s tt s1) by (rewrite setMode_direct by (done || by rewrite Hh); by rewrite H1).
  rewrite (M_bind_ok _ _ _ (gets holdState) _ s1 (holdState s) s1) by done.
  case_bool_decide as Eo; cbn [when].
  - destruct (ok_write x1 (holdState s) Hok1) as (x2 & H2 & Hok2 & Hm2 & Hp2 & Hl2).
    rewrite (M_bind_ok _ _ _ _ _ s1 tt (set_world (chp s) x2 s1)) by (rewrite write_direct by done; cbn; by rewrite H2).
    eexists. split; [reflexivity|]. cbn. rewrite Hm2, Hm1, Hp2, Hsh. split_and!; try done.
    intros _. apply Hl2. by rewrite Hm1, Hsh.
  - eexists. split; [reflexivity|]. cbn. rewrite Hm1, Hsh. by split_and!.
Qed.

Lemma release_pull s :
  ok (pw s) -> isGpio s = true -> isopen s = true -> gpiodev s = None -> holdPull s <> PullUnknown ->
  exists s', (setPull (holdPull s);; modify (set_holdPull PullUnknown)) s = (Ok tt, s') /\ gpiodev s' = None /\
    h_mode (hwof s') = h_mode (hwof s) /\ h_pull (hwof s') = holdPull s /\
    (h_mode (hwof s) = ModeOutput -> h_level (hwof s') = h_level (hwof s)).
Proof.
  intros Hok Hg Ho Hn Hh. destruct (ok_setPull (pw s) (holdPull s) Hok) as (o & x1 & H1 & Hok1 & Hm1 & Hp1 & Hl1).
  destruct (Hp1 Hh) as [-> Hp]. set (s1 := set_world (chp s) x1 (set_ppull (holdPull s) s)).
  rewrite (M_bind_ok _ _ _ _ _ s tt s1) by (rewrite setPull_direct by done; by rewrite H1).
  eexists. split; [reflexivity|]. done.
Qed.

Context (Hcan : can (h_mode h0) = true) (Hshown : shown (h_mode h0) = h_mode h0)
  (Hback : PK -> keeps_pull (h_mode h0) = true).

Lemma release_spec s :
  held h0 s -> gpiodev s = None ->
  exists s', release s = (Ok tt, s') /\ gpiodev s' = None /\ h_mode (hwof s') = h_mode h0 /\
    (PK -> h_pull (hwof s') = h_pull h0) /\
    (h_mode h0 = ModeOutput -> holdMode s = ModeOutput -> h_level (hwof s') = holdState s).
Proof.
  intros Hh Hn. pose proof Hh as [Hok Hg Ho Hmd Hpl]. unfold release, ask, usable. rewrite Ho, Hg. cbn [andb].
  rewrite (M_bind_ok _ _ _ (gets holdMode) _ s (holdMode s) s) by done.
  assert (exists s1, when (negb (bool_decide (holdMode s = ModeUnknown)))
     (setMode (holdMode s);; v ← gets holdState; when (bool_decide (holdMode s = ModeOutput)) (write v);;
      modify (set_holdMode ModeUnknown)) s = (Ok tt, s1) /\ ok (pw s1) /\ isGpio s1 = true /\ isopen s1 = true /\
      gpiodev s1 = None /\ h_mode (hwof s1) = h_mode h0 /\ (PK -> h_pull (hwof s1) = h_pull (hwof s)) /\ holdPull s1 = holdPull s /\
      (h_mode h0 = ModeOutput -> holdMode s = ModeOutput -> h_level (hwof s1) = holdState s))
    as (s1 & H1 & Hok1 & Hg1 & Ho1 & Hn1 & Hm1 & Hp1 & Hhp1 & Hl1).
  { case_bool_decide as E; cbn [negb when].
    - exists s. split_and!; try done; [by destruct Hmd as [[]|Hx]; [|rewrite E in Hx]|]. intros _ Hx. by rewrite E in Hx.
    - destruct (release_mode s Hh Hn Hcan Hshown) as (s1 & H1 & ? & ? & ? & ? & ? & ? & ? & ?); [by destruct Hmd as [[]|]|].
      exists s1. split_and!; auto. }
  rewrite (M_bind_ok _ _ _ _ _ _ _ _ H1). rewrite (M_bind_ok _ _ _ (gets holdPull) _ s1 (holdPull s1) s1) by done.
  clear H1. case_bool_decide as E; cbn [negb when].
  - exists s1. split_and!; try done. intros Hu. rewrite Hp1 by done. destruct (Hpl Hu) as [[]|Hx]; [done|]. rewrite <- Hhp1, E in Hx. by apply HPK in Hu.
  - destruct (release_pull s1 Hok1 Hg1 Ho1 Hn1 E) as (s2 & H2 & Hn2 & Hm2 & Hp2 & Hl2). exists s2. rewrite Hhp1 in H2, Hp2, E. rewrite Hhp1, Hm2, Hp2.
    split_and!; try done.
    + intros Hu. by destruct (Hpl Hu) as [[Hx _]|].
    + intros Hout Hhold. rewrite Hl2 by congruence. auto.
Qed.

Lemma close_spec s :
  inv h0 s ->
  exists s', close true s = (Ok tt, s') /\ isopen s' = false /\ gpiodev s' = None /\ h_mode (hwof s') = h_mode h0 /\
    (PK -> h_pull (hwof s') = h_pull h0) /\
    (h_mode h0 = ModeOutput -> holdMode s = ModeOutput -> h_level (hwof s') = holdState s).
Proof.
  intros Hi. pose proof (proj1 Hi) as [Hok Hg Ho Hmd Hpl]. unfold close. unfold ask at 1. rewrite Ho.
  assert (exists s2, (detachInterrupt;; enableGpioDev false) s = (Ok false, s2) /\ held h0 s2 /\ gpiodev s2 = None /\
    holdMode s2 = holdMode s /\ holdState s2 = holdState s) as (s2 & H2 & Hh2 & Hn2 & Em & Es).
  { pose proof (keeps_bind _ _ _ (inv_exec Detach ltac:(done)) (fun _ => inv_enable false) s Hi) as [Hh _]. revert Hh. cbn [exec].
    unfold detachInterrupt, enableGpioDev, ask, isGpioDevEnabled. munfold. destruct (gpiodev s) as [g|] eqn:Eg; cbn.
    - unfold on_gpio, GpioDev2.detachInterrupt, upd. rewrite Eg. munfold. unfold gpiodev_reset, on_gpio. munfold.
      match goal with |- context [GpioDev2.destroy ?y] => destruct (destroy_total y) as (z & ->) end. cbn.
      intros Hh. eexists. split; [reflexivity|]. done.
    - rewrite Eg. intros Hh. exists s. by rewrite Eg. }
  destruct (release_spec s2 Hh2 Hn2) as (s3 & H3 & Hn3 & Hm3 & Hp3 & Hl3). rewrite Em, Es in Hl3.
  exists (set_isopen false s3). split; [|done].
  assert (ask isGpio (detachInterrupt;; enableGpioDev false;; when true release) (mret tt) s = (Ok tt, s3)) as E.
  { unfold ask. rewrite Hg. unfold mbind, M_bind in *. destruct (detachInterrupt s) as [[[]|e] s1]; [|done].
    rewrite H2. exact H3. }
  rewrite (M_bind_ok _ _ _ _ _ _ _ _ E). done.
Qed.
End Inv.

Lemma keeps_bind_at {A B} (I : pin W -> Prop) (m : M (pin W) A) (f : pin W -> B) s :
  I (m s).2 -> I ((m;; gets f) s).2.
Proof. unfold mbind, M_bind, gets. by destruct (m s) as [[a|e] s']. Qed.

Lemma keeps_after {A B} (I : pin W -> Prop) (m : M (pin W) A) (k : M (pin W) B) s :
  keeps I k -> I (m s).2 -> I ((m;; k) s).2.
Proof. unfold mbind, M_bind. intros Hk. destruct (m s) as [[a|e] s']; [apply Hk|done]. Qed.

(** A pin as it is before its first use. *)
Definition fresh (s : pin W) : Prop :=
  ok (pw s) /\ isGpio s = true /\ isopen s = false /\ holdMode s = ModeUnknown /\ holdPull s = PullUnknown /\ gpiodev s = None.

Lemma open_inv s :
  fresh s -> h_mode (hwof s) <> ModeUnknown -> (PK -> h_pull (hwof s) <> PullUnknown) ->
  (PK -> pmode s = ModeUnknown \/ keeps_pull (pmode s) = true) -> inv (hwof s) (open s).2.
Proof.
  intros (Hok & Hg & Ho & Hm & Hp & Hn) Hu Hpu Hk. set (s1 := set_isopen true s).
  assert (H1 : inv (hwof s) s1).
  { split; [|by left]. constructor; try done; [by left|]. intros _. by left. }
  assert (Hq : quiet (hwof s) (when has_device (ask (fun s => negb (bool_decide (ppull s = PullUnknown))) writePull readPull;;
        ask (fun s => negb (pdrive s =? -1)) writeDrive (when (test d_flags hasDrive) readDrive)))).
  { apply quiet_when. apply quiet_bind; [apply quiet_ask; [by apply quiet_writePull|apply quiet_readPull]|]. intros _.
    apply quiet_ask; [apply quiet_writeDrive|]. apply quiet_when, quiet_readDrive. }
  unfold open. apply keeps_bind_at. unfold ask at 1. rewrite Ho. unfold ask at 1. rewrite Hg.
  unfold open_gpio. rewrite (M_bind_ok _ _ _ _ _ s true s) by (unfold ask, isGpioDevEnabled; by rewrite Hn).
  rewrite (M_bind_ok _ _ _ _ _ s tt s1) by done. cbn [when]. apply keeps_after; [apply Hq|].
  unfold ask. cbn [pmode s1 set_isopen]. case_bool_decide as E; cbn [negb].
  - by apply quiet_readMode.
  - apply (writeMode_step (hwof s) Hu (pmode s)); [|done..]. intros HP. by destruct (Hk HP).
Qed.

(** Pins that are not GPIO pins. *)
Definition inert (x : W) (s : pin W) : Prop := isGpio s = false /\ gpiodev s = None /\ pw s = x.

Lemma inert_exec x o : keeps (inert x) (exec o).
Proof.
  intros s (Hg & Hn & Hx).
  assert (Hu : usable s = false) by (unfold usable; rewrite Hg; apply andb_false_r).
  destruct o; cbn [exec]; unfold ignore, setMode, setPull, setDrive, get_mode, get_pull, get_drive, name, write, read, toggle,
    open, public_enableGpioDev, waitForInterrupt, attachInterrupt, detachInterrupt, check_gpio, ask, isGpioDevEnabled;
    munfold; rewrite ?Hg, ?Hu, ?Hn; try done.
  - by destruct (name_of ModeInput s).
  - by destruct (isopen s).
Qed.
End Lines.

(** C11: Closing a pin puts the hardware back as it was found.  Whatever is done
    with an open pin - modes, pulls and levels set or refused, interrupts waited
    for or attached through the kernel's line, exceptions included - [close] with
    [releaseOnClose] succeeds and leaves the pin in the mode it had before it was
    opened; a pin that was an output drives again the level recorded when its mode
    was first changed.  The pull it had is back too where the driver can read it
    and the mode the pin was found in, the one its object remembers from before, if
    any, and every mode set meanwhile keep the pull,
    which all modes of a BCM2711 do, and the input, output and PWM modes of the
    Raspberry Pi 5.  The pin has a known mode and no [GpioDev2] before it is
    opened. *)
Theorem pin_close_restores {W} {L : LineOs W} {D : PinDevice W} {OK : PinDeviceOk W D} {LK : LinesKeep W L ok hw}
    (s : pin W) (ops : list op) :
  fresh s -> h_mode (hw (pw s)) <> ModeUnknown ->
  let s2 := run ops (open s).2 in
  exists s', close true s2 = (Ok tt, s') /\ isopen s' = false /\ gpiodev s' = None /\
    h_mode (hw (pw s')) = h_mode (hw (pw s)) /\
    (h_mode (hw (pw s)) = ModeOutput -> holdMode s2 = ModeOutput -> h_level (hw (pw s')) = holdState s2) /\
    (h_pull (hw (pw s)) <> PullUnknown -> keeps_pull (h_mode (hw (pw s))) = true ->
     pmode s = ModeUnknown \/ keeps_pull (pmode s) = true ->
     (forall m, SetMode m ∈ ops -> keeps_pull m = true) -> h_pull (hw (pw s')) = h_pull (hw (pw s))).
Proof.
  intros Hf Hu s2. destruct (ok_back (pw s) (proj1 Hf) Hu) as [Hcan Hsh].
  set (PK := h_pull (hw (pw s)) <> PullUnknown /\ keeps_pull (h_mode (hw (pw s))) = true /\
    (pmode s = ModeUnknown \/ keeps_pull (pmode s) = true) /\ forall m, SetMode m ∈ ops -> keeps_pull m = true).
  destruct (close_spec PK (hw (pw s)) Hu ltac:(by intros []) Hcan Hsh ltac:(by intros (_ & ? & _)) s2)
    as (s' & H1 & H2 & H3 & H4 & H5 & H6).
  - apply pin_inv_run; [done|by intros []| |].
    + apply Forall_forall. intros o Ho m -> (_ & _ & _ & Hm). by apply Hm.
    + apply open_inv; [done..|by intros []|by intros (_ & _ & ? & _)].
  - exists s'. split_and!; try done. intros. by apply H5.
Qed.

(** Power, ground and other pins that are not GPIO pins reach no hardware: no
    call on them, in any order, makes a system call or touches a register. *)
Theorem pin_not_gpio_inert {W} {L : LineOs W} {D : PinDevice W} (s : pin W) (ops : list op) (b : bool) :
  isGpio s = false -> gpiodev s = None ->
  pw (run ops s) = pw s /\ pw (close b (run ops s)).2 = pw s.
Proof.
  intros Hg Hn. assert (H : inert (pw s) (run ops s)).
  { assert (H0 : inert (pw s) s) by done. revert H0. generalize (pw s). intros x. revert s Hg Hn.
    induction ops as [|o ops IH]; intros s Hg Hn H0; [done|]. cbn. pose proof (inert_exec x o s H0) as (H1 & H2 & H3).
    by apply IH. }
  destruct H as (Hg' & _ & Hx). split; [done|]. unfold close, ask. destruct (isopen _); [|done]. munfold. by rewrite Hg'.
Qed.
End GpioPin.
