(* ===== verification/PinBcm2711.v ===== *)
(** * Pins of a BCM2711

    The driver of GpioBcm2835.v is a [PinDevice]: its registers satisfy what the
    pins of GpioPin.v ask of a driver, so that the theorems on pins hold on it.
    The kernel's lines are those of Gpio2.v beside the registers. *)
From S2P Require Import Prelude IoDevice Mmio GpioBcm2835 Gpio2 GpioPin.
Import Flags Pin.

Module PinBcm2711.
Import Gpio2 GpioDev2 GpioPin Mmio.

(** The kernel beside the registers. *)
Definition second {A K B} (m : K -> B * K) (x : A * K) : B * (A * K) := let '(b, k) := m x.2 in (b, (x.1, k)).
#[export] Instance beside (A K : Type) (L : LineOs K) : LineOs (A * K) := {|
  errno x := errno x.2;
  sys_open d := second (sys_open d);
  sys_close fd := second (sys_close fd);
  sys_line_info fd o := second (sys_line_info fd o);
  sys_get_line fd o c := second (sys_get_line fd o c);
  sys_set_config fd c := second (sys_set_config fd c);
  sys_get_values fd m := second (sys_get_values fd m);
  sys_set_values fd b m := second (sys_set_values fd b m);
  sys_poll fd t := second (sys_poll fd t);
  sys_read_event fd := second (sys_read_event fd) |}.

Section Bcm.
Context {O : MapOs} {D : Device} {R : Bcm2835.Bcm2835Regs D} {PU : Bcm2835.Bcm2711Pull D} {K : Type} {L : LineOs K}.
Context (g : Z) (Hg : 0 <= g < Bcm2835.GpioSize).

Definition on_regs {A} (m : M io A) : M (io * K) A := zoom fst (fun r x => (r, x.2)) m.

(** The members of [GpioDevice] that the driver does not redefine: [toggle]
    reads and writes, the drive strength is unknown. *)
#[export] Instance bcm_pin : PinDevice (io * K) := {|
  has_device := true;
  d_flags := Bcm2835.flags true;
  d_modes := [(ModeInput, "in"); (ModeOutput, "out"); (ModeAlt0, "alt0"); (ModeAlt1, "alt1"); (ModeAlt2, "alt2");
              (ModeAlt3, "alt3"); (ModeAlt4, "alt4"); (ModeAlt5, "alt5"); (ModePwm, "pwm")]%string;
  d_write v := on_regs (Bcm2835.write g v);
  d_read := on_regs (Bcm2835.read g);
  d_toggle := on_regs (Mmio.toggle (Bcm2835.read g) (Bcm2835.write g));
  d_setMode m := on_regs (Bcm2835.setMode g m);
  d_mode := on_regs (Bcm2835.mode_of g);
  d_setPull p := on_regs (Bcm2835.setPull true g p);
  d_pull := on_regs (Bcm2835.pull_of true g);
  d_setDrive _ := mret tt;
  d_drive := mret (-1) |}.

Definition shown_mode (s : io) : mode :=
  match tab Bcm2835.int2mode (Bcm2835.fsel g (regs s)) with
  | Some m => if Bcm2835.is_pwm m g then ModePwm else m
  | None => ModeUnknown
  end.
Definition bcm_hw (s : io) : hwpin :=
  mk_hwpin (shown_mode s) (Bcm2835.pull_code (Bcm2835.pupd g (regs s))) (Bcm2835.level g (regs s)).

Lemma on_regs_eq {A} (m : M io A) s k o s' : m s = (o, s') -> on_regs m (s, k) = (o, (s', k)).
Proof. intros H. unfold on_regs, zoom. cbn. by rewrite H. Qed.

Lemma int2mode_total c : 0 <= c < 8 -> exists m, tab Bcm2835.int2mode c = Some m.
Proof.
  intros Hc. assert (c ∈ seqZ 0 8) as Hs by (apply elem_of_seqZ; lia). cbn in Hs.
  repeat (apply elem_of_cons in Hs as [->|Hs]; [cbn; eauto|]). by apply elem_of_nil in Hs.
Qed.

Lemma bcm_mode_shown s : Bcm2835.mapped s -> Bcm2835.mode_of g s = (Ok (shown_mode s), s).
Proof.
  intros Hm. rewrite Bcm2835.bcm_mode_of_eq by done. unfold shown_mode.
  destruct (int2mode_total (Bcm2835.fsel g (regs s))) as (m & ->); [|done].
  apply (field_bound _ _ 3). lia.
Qed.

Lemma shown_output s : shown_mode s = ModeOutput <-> Bcm2835.fsel g (regs s) = 1.
Proof.
  unfold shown_mode. split; [|by intros ->].
  destruct (tab _ _) as [m|] eqn:E; [|done]. destruct (Bcm2835.is_pwm m g); [done|]. intros ->.
  unfold Bcm2835.int2mode in E. cbn in E. repeat case_decide; simplify_eq/=; done.
Qed.

(** Writing the function select register or driving the pin leaves the pull. *)
Lemma pupd_low o v r : o < Bcm2835.GPPUPPDN0 -> 0 <= v < 2 ^ 32 -> Bcm2835.pupd g (hw_write o v r) = Bcm2835.pupd g r.
Proof.
  intros Ho Hv. destruct (Bcm2835.pupd_place g Hg) as (_ & _ & Hd & _). rewrite Bcm2835.pupd_write by done.
  by rewrite (proj2 (Z.eqb_neq _ _)) by lia.
Qed.

Lemma bcm_setMode_pin s m :
  Bcm2835.mapped s -> exists o s', Bcm2835.setMode g m s = (o, s') /\ Bcm2835.mapped s' /\
    Bcm2835.pupd g (regs s') = Bcm2835.pupd g (regs s) /\
    if Bcm2835.settable g m then o = Ok tt /\ shown_mode s' = Bcm2835.reported g m else (exists e, o = Throw e) /\ s' = s.
Proof.
  intros Hm. destruct (Bcm2835.settable g m) eqn:Es.
  - destruct (Bcm2835.bcm_setMode_code g m s Es) as (m' & c & Hp & Hc & Hb & Hi & Hr).
    destruct (Bcm2835.bcm_setMode_eq g m m' c s Hm Hg Hp Hc Hb) as (v & Hs & Hv & Ev).
    destruct (Bcm2835.fsel_place g Hg) as (_ & _ & Hd & _).
    eexists _, _. split; [exact Hs|]. split; [done|]. cbn [regs set_regs].
    split; [apply pupd_low; [unfold Bcm2835.GFPSEL0, Bcm2835.GPPUPPDN0; lia|done]|]. split; [done|].
    unfold shown_mode. cbn [regs set_regs]. by rewrite Ev, Bcm2835.fsel_setMode, Z.eqb_refl, Hi by done.
  - destruct (Bcm2835.bcm_setMode_refused g m s Hm Hg Es) as (e & Hs & _). eauto 10.
Qed.

Lemma bcm_write_pin s v :
  Bcm2835.mapped s -> exists s', Bcm2835.write g v s = (Ok tt, s') /\ Bcm2835.mapped s' /\ shown_mode s' = shown_mode s /\
    Bcm2835.pupd g (regs s') = Bcm2835.pupd g (regs s) /\ (shown_mode s = ModeOutput -> Bcm2835.level g (regs s') = v).
Proof.
  intros Hm. destruct (Bcm2835.bank_eq g 0 Hg) as (_ & Hb & Hd). pose proof (bit32_bound _ Hb) as Hbit.
  rewrite Bcm2835.write_eq by done. eexists. split; [reflexivity|]. split; [done|]. unfold shown_mode. cbn [regs set_regs].
  rewrite Bcm2835.fsel_out by done. split; [done|]. split.
  - apply pupd_low; [|done]. unfold Bcm2835.out_reg, Bcm2835.GPSET0, Bcm2835.GPCLR0, Bcm2835.GPPUPPDN0. destruct v; lia.
  - fold (shown_mode s). intros Ho. apply shown_output in Ho.
    by rewrite Bcm2835.level_output, Bcm2835.latch_out, Z.eqb_refl by (done || by rewrite Bcm2835.fsel_out).
Qed.

Lemma bcm_setPull_pin s p :
  Bcm2835.mapped s -> exists s', Bcm2835.setPull true g p s = (Ok tt, s') /\ Bcm2835.mapped s' /\ shown_mode s' = shown_mode s /\
    (p <> PullUnknown -> Bcm2835.pull_code (Bcm2835.pupd g (regs s')) = p) /\
    (shown_mode s = ModeOutput -> Bcm2835.level g (regs s') = Bcm2835.level g (regs s)).
Proof.
  intros Hm. destruct (decide (p = PullUnknown)) as [->|Hu]; [by exists s|].
  assert (exists c, Bcm2835.pval_2711 p = Some c /\ 0 <= c < 2 ^ 2 /\ Bcm2835.pull_code c = p) as (c & Hc & Hb & Hp)
    by (destruct p; [exists 0|exists 2|exists 1|done]; repeat split; lia || done).
  destruct (Bcm2835.pupd_place g Hg) as (_ & _ & Hd & Hmod), (Bcm2835.fsel_place g Hg) as (_ & _ & Hd' & _),
    (Bcm2835.bank_eq g 0 Hg) as (_ & _ & Hd'').
  rewrite (Bcm2835.setPull_2711_eq g p c) by done. set (v := set_field _ _ _ _).
  assert (0 <= v < 2 ^ 32) as Hv by (apply set_field_bound; [auto with piduino|lia..]).
  assert (Hf : Bcm2835.fsel g (hw_write (Bcm2835.GPPUPPDN0 + g / 16) v (regs s)) = Bcm2835.fsel g (regs s)).
  { rewrite Bcm2835.fsel_write by done. by rewrite (proj2 (Z.eqb_neq _ _)) by (unfold Bcm2835.GPPUPPDN0, Bcm2835.GFPSEL0; lia). }
  eexists. split; [reflexivity|]. split; [done|]. unfold shown_mode. cbn [regs set_regs]. rewrite Hf. split; [done|].
  split; [intros _; unfold v; by rewrite Bcm2835.pupd_setPull, Z.eqb_refl, Hp by done|].
  fold (shown_mode s). intros Ho. apply shown_output in Ho.
  rewrite !Bcm2835.level_output, Bcm2835.latch_write by (done || by rewrite Hf).
  by rewrite !(proj2 (Z.eqb_neq _ _)) by (unfold Bcm2835.GPPUPPDN0, Bcm2835.GPSET0, Bcm2835.GPCLR0; lia).
Qed.

(** A mode read from the register can be set again. *)
Lemma bcm_back c m :
  tab Bcm2835.int2mode c = Some m ->
  let m' := if Bcm2835.is_pwm m g then ModePwm else m in Bcm2835.settable g m' = true /\ Bcm2835.reported g m' = m'.
Proof.
  intros Hc m'. assert (Hs : Bcm2835.settable g m = true).
  { unfold Bcm2835.int2mode in Hc. cbn in Hc. repeat case_decide; by simplify_eq/=. }
  unfold m'. destruct (Bcm2835.is_pwm m g) eqn:E; [|unfold Bcm2835.reported; by rewrite E].
  split; [|done]. unfold Bcm2835.is_pwm in E. cbn. repeat case_bool_decide; cbn in E; try done;
    destruct (g =? 12), (g =? 13), (g =? 18), (g =? 19); done.
Qed.

#[export] Instance bcm_pin_ok : PinDeviceOk (io * K) bcm_pin.
Proof.
  refine {| ok x := Bcm2835.mapped x.1; GpioPin.hw x := bcm_hw x.1; can := Bcm2835.settable g; shown := Bcm2835.reported g;
    keeps_pull _ := true |}.
  - done.
  - intros [s k] Hm. by apply on_regs_eq, bcm_mode_shown.
  - intros [s k] Hm. by apply on_regs_eq, Bcm2835.bcm_read_eq.
  - intros [s k] Hm. by apply on_regs_eq, Bcm2835.bcm_pull_of_eq.
  - intros [s k] m Hm. destruct (bcm_setMode_pin s m Hm) as (o & s' & Hs & Hm' & Hp & Hx).
    exists o, (s', k). split; [by apply on_regs_eq|]. split; [done|]. cbn. split; [intros _; by rewrite Hp|].
    destruct (Bcm2835.settable g m); [done|]. by destruct Hx as [_ ->].
  - intros [s k] Hm Hu. cbn in *. unfold shown_mode in *. destruct (tab _ _) as [m|] eqn:E; [|done].
    by apply bcm_back in E.
  - intros [s k] p Hm. destruct (bcm_setPull_pin s p Hm) as (s' & Hs & Hm' & H1 & H2 & H3).
    exists (Ok tt), (s', k). split; [by apply on_regs_eq|]. cbn. split_and!; auto.
  - intros [s k] v Hm. destruct (bcm_write_pin s v Hm) as (s' & Hs & Hm' & H1 & H2 & H3).
    exists (s', k). split; [by apply on_regs_eq|]. cbn. rewrite H2. split_and!; auto.
  - intros [s k] Hm. destruct (bcm_write_pin s (negb (Bcm2835.level g (regs s))) Hm) as (s' & Hs & Hm' & H1 & H2 & H3).
    exists (s', k). split; [|cbn; rewrite H2; split_and!; auto]. apply on_regs_eq. unfold Mmio.toggle.
    by rewrite (M_bind_ok _ _ _ _ _ _ _ _ (Bcm2835.bcm_read_eq g s Hm Hg)).
  - intros x Hm. by eexists.
  - intros x n Hm. by exists (Ok tt), x.
Defined.

#[export] Instance beside_keeps : LinesKeep (io * K) (beside io K L) ok GpioPin.hw.
Proof.
  constructor; intros; cbn in *; unfold second;
    match goal with |- context [let '(_, _) := ?m in _] => destruct m end; done.
Qed.
End Bcm.

(** ** Pin 12 of the register block of GpioBcm2835.v, found as an output *)
Module Demo.
Definition descriptor12 : descriptor := mk_descriptor TypeGpio (mk_number 26 12 12 16 2 0 12) 1 [(ModeInput, "GPIO12")]%string.
Definition world : Type := @io IoMap.no_mmap Bcm2835.Demo.device * GpioDev2.Demo.kline.
#[local] Existing Instances Bcm2835.Demo.device_regs Bcm2835.Demo.device_2711 GpioDev2.Demo.demo_lines.
Lemma pin12 : 0 <= 12 < Bcm2835.GpioSize.
Proof. unfold Bcm2835.GpioSize. lia. Qed.
#[export] Instance dev12 : PinDevice world := bcm_pin 12.
#[export] Instance ok12 : PinDeviceOk world dev12 := bcm_pin_ok 12 pin12.

Definition pin0 : pin world := new descriptor12 new_chip (Bcm2835.Demo.start, GpioDev2.Demo.kline0).
Definition use : list op :=
  [SetMode ModeInput; SetPull PullUp; Read; Wait EdgeBoth 5 100; SetMode ModeAlt7; Write true; EnableGpioDev false; SetMode ModePwm].

Lemma pin0_fresh : fresh pin0.
Proof. by split_and!. Qed.

Lemma pin_close_restores_witness :
  let s2 := run use (open pin0).2 in
  exists s', close true s2 = (Ok tt, s') /\ isopen s' = false /\ gpiodev s' = None /\
    h_mode (GpioPin.hw (pw s')) = ModeOutput /\ h_pull (GpioPin.hw (pw s')) = PullOff /\
    h_level (GpioPin.hw (pw s')) = false.
Proof.
  assert (Hu : h_mode (GpioPin.hw (pw pin0)) <> ModeUnknown) by (vm_compute; discriminate).
  destruct (pin_close_restores pin0 use pin0_fresh Hu) as (s' & H1 & H2 & H3 & H4 & H5 & H6).
  exists s'. split; [exact H1|]. split; [exact H2|]. split; [exact H3|]. split; [rewrite H4; vm_compute; reflexivity|].
  split; [rewrite H6; [vm_compute; reflexivity|vm_compute; discriminate|reflexivity|left; reflexivity|intros; reflexivity]|].
  rewrite H5; vm_compute; reflexivity.
Defined.

(** A line enabled before the pin is opened takes over without anything kept:
    the pull set on it is still there after the pin is closed. *)
Lemma early_gpiodev_keeps_no_pull :
  let s := (public_enableGpioDev true pin0).2 in
  holdPull (run [SetPull PullUp] (open s).2) = PullUnknown.
Proof. by vm_compute. Qed.

Definition power_pin : pin world :=
  new (mk_descriptor TypePower (mk_number (-1) (-1) (-1) 1 1 (-1) (-1)) 2 []) new_chip (Bcm2835.Demo.start, GpioDev2.Demo.kline0).

Lemma pin_not_gpio_inert_witness :
  pw (run use power_pin) = pw power_pin /\ pw (close true (run use power_pin)).2 = pw power_pin.
Proof. exact (pin_not_gpio_inert power_pin use true eq_refl eq_refl). Defined.
End Demo.
End PinBcm2711.
