(* ===== verification/PinRp1.v ===== *)
(** * Pins of the Raspberry Pi 5

    The driver of GpioRp1.v is a [PinDevice] too: one of its 28 pins satisfies
    what the pins of GpioPin.v ask of a driver.  Only the input, output and PWM
    modes keep the pull; the others write the pad of the pin. *)
From S2P Require Import Prelude IoDevice Mmio GpioRp1 Gpio2 GpioPin PinBcm2711.
Import Flags Pin.

Module PinRp1.
Import Gpio2 GpioDev2 GpioPin Mmio.

Section Rp1Pin.
Context {O : MapOs} {D : Device} {b : Z} {R : Rp1.Rp1Regs D b} {K : Type} {L : LineOs K}.
Context (p : Z) (Hp : 0 <= p < Rp1.GpioCount).
Abbreviation rp1 := (Rp1.rp1 (O := O) (D := D)).

Definition on_rp1 {A} (m : M rp1 A) : M (rp1 * K) A := zoom fst (fun r x => (r, x.2)) m.
Lemma on_rp1_eq {A} (m : M rp1 A) s k o s' : m s = (o, s') -> on_rp1 m (s, k) = (o, (s', k)).
Proof. intros H. unfold on_rp1, zoom. cbn. by rewrite H. Qed.

#[export] Instance rp1_pin : PinDevice (rp1 * K) := {|
  has_device := true;
  d_flags := Z.lor (Z.lor (Z.lor hasAltRead hasPullRead) hasDrive) hasToggle;
  d_modes := [(ModeInput, "in"); (ModeOutput, "out"); (ModeAlt0, "alt0"); (ModeAlt1, "alt1"); (ModeAlt2, "alt2");
              (ModeAlt3, "alt3"); (ModeAlt4, "alt4"); (ModeAlt6, "alt6"); (ModeAlt7, "alt7"); (ModeAlt8, "alt8");
              (ModeDisabled, "off"); (ModePwm, "pwm")]%string;
  d_write v := on_rp1 (Rp1.write p v);
  d_read := on_rp1 (Rp1.read p);
  d_toggle := on_rp1 (Rp1.toggle p);
  d_setMode m := on_rp1 (Rp1.setMode p m);
  d_mode := on_rp1 (Rp1.mode_of p);
  d_setPull v := on_rp1 (Rp1.setPull p v);
  d_pull := on_rp1 (Rp1.pull_of p);
  d_setDrive n := on_rp1 (Rp1.setDrive p n);
  d_drive := on_rp1 (Rp1.drive_of p) |}.

(** The control word, the pad and the output enable of the pin. *)
Definition cw (s : rp1) : Z := Rp1.ctrl b p (Rp1.regs_of s).
Definition pd (s : rp1) : Z := Rp1.pad b p (Rp1.regs_of s).
Definition en (s : rp1) : bool := Rp1.oe p (Rp1.regs_of s).
Definition lev (s : rp1) : bool := Rp1.level p (Rp1.regs_of s).

Definition rp1_hw (s : rp1) : hwpin :=
  mk_hwpin (default ModeUnknown (Rp1.decoded p (cw s) (en s))) (Rp1.pull_code (Z.land (pd s) Rp1.GPIO_PAD_PULL_MASK)) (lev s).

(** A pad that drives and listens: output enabled, input enabled. *)
Definition drives (x : Z) : Prop := Z.testbit x 7 = false /\ Z.testbit x 6 = true.

(** The function select is one the driver knows, under the RIO function nothing
    is overridden, and a pin shown as an output drives its pad. *)
Record pin_ok (s : rp1) : Prop := {
  po_ready : Rp1.ready (b := b) s;
  po_over : Rp1.funcsel (cw s) <> Rp1.FselGpio \/ Rp1.over (cw s) = 0;
  po_mode : is_Some (Rp1.decoded p (cw s) (en s));
  po_drives : Rp1.funcsel (cw s) = Rp1.FselGpio -> en s = true -> drives (pd s) }.

Lemma decoded_output c e : Rp1.decoded p c e = Some ModeOutput -> Rp1.funcsel c = Rp1.FselGpio /\ e = true.
Proof.
  unfold Rp1.decoded. destruct (tab Rp1.fsel2mode (Rp1.funcsel c)) as [m|] eqn:E; [|done]. cbn.
  destruct (Z.eqb_spec (Rp1.funcsel c) Rp1.FselGpio) as [|Hne]; [by destruct e|].
  destruct (Rp1.is_pwm m p); [done|]. intros [= ->]. unfold Rp1.fsel2mode in E. cbn in E. repeat case_decide; by simplify_eq/=.
Qed.

Lemma output_level s : pin_ok s -> h_mode (rp1_hw s) = ModeOutput -> lev s = Rp1.out p (Rp1.regs_of s).
Proof.
  intros [Hr Ho [m Hm] Hd] He. unfold rp1_hw in He. cbn [h_mode] in He. rewrite Hm in He. cbn in He. subst m.
  apply decoded_output in Hm as [Hf He]. destruct Ho as [|Ho]; [done|]. destruct (Hd Hf He). by apply Rp1.level_output.
Qed.

(** The pin keeps its state when the control word and the enable stay and the
    pad keeps its driver bits. *)
Lemma pin_ok_pad s s' : pin_ok s -> Rp1.ready (b := b) s' -> cw s' = cw s -> en s' = en s ->
  Z.land (pd s') 0xC0 = Z.land (pd s) 0xC0 -> pin_ok s' /\ h_mode (rp1_hw s') = h_mode (rp1_hw s).
Proof.
  intros [Hr Ho Hm Hd] Hr' Hc He Hp'. split; [|unfold rp1_hw; cbn [h_mode]; by rewrite Hc, He].
  assert (Hb : forall i, (i = 6 \/ i = 7) -> Z.testbit (pd s') i = Z.testbit (pd s) i).
  { intros i Hi. pose proof (f_equal (fun x => Z.testbit x i) Hp') as H. cbn beta in H. rewrite !Z.land_spec in H.
    destruct Hi as [->| ->]; [change (Z.testbit 0xC0 6) with true in H|change (Z.testbit 0xC0 7) with true in H];
      by rewrite !andb_true_r in H. }
  constructor; rewrite ?Hc, ?He; try done. unfold drives. rewrite !Hb by auto. done.
Qed.

(** ** The calls *)
Lemma after_drives m x q e c q' e' : Rp1.after p m x q e = Some (c, q', e') ->
  Rp1.funcsel c = Rp1.FselGpio -> e' = true -> drives q'.
Proof.
  destruct m; cbn [Rp1.after]; try done; cbn -[Rp1.alt_ctrl Rp1.funcsel field];
    try (intros [= <- <- <-]; by rewrite ?Rp1.alt_ctrl_sel by done).
  - intros [= <- <- <-] _ _. apply Rp1.pad_gpio_drives.
  - repeat case_match; by intros [= <- <- <-].
Qed.

Lemma rp1_setMode_pin s m : pin_ok s ->
  exists o s', Rp1.setMode p m s = (o, s') /\ pin_ok s' /\
    (Rp1.keeps_pad m || negb (Rp1.settable p m) = true -> h_pull (rp1_hw s') = h_pull (rp1_hw s)) /\
    if Rp1.settable p m then o = Ok tt /\ h_mode (rp1_hw s') = Rp1.reported p m else s' = s.
Proof.
  intros Hs. pose proof (po_ready _ Hs) as Hr. destruct (Rp1.settable p m) eqn:Em.
  - destruct (Rp1.after_settable p m (hw_read (Rp1.ctrl_reg b p) (Rp1.regs_of s)) (pd s) (en s) Em)
      as (c & q & e & Ha & Hc & Hd & Hk).
    destruct (Rp1.rp1_setMode_eq p m s c q e Hr Hp Ha) as (s' & He & Hr' & Hv).
    pose proof (Hv p Hp) as Hvp. rewrite Z.eqb_refl in Hvp. apply Rp1.view_split in Hvp as (Hvc & Hvd & Hve & _).
    fold (cw s') in Hvc. fold (pd s') in Hvd. fold (en s') in Hve.
    exists (Ok tt), s'. split; [done|]. split_and!; try done.
    + constructor; rewrite ?Hvc, ?Hvd, ?Hve; try done. by eapply after_drives.
    + rewrite orb_false_r. intros Hkm. unfold rp1_hw. cbn [h_pull]. rewrite Hvd. by destruct (Rp1.pad_settings _ _ (Hk Hkm)) as [-> _].
    + unfold rp1_hw. cbn [h_mode]. by rewrite Hvc, Hve, Hd.
  - rewrite Rp1.setMode_other by done. eexists _, s. by split_and!.
Qed.

Lemma rp1_drive_pin_ok op s : pin_ok s ->
  exists s', Rp1.drive_pin op p s = (Ok tt, s') /\ pin_ok s' /\ h_mode (rp1_hw s') = h_mode (rp1_hw s) /\
    h_pull (rp1_hw s') = h_pull (rp1_hw s) /\
    (h_mode (rp1_hw s) = ModeOutput -> lev s' = default (negb (lev s)) op).
Proof.
  intros Hs. destruct (Rp1.rp1_drive_pin_eq op p s (po_ready _ Hs) Hp) as (s' & He & Hr & Hv).
  specialize (Hv p Hp). rewrite Z.eqb_refl in Hv. apply Rp1.view_split in Hv as (H1 & H2 & H3 & H4).
  destruct (pin_ok_pad s s' Hs Hr H1 H3) as [Hok Hm]; [unfold pd; by rewrite H2|].
  exists s'. split_and!; try done; [unfold rp1_hw, pd; cbn [h_pull]; by rewrite H2|].
  intros Ho. rewrite (output_level s'), (output_level s), H4 by (done || by rewrite Hm). done.
Qed.

(** Writing some bits of the pad that are not its driver bits. *)
Lemma rp1_masked_pin m v s : pin_ok s -> 0 <= v < 2 ^ 32 ->
  Z.land (u32 (Z.lnot m)) 0xC0 = 0xC0 -> Z.land v 0xC0 = 0 ->
  exists s', Rp1.setPadReg p (Rp1.masked (hw_read (Rp1.pad_reg b p) (Rp1.regs_of s)) m v) s = (Ok tt, s') /\ pin_ok s' /\
    h_mode (rp1_hw s') = h_mode (rp1_hw s) /\ (h_mode (rp1_hw s) = ModeOutput -> lev s' = lev s) /\
    forall k, Z.land 0xff k = k -> Z.land (pd s') k = Z.land (Rp1.masked (hw_read (Rp1.pad_reg b p) (Rp1.regs_of s)) m v) k.
Proof.
  intros Hs Hv Hm Hv0. destruct (Rp1.set_masked p m v s (po_ready _ Hs) Hp Hv) as (s' & He & Hr & Hpad & Hq).
  destruct (Hq p Hp) as (H1 & H2 & H3 & _). fold (pd s') in Hpad.
  destruct (pin_ok_pad s s' Hs Hr H1 H2) as [Hok Hmode].
  { rewrite Hpad. unfold pd, Rp1.pad. rewrite !Rp1.field_mask by done. by apply Rp1.masked_out. }
  exists s'. split_and!; try done.
  - intros Ho. by rewrite (output_level s'), (output_level s), H3 by (done || by rewrite Hmode).
  - intros k Hk. by rewrite Hpad, Rp1.field_mask.
Qed.

Lemma padReg_eq s : pin_ok s -> Rp1.padReg p s = (Ok (hw_read (Rp1.pad_reg b p) (Rp1.regs_of s)), s).
Proof. intros Hs. apply Rp1.rp1_get_eq; [apply Hs|]. Rp1.rp1_numbers. lia. Qed.

Lemma rp1_setPull_pin s v : pin_ok s ->
  exists s', Rp1.setPull p v s = (Ok tt, s') /\ pin_ok s' /\ h_mode (rp1_hw s') = h_mode (rp1_hw s) /\
    (v <> PullUnknown -> h_pull (rp1_hw s') = v) /\ (h_mode (rp1_hw s) = ModeOutput -> lev s' = lev s).
Proof.
  intros Hs. unfold Rp1.setPull. rewrite (M_bind_ok _ _ _ _ _ _ _ _ (padReg_eq s Hs)).
  destruct (Rp1.pull_bits v) as [x|] eqn:E; [|exists s; by destruct v].
  assert (0 <= x < 2 ^ 32 /\ Z.land x 0xC0 = 0 /\ Z.land x Rp1.GPIO_PAD_PULL_MASK = x /\ Rp1.pull_code x = v)
    as (Hx & H0 & Hm & Hc) by (destruct v; simplify_eq/=; by split_and!).
  destruct (rp1_masked_pin Rp1.GPIO_PAD_PULL_MASK x s Hs Hx eq_refl H0) as (s' & He & Hok & Hmode & Hl & Hk).
  exists s'. split_and!; try done. intros _. unfold rp1_hw. cbn [h_pull].
  by rewrite Hk, Rp1.masked_in, Hc.
Qed.

Lemma rp1_setDrive_pin s n : pin_ok s ->
  exists s', Rp1.setDrive p n s = (Ok tt, s') /\ pin_ok s' /\ h_mode (rp1_hw s') = h_mode (rp1_hw s) /\
    h_pull (rp1_hw s') = h_pull (rp1_hw s) /\ (h_mode (rp1_hw s) = ModeOutput -> lev s' = lev s).
Proof.
  intros Hs. unfold Rp1.setDrive. rewrite (M_bind_ok _ _ _ _ _ _ _ _ (padReg_eq s Hs)).
  set (x := Z.land (u32 (Z.shiftl n Rp1.GPIO_PAD_DRIVE_LSB)) Rp1.GPIO_PAD_DRIVE_MASK).
  assert (Hx : 0 <= x < 2 ^ 32).
  { unfold x. assert (0 <= Z.land (u32 (Z.shiftl n Rp1.GPIO_PAD_DRIVE_LSB)) 0x30) by (apply Z.land_nonneg; lia).
    split; [done|]. apply bits_bound; [lia|done|]. intros i Hi.
    by rewrite Z.land_spec, (testbit_high Rp1.GPIO_PAD_DRIVE_MASK 32 i), andb_false_r by done. }
  assert (H0 : forall k, Z.land 0x30 k = 0 -> Z.land x k = 0).
  { intros k Hk. unfold x. rewrite <- Z.land_assoc. change Rp1.GPIO_PAD_DRIVE_MASK with 0x30. rewrite Hk. apply Z.land_0_r. }
  destruct (rp1_masked_pin Rp1.GPIO_PAD_DRIVE_MASK x s Hs Hx eq_refl (H0 0xC0 eq_refl)) as (s' & He & Hok & Hmode & Hl & Hk).
  exists s'. split_and!; try done. unfold rp1_hw. cbn [h_pull].
  rewrite Hk by done. rewrite Rp1.masked_out by (done || by apply H0). unfold pd, Rp1.pad. by rewrite Rp1.field_mask.
Qed.

(** A mode read from the registers can be set again. *)
Lemma rp1_back c e m : Rp1.decoded p c e = Some m -> m <> ModeUnknown ->
  Rp1.settable p m = true /\ Rp1.reported p m = m.
Proof.
  unfold Rp1.decoded. destruct (tab Rp1.fsel2mode (Rp1.funcsel c)) as [m0|] eqn:E; [|done]. cbn.
  destruct (Z.eqb_spec (Rp1.funcsel c) Rp1.FselGpio) as [|Hne]; [by destruct e; intros [= <-]|].
  destruct (Rp1.is_pwm m0 p) eqn:Ep; intros [= <-] Hu.
  - split; [|done]. unfold Rp1.is_pwm in Ep. cbn. revert Ep.
    by destruct (bool_decide _), (bool_decide _), (p =? 12), (p =? 13), (p =? 18), (p =? 19).
  - unfold Rp1.reported. rewrite Ep. split; [|done]. unfold Rp1.fsel2mode in E. cbn in E.
    repeat case_decide; by simplify_eq/=.
Qed.

#[export] Instance rp1_pin_ok : PinDeviceOk (rp1 * K) rp1_pin.
Proof.
  refine {| ok x := pin_ok x.1; GpioPin.hw x := rp1_hw x.1; can := Rp1.settable p; shown := Rp1.reported p;
    keeps_pull m := Rp1.keeps_pad m || negb (Rp1.settable p m) |}.
  - done.
  - intros [s k] Hs. cbn in Hs. apply on_rp1_eq. destruct (po_mode _ Hs) as [m Hm]. unfold rp1_hw. cbn [h_mode fst]. rewrite Hm. cbn.
    by apply Rp1.mode_of_decoded; [apply Hs|done|apply Hs|].
  - intros [s k] Hs. by apply on_rp1_eq, Rp1.rp1_read_eq; [apply Hs|].
  - intros [s k] Hs. by apply on_rp1_eq, Rp1.rp1_pull_of_eq; [apply Hs|].
  - intros [s k] m Hs. destruct (rp1_setMode_pin s m Hs) as (o & s' & He & Hok & Hpl & Hx).
    exists o, (s', k). split; [by apply on_rp1_eq|]. split_and!; try done. destruct (Rp1.settable p m); [done|]. by subst s'.
  - intros [s k] Hs Hu. cbn in Hs. destruct (po_mode _ Hs) as [m Hm]. unfold rp1_hw in *. cbn [h_mode fst] in *. rewrite Hm in *.
    by apply (rp1_back (cw s) (en s)).
  - intros [s k] v Hs. destruct (rp1_setPull_pin s v Hs) as (s' & He & Hok & Hm & Hv & Hl).
    exists (Ok tt), (s', k). split; [by apply on_rp1_eq|]. split_and!; auto.
  - intros [s k] v Hs. destruct (rp1_drive_pin_ok (Some v) s Hs) as (s' & He & Hok & Hm & Hv & Hl).
    exists (s', k). split; [by apply on_rp1_eq|]. by split_and!.
  - intros [s k] Hs. destruct (rp1_drive_pin_ok None s Hs) as (s' & He & Hok & Hm & Hv & Hl).
    exists (s', k). split; [by apply on_rp1_eq|]. by split_and!.
  - intros [s k] Hs. eexists. by apply on_rp1_eq, (Rp1.drive_of_eq (b := b)); [apply Hs|].
  - intros [s k] n Hs. destruct (rp1_setDrive_pin s n Hs) as (s' & He & Hok & Hm & Hv & Hl).
    exists (Ok tt), (s', k). split; [by apply on_rp1_eq|]. by split_and!.
Defined.

#[export] Instance rp1_keeps : LinesKeep (rp1 * K) (PinBcm2711.beside rp1 K L) ok GpioPin.hw.
Proof.
  constructor; intros; cbn in *; unfold PinBcm2711.second;
    match goal with |- context [let '(_, _) := ?m in _] => destruct m end; done.
Qed.
End Rp1Pin.

(** ** Pin 18 of the registers of GpioRp1.v *)
Module Demo.
Definition descriptor18 : descriptor := mk_descriptor TypeGpio (mk_number 1 18 18 12 2 0 18) 1 [(ModeInput, "GPIO18")]%string.
Definition world : Type := @Rp1.rp1 IoMap.no_mmap Rp1.Demo.device * GpioDev2.Demo.kline.
#[local] Existing Instances Rp1.Demo.device_regs GpioDev2.Demo.demo_lines PinBcm2711.beside.
Lemma pin18 : 0 <= 18 < Rp1.GpioCount.
Proof. unfold Rp1.GpioCount. lia. Qed.
#[export] Instance dev18 : PinDevice world := rp1_pin 18.
#[export] Instance ok18 : PinDeviceOk world dev18 := rp1_pin_ok (b := 0) 18 pin18.

(** An input with a pull-up. *)
Definition input18 : pin world :=
  new descriptor18 new_chip ((Rp1.setPull 18 PullUp (Rp1.setMode 18 ModeInput Rp1.Demo.demo).2).2, GpioDev2.Demo.kline0).

Lemma input18_fresh : fresh input18 /\ h_mode (GpioPin.hw (pw input18)) = ModeInput /\ h_pull (GpioPin.hw (pw input18)) = PullUp.
Proof.
  unfold fresh. split_and!; try done. constructor; [by split_and!|right; by vm_compute|exists ModeInput; by vm_compute|by vm_compute].
Qed.

(** Used as an output and as a PWM, it gets its mode and its pull back; after an
    alternate function its mode is back and its pull is that of the reset. *)
Lemma rp1_pull_back : let s := (close true (run [SetMode ModeOutput; Write true; SetPull PullDown; SetMode ModePwm] (open input18).2)).2 in
  h_mode (GpioPin.hw (pw s)) = ModeInput /\ h_pull (GpioPin.hw (pw s)) = PullUp.
Proof. by vm_compute. Qed.
Lemma rp1_pull_lost : let s := (close true (run [SetMode ModeAlt4] (open input18).2)).2 in
  h_mode (GpioPin.hw (pw s)) = ModeInput /\ h_pull (GpioPin.hw (pw s)) = PullDown.
Proof. by vm_compute. Qed.
End Demo.
End PinRp1.
