(* ===== verification/Text.v ===== *)
(** * Characters, numbers in text and the class String

    src/string.cpp and include/piduino/string.h.  A character is a byte, a [Z]
    from 0 to 255, and a string is the list of its bytes.  Module [Digits] is
    what a number in text means: the digits of a number in a base and the value
    of a list of digits.  Module [PString] is the class [String]. *)
From Stdlib Require Import Ascii.
From S2P Require Import Prelude IoDevice Converter.

Abbreviation bytes := (list Z).
Definition byte_of (a : ascii) : Z := Z.of_N (N_of_ascii a).
Definition chr (b : Z) : ascii := ascii_of_N (Z.to_N b).
Definition text (s : string) : bytes := byte_of <$> String.list_ascii_of_string s.

(** Replace the character constants by their codes. *)
Ltac chars :=
  repeat match goal with
  | |- context [byte_of ?a] => let v := eval vm_compute in (byte_of a) in change (byte_of a) with v
  | H : context [byte_of ?a] |- _ => let v := eval vm_compute in (byte_of a) in change (byte_of a) with v in H
  end.

Module Digits.
(** Least significant digit first, as the loops produce them. *)
Fixpoint digits_rev (fuel : nat) (base n : Z) : list Z :=
  match fuel with
  | 0%nat => []
  | S fuel => n mod base :: (if n / base =? 0 then [] else digits_rev fuel base (n / base))
  end.
Definition rounds (n : Z) : nat := S (Z.to_nat (Z.log2 n)).
Definition digits (base n : Z) : list Z := reverse (digits_rev (rounds n) base n).
Arguments digits : simpl never.

Fixpoint value_from (base acc : Z) (ds : list Z) : Z :=
  match ds with [] => acc | d :: ds => value_from base (acc * base + d) ds end.
Definition value (base : Z) (ds : list Z) : Z := value_from base 0 ds.

Lemma value_from_app base acc ds ds' : value_from base acc (ds ++ ds') = value_from base (value_from base acc ds) ds'.
Proof. revert acc. induction ds as [|d ds IH]; intros acc; cbn; [done|apply IH]. Qed.

Lemma rounds_div base n : 2 <= base -> 0 < n -> n / base <> 0 -> (rounds (n / base) < rounds n)%nat.
Proof.
  intros Hb Hn Hq. unfold rounds. apply -> Nat.succ_lt_mono. apply Z2Nat.inj_lt; try apply Z.log2_nonneg.
  assert (0 < n / base) by (pose proof (Z.div_pos n base); lia).
  apply Z.log2_lt_pow2; [done|]. apply Z.div_lt_upper_bound; [lia|].
  pose proof (Z.log2_spec n Hn) as [_ H2]. rewrite Z.pow_succ_r in H2 by apply Z.log2_nonneg.
  pose proof (Z.pow_pos_nonneg 2 (Z.log2 n)) as Hp. pose proof (Z.log2_nonneg n).
  assert (2 * 2 ^ Z.log2 n <= base * 2 ^ Z.log2 n) by (apply Z.mul_le_mono_nonneg_r; lia). lia.
Qed.

Lemma div_pos_of base n : 2 <= base -> 0 <= n -> n / base <> 0 -> 0 < n /\ 0 < n / base.
Proof.
  intros Hb Hn Hq. pose proof (Z.div_pos n base).
  destruct (decide (n = 0)) as [->|]; [by rewrite Z.div_0_l in Hq by lia|lia].
Qed.

(** More fuel than the number of digits changes nothing. *)
Lemma digits_rev_fuel base f1 : 2 <= base -> forall f2 n, 0 <= n -> (rounds n <= f1)%nat -> (rounds n <= f2)%nat ->
  digits_rev f1 base n = digits_rev f2 base n.
Proof.
  intros Hb. induction f1 as [|f1 IH]; intros [|f2] n Hn H1 H2; try (unfold rounds in *; lia).
  cbn. destruct (Z.eqb_spec (n / base) 0) as [|Hq]; [done|]. f_equal.
  destruct (div_pos_of base n Hb Hn Hq) as [Hp Hqp]. pose proof (rounds_div base n Hb Hp Hq).
  apply IH; lia.
Qed.

(** One turn of a conversion loop. *)
Lemma digits_rev_step base n : 2 <= base -> 0 <= n ->
  digits_rev (rounds n) base n =
  n mod base :: (if n / base =? 0 then [] else digits_rev (rounds (n / base)) base (n / base)).
Proof.
  intros Hb Hn. change (digits_rev (rounds n) base n) with
    (n mod base :: (if n / base =? 0 then [] else digits_rev (Z.to_nat (Z.log2 n)) base (n / base))).
  destruct (Z.eqb_spec (n / base) 0) as [|Hq]; [done|]. f_equal.
  destruct (div_pos_of base n Hb Hn Hq) as [Hp Hqp]. pose proof (rounds_div base n Hb Hp Hq).
  apply digits_rev_fuel; unfold rounds in *; lia.
Qed.

(** Induction on the turns of a conversion loop. *)
Lemma div_ind base (P : Z -> Prop) : 2 <= base ->
  (forall n, 0 <= n -> (n / base <> 0 -> P (n / base)) -> P n) -> forall n, 0 <= n -> P n.
Proof.
  intros Hb Hstep n Hn. remember (rounds n) as k eqn:Hk. revert n Hn Hk.
  induction (lt_wf k) as [k _ IH]. intros n Hn ->. apply Hstep; [done|]. intros Hq.
  destruct (div_pos_of base n Hb Hn Hq) as [Hp Hqp].
  apply (IH (rounds (n / base))); [by apply rounds_div|lia|done].
Qed.

Lemma digits_step base n : 2 <= base -> 0 <= n ->
  digits base n = (if n / base =? 0 then [] else digits base (n / base)) ++ [n mod base].
Proof.
  intros Hb Hn. unfold digits. rewrite digits_rev_step by done. rewrite reverse_cons. by destruct (n / base =? 0).
Qed.

Lemma digits_ne base n : 2 <= base -> 0 <= n -> digits base n <> [].
Proof. intros Hb Hn. rewrite digits_step by done. by destruct (_ =? _), (digits base (n / base)). Qed.

Lemma digits_range base n : 2 <= base -> 0 <= n -> Forall (fun d => 0 <= d < base) (digits base n).
Proof.
  intros Hb. revert n. apply (div_ind base); [done|]. intros n Hn IH. rewrite digits_step by done.
  apply Forall_app. split; [|apply Forall_singleton; apply Z.mod_pos_bound; lia].
  destruct (Z.eqb_spec (n / base) 0); [done|auto].
Qed.

Lemma digits_value base n : 2 <= base -> 0 <= n -> value base (digits base n) = n.
Proof.
  intros Hb. revert n. apply (div_ind base); [done|]. intros n Hn IH. rewrite digits_step by done.
  unfold value in *. rewrite value_from_app. pose proof (Z.div_mod n base ltac:(lia)) as He.
  destruct (Z.eqb_spec (n / base) 0) as [Hz|Hz]; [|rewrite IH by done]; cbn; lia.
Qed.

(** The first digit is 0 for the number 0 only. *)
Lemma digits_head base n d ds : 2 <= base -> 0 <= n -> digits base n = d :: ds -> 0 < n -> 0 < d.
Proof.
  intros Hb Hn. revert d ds. revert n Hn. refine (div_ind base _ Hb _). intros n Hn IH d ds. rewrite digits_step by done.
  destruct (Z.eqb_spec (n / base) 0) as [Hz|Hz].
  - intros [= <- <-] Hp. pose proof (Z.div_mod n base ltac:(lia)). nia.
  - destruct (digits base (n / base)) as [|e es] eqn:E; [by destruct (digits_ne base (n / base) Hb (Z.div_pos n base Hn ltac:(lia)))|].
    intros [= -> _] _. destruct (div_pos_of base n Hb Hn Hz). by apply (IH Hz d es).
Qed.

Lemma digits_rev_length fuel base n : (length (digits_rev fuel base n) <= fuel)%nat.
Proof. revert n. induction fuel as [|fuel IH]; intros n; cbn; [lia|]. destruct (_ =? _); cbn; [lia|]. specialize (IH (n / base)). lia. Qed.

(** A number of [w] bits has at most [w] digits. *)
Lemma digits_length base n w : 0 < w -> 0 <= n < 2 ^ w -> (length (digits base n) <= Z.to_nat w)%nat.
Proof.
  intros Hw Hn. unfold digits. rewrite length_reverse. etransitivity; [apply digits_rev_length|].
  unfold rounds. destruct (decide (n = 0)) as [->|]; [cbn; lia|].
  pose proof (Z.log2_nonneg n). assert (Z.log2 n < w) by (apply Z.log2_lt_pow2; lia). lia.
Qed.

Lemma value_range base ds acc : 2 <= base -> 0 <= acc -> Forall (fun d => 0 <= d < base) ds -> acc <= value_from base acc ds.
Proof.
  intros Hb Ha H. revert acc Ha. induction H as [|d ds Hd _ IH]; intros acc Ha; cbn; [lia|].
  etransitivity; [|apply IH; nia]. nia.
Qed.
End Digits.

Module PString.
Import Digits.

Section Long.
(** The number of bits of [long] and of [size_t], 32 or 64 with the board. *)
Context (LONG : Z).
Definition ulong (n : Z) : Z := n mod 2 ^ LONG.
Definition npos : Z := 2 ^ LONG - 1.

(** ** Numbers *)
Definition itoa_char (rem : Z) : Z := u8 (if 9 <? rem then rem - 10 + byte_of "a" else rem + byte_of "0").

(** The loop of [toString (unsigned long, unsigned char)]. *)
Fixpoint itoa_loop (fuel : nat) (num base : Z) (str : bytes) : outcome bytes :=
  match fuel with
  | 0%nat => Throw OutOfFuel
  | S fuel =>
      if num =? 0 then Ok str
      else if base =? 0 then Throw UB
      else itoa_loop fuel (num / base) base (str ++ [itoa_char (u8 (num mod base))])
  end.
Definition toString_ul (num base : Z) : outcome bytes :=
  if num =? 0 then Ok [byte_of "0"]
  else match itoa_loop (S (Z.to_nat LONG)) num base [] with
       | Ok str => Ok (reverse str)
       | Throw e => Throw e
       end.

(** [toString (long, unsigned char)]; the negation of the least number overflows. *)
Definition toString (num base : Z) : outcome bytes :=
  let isneg := (num <? 0) && (base =? 10) in
  if isneg && (num =? - 2 ^ (LONG - 1)) then Throw UB
  else match toString_ul (ulong (if isneg then - num else num)) base with
       | Ok str => Ok (if isneg then byte_of "-" :: str else str)
       | Throw e => Throw e
       end.

Definition toInt (s : bytes) : Z := match Params.stoi (chr <$> s) with Ok i => i | Throw _ => 0 end.

(** ** Searching *)
Definition starts (p s : bytes) : bool := bool_decide (take (length p) s = p).
Fixpoint find_at (p s : bytes) (i : nat) : option nat :=
  if starts p s then Some i else match s with [] => None | _ :: s => find_at p s (S i) end.
Fixpoint rfind_at (p s : bytes) (i : nat) : option nat :=
  match (match s with [] => None | _ :: s => rfind_at p s (S i) end) with
  | Some j => Some j
  | None => if starts p s then Some i else None
  end.
(** [std::string::find] and [rfind], with [npos] for no occurrence. *)
Definition pos_of (o : option nat) : Z := match o with Some i => Z.of_nat i | None => npos end.
Definition find (s p : bytes) (offset : nat) : Z :=
  if (offset <=? length s)%nat then pos_of (find_at p (drop offset s) offset) else npos.
Definition rfind (s p : bytes) : Z := pos_of (rfind_at p s 0).

Definition startsWith (s prefix : bytes) (offset : nat) : bool := find s prefix offset =? 0.
Definition endsWith (s suffix : bytes) : bool :=
  rfind s suffix =? ulong (Z.of_nat (length s) - Z.of_nat (length suffix)).
Definition indexOf (s p : bytes) (fromIndex : nat) : Z := i32 (find s p fromIndex).
Definition lastIndexOf (s p : bytes) : Z := i32 (rfind s p).

(** [replace (String, String)]; each turn replaces the first occurrence. *)
Fixpoint replace (fuel : nat) (str1 str2 s : bytes) : outcome bytes :=
  match fuel with
  | 0%nat => Throw OutOfFuel
  | S fuel =>
      match find_at str1 s 0 with
      | Some found => replace fuel str1 str2 (take found s ++ str2 ++ drop (found + length str1) s)
      | None => Ok s
      end
  end.
Definition replace_char (c1 c2 : Z) (s : bytes) : bytes := (fun c => if c =? c1 then c2 else c) <$> s.

(** ** Blanks at the ends *)
Definition blanks : bytes := [9; 10; 11; 12; 13; 32].
Definition blank (c : Z) : bool := bool_decide (c ∈ blanks).
Fixpoint find_first_not_of (s : bytes) : option nat :=
  match s with [] => None | c :: s => if blank c then S <$> find_first_not_of s else Some 0%nat end.
Fixpoint find_last_not_of (s : bytes) : option nat :=
  match s with
  | [] => None
  | c :: s => match find_last_not_of s with Some i => Some (S i) | None => if blank c then None else Some 0%nat end
  end.
Definition ltrim (s : bytes) : bytes := match find_first_not_of s with Some i => drop i s | None => [] end.
Definition rtrim (s : bytes) : bytes := match find_last_not_of s with Some i => take (S i) s | None => [] end.
Definition trim (s : bytes) : bytes := rtrim (ltrim s).

(** ** Elements *)
Definition charAt (s : bytes) (index : nat) : outcome Z :=
  match s !! index with Some c => Ok c | None => Throw OutOfRange end.
(** The address of the parameter is passed as a C string: what follows the
    character in memory is read unless the character is the terminator. *)
Definition setCharAt (s : bytes) (index : nat) (c : Z) : outcome bytes :=
  if negb (c =? 0) then Throw UB
  else if (index <=? length s)%nat then Ok (take index s ++ drop (S index) s) else Throw OutOfRange.
Definition substring_from (s : bytes) (beginIndex : nat) : outcome bytes :=
  if (beginIndex <=? length s)%nat then Ok (drop beginIndex s) else Throw OutOfRange.
Definition substring (s : bytes) (beginIndex endIndex : nat) : outcome bytes :=
  if (beginIndex <=? length s)%nat
  then Ok (take (Z.to_nat (u32 (Z.of_nat endIndex - Z.of_nat beginIndex))) (drop beginIndex s))
  else Throw OutOfRange.

Definition toupper (c : Z) : Z := if (97 <=? c) && (c <=? 122) then c - 32 else c.
Definition tolower (c : Z) : Z := if (65 <=? c) && (c <=? 90) then c + 32 else c.
Definition toUpperCase (s : bytes) : bytes := toupper <$> s.
Definition toLowerCase (s : bytes) : bytes := tolower <$> s.
(** [std::equal] on one range and the start of another, which must be as long. *)
Fixpoint equalsIgnoreCase (s t : bytes) : outcome bool :=
  match s, t with
  | [], _ => Ok true
  | _ :: _, [] => Throw UB
  | c1 :: s, c2 :: t => if toupper c1 =? toupper c2 then equalsIgnoreCase s t else Ok false
  end.

(** [strncpy]: up to the terminator, then zeroes. *)
Fixpoint strncpy (n : nat) (src : bytes) : bytes :=
  match n with
  | 0%nat => []
  | S n => match src with
           | c :: src => if c =? 0 then replicate (S n) 0 else c :: strncpy n src
           | [] => replicate (S n) 0
           end
  end.
Definition store (buf : bytes) (at_ : nat) (l : bytes) : outcome bytes :=
  if (at_ + length l <=? length buf)%nat then Ok (take at_ buf ++ l ++ drop (at_ + length l) buf) else Throw UB.
(** [getBytes] on a buffer that is not null. *)
Definition getBytes (s buf : bytes) (bufsize index : Z) : outcome bytes :=
  if bufsize =? 0 then Ok buf
  else if Z.of_nat (length s) <=? index then store buf 0 [0]
  else let n := Z.min (bufsize - 1) (Z.of_nat (length s) - index) in
       store buf 0 (strncpy (Z.to_nat n) (drop (Z.to_nat index) s) ++ [0]).

(** ** Numbers: the text is the number's digits, and reads back as the number *)
Lemma itoa_loop_spec base fuel num str : 2 <= base <= 256 -> 0 < num -> (rounds num < fuel)%nat ->
  itoa_loop fuel num base str = Ok (str ++ (itoa_char <$> digits_rev (rounds num) base num)).
Proof.
  intros Hb Hn. assert (Hn0 : 0 <= num) by lia. revert fuel str Hn. revert num Hn0.
  refine (div_ind base _ ltac:(lia) _). intros n Hn IH [|fuel] str Hp Hf; [lia|].
  cbn [itoa_loop]. rewrite (proj2 (Z.eqb_neq n 0)), (proj2 (Z.eqb_neq base 0)) by lia.
  rewrite u8_small by (pose proof (Z.mod_pos_bound n base); lia).
  rewrite digits_rev_step by lia. destruct (Z.eqb_spec (n / base) 0) as [Hz|Hz].
  - destruct fuel as [|fuel]; [unfold rounds in Hf; lia|]. cbn [itoa_loop]. by rewrite Hz.
  - destruct (div_pos_of base n ltac:(lia) Hn Hz) as [_ Hq]. pose proof (rounds_div base n ltac:(lia) Hp Hz).
    rewrite IH by lia. rewrite fmap_cons. by rewrite <- app_assoc.
Qed.

Lemma toString_ul_spec num base : 0 < LONG -> 2 <= base <= 256 -> 0 <= num < 2 ^ LONG ->
  toString_ul num base = Ok (itoa_char <$> digits base num).
Proof.
  intros HL Hb Hn. unfold toString_ul. destruct (Z.eqb_spec num 0) as [->|Hz].
  - unfold digits. rewrite digits_rev_step by lia. rewrite Z.div_0_l, Z.mod_0_l by lia. done.
  - rewrite itoa_loop_spec; [|lia..|].
    + cbn [app]. unfold digits. by rewrite fmap_reverse.
    + unfold rounds. assert (Z.log2 num < LONG) by (apply Z.log2_lt_pow2; lia). pose proof (Z.log2_nonneg num). lia.
Qed.

(** In base 1 the loop never ends and in base 0 it divides by zero. *)
Lemma itoa_base_one fuel num str : 0 < num -> itoa_loop fuel num 1 str = Throw OutOfFuel.
Proof.
  intros Hn. revert str. induction fuel as [|fuel IH]; intros str; [done|]. cbn [itoa_loop].
  rewrite (proj2 (Z.eqb_neq num 0)) by lia. change (1 =? 0) with false. cbn. rewrite Z.div_1_r. apply IH.
Qed.
Lemma itoa_base_zero fuel num str : 0 < num -> itoa_loop (S fuel) num 0 str = Throw UB.
Proof. intros Hn. cbn [itoa_loop]. by rewrite (proj2 (Z.eqb_neq num 0)) by lia. Qed.

Lemma digit_cases (P : Z -> Prop) : Forall P (seqZ 0 10) -> forall d, 0 <= d < 10 -> P d.
Proof. intros H d Hd. rewrite Forall_forall in H. apply H. apply elem_of_seqZ. lia. Qed.

Lemma stoi_digit d : 0 <= d < 10 -> Params.digit (chr (itoa_char d)) = Some d.
Proof. revert d. apply digit_cases. repeat constructor. Qed.

Lemma stoi_digits ds acc : Forall (fun d => 0 <= d < 10) ds ->
  Params.digits acc (chr <$> (itoa_char <$> ds)) = value_from 10 acc ds.
Proof.
  intros H. revert acc. induction H as [|d ds Hd _ IH]; intros acc; [done|].
  rewrite !fmap_cons. cbn [Params.digits]. rewrite stoi_digit by done. rewrite IH. cbn. f_equal. lia.
Qed.

Lemma digit_start d : 0 <= d < 10 -> Params.is_space (chr (itoa_char d)) = false /\
  chr (itoa_char d) <> "-"%char /\ chr (itoa_char d) <> "+"%char.
Proof. revert d. apply digit_cases. repeat constructor; done. Qed.

Definition int_range (v : Z) : bool := (- 2 ^ 31 <=? v) && (v <? 2 ^ 31).
Lemma stoi_nat n : 0 <= n ->
  Params.stoi (chr <$> (itoa_char <$> digits 10 n)) = if int_range n then Ok n else Throw OutOfRange.
Proof.
  intros Hn. pose proof (digits_range 10 n ltac:(lia) Hn) as Hr. pose proof (digits_value 10 n ltac:(lia) Hn) as Hv.
  pose proof (digits_ne 10 n ltac:(lia) Hn) as Hne. destruct (digits 10 n) as [|d ds]; [done|].
  pose proof (stoi_digits (d :: ds) 0 Hr) as Hs. apply Forall_cons in Hr as [Hd _].
  destruct (digit_start d Hd) as (Hsp & Hm & Hp). rewrite !fmap_cons in *.
  unfold Params.stoi. cbn [Params.skip_space]. rewrite Hsp.
  set (c := chr (itoa_char d)) in *. set (l := chr <$> (itoa_char <$> ds)) in *.
  assert (Hc : match c :: l with "-"%char :: s' => (true, s') | "+"%char :: s' => (false, s') | _ => (false, c :: l) end = (false, c :: l)).
  { clear -Hm Hp. destruct c as [[] [] [] [] [] [] [] []]; try done. }
  cbv beta iota zeta in Hc |- *. rewrite Hc. unfold value in Hv. rewrite Hs, Hv.
  unfold c. by rewrite stoi_digit.
Qed.
Lemma stoi_neg n : 0 <= n ->
  Params.stoi (chr <$> byte_of "-" :: (itoa_char <$> digits 10 n)) = if int_range (- n) then Ok (- n) else Throw OutOfRange.
Proof.
  intros Hn. pose proof (digits_range 10 n ltac:(lia) Hn) as Hr. pose proof (digits_value 10 n ltac:(lia) Hn) as Hv.
  pose proof (digits_ne 10 n ltac:(lia) Hn) as Hne. destruct (digits 10 n) as [|d ds]; [done|].
  pose proof (stoi_digits (d :: ds) 0 Hr) as Hs. apply Forall_cons in Hr as [Hd _].
  rewrite !fmap_cons in *. change (chr (byte_of "-")) with "-"%char.
  unfold Params.stoi. cbn [Params.skip_space]. change (Params.is_space "-"%char) with false.
  cbv beta iota zeta. rewrite stoi_digit by done. unfold value in Hv. by rewrite Hs, Hv.
Qed.

(** A number of type [long] written in base 10 reads back as itself with
    [toInt] when it fits an [int], and as 0 otherwise; the least number of the
    type is excepted, whose negation overflows. *)
Theorem string_number_roundtrip n :
  0 < LONG -> - 2 ^ (LONG - 1) < n < 2 ^ (LONG - 1) ->
  exists s, toString n 10 = Ok s /\ toInt s = if int_range n then n else 0.
Proof.
  intros HL Hn. assert (Hp : 2 ^ LONG = 2 * 2 ^ (LONG - 1)) by (rewrite <- Z.pow_succ_r by lia; f_equal; lia).
  unfold toString, ulong. change (10 =? 10) with true. rewrite andb_true_r.
  destruct (Z.ltb_spec n 0) as [Hneg|Hpos]; cbn [andb].
  - rewrite (proj2 (Z.eqb_neq _ _)), Z.mod_small, toString_ul_spec by lia.
    eexists. split; [done|]. unfold toInt. rewrite stoi_neg, Z.opp_involutive by lia. by destruct (int_range n).
  - rewrite Z.mod_small, toString_ul_spec by lia.
    eexists. split; [done|]. unfold toInt. rewrite stoi_nat by lia. by destruct (int_range n).
Qed.

(** ** Searching *)
Lemma starts_spec p s : starts p s = true <-> exists t, s = p ++ t.
Proof.
  unfold starts. rewrite bool_decide_eq_true. split.
  - intros H. exists (drop (length p) s). by rewrite <- H at 1; rewrite take_drop.
  - intros [t ->]. by rewrite take_app_length.
Qed.

Lemma find_at_Some p s i j : find_at p s i = Some j <->
  exists k, j = (i + k)%nat /\ (k <= length s)%nat /\ starts p (drop k s) = true /\
    forall m, (m < k)%nat -> starts p (drop m s) = false.
Proof.
  revert i. induction s as [|c s IH]; intros i; cbn [find_at]; destruct (starts p _) eqn:E.
  - split; [intros [= <-]; exists 0%nat|intros (k & -> & Hk & _); cbn in Hk; f_equal; lia].
    split; [lia|]. repeat split; [cbn; lia|done|lia].
  - split; [done|]. intros (k & _ & Hk & Hs & _). rewrite drop_nil in Hs. congruence.
  - split.
    + intros [= <-]. exists 0%nat. split; [lia|]. repeat split; [lia|done|lia].
    + intros (k & -> & _ & _ & Hm). destruct k as [|k]; [f_equal; lia|]. specialize (Hm 0%nat ltac:(lia)). cbn in Hm. congruence.
  - rewrite IH. split.
    + intros (k & -> & Hk & Hs & Hm). exists (S k). split; [lia|]. cbn. repeat split; [lia|done|].
      intros [|m] Hlt; [done|]. apply Hm. lia.
    + intros (k & -> & Hk & Hs & Hm). destruct k as [|k]; [cbn in Hs; congruence|]. exists k. cbn in *.
      split; [lia|]. repeat split; [lia|done|]. intros m Hlt. apply (Hm (S m)). lia.
Qed.

Lemma find_at_None p s i : find_at p s i = None <-> forall k, starts p (drop k s) = false.
Proof.
  revert i. induction s as [|c s IH]; intros i; cbn [find_at]; destruct (starts p _) eqn:E.
  - split; [done|]. intros H. specialize (H 0%nat). cbn in H. congruence.
  - split; [|done]. intros _ k. by rewrite drop_nil.
  - split; [done|]. intros H. specialize (H 0%nat). cbn in H. congruence.
  - rewrite IH. split; [intros H [|k]; [done|apply H]|intros H k; apply (H (S k))].
Qed.

(** [startsWith] without an offset is the prefix test; with one it is not the
    test at that place. *)
Lemma startsWith_prefix s p : Z.of_nat (length s) < npos -> startsWith s p 0 = true <-> exists t, s = p ++ t.
Proof.
  intros HL. unfold startsWith, find. rewrite <- starts_spec. cbn [Nat.leb]. rewrite drop_0. rewrite Z.eqb_eq.
  destruct (find_at p s 0) as [j|] eqn:E; cbn.
  - apply find_at_Some in E as (k & -> & Hk & Hs & Hm). split.
    + intros Hz. replace k with 0%nat in Hs by lia. by rewrite drop_0 in Hs.
    + intros H0. destruct k; [done|]. specialize (Hm 0%nat ltac:(lia)). rewrite drop_0 in Hm. congruence.
  - pose proof (proj1 (find_at_None _ _ _) E 0%nat) as H. rewrite drop_0 in H. split; [lia|congruence].
Qed.
Lemma startsWith_offset s p offset : (0 < offset)%nat -> Z.of_nat (length s) < npos -> startsWith s p offset = false.
Proof.
  intros Ho HL. unfold startsWith, find. apply Z.eqb_neq. destruct (offset <=? length s)%nat; [|lia].
  destruct (find_at _ _ _) as [j|] eqn:E; cbn; [|lia]. apply find_at_Some in E as (k & -> & _). lia.
Qed.

Lemma rfind_at_spec p s i :
  match rfind_at p s i with
  | Some j => exists k, j = (i + k)%nat /\ (k <= length s)%nat /\ starts p (drop k s) = true /\
      forall m, (k < m <= length s)%nat -> starts p (drop m s) = false
  | None => forall k, (k <= length s)%nat -> starts p (drop k s) = false
  end.
Proof.
  revert i. induction s as [|c s IH]; intros i; cbn [rfind_at].
  - destruct (starts p []) eqn:E.
    + exists 0%nat. cbn. repeat split; [lia..|done|]. intros m Hm. lia.
    + intros k _. by rewrite drop_nil.
  - specialize (IH (S i)). destruct (rfind_at p s (S i)) as [j|].
    + destruct IH as (k & -> & Hk & Hs & Hm). exists (S k). cbn. repeat split; [lia..|done|].
      intros [|m] Hlt; [lia|]. apply Hm. lia.
    + destruct (starts p (c :: s)) eqn:E.
      * exists 0%nat. cbn. repeat split; [lia..|done|]. intros [|m] Hlt; [lia|]. apply IH. lia.
      * intros [|k] Hk; [done|]. apply IH. cbn in Hk. lia.
Qed.

Lemma starts_length p s : starts p s = true -> (length p <= length s)%nat.
Proof. rewrite starts_spec. intros [t ->]. rewrite length_app. lia. Qed.

(** [endsWith] is the suffix test, except that it also answers yes for every
    string that is one longer than the text. *)
Lemma endsWith_spec s p : 0 < LONG -> Z.of_nat (length s) < npos -> Z.of_nat (length p) < npos ->
  endsWith s p = true <-> (exists t, s = t ++ p) \/ length p = S (length s).
Proof.
  intros H0 Hs Hp. unfold endsWith, rfind, ulong, npos, pos_of in *. rewrite Z.eqb_eq.
  pose proof (rfind_at_spec p s 0) as Hr. destruct (decide (length p <= length s)%nat) as [Hle|Hgt].
  - rewrite Z.mod_small by lia. destruct (rfind_at p s 0) as [j|].
    + destruct Hr as (k & -> & Hk & Hst & Hm). cbn. pose proof (starts_length _ _ Hst) as Hl. rewrite length_drop in Hl. split.
      * intros He. left. exists (take k s). apply starts_spec in Hst as [t Ht].
        rewrite <- (take_drop k s) at 1. f_equal. rewrite Ht.
        assert (length (drop k s) = length p) as Hll by (rewrite length_drop; lia).
        rewrite Ht, length_app in Hll. destruct t; [by rewrite app_nil_r|cbn in Hll; lia].
      * intros [[t ->]|?]; [|lia]. rewrite length_app in *. destruct (decide (k < length t)%nat) as [Hlt|]; [|lia].
        exfalso. specialize (Hm (length t) ltac:(lia)). rewrite drop_app_length in Hm.
        assert (starts p p = true) by (apply starts_spec; exists []; by rewrite app_nil_r). congruence.
    + unfold npos. split; [lia|]. intros [[t ->]|?]; [|lia]. exfalso. rewrite length_app in *.
      specialize (Hr (length t) ltac:(lia)). rewrite drop_app_length in Hr.
      assert (starts p p = true) by (apply starts_spec; exists []; by rewrite app_nil_r). congruence.
  - destruct (rfind_at p s 0) as [j|].
    { destruct Hr as (k & _ & _ & Hst & _). apply starts_length in Hst. rewrite length_drop in Hst. lia. }
    rewrite <- (Z_mod_plus_full _ 1), Z.mod_small by lia. unfold npos. split; [right; lia|].
    intros [[t ->]|?]; [rewrite length_app in *; lia|lia].
Qed.

(** ** Replacing: it ends when the new text is shorter, and for ever replaces
    when the new text contains the old one *)
Lemma replace_terminates fuel str1 str2 s : (length str2 < length str1)%nat -> (length s < fuel)%nat ->
  exists t, replace fuel str1 str2 s = Ok t /\ forall k, starts str1 (drop k t) = false.
Proof.
  intros Hl. revert s. induction fuel as [|fuel IH]; intros s Hf; [lia|]. cbn [replace].
  destruct (find_at str1 s 0) as [j|] eqn:E.
  - apply find_at_Some in E as (k & -> & Hk & Hst & _). apply starts_length in Hst. rewrite length_drop in Hst.
    apply IH. rewrite !length_app, length_take, length_drop. lia.
  - exists s. split; [done|]. by apply (find_at_None _ _ 0).
Qed.

Lemma find_at_infix p l r i : find_at p (l ++ p ++ r) i <> None.
Proof.
  intros H. pose proof (proj1 (find_at_None _ _ _) H (length l)) as Hn. rewrite drop_app_length in Hn.
  assert (starts p (p ++ r) = true) by (apply starts_spec; by exists r). congruence.
Qed.

Lemma replace_diverges fuel str1 l r a b : replace fuel str1 (l ++ str1 ++ r) (a ++ str1 ++ b) = Throw OutOfFuel.
Proof.
  revert a b. induction fuel as [|fuel IH]; intros a b; [done|]. cbn [replace].
  destruct (find_at _ _ _) as [j|] eqn:E; [|by apply find_at_infix in E].
  set (x := take j _). set (y := drop _ _).
  replace (x ++ (l ++ str1 ++ r) ++ y) with ((x ++ l) ++ str1 ++ (r ++ y)) by (by rewrite <- !app_assoc). apply IH.
Qed.

(** ** Trimming *)
Lemma first_not_spec s :
  match find_first_not_of s with
  | Some i => exists c, s !! i = Some c /\ blank c = false /\ Forall (fun c => blank c = true) (take i s)
  | None => Forall (fun c => blank c = true) s
  end.
Proof.
  induction s as [|c s IH]; cbn; [constructor|]. destruct (blank c) eqn:E.
  - destruct (find_first_not_of s) as [i|]; cbn; [|by constructor]. destruct IH as (d & Hd & Hb & Hf).
    exists d. split; [done|]. split; [done|]. by constructor.
  - exists c. repeat split; [done|constructor].
Qed.
Lemma last_not_spec s :
  match find_last_not_of s with
  | Some i => exists c, s !! i = Some c /\ blank c = false /\ Forall (fun c => blank c = true) (drop (S i) s)
  | None => Forall (fun c => blank c = true) s
  end.
Proof.
  induction s as [|c s IH]; cbn; [constructor|]. destruct (find_last_not_of s) as [i|].
  - destruct IH as (d & Hd & Hb & Hf). exists d. split; [done|]. split; [done|]. exact Hf.
  - destruct (blank c) eqn:E; [by constructor|]. exists c. repeat split; [done|]. by rewrite drop_0.
Qed.

(** What [trim] leaves starts and ends with a character that is not blank, and
    only blanks are removed. *)
Lemma trim_spec s : exists l r, s = l ++ trim s ++ r /\ Forall (fun c => blank c = true) (l ++ r) /\
  (forall c, head (trim s) = Some c -> blank c = false) /\ (forall c, last (trim s) = Some c -> blank c = false).
Proof.
  unfold trim, ltrim. pose proof (first_not_spec s) as Hf. destruct (find_first_not_of s) as [i|].
  2: { exists s, []. cbn. rewrite !app_nil_r. by repeat split. }
  destruct Hf as (c & Hc & Hb & Hf). unfold rtrim. pose proof (last_not_spec (drop i s)) as Hl.
  assert (Hd : drop i s = c :: drop (S i) s) by (by apply drop_S).
  destruct (find_last_not_of (drop i s)) as [j|].
  2: { rewrite Hd in Hl. apply Forall_cons in Hl as [Hl _]. congruence. }
  destruct Hl as (d & Hj & Hbd & Hl). exists (take i s), (drop (S j) (drop i s)). split.
  { by rewrite take_drop, take_drop. }
  split; [by apply Forall_app|]. split.
  - rewrite Hd. cbn. by intros e [= <-].
  - intros e He. rewrite last_lookup, length_take in He.
    assert (j < length (drop i s))%nat by (by eapply lookup_lt_Some).
    rewrite Nat.min_l in He by lia. cbn in He. rewrite lookup_take_lt, Hj in He by lia. congruence.
Qed.

(** ** Copying out: never past the end of the buffer, always terminated *)
Lemma strncpy_length n src : length (strncpy n src) = n.
Proof.
  revert src. induction n as [|n IH]; intros [|c src]; cbn; [done..|by rewrite length_replicate|].
  destruct (c =? 0); cbn; [by rewrite length_replicate|by rewrite IH].
Qed.
Lemma strncpy_no_nul n src : Forall (fun c => c <> 0) src -> (n <= length src)%nat -> strncpy n src = take n src.
Proof.
  revert src. induction n as [|n IH]; intros [|c src] Hf Hl; cbn in *; [done..|lia|].
  apply Forall_cons in Hf as [Hc Hf]. rewrite (proj2 (Z.eqb_neq c 0)) by done. f_equal. apply IH; [done|lia].
Qed.

Lemma getBytes_spec s buf bufsize index : 0 < bufsize <= Z.of_nat (length buf) -> 0 <= index ->
  Forall (fun c => c <> 0) s ->
  let t := take (Z.to_nat (bufsize - 1)) (drop (Z.to_nat index) s) in
  getBytes s buf bufsize index = Ok (t ++ 0 :: drop (S (length t)) buf).
Proof.
  intros Hb Hi Hs t. unfold getBytes. rewrite (proj2 (Z.eqb_neq bufsize 0)) by lia.
  destruct (Z.leb_spec (Z.of_nat (length s)) index) as [Hge|Hlt].
  - unfold t. rewrite drop_ge by lia. rewrite take_nil. unfold store. cbn.
    destruct buf; [cbn in Hb; lia|done].
  - rewrite strncpy_no_nul; [|by apply Forall_drop|rewrite length_drop; lia].
    assert (Ht : take (Z.to_nat (Z.min (bufsize - 1) (Z.of_nat (length s) - index))) (drop (Z.to_nat index) s) = t).
    { unfold t. destruct (Z.min_spec (bufsize - 1) (Z.of_nat (length s) - index)) as [[_ ->]|[? ->]]; [done|].
      rewrite !take_ge; rewrite ?length_drop; lia || done. }
    rewrite Ht. unfold store. rewrite length_app. cbn [length].
    assert (length t <= Z.to_nat (bufsize - 1))%nat by (unfold t; rewrite length_take; lia).
    rewrite (proj2 (Nat.leb_le _ _)) by lia. rewrite Nat.add_0_l, Nat.add_1_r, <- app_assoc. done.
Qed.

(** [equalsIgnoreCase] looks at the first characters of its argument only. *)
Lemma equalsIgnoreCase_prefix s t : equalsIgnoreCase s (s ++ t) = Ok true.
Proof. induction s as [|c s IH]; cbn; [done|]. by rewrite Z.eqb_refl. Qed.
Lemma equalsIgnoreCase_overrun s c t : equalsIgnoreCase (s ++ c :: t) s = Throw UB.
Proof. induction s as [|d s IH]; cbn; [done|]. by rewrite Z.eqb_refl. Qed.
End Long.

Lemma string_number_roundtrip_witness :
  exists s, toString 64 (-1234) 10 = Ok s /\ toInt s = if int_range (-1234) then -1234 else 0.
Proof. apply (string_number_roundtrip 64); [lia|]. split; reflexivity. Defined.
End PString.
