(* ===== verification/ArduinoPrint.v ===== *)
(** * Printing: the Arduino classes Print and IPAddress

    src/arduino/Print.cpp, include/piduino/arduino/Print.h and
    src/arduino/IPAddress.cpp.  A subclass of [Print] sends bytes, which are the
    virtual functions of [PrintDev]; the number conversions fill a buffer of a
    fixed size from its end, and an access outside of it is undefined.  A [char]
    is unsigned, as on the ARM boards of the library. *)
From Stdlib Require Import Ascii SpecFloat.
From S2P Require Import Prelude Double IoDevice Converter Text.

(** The virtual functions of [Print]: one byte, a block of bytes, and the end of
    a line; each returns the number of bytes written. *)
Class PrintDev (W : Type) : Type := {
  p_write : Z -> W -> Z * W;
  p_writeBuf : bytes -> W -> Z * W;
  p_writeln : W -> Z * W;
  p_writelnBuf : bytes -> W -> Z * W }.

Module ArduinoPrint.
Import Digits PString.

Definition CRLF : bytes := [13; 10].

(** ** The default virtual functions *)
Section Default.
Context {W : Type} (write : Z -> W -> Z * W).
Fixpoint write_loop (buffer : bytes) (n : Z) (w : W) : Z * W :=
  match buffer with
  | [] => (n, w)
  | c :: buffer => let '(r, w) := write c w in if r =? 0 then (n, w) else write_loop buffer (n + 1) w
  end.
Definition write_default (buffer : bytes) (w : W) : Z * W := write_loop buffer 0 w.
End Default.
Section DefaultLn.
Context {W : Type} (writeBuf : bytes -> W -> Z * W) (writeln : W -> Z * W).
Definition writeln_default (w : W) : Z * W := writeBuf CRLF w.
Definition writelnBuf_default (buffer : bytes) (w : W) : Z * W :=
  let '(n, w) := writeBuf buffer w in let '(m, w) := writeln w in (n + m, w).
End DefaultLn.

Section Printing.
(** The number of bits of [long]. *)
Context (LONG : Z).

(** ** Numbers as text *)
Definition print_char (c : Z) : Z := u8 (if c <? 10 then c + byte_of "0" else c + byte_of "A" - 10).

(** The loop of [toString (unsigned long, uint8_t)]: [str] is the index of the
    first byte written so far and [out] what is written from there on. *)
Fixpoint print_loop (fuel : nat) (n base : Z) (str : Z) (out : bytes) : outcome bytes :=
  match fuel with
  | 0%nat => Throw OutOfFuel
  | S fuel =>
      let m := n in
      let n := n / base in
      let c := u8 (m - base * n) in
      let str := str - 1 in
      if str <? 0 then Throw UB
      else let out := print_char c :: out in
           if n =? 0 then Ok out else print_loop fuel n base str out
  end.
Definition toString_ul (n base : Z) : outcome bytes :=
  let base := if base <? 2 then 10 else base in
  print_loop (S (Z.to_nat LONG)) n base LONG [].

(** The text of a [long]. *)
Definition toString_l (n base : Z) : outcome bytes :=
  let neg := (base =? 10) && (n <? 0) in
  if neg && (n =? - 2 ^ (LONG - 1)) then Throw UB
  else match toString_ul (ulong LONG (if neg then - n else n)) (u8 base) with
       | Ok s => Ok ((if neg then [byte_of "-"] else []) ++ s)
       | Throw e => Throw e
       end.

(** *** Numbers with a fraction *)
Fixpoint rounding_for (digits : nat) : double :=
  match digits with 0%nat => dbl_lit 1 2 | S d => dbl_div (rounding_for d) (dbl_int 10) end.
Fixpoint fraction_loop (digits : nat) (remainder : double) (str : bytes) : outcome bytes :=
  match digits with
  | 0%nat => Ok str
  | S digits =>
      let remainder := dbl_mul remainder (dbl_int 10) in
      match dbl_trunc (- 2 ^ 31) (2 ^ 31) remainder with
      | None => Throw UB
      | Some toPrint =>
          match PString.toString LONG toPrint 10 with
          | Ok s => fraction_loop digits (dbl_sub remainder (dbl_int toPrint)) (str ++ s)
          | Throw e => Throw e
          end
      end
  end.
Definition toString_d (number : double) (digits : nat) : outcome bytes :=
  match number with
  | S754_nan => Ok (text "nan")
  | S754_infinity _ => Ok (text "inf")
  | _ =>
      let neg := dbl_ltb number (dbl_int 0) in
      let number := if neg then SFopp number else number in
      let number := dbl_add number (rounding_for digits) in
      match dbl_trunc 0 (2 ^ LONG) number with
      | None => Throw UB
      | Some int_part =>
          let remainder := dbl_sub number (dbl_int int_part) in
          match PString.toString_ul LONG int_part 10 with
          | Ok s => fraction_loop digits remainder
                      ((if neg then [byte_of "-"] else []) ++ s ++ (if (0 <? digits)%nat then [byte_of "."] else []))
          | Throw e => Throw e
          end
      end
  end.

(** ** [print] and [println] *)
Context {W : Type} {P : PrintDev W}.
(** A text is passed as a C string. *)
Fixpoint c_str (s : bytes) : bytes :=
  match s with [] => [] | c :: s => if c =? 0 then [] else c :: c_str s end.
Definition print (s : bytes) : M W Z := fun w => let '(n, w) := p_writeBuf (c_str s) w in (Ok n, w).
Definition println_str (s : bytes) : M W Z := fun w => let '(n, w) := p_writelnBuf (c_str s) w in (Ok n, w).
Definition println : M W Z := fun w => let '(n, w) := p_writeln w in (Ok n, w).
Definition println_char (c : Z) : M W Z := fun w => let '(n, w) := p_writelnBuf [c] w in (Ok n, w).
Definition print_char_ (c : Z) : M W Z := fun w => let '(n, w) := p_write c w in (Ok n, w).
Definition text_of (o : outcome bytes) : M W bytes := match o with Ok s => mret s | Throw e => throw e end.
Definition print_ul (n base : Z) : M W Z := s ← text_of (toString_ul n (u8 base)); print s.
Definition print_l (n base : Z) : M W Z := s ← text_of (toString_l n base); print s.
Definition print_d (n : double) (digits : nat) : M W Z := s ← text_of (toString_d n digits); print s.
Definition println_ul (n base : Z) : M W Z := s ← text_of (toString_ul n (u8 base)); println_str s.
Definition println_l (n base : Z) : M W Z := s ← text_of (toString_l n base); println_str s.
Definition println_d (n : double) (digits : nat) : M W Z := s ← text_of (toString_d n digits); println_str s.

(** ** The conversion stays inside its buffer and gives the digits *)
Lemma print_loop_spec base fuel n str out : 2 <= base <= 256 -> 0 <= n -> (rounds n <= fuel)%nat ->
  Z.of_nat (length (digits base n)) <= str ->
  print_loop fuel n base str out = Ok ((print_char <$> digits base n) ++ out).
Proof.
  intros Hb Hn. revert fuel str out. revert n Hn. refine (div_ind base _ ltac:(lia) _).
  intros n Hn IH [|fuel] str out Hf Hl; [unfold rounds in Hf; lia|]. cbn [print_loop].
  rewrite digits_step in * by lia. rewrite length_app in Hl. cbn [length] in Hl.
  rewrite (proj2 (Z.ltb_ge (str - 1) 0)) by lia.
  replace (n - base * (n / base)) with (n mod base) by (rewrite Z.mod_eq by lia; done).
  rewrite u8_small by (pose proof (Z.mod_pos_bound n base); lia). rewrite fmap_app, <- app_assoc.
  destruct (Z.eqb_spec (n / base) 0) as [Hz|Hz]; [done|].
  destruct (div_pos_of base n ltac:(lia) Hn Hz) as [Hp _]. pose proof (rounds_div base n ltac:(lia) Hp Hz).
  by rewrite IH by lia.
Qed.

Lemma print_toString_spec n base : 0 < LONG -> 2 <= base <= 256 -> 0 <= n < 2 ^ LONG ->
  toString_ul n base = Ok (print_char <$> digits base n).
Proof.
  intros HL Hb Hn. unfold toString_ul. rewrite (proj2 (Z.ltb_ge base 2)) by lia.
  pose proof (digits_length base n LONG HL Hn). rewrite print_loop_spec; [by rewrite app_nil_r|lia..| |lia].
  unfold rounds. destruct (decide (n = 0)) as [->|]; [cbn; lia|].
  assert (Z.log2 n < LONG) by (apply Z.log2_lt_pow2; lia). lia.
Qed.

Lemma print_char_upper d : 0 <= d < 36 -> toupper (itoa_char d) = print_char d.
Proof.
  revert d. assert (H : Forall (fun d => toupper (itoa_char d) = print_char d) (seqZ 0 36)) by repeat constructor.
  intros d Hd. rewrite Forall_forall in H. apply H. apply elem_of_seqZ. lia.
Qed.
Lemma print_char_digit d : 0 <= d < 10 -> print_char d = byte_of "0" + d.
Proof. revert d. apply digit_cases. repeat constructor. Qed.
Lemma print_char_nonzero d : 0 <= d < 36 -> print_char d <> 0.
Proof.
  intros Hd. unfold print_char. chars. destruct (Z.ltb_spec d 10); rewrite u8_small; lia.
Qed.

(** The two number conversions of the library agree: for every number of
    type [unsigned long] and every base from 2 to 36, [Print] writes what
    [String::toString] gives in upper case, and never more bytes than its buffer
    holds. *)
Theorem print_agrees_with_string n base : 0 < LONG -> 2 <= base <= 36 -> 0 <= n < 2 ^ LONG ->
  exists ds, value base ds = n /\ Forall (fun d => 0 <= d < base) ds /\ Z.of_nat (length ds) <= LONG /\
    PString.toString_ul LONG n base = Ok (itoa_char <$> ds) /\
    toString_ul n base = Ok (toUpperCase (itoa_char <$> ds)).
Proof.
  intros HL Hb Hn. exists (digits base n). rewrite toString_ul_spec, print_toString_spec by lia.
  pose proof (digits_length base n LONG HL Hn). pose proof (digits_range base n ltac:(lia) ltac:(lia)) as Hr.
  split; [apply digits_value; lia|]. do 3 (split; [done || lia|]). f_equal. unfold toUpperCase.
  rewrite <- list_fmap_compose. apply list_fmap_ext. intros k d Hd.
  cbn. symmetry. apply print_char_upper. apply (Forall_lookup_1 _ _ _ _ Hr) in Hd. lia.
Qed.

(** The text of a number of type [long] in base 10. *)
Definition long_text (n : Z) : bytes :=
  (if n <? 0 then [byte_of "-"] else []) ++ (print_char <$> digits 10 (Z.abs n)).
Lemma toString_l_spec n : 0 < LONG -> - 2 ^ (LONG - 1) < n < 2 ^ (LONG - 1) -> toString_l n 10 = Ok (long_text n).
Proof.
  intros HL Hn. assert (Hp : 2 ^ LONG = 2 * 2 ^ (LONG - 1)) by (rewrite <- Z.pow_succ_r by lia; f_equal; lia).
  unfold toString_l, long_text, ulong. change (10 =? 10) with true. cbn [andb]. change (u8 10) with 10.
  destruct (Z.ltb_spec n 0) as [Hneg|Hpos]; cbn [andb].
  - rewrite (proj2 (Z.eqb_neq _ _)), Z.mod_small, print_toString_spec by lia. by rewrite Z.abs_neq by lia.
  - rewrite Z.mod_small, print_toString_spec by lia. by rewrite Z.abs_eq by lia.
Qed.

Lemma c_str_id s : Forall (fun c => c <> 0) s -> c_str s = s.
Proof. induction 1 as [|c s Hc _ IH]; cbn; [done|]. rewrite (proj2 (Z.eqb_neq c 0)) by done. by rewrite IH. Qed.
Lemma digits_text_nonzero base n : 2 <= base <= 36 -> 0 <= n -> Forall (fun c => c <> 0) (print_char <$> digits base n).
Proof.
  intros Hb Hn. apply Forall_fmap. eapply Forall_impl; [apply digits_range; lia|]. intros d Hd. cbn in Hd. apply print_char_nonzero. lia.
Qed.
Lemma long_text_nonzero n : Forall (fun c => c <> 0) (long_text n).
Proof.
  unfold long_text. apply Forall_app. split; [destruct (n <? 0); repeat constructor; done|].
  apply digits_text_nonzero; lia.
Qed.
End Printing.

(** ** Devices that take every byte *)
Class PrintSink (W : Type) `{PrintDev W} : Type := {
  sent : W -> bytes;
  sink_write c w : exists w', p_write c w = (1, w') /\ sent w' = sent w ++ [c];
  sink_writeBuf s w : exists w', p_writeBuf s w = (Z.of_nat (length s), w') /\ sent w' = sent w ++ s;
  sink_writeln w : exists w', p_writeln w = (2, w') /\ sent w' = sent w ++ CRLF;
  sink_writelnBuf s w : exists w', p_writelnBuf s w = (Z.of_nat (length s) + 2, w') /\ sent w' = sent w ++ s ++ CRLF }.

Section Sink.
Context {W : Type} {P : PrintDev W} {K : PrintSink W} (LONG : Z) (HL : 0 < LONG).

Lemma print_sent s w : Forall (fun c => c <> 0) s ->
  exists w', print s w = (Ok (Z.of_nat (length s)), w') /\ sent w' = sent w ++ s.
Proof.
  intros Hs. unfold print. rewrite c_str_id by done. destruct (sink_writeBuf s w) as (w' & -> & Hw). by exists w'.
Qed.
Lemma print_l_sent n w : - 2 ^ (LONG - 1) < n < 2 ^ (LONG - 1) ->
  exists w', print_l LONG n 10 w = (Ok (Z.of_nat (length (long_text n))), w') /\ sent w' = sent w ++ long_text n.
Proof.
  intros Hn. unfold print_l. rewrite toString_l_spec by done. cbn. apply print_sent, long_text_nonzero.
Qed.
Lemma print_ul_sent n base w : 2 <= base <= 36 -> 0 <= n < 2 ^ LONG ->
  exists w', print_ul LONG n base w = (Ok (Z.of_nat (length (print_char <$> digits base n))), w') /\
    sent w' = sent w ++ (print_char <$> digits base n).
Proof.
  intros Hb Hn. unfold print_ul. rewrite u8_small, print_toString_spec by lia. apply print_sent, digits_text_nonzero; lia.
Qed.
End Sink.

(** A subclass that gives the byte function only, and takes every byte. *)
Section Defaults.
Context {W : Type} (write : Z -> W -> Z * W).
Definition default_print : PrintDev W := {|
  p_write := write;
  p_writeBuf := write_default write;
  p_writeln := writeln_default (write_default write);
  p_writelnBuf := writelnBuf_default (write_default write) (writeln_default (write_default write)) |}.

Context (out : W -> bytes) (Hw : forall c w, exists w', write c w = (1, w') /\ out w' = out w ++ [c]).
Lemma write_loop_all s n w : exists w', write_loop write s n w = (n + Z.of_nat (length s), w') /\ out w' = out w ++ s.
Proof.
  revert n w. induction s as [|c s IH]; intros n w; cbn [write_loop length].
  - exists w. rewrite app_nil_r. by rewrite Z.add_0_r.
  - destruct (Hw c w) as (w1 & -> & H1). change (1 =? 0) with false. destruct (IH (n + 1) w1) as (w2 & -> & H2).
    exists w2. split; [f_equal; lia|]. by rewrite H2, H1, <- app_assoc.
Qed.
Definition default_sink : @PrintSink W default_print.
Proof.
  refine (@Build_PrintSink W default_print out _ _ _ _); cbn.
  - exact Hw.
  - intros s w. apply (write_loop_all s 0 w).
  - intros w. apply (write_loop_all CRLF 0 w).
  - intros s w. unfold writelnBuf_default, write_default. destruct (write_loop_all s 0 w) as (w1 & -> & H1).
    unfold writeln_default. destruct (write_loop_all CRLF 0 w1) as (w2 & -> & H2). exists w2.
    split; [done|]. by rewrite H2, H1, <- app_assoc.
Defined.
End Defaults.

(** ** Examples: a string of bytes as the device, and the fractions of the comments *)
Module Demo.
Definition put (c : Z) (w : bytes) : Z * bytes := (1, w ++ [c]).
#[export] Instance demo_print : PrintDev bytes := default_print put.
#[export] Instance demo_sink : PrintSink bytes := default_sink put id (fun c w => ex_intro _ (w ++ [c]) (conj eq_refl eq_refl)).

Lemma print_agrees_with_string_witness :
  exists ds, value 16 ds = 48879 /\ Forall (fun d => 0 <= d < 16) ds /\ Z.of_nat (length ds) <= 64 /\
    PString.toString_ul 64 48879 16 = Ok (itoa_char <$> ds) /\
    toString_ul 64 48879 16 = Ok (toUpperCase (itoa_char <$> ds)).
Proof. apply (print_agrees_with_string 64); [lia|lia|]. split; [lia|reflexivity]. Defined.

Example print_beef : print_ul 64 48879 16 [] = (Ok 4, text "BEEF").
Proof. vm_compute. reflexivity. Qed.
(** The example of the comment on rounding. *)
Example print_1_999 : toString_d 64 (dbl_lit 1999 1000) 2 = Ok (text "2.00").
Proof. vm_compute. reflexivity. Qed.
Example print_minus : toString_d 64 (dbl_lit (-31415) 10000) 3 = Ok (text "-3.142").
Proof. vm_compute. reflexivity. Qed.
(** A number that does not fit [unsigned long] has no defined text. *)
Example print_too_large : toString_d 64 (dbl_int (2 ^ 64)) 2 = Throw UB.
Proof. vm_compute. reflexivity. Qed.
End Demo.
End ArduinoPrint.

(** * Addresses of the internet protocol *)
Module IPAddress.
Import Digits PString ArduinoPrint.

(** The four bytes, [_address.bytes]. *)
Definition address : Type := list Z.
Definition new : address := [0; 0; 0; 0].
(** The other member of the union, on a little-endian machine. *)
Definition of_dword (d : Z) : address :=
  [u8 d; u8 (Z.shiftr d 8); u8 (Z.shiftr d 16); u8 (Z.shiftr d 24)].
Definition dword (a : address) : Z := foldr (fun b d => b + 2 ^ 8 * d) 0 a.

Fixpoint from_loop (s : bytes) (acc dots : Z) (a : address) : bool * address :=
  match s with
  | [] => if negb (dots =? 3) then (false, a) else (true, lset a 3 (u8 acc))
  | c :: s =>
      if (byte_of "0" <=? c) && (c <=? byte_of "9") then
        let acc := u16 (acc * 10 + (c - byte_of "0")) in
        if 255 <? acc then (false, a) else from_loop s acc dots a
      else if c =? byte_of "." then
        if dots =? 3 then (false, a) else from_loop s 0 (dots + 1) (lset a dots (u8 acc))
      else (false, a)
  end.
Definition fromString (s : bytes) (a : address) : bool * address := from_loop (c_str s) 0 0 a.

Section PrintTo.
Context (LONG : Z) {W : Type} {P : PrintDev W}.
Fixpoint print_dotted (bs : list Z) (n : Z) : M W Z :=
  match bs with
  | [] => mret n
  | b :: bs => k ← print_ul LONG b 10; d ← print_char_ (byte_of "."); print_dotted bs (n + k + d)
  end.
Definition printTo (a : address) : M W Z :=
  match a with
  | [b0; b1; b2; b3] => n ← print_dotted [b0; b1; b2] 0; k ← print_ul LONG b3 10; mret (n + k)
  | _ => throw UB
  end.
End PrintTo.

Definition octet_text (b : Z) : bytes := print_char <$> digits 10 b.
Definition dot : Z := byte_of ".".
Fixpoint dotted (bs : list Z) : bytes :=
  match bs with [] => [] | b :: bs => octet_text b ++ dot :: dotted bs end.
Definition address_text (a : address) : bytes :=
  match a with
  | [b0; b1; b2; b3] => dotted [b0; b1; b2] ++ octet_text b3
  | _ => []
  end.

Lemma from_loop_digits ds rest acc dots a : Forall (fun d => 0 <= d < 10) ds -> 0 <= acc -> value_from 10 acc ds <= 255 ->
  from_loop ((print_char <$> ds) ++ rest) acc dots a = from_loop rest (value_from 10 acc ds) dots a.
Proof.
  intros H. revert acc. induction H as [|d ds Hd Hds IH]; intros acc Ha Hv; [done|].
  rewrite fmap_cons. cbn [app from_loop value_from] in *. rewrite print_char_digit by done. chars.
  pose proof (value_range 10 ds (acc * 10 + d) ltac:(lia) ltac:(lia) Hds).
  rewrite (proj2 (Z.leb_le 48 (48 + d))), (proj2 (Z.leb_le (48 + d) 57)) by lia. cbn [andb].
  replace (acc * 10 + (48 + d - 48)) with (acc * 10 + d) by lia.
  rewrite u16_small by lia. rewrite (proj2 (Z.ltb_ge 255 (acc * 10 + d))) by lia. apply IH; lia.
Qed.

Lemma from_loop_octet b rest dots a : 0 <= b < 256 ->
  from_loop (octet_text b ++ rest) 0 dots a = from_loop rest b dots a.
Proof.
  intros Hb. unfold octet_text. pose proof (digits_value 10 b ltac:(lia) ltac:(lia)) as Hv. unfold value in Hv.
  rewrite from_loop_digits; rewrite ?Hv; try lia; [done|]. apply digits_range; lia.
Qed.
Lemma from_loop_dot b rest dots a : 0 <= b < 256 -> dots <> 3 ->
  from_loop (octet_text b ++ dot :: rest) 0 dots a = from_loop rest 0 (dots + 1) (lset a dots b).
Proof.
  intros Hb Hd. rewrite from_loop_octet by done. cbn [from_loop]. unfold dot. chars.
  change ((48 <=? 46) && (46 <=? 57)) with false. change (46 =? 46) with true. cbv iota.
  rewrite (proj2 (Z.eqb_neq dots 3)) by done. by rewrite u8_small by lia.
Qed.

Lemma address_text_nonzero a : Forall (fun b => 0 <= b < 256) a -> Forall (fun c => c <> 0) (address_text a).
Proof.
  intros H. destruct a as [|b0 [|b1 [|b2 [|b3 [|]]]]]; try constructor.
  rewrite !Forall_cons in H. destruct H as (H0 & H1 & H2 & H3 & _). unfold address_text. cbn [dotted]. unfold octet_text.
  repeat first [apply digits_text_nonzero | apply Forall_app_2 | apply Forall_cons_2]; lia || done.
Qed.

Section Roundtrip.
Context {W : Type} {P : PrintDev W} {K : PrintSink W} (LONG : Z) (HL : 8 <= LONG).

Lemma print_octet b w : 0 <= b < 256 -> exists w', print_ul LONG b 10 w = (Ok (Z.of_nat (length (octet_text b))), w') /\
  sent w' = sent w ++ octet_text b.
Proof.
  intros Hb. assert (2 ^ 8 <= 2 ^ LONG) by (apply Z.pow_le_mono_r; lia).
  apply (print_ul_sent LONG ltac:(lia) b 10 w); lia.
Qed.
Lemma print_dotted_sent bs n w : Forall (fun b => 0 <= b < 256) bs ->
  exists w', print_dotted LONG bs n w = (Ok (n + Z.of_nat (length (dotted bs))), w') /\
    sent w' = sent w ++ dotted bs.
Proof.
  intros H. revert n w. induction H as [|b bs Hb _ IH]; intros n w; cbn [print_dotted].
  - exists w. cbn. by rewrite app_nil_r, Z.add_0_r.
  - destruct (print_octet b w Hb) as (w1 & E1 & H1). rewrite (M_bind_ok _ _ _ _ _ _ _ _ E1).
    destruct (sink_write dot w1) as (w2 & E2 & H2).
    assert (E2' : print_char_ (byte_of ".") w1 = (Ok 1, w2)) by (unfold print_char_; fold dot; by rewrite E2).
    rewrite (M_bind_ok _ _ _ _ _ _ _ _ E2').
    destruct (IH (n + Z.of_nat (length (octet_text b)) + 1) w2) as (w3 & -> & H3). exists w3.
    rewrite H3, H2, H1. cbn [dotted]. rewrite !length_app. cbn [length].
    split; [do 2 f_equal; lia|]. by rewrite <- !app_assoc.
Qed.

(** An address printed on a device that takes every byte is in dotted
    decimal, and [fromString] reads that text back as the same address, whatever
    the address object held before. *)
Theorem ipaddress_roundtrip a old w : length a = 4%nat -> length old = 4%nat -> Forall (fun b => 0 <= b < 256) a ->
  exists t w', printTo LONG a w = (Ok (Z.of_nat (length t)), w') /\ sent w' = sent w ++ t /\ fromString t old = (true, a).
Proof.
  intros Ha Ho Hr. pose proof (address_text_nonzero a Hr) as Hnz.
  destruct a as [|b0 [|b1 [|b2 [|b3 [|]]]]]; try done. destruct old as [|o0 [|o1 [|o2 [|o3 [|]]]]]; try done.
  exists (address_text [b0; b1; b2; b3]). unfold printTo, fromString. rewrite c_str_id by done.
  rewrite !Forall_cons in Hr. destruct Hr as (H0 & H1 & H2 & H3 & _).
  destruct (print_dotted_sent [b0; b1; b2] 0 w) as (w1 & E1 & S1); [rewrite !Forall_cons; done|].
  destruct (print_octet b3 w1 H3) as (w2 & E2 & S2). exists w2.
  rewrite (M_bind_ok _ _ _ _ _ _ _ _ E1), (M_bind_ok _ _ _ _ _ _ _ _ E2).
  unfold address_text. split; [|split].
  - unfold mret, M_ret. do 2 f_equal. rewrite length_app. lia.
  - by rewrite S2, S1, <- app_assoc.
  - cbn [dotted]. rewrite <- !app_assoc. cbn [app]. rewrite <- !app_assoc. cbn [app]. rewrite <- !app_assoc. cbn [app]. rewrite !from_loop_dot by lia. rewrite <- (app_nil_r (octet_text b3)), from_loop_octet by done.
    cbn. by rewrite u8_small by lia.
Qed.
End Roundtrip.

Import ArduinoPrint.Demo.
Lemma ipaddress_roundtrip_witness :
  exists t w', printTo 64 [192; 168; 0; 10] ([] : bytes) = (Ok (Z.of_nat (length t)), w') /\
    sent w' = [] ++ t /\ fromString t new = (true, [192; 168; 0; 10]).
Proof.
  apply (@ipaddress_roundtrip bytes Demo.demo_print Demo.demo_sink 64); [lia|reflexivity|reflexivity|].
  repeat constructor; discriminate.
Defined.

(** The four bytes and the word are two views of one object. *)
Lemma dword_of_dword d : 0 <= d < 2 ^ 32 -> dword (of_dword d) = d.
Proof.
  intros Hd. unfold dword, of_dword, u8. cbn [foldr]. rewrite !Z.shiftr_div_pow2 by lia.
  change (2 ^ 8) with 256. change (2 ^ 16) with (256 * 256). change (2 ^ 24) with (256 * 256 * 256).
  rewrite <- !Z.div_div by lia. set (d1 := d / 256). set (d2 := d1 / 256). set (d3 := d2 / 256).
  pose proof (Z.div_mod d 256 ltac:(lia)) as E0. pose proof (Z.div_mod d1 256 ltac:(lia)) as E1.
  pose proof (Z.div_mod d2 256 ltac:(lia)) as E2. fold d1 in E0. fold d2 in E1. fold d3 in E2.
  assert (0 <= d3 < 256) by (unfold d3, d2, d1; split; [repeat apply Z.div_pos; lia|repeat apply Z.div_lt_upper_bound; lia]).
  rewrite (Z.mod_small d3) by lia. lia.
Qed.

(** An octet without digits counts as 0. *)
Example empty_octets : fromString (text "...") [1; 2; 3; 4] = (true, [0; 0; 0; 0]).
Proof. reflexivity. Qed.
(** A text that is rejected has changed the address. *)
Example rejected_changes : fromString (text "9.8.x") [1; 2; 3; 4] = (false, [9; 8; 3; 4]).
Proof. reflexivity. Qed.
End IPAddress.
