(* ===== verification/Clock.v ===== *)
(** * The clock of the library, src/clock.cpp

    [Clock::millis] and [micros] count from the construction of the object;
    [delay] and [delayMicroseconds] turn a number into a request to the kernel.
    A time of the system is in nanoseconds; [timespec_of] is how the kernel
    returns it. *)
From S2P Require Import Prelude.

Module PiClock.
Section Long.
(** The number of bits of [unsigned long]. *)
Context (LONG : Z).
Definition ulong (n : Z) : Z := n mod 2 ^ LONG.

Record timespec : Type := mk_timespec { tv_sec : Z; tv_nsec : Z }.
Definition timespec_of (ns : Z) : timespec := mk_timespec (ns / 10 ^ 9) (ns mod 10 ^ 9).

Record clock : Type := mk_clock { _ms : Z; _us : Z }.
Definition ms_of (t : timespec) : Z := u64 (u64 (tv_sec t * 1000) + tv_nsec t / 1000000).
Definition us_of (t : timespec) : Z := u64 (u64 (tv_sec t * 1000000) + tv_nsec t / 1000).
Definition new (t : timespec) : clock := mk_clock (ms_of t) (us_of t).
Definition millis (k : clock) (t : timespec) : Z := ulong (u64 (ms_of t - _ms k)).
Definition micros (k : clock) (t : timespec) : Z := ulong (u64 (us_of t - _us k)).

(** What a delay asks of the kernel: nothing, [sleep (-1)], [nanosleep], or to
    read the time until it has reached a value in microseconds. *)
Inductive request : Type := NoRequest | SleepForever | Nanosleep (t : timespec) | SpinUntil (us : Z).
Definition delay (d : Z) : request :=
  if d =? 0 then NoRequest
  else if d =? ulong (-1) then SleepForever
  else Nanosleep (mk_timespec (d / 1000) (ulong (d mod 1000 * 1000000))).
(** [now] is the time of day in microseconds. *)
Definition delayMicroseconds (now d : Z) : request :=
  if d =? 0 then NoRequest
  else if d =? ulong (-1) then SleepForever
  else if d <? 100 then SpinUntil (now + d)
  else Nanosleep (mk_timespec (d / 1000000) (ulong (d mod 1000000 * 1000))).
(** The loop that reads the time of day, given the readings. *)
Fixpoint spin (until now : Z) (readings : list Z) : option (Z * list Z) :=
  if now <? until then match readings with [] => None | t :: readings => spin until t readings end
  else Some (now, readings).

(** ** Elapsed time

    The difference of two readings is the time that has passed, in whole
    milliseconds, also when the counters have wrapped in between. *)
Lemma ms_of_ns ns : ms_of (timespec_of ns) = u64 (ns / 10 ^ 6).
Proof.
  unfold ms_of, timespec_of. cbn [tv_sec tv_nsec]. unfold u64. rewrite Zplus_mod_idemp_l. f_equal.
  rewrite (Z.div_mod ns (10 ^ 9)) at 3 by lia.
  replace (10 ^ 9 * (ns / 10 ^ 9) + ns mod 10 ^ 9) with (ns mod 10 ^ 9 + ns / 10 ^ 9 * 1000 * 10 ^ 6) by lia.
  rewrite Z.div_add by lia. change 1000000 with (10 ^ 6). lia.
Qed.

Lemma ulong_u64 x : 0 <= LONG <= 64 -> ulong (u64 x) = ulong x.
Proof.
  intros HL. unfold ulong, u64. replace 64 with (LONG + (64 - LONG)) by lia. rewrite Z.pow_add_r by lia.
  apply Z.mod_mod_divide. by exists (2 ^ (64 - LONG)); lia.
Qed.

Lemma millis_elapsed k ns1 ns2 : 0 <= LONG <= 64 ->
  ulong (millis k (timespec_of ns2) - millis k (timespec_of ns1)) = ulong (ns2 / 10 ^ 6 - ns1 / 10 ^ 6).
Proof.
  intros HL. rewrite <- (ulong_u64 (ns2 / 10 ^ 6 - ns1 / 10 ^ 6)) by done. unfold millis. rewrite !ulong_u64, !ms_of_ns by done.
  set (a := ns2 / 10 ^ 6). set (b := ns1 / 10 ^ 6).
  trans (ulong (u64 a - u64 b)).
  - unfold ulong. rewrite <- Zminus_mod. f_equal. lia.
  - rewrite <- (ulong_u64 (u64 a - u64 b)), <- (ulong_u64 (a - b)) by done. f_equal. unfold u64. by rewrite <- Zminus_mod.
Qed.

(** A delay asks for exactly its time, in a form the kernel accepts. *)
Lemma delay_exact d : 32 <= LONG -> 0 < d < 2 ^ LONG - 1 ->
  exists t, delay d = Nanosleep t /\ tv_sec t * 10 ^ 9 + tv_nsec t = d * 10 ^ 6 /\ 0 <= tv_nsec t < 10 ^ 9.
Proof.
  intros HL Hd. unfold delay. rewrite (proj2 (Z.eqb_neq d 0)) by lia.
  assert (Hu : ulong (-1) = 2 ^ LONG - 1).
  { unfold ulong. rewrite <- (Z_mod_plus_full _ 1), Z.mod_small; lia. }
  rewrite Hu, (proj2 (Z.eqb_neq _ _)) by lia. eexists. split; [done|]. cbn [tv_sec tv_nsec].
  pose proof (Z.div_mod d 1000 ltac:(lia)). pose proof (Z.mod_pos_bound d 1000 ltac:(lia)).
  assert (2 ^ 32 <= 2 ^ LONG) by (apply Z.pow_le_mono_r; lia). assert (2 ^ 32 = 4294967296) by reflexivity.
  unfold ulong. rewrite Z.mod_small by lia. lia.
Qed.

(** The active wait ends at the first reading that is late enough. *)
Lemma spin_ends until now readings : until <= default now (last readings) -> exists t rest, spin until now readings = Some (t, rest) /\ until <= t.
Proof.
  revert now. induction readings as [|x l IH]; intros now Hl; cbn [spin]; destruct (Z.ltb_spec now until); eauto.
  - cbn in Hl. lia.
  - apply IH. rewrite last_cons in Hl. by destruct (last l).
Qed.
End Long.
End PiClock.
