(* ===== verification/ArduinoStream.v ===== *)
(** * Reading from a stream: src/arduino/Stream.cpp

    A subclass of [Stream] gives [read], [peek] and [available]; the timed
    variants poll them until the time is over (module [Polling]), and
    [Terminal] has its own.  The parsing functions are written against these
    virtual functions, which are the fields of [StreamDev]; [StreamDevOk] states
    what a stream promises: [pending] are the bytes that come in time.  Module
    [ArduinoStream] has the functions, shows that the search with its walk back
    finds what a plain search finds, and that a printed number is parsed back. *)
From Stdlib Require Import Ascii SpecFloat.
From S2P Require Import Prelude IoDevice Converter Text ArduinoPrint Clock.

(** The virtual functions of [Stream]; a negative number is no byte. *)
Class StreamDev (W : Type) : Type := {
  sd_read : W -> Z * W;
  sd_available : W -> Z * W;
  sd_timedRead : W -> outcome Z * W;
  sd_timedPeek : W -> outcome Z * W }.

(** [ok] is an invariant of the stream, [ready] says that the next byte has
    arrived, so that [read] takes it. *)
Class StreamDevOk (W : Type) `{StreamDev W} : Type := {
  pending : W -> bytes;
  sd_ok : W -> Prop;
  ready : W -> Prop;
  pending_bytes w : sd_ok w -> Forall (fun c => 0 <= c < 256) (pending w);
  timedRead_next c l w : sd_ok w -> pending w = c :: l ->
    exists w', sd_timedRead w = (Ok c, w') /\ sd_ok w' /\ pending w' = l;
  timedRead_none w : sd_ok w -> pending w = [] ->
    exists w', sd_timedRead w = (Ok (-1), w') /\ sd_ok w' /\ pending w' = [];
  timedPeek_next c l w : sd_ok w -> pending w = c :: l ->
    exists w', sd_timedPeek w = (Ok c, w') /\ sd_ok w' /\ pending w' = c :: l /\ ready w';
  timedPeek_none w : sd_ok w -> pending w = [] ->
    exists w', sd_timedPeek w = (Ok (-1), w') /\ sd_ok w' /\ pending w' = [];
  read_ready w : sd_ok w -> ready w -> exists c l w',
    pending w = c :: l /\ sd_read w = (c, w') /\ sd_ok w' /\ pending w' = l;
  available_ready w : sd_ok w -> let '(n, w') := sd_available w in
    sd_ok w' /\ pending w' = pending w /\ (n <> 0 -> ready w') }.

Module ArduinoStream.
Import Digits PString ArduinoPrint.

Inductive LookaheadMode : Type := SKIP_ALL | SKIP_NONE | SKIP_WHITESPACE.
Definition NO_IGNORE_CHAR : Z := 1.

Definition is_digit (c : Z) : bool := (byte_of "0" <=? c) && (c <=? byte_of "9").
Definition minus : Z := byte_of "-".
Definition point : Z := byte_of ".".
Definition white (c : Z) : bool := (c =? 32) || (c =? 9) || (c =? 13) || (c =? 10).

Section Stream.
Context (LONG : Z) {W : Type} {DV : StreamDev W}.

Definition read : M W Z := fun w => let '(c, w) := sd_read w in (Ok c, w).
Definition available : M W Z := fun w => let '(n, w) := sd_available w in (Ok n, w).
Definition timedRead : M W Z := sd_timedRead.
Definition timedPeek : M W Z := sd_timedPeek.

(** [peekNextDigit] *)
Fixpoint peekNextDigit (fuel : nat) (lookahead : LookaheadMode) (detectDecimal : bool) : M W Z :=
  match fuel with
  | 0%nat => throw OutOfFuel
  | S fuel =>
      c ← timedPeek;
      if (c <? 0) || (c =? minus) || is_digit c || (detectDecimal && (c =? point)) then mret c
      else match lookahead with
           | SKIP_NONE => mret (-1)
           | SKIP_WHITESPACE => if white c then read;; peekNextDigit fuel lookahead detectDecimal else mret (-1)
           | SKIP_ALL => read;; peekNextDigit fuel lookahead detectDecimal
           end
  end.

(** Arithmetic on [long], undefined when it overflows. *)
Definition in_long (v : Z) : bool := (- 2 ^ (LONG - 1) <=? v) && (v <? 2 ^ (LONG - 1)).
(** [value * 10 + c - '0'], from left to right. *)
Definition push_digit (value c : Z) : option Z :=
  if in_long (value * 10) && in_long (value * 10 + c) then Some (value * 10 + c - byte_of "0") else None.

(** The loop of [parseInt] on the character peeked last. *)
Fixpoint parse_loop (fuel : nat) (ignore : Z) (isNegative : bool) (value c : Z) : M W (bool * Z) :=
  match fuel with
  | 0%nat => throw OutOfFuel
  | S fuel =>
      match (if c =? ignore then Some (isNegative, value)
             else if c =? minus then Some (true, value)
             else if is_digit c then (fun v => (isNegative, v)) <$> push_digit value c
             else Some (isNegative, value)) with
      | None => throw UB
      | Some (isNegative, value) =>
          read;;
          c ← timedPeek;
          if is_digit c || (c =? ignore) then parse_loop fuel ignore isNegative value c
          else mret (isNegative, value)
      end
  end.
(** [while (available ()) read ();] *)
Fixpoint drain (fuel : nat) : M W unit :=
  match fuel with
  | 0%nat => throw OutOfFuel
  | S fuel => n ← available; if n =? 0 then mret tt else read;; drain fuel
  end.
Definition parseInt (fuel : nat) (lookahead : LookaheadMode) (ignore : Z) : M W Z :=
  c ← peekNextDigit fuel lookahead false;
  if c <? 0 then mret 0
  else '(isNegative, value) ← parse_loop fuel ignore false 0 c;
       drain fuel;;
       mret (if isNegative : bool then - value else value).

(** *** [parseFloat], in single precision *)
Definition to_float (x : double) : spec_float :=
  match x with
  | S754_finite s m e => binary_normalize 24 128 (if s then Z.neg m else Z.pos m) e s
  | _ => x
  end.
Definition float_int (n : Z) : spec_float := binary_normalize 24 128 n 0 false.
Definition times_tenth (f : spec_float) : spec_float := to_float (SFmul 53 1024 f (dbl_lit 1 10)).

Fixpoint float_loop (fuel : nat) (ignore : Z) (isNegative isFraction : bool) (value : Z) (fraction : spec_float) (c : Z) :
    M W (bool * bool * Z * spec_float) :=
  match fuel with
  | 0%nat => throw OutOfFuel
  | S fuel =>
      match (if c =? ignore then Some (isNegative, isFraction, value, fraction)
             else if c =? minus then Some (true, isFraction, value, fraction)
             else if c =? point then Some (isNegative, true, value, fraction)
             else if is_digit c then
               (fun v => (isNegative, isFraction, v, if isFraction then times_tenth fraction else fraction)) <$> push_digit value c
             else Some (isNegative, isFraction, value, fraction)) with
      | None => throw UB
      | Some (isNegative, isFraction, value, fraction) =>
          read;;
          c ← timedPeek;
          if is_digit c || ((c =? point) && negb isFraction) || (c =? ignore)
          then float_loop fuel ignore isNegative isFraction value fraction c
          else mret (isNegative, isFraction, value, fraction)
      end
  end.
Definition parseFloat (fuel : nat) (lookahead : LookaheadMode) (ignore : Z) : M W spec_float :=
  c ← peekNextDigit fuel lookahead true;
  if c <? 0 then mret (float_int 0)
  else '(isNegative, isFraction, value, fraction) ← float_loop fuel ignore false false 0 (float_int 1) c;
       drain fuel;;
       let value := if isNegative : bool then - value else value in
       mret (if isFraction : bool then SFmul 24 128 (float_int value) fraction else float_int value).

(** ** Blocks of bytes *)
(** [readBytes]: the bytes stored. *)
Fixpoint readBytes (length : nat) : M W bytes :=
  match length with
  | 0%nat => mret []
  | S length =>
      c ← timedRead;
      if c <? 0 then mret [] else l ← readBytes length; mret (c :: l)
  end.
Fixpoint readBytesUntil (terminator : Z) (length : nat) : M W bytes :=
  match length with
  | 0%nat => mret []
  | S length =>
      c ← timedRead;
      if (c <? 0) || (c =? terminator) then mret [] else l ← readBytesUntil terminator length; mret (c :: l)
  end.
(** [readString] and [readStringUntil]; there is no terminator in the first. *)
Fixpoint read_string (fuel : nat) (terminator : option Z) : M W bytes :=
  match fuel with
  | 0%nat => throw OutOfFuel
  | S fuel =>
      c ← timedRead;
      if (c <? 0) || match terminator with Some t => c =? t | None => false end then mret []
      else l ← read_string fuel terminator; mret (c :: l)
  end.
Definition readString (fuel : nat) : M W bytes := read_string fuel None.
Definition readStringUntil (fuel : nat) (terminator : Z) : M W bytes := read_string fuel (Some terminator).

(** ** Searching *)
Record MultiTarget : Type := mk_target { t_str : bytes; t_index : nat }.
Definition t_len (t : MultiTarget) : nat := length (t_str t).
Definition char_is (str : bytes) (i : nat) (c : Z) : bool := bool_decide (str !! i = Some c).

(** The walk back after a mismatch: [index] before the decrement. *)
Fixpoint walk (str : bytes) (origIndex : nat) (c : Z) (index : nat) : nat :=
  match index with
  | 0%nat => 0
  | S index =>
      if char_is str index c then
        if (index =? 0)%nat then 1
        else let diff := (origIndex - index)%nat in
             if forallb (fun i => bool_decide (str !! i = str !! (i + diff)%nat)) (seq 0 index)
             then S index
             else walk str origIndex c index
      else walk str origIndex c index
  end.
(** One character against one target; the answer says whether it is complete. *)
Definition step_target (c : Z) (t : MultiTarget) : bool * MultiTarget :=
  if char_is (t_str t) (t_index t) c then
    let i := S (t_index t) in ((i =? t_len t)%nat, mk_target (t_str t) i)
  else if (t_index t =? 0)%nat then (false, t)
  else (false, mk_target (t_str t) (walk (t_str t) (t_index t) c (t_index t))).
Fixpoint step_targets (c : Z) (i : nat) (done todo : list MultiTarget) : nat + list MultiTarget :=
  match todo with
  | [] => inr done
  | t :: todo =>
      match step_target c t with
      | (true, _) => inl i
      | (false, t) => step_targets c (S i) (done ++ [t]) todo
      end
  end.
Fixpoint find_loop (fuel : nat) (targets : list MultiTarget) : M W Z :=
  match fuel with
  | 0%nat => throw OutOfFuel
  | S fuel =>
      c ← timedRead;
      if c <? 0 then mret (-1)
      else match step_targets c 0 [] targets with
           | inl i => mret (Z.of_nat i)
           | inr targets => find_loop fuel targets
           end
  end.
Fixpoint first_empty (i : nat) (ts : list MultiTarget) : option nat :=
  match ts with [] => None | t :: ts => if (t_len t =? 0)%nat then Some i else first_empty (S i) ts end.
Definition findMulti (fuel : nat) (targets : list MultiTarget) : M W Z :=
  match first_empty 0 targets with
  | Some i => mret (Z.of_nat i)
  | None => find_loop fuel targets
  end.
Definition findUntil (fuel : nat) (target : bytes) (terminator : option bytes) : M W bool :=
  let ts := match terminator with
            | None => [mk_target target 0]
            | Some e => [mk_target target 0; mk_target e 0]
            end in
  r ← findMulti fuel ts; mret (r =? 0).
Definition find (fuel : nat) (target : bytes) : M W bool := findUntil fuel target None.
End Stream.

(** ** The search

    The index of a target is the longest part of it that the text read so far
    ends with; the walk back keeps it so. *)
Definition matches (str x : bytes) (k : nat) : Prop := take k str `suffix_of` x.
Record tracked (str x : bytes) (k : nat) : Prop := {
  tr_lt : (k < length str)%nat;
  tr_match : matches str x k;
  tr_max : forall j, (k < j <= length str)%nat -> ~ matches str x j }.

Lemma matches_0 str x : matches str x 0.
Proof. apply suffix_nil. Qed.
Lemma matches_snoc str x c k : (k < length str)%nat -> matches str (x ++ [c]) (S k) <-> matches str x k /\ str !! k = Some c.
Proof.
  intros Hk. unfold matches. destruct (lookup_lt_is_Some_2 str k Hk) as [d Hd]. rewrite (take_S_r _ _ _ Hd), Hd. split.
  - intros H. split; [by eapply suffix_snoc_inv_2|]. f_equal. by eapply suffix_snoc_inv_1.
  - intros [H [= ->]]. by apply suffix_snoc.
Qed.

Lemma take_suffix_take (str : bytes) j k : (j <= k <= length str)%nat ->
  take j str `suffix_of` take k str <-> forall i, (i < j)%nat -> str !! i = str !! (i + (k - j))%nat.
Proof.
  intros Hjk. split.
  - intros [l Hl] i Hi. assert (length l = (k - j)%nat).
    { apply (f_equal length) in Hl. rewrite length_app, !length_take in Hl. lia. }
    assert (H1 : take k str !! (i + (k - j))%nat = take j str !! i).
    { rewrite Hl, lookup_app_r by lia. f_equal. lia. }
    rewrite !lookup_take_lt in H1 by lia. done.
  - intros H. exists (take (k - j) str). apply list_eq. intros i.
    destruct (decide (i < k - j)%nat).
    + rewrite lookup_app_l by (rewrite length_take; lia). by rewrite !lookup_take_lt by lia.
    + rewrite lookup_app_r by (rewrite length_take; lia). rewrite length_take, Nat.min_l by lia.
      destruct (decide (i < k)%nat).
      * rewrite !lookup_take_lt by lia. rewrite (H (i - (k - j))%nat) by lia. f_equal. lia.
      * rewrite !lookup_take_ge by lia. done.
Qed.

Lemma matches_border str x j k : (j <= k <= length str)%nat -> matches str x k ->
  matches str x j <-> forall i, (i < j)%nat -> str !! i = str !! (i + (k - j))%nat.
Proof.
  intros Hjk Hk. rewrite <- take_suffix_take by done. unfold matches in *. split.
  - intros Hj. destruct (suffix_weak_total _ _ _ Hj Hk) as [|Hs]; [done|].
    apply suffix_length in Hs as Hlen. rewrite !length_take in Hlen.
    replace j with k by lia. done.
  - intros Hs. by trans (take k str).
Qed.

Lemma char_is_spec str i c : char_is str i c = true <-> str !! i = Some c.
Proof. apply bool_decide_eq_true. Qed.

Lemma walk_spec str x c k index : tracked str x k -> (index <= k)%nat ->
  (forall j, (index <= j <= k)%nat -> ~ (matches str x j /\ str !! j = Some c)) ->
  tracked str (x ++ [c]) (walk str k c index).
Proof.
  intros [Hlt Hm Hmax]. 
  assert (Hyes : forall i, (i < k)%nat -> matches str x i -> str !! i = Some c ->
    (forall j, (S i <= j <= k)%nat -> ~ (matches str x j /\ str !! j = Some c)) -> tracked str (x ++ [c]) (S i)).
  { intros i Hi Hmi Hc Hno. split; [lia|apply matches_snoc; [lia|done]|]. intros [|j] Hj; [lia|].
    rewrite matches_snoc by lia. intros [Hmj Hcj]. destruct (decide (j <= k)%nat); [by apply (Hno j); [lia|]|].
    apply (Hmax j); [lia|done]. }
  induction index as [|i IH]; intros Hi Hno; cbn [walk].
  - split; [lia|apply matches_0|]. intros [|j] Hj; [lia|]. rewrite matches_snoc by lia. intros [Hmj Hcj].
    destruct (decide (j <= k)%nat); [by apply (Hno j); [lia|]|]. apply (Hmax j); [lia|done].
  - destruct (char_is str i c) eqn:Ec.
    + apply char_is_spec in Ec. destruct (Nat.eqb_spec i 0) as [->|Hi0].
      * apply Hyes; [lia|apply matches_0|done|done].
      * destruct (forallb _ _) eqn:Ef.
        -- apply Hyes; [lia| |done|done]. apply (matches_border str x i k); [lia|done|]. intros m Hmi.
           rewrite forallb_forall in Ef. specialize (Ef m ltac:(apply in_seq; lia)). by apply bool_decide_eq_true in Ef.
        -- apply IH; [lia|]. intros j Hj [Hmj Hcj]. destruct (decide (j = i)) as [->|]; [|by apply (Hno j); [lia|]].
           assert (forallb (fun m => bool_decide (str !! m = str !! (m + (k - i))%nat)) (seq 0 i) = true); [|congruence].
           apply forallb_forall. intros m Hmi. apply in_seq in Hmi. apply bool_decide_eq_true.
           apply (proj1 (matches_border str x i k ltac:(lia) Hm) Hmj). lia.
    + apply IH; [lia|]. intros j Hj [Hmj Hcj]. destruct (decide (j = i)) as [->|]; [|by apply (Hno j); [lia|]].
      apply char_is_spec in Hcj. congruence.
Qed.

Lemma tracked_not_suffix str x k : tracked str x k -> ~ str `suffix_of` x.
Proof.
  intros [Hlt _ Hmax] Hs. apply (Hmax (length str)); [lia|]. unfold matches. by rewrite firstn_all.
Qed.

Lemma step_target_spec c t x : tracked (t_str t) x (t_index t) ->
  match step_target c t with
  | (true, _) => t_str t `suffix_of` x ++ [c]
  | (false, t') => t_str t' = t_str t /\ tracked (t_str t) (x ++ [c]) (t_index t')
  end.
Proof.
  intros Ht. pose proof Ht as [Hlt Hm Hmax]. unfold step_target, t_len. destruct (char_is _ _ _) eqn:Ec.
  - apply char_is_spec in Ec. assert (Hs : matches (t_str t) (x ++ [c]) (S (t_index t))) by (by apply matches_snoc).
    destruct (Nat.eqb_spec (S (t_index t)) (length (t_str t))) as [He|He].
    + unfold matches in Hs. by rewrite He, firstn_all in Hs.
    + split; [done|]. cbn [t_index]. split; [lia|done|]. intros [|j] Hj; [lia|]. rewrite matches_snoc by lia.
      intros [Hmj _]. apply (Hmax j); [lia|done].
  - assert (Hno : forall j, (t_index t <= j <= t_index t)%nat -> ~ (matches (t_str t) x j /\ t_str t !! j = Some c)).
    { intros j Hj [_ Hcj]. replace j with (t_index t) in Hcj by lia. apply char_is_spec in Hcj. congruence. }
    pose proof (walk_spec _ _ c _ (t_index t) Ht ltac:(lia) Hno) as Hw.
    destruct (Nat.eqb_spec (t_index t) 0) as [E|E]; [|done]. split; [done|]. rewrite E in *. done.
Qed.

(** The plain search: the first target, in their order, that the text read so
    far ends with, after each byte. *)
Fixpoint which (i : nat) (ts : list bytes) (x : bytes) : option nat :=
  match ts with [] => None | t :: ts => if bool_decide (t `suffix_of` x) then Some i else which (S i) ts x end.
Fixpoint search (ts : list bytes) (x p : bytes) : Z * bytes :=
  match p with
  | [] => (-1, [])
  | c :: p => match which 0 ts (x ++ [c]) with Some i => (Z.of_nat i, p) | None => search ts (x ++ [c]) p end
  end.

Lemma step_targets_spec c x i before todo : Forall (fun t => tracked (t_str t) x (t_index t)) todo ->
  Forall (fun t => tracked (t_str t) (x ++ [c]) (t_index t)) before ->
  match step_targets c i before todo with
  | inl j => which i (t_str <$> todo) (x ++ [c]) = Some j
  | inr ts => which i (t_str <$> todo) (x ++ [c]) = None /\ t_str <$> ts = t_str <$> before ++ todo /\
              Forall (fun t => tracked (t_str t) (x ++ [c]) (t_index t)) ts
  end.
Proof.
  intros H. revert i before. induction H as [|t todo Ht _ IH]; intros i before Hb; cbn [step_targets].
  - by rewrite app_nil_r.
  - pose proof (step_target_spec c t x Ht) as Hs. rewrite fmap_cons. cbn [which].
    destruct (step_target c t) as [[|] t']; [by rewrite bool_decide_true|]. destruct Hs as [He Hs].
    rewrite bool_decide_false by (by eapply tracked_not_suffix).
    specialize (IH (S i) (before ++ [t'])). destruct (step_targets c (S i) _ todo); [apply IH|].
    + apply Forall_app. split; [done|]. apply Forall_singleton. by rewrite He.
    + destruct IH as (H1 & H2 & H3); [apply Forall_app; split; [done|]; apply Forall_singleton; by rewrite He|].
      split; [done|]. split; [|done]. rewrite H2, !fmap_app, <- app_assoc. cbn. by rewrite He.
Qed.

Lemma bind_eq {W A B} (m : M W A) (k : A -> M W B) w a w' : m w = (Ok a, w') -> (m ≫= k) w = k a w'.
Proof. apply M_bind_ok. Qed.

Section Ok.
Context (LONG : Z) {W : Type} {DV : StreamDev W} {OK : StreamDevOk W}.

Lemma find_loop_spec fuel targets x p w : sd_ok w -> pending w = p -> (length p < fuel)%nat ->
  Forall (fun t => tracked (t_str t) x (t_index t)) targets ->
  exists w', find_loop fuel targets w = (Ok (search (t_str <$> targets) x p).1, w') /\ sd_ok w' /\
    pending w' = (search (t_str <$> targets) x p).2.
Proof.
  revert targets x p w. induction fuel as [|fuel IH]; intros targets x p w Hok Hp Hf Ht; [lia|].
  cbn [find_loop]. destruct p as [|c p].
  - destruct (timedRead_none w Hok Hp) as (w' & E & Hok' & Hp'). rewrite (bind_eq _ _ _ _ _ E). cbn. by exists w'.
  - destruct (timedRead_next c p w Hok Hp) as (w' & E & Hok' & Hp'). rewrite (bind_eq _ _ _ _ _ E).
    pose proof (pending_bytes w Hok) as Hby. rewrite Hp in Hby. apply Forall_cons in Hby as [Hc _].
    rewrite (proj2 (Z.ltb_ge c 0)) by lia. pose proof (step_targets_spec c x 0 [] targets Ht ltac:(constructor)) as Hs.
    cbn [search]. destruct (step_targets c 0 [] targets) as [i|ts].
    + rewrite Hs. by exists w'.
    + destruct Hs as (-> & He & Hs). cbn [app] in He. rewrite <- He. apply IH; [done..|cbn in Hf; lia|done].
Qed.

Lemma first_empty_none i ts : Forall (fun t => t_str t <> []) ts -> first_empty i ts = None.
Proof.
  intros H. revert i. induction H as [|t ts Ht _ IH]; intros i; cbn [first_empty]; [done|]. unfold t_len. destruct (t_str t); [done|]. apply IH.
Qed.

(** C3: The search with its walk back is the plain search: for targets that are
    not empty, [findMulti] returns the index of the first target that the text
    ends with after some byte, at the earliest such byte, and has taken exactly
    the bytes up to it; it returns -1 when all bytes are taken and no target
    occurs. *)
Theorem stream_findMulti_exact ts p w fuel : sd_ok w -> pending w = p -> (length p < fuel)%nat ->
  Forall (fun t => t <> []) ts ->
  exists w', findMulti fuel ((fun t => mk_target t 0) <$> ts) w = (Ok (search ts [] p).1, w') /\
    pending w' = (search ts [] p).2.
Proof.
  intros Hok Hp Hf Hts. unfold findMulti. rewrite first_empty_none by (by apply Forall_fmap).
  destruct (find_loop_spec fuel ((fun t => mk_target t 0) <$> ts) [] p w) as (w' & E & _ & E'); [done..| |].
  - apply Forall_fmap. eapply Forall_impl; [exact Hts|]. intros t Ht. cbn [t_str t_index]. split; [destruct t; [done|cbn; lia]|apply matches_0|].
    intros j Hj Hm. apply suffix_nil_inv in Hm. destruct j, t; cbn in *; lia || done.
  - exists w'. assert (Hid : t_str <$> ((fun t => mk_target t 0) <$> ts) = ts).
    { rewrite <- list_fmap_compose. apply list_fmap_id. }
    by rewrite Hid in E, E'.
Qed.

(** ** Blocks *)
Lemma byte_nonneg c l w : sd_ok w -> pending w = c :: l -> (c <? 0) = false.
Proof.
  intros Hok Hp. pose proof (pending_bytes w Hok) as H. rewrite Hp in H. apply Forall_cons in H as [H _]. apply Z.ltb_ge. lia.
Qed.

Lemma readBytes_spec n w : sd_ok w ->
  exists w', readBytes n w = (Ok (take n (pending w)), w') /\ sd_ok w' /\ pending w' = drop n (pending w).
Proof.
  revert w. induction n as [|n IH]; intros w Hok; cbn [readBytes]; [by exists w|].
  destruct (pending w) as [|c l] eqn:Hp.
  - destruct (timedRead_none w Hok Hp) as (w' & E & Hok' & Hp'). rewrite (bind_eq _ _ _ _ _ E). by exists w'.
  - destruct (timedRead_next c l w Hok Hp) as (w' & E & Hok' & Hp'). rewrite (bind_eq _ _ _ _ _ E).
    rewrite (byte_nonneg c l w Hok Hp). destruct (IH w' Hok') as (w2 & E2 & Hok2 & Hp2).
    rewrite (bind_eq _ _ _ _ _ E2). exists w2. rewrite Hp2, Hp'. done.
Qed.

(** The bytes before the terminator, and what is left after it. *)
Definition stops (terminator : option Z) (c : Z) : bool := match terminator with Some t => c =? t | None => false end.
Fixpoint before (t : option Z) (p : bytes) : bytes :=
  match p with [] => [] | c :: p => if stops t c then [] else c :: before t p end.
Fixpoint after (t : option Z) (p : bytes) : bytes :=
  match p with [] => [] | c :: p => if stops t c then p else after t p end.
Lemma read_string_spec t fuel w : sd_ok w -> (length (pending w) < fuel)%nat ->
  exists w', read_string fuel t w = (Ok (before t (pending w)), w') /\ sd_ok w' /\ pending w' = after t (pending w).
Proof.
  revert w. induction fuel as [|fuel IH]; intros w Hok Hf; [lia|]. cbn [read_string].
  destruct (pending w) as [|c l] eqn:Hp.
  - destruct (timedRead_none w Hok Hp) as (w' & E & Hok' & Hp'). rewrite (bind_eq _ _ _ _ _ E). by exists w'.
  - destruct (timedRead_next c l w Hok Hp) as (w' & E & Hok' & Hp'). rewrite (bind_eq _ _ _ _ _ E).
    rewrite (byte_nonneg c l w Hok Hp). cbn [orb before after]. fold (stops t c).
    destruct (stops t c); [by exists w'|].
    destruct (IH w' Hok') as (w2 & E2 & Hok2 & Hp2); [rewrite Hp'; cbn in Hf; lia|].
    rewrite (bind_eq _ _ _ _ _ E2). exists w2. by rewrite Hp2, Hp'.
Qed.

(** ** Numbers *)
Lemma read_next c l w : sd_ok w -> ready w -> pending w = c :: l ->
  exists w', read w = (Ok c, w') /\ sd_ok w' /\ pending w' = l.
Proof.
  intros Hok Hr Hp. destruct (read_ready w Hok Hr) as (c' & l' & w' & Hp' & E & Hok' & Hl).
  rewrite Hp in Hp'. injection Hp' as <- <-. exists w'. unfold read. by rewrite E.
Qed.

Lemma drain_spec fuel w : sd_ok w -> (length (pending w) < fuel)%nat ->
  exists w' k, drain fuel w = (Ok tt, w') /\ sd_ok w' /\ pending w' = drop k (pending w).
Proof.
  revert w. induction fuel as [|fuel IH]; intros w Hok Hf; [lia|]. cbn [drain].
  pose proof (available_ready w Hok) as Ha. destruct (sd_available w) as [n w1] eqn:E. destruct Ha as (Hok1 & Hp1 & Hr).
  assert (E1 : available w = (Ok n, w1)) by (unfold available; by rewrite E). rewrite (bind_eq _ _ _ _ _ E1).
  destruct (Z.eqb_spec n 0) as [|Hn]; [by exists w1, 0%nat|].
  destruct (read_ready w1 Hok1 (Hr Hn)) as (c & l & w2 & Hp & E2 & Hok2 & Hp2).
  assert (E3 : read w1 = (Ok c, w2)) by (unfold read; by rewrite E2). rewrite (bind_eq _ _ _ _ _ E3).
  rewrite <- Hp1, Hp in *. destruct (IH w2 Hok2) as (w3 & k & E4 & Hok3 & Hp3); [rewrite Hp2; cbn in Hf; lia|].
  exists w3, (S k). by rewrite Hp3, Hp2.
Qed.

(** What can begin a number, and the bytes skipped before it. *)
Definition starts_number (c : Z) : bool := (c =? minus) || is_digit c.
Lemma peekNextDigit_spec junk c l fuel w : sd_ok w -> pending w = junk ++ c :: l ->
  Forall (fun c => starts_number c = false) junk -> starts_number c = true -> (length junk < fuel)%nat ->
  exists w', peekNextDigit fuel SKIP_ALL false w = (Ok c, w') /\ sd_ok w' /\ ready w' /\ pending w' = c :: l.
Proof.
  intros Hok Hp Hj Hc. revert w fuel Hok Hp. induction Hj as [|j junk Hj _ IH]; intros w [|fuel] Hok Hp Hf; try (cbn in Hf; lia);
    cbn [peekNextDigit app] in *.
  - destruct (timedPeek_next c l w Hok Hp) as (w' & E & Hok' & Hp' & Hr). rewrite (bind_eq _ _ _ _ _ E).
    rewrite <- (orb_assoc (c <? 0)). unfold starts_number in Hc. rewrite Hc, orb_true_r. by exists w'.
  - destruct (timedPeek_next j _ w Hok Hp) as (w' & E & Hok' & Hp' & Hr). rewrite (bind_eq _ _ _ _ _ E).
    rewrite (byte_nonneg _ _ w Hok Hp), <- (orb_assoc false). unfold starts_number in Hj. rewrite Hj. cbn [orb andb].
    destruct (read_next _ _ w' Hok' Hr Hp') as (w2 & E2 & Hok2 & Hp2). rewrite (bind_eq _ _ _ _ _ E2).
    apply IH; [done..|cbn in Hf; lia].
Qed.

(** The end of a number: the time is over or another character comes. *)
Definition ends_number (ignore : Z) (l : bytes) : Prop :=
  match l with [] => True | c :: _ => is_digit c = false /\ c <> ignore end.
Lemma peek_end ignore l w : 0 <= ignore -> sd_ok w -> pending w = l -> ends_number ignore l ->
  exists c w', timedPeek w = (Ok c, w') /\ sd_ok w' /\ pending w' = l /\ is_digit c || (c =? ignore) = false.
Proof.
  intros Hi Hok Hp He. destruct l as [|c l].
  - destruct (timedPeek_none w Hok Hp) as (w' & E & Hok' & Hp'). exists (-1), w'. repeat split; [done..|].
    change (is_digit (-1)) with false. apply Z.eqb_neq. lia.
  - destruct (timedPeek_next c l w Hok Hp) as (w' & E & Hok' & Hp' & _). exists c, w'. repeat split; [done..|].
    destruct He as [-> Hn]. by apply Z.eqb_neq.
Qed.

Lemma is_digit_char d : 0 <= d < 10 -> is_digit (print_char d) = true /\ print_char d <> minus /\ print_char d = 48 + d.
Proof. revert d. apply digit_cases. repeat constructor; done. Qed.

Section Ignore.
Context (ignore : Z) (Hig : 0 <= ignore) (Hst : starts_number ignore = false).

Lemma parse_digit d value : 0 <= d < 10 -> 0 <= value -> value * 10 + d + 48 < 2 ^ (LONG - 1) ->
  push_digit LONG value (print_char d) = Some (value * 10 + d).
Proof.
  intros Hd Hv Hb. destruct (is_digit_char d Hd) as (_ & _ & ->). unfold push_digit, in_long. chars.
  rewrite !(proj2 (Z.leb_le _ _)), !(proj2 (Z.ltb_lt _ _)) by lia. cbn. f_equal. lia.
Qed.

Lemma digit_not_ignore c : is_digit c = true -> c <> ignore.
Proof. intros Hdg E. unfold starts_number in Hst. by rewrite <- E, Hdg, orb_true_r in Hst. Qed.

Lemma number_loop_spec ds d neg value fuel rest w : sd_ok w -> ready w ->
  pending w = (print_char <$> d :: ds) ++ rest -> Forall (fun d => 0 <= d < 10) (d :: ds) -> ends_number ignore rest ->
  0 <= value -> value_from 10 value (d :: ds) + 48 < 2 ^ (LONG - 1) -> (length ds < fuel)%nat ->
  exists w', parse_loop LONG fuel ignore neg value (print_char d) w = (Ok (neg, value_from 10 value (d :: ds)), w') /\
    sd_ok w' /\ pending w' = rest.
Proof.
  revert d value fuel w. induction ds as [|e ds IH]; intros d value [|fuel] w Hok Hr Hp Hds He Hv Hb Hf; try (cbn in Hf; lia);
    apply Forall_cons in Hds as [Hd Hds]; destruct (is_digit_char d Hd) as (Hdg & Hm & _);
    cbn [parse_loop value_from] in *; rewrite (proj2 (Z.eqb_neq _ minus)), Hdg by done;
    (rewrite (proj2 (Z.eqb_neq _ ignore)) by (by apply digit_not_ignore));
    pose proof (value_range 10 _ (value * 10 + d) ltac:(lia) ltac:(lia) Hds) as Hge;
    rewrite parse_digit by (cbn [value_from] in *; lia); cbn [fmap option_fmap option_map];
    destruct (read_next _ _ w Hok Hr Hp) as (w1 & E1 & Hok1 & Hp1); rewrite (bind_eq _ _ _ _ _ E1).
  - destruct (peek_end ignore rest w1 Hig Hok1 Hp1 He) as (c & w2 & E2 & Hok2 & Hp2 & Hc).
    rewrite (bind_eq _ _ _ _ _ E2), Hc. by exists w2.
  - destruct (timedPeek_next _ _ w1 Hok1 Hp1) as (w2 & E2 & Hok2 & Hp2 & Hr2). rewrite (bind_eq _ _ _ _ _ E2).
    destruct (is_digit_char e) as (-> & _ & _); [by apply Forall_cons in Hds as [? _]|]. cbn [orb].
    apply IH; [done..|lia|done|cbn in Hf; lia].
Qed.

Lemma parse_sign ds d fuel rest w : sd_ok w -> ready w -> pending w = minus :: (print_char <$> d :: ds) ++ rest ->
  Forall (fun d => 0 <= d < 10) (d :: ds) -> ends_number ignore rest ->
  value_from 10 0 (d :: ds) + 48 < 2 ^ (LONG - 1) -> (length ds + 1 < fuel)%nat ->
  exists w', parse_loop LONG fuel ignore false 0 minus w = (Ok (true, value_from 10 0 (d :: ds)), w') /\
    sd_ok w' /\ pending w' = rest.
Proof.
  intros Hok Hr Hp Hds He Hb Hf. destruct fuel as [|fuel]; [lia|]. cbn [parse_loop].
  assert (Hne : (minus =? ignore) = false).
  { apply Z.eqb_neq. intros E. unfold starts_number in Hst. by rewrite <- E in Hst. }
  rewrite Hne, Z.eqb_refl. destruct (read_next _ _ w Hok Hr Hp) as (w1 & E1 & Hok1 & Hp1). rewrite (bind_eq _ _ _ _ _ E1).
  destruct (timedPeek_next _ _ w1 Hok1 Hp1) as (w2 & E2 & Hok2 & Hp2 & Hr2). rewrite (bind_eq _ _ _ _ _ E2).
  destruct (is_digit_char d) as (-> & _ & _); [by apply Forall_cons in Hds as [? _]|]. cbn [orb].
  apply number_loop_spec; [done..|lia|done|lia].
Qed.

(** A number in the text is parsed; what came with it is dropped. *)
Lemma parseInt_number n junk rest fuel w : sd_ok w -> Z.abs n + 48 < 2 ^ (LONG - 1) ->
  pending w = junk ++ long_text n ++ rest -> Forall (fun c => starts_number c = false) junk -> ends_number ignore rest ->
  (length (pending w) < fuel)%nat ->
  exists w' k, parseInt LONG fuel SKIP_ALL ignore w = (Ok n, w') /\ sd_ok w' /\ pending w' = drop k rest.
Proof.
  intros Hok Hn Hp Hj He Hf. unfold parseInt. unfold long_text in Hp.
  pose proof (digits_range 10 (Z.abs n) ltac:(lia) ltac:(lia)) as Hds. pose proof (digits_ne 10 (Z.abs n) ltac:(lia) ltac:(lia)) as Hne.
  pose proof (digits_value 10 (Z.abs n) ltac:(lia) ltac:(lia)) as Hval. unfold value in Hval.
  destruct (digits 10 (Z.abs n)) as [|d ds]; [done|]. pose proof Hds as [Hd _]%Forall_cons.
  destruct (is_digit_char d Hd) as (Hdg & _ & _). rewrite Hp, !length_app in Hf. rewrite length_fmap in Hf. cbn [length] in Hf.
  destruct (Z.ltb_spec n 0) as [Hneg|Hpos]; cbn [app length] in *.
  - destruct (peekNextDigit_spec junk minus ((print_char <$> d :: ds) ++ rest) fuel w) as (w1 & E1 & Hok1 & Hr1 & Hp1); [done..|lia|].
    rewrite (bind_eq _ _ _ _ _ E1). change (minus <? 0) with false. cbv iota.
    destruct (parse_sign ds d fuel rest w1) as (w2 & E2 & Hok2 & Hp2); [done..|lia|lia|]. rewrite (bind_eq _ _ _ _ _ E2).
    destruct (drain_spec fuel w2 Hok2) as (w3 & k & E3 & Hok3 & Hp3); [rewrite Hp2; lia|]. rewrite (bind_eq _ _ _ _ _ E3).
    exists w3, k. rewrite Hp3, Hp2. split; [|done]. unfold mret, M_ret. do 2 f_equal. lia.
  - destruct (peekNextDigit_spec junk (print_char d) ((print_char <$> ds) ++ rest) fuel w) as (w1 & E1 & Hok1 & Hr1 & Hp1);
      [done..|unfold starts_number; by rewrite Hdg, orb_true_r|lia|].
    rewrite (bind_eq _ _ _ _ _ E1), (byte_nonneg _ _ w1 Hok1 Hp1).
    destruct (number_loop_spec ds d false 0 fuel rest w1) as (w2 & E2 & Hok2 & Hp2); [done..|lia|lia|]. rewrite (bind_eq _ _ _ _ _ E2).
    destruct (drain_spec fuel w2 Hok2) as (w3 & k & E3 & Hok3 & Hp3); [rewrite Hp2; lia|]. rewrite (bind_eq _ _ _ _ _ E3).
    exists w3, k. rewrite Hp3, Hp2. split; [|done]. unfold mret, M_ret. do 2 f_equal. lia.
Qed.
End Ignore.

(** C32: The text that [print] sends for a number of type [long], received by a
    stream after any text without digits and minus signs and before any text that
    does not go on with a digit or with the byte 1 ([NO_IGNORE_CHAR], which
    [parseInt] skips inside a number), makes [parseInt] return that number; nothing
    before the end of the number is left in the stream.  The numbers whose magnitude
    is within 48 of 2^(n-1), for a type of n bits, are excepted at both ends: on
    them the sum inside [parseInt] overflows. *)
Theorem stream_print_parse {W' : Type} {P : PrintDev W'} {K : PrintSink W'} (out : W') n junk rest w fuel :
  0 < LONG -> Z.abs n + 48 < 2 ^ (LONG - 1) -> sd_ok w -> pending w = junk ++ long_text n ++ rest ->
  Forall (fun c => starts_number c = false) junk -> ends_number NO_IGNORE_CHAR rest -> (length (pending w) < fuel)%nat ->
  exists out' w' k, print_l LONG n 10 out = (Ok (Z.of_nat (length (long_text n))), out') /\
    sent out' = sent out ++ long_text n /\
    parseInt LONG fuel SKIP_ALL NO_IGNORE_CHAR w = (Ok n, w') /\ pending w' = drop k rest.
Proof.
  intros HL Hn Hok Hp Hj He Hf. destruct (print_l_sent LONG HL n out) as (out' & E & Hs); [lia|].
  destruct (parseInt_number NO_IGNORE_CHAR ltac:(done) ltac:(done) n junk rest fuel w) as (w' & k & E' & _ & Hp'); [done..|].
  by exists out', w', k.
Qed.
End Ok.
End ArduinoStream.

(** * The timed functions of [Stream], which poll

    [timedRead] and [timedPeek] call [read] or [peek] until a byte comes or
    [millis] says that the time is over. *)
Module Polling.
Import PiClock.

(** [read], [peek] and [available] of a subclass, and the time of the system in
    nanoseconds. *)
Class Source (W : Type) : Type := {
  src_read : W -> Z * W;
  src_peek : W -> Z * W;
  src_available : W -> Z * W;
  src_gettime : W -> Z * W }.

Section Timed.
(** The number of bits of [long], the clock object and [_timeout]. *)
Context (LONG : Z) (clk : clock) (_timeout : Z) {W : Type} {SR : Source W}.
Definition millis (w : W) : Z * W :=
  let '(ns, w) := src_gettime w in (PiClock.millis LONG clk (timespec_of ns), w).

Fixpoint timed_loop (fuel : nat) (get : W -> Z * W) (startMillis : Z) (w : W) : outcome Z * W :=
  match fuel with
  | 0%nat => (Throw OutOfFuel, w)
  | S fuel =>
      let '(c, w) := get w in
      if 0 <=? c then (Ok c, w)
      else let '(t, w) := millis w in
           if ulong LONG (t - startMillis) <? _timeout then timed_loop fuel get startMillis w else (Ok (-1), w)
  end.
Definition poll_read (fuel : nat) (w : W) : outcome Z * W :=
  let '(startMillis, w) := millis w in timed_loop fuel src_read startMillis w.
Definition poll_peek (fuel : nat) (w : W) : outcome Z * W :=
  let '(startMillis, w) := millis w in timed_loop fuel src_peek startMillis w.
End Timed.

(** What a source promises: bytes arrive at given times, [read] and [peek] give
    the first one that has arrived; a call takes at most [lag] nanoseconds and
    reading the time takes at least [tick]. *)
Class SourceOk (W : Type) `{Source W} : Type := {
  now : W -> Z;
  arrivals : W -> list (Z * Z);
  lag : Z;
  tick : Z;
  tick_pos : 0 < tick <= lag;
  arrivals_bytes w : Forall (fun a => 0 <= a.2 < 256) (arrivals w);
  gettime_law w : exists w', src_gettime w = (now w, w') /\ arrivals w' = arrivals w /\
    now w + tick <= now w' <= now w + lag;
  read_law w : let '(c, w') := src_read w in now w <= now w' <= now w + lag /\
    match arrivals w with
    | (t, b) :: l => if t <=? now w then c = b /\ arrivals w' = l else c = -1 /\ arrivals w' = arrivals w
    | [] => c = -1 /\ arrivals w' = []
    end;
  peek_law w : let '(c, w') := src_peek w in now w <= now w' <= now w + lag /\ arrivals w' = arrivals w /\
    c = match arrivals w with (t, b) :: _ => if t <=? now w then b else -1 | [] => -1 end;
  available_law w : let '(n, w') := src_available w in now w <= now w' /\ arrivals w' = arrivals w /\
    (n <> 0 -> match arrivals w with (t, _) :: _ => t <= now w' | [] => False end) }.

Section Proofs.
Context (LONG : Z) (clk : clock) (_timeout : Z) {W : Type} {SR : Source W} {SO : SourceOk W}.
Context (HL : 0 < LONG <= 64) (Ht : 0 <= _timeout).
Context (Hwrap : _timeout * 10 ^ 6 + 2 * lag < (2 ^ LONG - 1) * 10 ^ 6).
Context (fuel : nat) (Hfuel : _timeout * 10 ^ 6 < tick * (Z.of_nat fuel - 1)).

(** The next byte has arrived. *)
Definition arrived (w : W) : Prop := match arrivals w with (t, _) :: _ => t <= now w | [] => False end.

(** One call of [read] or [peek], as the loop sees it: [take] is how many bytes
    it removes. *)
Definition getter (get : W -> Z * W) (take : nat) : Prop := forall w, let '(c, w') := get w in
  now w <= now w' <= now w + lag /\
  ((arrived w /\ arrivals w' = drop take (arrivals w) /\ Some c = (arrivals w).*2 !! 0%nat /\ 0 <= c) \/
   (~ arrived w /\ arrivals w' = arrivals w /\ c = -1)).

Lemma getter_read : getter src_read 1.
Proof.
  intros w. pose proof (read_law w) as Hr. pose proof (arrivals_bytes w) as Hb. destruct (src_read w) as [c w']. destruct Hr as [Hn Hr].
  split; [done|]. unfold arrived. destruct (arrivals w) as [|[t b] l]; [right; destruct Hr; auto|].
  apply Forall_cons in Hb as [Hb _]. cbn in Hb. destruct (Z.leb_spec t (now w)); destruct Hr as [-> ->]; [left|right].
  - repeat split; done || lia.
  - repeat split; [lia|done..].
Qed.
Lemma getter_peek : getter src_peek 0.
Proof.
  intros w. pose proof (peek_law w) as Hr. pose proof (arrivals_bytes w) as Hb. destruct (src_peek w) as [c w']. destruct Hr as (Hn & Ha & ->).
  split; [done|]. unfold arrived. destruct (arrivals w) as [|[t b] l]; [right; auto|].
  apply Forall_cons in Hb as [Hb _]. cbn in Hb. destruct (Z.leb_spec t (now w)); [left|right].
  - repeat split; done || lia.
  - repeat split; [lia|done..].
Qed.

(** How long a byte may take so that the call cannot miss it. *)
Definition grace : Z := (_timeout - 1) * 10 ^ 6 - 2 * lag.

Lemma ms_bounds a b : a / 10 ^ 6 - b / 10 ^ 6 < (a - b) / 10 ^ 6 + 2.
Proof.
  pose proof (Z.div_mod a (10 ^ 6) ltac:(lia)). pose proof (Z.mod_pos_bound a (10 ^ 6) ltac:(lia)).
  pose proof (Z.div_mod b (10 ^ 6) ltac:(lia)). pose proof (Z.mod_pos_bound b (10 ^ 6) ltac:(lia)).
  pose proof (Z.div_mod (a - b) (10 ^ 6) ltac:(lia)). pose proof (Z.mod_pos_bound (a - b) (10 ^ 6) ltac:(lia)). lia.
Qed.

(** The test of the loop, on the times themselves. *)
Lemma time_test ns0 t : ns0 <= t -> t <= ns0 + _timeout * 10 ^ 6 + 2 * lag ->
  (ulong LONG (PiClock.millis LONG clk (timespec_of t) - PiClock.millis LONG clk (timespec_of ns0)) <? _timeout) =
  (t / 10 ^ 6 - ns0 / 10 ^ 6 <? _timeout).
Proof.
  intros H1 H2. rewrite millis_elapsed by lia. unfold ulong. rewrite Z.mod_small; [done|].
  pose proof (Z.div_le_mono ns0 t (10 ^ 6) ltac:(lia) H1).
  split; [lia|]. assert ((t - ns0) / 10 ^ 6 < 2 ^ LONG - 1) by (apply Z.div_lt_upper_bound; lia).
  pose proof (ms_bounds t ns0). lia.
Qed.

Lemma timed_loop_spec get take n ns0 w : getter get take -> ns0 <= now w -> now w <= ns0 + _timeout * 10 ^ 6 + lag ->
  ns0 + _timeout * 10 ^ 6 - now w < tick * (Z.of_nat n - 1) -> (0 < n)%nat ->
  exists c w', timed_loop LONG clk _timeout n get (PiClock.millis LONG clk (timespec_of ns0)) w = (Ok c, w') /\
    now w <= now w' <= ns0 + _timeout * 10 ^ 6 + 3 * lag /\
    ((arrived w' \/ take <> 0%nat) /\ arrivals w' = drop take (arrivals w) /\ Some c = (arrivals w).*2 !! 0%nat /\
       match arrivals w with (t, _) :: _ => t <= now w' | [] => False end \/
     c = -1 /\ arrivals w' = arrivals w /\ match arrivals w with (t, _) :: _ => ns0 + grace < t | [] => True end).
Proof.
  intros Hg. revert w. induction n as [|n IH]; intros w H0 H1 Hm Hn; [lia|]. cbn [timed_loop].
  specialize (Hg w) as Hw. destruct (get w) as [c w1]. destruct Hw as [Hn1 [(Ha & Hd & Hc & Hp)|(Ha & Hd & ->)]].
  - rewrite (proj2 (Z.leb_le 0 c)) by lia. exists c, w1. split; [done|]. split; [lia|]. left. unfold arrived in *.
    destruct (arrivals w) as [|[t b] l]; [done|]. split; [|repeat split; done || lia].
    destruct take; [left; rewrite Hd; cbn; lia|by right].
  - change (0 <=? -1) with false. cbv iota. unfold millis at 1. destruct (gettime_law w1) as (w2 & -> & Ha2 & Hn2).
    pose proof tick_pos. rewrite time_test by lia. destruct (Z.ltb_spec (now w1 / 10 ^ 6 - ns0 / 10 ^ 6) _timeout) as [Hlt|Hge].
    + assert (now w1 < ns0 + _timeout * 10 ^ 6).
      { pose proof (Z.div_mod (now w1) (10 ^ 6) ltac:(lia)). pose proof (Z.mod_pos_bound (now w1) (10 ^ 6) ltac:(lia)).
        pose proof (Z.div_mod ns0 (10 ^ 6) ltac:(lia)). pose proof (Z.mod_pos_bound ns0 (10 ^ 6) ltac:(lia)). lia. }
      destruct (IH w2) as (c & w3 & -> & Hn3 & Hr); [lia..|nia|destruct n; [nia|lia]|].
      exists c, w3. rewrite Ha2, Hd in Hr. split; [done|]. split; [lia|done].
    + exists (-1), w2. split; [done|]. split; [lia|]. right. split; [done|]. split; [by rewrite Ha2|].
      unfold arrived in Ha. destruct (arrivals w) as [|[t b] l]; [done|].
      assert (ns0 + (_timeout - 1) * 10 ^ 6 < now w1).
      { pose proof (Z.div_mod (now w1) (10 ^ 6) ltac:(lia)). pose proof (Z.mod_pos_bound (now w1) (10 ^ 6) ltac:(lia)).
        pose proof (Z.div_mod ns0 (10 ^ 6) ltac:(lia)). pose proof (Z.mod_pos_bound ns0 (10 ^ 6) ltac:(lia)). lia. }
      unfold grace. lia.
Qed.

Lemma timed_spec get take w : getter get take ->
  exists c w', (let '(s, w1) := millis LONG clk w in timed_loop LONG clk _timeout fuel get s w1) = (Ok c, w') /\
    now w <= now w' <= now w + _timeout * 10 ^ 6 + 3 * lag /\
    ((arrived w' \/ take <> 0%nat) /\ arrivals w' = drop take (arrivals w) /\ Some c = (arrivals w).*2 !! 0%nat /\
       match arrivals w with (t, _) :: _ => t <= now w' | [] => False end \/
     c = -1 /\ arrivals w' = arrivals w /\ match arrivals w with (t, _) :: _ => now w + grace < t | [] => True end).
Proof.
  intros Hg. unfold millis. destruct (gettime_law w) as (w1 & -> & Ha & Hn). pose proof tick_pos.
  destruct (timed_loop_spec get take fuel (now w) w1 Hg) as (c & w' & -> & Hn' & Hr); [lia..|nia|destruct fuel; [nia|lia]|].
  exists c, w'. rewrite Ha in Hr. split; [done|]. split; [lia|done].
Qed.

(** [timedRead] always returns, at most its timeout and the duration of
    three calls after it was called, also when the millisecond counter wraps; it
    returns the next byte when that arrives a millisecond and two calls before
    the time is over, and -1 without taking a byte when it returns none. *)
Theorem polling_timedRead_returns w :
  exists c w', poll_read LONG clk _timeout fuel w = (Ok c, w') /\ now w' <= now w + _timeout * 10 ^ 6 + 3 * lag /\
    match arrivals w with
    | (t, b) :: l => (t <= now w + grace -> c = b /\ arrivals w' = l) /\ (c = -1 -> arrivals w' = arrivals w)
    | [] => c = -1 /\ arrivals w' = []
    end.
Proof.
  destruct (timed_spec src_read 1 w getter_read) as (c & w' & E & Hn & Hr). exists c, w'. split; [exact E|]. split; [lia|].
  pose proof (arrivals_bytes w) as Hb. destruct (arrivals w) as [|[t b] l].
  - destruct Hr as [(_ & _ & Hc & _)|(-> & Ha & _)]; done.
  - apply Forall_cons in Hb as [Hb _]. cbn in Hb.
    destruct Hr as [(_ & Ha & Hc & _)|(-> & Ha & Hg)]; cbn in *; [injection Hc as ->; split; [done|lia]|].
    split; [lia|done].
Qed.

(** ** A source whose bytes come without long gaps is a stream *)
Fixpoint punctual (from : Z) (l : list (Z * Z)) : Prop :=
  match l with [] => True | (t, _) :: l => t <= from + grace /\ punctual t l end.
Lemma punctual_later from from' l : from <= from' -> punctual from l -> punctual from' l.
Proof. destruct l as [|[t b] l]; cbn; [done|]. intros ? []. split; [lia|done]. Qed.

Instance polling_stream : StreamDev W := {|
  sd_read := src_read;
  sd_available := src_available;
  sd_timedRead := poll_read LONG clk _timeout fuel;
  sd_timedPeek := poll_peek LONG clk _timeout fuel |}.

Lemma arrivals_next w c l : (arrivals w).*2 = c :: l -> exists t l', arrivals w = (t, c) :: l' /\ l'.*2 = l.
Proof. destruct (arrivals w) as [|[t b] l']; cbn; [done|]. intros [= -> <-]. eauto. Qed.
Lemma arrivals_none w : (arrivals w).*2 = [] -> arrivals w = [].
Proof. by destruct (arrivals w). Qed.

Definition polling_ok : StreamDevOk W.
Proof.
  refine {| pending w := (arrivals w).*2; sd_ok w := punctual (now w) (arrivals w); ready := arrived |}; cbn.
  - intros w _. rewrite Forall_fmap. apply arrivals_bytes.
  - intros c l w Hok Hp. apply arrivals_next in Hp as (t & l' & Ha & <-). rewrite Ha in Hok. destruct Hok as [Hle0 Hok].
    destruct (timed_spec src_read 1 w getter_read) as (c' & w' & E & Hn & Hr). rewrite Ha in Hr.
    destruct Hr as [(_ & Ha' & [= ->] & Hle)|(_ & _ & Hg)]; [|lia]. exists w'. split; [exact E|]. cbn in Ha'. rewrite Ha'.
    split; [by eapply punctual_later|done].
  - intros w Hok Hp. apply arrivals_none in Hp.
    destruct (timed_spec src_read 1 w getter_read) as (c' & w' & E & Hn & Hr). rewrite Hp in Hr.
    destruct Hr as [(_ & _ & [=] & _)|(-> & Ha' & _)]. exists w'. by rewrite Ha'.
  - intros c l w Hok Hp. apply arrivals_next in Hp as (t & l' & Ha & <-). rewrite Ha in Hok.
    destruct (timed_spec src_peek 0 w getter_peek) as (c' & w' & E & Hn & Hr). rewrite Ha in Hr.
    destruct Hr as [([Har|[]] & Ha' & [= ->] & Hle)|(_ & _ & Hg)]; [|done|destruct Hok; lia]. exists w'. split; [exact E|].
    cbn in Ha'. rewrite Ha'. split; [|done]. apply (punctual_later (now w)); [lia|done].
  - intros w Hok Hp. apply arrivals_none in Hp.
    destruct (timed_spec src_peek 0 w getter_peek) as (c' & w' & E & Hn & Hr). rewrite Hp in Hr.
    destruct Hr as [(_ & _ & [=] & _)|(-> & Ha' & _)]. exists w'. by rewrite Ha'.
  - intros w Hok Har. pose proof (getter_read w) as Hg. destruct (src_read w) as [c w'].
    destruct Hg as [Hn [(_ & Ha & Hc & _)|[Hno _]]]; [|done]. unfold arrived in Har.
    destruct (arrivals w) as [|[t b] l]; [done|]. cbn in *. injection Hc as ->. exists b, l.*2, w'. rewrite Ha.
    repeat split. destruct Hok as [_ Hok]. apply (punctual_later t); [lia|done].
  - intros w Hok. pose proof (available_law w) as Hg. destruct (src_available w) as [n w']. destruct Hg as (Hn & Ha & Hr).
    unfold arrived. rewrite Ha. split; [by apply (punctual_later (now w))|]. done.
Defined.
End Proofs.

(** ** A keyboard buffer: bytes with arrival times, and a clock of one millisecond *)
Module Demo.
Import ArduinoPrint ArduinoPrint.Demo ArduinoStream.
Record world : Type := mk_world { time : Z; bytes_at : list (Z * Z) }.
Definition first (w : world) : option (Z * list (Z * Z)) :=
  match bytes_at w with (t, b) :: l => if t <=? time w then Some (u8 b, l) else None | [] => None end.
#[export] Instance demo_source : Source world := {|
  src_read w := match first w with Some (b, l) => (b, mk_world (time w) l) | None => (-1, w) end;
  src_peek w := match first w with Some (b, _) => (b, w) | None => (-1, w) end;
  src_available w := (match first w with Some _ => 1 | None => 0 end, w);
  src_gettime w := (time w, mk_world (time w + 10 ^ 6) (bytes_at w)) |}.
#[export] Instance demo_source_ok : SourceOk world.
Proof.
  refine {| now := time; arrivals w := (fun a => (a.1, u8 a.2)) <$> bytes_at w; lag := 10 ^ 6; tick := 10 ^ 6 |}; cbn.
  - lia.
  - intros w. apply Forall_fmap, Forall_true. intros a. apply (u8_bound a.2).
  - intros w. eexists. split; [done|]. cbn. split; [done|lia].
  - intros w. unfold first. destruct (bytes_at w) as [|[t b] l] eqn:E; cbn; rewrite ?E; [repeat split; lia|].
    destruct (t <=? time w); cbn; rewrite ?E; repeat split; lia.
  - intros w. unfold first. destruct (bytes_at w) as [|[t b] l] eqn:E; cbn; rewrite ?E; [repeat split; lia|].
    destruct (t <=? time w); cbn; rewrite ?E; repeat split; lia.
  - intros w. unfold first. destruct (bytes_at w) as [|[t b] l] eqn:E; cbn; rewrite ?E; [repeat split; lia|].
    destruct (Z.leb_spec t (time w)); cbn; rewrite ?E; repeat split; try lia; done.
Defined.

(** A line that arrives at two milliseconds per byte. *)
Fixpoint typed (t : Z) (s : bytes) : list (Z * Z) :=
  match s with [] => [] | b :: s => (t, b) :: typed (t + 2 * 10 ^ 6) s end.
Definition line (s : bytes) : world := mk_world 0 (typed (5 * 10 ^ 6) s).
Definition clk0 : clock := new (timespec_of 0).
#[export] Instance demo_stream : StreamDev world := polling_stream 64 clk0 1000 1002.
#[export] Instance demo_stream_ok : StreamDevOk world.
Proof. apply (polling_ok 64 clk0 1000); [lia|lia|reflexivity|reflexivity]. Defined.

Lemma polling_timedRead_returns_witness :
  exists c w', Polling.poll_read 64 clk0 1000 1002 (line (text "A")) = (Ok c, w') /\ now w' <= now (line (text "A")) + 1000 * 10 ^ 6 + 3 * lag /\
    match arrivals (line (text "A")) with
    | (t, b) :: l => (t <= now (line (text "A")) + grace 1000 -> c = b /\ arrivals w' = l) /\
                     (c = -1 -> arrivals w' = arrivals (line (text "A")))
    | [] => c = -1 /\ arrivals w' = []
    end.
Proof. apply (polling_timedRead_returns 64 clk0 1000); [lia|lia|reflexivity|reflexivity]. Defined.

Lemma stream_findMulti_exact_witness : exists w',
  findMulti 20 ((fun t => mk_target t 0) <$> [text "1112"]) (line (text "11112x")) =
    (Ok (search [text "1112"] [] (text "11112x")).1, w') /\
  pending w' = (search [text "1112"] [] (text "11112x")).2.
Proof.
  apply stream_findMulti_exact.
  - repeat (split; [vm_compute; discriminate|]). exact I.
  - reflexivity.
  - cbn. lia.
  - apply Forall_singleton. discriminate.
Defined.

Lemma stream_print_parse_witness : exists out' w' k,
  print_l 64 (-40) 10 ([] : bytes) = (Ok (Z.of_nat (length (long_text (-40)))), out') /\ sent out' = sent ([] : bytes) ++ long_text (-40) /\
  parseInt 64 20 SKIP_ALL NO_IGNORE_CHAR (line (text "t=-40 C")) = (Ok (-40), w') /\ pending w' = drop k (text " C").
Proof.
  apply (stream_print_parse 64 ([] : bytes) (-40) (text "t=") (text " C") (line (text "t=-40 C")) 20); try reflexivity.
  - repeat (split; [vm_compute; discriminate|]). exact I.
  - repeat constructor.
  - split; [reflexivity|discriminate].
  - cbn. lia.
Defined.

(** Bytes that are all there at once. *)
Definition burst (s : bytes) : world := mk_world 0 ((fun b => (0, b)) <$> s).
(** [parseInt] drops everything that has arrived with the number: of two numbers
    in one line the second is lost. *)
Example parseInt_drops_rest : let '(r, w) := parseInt 64 20 SKIP_ALL NO_IGNORE_CHAR (burst (text "12 34")) in
  r = Ok 12 /\ pending w = [].
Proof. vm_compute. split; reflexivity. Qed.
(** The largest number of the type overflows while it is read. *)
Example parseInt_overflow :
  (parseInt 64 30 SKIP_ALL NO_IGNORE_CHAR (burst (long_text (2 ^ 63 - 1)))).1 = Throw UB.
Proof. vm_compute. reflexivity. Qed.
Example parseFloat_half : (parseFloat 64 20 SKIP_ALL NO_IGNORE_CHAR (burst (text " 2.5"))).1 =
  Ok (SpecFloat.S754_finite false 10485760 (-22)).
Proof. vm_compute. reflexivity. Qed.
End Demo.
End Polling.
