(* ===== verification/SpiDev.v ===== *)
(** * The SPI bus master, src/spi/spidev.cpp and src/arduino/spi/SPI.cpp

    [spidev] is [SpiDev::Private] and [st] the object, the memory of the process,
    the [Transfer] objects that live in it, and the kernel.  The queue of an object
    holds the addresses of [Transfer] objects, as in the source, which are read when
    the transfer is made.  The calls of the kernel are the class [SpiOs]; a
    transfer gets the messages with their pointers and the memory, and what it does
    to the memory is its own affair, of which [SpiOsOk] states what the header of
    the driver documents.  [Cs] is the control of one chip select pin and
    [SPIClass] the Arduino interface. *)
From S2P Require Import Prelude Double IoDevice Mmio Gpio2 GpioPin.
Import Flags IoDevice.

(** The parameters of a bus: mode, highest speed, word length, bit order. *)
Inductive param : Type := PMode | PSpeed | PBits | PLsbFirst.
#[export] Instance param_eq_dec : EqDecision param.
Proof. solve_decision. Defined.

(** The bytes of the process by their addresses, of which 0 is the null pointer. *)
Abbreviation memory := (gmap Z Z).
Fixpoint load (m : memory) (a : Z) (n : nat) : option (list Z) :=
  match n with
  | 0%nat => Some []
  | S n => b ← m !! a; l ← load m (a + 1) n; Some (b :: l)
  end.
Fixpoint store (a : Z) (l : list Z) (m : memory) : memory :=
  match l with [] => m | b :: l => <[a := b]> (store (a + 1) l m) end.
Fixpoint unstore (a : Z) (n : nat) (m : memory) : memory :=
  match n with 0%nat => m | S n => delete a (unstore (a + 1) n m) end.

(** [struct spi_ioc_transfer]; its other members are 0. *)
Record spi_msg : Type := mk_msg {
  tx_buf : Z; rx_buf : Z; m_len : Z; speed_hz : Z; delay_usecs : Z; bits_per_word : Z; cs_change : Z }.

Class SpiOs (W : Type) : Type := {
  spi_open : string -> Z -> W -> Z * W;
  spi_close : Z -> W -> Z * W;
  spi_wr : Z -> param -> Z -> W -> Z * W;
  spi_rd : Z -> param -> W -> (Z * Z) * W;
  spi_message : Z -> list spi_msg -> memory -> W -> (Z * memory) * W;
  spi_errno : W -> Z;
  spi_exists : string -> W -> bool }.

Module SpiDev.

Record Settings : Type := mk_settings { mode : Z; bitOrder : bool; bitsPerWord : Z; speedHz : Z }.
#[export] Instance Settings_eq_dec : EqDecision Settings.
Proof. solve_decision. Defined.
Definition MsbFirst : bool := true.
Definition SPI_NO_CS : Z := 0x40.
Definition default_settings : Settings := mk_settings 0 MsbFirst 8 10000000.

(** [Transfer]: the buffers are addresses of the memory. *)
Record Transfer : Type := mk_transfer {
  txBuf : Z; rxBuf : Z; len : Z; t_speedHz : Z; t_bits : Z; releaseCsAfter : bool; delayBeforeReleaseCs : Z }.
Definition new_transfer (tx rx n : Z) : Transfer := mk_transfer tx rx n 0 0 false 0.

Record info : Type := mk_info { busId : Z; csId : Z; path : string }.

Record spidev : Type := mk_spidev { base : iodevice; fd : Z; settings : Settings; bus : info; tstack : list Z }.

Section Dev.
Context {W : Type} {K : SpiOs W}.
(** The path of a bus, which the board database gives the form of. *)
Context (busPath : Z -> Z -> string).

Record st : Type := mk_st { dev : spidev; objs : gmap Z Transfer; mem : memory; w : W }.

Definition set_base (f : iodevice -> iodevice) (s : st) : st :=
  let d := dev s in mk_st (mk_spidev (f (base d)) (fd d) (settings d) (bus d) (tstack d)) (objs s) (mem s) (w s).
Definition set_fd (n : Z) (s : st) : st :=
  let d := dev s in mk_st (mk_spidev (base d) n (settings d) (bus d) (tstack d)) (objs s) (mem s) (w s).
Definition set_settings (x : Settings) (s : st) : st :=
  let d := dev s in mk_st (mk_spidev (base d) (fd d) x (bus d) (tstack d)) (objs s) (mem s) (w s).
Definition set_bus (b : info) (s : st) : st :=
  let d := dev s in mk_st (mk_spidev (base d) (fd d) (settings d) b (tstack d)) (objs s) (mem s) (w s).
Definition set_tstack (t : list Z) (s : st) : st :=
  let d := dev s in mk_st (mk_spidev (base d) (fd d) (settings d) (bus d) t) (objs s) (mem s) (w s).
Definition set_objs (o : gmap Z Transfer) (s : st) : st := mk_st (dev s) o (mem s) (w s).
Definition set_mem (m : memory) (s : st) : st := mk_st (dev s) (objs s) m (w s).
Definition set_w (x : W) (s : st) : st := mk_st (dev s) (objs s) (mem s) x.

Definition isOpen (s : st) : bool := IoDevice.isOpen (base (dev s)).
Definition setError (s : st) : st := set_base (setError_errno (spi_errno (w s))) s.

(** ** [SpiDev::Private] *)
Definition wr (p : param) (v : Z) (s : st) : st :=
  if isOpen s then
    let '(r, x) := spi_wr (fd (dev s)) p v (w s) in
    let s := set_w x s in if r <? 0 then setError s else s
  else s.
Definition pSetMode (s : st) : st := wr PMode (mode (settings (dev s))) s.
Definition pSetSpeedHz (s : st) : st := wr PSpeed (speedHz (settings (dev s))) s.
Definition pSetBitsPerWord (s : st) : st := wr PBits (bitsPerWord (settings (dev s))) s.
Definition pSetBitOrder (s : st) : st := wr PLsbFirst (if bitOrder (settings (dev s)) then 0 else 1) s.

Definition rd (p : param) (f : Z -> Settings -> Settings) (s : st) : st :=
  if isOpen s then
    let '((r, v), x) := spi_rd (fd (dev s)) p (w s) in
    let s := set_w x s in if r <? 0 then setError s else set_settings (f v (settings (dev s))) s
  else s.
Definition getMode (s : st) : st := rd PMode (fun v x => mk_settings v (bitOrder x) (bitsPerWord x) (speedHz x)) s.
Definition getSpeedHz (s : st) : st := rd PSpeed (fun v x => mk_settings (mode x) (bitOrder x) (bitsPerWord x) v) s.
Definition getBitsPerWord (s : st) : st := rd PBits (fun v x => mk_settings (mode x) (bitOrder x) v (speedHz x)) s.
Definition getBitOrder (s : st) : st := rd PLsbFirst (fun v x => mk_settings (mode x) (v =? 0) (bitsPerWord x) (speedHz x)) s.

Definition getSettings (s : st) : st := getBitsPerWord (getBitOrder (getSpeedHz (getMode s))).
Definition pSetSettings (s : st) : st := pSetBitsPerWord (pSetBitOrder (pSetSpeedHz (pSetMode s))).

(** ** Opening, closing and the choice of a bus *)
Definition open (m : Z) (s : st) : bool * st :=
  if negb (isOpen s) then
    let s := set_tstack [] s in
    let '(n, x) := spi_open (path (bus (dev s))) (modeToPosixFlags m) (w s) in
    let s := set_w x (set_fd n s) in
    if fd (dev s) <? 0 then (false, setError s)
    else let s := pSetSettings s in
         let s := set_base (fun b => (IoDevice.open m b).2) s in
         (isOpen s, s)
  else (isOpen s, s).

Definition close (s : st) : st :=
  if isOpen s then
    let '(r, x) := spi_close (fd (dev s)) (w s) in
    let s := set_w x s in
    let s := if negb (r =? 0) then setError s else s in
    set_base IoDevice.close (set_fd (-1) s)
  else s.

Definition reopen (s : st) : st :=
  if isOpen s then let m := openMode (base (dev s)) in (open m (close s)).2 else s.

Definition ENOENT : Z := 2.
Definition ENOTCONN : Z := 107.
Definition info_of (b c : Z) : info := mk_info b c (busPath b c).
Definition setBus_info (b : info) : M st unit := fun s =>
  if negb (bool_decide (path (bus (dev s)) = path b)) then
    if negb (spi_exists (path b) (w s)) then (Throw (SystemError ENOENT), s)
    else (Ok tt, reopen (set_bus b s))
  else (Ok tt, s).
Definition setBus (idBus idCs : Z) (s : st) : st :=
  let b := bus (dev s) in
  if negb (busId b =? idBus) || negb (csId b =? idCs) then reopen (set_bus (info_of idBus idCs) s) else s.

(** [Info::setPath]: the numbers whose path it is, the chip select outside. *)
Definition MaxBuses : nat := 32.
Definition MaxCs : nat := 32.
Fixpoint find_bus (b n : nat) (c : Z) (p : string) : option Z :=
  match n with
  | 0%nat => None
  | S n => if bool_decide (busPath (Z.of_nat b) c = p) then Some (Z.of_nat b) else find_bus (S b) n c p
  end.
Fixpoint find_path (c n : nat) (p : string) : option (Z * Z) :=
  match n with
  | 0%nat => None
  | S n => match find_bus 0 MaxBuses (Z.of_nat c) p with
           | Some b => Some (b, Z.of_nat c)
           | None => find_path (S c) n p
           end
  end.
Definition info_setPath (p : string) (i : info) : bool * info :=
  match find_path 0 MaxCs p with Some (b, c) => (true, info_of b c) | None => (false, i) end.
Definition setBusPath (p : string) (s : st) : st :=
  if negb (bool_decide (path (bus (dev s)) = p)) then reopen (set_bus (info_setPath p (bus (dev s))).2 s) else s.

(** ** Settings *)
Definition setSettings (x : Settings) (s : st) : st :=
  if negb (bool_decide (settings (dev s) = x)) then pSetSettings (set_settings x s) else s.
Definition setMode (v : Z) (s : st) : st :=
  let x := settings (dev s) in
  if negb (mode x =? v) then pSetMode (set_settings (mk_settings v (bitOrder x) (bitsPerWord x) (speedHz x)) s) else s.
Definition setSpeedHz (v : Z) (s : st) : st :=
  let x := settings (dev s) in
  if negb (speedHz x =? v) then pSetSpeedHz (set_settings (mk_settings (mode x) (bitOrder x) (bitsPerWord x) v) s) else s.
Definition setBitsPerWord (v : Z) (s : st) : st :=
  let x := settings (dev s) in
  if negb (bitsPerWord x =? v) then pSetBitsPerWord (set_settings (mk_settings (mode x) (bitOrder x) v (speedHz x)) s) else s.
Definition setBitOrder (v : bool) (s : st) : st :=
  let x := settings (dev s) in
  if negb (Bool.eqb (bitOrder x) v) then pSetBitOrder (set_settings (mk_settings (mode x) v (bitsPerWord x) (speedHz x)) s) else s.

(** ** Transfers *)
(** [pushTransfer (t)] keeps the address of its argument. *)
Definition pushTransfer (t : Z) (s : st) : st := set_tstack (tstack (dev s) ++ [t]) s.
Definition clear (s : st) : st := set_tstack [] s.

(** One message from the object a pointer of the queue points to. *)
Definition to_msg (t : Transfer) : spi_msg :=
  mk_msg (txBuf t) (rxBuf t) (len t) (t_speedHz t) (delayBeforeReleaseCs t) (t_bits t) (Z.b2z (releaseCsAfter t)).

(** A pointer of the queue whose object is gone must not be followed. *)
Definition transfer : M st Z := fun s =>
  let s := set_base clearError s in
  if isOpen s then
    match tstack (dev s) with
    | [] => (Ok 0, s)
    | ps =>
        match mapM (fun p => objs s !! p) ps with
        | None => (Throw UB, s)
        | Some ts =>
            let '((r, m), x) := spi_message (fd (dev s)) (to_msg <$> ts) (mem s) (w s) in
            let s := set_w x (set_mem m s) in
            let s := if r <? 0 then setError s else s in
            (Ok r, set_tstack [] s)
        end
    end
  else (Ok (-1), set_base (setError_code ENOTCONN) s).

(** The variant with buffers has a [Transfer] object of its own, at an address where there is none, for as long as
    the call. *)
Definition transfer_buf (tx rx n : Z) : M st Z := fun s =>
  let t := fresh (dom (objs s)) in
  let '(r, s) := transfer (pushTransfer t (set_objs (<[t := new_transfer tx rx n]> (objs s)) s)) in
  (r, set_objs (delete t (objs s)) s).
Definition read (a n : Z) : M st Z := transfer_buf 0 a n.
Definition write (a n : Z) : M st Z := transfer_buf a 0 n.

(** ** What a program does between two transfers *)
Inductive act : Type :=
| Push (p : Z)
| Assign (p : Z) (t : Transfer)
| Destroy (p : Z)
| Store (a : Z) (l : list Z).
Definition act_run (c : act) (s : st) : st :=
  match c with
  | Push p => pushTransfer p s
  | Assign p t => set_objs (<[p := t]> (objs s)) s
  | Destroy p => set_objs (delete p (objs s)) s
  | Store a l => set_mem (store a l (mem s)) s
  end.
Definition act_runs (cs : list act) (s : st) : st := fold_left (fun s c => act_run c s) cs s.
Definition pushes (cs : list act) : list Z := omap (fun c => match c with Push p => Some p | _ => None end) cs.
End Dev.
Arguments st : clear implicits.

(** ** Laws of the kernel

    [params] are the parameters of the bus as the driver has them: a write that
    succeeds changes one, and no other call changes any.  [bus_log] is what the bus
    has carried.  As the header of the driver has it, a call with messages that
    succeeds shifts out, for each of them in their order, the bytes at its transmit
    pointer, or zeros when that is null, and puts as many received bytes at its
    receive pointer unless that is null; the other members of the message say at
    what speed, in which words, and what happens after it.  A call changes no byte
    outside the receive buffers. *)
Record frame : Type := mk_frame {
  f_out : list Z; f_in : list Z; f_speed : Z; f_bits : Z; f_delay : Z; f_release : bool }.
Definition in_rx (c : spi_msg) (a : Z) : Prop := rx_buf c <> 0 /\ rx_buf c <= a < rx_buf c + m_len c.
Definition rx_apart (ms : list spi_msg) : Prop := forall i j c d a,
  ms !! i = Some c -> ms !! j = Some d -> in_rx c a -> in_rx d a -> i = j.
Record carried (m m' : memory) (c : spi_msg) (f : frame) : Prop := {
  carried_out : (if tx_buf c =? 0 then Some (replicate (Z.to_nat (m_len c)) 0) else load m (tx_buf c) (Z.to_nat (m_len c))) = Some (f_out f);
  carried_in : length (f_in f) = Z.to_nat (m_len c);
  carried_stored : rx_buf c <> 0 -> load m' (rx_buf c) (Z.to_nat (m_len c)) = Some (f_in f);
  carried_how : f_speed f = speed_hz c /\ f_bits f = bits_per_word c /\ f_delay f = delay_usecs c /\ f_release f = negb (cs_change c =? 0) }.

Class SpiOsOk (W : Type) `{SpiOs W} : Type := {
  params : W -> param -> Z;
  bus_log : W -> list frame;
  spi_open_params p fl x : params (spi_open p fl x).2 = params x;
  spi_close_params n x : params (spi_close n x).2 = params x;
  spi_wr_params n p v x : let '(r, x') := spi_wr n p v x in
    forall q, params x' q = if (0 <=? r) && bool_decide (p = q) then v else params x q;
  spi_message_params n ms m x : params (spi_message n ms m x).2 = params x;
  spi_message_mem n ms m x : let '((r, m'), _) := spi_message n ms m x in
    dom m' = dom m /\ forall a, Forall (fun c => ~ in_rx c a) ms -> m' !! a = m !! a;
  spi_message_log n ms m x : let '((r, m'), x') := spi_message n ms m x in
    0 <= r -> rx_apart ms -> exists fs, bus_log x' = bus_log x ++ fs /\ Forall2 (carried m m') ms fs }.

(** ** The Arduino interface *)
Module SPIClass.
Section Spi.
Context {W : Type} {K : SpiOs W} (busPath : Z -> Z -> string).

Definition SPISettings (clock : Z) (order : bool) (dataMode : Z) : Settings := mk_settings (Z.lor dataMode SPI_NO_CS) order 8 clock.
Definition default_SPISettings : Settings := SPISettings 4000000 MsbFirst 0.

(** [begin]; the default bus of the object and that of the board. *)
Definition begin (_defaultBus board : info) : M (st W) unit := fun s =>
  if isOpen s then (Ok tt, s)
  else let b := if spi_exists (path _defaultBus) (w s) then _defaultBus else board in
       match setBus_info b s with
       | (Throw e, s) => (Throw e, s)
       | (Ok _, s) => let '(r, s) := open ReadWrite (setSettings default_SPISettings s) in
                      if r then (Ok tt, s) else (Throw (SystemError (spi_errno (w s))), s)
       end.
Definition begin_at (idBus idCs : Z) : M (st W) unit := fun s =>
  if isOpen s then (Ok tt, s)
  else let '(r, s) := open ReadWrite (setSettings default_SPISettings (setBus busPath idBus idCs s)) in
       if r then (Ok tt, s) else (Throw (SystemError (spi_errno (w s))), s).
Definition end_ (s : st W) : st W := close s.
(** [beginTransaction] before it takes the lock. *)
Definition beginTransaction (x : Settings) (s : st W) : st W := setSettings x s.

(** A call with local buffers at the given addresses, [junk] what the receive
    buffer holds before; the buffers are gone when the call returns. *)
Definition with_locals (tx rx : Z) (out junk : list Z) : M (st W) (list Z) := fun s =>
  let n := length out in
  let s := set_mem (store rx junk (store tx out (mem s))) s in
  match transfer_buf tx rx (Z.of_nat n) s with
  | (Throw e, s) => (Throw e, s)
  | (Ok _, s) => (from_option Ok (Throw UB) (load (mem s) rx n), set_mem (unstore rx n (unstore tx n (mem s))) s)
  end.
Definition transfer_byte (tx rx : Z) (data : Z) : M (st W) Z :=
  l ← with_locals tx rx [data] [0]; match l with b :: _ => mret b | [] => throw UB end.
Definition transfer16 (tx rx : Z) (junk : list Z) (data : Z) : M (st W) Z := fun s =>
  let msb_first := bitOrder (settings (dev s)) in
  let hi := u8 (Z.shiftr data 8) in
  let lo := Z.land data 0xFF in
  match with_locals tx rx (if msb_first then [hi; lo] else [lo; hi]) junk s with
  | (Ok [b0; b1], s) => (Ok (u16 (if msb_first then Z.lor (Z.shiftl b0 8) b1 else Z.lor (Z.shiftl b1 8) b0)), s)
  | (Ok _, s) => (Throw UB, s)
  | (Throw e, s) => (Throw e, s)
  end.
(** [transfer (void *, size_t)]: one buffer for both directions. *)
Definition transfer_in_place (a count : Z) : M (st W) Z := transfer_buf a a (u32 count).
Definition setBitOrder_u8 (b : Z) (s : st W) : st W := SpiDev.setBitOrder (negb (b =? 0)) s.
Definition setDataMode (m : Z) (s : st W) : st W := setMode (u8 (Z.lor m SPI_NO_CS)) s.
Definition baud (clockDiv : Z) : option Z := dbl_trunc 0 (2 ^ 32) (dbl_div (dbl_int 16000000) (dbl_int clockDiv)).
Definition setClockDivider (clockDiv : Z) : M (st W) unit := fun s =>
  match baud clockDiv with Some v => (Ok tt, setSpeedHz v s) | None => (Throw UB, s) end.
End Spi.

(** The clock of a divider is the whole quotient, for every divider of one byte. *)
Lemma baud_exact d : 0 < d < 256 -> baud d = Some (16000000 / d).
Proof.
  intros Hd. assert (H : forallb (fun d => bool_decide (baud d = Some (16000000 / d))) (seqZ 1 255) = true) by (vm_compute; reflexivity).
  rewrite forallb_forall in H. eapply bool_decide_eq_true_1, (H d). apply list_elem_of_In, elem_of_seqZ. lia.
Qed.
End SPIClass.

Section Proofs.
Context {W : Type} {K : SpiOs W} {OK : SpiOsOk W}.
Context (busPath : Z -> Z -> string).

Lemma wr_closed p v (s : st W) : isOpen s = false -> wr p v s = s.
Proof. intros H. unfold wr. by rewrite H. Qed.
Lemma pSetSettings_closed (s : st W) : isOpen s = false -> pSetSettings s = s.
Proof.
  intros H. unfold pSetSettings, pSetBitsPerWord, pSetBitOrder, pSetSpeedHz, pSetMode. rewrite !(wr_closed PMode) by done.
  rewrite !(wr_closed PSpeed) by done. rewrite !(wr_closed PLsbFirst) by done. by apply wr_closed.
Qed.

(** Opening a bus never sends the settings of the object: they are written
    before the object counts as open, and the functions that write them do
    nothing on a closed one.  The parameters of the bus stay what they were, and
    the settings the object reports are those it was given. *)
Theorem spi_open_ignores_settings m (s : st W) : isOpen s = false ->
  params (w (open m s).2) = params (w s) /\ settings (dev (open m s).2) = settings (dev s).
Proof.
  intros H. unfold open. rewrite H. cbn [negb]. pose proof (spi_open_params (path (bus (dev s))) (modeToPosixFlags m) (w s)) as Hp.
  destruct s as [[b n x i t] oo mm y]. cbn in *. destruct (spi_open _ _ y) as [n' y']. cbn in *.
  destruct (n' <? 0); [done|]. rewrite pSetSettings_closed by done. cbn. done.
Qed.

(** ** Settings written on an open bus reach the driver *)
Definition value_of (x : Settings) (p : param) : Z :=
  match p with
  | PMode => mode x
  | PSpeed => speedHz x
  | PBits => bitsPerWord x
  | PLsbFirst => if bitOrder x then 0 else 1
  end.
Definition in_sync (s : st W) : Prop := forall p, params (w s) p = value_of (settings (dev s)) p.

Lemma setError_w (s : st W) : w (setError s) = w s /\ dev (setError s) = dev (set_base (setError_errno (spi_errno (w s))) s).
Proof. done. Qed.

Lemma wr_frame p v (s : st W) : isOpen (wr p v s) = isOpen s /\ settings (dev (wr p v s)) = settings (dev s).
Proof.
  unfold wr. destruct (isOpen s) eqn:Ho; [|done]. destruct (spi_wr _ p v (w s)) as [r x]. destruct (r <? 0); [|done].
  split; [|done]. unfold isOpen, setError, set_base, setError_errno in *. cbn. destruct (spi_errno x =? 0); exact Ho.
Qed.

(** One parameter is written, unless an error is left. *)
Lemma wr_params p v (s : st W) : isOpen s = true -> (forall x, spi_errno x <> 0) -> error (base (dev (wr p v s))) = 0 ->
  (forall q, params (w (wr p v s)) q = if bool_decide (p = q) then v else params (w s) q) /\ error (base (dev s)) = 0.
Proof.
  intros Ho Hno. unfold wr. rewrite Ho. pose proof (spi_wr_params (fd (dev s)) p v (w s)) as Hw.
  destruct (spi_wr _ p v (w s)) as [r x]. destruct (Z.ltb_spec r 0) as [Hr|Hr].
  - intros He'. exfalso. cbn in He'. unfold setError_errno in He'. specialize (Hno x). cbn in *.
    rewrite (proj2 (Z.eqb_neq _ _)) in He' by done. cbn in He'. done.
  - intros He. rewrite (proj2 (Z.leb_le 0 r)) in Hw by done. split; [exact Hw|]. done.
Qed.

(** New settings of an open bus are those of the driver when no error is left. *)
Lemma setSettings_sync x (s : st W) : isOpen s = true -> settings (dev s) <> x -> (forall x, spi_errno x <> 0) ->
  error (base (dev (setSettings x s))) = 0 -> in_sync (setSettings x s) /\ settings (dev (setSettings x s)) = x.
Proof.
  intros Ho Hne Hno. unfold setSettings. rewrite bool_decide_false by done. cbn [negb].
  unfold pSetSettings, pSetMode, pSetSpeedHz, pSetBitOrder, pSetBitsPerWord.
  set (s0 := set_settings x s). destruct (wr_frame PMode (mode (settings (dev s0))) s0) as [O1 S1]. set (s1 := wr PMode _ s0) in *.
  destruct (wr_frame PSpeed (speedHz (settings (dev s1))) s1) as [O2 S2]. set (s2 := wr PSpeed _ s1) in *.
  set (b := if bitOrder _ then 0 else 1). destruct (wr_frame PLsbFirst b s2) as [O3 S3]. set (s3 := wr PLsbFirst _ s2) in *.
  destruct (wr_frame PBits (bitsPerWord (settings (dev s3))) s3) as [O4 S4]. intros E4.
  change (isOpen s0) with (isOpen s) in O1. change (settings (dev s0)) with x in S1.
  destruct (wr_params _ _ s3 ltac:(congruence) Hno E4) as [P4 E3]. destruct (wr_params _ _ s2 ltac:(congruence) Hno E3) as [P3 E2].
  destruct (wr_params _ _ s1 ltac:(congruence) Hno E2) as [P2 E1]. destruct (wr_params _ _ s0 ltac:(exact Ho) Hno E1) as [P1 _].
  fold s1 s2 s3 in P1, P2, P3. split; [|congruence]. intros p. rewrite P4, P3, P2, P1. rewrite S4, S3, S2, S1.
  unfold b. rewrite S2, S1. by destruct p.
Qed.

(** ** Memory *)
Lemma lookup_store a l m x : store a l m !! x = if decide (a <= x < a + Z.of_nat (length l)) then l !! Z.to_nat (x - a) else m !! x.
Proof.
  induction l as [|b l IH] in a |- *; cbn [store length]; [case_decide; [lia|done]|].
  destruct (decide (x = a)) as [->|Hne].
  - rewrite lookup_insert_eq, decide_True by lia. by rewrite Z.sub_diag.
  - rewrite lookup_insert_ne, IH by done. case_decide; case_decide; try lia; [|done].
    replace (Z.to_nat (x - a)) with (S (Z.to_nat (x - (a + 1)))) by lia. done.
Qed.
Lemma load_spec m a n l : load m a n = Some l <-> length l = n /\ forall x, a <= x < a + Z.of_nat n -> m !! x = l !! Z.to_nat (x - a).
Proof.
  induction n as [|n IH] in a, l |- *; cbn [load].
  - split; [intros [= <-]; split; [done|lia]|]. by intros [Hl _]; destruct l.
  - split.
    + intros (b & Hb & (l' & Hl' & [= <-])%bind_Some)%bind_Some. apply IH in Hl' as [Hl Hx]. split; [cbn; lia|].
      intros x Hr. destruct (decide (x = a)) as [->|]; [by rewrite Z.sub_diag|].
      rewrite Hx by lia. replace (Z.to_nat (x - a)) with (S (Z.to_nat (x - (a + 1)))) by lia. done.
    + intros [Hl Hx]. destruct l as [|b l]; [done|]. rewrite Hx, Z.sub_diag by lia. cbn.
      rewrite (proj2 (IH (a + 1) l)); [done|]. split; [cbn in Hl; lia|]. intros x Hr. rewrite Hx by lia.
      replace (Z.to_nat (x - a)) with (S (Z.to_nat (x - (a + 1)))) by lia. done.
Qed.
Lemma load_store a l m : load (store a l m) a (length l) = Some l.
Proof. apply load_spec. split; [done|]. intros x Hx. by rewrite lookup_store, decide_True. Qed.
Lemma load_mapped m a n : (forall x, a <= x < a + Z.of_nat n -> x ∈ dom m) -> is_Some (load m a n).
Proof.
  induction n as [|n IH] in a |- *; cbn [load]; intros H; [done|].
  destruct (proj1 (elem_of_dom m a) (H a ltac:(lia))) as [b ->]. destruct (IH (a + 1)) as [l Hl]; [intros x Hx; apply H; lia|].
  cbn. by rewrite Hl.
Qed.

(** ** Transfers *)
Lemma act_runs_frame cs (s : st W) : let s1 := act_runs cs s in
  tstack (dev s1) = tstack (dev s) ++ pushes cs /\ w s1 = w s /\ base (dev s1) = base (dev s).
Proof.
  cbv zeta. induction cs as [|c cs IH] in s |- *; cbn; [by rewrite app_nil_r|].
  destruct (IH (act_run c s)) as (H1 & H2 & H3). unfold act_runs in *. rewrite H1, H2, H3. destruct c; cbn; by rewrite <- ?app_assoc.
Qed.

(** What the bus carried for the object at an address: its buffers and its members are those there are when the
    transfer is made. *)
Definition carries (s1 s' : st W) (p : Z) (f : frame) : Prop := exists t, objs s1 !! p = Some t /\
  (txBuf t = 0 -> f_out f = replicate (Z.to_nat (len t)) 0) /\
  (txBuf t <> 0 -> load (mem s1) (txBuf t) (Z.to_nat (len t)) = Some (f_out f)) /\
  length (f_in f) = Z.to_nat (len t) /\
  (rxBuf t <> 0 -> load (mem s') (rxBuf t) (Z.to_nat (len t)) = Some (f_in f)) /\
  f_speed f = t_speedHz t /\ f_bits f = t_bits t /\ f_delay f = delayBeforeReleaseCs t /\ f_release f = releaseCsAfter t.
Definition receives (s1 : st W) (p a : Z) : Prop := exists t, objs s1 !! p = Some t /\ rxBuf t <> 0 /\ rxBuf t <= a < rxBuf t + len t.
Definition receive_apart (s1 : st W) (ps : list Z) : Prop := forall i j p q a,
  ps !! i = Some p -> ps !! j = Some q -> receives s1 p a -> receives s1 q a -> i = j.

Lemma carried_carries (s1 s' : st W) p t f : objs s1 !! p = Some t -> carried (mem s1) (mem s') (to_msg t) f -> carries s1 s' p f.
Proof.
  intros Ht [Ho Hl Hi (H1 & H2 & H3 & H4)]. cbn in *. exists t. split; [done|].
  split; [intros E; rewrite E, Z.eqb_refl in Ho; congruence|]. split; [intros E%Z.eqb_neq; by rewrite E in Ho|].
  split_and!; try done. rewrite H4. by destruct (releaseCsAfter t).
Qed.

Lemma transfer_queue (s : st W) ts : isOpen s = true -> mapM (fun p => objs s !! p) (tstack (dev s)) = Some ts ->
  exists r s', transfer s = (Ok r, s') /\ tstack (dev s') = [] /\ objs s' = objs s /\ dom (mem s') = dom (mem s) /\
    (tstack (dev s) <> [] -> (spi_message (fd (dev s)) (to_msg <$> ts) (mem s) (w s)).1.1 = r) /\
    (0 <= r -> error (base (dev s')) = 0) /\ (r < 0 -> spi_errno (w s') <> 0 -> error (base (dev s')) = spi_errno (w s')) /\
    (forall a, (forall p, p ∈ tstack (dev s) -> ~ receives s p a) -> mem s' !! a = mem s !! a) /\
    (0 <= r -> receive_apart s (tstack (dev s)) ->
       exists fs, bus_log (w s') = bus_log (w s) ++ fs /\ Forall2 (carries s s') (tstack (dev s)) fs).
Proof.
  intros Ho Hm. unfold transfer. change (isOpen (set_base clearError s)) with (isOpen s). rewrite Ho. cbn [dev set_base tstack objs].
  destruct (tstack (dev s)) as [|p0 ps0] eqn:E.
  { exists 0, (set_base clearError s). split; [done|]. cbn. split_and!; try done. intros _ _. exists []. by rewrite app_nil_r. }
  remember (p0 :: ps0) as ps eqn:Hq. clear Hq E p0 ps0. rewrite Hm. cbn [mem w fd].
  pose proof (spi_message_mem (fd (dev s)) (to_msg <$> ts) (mem s) (w s)) as Hmem.
  pose proof (spi_message_log (fd (dev s)) (to_msg <$> ts) (mem s) (w s)) as Hlog. apply mapM_Some in Hm.
  destruct (spi_message _ _ _ _) as [[r m] x]. destruct Hmem as [Hd Hmem]. eexists r, _. split; [reflexivity|].
  split; [by destruct (r <? 0)|]. split; [by destruct (r <? 0)|]. split; [by destruct (r <? 0)|]. split; [done|].
  split; [destruct (Z.ltb_spec r 0); [lia|done]|].
  split. { intros Hr. rewrite (proj2 (Z.ltb_lt r 0) Hr). cbn. intros He. unfold setError_errno. by rewrite (proj2 (Z.eqb_neq _ _) He). }
  split.
  - intros a Ha. assert (Hout : m !! a = mem s !! a); [|by destruct (r <? 0)]. apply Hmem, Forall_fmap, Forall_lookup. intros i t Ht.
    destruct (Forall2_lookup_r _ _ _ _ _ Hm Ht) as (p & Hp & Hpt). intros Hin. apply (Ha p); [by eapply list_elem_of_lookup_2|]. by exists t.
  - intros Hr Hap. rewrite (proj2 (Z.ltb_ge r 0) Hr). destruct (Hlog Hr) as (fs & Hfs & Hc).
    { intros i j c d a Hi Hj Hin Hjn. apply list_lookup_fmap_Some in Hi as (t & -> & Hi), Hj as (u & -> & Hj).
      destruct (Forall2_lookup_r _ _ _ _ _ Hm Hi) as (p & Hp & Hpt), (Forall2_lookup_r _ _ _ _ _ Hm Hj) as (q & Hq & Hqu).
      apply (Hap i j p q a); [done..| |]; by eexists. }
    exists fs. split; [done|]. apply (Forall2_fmap_l to_msg) in Hc.
    apply Forall2_same_length_lookup_2; [by rewrite (Forall2_length _ _ _ Hm), (Forall2_length _ _ _ Hc)|].
    intros i p f Hp Hf. destruct (Forall2_lookup_l _ _ _ _ _ Hm Hp) as (t & Ht & Hpt).
    apply (carried_carries s _ p t f Hpt). exact (Forall2_lookup_lr _ _ _ _ _ _ Hc Ht Hf).
Qed.


(** An object that is destroyed while its address is queued makes the transfer undefined. *)
Lemma transfer_dangling (s : st W) p : isOpen s = true -> p ∈ tstack (dev s) -> objs s !! p = None -> (transfer s).1 = Throw UB.
Proof.
  intros Ho Hp Hn. unfold transfer. change (isOpen (set_base clearError s)) with (isOpen s). rewrite Ho. cbn [dev set_base tstack objs].
  destruct (tstack (dev s)) as [|p0 ps] eqn:E; [by apply elem_of_nil in Hp|]. rewrite <- E in *. destruct (mapM _ _) as [ts|] eqn:Em; [|done].
  apply mapM_Some in Em. rewrite E in Hp, Em. apply list_elem_of_lookup in Hp as [i Hi]. destruct (Forall2_lookup_l _ _ _ _ _ Em Hi) as (t & _ & Ht). congruence.
Qed.

(** The variant with buffers leaves no address of its own behind on an open bus. *)
Lemma transfer_buf_queue tx rx n (s : st W) : isOpen s = true -> tstack (dev s) = [] -> 0 <= n ->
  exists r s', transfer_buf tx rx n s = (Ok r, s') /\ tstack (dev s') = [] /\ objs s' = objs s /\ dom (mem s') = dom (mem s) /\
    (spi_message (fd (dev s)) [mk_msg tx rx n 0 0 0 0] (mem s) (w s)).1.1 = r /\
    (0 <= r -> exists f, bus_log (w s') = bus_log (w s) ++ [f] /\ carried (mem s) (mem s') (mk_msg tx rx n 0 0 0 0) f).
Proof.
  intros Ho Hq Hn. unfold transfer_buf. set (t := fresh _). set (s1 := pushTransfer _ _).
  assert (Hfr : objs s !! t = None) by (apply not_elem_of_dom, is_fresh).
  assert (Hs1 : tstack (dev s1) = [t]) by (cbn; by rewrite Hq).
  destruct (transfer_queue s1 [new_transfer tx rx n]) as (r & s' & E & Q & O & D & R & _ & _ & _ & L).
  { exact Ho. } { rewrite Hs1. cbn. by rewrite lookup_insert_eq. }
  rewrite E. exists r. eexists. split; [reflexivity|]. split; [exact Q|]. split; [cbn; rewrite O; cbn; by rewrite delete_insert_id|].
  split; [exact D|]. split; [apply R; by rewrite Hs1|]. intros Hr. rewrite Hs1 in L. destruct (L Hr) as (fs & Hfs & Hc).
  { intros [|i] [|j] p q a; cbn; try done; intros; by destruct i || destruct j. }
  apply Forall2_cons_inv_l in Hc as (f & ? & (u & Hu & Hc) & ->%Forall2_nil_inv_l & ->). exists f. split; [exact Hfs|].
  cbn in Hu. rewrite lookup_insert_eq in Hu. injection Hu as <-. cbn in Hc. destruct Hc as (T0 & T1 & Hl & Hrx & ? & ? & ? & ?).
  constructor; cbn; try done. destruct (Z.eqb_spec tx 0) as [E0|E0]; [by rewrite (T0 E0)|by apply T1].
Qed.

Lemma word_of_bytes data : 0 <= data < 2 ^ 16 -> u16 (Z.lor (Z.shiftl (u8 (Z.shiftr data 8)) 8) (Z.land data 0xFF)) = data.
Proof.
  intros Hd. unfold u8, u16. rewrite Z.shiftr_div_pow2 by lia. change 0xFF with (Z.ones 8). rewrite Z.land_ones by lia.
  assert (0 <= data / 2 ^ 8 < 2 ^ 8) by (split; [apply Z.div_pos; lia|apply Z.div_lt_upper_bound; lia]).
  rewrite (Z.mod_small (data / 2 ^ 8)) by lia. pose proof (Z.mod_pos_bound data (2 ^ 8) ltac:(lia)).
  assert (Hl : Z.lor (Z.shiftl (data / 2 ^ 8) 8) (data mod 2 ^ 8) = data).
  { rewrite <- Z.add_nocarry_lxor || rewrite <- Z.lor_comm; apply Z.bits_inj'; intros n Hn.
    rewrite Z.lor_spec, Z.shiftl_spec by lia. destruct (Z.lt_ge_cases n 8).
    - rewrite Z.mod_pow2_bits_low by lia. rewrite (Z.testbit_neg_r (data / 2 ^ 8)) by lia. by rewrite ?orb_false_r.
    - rewrite (Z.mod_pow2_bits_high data) by lia. rewrite Z.div_pow2_bits by lia. cbn. f_equal. lia. }
  rewrite Hl. by apply Z.mod_small.
Qed.

(** [SPI.transfer16] sends the two bytes of the word in one message, high byte
    first when the bit order is that, and puts the two bytes it receives together
    in the same order: on a loop it returns its argument. *)
Lemma transfer16_exact tx rx junk data (s : st W) : isOpen s = true -> tstack (dev s) = [] -> tx <> 0 -> rx <> 0 ->
  rx + 2 <= tx \/ tx + 2 <= rx -> length junk = 2%nat -> 0 <= data < 2 ^ 16 ->
  let msb := bitOrder (settings (dev s)) in
  let hi := u8 (Z.shiftr data 8) in let lo := Z.land data 0xFF in
  let out := if msb then [hi; lo] else [lo; hi] in
  exists r v s', SPIClass.transfer16 tx rx junk data s = (Ok v, s') /\ tstack (dev s') = [] /\
    (spi_message (fd (dev s)) [mk_msg tx rx 2 0 0 0 0] (store rx junk (store tx out (mem s))) (w s)).1.1 = r /\
    (0 <= r -> exists f b0 b1, bus_log (w s') = bus_log (w s) ++ [f] /\ f_out f = out /\ f_in f = [b0; b1] /\
       v = u16 (if msb then Z.lor (Z.shiftl b0 8) b1 else Z.lor (Z.shiftl b1 8) b0) /\ (f_in f = f_out f -> v = data)).
Proof.
  intros Ho Hts Ht0 Hr0 Hne Hj Hd msb hi lo out. unfold SPIClass.transfer16, SPIClass.with_locals. fold msb hi lo out.
  assert (Hlen : length out = 2%nat) by (unfold out; by destruct msb). rewrite Hlen. set (m := store rx junk _).
  assert (Htx : load m tx 2 = Some out).
  { rewrite <- Hlen. apply load_spec. split; [done|]. intros x Hx. unfold m. rewrite !lookup_store, decide_False, decide_True by lia. done. }
  destruct (transfer_buf_queue tx rx (Z.of_nat 2) (set_mem m s) Ho Hts ltac:(lia)) as (r & s' & -> & Q & _ & D & R & L).
  destruct (load_mapped (mem s') rx 2) as [l Hl].
  { intros x Hx. rewrite D. cbn. apply elem_of_dom. unfold m. rewrite lookup_store, decide_True by lia. apply lookup_lt_is_Some. lia. }
  rewrite Hl. pose proof Hl as [Hl2 _]%load_spec. destruct l as [|b0 [|b1 [|]]]; try done. cbn [from_option].
  exists r. do 2 eexists. split; [reflexivity|]. split; [exact Q|]. split; [exact R|]. intros Hr. destruct (L Hr) as (f & Hf & [C1 _ C3 _]).
  cbn [tx_buf rx_buf m_len] in C1, C3. specialize (C3 Hr0). rewrite Nat2Z.id in C1, C3. rewrite Hl in C3. injection C3 as Hin.
  rewrite (proj2 (Z.eqb_neq tx 0) Ht0) in C1. change (load m tx 2 = Some (f_out f)) in C1. rewrite Htx in C1. injection C1 as Hout.
  exists f, b0, b1. split; [done|]. split; [done|]. split; [done|]. split; [done|]. rewrite <- Hin, <- Hout.
  intros He. unfold out, hi, lo in He. destruct msb; injection He as -> ->; by apply word_of_bytes.
Qed.
End Proofs.

(** ** The chip select pin *)
Module Cs.
(** [_mode] is the function of the pin under which the driver controls it. *)
Record cs : Type := mk_cs { _id : Z; has_pin : bool; _mode : Pin.mode; _driverControl : bool; _activeLevel : bool }.
Definition new : cs := mk_cs (-1) false Pin.ModeUnknown true false.

Section Cs.
Context {W : Type} {L : Gpio2.LineOs W} {D : PinDevice W}.
Record cst : Type := mk_cst { the_cs : cs; the_pin : GpioPin.pin W }.
(** A call on the pin; the pointer is null before a pin is known. *)
Definition on_pin {A} (m : M (GpioPin.pin W) A) : M cst A := fun s =>
  if has_pin (the_cs s) then let '(r, p) := m (the_pin s) in (r, mk_cst (the_cs s) p) else (Throw UB, s).

Definition set (value : bool) : M cst unit := fun s =>
  if negb (_driverControl (the_cs s)) then on_pin (GpioPin.write (xorb value (_activeLevel (the_cs s)))) s else (Ok tt, s).
Definition get : M cst bool := fun s =>
  if negb (_driverControl (the_cs s)) then (v ← on_pin GpioPin.read; mret (xorb v (_activeLevel (the_cs s)))) s else (Ok false, s).
Definition control (b al : bool) (c : cs) : cs := mk_cs (_id c) (has_pin c) (_mode c) b al.
Definition setDriverControl (enable al : bool) : M cst bool := fun s =>
  let c := the_cs s in
  if negb (Bool.eqb enable (_driverControl c)) then
    if enable then
      (on_pin (GpioPin.setMode (_mode c));;
       modify (fun s => mk_cst (control true (_activeLevel (the_cs s)) (the_cs s)) (the_pin s));;
       gets (fun s => _driverControl (the_cs s))) s
    else if has_pin c then
      (modify (fun s => mk_cst (control false al (the_cs s)) (the_pin s));;
       on_pin (GpioPin.setMode Pin.ModeOutput);;
       set false;;
       gets (fun s => _driverControl (the_cs s))) s
    else (Ok (_driverControl c), s)
  else (Ok (_driverControl c), s).

(** Selecting the chip drives the pin to the level that is not the active one. *)
Lemma cs_select_inverted s : has_pin (the_cs s) = true -> _driverControl (the_cs s) = false ->
  set true s = on_pin (GpioPin.write (negb (_activeLevel (the_cs s)))) s.
Proof. intros _ Hd. unfold set. rewrite Hd. cbn [negb]. by rewrite xorb_true_l. Qed.
End Cs.
End Cs.

(** ** A bus whose input is wired to its output *)
Module Demo.
Record loop_bus : Type := mk_loop { at_ : param -> Z; log : list frame }.
Definition sent (m : memory) (c : spi_msg) : option (list Z) :=
  if tx_buf c =? 0 then Some (replicate (Z.to_nat (m_len c)) 0) else load m (tx_buf c) (Z.to_nat (m_len c)).
(** The bytes come back as they are sent; a buffer that is not there is refused before anything is sent. *)
Definition loop_frame (m : memory) (c : spi_msg) : option frame :=
  l ← sent m c; (if rx_buf c =? 0 then Some [] else load m (rx_buf c) (Z.to_nat (m_len c)));;
  Some (mk_frame l l (speed_hz c) (bits_per_word c) (delay_usecs c) (negb (cs_change c =? 0))).
Fixpoint put_all (ms : list spi_msg) (fs : list frame) (m : memory) : memory :=
  match ms, fs with
  | c :: ms, f :: fs => let m := put_all ms fs m in if rx_buf c =? 0 then m else store (rx_buf c) (f_in f) m
  | _, _ => m
  end.
#[export] Instance demo_spi : SpiOs loop_bus := {|
  spi_open _ _ x := (3, x);
  spi_close _ x := (0, x);
  spi_wr _ p v x := (0, mk_loop (fun q => if bool_decide (p = q) then v else at_ x q) (log x));
  spi_rd _ p x := ((0, at_ x p), x);
  spi_message _ ms m x :=
    match mapM (loop_frame m) ms with
    | Some fs => ((0, put_all ms fs m), mk_loop (at_ x) (log x ++ fs))
    | None => ((-1, m), x)
    end;
  spi_errno _ := 5;
  spi_exists _ _ := true |}.
Lemma loop_frame_spec m c f : loop_frame m c = Some f ->
  sent m c = Some (f_out f) /\ f_in f = f_out f /\ length (f_in f) = Z.to_nat (m_len c) /\
  (forall a, in_rx c a -> a ∈ dom m) /\
  f_speed f = speed_hz c /\ f_bits f = bits_per_word c /\ f_delay f = delay_usecs c /\ f_release f = negb (cs_change c =? 0).
Proof.
  unfold loop_frame. intros (l & Hl & (l' & Hl' & [= <-])%bind_Some)%bind_Some. cbn. split; [done|]. split; [done|].
  split. { unfold sent in Hl. destruct (tx_buf c =? 0); [injection Hl as <-; apply length_replicate|by apply load_spec in Hl as []]. }
  split; [|done]. intros a [Hn Ha]. rewrite (proj2 (Z.eqb_neq _ _) Hn) in Hl'. apply load_spec in Hl' as [Hlen Hx].
  apply elem_of_dom. rewrite Hx by lia. apply lookup_lt_is_Some. lia.
Qed.
Lemma put_all_outside ms fs m a : Forall2 (fun c f => length (f_in f) = Z.to_nat (m_len c)) ms fs -> Forall (fun c => ~ in_rx c a) ms -> put_all ms fs m !! a = m !! a.
Proof.
  induction 1 as [|c f ms fs Hl _ IH]; cbn; [done|]. intros [Hc Ho]%Forall_cons. destruct (Z.eqb_spec (rx_buf c) 0); [by apply IH|].
  rewrite lookup_store, decide_False; [by apply IH|]. intros Ha. apply Hc. split; [done|lia].
Qed.
Lemma put_all_at ms fs m i c f a : Forall2 (fun c f => length (f_in f) = Z.to_nat (m_len c)) ms fs -> rx_apart ms ->
  ms !! i = Some c -> fs !! i = Some f -> in_rx c a -> put_all ms fs m !! a = f_in f !! Z.to_nat (a - rx_buf c).
Proof.
  intros Hl. induction Hl as [|c0 f0 ms fs Hl _ IH] in i |- *; intros Hap Hc Hf Ha; [done|]. destruct i as [|i]; cbn in Hc, Hf |- *.
  - injection Hc as ->. injection Hf as ->. destruct Ha as [Hn Ha]. rewrite (proj2 (Z.eqb_neq _ _) Hn), lookup_store, decide_True by lia. done.
  - assert (IHa : put_all ms fs m !! a = f_in f !! Z.to_nat (a - rx_buf c)).
    { apply (IH i); [|done..]. intros j k d e x Hj Hk. pose proof (Hap (S j) (S k) d e x Hj Hk) as H. intros H1 H2. specialize (H H1 H2). lia. }
    destruct (Z.eqb_spec (rx_buf c0) 0) as [|Hn]; [done|]. rewrite lookup_store, decide_False; [done|]. intros H0.
    assert (Hin : in_rx c0 a) by (split; [done|lia]). pose proof (Hap 0%nat (S i) c0 c a eq_refl Hc Hin Ha). done.
Qed.
Lemma loop_frames m ms fs : mapM (loop_frame m) ms = Some fs -> Forall2 (fun c f => length (f_in f) = Z.to_nat (m_len c)) ms fs.
Proof. intros H%mapM_Some. eapply Forall2_impl; [exact H|]. intros c f Hf. by apply loop_frame_spec in Hf as (_ & _ & Hl & _). Qed.
Lemma put_all_dom m ms fs : mapM (loop_frame m) ms = Some fs -> dom (put_all ms fs m) = dom m.
Proof.
  intros H. pose proof (loop_frames _ _ _ H) as Hl. apply mapM_Some in H. set (m0 := m) in H.
  assert (Hd : Forall (fun c => forall a, in_rx c a -> a ∈ dom m) ms).
  { apply Forall_lookup. intros i c Hc. destruct (Forall2_lookup_l _ _ _ _ _ H Hc) as (f & _ & Hf). by apply loop_frame_spec in Hf as (_ & _ & _ & ? & _). }
  clear H. apply set_eq. intros a. rewrite !elem_of_dom. induction Hl as [|c f ms fs Hl _ IH]; cbn; [done|].
  apply Forall_cons in Hd as [Hc Hd]. specialize (IH Hd). destruct (Z.eqb_spec (rx_buf c) 0) as [|Hn]; [done|].
  rewrite lookup_store. case_decide as Ha; [|done]. split; intros _; [|apply lookup_lt_is_Some; lia].
  apply elem_of_dom, Hc. split; [done|lia].
Qed.
Lemma loop_carried m ms fs : mapM (loop_frame m) ms = Some fs -> rx_apart ms -> Forall2 (carried m (put_all ms fs m)) ms fs.
Proof.
  intros H Hap. pose proof (loop_frames _ _ _ H) as Hl. apply mapM_Some in H. apply Forall2_same_length_lookup_2; [by eapply Forall2_length|].
  intros i c f Hc Hf. pose proof (Forall2_lookup_lr _ _ _ _ _ _ H Hc Hf) as (Ho & Hio & Hlen & _ & Hhow)%loop_frame_spec.
  constructor; [exact Ho|done| |done]. intros Hn. apply load_spec. split; [done|]. intros x Hx. apply (put_all_at _ _ _ i); [done..|]. split; [done|lia].
Qed.
#[export] Instance demo_spi_ok : SpiOsOk loop_bus.
Proof.
  refine {| params := at_; bus_log := log |}; try done; intros n ms m x; cbn; destruct (mapM (loop_frame m) ms) as [fs|] eqn:E; try done.
  - split; [by apply put_all_dom|]. intros a Ha. apply put_all_outside; [by eapply loop_frames|done].
  - intros _ Hap. exists fs. split; [done|]. by apply loop_carried.
Defined.

Definition path_of (b c : Z) : string := "/dev/spidev0.0".
Definition slow : Settings := mk_settings 3 true 8 500000.
Definition bus0 : st loop_bus :=
  mk_st (mk_spidev IoDevice.new (-1) slow (mk_info 0 0 "/dev/spidev0.0") []) ∅ ∅ (mk_loop (fun _ => 0) []).

Lemma spi_open_ignores_settings_witness :
  params (w (open ReadWrite bus0).2) = params (w bus0) /\ settings (dev (open ReadWrite bus0).2) = settings (dev bus0).
Proof. apply spi_open_ignores_settings. reflexivity. Defined.
(** The object says 500 kHz in mode 3, the driver keeps what it had. *)
Example open_out_of_sync : ~ in_sync (open ReadWrite bus0).2.
Proof. intros H. specialize (H PSpeed). vm_compute in H. discriminate. Qed.

(** Two transfers; the speed of the first and a byte of its buffer change after it was pushed. *)
Definition fast : Transfer := mk_transfer 100 200 2 250000 8 true 5.
Definition acts : list act :=
  [Assign 1 (new_transfer 100 200 2); Store 100 [1; 2]; Push 1; Store 200 [0; 0; 7]; Assign 2 (new_transfer 0 300 1); Store 300 [9];
   Push 2; Assign 1 fast; Store 101 [6]].
Definition bus1 : st loop_bus := (open ReadWrite bus0).2.
Example transfer_loop : let s' := (transfer (act_runs acts bus1)).2 in
  load (mem s') 200 3 = Some [1; 6; 7] /\ load (mem s') 300 1 = Some [0] /\
  log (w s') = [mk_frame [1; 6] [1; 6] 250000 8 5 true; mk_frame [0] [0] 0 0 0 false].
Proof. vm_compute. done. Qed.
(** The object is gone when the transfer is made. *)
Example transfer_gone : (transfer (act_runs [Assign 1 fast; Push 1; Destroy 1] bus1)).1 = Throw UB.
Proof. vm_compute. done. Qed.
End Demo.
End SpiDev.
