(* ===== verification/SerialPort.v ===== *)
(** * Serial ports: src/serial/serialport.cpp, src/filestream.cpp, src/terminal.cpp

    Module [FileStream] is a file device behind a stream buffer, [Termios] the
    words of the terminal driver and the functions that change them, and
    [SerialPort] the port: its settings, how they reach the driver, and writing
    with the direction control of RS-485.  [HardwareSerial] is the Arduino
    interface.  The calls of the driver are the class [TtyOs]. *)
From S2P Require Import Prelude IoDevice FileDevice.
Import Flags IoDevice.

(** * The words of the driver *)
Module Termios.

(** Linux values of the flags, as in the C library's headers. *)
Definition IGNBRK : Z := 0x1.
Definition BRKINT : Z := 0x2.
Definition IGNPAR : Z := 0x4.
Definition PARMRK : Z := 0x8.
Definition INPCK : Z := 0x10.
Definition ISTRIP : Z := 0x20.
Definition INLCR : Z := 0x40.
Definition IGNCR : Z := 0x80.
Definition ICRNL : Z := 0x100.
Definition IXON : Z := 0x400.
Definition IXANY : Z := 0x800.
Definition IXOFF : Z := 0x1000.
Definition IBAUD0 : Z := 0x80000000.
Definition OPOST : Z := 0x1.
Definition ONLCR : Z := 0x4.
Definition CSIZE : Z := 0x30.
Definition CS5 : Z := 0x0.
Definition CS6 : Z := 0x10.
Definition CS7 : Z := 0x20.
Definition CS8 : Z := 0x30.
Definition CSTOPB : Z := 0x40.
Definition CREAD : Z := 0x80.
Definition PARENB : Z := 0x100.
Definition PARODD : Z := 0x200.
Definition CLOCAL : Z := 0x800.
Definition CBAUD : Z := 0x100F.
Definition BOTHER : Z := 0x1000.
Definition CMSPAR : Z := 0x40000000.
Definition CRTSCTS : Z := 0x80000000.
Definition ECHO : Z := 0x8.
Definition ECHONL : Z := 0x40.
Definition ICANON : Z := 0x2.
Definition ISIG : Z := 0x1.
Definition IEXTEN : Z := 0x8000.

(** [struct termios], with the two control characters the library sets. *)
Record termios : Type := mk_termios {
  c_iflag : Z; c_oflag : Z; c_cflag : Z; c_lflag : Z; vmin : Z; vtime : Z; c_ispeed : Z; c_ospeed : Z }.
Definition on_iflag (f : Z -> Z) (t : termios) : termios :=
  mk_termios (f (c_iflag t)) (c_oflag t) (c_cflag t) (c_lflag t) (vmin t) (vtime t) (c_ispeed t) (c_ospeed t).
Definition on_oflag (f : Z -> Z) (t : termios) : termios :=
  mk_termios (c_iflag t) (f (c_oflag t)) (c_cflag t) (c_lflag t) (vmin t) (vtime t) (c_ispeed t) (c_ospeed t).
Definition on_cflag (f : Z -> Z) (t : termios) : termios :=
  mk_termios (c_iflag t) (c_oflag t) (f (c_cflag t)) (c_lflag t) (vmin t) (vtime t) (c_ispeed t) (c_ospeed t).
Definition on_lflag (f : Z -> Z) (t : termios) : termios :=
  mk_termios (c_iflag t) (c_oflag t) (c_cflag t) (f (c_lflag t)) (vmin t) (vtime t) (c_ispeed t) (c_ospeed t).
Definition bis (m w : Z) : Z := Z.lor w m.
Definition bic (m w : Z) : Z := Z.ldiff w m.
Definition ors (l : list Z) : Z := foldr Z.lor 0 l.

(** The C library: raw mode and the speeds, for a speed code other than 0. *)
Definition cfmakeraw (t : termios) : termios :=
  let t := on_iflag (bic (ors [IGNBRK; BRKINT; PARMRK; ISTRIP; INLCR; IGNCR; ICRNL; IXON])) t in
  let t := on_oflag (bic OPOST) t in
  let t := on_lflag (bic (ors [ECHO; ECHONL; ICANON; ISIG; IEXTEN])) t in
  on_cflag (fun c => bis CS8 (bic (Z.lor CSIZE PARENB) c)) t.
Definition cfsetispeed (s : Z) (t : termios) : termios :=
  let t := on_iflag (bic IBAUD0) (on_cflag (fun c => bis s (bic CBAUD c)) t) in
  mk_termios (c_iflag t) (c_oflag t) (c_cflag t) (c_lflag t) (vmin t) (vtime t) s (c_ospeed t).
Definition cfsetospeed (s : Z) (t : termios) : termios :=
  let t := on_cflag (fun c => bis s (bic CBAUD c)) t in
  mk_termios (c_iflag t) (c_oflag t) (c_cflag t) (c_lflag t) (vmin t) (vtime t) (c_ispeed t) s.

Inductive DataBits : Type := Data5 | Data6 | Data7 | Data8 | UnknownDataBits.
Inductive StopBits : Type := OneStop | TwoStop | UnknownStopBits.
Inductive Parity : Type := NoParity | EvenParity | OddParity | SpaceParity | MarkParity | UnknownParity.
Inductive FlowControl : Type :=
  NoFlowControl | HardwareControl | SoftwareControl | Rs485AfterSendControl | Rs485OnSendControl | UnknownFlowControl.
#[export] Instance DataBits_eq_dec : EqDecision DataBits.
Proof. solve_decision. Defined.
#[export] Instance StopBits_eq_dec : EqDecision StopBits.
Proof. solve_decision. Defined.
#[export] Instance Parity_eq_dec : EqDecision Parity.
Proof. solve_decision. Defined.
#[export] Instance FlowControl_eq_dec : EqDecision FlowControl.
Proof. solve_decision. Defined.

(** ** The functions of [SerialPort::Private] on the words *)
Definition setTioCommonProps (m : Z) (t : termios) : termios :=
  let t := cfmakeraw t in
  let t := if negb (test m Binary) then on_oflag (bis ONLCR) (on_iflag (bis IGNCR) t) else t in
  let t := mk_termios (c_iflag t) (c_oflag t) (c_cflag t) (c_lflag t) 0 0 (c_ispeed t) (c_ospeed t) in
  let t := on_cflag (bis CLOCAL) t in
  if test m ReadOnly then on_cflag (bis CREAD) t else t.

Definition size_bits (d : DataBits) : Z := match d with Data5 => CS5 | Data6 => CS6 | Data7 => CS7 | _ => CS8 end.
Definition setTioDatabits (d : DataBits) (t : termios) : termios := on_cflag (fun c => bis (size_bits d) (bic CSIZE c)) t.

Definition setTioParity (p : Parity) (t : termios) : termios :=
  let t := on_iflag (fun i => bis IGNPAR (bic (Z.lor PARMRK INPCK) i)) t in
  match p with
  | SpaceParity => on_cflag (fun c => bis (Z.lor PARENB CMSPAR) (bic PARODD c)) t
  | MarkParity => on_cflag (bis (ors [PARENB; CMSPAR; PARODD])) t
  | NoParity => on_cflag (bic PARENB) t
  | EvenParity => on_cflag (fun c => bis PARENB (bic PARODD c)) t
  | OddParity => on_cflag (bis (Z.lor PARENB PARODD)) t
  | UnknownParity => on_iflag (fun i => bic IGNPAR (bis (Z.lor PARMRK INPCK) i)) (on_cflag (bis PARENB) t)
  end.

Definition setTioStopbits (s : StopBits) (t : termios) : termios :=
  match s with TwoStop => on_cflag (bis CSTOPB) t | _ => on_cflag (bic CSTOPB) t end.

Definition SOFT : Z := ors [IXON; IXOFF; IXANY].
Definition setTioFlowcontrol (f : FlowControl) (t : termios) : termios :=
  match f with
  | HardwareControl => on_iflag (bic SOFT) (on_cflag (bis CRTSCTS) t)
  | SoftwareControl => on_iflag (bis SOFT) (on_cflag (bic CRTSCTS) t)
  | _ => on_iflag (bic SOFT) (on_cflag (bic CRTSCTS) t)
  end.

(** ** What the words mean to the driver *)
Definition bit (w n : Z) : bool := Z.testbit w n.
Definition data_of (t : termios) : DataBits :=
  match bit (c_cflag t) 4, bit (c_cflag t) 5 with
  | false, false => Data5 | true, false => Data6 | false, true => Data7 | true, true => Data8
  end.
Definition stop_of (t : termios) : StopBits := if bit (c_cflag t) 6 then TwoStop else OneStop.
Definition parity_of (t : termios) : Parity :=
  if bit (c_cflag t) 8 then
    if bit (c_cflag t) 30 then (if bit (c_cflag t) 9 then MarkParity else SpaceParity)
    else if bit (c_cflag t) 9 then OddParity else EvenParity
  else NoParity.
Definition flow_of (t : termios) : FlowControl :=
  if bit (c_cflag t) 31 then HardwareControl
  else if bit (c_iflag t) 10 && bit (c_iflag t) 12 then SoftwareControl else NoFlowControl.
Definition sticky (t : termios) : bool := bit (c_cflag t) 30.

(** Bits of words changed by constant masks. *)
Ltac bits :=
  repeat first [rewrite Z.lor_spec | rewrite Z.ldiff_spec];
  repeat match goal with
  | |- context [Z.testbit ?m ?n] =>
      lazymatch m with context [c_cflag _] => fail | context [c_iflag _] => fail | _ => idtac end;
      let b := eval vm_compute in (Z.testbit m n) in
      lazymatch b with true => change (Z.testbit m n) with true | false => change (Z.testbit m n) with false end
  end;
  cbn [negb andb orb]; rewrite ?andb_true_r, ?andb_false_r, ?orb_true_r, ?orb_false_r.
Ltac words := unfold data_of, stop_of, parity_of, flow_of, sticky, bit, bis, bic; cbn [c_iflag c_cflag on_iflag on_cflag on_oflag on_lflag].

(** What the line does for each setting: values that the driver has no bits for
    are eight data bits, one stop bit and no flow control; RS-485 is the work of
    the library. *)
Definition line_data (d : DataBits) : DataBits := match d with UnknownDataBits => Data8 | d => d end.
Definition line_stop (b : StopBits) : StopBits := match b with UnknownStopBits => OneStop | b => b end.
Definition line_flow (f : FlowControl) : FlowControl :=
  match f with HardwareControl => HardwareControl | SoftwareControl => SoftwareControl | _ => NoFlowControl end.
(** The parities that set the sticky bit, which none clears: once it is set, even
    parity is space parity on the line and odd parity mark parity. *)
Definition marks (p : Parity) : bool := match p with SpaceParity | MarkParity => true | _ => false end.
Definition line_parity (stuck : bool) (p : Parity) : Parity :=
  match p with
  | EvenParity => if stuck then SpaceParity else EvenParity
  | OddParity => if stuck then MarkParity else OddParity
  | p => p
  end.
Definition speed_of (t : termios) : Z := Z.land (c_cflag t) CBAUD.

Lemma setTioDatabits_spec d t : let t' := setTioDatabits d t in
  data_of t' = line_data d /\ stop_of t' = stop_of t /\ parity_of t' = parity_of t /\ flow_of t' = flow_of t /\ sticky t' = sticky t.
Proof. unfold setTioDatabits. words. destruct d; repeat split; bits; done. Qed.

Lemma setTioStopbits_spec b t : let t' := setTioStopbits b t in
  data_of t' = data_of t /\ stop_of t' = line_stop b /\ parity_of t' = parity_of t /\ flow_of t' = flow_of t /\ sticky t' = sticky t.
Proof. unfold setTioStopbits. destruct b; words; repeat split; bits; done. Qed.

Lemma setTioParity_spec p t : let t' := setTioParity p t in
  data_of t' = data_of t /\ stop_of t' = stop_of t /\ flow_of t' = flow_of t /\ sticky t' = sticky t || marks p /\
  (p <> UnknownParity -> parity_of t' = line_parity (sticky t || marks p) p).
Proof.
  unfold setTioParity. destruct p; words; repeat split; bits; try done;
    intros _; cbn; destruct (Z.testbit (c_cflag t) 30); done.
Qed.

Lemma setTioFlowcontrol_spec f t : let t' := setTioFlowcontrol f t in
  data_of t' = data_of t /\ stop_of t' = stop_of t /\ parity_of t' = parity_of t /\ flow_of t' = line_flow f /\ sticky t' = sticky t.
Proof. unfold setTioFlowcontrol. destruct f; words; repeat split; bits; done. Qed.

Lemma setTioCommonProps_sticky m t : sticky (setTioCommonProps m t) = sticky t.
Proof. unfold setTioCommonProps, cfmakeraw. repeat case_match; words; bits; done. Qed.

(** ** The speed *)
Lemma land_bis_off m k w : Z.land m k = 0 -> Z.land (bis m w) k = Z.land w k.
Proof. intros H. unfold bis. by rewrite Z.land_lor_distr_l, H, Z.lor_0_r. Qed.
Lemma land_bic_off m k w : Z.land m k = 0 -> Z.land (bic m w) k = Z.land w k.
Proof.
  intros H. unfold bic. apply Z.bits_inj'. intros n Hn. apply (f_equal (fun z => Z.testbit z n)) in H.
  rewrite Z.land_spec, Z.bits_0 in H. rewrite !Z.land_spec, Z.ldiff_spec.
  by destruct (Z.testbit w n), (Z.testbit m n), (Z.testbit k n).
Qed.
Lemma speed_kept d q b f t :
  speed_of (setTioDatabits d t) = speed_of t /\ speed_of (setTioParity q t) = speed_of t /\
  speed_of (setTioStopbits b t) = speed_of t /\ speed_of (setTioFlowcontrol f t) = speed_of t.
Proof.
  unfold speed_of, setTioDatabits, setTioParity, setTioStopbits, setTioFlowcontrol.
  repeat split; [destruct d|destruct q|destruct b|destruct f]; cbn [c_cflag on_cflag on_iflag];
    by rewrite ?land_bis_off, ?land_bic_off by reflexivity.
Qed.

(** A change inside the speed leaves the other settings alone. *)
Definition is_speed (c : Z) : Prop := Z.land c CBAUD = c.
Lemma is_speed_bit c n : is_speed c -> Z.testbit CBAUD n = false -> Z.testbit c n = false.
Proof. intros <- H. by rewrite Z.land_spec, H, andb_false_r. Qed.
Definition view (t : termios) := (data_of t, stop_of t, parity_of t, flow_of t, sticky t).
Lemma view_speed a b t : is_speed a -> is_speed b -> view (on_cflag (fun c => bis a (bic b c)) t) = view t.
Proof.
  intros Ha Hb. unfold view. words. rewrite !Z.lor_spec, !Z.ldiff_spec, !(is_speed_bit a), !(is_speed_bit b) by done.
  cbn [negb]. by rewrite !andb_true_r, !orb_false_r.
Qed.
Lemma view_iflag f t : Z.testbit (f (c_iflag t)) 10 = Z.testbit (c_iflag t) 10 -> Z.testbit (f (c_iflag t)) 12 = Z.testbit (c_iflag t) 12 ->
  view (on_iflag f t) = view t.
Proof. intros H1 H2. unfold view. words. by rewrite H1, H2. Qed.
Lemma view_cfsetispeed c t : is_speed c -> view (cfsetispeed c t) = view t.
Proof.
  intros Hc. rewrite <- (view_speed c CBAUD t) by done. change (view (cfsetispeed c t)) with (view (on_iflag (bic IBAUD0) (on_cflag (fun x => bis c (bic CBAUD x)) t))).
  apply view_iflag; unfold bic; by rewrite Z.ldiff_spec, andb_true_r.
Qed.
Lemma view_cfsetospeed c t : is_speed c -> view (cfsetospeed c t) = view t.
Proof. intros Hc. by rewrite <- (view_speed c CBAUD t). Qed.
Lemma speed_cfset c t : is_speed c -> speed_of (cfsetospeed c t) = c.
Proof.
  intros Hc. unfold speed_of, cfsetospeed, bis, bic. cbn [c_cflag on_cflag].
  by rewrite Z.land_lor_distr_l, Z.land_ldiff, Z.lor_0_l.
Qed.

(** Mark and space parity set a bit that no other parity clears: even parity
    asked for after them is space parity on the line, odd parity mark parity. *)
Lemma parity_after_mark p p' t : p = MarkParity \/ p = SpaceParity ->
  parity_of (setTioParity p' (setTioParity p t)) =
  match p' with
  | EvenParity | SpaceParity => SpaceParity
  | OddParity | MarkParity => MarkParity
  | NoParity => NoParity
  | UnknownParity => p
  end.
Proof.
  intros Hp. unfold setTioParity. destruct Hp as [-> | ->], p'; words; bits; reflexivity.
Qed.
End Termios.

(** * Files behind a stream buffer *)
Module FileStream.
Import FileDevice.
Section Stream.
Context {W : Type} `{FileOs W}.
(** [FileStream::Private::open]: the buffer takes the descriptor. *)
Definition popen (m flags : Z) (f : @file W) : bool * @file W := FileDevice.popen m flags f.
(** The modes in which the buffer takes an open descriptor: those the C++ library
    has a [fdopen] mode for, and which agree with how the file was opened. *)
Definition ios_ok (m : Z) : bool :=
  if test m WriteOnly then negb (test m Truncate && test m Append)
  else test m ReadOnly && negb (test m Truncate) && negb (test m Append).
(** [FileStream::Private::close]: the buffer closes the descriptor, when it has one. *)
Definition pclose (f : @file W) : @file W :=
  let f := if negb (fd f =? -1) && ios_ok (openMode (base f)) then with_world (sys_close (fd f) (world f)).2 f else f in
  with_fd (-1) f.
(** [FileDevice::open] and [close] on the virtual functions above. *)
Definition open (m : Z) (f : @file W) : bool * @file W :=
  if negb (isOpen f) && ourFile f then popen m 0 f else (isOpen f, f).
Definition close (f : @file W) : @file W := if isOpen f && ourFile f then pclose f else f.
End Stream.

Section Defect.
Context {W : Type} {FO : FileOs W} {OK : FileOsOk W}.
(** A file stream cannot be opened again after it was closed: closing it
    releases the descriptor and leaves the device marked as open, so that the next
    [open] answers yes and opens nothing. *)
Theorem filestream_close_stays_open m m' (f : @file W) : ourFile f = true -> isOpen f = false -> ios_ok m = true ->
  (open m f).1 = true ->
  let f2 := close (open m f).2 in
  isOpen f2 = true /\ fd f2 = -1 /\ open_fds (world f2) = open_fds (world f) /\ open m' f2 = (true, f2).
Proof.
  intros Ho Hc Hm. unfold open, popen, FileDevice.popen. rewrite Hc, Ho. cbn [negb andb].
  pose proof (open_spec (path f) (Z.lor (Z.land 0 (Z.lnot (Z.lor O_ACCMODE (Z.lor O_APPEND O_TRUNC)))) (modeToPosixFlags m)) (world f)) as Hs.
  destruct (sys_open _ _ (world f)) as [n w]. cbn [fd with_world with_fd]. destruct (Z.eqb_spec n (-1)) as [->|Hn]; [done|]. intros _.
  destruct Hs as [[? _]|(Hn0 & Hfresh & Hfds)]; [done|]. cbn [snd IoDevice.popen]. set (f1 := with_base _ _).
  assert (H1 : isOpen f1 = true).
  { unfold isOpen, f1. cbn. apply negb_true_iff, Z.eqb_neq. intros E. assert (m = NotOpen) as -> by exact E. done. }
  assert (Ho1 : ourFile f1 = true) by (unfold f1; cbn; done).
  unfold close. rewrite H1, Ho1. cbn [andb]. unfold pclose.
  replace (fd f1 =? -1) with false by (symmetry; by apply Z.eqb_neq).
  replace (ios_ok (openMode (base f1))) with true by done. cbn [negb andb].
  pose proof (close_spec (fd f1) (world f1)) as Hcl. cbn in Hcl.
  set (f2 := with_fd _ _). assert (H2 : isOpen f2 = true) by exact H1. rewrite H2. cbn [negb andb].
  repeat split. cbn. rewrite Hcl, Hfds. set_solver.
Qed.
End Defect.

Lemma filestream_close_stays_open_witness :
  let f := new (∅ : demo_world) in let f2 := close (open ReadWrite f).2 in
  isOpen f2 = true /\ fd f2 = -1 /\ open_fds (world f2) = open_fds (world f) /\ open ReadWrite f2 = (true, f2).
Proof. apply (filestream_close_stays_open ReadWrite ReadWrite); reflexivity. Defined.
End FileStream.

(** * The port *)
Module SerialPort.
Import Termios FileDevice.

(** [struct serial_struct] *)
Record serial : Type := mk_serial { s_flags : Z; custom_divisor : Z; baud_base : Z }.
Definition ASYNC_SPD_CUST : Z := 0x30.
Definition ASYNC_SPD_MASK : Z := 0x1030.

(** The calls on an open terminal; a call that fails has set [errno]. *)
Class TtyOs (W : Type) `{FileOs W} : Type := {
  tc_get : Z -> W -> option termios * W;
  tc_set : Z -> termios -> W -> bool * W;
  tio2_get : Z -> W -> option termios * W;
  tio2_set : Z -> termios -> W -> bool * W;
  ser_get : Z -> W -> option serial * W;
  ser_set : Z -> serial -> W -> bool * W;
  mget : Z -> W -> option Z * W;
  mset : Z -> Z -> W -> bool * W;
  mbis : Z -> Z -> W -> bool * W;
  mbic : Z -> Z -> W -> bool * W;
  t_flush : Z -> Z -> W -> bool * W;
  t_excl : Z -> bool -> W -> bool * W;
  t_flock : Z -> bool -> W -> bool * W;
  t_isatty : Z -> W -> bool * W;
  t_break : Z -> bool -> W -> bool * W;
  t_sendbreak : Z -> Z -> W -> bool * W;
  (** the reading thread, the stream buffer and the passing of time *)
  n_start : Z -> W -> bool * W;
  n_terminate : W -> W;
  os_write : list Z -> W -> bool * W;
  os_flush : W -> W;
  t_delay : Z -> W -> W }.

Record Settings : Type := mk_settings {
  inputBaudRate : Z; outputBaudRate : Z; dataBits : DataBits; parity : Parity; stopBits : StopBits;
  flowControl : FlowControl; onebyteTime : Z; rs485Delay : Z }.
Definition data_val (d : DataBits) : Z := match d with Data5 => 5 | Data6 => 6 | Data7 => 7 | Data8 => 8 | UnknownDataBits => -1 end.
Definition stop_val (b : StopBits) : Z := match b with OneStop => 1 | TwoStop => 2 | UnknownStopBits => -1 end.

(** [Direction] *)
Definition Input : Z := 1.
Definition Output : Z := 2.
Definition AllDirections : Z := 3.
Definition TIOCM_DTR : Z := 0x2.
Definition TIOCM_RTS : Z := 0x4.
Definition B38400 : Z := 15.

(** The rates that have a code, with it; [createStandardBaudRateMap] on Linux. *)
Definition standardBaudRateMap : list (Z * Z) :=
  [(50, 1); (75, 2); (110, 3); (134, 4); (150, 5); (200, 6); (300, 7); (600, 8); (1200, 9); (1800, 10); (2400, 11);
   (4800, 12); (9600, 13); (19200, 14); (38400, 15); (57600, 0x1001); (115200, 0x1002); (230400, 0x1003);
   (460800, 0x1004); (500000, 0x1005); (576000, 0x1006); (921600, 0x1007); (1000000, 0x1008); (1152000, 0x1009);
   (1500000, 0x100A); (2000000, 0x100B); (2500000, 0x100C); (3000000, 0x100D); (3500000, 0x100E); (4000000, 0x100F)].
Fixpoint rate_code (m : list (Z * Z)) (baudRate : Z) : Z :=
  match m with [] => 0 | (r, c) :: m => if r =? baudRate then c else rate_code m baudRate end.
Definition settingFromBaudRate (baudRate : Z) : Z := rate_code standardBaudRateMap baudRate.

Section Port.
(** The number of bits of [unsigned long]. *)
Context (LONG : Z) {W : Type} {FO : FileOs W} {T : TtyOs W}.
(** What an integer variable that was not initialised holds. *)
Context (indet : Z).
Definition ulong (n : Z) : Z := n mod 2 ^ LONG.

(** [restoredTermios] has no initialiser: a new port has anything in it. *)
Record port : Type := mk_port { file_ : @file W; settings : Settings; restoredTermios : termios; isBreakEnabled : bool }.
Definition set_file (f : @file W) (p : port) : port := mk_port f (settings p) (restoredTermios p) (isBreakEnabled p).
Definition set_settings (s : Settings) (p : port) : port := mk_port (file_ p) s (restoredTermios p) (isBreakEnabled p).
Definition set_world (w : W) (p : port) : port := set_file (with_world w (file_ p)) p.
Definition isOpen (p : port) : bool := FileDevice.isOpen (file_ p).
Definition wof (p : port) : W := world (file_ p).
Definition setError (p : port) : port := set_file (FileDevice.setError (file_ p)) p.
Definition setError_text (e : Z) (t : string) (p : port) : port :=
  set_file (with_base (IoDevice.setError_text e t (base (file_ p))) (file_ p)) p.

(** ** Settings *)
(** [updateOneByteTime]; a rate of 0 divides by zero. *)
Definition updateOneByteTime (s : Settings) : option Settings :=
  if outputBaudRate s =? 0 then None
  else let n := 1 + data_val (dataBits s) + (if bool_decide (parity s = NoParity) then 0 else 1) + stop_val (stopBits s) in
       let t := ulong (1000000 * ulong n) / ulong (outputBaudRate s) in
       Some (mk_settings (inputBaudRate s) (outputBaudRate s) (dataBits s) (parity s) (stopBits s) (flowControl s) t t).
Definition new_settings (baud : Z) (d : DataBits) (q : Parity) (b : StopBits) (f : FlowControl) : option Settings :=
  updateOneByteTime (mk_settings baud baud d q b f 0 0).
Definition store (s : Settings) : M port unit := fun p =>
  match updateOneByteTime s with Some s => (Ok tt, set_settings s p) | None => (Throw UB, set_settings s p) end.

(** ** [SerialPort::Private] *)
(** A call on the descriptor whose failure is recorded, as [FileDevice::Private::ioctl] does. *)
Definition call {A} (f : Z -> W -> option A * W) : M port (option A) := fun p =>
  let '(r, w) := f (fd (file_ p)) (wof p) in
  let p := set_world w p in (Ok r, match r with None => setError p | Some _ => p end).
Definition callb (f : Z -> W -> bool * W) : M port bool := fun p =>
  let '(r, w) := f (fd (file_ p)) (wof p) in
  let p := set_world w p in (Ok r, if r then p else setError p).
Definition getTermios : M port (option termios) := call tc_get.
Definition setTermios (t : termios) : M port bool := callb (fun fd => tc_set fd t).

(** Read, change and write the words. *)
Definition change (f : termios -> termios) : M port bool :=
  o ← getTermios; match o with None => mret false | Some t => setTermios (f t) end.
Definition pSetDataBits : M port bool := fun p => change (setTioDatabits (dataBits (settings p))) p.
Definition pSetParity : M port bool := fun p => change (setTioParity (parity (settings p))) p.
Definition pSetStopBits : M port bool := fun p => change (setTioStopbits (stopBits (settings p))) p.
(** The two handshake lines are set after the words. *)
Definition pSetFlowControl : M port bool := fun p =>
  (success ← change (setTioFlowcontrol (flowControl (settings p)));
   if success : bool then
     o ← call mget;
     match o with
     | None => mret false
     | Some status => callb (fun fd => mset fd (Z.lor status (Z.lor TIOCM_DTR TIOCM_RTS)))
     end
   else mret false) p.

Definition setStandardBaudRate (code directions : Z) : M port bool :=
  o ← call tio2_get;
  (match o with
   | Some t => if test (c_cflag t) BOTHER
               then callb (fun fd => tio2_set fd (on_cflag (fun c => bis CBAUD (bic BOTHER c)) t));; mret tt
               else mret tt
   | None => mret tt
   end);;
  o ← call ser_get;
  (match o with
   | Some s => if test (s_flags s) ASYNC_SPD_CUST
               then callb (fun fd => ser_set fd (mk_serial (bic ASYNC_SPD_CUST (s_flags s)) 0 (baud_base s)));; mret tt
               else mret tt
   | None => mret tt
   end);;
  change (fun t => let t := if test directions Input then cfsetispeed code t else t in
                   if test directions Output then cfsetospeed code t else t).

Definition setCustomBaudRate (baudRate directions : Z) : M port bool :=
  if negb (directions =? AllDirections) then
    modify (setError_text EOPNOTSUPP "Cannot set custom speed for one direction");; mret false
  else
    o ← call tio2_get;
    done ← (match o with
            | Some t =>
                let t := on_cflag (fun c => bis BOTHER (bic CBAUD c)) t in
                let t := mk_termios (c_iflag t) (c_oflag t) (c_cflag t) (c_lflag t) (vmin t) (vtime t) baudRate baudRate in
                ok ← callb (fun fd => tio2_set fd t);
                if ok : bool then o ← call tio2_get; mret (bool_decide (is_Some o)) else mret false
            | None => mret false
            end);
    if done : bool then mret true
    else
      o ← call ser_get;
      match o with
      | None => mret false
      | Some s =>
          let d := Z.quot (baud_base s) baudRate in
          if d =? 0 then modify (setError_text EOPNOTSUPP "No suitable custom baud rate divisor");; mret false
          else ok ← callb (fun fd => ser_set fd (mk_serial (bis ASYNC_SPD_CUST (bic ASYNC_SPD_MASK (s_flags s))) d (baud_base s)));
               if ok : bool then setStandardBaudRate B38400 directions else mret false
      end.

Definition pSetBaudRate_dir (baudRate directions : Z) : M port bool :=
  if baudRate <=? 0 then modify (setError_text EOPNOTSUPP "Invalid baud rate value");; mret false
  else let unixBaudRate := settingFromBaudRate baudRate in
       if 0 <? unixBaudRate then setStandardBaudRate unixBaudRate directions else setCustomBaudRate baudRate directions.
Definition pSetBaudRate : M port bool := fun p =>
  let s := settings p in
  (if inputBaudRate s =? outputBaudRate s then pSetBaudRate_dir (inputBaudRate s) AllDirections
   else ok ← pSetBaudRate_dir (inputBaudRate s) Input;
        if ok : bool then pSetBaudRate_dir (outputBaudRate s) Output else mret false) p.

(** [TCIFLUSH], [TCOFLUSH] and [TCIOFLUSH] *)
Definition queue_of (directions : Z) : Z :=
  if directions =? AllDirections then 2 else if test directions Input then 0 else 1.
Definition pTcflush (directions : Z) : M port unit := callb (fun fd => t_flush fd (queue_of directions));; mret tt.
Definition pSendBreak (duration : Z) : M port bool := callb (fun fd => t_sendbreak fd duration).
Definition pSetBreakEnabled (on : bool) : M port bool := callb (fun fd => t_break fd on).
Definition pSetLine (bit : Z) (on : bool) : M port bool := callb (fun fd => if on then mbis fd bit else mbic fd bit).
Definition pSetDataTerminalReady : bool -> M port bool := pSetLine TIOCM_DTR.
Definition pSetRequestToSend : bool -> M port bool := pSetLine TIOCM_RTS.

(** The modem bits of Linux and the signals of the library. *)
Definition signal_map : list (Z * Z) :=
  [(0x001, 0x10); (0x002, 0x04); (0x004, 0x40); (0x008, 0x100); (0x010, 0x200); (0x020, 0x80); (0x040, 0x08);
   (0x080, 0x20); (0x100, 0x10)].
Definition signals_of (arg : Z) : Z :=
  foldl (fun ret '(bit, signal) => if test arg bit then Z.lor ret signal else ret) 0 signal_map.
Definition pPinoutSignals : M port Z := o ← call mget; mret (match o with None => 0 | Some arg => signals_of arg end).

(** A call on the descriptor whose failure is not recorded. *)
Definition raw (f : Z -> W -> bool * W) : M port bool := fun p =>
  let '(r, w) := f (fd (file_ p)) (wof p) in (Ok r, set_world w p).
Definition pass (f : W -> W) : M port unit := fun p => (Ok tt, set_world (f (wof p)) p).
Definition save (t : termios) : M port unit := modify (fun p => mk_port (file_ p) (settings p) t (isBreakEnabled p)).

Definition initialize (m : Z) : M port bool :=
  tty ← raw t_isatty;
  if negb tty then mret false
  else
    callb (fun fd => t_excl fd true);;
    o ← getTermios;
    match o with
    | None => mret false
    | Some tio =>
        save tio;;
        s ← gets settings;
        let tio := setTioFlowcontrol (flowControl s) (setTioStopbits (stopBits s)
                     (setTioParity (parity s) (setTioDatabits (dataBits s) (setTioCommonProps m tio)))) in
        ok ← setTermios tio;
        if negb ok then mret false
        else ok ← pSetFlowControl;
             if negb ok then mret false
             else ok ← pSetBaudRate;
                  if negb ok then mret false
                  else pTcflush AllDirections;; pass (t_delay 10000);; mret true
    end.

(** [FileStream::Private::open], and its [close] *)
Definition fs_open (m flags : Z) : M port bool := fun p =>
  let '(r, f) := FileStream.popen m flags (file_ p) in (Ok r, set_file f p).
Definition fs_close : M port unit := modify (fun p => set_file (FileStream.pclose (file_ p)) p).
(** [Terminal::Private::open] and [close]: the thread that reads. *)
Definition t_open (m flags : Z) : M port bool :=
  ok ← fs_open m flags;
  if negb ok then mret false
  else ok ← raw n_start; if ok : bool then mret true else fs_close;; mret false.
Definition t_close : M port unit := pass n_terminate;; fs_close.

Definition p_close : M port unit :=
  o ← call mget;
  callb (fun fd => mset fd (default indet o));;
  t ← gets restoredTermios;
  raw (fun fd => tc_set fd t);;
  raw (fun fd => t_excl fd false);;
  callb (fun fd => t_flock fd false);;
  t_close.

(** O_NOCTTY | O_NONBLOCK *)
Definition O_TTY : Z := 0x900.
Definition p_open (m : Z) : M port bool :=
  ok ← t_open m O_TTY;
  if negb ok then mret false
  else
    locked ← raw (fun fd => t_flock fd true);
    ok ← (if locked : bool then initialize m else mret false);
    if ok : bool then mret true else modify setError;; p_close;; mret false.

(** ** [SerialPort], with [open] and [close] of [FileDevice] *)
Definition sopen (m : Z) : M port bool := fun p =>
  if negb (isOpen p) && ourFile (file_ p) then p_open m p else (Ok (isOpen p), p).
Definition sclose : M port unit := fun p => if isOpen p && ourFile (file_ p) then p_close p else (Ok tt, p).
Definition discard (directions : Z) : M port unit := fun p => if isOpen p then pTcflush directions p else (Ok tt, p).

Definition with_rates (i o : Z) (s : Settings) : Settings :=
  mk_settings i o (dataBits s) (parity s) (stopBits s) (flowControl s) (onebyteTime s) (rs485Delay s).
Definition with_data (d : DataBits) (s : Settings) : Settings :=
  mk_settings (inputBaudRate s) (outputBaudRate s) d (parity s) (stopBits s) (flowControl s) (onebyteTime s) (rs485Delay s).
Definition with_parity (q : Parity) (s : Settings) : Settings :=
  mk_settings (inputBaudRate s) (outputBaudRate s) (dataBits s) q (stopBits s) (flowControl s) (onebyteTime s) (rs485Delay s).
Definition with_stop (b : StopBits) (s : Settings) : Settings :=
  mk_settings (inputBaudRate s) (outputBaudRate s) (dataBits s) (parity s) b (flowControl s) (onebyteTime s) (rs485Delay s).
Definition with_flow (f : FlowControl) (s : Settings) : Settings :=
  mk_settings (inputBaudRate s) (outputBaudRate s) (dataBits s) (parity s) (stopBits s) f (onebyteTime s) (rs485Delay s).

(** The driver is told when the port is open. *)
Definition when_open (m : M port bool) : M port bool := fun p => if isOpen p then m p else (Ok true, p).

Definition setBaudRate (baudRate directions : Z) : M port bool :=
  s ← gets settings;
  let ic := test directions Input && negb (inputBaudRate s =? baudRate) in
  let oc := test directions Output && negb (outputBaudRate s =? baudRate) in
  let s := with_rates (if ic then baudRate else inputBaudRate s) (if oc then baudRate else outputBaudRate s) s in
  (if oc then store s else modify (set_settings s));;
  if ic || oc then when_open (pSetBaudRate_dir baudRate directions) else mret true.
Definition setDataBits (d : DataBits) : M port bool :=
  s ← gets settings;
  if bool_decide (dataBits s = d) then mret true else store (with_data d s);; when_open pSetDataBits.
Definition setParity (q : Parity) : M port bool :=
  s ← gets settings;
  if bool_decide (parity s = q) then mret true else store (with_parity q s);; when_open pSetParity.
Definition setStopBits (b : StopBits) : M port bool :=
  s ← gets settings;
  if bool_decide (stopBits s = b) then mret true else store (with_stop b s);; when_open pSetStopBits.
Definition setFlowControl (f : FlowControl) : M port bool :=
  s ← gets settings;
  if bool_decide (flowControl s = f) then mret true
  else modify (set_settings (with_flow f s));; when_open pSetFlowControl.

(** [success = success && ...] *)
Definition and_then (m k : M port bool) : M port bool := ok ← m; if ok : bool then k else mret false.
Definition setSettings (s : Settings) : M port bool :=
  d ← gets settings;
  let ibc := negb (inputBaudRate d =? inputBaudRate s) in
  let obc := negb (outputBaudRate d =? outputBaudRate s) in
  let beq := inputBaudRate s =? outputBaudRate s in
  let m := and_then (and_then (and_then (setParity (parity s)) (setDataBits (dataBits s))) (setStopBits (stopBits s)))
                    (setFlowControl (flowControl s)) in
  if ibc && obc && beq then and_then m (setBaudRate (inputBaudRate s) AllDirections)
  else
    let m := if ibc && (negb obc || (obc && negb beq)) then and_then m (setBaudRate (inputBaudRate s) Input) else m in
    if obc && (negb ibc || (ibc && negb beq)) then and_then m (setBaudRate (outputBaudRate s) Output) else m.

Definition baudRate (directions : Z) (p : port) : Z :=
  let s := settings p in
  if directions =? AllDirections then (if inputBaudRate s =? outputBaudRate s then inputBaudRate s else -1)
  else if test directions Input then inputBaudRate s else outputBaudRate s.

Definition if_open (m : M port bool) : M port bool := fun p => if isOpen p then m p else (Ok false, p).
Definition setDataTerminalReady (on : bool) : M port bool := if_open (pSetDataTerminalReady on).
Definition isDataTerminalReady : M port bool := r ← pPinoutSignals; mret (test r 0x04).
Definition ENOTSUP : Z := 95.
Definition setRequestToSend (on : bool) : M port bool := if_open (
  s ← gets settings;
  if bool_decide (flowControl s = NoFlowControl) || bool_decide (flowControl s = SoftwareControl)
  then pSetRequestToSend on
  else modify (fun p => set_file (with_base (setError_code ENOTSUP (base (file_ p))) (file_ p)) p);; mret false).
Definition isRequestToSend : M port bool := r ← pPinoutSignals; mret (test r 0x40).
Definition pinoutSignals : M port Z := fun p => if isOpen p then pPinoutSignals p else (Ok 0, p).
Definition sendBreak (duration : Z) : M port bool := if_open (pSendBreak duration).
Definition setBreakEnabled (on : bool) : M port bool := if_open (pSetBreakEnabled on).

(** ** Writing *)
Definition writable (p : port) : bool := test (openMode (base (file_ p))) WriteOnly.
(** [FileStream::write] *)
Definition fs_write (data : list Z) : M port Z := fun p =>
  if writable p then
    let '(good, w) := os_write data (wof p) in
    (Ok (if good then Z.of_nat (length data) else -1), set_world w p)
  else (Ok (-1), p).
Definition CRLF : list Z := [13; 10].
Definition rs485 (f : FlowControl) : bool := match f with Rs485AfterSendControl | Rs485OnSendControl => true | _ => false end.
Definition write (data : list Z) (endl : bool) : M port Z := fun p =>
  if writable p then
    let s := settings p in
    if rs485 (flowControl s) then
      let down := bool_decide (flowControl s = Rs485OnSendControl) in
      (ok ← pSetRequestToSend down;
       if negb ok then mret (-1)
       else
         pass (t_delay (rs485Delay s));;
         ret ← fs_write data;
         if ret <? 0 then mret ret
         else
           ret ← (if endl then r ← fs_write CRLF; mret (ret + r) else mret ret);
           pass os_flush;;
           pass (t_delay (ulong (onebyteTime s * ret + rs485Delay s)));;
           pSetRequestToSend (negb down);;
           mret ret) p
    else fs_write data p
  else (Ok (-1), p).
End Port.

(** ** Laws of the driver

    [attrs] are the words of the terminal.  Reading them gives them or fails; a
    change that is accepted is carried out whole, one that is refused changes
    nothing; no other call changes them. *)
Class TtyOsOk (W : Type) {FO : FileOs W} {T : TtyOs W} : Type := {
  attrs : W -> termios;
  tc_get_spec n w : attrs (tc_get n w).2 = attrs w /\ ((tc_get n w).1 = None \/ (tc_get n w).1 = Some (attrs w));
  tc_set_spec n t w : attrs (tc_set n t w).2 = if (tc_set n t w).1 then t else attrs w;
  tio2_get_spec n w : attrs (tio2_get n w).2 = attrs w /\ ((tio2_get n w).1 = None \/ (tio2_get n w).1 = Some (attrs w));
  tio2_set_spec n t w : attrs (tio2_set n t w).2 = if (tio2_set n t w).1 then t else attrs w;
  open_attrs q fl w : attrs (sys_open q fl w).2 = attrs w;
  ser_get_attrs n w : attrs (ser_get n w).2 = attrs w;
  ser_set_attrs n x w : attrs (ser_set n x w).2 = attrs w;
  mget_attrs n w : attrs (mget n w).2 = attrs w;
  mset_attrs n x w : attrs (mset n x w).2 = attrs w;
  flush_attrs n x w : attrs (t_flush n x w).2 = attrs w;
  excl_attrs n x w : attrs (t_excl n x w).2 = attrs w;
  flock_attrs n x w : attrs (t_flock n x w).2 = attrs w;
  isatty_attrs n w : attrs (t_isatty n w).2 = attrs w;
  start_attrs n w : attrs (n_start n w).2 = attrs w;
  delay_attrs x w : attrs (t_delay x w) = attrs w }.
#[export] Hint Rewrite @ser_get_attrs @ser_set_attrs @mget_attrs @mset_attrs @flush_attrs @excl_attrs @flock_attrs
  @isatty_attrs @start_attrs @delay_attrs @open_attrs : attrs.

(** What a run that returns satisfies. *)
Definition wp {S A} (m : M S A) (Q : A -> S -> Prop) (s : S) : Prop :=
  match m s with (Ok a, s') => Q a s' | (Throw _, _) => True end.
Lemma wp_bind {S A B} (m : M S A) (k : A -> M S B) Q s : wp m (fun a => wp (k a) Q) s -> wp (m ≫= k) Q s.
Proof. unfold wp, mbind, M_bind. by destruct (m s) as [[a|e] s']. Qed.
Lemma wp_mono {S A} (m : M S A) (Q Q' : A -> S -> Prop) s : wp m Q s -> (forall a s', Q a s' -> Q' a s') -> wp m Q' s.
Proof. unfold wp. intros H HQ. destruct (m s) as [[a|e] s']; auto. Qed.

Lemma wp_false {S A} (m : M S A) (Q : S -> Prop) s : wp (m;; mret false) (fun b s' => b = true -> Q s') s.
Proof. apply wp_bind. unfold wp. destruct (m s) as [[a|e] s']; [by intros ?|done]. Qed.

Section Line.
Context (LONG : Z) {W : Type} {FO : FileOs W} {T : TtyOs W} {OK : TtyOsOk W}.
Implicit Types p : @port W.
Local Abbreviation words_of p := (attrs (wof p)).

(** The settings and the open mode stay. *)
Definition frame p p' : Prop := settings p' = settings p /\ isOpen p' = isOpen p.
Definition quiet p p' : Prop := frame p p' /\ words_of p' = words_of p.
Lemma frame_refl p : frame p p.
Proof. done. Qed.
Lemma frame_trans p1 p2 p3 : frame p1 p2 -> frame p2 p3 -> frame p1 p3.
Proof. intros [? ?] [? ?]. split; congruence. Qed.

Lemma setError_quiet p : quiet p (setError p).
Proof. destruct (setError_same (file_ p)) as (H1 & _ & _ & H4). by repeat split; cbn; rewrite ?H4. Qed.

Lemma wp_callb f p Q :
  (forall p' b, frame p p' -> words_of p' = attrs (f (fd (file_ p)) (wof p)).2 -> b = (f (fd (file_ p)) (wof p)).1 -> Q b p') ->
  wp (callb f) Q p.
Proof.
  intros H. unfold wp, callb. destruct (f _ _) as [b w]. cbn in *. apply H; [..|done]; destruct b; try done;
    destruct (setError_quiet (set_world w p)) as [[H1 H2] H3]; try done; by split.
Qed.
Lemma wp_call {A} (f : Z -> W -> option A * W) p Q :
  (forall p' b, frame p p' -> words_of p' = attrs (f (fd (file_ p)) (wof p)).2 -> b = (f (fd (file_ p)) (wof p)).1 -> Q b p') ->
  wp (call f) Q p.
Proof.
  intros H. unfold wp, call. destruct (f _ _) as [b w]. cbn in *. apply H; [..|done]; destruct b; try done;
    destruct (setError_quiet (set_world w p)) as [[H1 H2] H3]; try done; by split.
Qed.
Lemma wp_raw f p Q :
  (forall p' b, frame p p' -> words_of p' = attrs (f (fd (file_ p)) (wof p)).2 -> b = (f (fd (file_ p)) (wof p)).1 -> Q b p') ->
  wp (raw f) Q p.
Proof. intros H. unfold wp, raw. destruct (f _ _) as [b w]. cbn in *. by apply H. Qed.

Lemma wp_change f p :
  wp (change f) (fun b p' => frame p p' /\ words_of p' = if b then f (words_of p) else words_of p) p.
Proof.
  unfold change, getTermios, setTermios. apply wp_bind, wp_call. intros p1 o F1 H1 ->.
  destruct (tc_get_spec (fd (file_ p)) (wof p)) as [Hg Ho]. rewrite Hg in H1. destruct Ho as [-> | ->]; [by split|].
  apply wp_callb. intros p2 b F2 H2 Hb. split; [by eapply frame_trans|]. by rewrite H2, tc_set_spec, <- Hb, H1.
Qed.

(** The codes of the rates are speeds. *)
Lemma rate_code_speed r : is_speed (settingFromBaudRate r).
Proof.
  unfold settingFromBaudRate. assert (H : Forall (fun x => is_speed x.2) standardBaudRateMap) by (by repeat constructor).
  induction H as [|[r' c] m Hc _ IH]; cbn; [done|]. by case_match.
Qed.

(** A step that only concerns the speed. *)
Definition speed_step p p' : Prop := frame p p' /\ view (words_of p') = view (words_of p).
Lemma speed_step_trans p1 p2 p3 : speed_step p1 p2 -> speed_step p2 p3 -> speed_step p1 p3.
Proof. intros [? ?] [? ?]. split; [by eapply frame_trans|congruence]. Qed.

(** Writing the words with a part of the speed exchanged. *)
Lemma wp_tio2_set a b (i o : Z -> Z) p Q : is_speed a -> is_speed b ->
  (forall ok p', speed_step p p' -> Q ok p') ->
  wp (callb (fun n => tio2_set n (let t := on_cflag (fun c => bis a (bic b c)) (words_of p) in
        mk_termios (c_iflag t) (c_oflag t) (c_cflag t) (c_lflag t) (vmin t) (vtime t) (i (c_ispeed t)) (o (c_ospeed t))))) Q p.
Proof.
  intros Ha Hb H. apply wp_callb. intros p' ok F Hw _. apply H. split; [done|]. rewrite Hw, tio2_set_spec.
  case_match; [|done]. by rewrite <- (view_speed a b (words_of p)).
Qed.

Lemma wp_setStandardBaudRate code dirs p : is_speed code ->
  wp (setStandardBaudRate code dirs) (fun b p' => speed_step p p' /\
    (b = true -> test dirs Output = true -> speed_of (words_of p') = code)) p.
Proof.
  intros Hc. unfold setStandardBaudRate. apply wp_bind, wp_call. intros p1 o F1 H1 ->.
  destruct (tio2_get_spec (fd (file_ p)) (wof p)) as [Hg Ho]. rewrite Hg in H1.
  apply wp_bind. apply (wp_mono _ (fun _ p' => speed_step p p')).
  { destruct Ho as [-> | ->]; [by split; [|rewrite H1]|]. case_match; [|by split; [|rewrite H1]].
    apply wp_bind. rewrite <- H1. apply (wp_tio2_set CBAUD BOTHER id id); [done..|]. intros _ p' Hs.
    eapply speed_step_trans; [|exact Hs]. by split; [|rewrite H1]. }
  intros _ p2 S2. apply wp_bind, wp_call. intros p3 o F3 H3 ->. rewrite ser_get_attrs in H3.
  apply wp_bind. apply (wp_mono _ (fun _ p' => speed_step p p')).
  { assert (speed_step p p3) as S3 by (eapply speed_step_trans; [exact S2|]; by split; [|rewrite H3]).
    case_match; [|done]. case_match; [|done]. apply wp_bind, wp_callb. intros p4 b F4 H4 _. rewrite ser_set_attrs in H4.
    eapply speed_step_trans; [exact S3|]. by split; [|rewrite H4]. }
  intros _ p4 [F4 V4]. eapply wp_mono; [apply wp_change|]. cbn beta. intros b p5 [F5 H5].
  split; [split; [by eapply frame_trans|]|].
  - rewrite <- V4, H5. destruct b; [|done]. by repeat case_match; rewrite ?view_cfsetospeed, ?view_cfsetispeed.
  - intros -> Hd. rewrite H5, Hd. by apply speed_cfset.
Qed.

Lemma wp_setCustomBaudRate rate dirs p :
  wp (setCustomBaudRate rate dirs) (fun _ p' => speed_step p p') p.
Proof.
  unfold setCustomBaudRate. case_match; [by repeat split|].
  apply wp_bind, wp_call. intros p1 o F1 H1 ->.
  destruct (tio2_get_spec (fd (file_ p)) (wof p)) as [Hg Ho]. rewrite Hg in H1.
  assert (S1 : speed_step p p1) by (by split; [|rewrite H1]).
  apply wp_bind. apply (wp_mono _ (fun _ p' => speed_step p p')).
  { destruct Ho as [-> | ->]; [done|]. apply wp_bind. rewrite <- H1.
    apply (wp_tio2_set BOTHER CBAUD (fun _ => rate) (fun _ => rate)); [done..|]. intros ok p2 S2.
    pose proof (speed_step_trans _ _ _ S1 S2). destruct ok; [|done]. apply wp_bind, wp_call. intros p3 o F3 H3 _.
    eapply speed_step_trans; [done|]. split; [done|]. by rewrite H3, (proj1 (tio2_get_spec _ _)). }
  intros [] p2 S2; [done|]. apply wp_bind, wp_call. intros p3 o F3 H3 ->. rewrite ser_get_attrs in H3.
  assert (S3 : speed_step p p3) by (eapply speed_step_trans; [exact S2|]; by split; [|rewrite H3]).
  case_match; [|done]. case_match; [by destruct S3 as [[? ?] ?]; repeat split|]. apply wp_bind, wp_callb. intros p4 b F4 H4 _. rewrite ser_set_attrs in H4.
  assert (S4 : speed_step p p4) by (eapply speed_step_trans; [exact S3|]; by split; [|rewrite H4]).
  destruct b; [|done]. eapply wp_mono; [by apply wp_setStandardBaudRate|]. intros b p5 [S5 _]. by eapply speed_step_trans.
Qed.

Lemma wp_pSetBaudRate_dir rate dirs p :
  wp (pSetBaudRate_dir rate dirs) (fun b p' => speed_step p p' /\
    (b = true -> test dirs Output = true -> 0 < settingFromBaudRate rate -> speed_of (words_of p') = settingFromBaudRate rate)) p.
Proof.
  unfold pSetBaudRate_dir. case_match; [by repeat split|]. destruct (Z.ltb_spec 0 (settingFromBaudRate rate)).
  - eapply wp_mono; [apply wp_setStandardBaudRate, rate_code_speed|]. cbn beta. intros b p' [? ?]. auto.
  - eapply wp_mono; [apply wp_setCustomBaudRate|]. cbn beta. intros b p' ?. split; [done|lia].
Qed.

(** ** The settings on the line *)
Record reaches (s : Settings) (t : termios) : Prop := {
  r_data : data_of t = line_data (dataBits s);
  r_stop : stop_of t = line_stop (stopBits s);
  r_flow : flow_of t = line_flow (flowControl s);
  r_parity : parity s <> UnknownParity -> parity_of t = line_parity (sticky t) (parity s);
  r_rate : 0 < settingFromBaudRate (outputBaudRate s) -> speed_of t = settingFromBaudRate (outputBaudRate s) }.
(** With what the proof carries along; [st] is the sticky bit. *)
Record tuned (st : bool) p : Prop := {
  t_reaches : reaches (settings p) (words_of p);
  t_sticky : sticky (words_of p) = st;
  t_marks : marks (parity (settings p)) = true -> st = true;
  t_rates : inputBaudRate (settings p) = outputBaudRate (settings p);
  t_isopen : isOpen p = true }.

Lemma store_spec s p : wp (store LONG s) (fun _ p' => words_of p' = words_of p /\ isOpen p' = isOpen p /\
  exists a b, settings p' = mk_settings (inputBaudRate s) (outputBaudRate s) (dataBits s) (parity s) (stopBits s) (flowControl s) a b) p.
Proof. unfold wp, store, updateOneByteTime. destruct (_ =? 0); [done|]. cbn. eauto 6. Qed.

(** A setter on an open port: the settings are stored, then the words changed. *)
Lemma tuned_setter (same : bool) st st' s (f : Settings -> termios -> termios) p : tuned st p -> (same = true -> st' = st) ->
  (forall p' a b, isOpen p' = true ->
    settings p' = mk_settings (inputBaudRate s) (outputBaudRate s) (dataBits s) (parity s) (stopBits s) (flowControl s) a b ->
    words_of p' = f (settings p') (words_of p) -> tuned st' p') ->
  wp (if same then mret true else store LONG s;; when_open (fun p => change (f (settings p)) p)) (fun b p' => b = true -> tuned st' p') p.
Proof.
  intros HT Hst HQ. destruct same; [rewrite (Hst eq_refl); exact (fun _ => HT)|]. apply wp_bind. eapply wp_mono; [apply store_spec|]. cbn beta.
  intros _ p1 (W1 & O1 & a & b & S1). unfold when_open, wp at 1. rewrite O1, (t_isopen _ p HT).
  change (wp (change (f (settings p1))) (fun b p' => b = true -> tuned st' p') p1).
  eapply wp_mono; [apply wp_change|]. cbn beta. intros ok p2 [[Fs Fo] Hw] ->.
  apply (HQ p2 a b); [by rewrite Fo, O1; apply HT|congruence|]. by rewrite Hw, Fs, W1.
Qed.
Ltac tuned_by HT f := apply wp_bind; match goal with |- wp (gets settings) ?Q ?p => change (Q (settings p) p); cbn beta end;
  eapply (tuned_setter _ _ _ _ f); [exact HT|try done|intros p' a b Ho' Hs' Hw'; rewrite Hs' in Hw'; cbn in Hw';
  destruct HT as [[H1 H2 H3 H4 H5] Hs Hp Hr Ho]].
Ltac tuned_end E3 E5 E S W := constructor; [constructor|..]; rewrite ?S, ?W; cbn;
  congruence || (intros; first [rewrite E; solve [auto] | rewrite E3, E5; solve [auto] | solve [auto]]).

Lemma tuned_setDataBits d st p : tuned st p -> wp (setDataBits LONG d) (fun b p' => b = true -> tuned st p') p.
Proof.
  intros HT. unfold setDataBits. tuned_by HT (fun s => setTioDatabits (dataBits s)).
  destruct (setTioDatabits_spec d (words_of p)) as (E1 & E2 & E3 & E4 & E5),
    (speed_kept d NoParity OneStop NoFlowControl (words_of p)) as [E6 _]. tuned_end E3 E5 E6 Hs' Hw'.
Qed.

Lemma tuned_setStopBits d st p : tuned st p -> wp (setStopBits LONG d) (fun b p' => b = true -> tuned st p') p.
Proof.
  intros HT. unfold setStopBits. tuned_by HT (fun s => setTioStopbits (stopBits s)).
  destruct (setTioStopbits_spec d (words_of p)) as (E1 & E2 & E3 & E4 & E5),
    (speed_kept Data8 NoParity d NoFlowControl (words_of p)) as (_ & _ & E6 & _). tuned_end E3 E5 E6 Hs' Hw'.
Qed.

Lemma tuned_setParity q st p : tuned st p -> wp (setParity LONG q) (fun b p' => b = true -> tuned (st || marks q) p') p.
Proof.
  intros HT. unfold setParity. tuned_by HT (fun s => setTioParity (parity s)).
  - intros E%bool_decide_eq_true_1. destruct (marks q) eqn:Eq; [|apply orb_false_r].
    rewrite (t_marks _ p HT); [done|]. by rewrite E.
  - destruct (setTioParity_spec q (words_of p)) as (E1 & E2 & E3 & E4 & E5),
      (speed_kept Data8 q OneStop NoFlowControl (words_of p)) as (_ & E6 & _). rewrite Hs in E4, E5.
    constructor; [constructor|..]; rewrite ?Hs', ?Hw'; cbn; try congruence; [intros; rewrite E4; auto|
      intros; rewrite E6; auto|intros ->; apply orb_true_r].
Qed.

(** The words after the change, then two calls on the handshake lines. *)
Lemma wp_pSetFlowControl p : wp pSetFlowControl (fun b p' => b = true -> frame p p' /\
  words_of p' = setTioFlowcontrol (flowControl (settings p)) (words_of p)) p.
Proof.
  unfold pSetFlowControl, wp at 1.
  change (wp (success ← change (setTioFlowcontrol (flowControl (settings p)));
    if success : bool then o ← call mget; match o with None => mret false
      | Some status => callb (fun fd => mset fd (Z.lor status (Z.lor TIOCM_DTR TIOCM_RTS))) end else mret false)
    (fun b p' => b = true -> frame p p' /\ words_of p' = setTioFlowcontrol (flowControl (settings p)) (words_of p)) p).
  apply wp_bind. eapply wp_mono; [apply wp_change|]. cbn beta. intros [] p1 [F1 W1]; [|done].
  apply wp_bind, wp_call. intros p2 o F2 W2 _. rewrite mget_attrs in W2. destruct o as [x|]; [|done].
  apply wp_callb. intros p3 b F3 W3 _ _. rewrite mset_attrs in W3. split; [eauto using frame_trans|congruence].
Qed.

Lemma tuned_flow_words st p p' s : tuned st p -> isOpen p' = true -> settings p' = s ->
  (exists f, s = with_flow f (settings p) /\ words_of p' = setTioFlowcontrol f (words_of p)) -> tuned st p'.
Proof.
  intros [[H1 H2 H3 H4 H5] Hs Hp Hr Ho] Ho' Hs' (f & -> & Hw).
  destruct (setTioFlowcontrol_spec f (words_of p)) as (E1 & E2 & E3 & E4 & E5), (speed_kept Data8 NoParity OneStop f (words_of p)) as (_ & _ & _ & E6).
  tuned_end E3 E5 E6 Hs' Hw.
Qed.

Lemma tuned_setFlowControl f st p : tuned st p -> wp (setFlowControl f) (fun b p' => b = true -> tuned st p') p.
Proof.
  intros HT. unfold setFlowControl. apply wp_bind. change (wp (gets settings) ?Q p) with (Q (settings p) p). cbn beta.
  case_match; [exact (fun _ => HT)|]. apply wp_bind.
  change (wp (when_open pSetFlowControl) (fun b p' => b = true -> tuned st p') (set_settings (with_flow f (settings p)) p)).
  set (p1 := set_settings _ p). unfold when_open, wp at 1. change (isOpen p1) with (isOpen p). rewrite (t_isopen _ p HT).
  eapply wp_mono; [apply wp_pSetFlowControl|]. cbn beta. intros b p2 H2 Hb. destruct (H2 Hb) as [[Fs Fo] Hw].
  eapply (tuned_flow_words st p); [done|by rewrite Fo; apply HT|exact Fs|]. by exists f.
Qed.

Lemma tuned_setBaudRate r st p : tuned st p -> wp (setBaudRate LONG r AllDirections) (fun b p' => b = true -> tuned st p') p.
Proof.
  intros HT. unfold setBaudRate. apply wp_bind. change (wp (gets settings) ?Q p) with (Q (settings p) p). cbn beta zeta.
  change (test AllDirections Input) with true. change (test AllDirections Output) with true. cbn [andb].
  destruct HT as [[H1 H2 H3 H4 H5] Hs Hp Hr Ho]. rewrite Hr.
  destruct (Z.eqb_spec (outputBaudRate (settings p)) r) as [E|E]; cbn [negb orb].
  - apply wp_bind. intros _. by constructor.
  - apply wp_bind. eapply wp_mono; [apply store_spec|]. cbn beta. intros _ p1 (W1 & O1 & a & b & S1). cbn in S1.
    unfold when_open, wp at 1. rewrite O1, Ho.
    eapply wp_mono; [apply wp_pSetBaudRate_dir|]. cbn beta. intros ok p2 [[[Fs Fo] HV] Hsp] ->. specialize (Hsp eq_refl eq_refl).
    rewrite W1 in HV. unfold view in HV. injection HV as V1 V2 V3 V4 V5. rewrite S1 in Fs.
    constructor; [constructor|..]; rewrite ?Fs; cbn; congruence || auto. intros. rewrite V3, V5. auto.
Qed.

Lemma wp_and_then (m k : M (@port W) bool) (I J : @port W -> Prop) p :
  wp m (fun b p' => b = true -> I p') p -> (forall p', I p' -> wp k (fun b p' => b = true -> J p') p') ->
  wp (and_then m k) (fun b p' => b = true -> J p') p.
Proof. intros Hm Hk. apply wp_bind. eapply wp_mono; [exact Hm|]. intros [] p' H; [by apply Hk, H|by intros ?]. Qed.

Lemma tuned_setSettings s st p : inputBaudRate s = outputBaudRate s -> tuned st p ->
  wp (setSettings LONG s) (fun b p' => b = true -> tuned (st || marks (parity s)) p') p.
Proof.
  intros Hr HT. unfold setSettings. apply wp_bind. change (wp (gets settings) ?Q p) with (Q (settings p) p). cbn beta zeta.
  rewrite (t_rates _ p HT), Hr, Z.eqb_refl. set (m := and_then _ (setFlowControl _)). set (st' := st || marks (parity s)).
  assert (Hm : wp m (fun b p' => b = true -> tuned st' p') p).
  { apply wp_and_then with (tuned st'); [|intros; by apply tuned_setFlowControl].
    apply wp_and_then with (tuned st'); [|intros; by apply tuned_setStopBits].
    apply wp_and_then with (tuned st'); [by apply tuned_setParity|intros; by apply tuned_setDataBits]. }
  destruct (negb _); cbn [andb orb negb]; [|exact Hm].
  apply wp_and_then with (tuned st'); [exact Hm|]. intros p' HT'. by apply tuned_setBaudRate.
Qed.

(** ** Opening *)
(** The words written first, and again with the flow control. *)
Definition start_words (m : Z) (s : Settings) (t : termios) : termios :=
  setTioFlowcontrol (flowControl s) (setTioStopbits (stopBits s) (setTioParity (parity s) (setTioDatabits (dataBits s) (setTioCommonProps m t)))).
Lemma start_words_spec m s t :
  let t' := setTioFlowcontrol (flowControl s) (start_words m s t) in
  data_of t' = line_data (dataBits s) /\ stop_of t' = line_stop (stopBits s) /\ flow_of t' = line_flow (flowControl s) /\
  sticky t' = sticky t || marks (parity s) /\
  (parity s <> UnknownParity -> parity_of t' = line_parity (sticky t || marks (parity s)) (parity s)).
Proof.
  intros t'. subst t'. unfold start_words.
  set (t1 := setTioDatabits _ _). set (t2 := setTioParity _ t1). set (t3 := setTioStopbits _ t2). set (t4 := setTioFlowcontrol _ t3).
  destruct (setTioDatabits_spec (dataBits s) (setTioCommonProps m t)) as (A1 & _ & _ & _ & A5). fold t1 in A1, A5.
  rewrite setTioCommonProps_sticky in A5. destruct (setTioParity_spec (parity s) t1) as (B1 & _ & _ & B4 & B5). fold t2 in B1, B4, B5.
  rewrite A5 in B4, B5.
  destruct (setTioStopbits_spec (stopBits s) t2) as (C1 & C2 & C3 & _ & C5). fold t3 in C1, C2, C3, C5.
  destruct (setTioFlowcontrol_spec (flowControl s) t3) as (D1 & D2 & D3 & D4 & D5). fold t4 in D1, D2, D3, D4, D5.
  destruct (setTioFlowcontrol_spec (flowControl s) t4) as (G1 & G2 & G3 & G4 & G5). repeat split; try congruence.
  intros Hu. rewrite G3, D3, C3. auto.
Qed.

Lemma initialize_tuned m p : isOpen p = true -> inputBaudRate (settings p) = outputBaudRate (settings p) ->
  wp (initialize m) (fun b p' => b = true -> tuned (sticky (words_of p) || marks (parity (settings p))) p') p.
Proof.
  intros Ho Hr. unfold initialize. apply wp_bind, wp_raw. intros p1 tty F1 W1 _. rewrite isatty_attrs in W1.
  destruct tty; [|by intros ?]. apply wp_bind, wp_callb. intros p2 ? F2 W2 _. rewrite excl_attrs in W2.
  apply wp_bind, wp_call. intros p3 o F3 W3 ->. destruct (tc_get_spec (fd (file_ p2)) (wof p2)) as [Hg Hget]. rewrite Hg in W3.
  assert (F : frame p p3) by eauto using frame_trans.
  destruct Hget as [-> | ->]; [by intros ?|]. rewrite W2, W1.
  apply wp_bind. change (wp (save ?t) ?Q p3) with (Q tt (mk_port (file_ p3) (settings p3) t (isBreakEnabled p3))). cbn beta.
  set (p4 := mk_port _ _ _ _). apply wp_bind. change (wp (gets settings) ?Q p4) with (Q (settings p3) p4). cbn beta zeta.
  destruct F as [Fs Fo]. rewrite Fs. fold (start_words m (settings p) (words_of p)). set (s := settings p) in *.
  apply wp_bind, wp_callb. intros p5 ok [F5s F5o] W5 Hok. rewrite tc_set_spec, <- Hok in W5. destruct ok; [|by intros ?]. cbn [negb].
  change (settings p4) with (settings p3) in F5s. change (isOpen p4) with (isOpen p3) in F5o.
  apply wp_bind. eapply wp_mono; [apply wp_pSetFlowControl|]. cbn beta. intros [] p6 H6; [|by intros ?]. destruct (H6 eq_refl) as [[F6s F6o] W6].
  cbn [negb]. assert (S6 : settings p6 = s) by congruence. rewrite F5s, Fs, W5 in W6.
  apply wp_bind. unfold pSetBaudRate, wp at 1. rewrite S6, Hr, Z.eqb_refl.
  eapply wp_mono; [apply wp_pSetBaudRate_dir|]. cbn beta. intros [] p7 [[[F7s F7o] V7] H7]; [|by intros ?]. specialize (H7 eq_refl eq_refl).
  cbn [negb]. apply wp_bind. unfold pTcflush. apply wp_bind, wp_callb. intros p8 ? [F8s F8o] W8 _. rewrite flush_attrs in W8.
  intros _. set (p9 := set_world _ _). assert (W9 : words_of p9 = words_of p7) by (unfold p9, wof; cbn; by rewrite delay_attrs).
  assert (S9 : settings p9 = s) by (change (settings p8 = s); congruence).
  unfold view in V7. injection V7 as V1 V2 V3 V4 V5. destruct (start_words_spec m s (words_of p)) as (G1 & G2 & G3 & G4 & G5).
  rewrite <- W6 in G1, G2, G3, G4, G5.
  constructor; [constructor|..]; rewrite ?S9, ?W9; try congruence.
  - intros Hu. rewrite V3, V5, G4. auto.
  - done.
  - intros ->. apply orb_true_r.
  - change (isOpen p8 = true). congruence.
Qed.

Lemma fs_open_spec m fl p : wp (fs_open m fl) (fun b p' => settings p' = settings p /\ words_of p' = words_of p /\
  (b = true -> m <> NotOpen -> isOpen p' = true)) p.
Proof.
  unfold wp, fs_open, FileStream.popen, FileDevice.popen.
  match goal with |- context [sys_open ?q ?f ?w] => pose proof (open_attrs q f w) as Ha; destruct (sys_open q f w) as [n w'] end.
  cbn in Ha |- *. destruct (n =? -1); cbn; (split; [done|]; split; [exact Ha|]); [done|]. intros _ Hm. by apply negb_true_iff, Z.eqb_neq.
Qed.

Lemma sopen_tuned indet m p : isOpen p = false -> ourFile (file_ p) = true -> m <> NotOpen ->
  inputBaudRate (settings p) = outputBaudRate (settings p) ->
  wp (sopen indet m) (fun b p' => b = true -> tuned (sticky (words_of p) || marks (parity (settings p))) p') p.
Proof.
  intros Hc Hu Hm Hr. unfold sopen, wp at 1. rewrite Hc, Hu. cbn [negb andb]. set (st := sticky _ || _).
  change (wp (p_open indet m) (fun b p' => b = true -> tuned st p') p). unfold p_open. apply wp_bind. unfold t_open.
  apply wp_bind. eapply wp_mono; [apply fs_open_spec|]. cbn beta. intros [] p1 (S1 & W1 & O1); [|by intros ?]. cbn [negb].
  specialize (O1 eq_refl Hm). apply wp_bind, wp_raw. intros p2 b2 F2 W2 _. rewrite start_attrs in W2. destruct b2; [|by intros ?].
  apply wp_bind, wp_raw. intros p3 lk F3 W3 _. rewrite flock_attrs in W3. destruct (frame_trans _ _ _ F2 F3) as [Fs Fo].
  assert (E : words_of p3 = words_of p /\ settings p3 = settings p) by (split; congruence). destruct E as [E1 E2].
  apply wp_bind. destruct lk.
  - eapply wp_mono; [apply initialize_tuned; congruence|]. rewrite E1, E2. intros [] p4 H4; [exact (fun _ => H4 eq_refl)|].
    apply wp_bind, wp_false.
  - apply wp_bind, wp_false.
Qed.

(** The setters; a rate is set for both directions. *)
Inductive setter : Type :=
  | Baud (r : Z) | Data (d : DataBits) | Par (q : Parity) | Stop (b : StopBits) | Flow (f : FlowControl) | All (s : Settings).
Definition run_setter (c : setter) : M (@port W) bool :=
  match c with
  | Baud r => setBaudRate LONG r AllDirections | Data d => setDataBits LONG d | Par q => setParity LONG q
  | Stop b => setStopBits LONG b | Flow f => setFlowControl f | All s => setSettings LONG s
  end.
Definition one_rate (c : setter) : bool := match c with All s => inputBaudRate s =? outputBaudRate s | _ => true end.
Definition sets_mark (c : setter) : bool :=
  match c with Par q => marks q | All s => marks (parity s) | _ => false end.
Fixpoint run_setters (cs : list setter) : M (@port W) bool :=
  match cs with [] => mret true | c :: cs => and_then (run_setter c) (run_setters cs) end.

Lemma run_setters_tuned cs st p : forallb one_rate cs = true -> tuned st p ->
  wp (run_setters cs) (fun b p' => b = true -> tuned (st || existsb sets_mark cs) p') p.
Proof.
  revert st p. induction cs as [|c cs IH]; intros st p Hcs HT; [cbn; rewrite orb_false_r; exact (fun _ => HT)|].
  cbn in Hcs. apply andb_true_iff in Hcs as [Hc Hcs]. cbn [run_setters existsb]. rewrite orb_assoc.
  apply wp_and_then with (tuned (st || sets_mark c)); [|intros p' HT'; by apply IH].
  destruct c; cbn in Hc |- *; rewrite ?orb_false_r; [by apply tuned_setBaudRate|by apply tuned_setDataBits|by apply tuned_setParity|
    by apply tuned_setStopBits|by apply tuned_setFlowControl|]. apply Z.eqb_eq in Hc. by apply tuned_setSettings.
Qed.

End Line.

(** ** A failed open *)
Section Failed.
Context {W : Type} {FO : FileOs W} {T : TtyOs W} (indet : Z).
Implicit Types p : @port W.
Definition held p : Prop := isOpen p = true /\ ourFile (file_ p) = true.
Lemma held_error p : held p -> held (setError p).
Proof. destruct (setError_same (file_ p)) as (H1 & _ & H3 & _). intros [Ho Hu]. split; [exact (eq_trans H1 Ho)|exact (eq_trans H3 Hu)]. Qed.
Lemma keeps_held_call {A} (f : Z -> W -> option A * W) : keeps held (call f).
Proof. intros p Hp. unfold call. destruct (f _ _) as [[a|] w]; [done|]. by apply (held_error (set_world w p)). Qed.
Lemma keeps_held_callb f : keeps held (@callb W FO f).
Proof. intros p Hp. unfold callb. destruct (f _ _) as [[] w]; [done|]. by apply (held_error (set_world w p)). Qed.
Lemma keeps_held_raw f : keeps held (@raw W f).
Proof. intros p Hp. unfold raw. by destruct (f _ _). Qed.
Lemma keeps_held_pass f : keeps held (@pass W f).
Proof. by intros p Hp. Qed.
Lemma keeps_held_text e t : keeps held (modify (@setError_text W e t)).
Proof. by intros p Hp. Qed.
Lemma keeps_held_save t : keeps held (@save W t).
Proof. by intros p Hp. Qed.
Lemma keeps_held_fs_close : keeps held (@fs_close W FO).
Proof. intros p [Ho Hu]. unfold fs_close, FileStream.pclose. split; cbn; by case_match. Qed.
#[local] Hint Resolve keeps_held_call keeps_held_callb keeps_held_raw keeps_held_pass keeps_held_text keeps_held_save
  keeps_held_fs_close : keeps.
#[local] Hint Extern 1 (keeps _ (match ?x with _ => _ end)) => destruct x : keeps.
#[local] Hint Extern 1 (keeps _ (if ?x then _ else _)) => destruct x : keeps.

(** Computations that look at the port first. *)
Ltac at_port := lazymatch goal with H : held ?p |- held (?m ?p).2 => refine ((_ : keeps held m) p H) end.

Lemma keeps_held_change f : keeps held (@change W FO T f).
Proof. unfold change, getTermios, setTermios. auto with keeps. Qed.
#[local] Hint Resolve keeps_held_change : keeps.
Lemma keeps_held_flow : keeps held (@pSetFlowControl W FO T).
Proof. intros p Hp. unfold pSetFlowControl. at_port. auto 6 with keeps. Qed.
Lemma keeps_held_standard c d : keeps held (@setStandardBaudRate W FO T c d).
Proof. unfold setStandardBaudRate. auto 12 with keeps. Qed.
#[local] Hint Resolve keeps_held_flow keeps_held_standard : keeps.
Lemma keeps_held_custom c d : keeps held (@setCustomBaudRate W FO T c d).
Proof. unfold setCustomBaudRate. auto 14 with keeps. Qed.
#[local] Hint Resolve keeps_held_custom : keeps.
Lemma keeps_held_rate : keeps held (@pSetBaudRate W FO T).
Proof. intros p Hp. unfold pSetBaudRate, pSetBaudRate_dir. at_port. auto 10 with keeps. Qed.
#[local] Hint Resolve keeps_held_rate : keeps.
Lemma keeps_held_initialize m : keeps held (@initialize W FO T m).
Proof. unfold initialize, getTermios, setTermios, pTcflush. auto 20 with keeps. Qed.
#[local] Hint Resolve keeps_held_initialize : keeps.

Lemma wp_keeps {S A} (I : S -> Prop) (m : M S A) s : keeps I m -> I s -> wp m (fun _ => I) s.
Proof. intros H Hs. specialize (H s Hs). unfold wp. by destruct (m s) as [[a|e] s']. Qed.

Definition stuck p : Prop := held p /\ fd (file_ p) = -1.
Lemma fs_close_stuck p : held p -> wp fs_close (fun _ => stuck) p.
Proof. intros Hp. pose proof (keeps_held_fs_close p Hp) as H. by split. Qed.
Lemma p_close_stuck p : held p -> wp (p_close indet) (fun _ => stuck) p.
Proof.
  intros Hp. unfold p_close, t_close.
  do 7 (apply wp_bind; eapply wp_mono; [apply (wp_keeps held); [auto with keeps|eassumption]|]; cbn beta; intros ? ? ?).
  by apply fs_close_stuck.
Qed.

(** A serial port whose opening fails counts as open: when the device file
    could be opened but the port is locked by another process, is no terminal, or
    refuses a setting, [open] answers no and releases the descriptor, yet the port
    reports that it is open, and the next [open] answers yes and does nothing. *)
Theorem serial_failed_open_counts_as_open m m' p p0 p' : isOpen p = false -> ourFile (file_ p) = true -> m <> NotOpen ->
  fs_open m O_TTY p = (Ok true, p0) -> sopen indet m p = (Ok false, p') ->
  isOpen p' = true /\ fd (file_ p') = -1 /\ sopen indet m' p' = (Ok true, p').
Proof.
  intros Hc Hu Hm E0 E1. assert (H0 : held p0).
  { revert E0. unfold fs_open, FileStream.popen, FileDevice.popen. destruct (sys_open _ _ _) as [n w]. cbn.
    destruct (n =? -1); cbn; [done|]. intros [= <-]. split; [by apply negb_true_iff, Z.eqb_neq|exact Hu]. }
  assert (HW : wp (p_open indet m) (fun b p' => b = false -> stuck p') p).
  { unfold p_open, t_open. apply wp_bind, wp_bind. unfold wp at 1. rewrite E0. cbn [negb].
    apply wp_bind. eapply wp_mono; [apply (wp_keeps held); auto with keeps|]. cbn beta. intros [] p1 H1.
    - apply wp_bind. eapply wp_mono; [apply (wp_keeps held); auto with keeps|]. cbn beta. intros lk p2 H2.
      apply wp_bind. eapply wp_mono; [apply (wp_keeps held); auto with keeps|]. cbn beta. intros [] p3 H3; [by intros ?|].
      apply wp_bind. apply wp_bind. eapply wp_mono; [apply p_close_stuck, held_error, H3|]. intros u p4 H4 _. exact H4.
    - apply wp_bind. eapply wp_mono; [apply fs_close_stuck, H1|]. intros u p2 H2 _. exact H2. }
  unfold sopen in E1. rewrite Hc, Hu in E1. cbn [negb andb] in E1. unfold wp in HW. rewrite E1 in HW.
  destruct (HW eq_refl) as [[H1 H2] H3]. split; [done|]. split; [done|]. unfold sopen. by rewrite H1.
Qed.
End Failed.

(** The end of line asked for is sent only in the RS-485 modes. *)
Lemma write_endl_ignored {W : Type} {FO : FileOs W} {T : TtyOs W} LONG (data : list Z) (p : @port W) :
  rs485 (flowControl (settings p)) = false -> write LONG data true p = write LONG data false p.
Proof. intros H. unfold write. by rewrite H. Qed.

(** ** The Arduino interface *)
Section HardwareSerial.
Context (LONG : Z) {W : Type} {FO : FileOs W} {T : TtyOs W} (indet : Z).
Record hwserial : Type := mk_hw { hport : @port W; os_exceptions : Z; os_state : Z; writelnDelay : Z }.
Definition on_port {A} (m : M (@port W) A) : M hwserial A := fun h =>
  let '(r, p) := m (hport h) in (r, mk_hw p (os_exceptions h) (os_state h) (writelnDelay h)).
(** [failbit | badbit]; [clear] resets the state of the stream. *)
Definition term_begin (clear : W -> W) : M hwserial unit :=
  modify (fun h => mk_hw (hport h) 5 (os_exceptions h) (writelnDelay h));; on_port (pass clear).
Definition term_end : M hwserial unit := modify (fun h => mk_hw (hport h) (os_state h) (os_state h) (writelnDelay h)).

(** The switch of [begin]: the settings each code assigns. *)
Definition configure (config : Z) (s : Settings) : Settings :=
  let d5 := with_data Data5 in let d6 := with_data Data6 in let d7 := with_data Data7 in
  let s2 := with_stop TwoStop in let e := with_parity EvenParity in let o := with_parity OddParity in
  match config with
  | 0x00 => d5 s | 0x02 => d6 s | 0x04 => d7 s
  | 0x08 => s2 (d5 s) | 0x0A => s2 (d6 s) | 0x0C => s2 (d7 s) | 0x0E => s2 s
  | 0x20 => e (d5 s) | 0x22 => e (d6 s) | 0x24 => e (d7 s) | 0x26 => e s
  | 0x28 => e (s2 (d5 s)) | 0x2A => e (s2 (d6 s)) | 0x2C => e (s2 (d7 s)) | 0x2E => e (s2 s)
  | 0x30 => o (d5 s) | 0x32 => o (d6 s) | 0x34 => o (d7 s) | 0x36 => o s
  | 0x38 => o (s2 (d5 s)) | 0x3A => o (s2 (d6 s)) | 0x3C => o (s2 (d7 s)) | 0x3E => o (s2 s)
  | _ => s
  end.
(** [begin]; [delay] is the delay of the board for a port of this name, when it has one. *)
Definition begin (clear : W -> W) (delay : option Z) (baud config : Z) : M hwserial unit :=
  s ← gets (fun h => settings (hport h));
  term_begin clear;;
  on_port (setSettings LONG (configure config s));;
  on_port (setBaudRate LONG (i32 baud) AllDirections);;
  ok ← on_port (sopen indet (Z.lor ReadWrite Binary));
  if ok : bool then
    term_begin clear;; modify (fun h => mk_hw (hport h) (os_exceptions h) (os_state h) (default (writelnDelay h) delay))
  else h ← gets (fun h => errno_of (wof (hport h))); throw (SystemError h).
Definition end_ : M hwserial unit := term_end;; on_port (sclose indet).
End HardwareSerial.

(** The frame a code stands for: bits 1-2 the data bits, bit 3 the stop bits, bits 4-5 the parity. *)
Definition frame_of (config : Z) : DataBits * StopBits * Parity :=
  (match Z.land (Z.shiftr config 1) 3 with 0 => Data5 | 1 => Data6 | 2 => Data7 | _ => Data8 end,
   if Z.testbit config 3 then TwoStop else OneStop,
   match Z.land (Z.shiftr config 4) 3 with 2 => EvenParity | 3 => OddParity | _ => NoParity end).
Definition codes : list Z := flat_map (fun p => (fun k => p + 2 * k) <$> seqZ 0 8) [0x00; 0x20; 0x30].
Lemma configure_from_default config s : config ∈ codes -> dataBits s = Data8 -> stopBits s = OneStop -> parity s = NoParity ->
  let s' := configure config s in (dataBits s', stopBits s', parity s') = frame_of config.
Proof.
  intros Hc Hd Hb Hq. assert (Forall (fun c => let s' := configure c s in (dataBits s', stopBits s', parity s') = frame_of c) codes) as H.
  { destruct s. cbn in Hd, Hb, Hq. subst. let l := eval vm_compute in codes in change codes with l.
    repeat (apply Forall_cons; split; [reflexivity|]). by apply Forall_nil. }
  rewrite Forall_forall in H. by apply H.
Qed.
(** The codes assign only what differs from 8N1, so 8N1 keeps the frame of an earlier [begin]. *)
Lemma configure_8N1_keeps s : configure 0x06 s = s.
Proof. done. Qed.

(** ** A terminal *)
Module Demo.
(** The descriptors, the words, whether another process holds the lock, and what was done on the line. *)
Inductive event : Type := Rts (on : bool) | Wait (us : Z) | Sent (bs : list Z) | Flushed.
Record tty : Type := mk_tty { d_fds : gset Z; d_words : termios; d_locked : bool; d_log : list event }.
Definition log (e : event) (w : tty) : tty := mk_tty (d_fds w) (d_words w) (d_locked w) (d_log w ++ [e]).
Definition put (t : termios) (w : tty) : tty := mk_tty (d_fds w) t (d_locked w) (d_log w).
#[export] Instance tty_files : FileOs tty := {
  sys_open _ _ w := (3, mk_tty ({[3]} ∪ d_fds w) (d_words w) (d_locked w) (d_log w));
  sys_close n w := (0, mk_tty (d_fds w ∖ {[n]}) (d_words w) (d_locked w) (d_log w));
  sys_getfl _ w := (-1, w);
  sys_read _ _ w := ((-1, []), w);
  sys_write _ bs w := (Z.of_nat (length bs), w);
  sys_ioctl _ _ w := (-1, w);
  errno_of _ := 11;
  open_fds w := d_fds w }.
#[export] Instance tty_os : TtyOs tty := {
  tc_get _ w := (Some (d_words w), w);
  tc_set _ t w := (true, put t w);
  tio2_get _ w := (Some (d_words w), w);
  tio2_set _ t w := (true, put t w);
  ser_get _ w := (None, w);
  ser_set _ _ w := (false, w);
  mget _ w := (Some 0, w);
  mset _ _ w := (true, w);
  mbis _ b w := (true, if b =? TIOCM_RTS then log (Rts true) w else w);
  mbic _ b w := (true, if b =? TIOCM_RTS then log (Rts false) w else w);
  t_flush _ _ w := (true, w);
  t_excl _ _ w := (true, w);
  t_flock _ on w := (negb (on && d_locked w), w);
  t_isatty _ w := (true, w);
  t_break _ _ w := (true, w);
  t_sendbreak _ _ w := (true, w);
  n_start _ w := (true, w);
  n_terminate w := w;
  os_write bs w := (true, log (Sent bs) w);
  os_flush w := log Flushed w;
  t_delay us w := log (Wait us) w }.
#[export] Instance tty_ok : TtyOsOk tty.
Proof. refine {| attrs := d_words |}; cbn; intros; try done; try (split; [done|by right]); by case_match. Defined.

(** The words of a console, and those nobody has set. *)
Definition console : termios := mk_termios 0x500 0x5 0xBF 0x8A3B 1 0 15 15.
Definition junk : termios := mk_termios 0 0 0 0 0 0 0 0.
Definition s9600 : Settings := mk_settings 9600 9600 Data8 NoParity OneStop NoFlowControl 1041 1041.
Definition new_port (locked : bool) : @port tty := mk_port (FileDevice.new (mk_tty ∅ console locked [])) s9600 junk false.
Definition demo_setters : list setter := [Baud 115200; Data Data7; Par MarkParity; Par EvenParity; Stop TwoStop; Flow HardwareControl].
Definition opened : @port tty := (sopen 0 ReadWrite (new_port false)).2.


Lemma serial_failed_open_counts_as_open_witness : let p' := (sopen 0 ReadWrite (new_port true)).2 in
  isOpen p' = true /\ fd (file_ p') = -1 /\ sopen 0 ReadWrite p' = (Ok true, p').
Proof.
  apply (serial_failed_open_counts_as_open 0 ReadWrite ReadWrite (new_port true) (fs_open ReadWrite O_TTY (new_port true)).2);
    first [discriminate | vm_compute; reflexivity].
Defined.

(** When another process has the lock, the words of its terminal are replaced by
    those the new port was created with, which nobody has set. *)
Lemma locked_open_overwrites : attrs (wof (sopen 0 ReadWrite (new_port true)).2) = junk.
Proof. vm_compute. reflexivity. Qed.

(** A line in RS-485 mode: the direction is taken, held for the delays and the
    bytes, and released. *)
Lemma rs485_sequence : let p := (setFlowControl Rs485OnSendControl opened).2 in
  drop (length (d_log (wof p))) (d_log (wof (write 32 [104; 105] true p).2)) =
  [Rts true; Wait 1041; Sent [104; 105]; Sent CRLF; Flushed; Wait 5205; Rts false].
Proof. vm_compute. reflexivity. Qed.
End Demo.
End SerialPort.
