(* ===== verification/StdStream.v ===== *)
(** * Text in and out of the streams of the C++ library

    What the sources use of the standard streams in the classic locale: lines
    ([std::getline]) and the extraction of numbers ([is >> number]) of 16, 32 or 64
    bits, over texts that are lists of bytes; a number printed in base 10 is read back. *)
From Stdlib Require Import Ascii.
From S2P Require Import Prelude Text ArduinoPrint.

Module StdStream.
Import Digits PString ArduinoPrint.

(** [std::getline] until the end. *)
Fixpoint lines_of (cur : bytes) (s : bytes) : list bytes :=
  match s with
  | [] => match cur with [] => [] | _ => [cur] end
  | c :: s => if c =? 10 then cur :: lines_of [] s else lines_of (cur ++ [c]) s
  end.

Lemma lines_of_line l rest : forall cur, 10 ∉ l -> lines_of cur (l ++ 10 :: rest) = (cur ++ l) :: lines_of [] rest.
Proof.
  induction l as [|c l IH]; intros cur Hl; cbn; [by rewrite app_nil_r|]. apply not_elem_of_cons in Hl as [Hc Hl].
  rewrite (proj2 (Z.eqb_neq c 10)), IH by done. by rewrite <- app_assoc.
Qed.
(** Lines that hold no end of line are read back as they were written. *)
Lemma lines_of_lines {A} (f : A -> bytes) ls : Forall (fun x => 10 ∉ f x) ls -> lines_of [] (ls ≫= fun x => f x ++ [10]) = f <$> ls.
Proof. induction 1 as [|l ls Hl _ IH]; [done|]. cbn. rewrite <- app_assoc. cbn. rewrite lines_of_line by done. by rewrite IH. Qed.

Definition space (c : Z) : bool := bool_decide (c ∈ [9; 10; 11; 12; 13; 32]).
Definition isdigit (c : Z) : bool := (48 <=? c) && (c <=? 57).
Fixpoint skip_spaces (s : bytes) : bytes :=
  match s with c :: s' => if space c then skip_spaces s' else s | [] => [] end.
Fixpoint take_digits (s : bytes) : list Z * bytes :=
  match s with
  | c :: s' => if isdigit c then let '(ds, r) := take_digits s' in (c - 48 :: ds, r) else ([], s)
  | [] => ([], [])
  end.
Definition in_range (signed : bool) (bits z : Z) : bool :=
  if signed then (- 2 ^ (bits - 1) <=? z) && (z <? 2 ^ (bits - 1)) else (0 <=? z) && (z <? 2 ^ bits).
Definition take_sign (s : bytes) : bool * bytes :=
  match s with
  | c :: s' => if c =? 45 then (true, s') else if c =? 43 then (false, s') else (false, s)
  | [] => (false, [])
  end.
(** [is >> number] in base 10: the number and the text that is left, or failure.
    A sign before an unsigned number negates it modulo the width. *)
Definition extract_num (signed : bool) (bits : Z) (s : bytes) : option (Z * bytes) :=
  let s := skip_spaces s in
  let '(neg, s) := take_sign s in
  let '(ds, r) := take_digits s in
  match ds with
  | [] => None
  | _ =>
      let n := Digits.value 10 ds in
      if signed then let z := if neg : bool then - n else n in if in_range true bits z then Some (z, r) else None
      else if n <? 2 ^ bits then Some (if neg : bool then (- n) mod 2 ^ bits else n, r) else None
  end.

Lemma skip_spaces_length s : (length (skip_spaces s) <= length s)%nat.
Proof. induction s as [|c s IH]; cbn; [lia|]. case_match; cbn; lia. Qed.
Lemma take_digits_length s : (length (take_digits s).1 + length (take_digits s).2)%nat = length s.
Proof. induction s as [|c s IH]; cbn; [done|]. destruct (isdigit c); [|done]. destruct (take_digits s). cbn in *. lia. Qed.
Lemma take_digits_range s : Forall (fun d => 0 <= d < 10) (take_digits s).1.
Proof.
  induction s as [|c s IH]; cbn; [done|]. destruct (isdigit c) eqn:E; [|done]. destruct (take_digits s). cbn in *.
  unfold isdigit in E. constructor; [lia|done].
Qed.
Lemma take_sign_length s : (length (take_sign s).2 <= length s)%nat.
Proof. destruct s; cbn; [lia|]. repeat case_match; cbn; lia. Qed.
Lemma extract_num_range signed bits s z r : 0 < bits -> extract_num signed bits s = Some (z, r) ->
  in_range signed bits z = true /\ (length r < length s)%nat.
Proof.
  intros Hb. unfold extract_num. pose proof (skip_spaces_length s) as Hs. set (s1 := skip_spaces s) in *.
  pose proof (take_sign_length s1) as Hn. destruct (take_sign s1) as [neg s2]. cbn in Hn.
  pose proof (take_digits_length s2) as Ht. pose proof (take_digits_range s2) as Hr.
  destruct (take_digits s2) as [ds r']. cbn [fst snd] in *. destruct ds as [|d ds]; [done|]. cbn [length] in Ht.
  set (n := Digits.value 10 (d :: ds)). assert (0 <= n) by (apply (value_range 10 (d :: ds) 0); [lia|lia|done]).
  destruct signed; [case_match; [|done]; intros [= <- <-]; split; [done|lia]|].
  destruct (Z.ltb_spec n (2 ^ bits)); [|done]. intros [= <- <-]. split; [|lia]. unfold in_range.
  pose proof (Z.mod_pos_bound (- n) (2 ^ bits)). destruct neg; lia.
Qed.


(** A number printed by the stream library is read back. *)
Lemma take_digits_print ds : Forall (fun d => 0 <= d < 10) ds -> take_digits (print_char <$> ds) = (ds, []).
Proof.
  induction 1 as [|d ds Hd _ IH]; [done|]. cbn. rewrite IH, print_char_digit by done. change (byte_of "0") with 48. unfold isdigit.
  rewrite (proj2 (Z.leb_le _ _)), (proj2 (Z.leb_le _ _)) by lia. cbn. do 2 f_equal. lia.
Qed.
Lemma space_iff c : space c = true <-> 9 <= c <= 13 \/ c = 32.
Proof. unfold space. rewrite bool_decide_eq_true. set_unfold. lia. Qed.
Lemma digit_head ds : Forall (fun d => 0 <= d < 10) ds -> ds <> [] -> exists c s, print_char <$> ds = c :: s /\ 48 <= c <= 57.
Proof. destruct 1 as [|d ds Hd]; [done|]. intros _. do 2 eexists. split; [done|]. rewrite print_char_digit by done. change (byte_of "0") with 48. lia. Qed.
Lemma extract_num_long_text signed bits z : 0 < bits -> in_range signed bits z = true ->
  extract_num signed bits (long_text z) = Some (z, []).
Proof.
  intros Hb Hr. set (ds := digits 10 (Z.abs z)).
  assert (Hds : Forall (fun d => 0 <= d < 10) ds) by (apply digits_range; lia).
  assert (Hne : ds <> []) by (apply digits_ne; lia).
  assert (Hv : Digits.value 10 ds = Z.abs z) by (apply digits_value; lia).
  destruct (digit_head ds Hds Hne) as (c & s & Hc & Hcr).
  assert (Hsp : forall x, 33 <= x -> space x = false) by (intros x Hx; apply not_true_iff_false; rewrite space_iff; lia).
  unfold extract_num, long_text. fold ds. destruct (Z.ltb_spec z 0) as [Hz|Hz].
  - cbn [app skip_spaces]. change (byte_of "-") with 45. rewrite Hsp by lia. cbn [take_sign]. change (45 =? 45) with true. cbv iota.
    rewrite take_digits_print by done. destruct ds; [done|]. rewrite Hv. destruct signed; [|unfold in_range in Hr; lia].
    replace (- Z.abs z) with z by lia. by rewrite Hr.
  - cbn [app]. rewrite Hc. cbn [skip_spaces]. rewrite Hsp by lia. cbn [take_sign].
    rewrite (proj2 (Z.eqb_neq c 45)), (proj2 (Z.eqb_neq c 43)) by lia. rewrite <- Hc, take_digits_print by done.
    destruct ds; [done|]. rewrite Hv, Z.abs_eq by lia. destruct signed; [by rewrite Hr|].
    rewrite (proj2 (Z.ltb_lt _ _)); [done|]. unfold in_range in Hr. lia.
Qed.
End StdStream.
