(* ===== verification/Popl.v ===== *)
(** * The option parser, include/piduino/popl.h

    [opt] is an [Option] with its class ([Value], [Implicit] or [Switch]), its
    names and its values; a parser holds the options in the order they were
    added and the variables they are bound to.  The arguments of a command line
    are C strings, lists of bytes that are not 0; numbers have 16, 32 or 64 bits. *)
From Stdlib Require Import Ascii.
From S2P Require Import Prelude IoDevice Converter Text ArduinoPrint StdStream.

Module Popl.
Import Digits PString ArduinoPrint StdStream.

Inductive Argument : Type := ArgNo | ArgRequired | ArgOptional.
Inductive Attribute : Type := Inactive | Hidden | Required | Optional | Advanced | Expert.
#[export] Instance Attribute_eq_dec : EqDecision Attribute.
Proof. solve_decision. Defined.
Definition rank (a : Attribute) : Z :=
  match a with Inactive => 0 | Hidden => 1 | Required => 2 | Optional => 3 | Advanced => 4 | Expert => 5 end.
Inductive OptionName : Type := Unspecified | ShortName | LongName.

(** The types of values the programs use: strings, and numbers of a width. *)
Inductive vtype : Type := TString | TInt (signed : bool) (bits : Z).
Inductive val : Type := VS (s : bytes) | VN (z : Z) | VB (b : bool).
Inductive kind : Type := KValue (t : vtype) | KImplicit (t : vtype) | KSwitch.
Definition argument_type (k : kind) : Argument :=
  match k with KValue _ => ArgRequired | KImplicit _ => ArgOptional | KSwitch => ArgNo end.

Inductive Error : Type := MissingArgument | InvalidArgumentError | TooManyArguments | MissingOption.
(** What a call throws: [invalid_option] with the number of the option,
    [std::invalid_argument], [std::out_of_range], or what is undefined. *)
Inductive failure : Type :=
  | InvalidOption (i : nat) (e : Error) (what : OptionName) (value : bytes)
  | BadArgument | OutOfRangeIndex | Undefined.

Record opt : Type := mk_opt {
  short_name_ : bytes; long_name_ : bytes; description_ : bytes; attribute_ : Attribute;
  okind : kind; default_ : option val; values_ : list val; assign_to_ : option Z }.
Definition short_name (o : opt) : Z := match short_name_ o with c :: _ => c | [] => 0 end.
Definition set_attribute (a : Attribute) (o : opt) : opt :=
  mk_opt (short_name_ o) (long_name_ o) (description_ o) a (okind o) (default_ o) (values_ o) (assign_to_ o).
Definition set_values (l : list val) (o : opt) : opt :=
  mk_opt (short_name_ o) (long_name_ o) (description_ o) (attribute_ o) (okind o) (default_ o) l (assign_to_ o).
Definition set_default_ (d : val) (o : opt) : opt :=
  mk_opt (short_name_ o) (long_name_ o) (description_ o) (attribute_ o) (okind o) (Some d) (values_ o) (assign_to_ o).
Definition set_assign (a : option Z) (o : opt) : opt :=
  mk_opt (short_name_ o) (long_name_ o) (description_ o) (attribute_ o) (okind o) (default_ o) (values_ o) a.

(** [Option::name] *)
Definition name (what : OptionName) (with_hyphen : bool) (o : opt) : bytes :=
  match what with
  | ShortName => if bool_decide (short_name_ o = []) then [] else (if with_hyphen then text "-" else []) ++ short_name_ o
  | LongName => if bool_decide (long_name_ o = []) then [] else (if with_hyphen then text "--" else []) ++ long_name_ o
  | Unspecified => []
  end.

Abbreviation memory := (gmap Z val).

(** ** Values *)
Definition count (o : opt) : nat := length (values_ o).
Definition is_set (o : opt) : bool := negb (bool_decide (values_ o = [])).
Definition value (idx : nat) (o : opt) : failure + val :=
  match is_set o, default_ o with
  | false, Some d => inr d
  | _, _ => match values_ o !! idx with Some v => inr v | None => inl OutOfRangeIndex end
  end.
Definition update_reference (o : opt) (m : memory) : memory :=
  match assign_to_ o with
  | Some a => if is_set o || bool_decide (is_Some (default_ o))
              then match value 0 o with inr v => <[a := v]> m | inl _ => m end
              else m
  | None => m
  end.
Definition add_value (v : val) (o : opt) (m : memory) : opt * memory :=
  let o := set_values (values_ o ++ [v]) o in (o, update_reference o m).
Definition clear (o : opt) (m : memory) : opt * memory := let o := set_values [] o in (o, update_reference o m).
Definition set_value (v : val) (o : opt) (m : memory) : opt * memory :=
  let '(o, m) := clear o m in add_value v o m.
Definition set_default (d : val) (o : opt) (m : memory) : opt * memory :=
  let o := set_default_ d o in (o, update_reference o m).
Definition assign_to (a : option Z) (o : opt) (m : memory) : opt * memory :=
  let o := set_assign a o in (o, update_reference o m).
Definition get_default (o : opt) : option val := default_ o.

(** The constructors: [Option], [Value], [Value] with a default, [Implicit] and [Switch]. *)
Definition new_option (s l d : bytes) (k : kind) : failure + opt :=
  if (1 <? length s)%nat then inl BadArgument
  else if bool_decide (s = []) && bool_decide (l = []) then inl BadArgument
  else inr (mk_opt s l d Optional k None [] None).
Definition new_default (s l d : bytes) (k : kind) (dv : val) (a : option Z) (m : memory) : failure + (opt * memory) :=
  match new_option s l d k with
  | inl e => inl e
  | inr o => inr (set_default dv (set_assign a o) m)
  end.
Definition new_switch (s l d : bytes) (a : option Z) (m : memory) : failure + (opt * memory) :=
  new_default s l d KSwitch (VB false) a m.

(** ** Numbers from text *)

(** The loop of [Value<T>::parse]: how many numbers were read and the variable for
    the last one, which has no value before the first ([None]); there is no result
    when the stream has failed. *)
Fixpoint read_loop (fuel : nat) (signed : bool) (bits : Z) (s : bytes) (n : nat) (v : option Z) : outcome (option (nat * option Z)) :=
  match fuel with
  | 0%nat => Throw OutOfFuel
  | S fuel =>
      match s with
      | [] => Ok (Some (n, v))
      | _ => match extract_num signed bits s with
             | None => Ok None
             | Some (z, r) => read_loop fuel signed bits r (S n) (Some z)
             end
      end
  end.
Definition read_num (signed : bool) (bits : Z) (s : bytes) : outcome (option (nat * option Z)) :=
  read_loop (S (length s)) signed bits s 0 None.

(** [Value<std::string>::parse] and [Value<T>::parse]: the value to add. *)
Definition parse_value (t : vtype) (i : nat) (what : OptionName) (v : bytes) : failure + val :=
  match t with
  | TString => if bool_decide (v = []) then inl (InvalidOption i MissingArgument what v) else inr (VS v)
  | TInt signed bits =>
      match read_num signed bits v with
      | Throw _ => inl Undefined
      | Ok None => inl (InvalidOption i InvalidArgumentError what v)
      | Ok (Some (n, z)) =>
          if (1 <? n)%nat then inl (InvalidOption i TooManyArguments what v)
          else if bool_decide (v = []) then inl (InvalidOption i MissingArgument what [])
          else match z with Some z => inr (VN z) | None => inl Undefined end
      end
  end.
(** The virtual function [parse] of the three classes. *)
Definition parse_arg (i : nat) (what : OptionName) (v : bytes) (o : opt) : failure + val :=
  match okind o with
  | KValue t => parse_value t i what v
  | KImplicit t => if negb (bool_decide (v = [])) then parse_value t i what v
                   else match default_ o with Some d => inr d | None => inl Undefined end
  | KSwitch => inr (VB true)
  end.

(** ** The parser *)
Record parser : Type := mk_parser {
  options_ : list opt; p_description : bytes; non_option_args_ : list bytes; unknown_options_ : list bytes; vars : memory }.
Definition new (description : bytes) (m : memory) : parser := mk_parser [] description [] [] m.
Definition set_options (l : list opt) (m : memory) (p : parser) : parser :=
  mk_parser l (p_description p) (non_option_args_ p) (unknown_options_ p) m.
Definition add_non_option (a : bytes) (p : parser) : parser :=
  mk_parser (options_ p) (p_description p) (non_option_args_ p ++ [a]) (unknown_options_ p) (vars p).
Definition add_unknown (a : bytes) (p : parser) : parser :=
  mk_parser (options_ p) (p_description p) (non_option_args_ p) (unknown_options_ p ++ [a]) (vars p).

(** [OptionParser::add] *)
Definition duplicate (o x : opt) : bool :=
  (negb (short_name o =? 0) && (short_name o =? short_name x)) ||
  (negb (bool_decide (long_name_ o = [])) && bool_decide (long_name_ o = long_name_ x)).
Definition add (a : Attribute) (r : failure + (opt * memory)) (p : parser) : failure + parser :=
  match r with
  | inl e => inl e
  | inr (o, m) => if existsb (duplicate o) (options_ p) then inl BadArgument
                  else inr (set_options (options_ p ++ [set_attribute a o]) m p)
  end.

(** [find_option] and [get_option]: the first option of that name. *)
Fixpoint find_index (f : opt -> bool) (l : list opt) (i : nat) : option nat :=
  match l with [] => None | o :: l => if f o then Some i else find_index f l (S i) end.
Definition find_long (n : bytes) (p : parser) : option nat := find_index (fun o => bool_decide (long_name_ o = n)) (options_ p) 0.
Definition find_short (c : Z) (p : parser) : option nat := find_index (fun o => short_name o =? c) (options_ p) 0.
(** An option that is inactive is not found. *)
Definition active (i : option nat) (p : parser) : option (nat * opt) :=
  i ← i; o ← options_ p !! i; if bool_decide (attribute_ o = Inactive) then None else Some (i, o).

(** [option->parse] *)
Definition run_option (i : nat) (o : opt) (what : OptionName) (v : bytes) (p : parser) : option failure * parser :=
  match parse_arg i what v o with
  | inl e => (Some e, p)
  | inr x => let '(o, m) := add_value x o (vars p) in (None, set_options (<[i := o]> (options_ p)) m p)
  end.

(** The name and the text after the first [=]. *)
Fixpoint cut_equal (s : bytes) : bytes * bytes :=
  match s with
  | [] => ([], [])
  | c :: s => if c =? 61 then ([], s) else let '(n, v) := cut_equal s in (c :: n, v)
  end.

(** An argument that starts with two hyphens: what was taken of the arguments that follow it. *)
Definition parse_long (arg : bytes) (rest : list bytes) (p : parser) : option failure * parser * bool :=
  let '(n, v) := cut_equal (drop 2 arg) in
  match active (find_long n p) p with
  | None => (None, add_unknown arg p, false)
  | Some (i, o) =>
      match argument_type (okind o) with
      | ArgNo => if negb (bool_decide (v = [])) then (None, add_unknown arg p, false)
                 else (run_option i o LongName v p, false)
      | ArgRequired => match bool_decide (v = []), rest with
                       | true, x :: _ => (run_option i o LongName x p, true)
                       | _, _ => (run_option i o LongName v p, false)
                       end
      | ArgOptional => (run_option i o LongName v p, false)
      end
  end.

(** The characters after one hyphen; the answer says whether one was unknown. *)
Fixpoint parse_shorts (cs : bytes) (rest : list bytes) (unknown : bool) (p : parser) : option failure * parser * bool * bool :=
  match cs with
  | [] => (None, p, unknown, false)
  | c :: cs =>
      match active (find_short c p) p with
      | None => parse_shorts cs rest true p
      | Some (i, o) =>
          match argument_type (okind o) with
          | ArgNo => match run_option i o ShortName [] p with
                     | (None, p) => parse_shorts cs rest unknown p
                     | (Some e, p) => (Some e, p, unknown, false)
                     end
          | ArgRequired => match cs, rest with
                           | [], x :: _ => (run_option i o ShortName x p, unknown, true)
                           | _, _ => (run_option i o ShortName cs p, unknown, false)
                           end
          | ArgOptional => (run_option i o ShortName cs p, unknown, false)
          end
      end
  end.

Definition starts_with (p s : bytes) : bool := bool_decide (take (length p) s = p).
Definition dashdash : bytes := text "--".
(** One round of the loop over the arguments: whether the next argument was taken too. *)
Definition parse_one (arg : bytes) (rest : list bytes) (p : parser) : option failure * parser * bool :=
  if bool_decide (arg = dashdash) then (None, foldl (fun p a => add_non_option a p) p rest, false)
  else if starts_with dashdash arg then parse_long arg rest p
  else if starts_with (text "-") arg then
    match parse_shorts (drop 1 arg) rest false p with
    | (None, p, unknown, taken) => (None, if unknown : bool then add_unknown arg p else p, taken)
    | (Some e, p, _, taken) => (Some e, p, taken)
    end
  else (None, add_non_option arg p, false).
Fixpoint parse_args (args : list bytes) (p : parser) : option failure * parser :=
  match args with
  | [] => (None, p)
  | arg :: rest =>
      match parse_one arg rest p with
      | (Some e, p, _) => (Some e, p)
      | (None, p, false) => parse_args rest p
      | (None, p, true) => match rest with _ :: rest' => parse_args rest' p | [] => (None, p) end
      end
  end.

(** The options are cleared in turn. *)
Fixpoint clear_all (l : list opt) (m : memory) : list opt * memory :=
  match l with
  | [] => ([], m)
  | o :: l => let '(o, m) := clear o m in let '(l, m) := clear_all l m in (o :: l, m)
  end.
Fixpoint missing (i : nat) (l : list opt) : option nat :=
  match l with
  | [] => None
  | o :: l => if bool_decide (attribute_ o = Required) && negb (is_set o) then Some i else missing (S i) l
  end.
(** [parse (argc, argv)], without the name of the program. *)
Definition reset (p : parser) : parser :=
  let '(l, m) := clear_all (options_ p) (vars p) in mk_parser l (p_description p) [] [] m.
Definition parse (args : list bytes) (p : parser) : option failure * parser :=
  match parse_args args (reset p) with
  | (Some e, p) => (Some e, p)
  | (None, p) => (match missing 0 (options_ p) with
                  | Some i => Some (InvalidOption i MissingOption Unspecified [])
                  | None => None
                  end, p)
  end.

(** ** The help text *)
Definition show (v : val) : bytes :=
  match v with VS s => s | VN z => long_text z | VB b => text (if b then "1" else "0") end.
Definition names_text (indent : bytes) (o : opt) : bytes :=
  (if negb (short_name o =? 0) then indent ++ text "-" ++ [short_name o] ++ (if negb (bool_decide (long_name_ o = [])) then text ", " else [])
   else indent) ++
  (if negb (bool_decide (long_name_ o = [])) then text "--" ++ long_name_ o else []).
Definition argument_text (o : opt) : bytes :=
  match argument_type (okind o), default_ o with
  | ArgRequired, Some d => text " arg" ++ (if bool_decide (show d = []) then [] else text " (=" ++ show d ++ text ")")
  | ArgRequired, None => text " arg"
  | ArgOptional, Some d => text " [=arg(=" ++ show d ++ text ")]"
  | _, _ => []
  end.
Definition to_string (o : opt) : bytes := names_text (text "  ") o ++ argument_text o.
Definition groff_string (o : opt) : bytes := names_text [] o ++ argument_text o.

Definition shown (max : Attribute) (o : opt) : bool := (rank Hidden <? rank (attribute_ o)) && (rank (attribute_ o) <=? rank max).
Fixpoint join_lines (first : bool) (margin : bytes) (l : list bytes) : bytes :=
  match l with [] => [] | x :: l => (if first then [] else [10] ++ margin) ++ x ++ join_lines false margin l end.
Definition spaces (n : nat) : bytes := replicate n 32.
Definition margin (l : list opt) : nat :=
  Nat.min 38 (foldl (fun n o => Nat.max n (length (to_string o) + 2)) 20%nat l).
Definition option_text (m : nat) (o : opt) : bytes :=
  let s := to_string o in
  (if (length s <? m)%nat then s ++ spaces (m - length s) else s ++ [10] ++ spaces m) ++
  join_lines true (spaces m) (lines_of [] (description_ o)) ++ [10].
Definition console_print (max : Attribute) (p : parser) : failure + bytes :=
  if rank max <? rank Optional then inl BadArgument
  else inr ((if bool_decide (p_description p = []) then [] else p_description p ++ text ":" ++ [10]) ++
            mjoin (option_text (margin (options_ p)) <$> filter (fun o => shown max o = true) (options_ p))).
Definition help (max : Attribute) (p : parser) : failure + bytes := console_print max p.
Definition groff_print (max : Attribute) (p : parser) : failure + bytes :=
  if rank max <? rank Optional then inl BadArgument
  else inr ((if bool_decide (p_description p = []) then [] else text ".SS " ++ p_description p ++ text ":" ++ [10]) ++
            mjoin ((fun o => text ".TP" ++ [10] ++ text "\fB" ++ groff_string o ++ text "\fR" ++ [10] ++
                             (if bool_decide (description_ o = []) then [] else description_ o ++ [10]))
                   <$> filter (fun o => shown max o = true) (options_ p))).

(** The text of the raw string of [BashCompletionOptionPrinter::print], with ~ for its quotes: it goes on to the
    first closing parenthesis that a quote follows, after the loop over the options. *)
Definition completion_text : bytes := (fun c => if c =? byte_of "~" then 34 else c) <$> text "{
      local cur prev opts
      COMPREPLY=()
      cur=~$ {COMP_WORDS[COMP_CWORD]}~
      prev=~$ {COMP_WORDS[COMP_CWORD - 1]}~
      opts=~) ~;

    for (const auto& option: option_parser_->options())
    {
    if (option->attribute() > Attribute::hidden)
    {
    if (option->short_name() != 0)
    s << ~ - ~ << option->short_name() << ~ ~;
    if (!option->long_name().empty())
    s << ~--~ << option->long_name() << ~ ~;
  }
  }

    s << R~ (~
             if [[ ${cur} == -* ]] ; then
             COMPREPLY=( $(compgen -W ~$ {opts}~ -- ${cur}) )
             return 0
             fi
           }
             complete -F ".
Definition bash_print (program_name : bytes) (p : parser) : bytes :=
  text "_" ++ program_name ++ text "()" ++ [10] ++ completion_text ++ text "_" ++ program_name ++ text " " ++ program_name ++ [10].

(** ** Values have the type of their option *)
Inductive ty : Type := TyS | TyN (signed : bool) (bits : Z) | TyB.
Definition ty_of_v (t : vtype) : ty := match t with TString => TyS | TInt s b => TyN s b end.
Definition ty_of (k : kind) : ty := match k with KValue t | KImplicit t => ty_of_v t | KSwitch => TyB end.
Definition has_ty (t : ty) (v : val) : bool :=
  match t, v with TyS, VS _ => true | TyN s b, VN z => in_range s b z | TyB, VB _ => true | _, _ => false end.

(** The variables have types of their own, which the pointers agree with. *)
Definition typing : Type := gmap Z ty.
Record wt_opt (G : typing) (o : opt) : Prop := {
  wt_bits : match ty_of (okind o) with TyN _ b => 0 < b | _ => True end;
  wt_values : Forall (fun v => has_ty (ty_of (okind o)) v = true) (values_ o);
  wt_default : forall d, default_ o = Some d -> has_ty (ty_of (okind o)) d = true;
  wt_implicit : match okind o with KImplicit _ => is_Some (default_ o) | _ => True end;
  wt_assign : forall a, assign_to_ o = Some a -> G !! a = Some (ty_of (okind o)) }.
Definition wt_mem (G : typing) (m : memory) : Prop := forall a v, m !! a = Some v -> exists t, G !! a = Some t /\ has_ty t v = true.
Record wt (G : typing) (p : parser) : Prop := { wt_options : Forall (wt_opt G) (options_ p); wt_vars : wt_mem G (vars p) }.

Lemma value_wt G o v : wt_opt G o -> value 0 o = inr v -> has_ty (ty_of (okind o)) v = true.
Proof.
  intros [_ Hv Hd _ _] H. unfold value in H.
  assert (Hl : match values_ o !! 0%nat with Some x => inr x | None => inl OutOfRangeIndex end = inr v -> has_ty (ty_of (okind o)) v = true).
  { destruct (values_ o !! 0%nat) eqn:E; intros; simplify_eq. by eapply (Forall_lookup_1 _ _ _ _ Hv). }
  destruct (is_set o), (default_ o) as [d|] eqn:Ed; auto. simplify_eq. by apply Hd.
Qed.
Lemma update_reference_wt G o m : wt_opt G o -> wt_mem G m -> wt_mem G (update_reference o m).
Proof.
  intros Ho Hm. unfold update_reference. destruct (assign_to_ o) as [a|] eqn:Ea; [|done]. case_match; [|done].
  destruct (value 0 o) as [e|v] eqn:Ev; [done|]. intros a' v' Hl. destruct (decide (a = a')) as [->|Hne].
  - rewrite lookup_insert_eq in Hl. simplify_eq. exists (ty_of (okind o)). split; [by apply Ho|by eapply value_wt].
  - rewrite lookup_insert_ne in Hl by done. by apply Hm.
Qed.
Lemma set_values_wt G l o : wt_opt G o -> Forall (fun v => has_ty (ty_of (okind o)) v = true) l -> wt_opt G (set_values l o).
Proof. intros [? _ ? ? ?] Hl. by constructor. Qed.
Lemma add_value_wt G v o m : wt_opt G o -> wt_mem G m -> has_ty (ty_of (okind o)) v = true ->
  wt_opt G (add_value v o m).1 /\ wt_mem G (add_value v o m).2.
Proof.
  intros Ho Hm Hv. assert (wt_opt G (set_values (values_ o ++ [v]) o)) as H.
  { apply set_values_wt; [done|]. apply Forall_app. split; [apply Ho|by constructor]. }
  split; [exact H|]. by apply update_reference_wt.
Qed.
Lemma clear_wt G o m : wt_opt G o -> wt_mem G m -> wt_opt G (clear o m).1 /\ wt_mem G (clear o m).2.
Proof. intros Ho Hm. assert (wt_opt G (set_values [] o)) by (by apply set_values_wt). split; [done|]. by apply update_reference_wt. Qed.

Lemma new_option_inv s l d k o : new_option s l d k = inr o -> o = mk_opt s l d Optional k None [] None.
Proof. unfold new_option. by repeat case_match; intros; simplify_eq. Qed.
Lemma new_wt G d : wt G (new d ∅).
Proof. split; [apply Forall_nil_2|]. intros a v Hl. cbn in Hl. by rewrite lookup_empty in Hl. Qed.
(** Options made by the constructors and added are well typed. *)
Lemma new_value_wt G s l d k o : match ty_of k with TyN _ b => 0 < b | _ => True end -> match k with KImplicit _ => False | _ => True end ->
  new_option s l d k = inr o -> wt_opt G o.
Proof. intros Hb Hk ->%new_option_inv. constructor; cbn; [exact Hb|constructor|done|by destruct k|done]. Qed.
Lemma new_default_wt G s l d k dv x m o m' : wt_mem G m -> has_ty (ty_of k) dv = true ->
  match ty_of k with TyN _ b => 0 < b | _ => True end -> (forall y, x = Some y -> G !! y = Some (ty_of k)) ->
  new_default s l d k dv x m = inr (o, m') -> wt_opt G o /\ wt_mem G m'.
Proof.
  intros Hm Hd Hb Ha H. unfold new_default in H. destruct (new_option s l d k) as [|o0] eqn:En; [done|].
  apply new_option_inv in En as ->. cbn in H. unfold set_default in H. simplify_eq. assert (wt_opt G (mk_opt s l d Optional k (Some dv) [] x)) as Hw.
  { constructor; cbn; [exact Hb|constructor|by intros ? [= <-]|by destruct k|exact Ha]. }
  split; [done|by apply update_reference_wt].
Qed.
Lemma add_wt G a o m p p' : wt G p -> wt_opt G o -> wt_mem G m -> add a (inr (o, m)) p = inr p' -> wt G p'.
Proof.
  intros [Ho _] [] Hm H. unfold add in H. case_match; simplify_eq. constructor; cbn; [|done].
  apply Forall_app. split; [done|]. by repeat constructor.
Qed.

(** The loop of [parse] ends, and the number it reads is of the type of the option. *)
Lemma read_loop_spec signed bits fuel : 0 < bits -> forall s n v, (length s < fuel)%nat -> (0 < n)%nat -> in_range signed bits v = true ->
  exists r, read_loop fuel signed bits s n (Some v) = Ok r /\
    (forall n' v', r = Some (n', v') -> (n <= n')%nat /\ exists z, v' = Some z /\ in_range signed bits z = true).
Proof.
  intros Hb. induction fuel as [|fuel IH]; intros s n v Hf Hn Hv; [lia|]. cbn. destruct s as [|c s].
  { eexists. split; [done|]. intros ? ? [= <- <-]. eauto. }
  destruct (extract_num signed bits (c :: s)) as [[z r]|] eqn:E; [|by eexists].
  apply extract_num_range in E as [Hz Hl]; [|done]. destruct (IH r (S n) z) as (x & -> & Hx); [lia|lia|done|].
  eexists. split; [done|]. intros n' v' ->. destruct (Hx n' v' eq_refl). split; [lia|done].
Qed.
Lemma parse_value_wt t i what v : match ty_of_v t with TyN _ b => 0 < b | _ => True end ->
  parse_value t i what v <> inl Undefined /\ (forall x, parse_value t i what v = inr x -> has_ty (ty_of_v t) x = true).
Proof.
  intros Hb. unfold parse_value. destruct t as [|signed bits]; cbn in Hb; [case_bool_decide; naive_solver|].
  unfold read_num. destruct v as [|c v]; [done|]. cbn [read_loop].
  destruct (extract_num signed bits (c :: v)) as [[z r]|] eqn:E; [|done]. apply extract_num_range in E as [Hz Hl]; [|done].
  destruct (read_loop_spec signed bits (length (c :: v)) Hb r 1 z) as (x & -> & Hx); [lia|lia|done|].
  destruct x as [[n' z']|]; [|done]. destruct (Hx n' z' eq_refl) as (_ & y & -> & Hy). destruct (1 <? n')%nat; [done|]. case_bool_decide; naive_solver.
Qed.
Lemma parse_arg_wt G i what v o : wt_opt G o ->
  parse_arg i what v o <> inl Undefined /\ (forall x, parse_arg i what v o = inr x -> has_ty (ty_of (okind o)) x = true).
Proof.
  intros [Hb _ Hd Hi _]. unfold parse_arg. destruct (okind o) as [t|t|] eqn:Ek.
  - by apply parse_value_wt.
  - destruct (negb _); [by apply parse_value_wt|]. destruct Hi as [d Hi]. rewrite Hi. split; [done|]. intros ? [= <-]. by apply Hd.
  - split; [done|]. by intros ? [= <-].
Qed.

(** Well typed options, and a failure that is not undefined. *)
Definition sound (G : typing) (e : option failure) (p : parser) : Prop := wt G p /\ e <> Some Undefined.
Lemma run_option_wt G i o what v p : wt G p -> options_ p !! i = Some o ->
  sound G (run_option i o what v p).1 (run_option i o what v p).2.
Proof.
  intros [Ho Hm] Hi. unfold run_option. assert (wt_opt G o) as Hw by (by eapply Forall_lookup_1).
  destruct (parse_arg_wt G i what v o Hw) as [Hu Hx]. destruct (parse_arg i what v o) as [e|x] eqn:Ep.
  { split; [by constructor|]. cbn. congruence. }
  destruct (add_value_wt G x o (vars p) Hw Hm (Hx x eq_refl)) as [H1 H2]. split; [|done]. constructor; cbn; [|done]. by apply Forall_insert.
Qed.
Lemma active_Some x p i o : active x p = Some (i, o) <-> x = Some i /\ options_ p !! i = Some o /\ attribute_ o <> Inactive.
Proof.
  unfold active. destruct x as [j|]; cbn; [|naive_solver]. destruct (options_ p !! j) as [o'|] eqn:E; cbn; [|naive_solver].
  case_bool_decide; naive_solver.
Qed.
Lemma add_unknown_wt G a p : wt G p -> wt G (add_unknown a p).
Proof. by intros []. Qed.
Lemma add_non_option_wt G a p : wt G p -> wt G (add_non_option a p).
Proof. by intros []. Qed.
Lemma parse_long_wt G arg rest p : wt G p -> sound G (parse_long arg rest p).1.1 (parse_long arg rest p).1.2.
Proof.
  intros Hp. unfold parse_long. destruct (cut_equal _) as [n v].
  destruct (active _ p) as [[i o]|] eqn:E; [|split; [by apply add_unknown_wt|done]]. apply active_Some in E as (_ & Hi & _).
  repeat case_match; cbn; try (by apply run_option_wt); split; [by apply add_unknown_wt|done].
Qed.
Lemma parse_shorts_wt G rest cs : forall u p, wt G p ->
  sound G (parse_shorts cs rest u p).1.1.1 (parse_shorts cs rest u p).1.1.2.
Proof.
  induction cs as [|c cs IH]; intros u p Hp; [by split|]. cbn.
  destruct (active _ p) as [[i o]|] eqn:E; [|by apply IH]. apply active_Some in E as (_ & Hi & _).
  destruct (argument_type _).
  - pose proof (run_option_wt G i o ShortName [] p Hp Hi) as Hr. destruct (run_option _ _ _ _ _) as [[e|] p1]; [done|]. apply IH, Hr.
  - destruct cs, rest; cbn; by apply run_option_wt.
  - by apply run_option_wt.
Qed.
Lemma parse_one_wt G arg rest p : wt G p -> sound G (parse_one arg rest p).1.1 (parse_one arg rest p).1.2.
Proof.
  intros Hp. unfold parse_one. destruct (bool_decide _).
  { split; [|done]. cbn. revert p Hp. induction rest as [|a rest IH]; intros p Hp; [done|]. apply IH. by apply add_non_option_wt. }
  destruct (starts_with dashdash arg); [by apply parse_long_wt|].
  destruct (starts_with (text "-") arg); [|split; [by apply add_non_option_wt|done]].
  pose proof (parse_shorts_wt G rest (drop 1 arg) false p Hp) as Hs. destruct (parse_shorts _ _ _ _) as [[[[e|] p1] u] t]; [done|].
  destruct u; [|done]. split; [apply add_unknown_wt, Hs|done].
Qed.
Lemma parse_args_wt G n : forall args p, (length args <= n)%nat -> wt G p -> sound G (parse_args args p).1 (parse_args args p).2.
Proof.
  induction n as [|n IH]; intros args p Hn Hp; (destruct args as [|arg rest]; [by split|]); cbn in Hn; [lia|]. cbn.
  pose proof (parse_one_wt G arg rest p Hp) as [H1 H2]. destruct (parse_one arg rest p) as [[[e|] p1] [|]]; try done.
  - destruct rest; [by split|]. apply IH; [cbn in *; lia|done].
  - apply IH; [lia|done].
Qed.
Lemma reset_wt G p : wt G p -> wt G (reset p).
Proof.
  intros [Ho Hm]. unfold reset. assert (H : Forall (wt_opt G) (clear_all (options_ p) (vars p)).1 /\ wt_mem G (clear_all (options_ p) (vars p)).2).
  { revert Hm. generalize (vars p). induction Ho as [|o l Hw Hl IH]; intros m Hm; [done|]. cbn.
    destruct (IH (update_reference (set_values [] o) m)) as [H1 H2]; [by apply (clear_wt G o m)|].
    destruct (clear_all l _). split; [|done]. constructor; [by apply (clear_wt G o m)|done]. }
  destruct (clear_all _ _). by destruct H.
Qed.

(** C22: whatever the command line, and also when parsing fails, every value an option
    holds has the type and the range of that option, and so has every variable that is
    bound to one; parsing never takes an implicit value that is absent and the loop that
    reads a number always ends. *)
Theorem options_well_typed G args p : wt G p ->
  wt G (parse args p).2 /\ (parse args p).1 <> Some Undefined.
Proof.
  intros Hp. pose proof (parse_args_wt G (length args) args (reset p) (Nat.le_refl _) (reset_wt G p Hp)) as [H1 H2].
  unfold parse. destruct (parse_args args (reset p)) as [[e|] p1]; [done|]. split; [done|]. cbn. by destruct (missing _ _).
Qed.

(** ** A command line and what it says *)

Lemma parse_value_show t i what v : match ty_of_v t with TyN _ b => 0 < b | _ => True end ->
  has_ty (ty_of_v t) v = true -> show v <> [] -> parse_value t i what (show v) = inr v.
Proof.
  intros Hb Hv Hne. destruct t as [|signed bits], v as [s|z|b]; try done; cbn in *.
  - by rewrite bool_decide_eq_false_2.
  - rewrite bool_decide_eq_false_2 by done. unfold read_num. destruct (long_text z) as [|c s] eqn:E; [done|].
    cbn [read_loop length]. rewrite <- E, extract_num_long_text by done. done.
Qed.

(** The ways to write an option, with the number of the option and its value, and a plain argument. *)
Inductive item : Type :=
  | LongEq (i : nat) (v : val)        (** [--name=value] *)
  | LongNext (i : nat) (v : val)      (** [--name value] *)
  | LongAlone (i : nat)               (** [--name] *)
  | ShortNext (i : nat) (v : val)     (** [-c value] *)
  | ShortGlued (i : nat) (v : val)    (** [-cvalue] *)
  | ShortAlone (l : list nat)         (** [-abc], switches *)
  | Plain (a : bytes).

Section roundtrip.
Context (p0 : parser).
Definition nth_opt (i : nat) : opt := default (mk_opt [] [] [] Optional KSwitch None [] None) (options_ p0 !! i).
Definition long_of (i : nat) : bytes := long_name_ (nth_opt i).
Definition short_of (i : nat) : Z := short_name (nth_opt i).

Definition render (x : item) : list bytes :=
  match x with
  | LongEq i v => [text "--" ++ long_of i ++ text "=" ++ show v]
  | LongNext i v => [text "--" ++ long_of i; show v]
  | LongAlone i => [text "--" ++ long_of i]
  | ShortNext i v => [text "-" ++ [short_of i]; show v]
  | ShortGlued i v => [text "-" ++ [short_of i] ++ show v]
  | ShortAlone l => [text "-" ++ (short_of <$> l)]
  | Plain a => [a]
  end.
(** The values an item gives, with the numbers of their options. *)
Definition alone (i : nat) : val := match okind (nth_opt i), default_ (nth_opt i) with KImplicit _, Some d => d | _, _ => VB true end.
Definition gives (x : item) : list (nat * val) :=
  match x with
  | LongEq i v | LongNext i v | ShortNext i v | ShortGlued i v => [(i, v)]
  | LongAlone i => [(i, alone i)]
  | ShortAlone l => (fun i => (i, VB true)) <$> l
  | Plain _ => []
  end.
Definition plain (x : item) : list bytes := match x with Plain a => [a] | _ => [] end.
Definition vals (i : nat) (l : list (nat * val)) : list val := snd <$> filter (fun e => e.1 = i) l.

(** What the options must be for the item to be written that way. *)
Definition has_long (i : nat) : Prop :=
  (i < length (options_ p0))%nat /\ long_of i <> [] /\ 61 ∉ long_of i /\ attribute_ (nth_opt i) <> Inactive.
Definition has_short (i : nat) : Prop :=
  (i < length (options_ p0))%nat /\ short_of i <> 0 /\ short_of i <> 45 /\ attribute_ (nth_opt i) <> Inactive.
Definition fits (i : nat) (v : val) : Prop := has_ty (ty_of (okind (nth_opt i))) v = true /\ show v <> [].
Definition item_ok (x : item) : Prop :=
  match x with
  | LongEq i v => has_long i /\ fits i v /\ okind (nth_opt i) <> KSwitch
  | LongNext i v => has_long i /\ fits i v /\ argument_type (okind (nth_opt i)) = ArgRequired
  | LongAlone i => has_long i /\ argument_type (okind (nth_opt i)) <> ArgRequired
  | ShortNext i v => has_short i /\ fits i v /\ argument_type (okind (nth_opt i)) = ArgRequired
  | ShortGlued i v => has_short i /\ fits i v /\ okind (nth_opt i) <> KSwitch
  | ShortAlone l => l <> [] /\ Forall (fun i => has_short i /\ okind (nth_opt i) = KSwitch) l
  | Plain a => starts_with (text "-") a = false
  end.
(** The options have different names, as [add] sees to it. *)
Definition distinct : Prop := forall i j o o', options_ p0 !! i = Some o -> options_ p0 !! j = Some o' ->
  (short_name o <> 0 -> short_name o = short_name o' -> i = j) /\ (long_name_ o <> [] -> long_name_ o = long_name_ o' -> i = j).

Definition with_vals (l : list (nat * val)) : list opt := imap (fun i o => set_values (vals i l) o) (options_ p0).
(** The parser after the values [l] and the plain arguments [na]. *)
Record at_point (l : list (nat * val)) (na : list bytes) (p : parser) : Prop := {
  ap_options : options_ p = with_vals l; ap_plain : non_option_args_ p = na; ap_unknown : unknown_options_ p = [] }.

Lemma find_index_first f l : forall k i o, l !! i = Some o -> f o = true ->
  (forall j o', (j < i)%nat -> l !! j = Some o' -> f o' = false) -> find_index f l k = Some (k + i)%nat.
Proof.
  induction l as [|x l IH]; intros k i o Hi Hf Hj; [done|]. destruct i as [|i]; cbn in *.
  - simplify_eq. rewrite Hf. f_equal. lia.
  - rewrite (Hj 0%nat x) by (done || lia). rewrite (IH (S k) i o); [f_equal; lia|done|done|].
    intros j o' Hlt. apply (Hj (S j)). lia.
Qed.
Lemma nth_opt_lookup i : (i < length (options_ p0))%nat -> options_ p0 !! i = Some (nth_opt i).
Proof. intros [o Ho]%lookup_lt_is_Some. unfold nth_opt. by rewrite Ho. Qed.
Lemma vals_snoc j l i v : vals j (l ++ [(i, v)]) = vals j l ++ (if decide (i = j) then [v] else []).
Proof.
  unfold vals. rewrite filter_app, fmap_app. f_equal. destruct (decide (i = j)) as [->|Hne].
  - by rewrite filter_cons_True.
  - by rewrite filter_cons_False.
Qed.
Lemma with_vals_lookup l i : with_vals l !! i = set_values (vals i l) <$> options_ p0 !! i.
Proof. unfold with_vals. by rewrite list_lookup_imap. Qed.
Lemma with_vals_step l i v o : options_ p0 !! i = Some o ->
  <[i := set_values (vals i l ++ [v]) o]> (with_vals l) = with_vals (l ++ [(i, v)]).
Proof.
  intros Ho. apply list_eq. intros j. rewrite with_vals_lookup, vals_snoc. destruct (decide (i = j)) as [->|Hne].
  - rewrite list_lookup_insert_eq, Ho; [done|]. unfold with_vals. rewrite length_imap. by apply lookup_lt_Some in Ho.
  - rewrite list_lookup_insert_ne, with_vals_lookup by done. by rewrite app_nil_r.
Qed.

Context (HD : distinct).
Lemma find_long_at l na p i : at_point l na p -> has_long i -> active (find_long (long_of i) p) p = Some (i, set_values (vals i l) (nth_opt i)).
Proof.
  intros [Ho _ _] (Hi & Hne & _ & Ha). apply nth_opt_lookup in Hi. apply active_Some.
  assert (Hl : options_ p !! i = Some (set_values (vals i l) (nth_opt i))) by (by rewrite Ho, with_vals_lookup, Hi).
  split; [|by split]. unfold find_long. apply (find_index_first _ _ 0 _ _ Hl); [by apply bool_decide_eq_true|].
  intros j o' Hj. rewrite Ho, with_vals_lookup, fmap_Some. intros (o & Hoj & ->). apply bool_decide_eq_false. cbn. intros He.
  destruct (HD i j _ _ Hi Hoj) as [_ H]. specialize (H Hne (eq_sym He)). lia.
Qed.
Lemma find_short_at l na p i : at_point l na p -> has_short i -> active (find_short (short_of i) p) p = Some (i, set_values (vals i l) (nth_opt i)).
Proof.
  intros [Ho _ _] (Hi & Hne & _ & Ha). apply nth_opt_lookup in Hi. apply active_Some.
  assert (Hl : options_ p !! i = Some (set_values (vals i l) (nth_opt i))) by (by rewrite Ho, with_vals_lookup, Hi).
  split; [|by split]. unfold find_short. apply (find_index_first _ _ 0 _ _ Hl); [by apply Z.eqb_eq|].
  intros j o' Hj. rewrite Ho, with_vals_lookup, fmap_Some. intros (o & Hoj & ->). apply Z.eqb_neq. intros He.
  destruct (HD i j _ _ Hi Hoj) as [H _]. specialize (H Hne (eq_sym He)). lia.
Qed.
Lemma run_option_at l na p i what s v : at_point l na p -> (i < length (options_ p0))%nat -> parse_arg i what s (nth_opt i) = inr v ->
  exists p', run_option i (set_values (vals i l) (nth_opt i)) what s p = (None, p') /\ at_point (l ++ [(i, v)]) na p'.
Proof.
  intros [Ho Hn Hu] Hi%nth_opt_lookup Hp. unfold run_option.
  change (parse_arg i what s (set_values _ _)) with (parse_arg i what s (nth_opt i)). rewrite Hp. cbn.
  eexists. split; [done|]. constructor; cbn; [|done|done]. rewrite Ho. exact (with_vals_step l i v _ Hi).
Qed.

Lemma cut_equal_plain n : 61 ∉ n -> cut_equal n = (n, []).
Proof.
  induction n as [|c n IH]; [done|]. intros H. apply not_elem_of_cons in H as [Hc Hn]. cbn.
  rewrite (proj2 (Z.eqb_neq c 61)) by congruence. by rewrite IH.
Qed.
Lemma cut_equal_value n v : 61 ∉ n -> cut_equal (n ++ text "=" ++ v) = (n, v).
Proof.
  induction n as [|c n IH]; [done|]. intros H. apply not_elem_of_cons in H as [Hc Hn]. cbn [cut_equal app].
  rewrite (proj2 (Z.eqb_neq c 61)) by congruence. by rewrite IH.
Qed.

Context (G : typing) (HW : wt G p0).
Lemma nth_opt_wt i : (i < length (options_ p0))%nat -> wt_opt G (nth_opt i).
Proof. intros Hi%nth_opt_lookup. eapply Forall_lookup_1; [apply HW|done]. Qed.
Lemma parse_arg_show i what v : (i < length (options_ p0))%nat -> fits i v -> okind (nth_opt i) <> KSwitch ->
  parse_arg i what (show v) (nth_opt i) = inr v.
Proof.
  intros Hi [Hf Hne] Hk. destruct (nth_opt_wt i Hi) as [Hb _ _ _ _]. unfold parse_arg.
  destruct (okind (nth_opt i)) as [t|t|]; [| |done]; [by apply parse_value_show|].
  rewrite bool_decide_eq_false_2 by done. by apply parse_value_show.
Qed.
Lemma parse_arg_alone i what : (i < length (options_ p0))%nat -> argument_type (okind (nth_opt i)) <> ArgRequired ->
  parse_arg i what [] (nth_opt i) = inr (alone i).
Proof.
  intros Hi Hk. destruct (nth_opt_wt i Hi) as [_ _ _ Hd _]. unfold parse_arg, alone.
  destruct (okind (nth_opt i)) as [t|t|]; [done| |done]. destruct Hd as [d ->]. done.
Qed.

(** What one argument does, and what the loop does after it. *)
Lemma long_form n : starts_with dashdash (text "--" ++ n) = true /\ drop 2 (text "--" ++ n) = n /\ (n <> [] -> text "--" ++ n <> dashdash).
Proof.
  split; [apply bool_decide_eq_true_2; done|]. split; [done|]. intros Hn H. apply Hn. by injection H.
Qed.
Lemma short_form c n : c <> 45 -> starts_with dashdash (text "-" ++ c :: n) = false /\ starts_with (text "-") (text "-" ++ c :: n) = true /\
  text "-" ++ c :: n <> dashdash.
Proof. intros Hc. repeat split; [apply bool_decide_eq_false_2|]; intros H; injection H; intros; by apply Hc. Qed.
Lemma parse_args_long n rest p : n <> [] -> parse_args ((text "--" ++ n) :: rest) p =
  match parse_long (text "--" ++ n) rest p with
  | (Some e, p, _) => (Some e, p)
  | (None, p, false) => parse_args rest p
  | (None, p, true) => match rest with _ :: rest' => parse_args rest' p | [] => (None, p) end
  end.
Proof. intros Hn. destruct (long_form n) as (H1 & _ & H3). cbn [parse_args]. unfold parse_one. by rewrite bool_decide_eq_false_2, H1 by auto. Qed.
Lemma parse_args_short c n rest p : c <> 45 -> parse_args ((text "-" ++ c :: n) :: rest) p =
  match parse_shorts (c :: n) rest false p with
  | (Some e, p, _, _) => (Some e, p)
  | (None, p, unknown, taken) =>
      let p := if unknown : bool then add_unknown (text "-" ++ c :: n) p else p in
      if taken : bool then match rest with _ :: rest' => parse_args rest' p | [] => (None, p) end else parse_args rest p
  end.
Proof.
  intros Hc. destruct (short_form c n Hc) as (H1 & H2 & H3). cbn [parse_args]. unfold parse_one. rewrite bool_decide_eq_false_2, H1, H2 by done.
  change (drop 1 (text "-" ++ c :: n)) with (c :: n). by destruct (parse_shorts _ _ _ _) as [[[[e|] p1] u] [|]].
Qed.

(** After [args] the loop goes on at [rest], with the values [new] and the arguments [pl] added. *)
Definition advances (args : list bytes) (new : list (nat * val)) (pl : list bytes) : Prop :=
  forall l na p rest, at_point l na p ->
  exists p', parse_args (args ++ rest) p = parse_args rest p' /\ at_point (l ++ new) (na ++ pl) p'.

Lemma longeq_advances i v : has_long i -> fits i v -> okind (nth_opt i) <> KSwitch ->
  advances [text "--" ++ long_of i ++ text "=" ++ show v] [(i, v)] [].
Proof.
  intros Hl Hf Hk l na p rest Hp. rewrite app_nil_r.
  destruct (run_option_at l na p i LongName (show v) v Hp (proj1 Hl) (parse_arg_show i _ v (proj1 Hl) Hf Hk)) as (p' & Hr & Hp').
  exists p'. split; [|done]. cbn [app]. destruct Hl as (Hi & Hne & Heq & Ha). rewrite parse_args_long by (by destruct (long_of i)).
  unfold parse_long. rewrite (proj1 (proj2 (long_form _))), cut_equal_value by done.
  rewrite (find_long_at l na p i Hp) by done. cbn [okind set_values]. destruct Hf as [_ Hs].
  destruct (okind (nth_opt i)); [| |done]; cbn [argument_type]; [rewrite bool_decide_eq_false_2 by done|]; by rewrite Hr.
Qed.
Lemma longnext_advances i v : has_long i -> fits i v -> argument_type (okind (nth_opt i)) = ArgRequired ->
  advances [text "--" ++ long_of i; show v] [(i, v)] [].
Proof.
  intros Hl Hf Hk l na p rest Hp. rewrite app_nil_r. assert (okind (nth_opt i) <> KSwitch) by (intros E; by rewrite E in Hk).
  destruct (run_option_at l na p i LongName (show v) v Hp (proj1 Hl)) as (p' & Hr & Hp'); [by apply parse_arg_show; [apply Hl| |]|].
  exists p'. split; [|done]. cbn [app]. destruct Hl as (Hi & Hne & Heq & Ha). rewrite parse_args_long by done.
  unfold parse_long. rewrite (proj1 (proj2 (long_form _))), cut_equal_plain by done.
  rewrite (find_long_at l na p i Hp) by done. cbn [okind set_values]. rewrite Hk. cbn [bool_decide]. by rewrite bool_decide_eq_true_2, Hr.
Qed.
Lemma longalone_advances i : has_long i -> argument_type (okind (nth_opt i)) <> ArgRequired ->
  advances [text "--" ++ long_of i] [(i, alone i)] [].
Proof.
  intros Hl Hk l na p rest Hp. rewrite app_nil_r.
  destruct (run_option_at l na p i LongName [] _ Hp (proj1 Hl) (parse_arg_alone i LongName (proj1 Hl) Hk)) as (p' & Hr & Hp').
  exists p'. split; [|done]. cbn [app]. destruct Hl as (Hi & Hne & Heq & Ha). rewrite parse_args_long by done.
  unfold parse_long. rewrite (proj1 (proj2 (long_form _))), cut_equal_plain by done.
  rewrite (find_long_at l na p i Hp) by done. cbn [okind set_values].
  destruct (argument_type _); [|done|by rewrite Hr]. rewrite bool_decide_eq_true_2 by done. cbn [negb]. by rewrite Hr.
Qed.
Lemma shortnext_advances i v : has_short i -> fits i v -> argument_type (okind (nth_opt i)) = ArgRequired ->
  advances [text "-" ++ [short_of i]; show v] [(i, v)] [].
Proof.
  intros Hl Hf Hk l na p rest Hp. rewrite app_nil_r. assert (okind (nth_opt i) <> KSwitch) by (intros E; by rewrite E in Hk).
  destruct (run_option_at l na p i ShortName (show v) v Hp (proj1 Hl)) as (p' & Hr & Hp'); [by apply parse_arg_show; [apply Hl| |]|].
  exists p'. split; [|done]. cbn [app]. rewrite parse_args_short by apply Hl. cbn [parse_shorts].
  rewrite (find_short_at l na p i Hp Hl). cbn [okind set_values]. by rewrite Hk, Hr.
Qed.
Lemma shortglued_advances i v : has_short i -> fits i v -> okind (nth_opt i) <> KSwitch ->
  advances [text "-" ++ [short_of i] ++ show v] [(i, v)] [].
Proof.
  intros Hl Hf Hk l na p rest Hp. rewrite app_nil_r.
  destruct (run_option_at l na p i ShortName (show v) v Hp (proj1 Hl) (parse_arg_show i _ v (proj1 Hl) Hf Hk)) as (p' & Hr & Hp').
  exists p'. split; [|done]. cbn [app]. rewrite parse_args_short by apply Hl. cbn [parse_shorts].
  rewrite (find_short_at l na p i Hp Hl). cbn [okind set_values]. destruct Hf as [_ Hs].
  destruct (okind (nth_opt i)); [| |done]; cbn [argument_type]; [destruct (show v); [done|]|]; by rewrite Hr.
Qed.
Lemma switches_at ids : Forall (fun i => has_short i /\ okind (nth_opt i) = KSwitch) ids -> forall rest l na p, at_point l na p ->
  exists p', parse_shorts (short_of <$> ids) rest false p = (None, p', false, false) /\ at_point (l ++ ((fun i => (i, VB true)) <$> ids)) na p'.
Proof.
  induction 1 as [|i ids [Hs Hk] _ IH]; intros rest l na p Hp; [exists p; cbn; by rewrite app_nil_r|].
  destruct (run_option_at l na p i ShortName [] (VB true) Hp (proj1 Hs)) as (p1 & Hr & Hp1); [unfold parse_arg; by rewrite Hk|].
  destruct (IH rest _ _ _ Hp1) as (p2 & H2 & Hp2). exists p2. rewrite <- app_assoc in Hp2. split; [|done].
  cbn [fmap list_fmap parse_shorts]. rewrite (find_short_at l na p i Hp Hs). cbn [okind set_values]. by rewrite Hk, Hr.
Qed.
Lemma not_hyphen a : starts_with (text "-") a = false -> starts_with dashdash a = false.
Proof.
  intros H. apply bool_decide_eq_false in H. apply bool_decide_eq_false_2. intros He. apply H.
  destruct a as [|c a]; [done|]. by injection He as -> _.
Qed.
Lemma item_advances x : item_ok x -> advances (render x) (gives x) (plain x).
Proof.
  destruct x as [i v|i v|i|i v|i v|ids|a]; cbn [item_ok render gives plain].
  - intros (? & ? & ?). by apply longeq_advances.
  - intros (? & ? & ?). by apply longnext_advances.
  - intros (? & ?). by apply longalone_advances.
  - intros (? & ? & ?). by apply shortnext_advances.
  - intros (? & ? & ?). by apply shortglued_advances.
  - intros (Hne & Hs) l na p rest Hp. rewrite app_nil_r. destruct (switches_at ids Hs rest l na p Hp) as (p' & Hr & Hp').
    exists p'. split; [|done]. destruct ids as [|i ids]; [done|]. apply Forall_cons in Hs as [[Hi _] _]. cbn [app fmap list_fmap].
    rewrite parse_args_short by apply Hi. cbn [fmap list_fmap] in Hr. by rewrite Hr.
  - intros Ha l na p rest Hp. rewrite app_nil_r. exists (add_non_option a p). split.
    + cbn [app parse_args]. unfold parse_one. by rewrite (not_hyphen a Ha), bool_decide_eq_false_2, Ha by (by intros ->).
    + destruct Hp as [? ? ?]. constructor; cbn; [done| |done]. by f_equal.
Qed.
Lemma items_advance items : Forall item_ok items -> advances (items ≫= render) (items ≫= gives) (items ≫= plain).
Proof.
  induction 1 as [|x items Hx _ IH]; intros l na p rest Hp; [exists p; cbn; by rewrite !app_nil_r|].
  destruct (item_advances x Hx l na p ((items ≫= render) ++ rest) Hp) as (p1 & H1 & Hp1).
  destruct (IH _ _ p1 rest Hp1) as (p2 & H2 & Hp2). exists p2. cbn. rewrite <- app_assoc, H1, H2. split; [done|].
  by rewrite !app_assoc.
Qed.
Lemma reset_at : at_point [] [] (reset p0).
Proof.
  assert (H : forall l m, (clear_all l m).1 = set_values [] <$> l).
  { induction l as [|o l IH]; intros m; [done|]. cbn. specialize (IH (update_reference (set_values [] o) m)).
    destruct (clear_all l _). cbn in *. by f_equal. }
  unfold reset. specialize (H (options_ p0) (vars p0)). destruct (clear_all _ _). constructor; [|done|done].
  cbn in *. rewrite H. symmetry. exact (imap_const (set_values []) (options_ p0)).
Qed.
Lemma missing_None l : forall k, (forall i o, l !! i = Some o -> attribute_ o = Required -> values_ o <> []) -> missing k l = None.
Proof.
  induction l as [|o l IH]; intros k H; [done|]. cbn. rewrite IH by (intros i o' Ho; by apply (H (S i))).
  case_bool_decide as E; [|done]. unfold is_set. by rewrite bool_decide_eq_false_2 by (by apply (H 0%nat)).
Qed.
End roundtrip.

(** [add] keeps the names apart. *)
Lemma duplicate_false o x : duplicate o x = false <->
  (short_name o <> 0 -> short_name o <> short_name x) /\ (long_name_ o <> [] -> long_name_ o <> long_name_ x).
Proof.
  unfold duplicate. rewrite orb_false_iff, !andb_false_iff, !negb_false_iff, Z.eqb_eq, Z.eqb_neq, bool_decide_eq_true, bool_decide_eq_false.
  destruct (decide (short_name o = 0)), (decide (long_name_ o = [])); naive_solver.
Qed.
Lemma distinct_new d m : distinct (new d m).
Proof. intros i j o o' H. done. Qed.
Lemma distinct_add a r p p' : distinct p -> add a r p = inr p' -> distinct p'.
Proof.
  intros HD H. unfold add in H. destruct r as [|[o m]]; [done|]. destruct (existsb _ _) eqn:E; simplify_eq.
  assert (Hn : forall i x, options_ p !! i = Some x -> duplicate o x = false).
  { intros i x Hx. apply not_true_iff_false. intros Hd. apply not_true_iff_false in E. apply E. apply existsb_exists. exists x.
    split; [|done]. apply list_elem_of_In. by eapply list_elem_of_lookup_2. }
  intros i j x y. cbn. rewrite !lookup_snoc_Some. intros [[_ Hx]|[-> <-]] [[_ Hy]|[-> <-]].
  - by apply (HD i j).
  - apply Hn, duplicate_false in Hx as [H1 H2]. unfold set_attribute, short_name in *; cbn. split; intros ? Heq; exfalso; [apply H1|apply H2]; congruence.
  - apply Hn, duplicate_false in Hy as [H1 H2]. unfold set_attribute, short_name in *; cbn. split; intros ? Heq; exfalso; [apply H1|apply H2]; congruence.
  - done.
Qed.

(** C8: a command line that writes values for the options of a parser in any of the
    forms --name=value, --name value, --name, -c value, -cvalue or a group of
    switches -abc, mixed with plain arguments, is parsed without failure: every option
    then holds exactly the values written for it, in their order, the plain arguments are
    kept in their order, and nothing is reported as unknown. *)
Theorem options_roundtrip G p items : wt G p -> distinct p -> Forall (item_ok p) items ->
  (forall i o, options_ p !! i = Some o -> attribute_ o = Required -> vals i (items ≫= gives p) <> []) ->
  let '(e, p') := parse (items ≫= render p) p in
  e = None /\ (forall i, values_ <$> options_ p' !! i = (fun _ => vals i (items ≫= gives p)) <$> options_ p !! i) /\
  non_option_args_ p' = items ≫= plain /\ unknown_options_ p' = [].
Proof.
  intros HW HD Hi Hr. destruct (items_advance p HD G HW items Hi [] [] (reset p) [] (reset_at p)) as (p' & Hp & [Ho Hn Hu]).
  unfold parse. rewrite app_nil_r in Hp. rewrite Hp. cbn. rewrite missing_None.
  - split; [done|]. split; [|done]. intros i. rewrite Ho, with_vals_lookup. by destruct (options_ p !! i).
  - intros i o. rewrite Ho, with_vals_lookup, fmap_Some. intros (o' & Ho' & ->) Ha. by eapply Hr.
Qed.

Lemma add_all_at p0 l na p rest : at_point p0 l na p -> at_point p0 l (na ++ rest) (foldl (fun p a => add_non_option a p) p rest).
Proof.
  revert na p. induction rest as [|a rest IH]; intros na p Hp; cbn; [by rewrite app_nil_r|].
  rewrite (assoc_L (++) na [a] rest : na ++ a :: rest = (na ++ [a]) ++ rest). apply IH. destruct Hp as [? ? ?]. constructor; cbn; [done| |done]. by f_equal.
Qed.

(** two hyphens alone do not end the options: the arguments after them are kept as
    plain arguments and then parsed once more, so that the options among them take their
    values and the plain ones are kept twice. *)
Theorem dashdash_parsed_again G p before after : wt G p -> distinct p -> Forall (item_ok p) before -> Forall (item_ok p) after ->
  (forall i o, options_ p !! i = Some o -> attribute_ o <> Required) ->
  let '(e, p') := parse ((before ≫= render p) ++ dashdash :: (after ≫= render p)) p in
  e = None /\ (forall i, values_ <$> options_ p' !! i = (fun _ => vals i ((before ++ after) ≫= gives p)) <$> options_ p !! i) /\
  non_option_args_ p' = (before ≫= plain) ++ (after ≫= render p) ++ (after ≫= plain).
Proof.
  intros HW HD Hb Ha Hr. set (rest := after ≫= render p).
  destruct (items_advance p HD G HW before Hb [] [] (reset p) (dashdash :: rest) (reset_at p)) as (p1 & H1 & Hp1).
  pose proof (add_all_at _ _ _ _ rest Hp1) as Hp2. set (p2 := foldl _ p1 rest) in Hp2.
  destruct (items_advance p HD G HW after Ha _ _ p2 [] Hp2) as (p3 & H3 & [Ho Hn _]). rewrite app_nil_r in H3.
  unfold parse. rewrite H1. change (parse_args (dashdash :: rest) p1) with (parse_args rest p2). fold rest in H3. rewrite H3.
  cbn. rewrite missing_None.
  - split; [done|]. split; [|by rewrite Hn, <- app_assoc]. intros i. rewrite Ho, with_vals_lookup, bind_app. by destruct (options_ p !! i).
  - intros i o. rewrite Ho, with_vals_lookup, fmap_Some. intros (o' & Ho' & ->) Hq. by apply Hr in Ho'.
Qed.

(** The long form of an empty name is the first option that has a short name only. *)
Lemma empty_long_name p v i o : find_long [] p = Some i -> options_ p !! i = Some o -> attribute_ o <> Inactive -> v <> [] ->
  argument_type (okind o) = ArgRequired -> parse_long (text "--=" ++ v) [] p = (run_option i o LongName v p, false).
Proof.
  intros Hf Ho Ha Hv Hk. unfold parse_long. change (cut_equal (drop 2 (text "--=" ++ v))) with ([] : bytes, v).
  cbv beta iota. rewrite (proj2 (active_Some _ _ i o)) by done. rewrite Hk.
  by rewrite bool_decide_eq_false_2.
Qed.
(** A variable gets the first value of its option, and keeps it. *)
Lemma bound_to_first o m v x : values_ o <> [] -> assign_to_ o = Some x ->
  (add_value v o m).2 !! x = values_ o !! 0%nat.
Proof.
  intros Hne Hx. unfold add_value, update_reference. cbn. rewrite Hx. destruct (values_ o) as [|w l]; [done|]. cbn. by rewrite lookup_insert_eq.
Qed.

(** The completion script names no option. *)
Lemma bash_print_no_options program_name p p' : bash_print program_name p = bash_print program_name p'.
Proof. done. Qed.

(** ** A parser with an option of each class *)
Module Demo.
Definition typing_of : typing := {[1 := TyN true 32; 2 := TyS; 3 := TyB]}.
Definition build : failure + parser :=
  let p := new (text "demo") ∅ in
  match add Optional (new_default (text "n") (text "number") [] (KValue (TInt true 32)) (VN 5) (Some 1) (vars p)) p with
  | inl e => inl e
  | inr p => match add Optional (new_default (text "t") (text "title") [] (KImplicit TString) (VS (text "none")) (Some 2) (vars p)) p with
             | inl e => inl e
             | inr p => add Optional (new_switch (text "v") (text "verbose") [] (Some 3) (vars p)) p
             end
  end.
Definition demo : parser := match build with inr p => p | inl _ => new [] ∅ end.
Lemma demo_build : build = inr demo.
Proof. vm_compute. reflexivity. Qed.
Lemma demo_ok : wt typing_of demo /\ distinct demo.
Proof.
  pose proof demo_build as H. unfold build in H. set (p0 := new (text "demo") ∅) in H.
  assert (W0 : wt typing_of p0) by apply new_wt.
  pose proof (distinct_new (text "demo") ∅ : distinct p0) as D0. clearbody p0. revert H.
  destruct (new_default _ _ _ _ (VN 5) _ _) as [|[o1 m1]] eqn:N1; [done|]. destruct (add _ _ p0) as [|p1] eqn:A1; [done|].
  destruct (new_default _ _ _ _ (VS _) _ _) as [|[o2 m2]] eqn:N2; [done|]. destruct (add _ _ p1) as [|p2] eqn:A2; [done|].
  unfold new_switch. destruct (new_default _ _ _ KSwitch _ _ _) as [|[o3 m3]] eqn:N3; [done|]. intros A3.
  apply (new_default_wt typing_of) in N1 as [? ?]; [|apply W0|done|done|by intros ? [= <-]].
  pose proof (add_wt _ _ _ _ _ _ W0 ltac:(done) ltac:(done) A1) as W1.
  apply (new_default_wt typing_of) in N2 as [? ?]; [|apply W1|done|done|by intros ? [= <-]].
  pose proof (add_wt _ _ _ _ _ _ W1 ltac:(done) ltac:(done) A2) as W2.
  apply (new_default_wt typing_of) in N3 as [? ?]; [|apply W2|done|done|by intros ? [= <-]].
  split; [by eapply (add_wt _ _ _ _ _ _ W2)|]. eapply distinct_add; [|exact A3]. eapply distinct_add; [|exact A2]. by eapply distinct_add.
Qed.

(** [--number=-7 -v input -tx --title -n 8] *)
Definition items : list item :=
  [LongEq 0 (VN (-7)); ShortAlone [2%nat]; Plain (text "input"); ShortGlued 1 (VS (text "x")); LongAlone 1; ShortNext 0 (VN 8)].
Lemma items_ok : Forall (item_ok demo) items.
Proof.
  repeat constructor; try (vm_compute; discriminate); try (vm_compute; lia); try (vm_compute; reflexivity);
    apply (bool_decide_unpack _); vm_compute; exact I.
Qed.
Lemma none_required i o : options_ demo !! i = Some o -> attribute_ o <> Required.
Proof. destruct i as [|[|[|i]]]; vm_compute; intros [= <-]; discriminate. Qed.

Lemma options_well_typed_witness : wt typing_of (parse [text "-n"; text "99999999999"] demo).2 /\
  (parse [text "-n"; text "99999999999"] demo).1 <> Some Undefined.
Proof. apply (options_well_typed typing_of). apply demo_ok. Defined.
Lemma options_roundtrip_witness : let '(e, p') := parse (items ≫= render demo) demo in
  e = None /\ (forall i, values_ <$> options_ p' !! i = (fun _ => vals i (items ≫= gives demo)) <$> options_ demo !! i) /\
  non_option_args_ p' = items ≫= plain /\ unknown_options_ p' = [].
Proof.
  apply (options_roundtrip typing_of demo items); [apply demo_ok|apply demo_ok|apply items_ok|].
  intros i o Ho Hr. by apply none_required in Ho.
Defined.
Lemma dashdash_parsed_again_witness : let '(e, p') := parse (([] ≫= render demo) ++ dashdash :: (items ≫= render demo)) demo in
  e = None /\ (forall i, values_ <$> options_ p' !! i = (fun _ => vals i (([] ++ items) ≫= gives demo)) <$> options_ demo !! i) /\
  non_option_args_ p' = ([] ≫= plain) ++ (items ≫= render demo) ++ (items ≫= plain).
Proof.
  apply (dashdash_parsed_again typing_of demo [] items); [apply demo_ok|apply demo_ok|constructor|apply items_ok|apply none_required].
Defined.
End Demo.
End Popl.
