(* ===== verification/ConfigFile.v ===== *)
(** * The configuration file, include/piduino/configfile.h

    A configuration is a map from keys to values, read from the lines of a text;
    a file that cannot be opened is [None].  The separators of keys and of comments
    are parameters, as they are of the constructor. *)
From Stdlib Require Import Ascii.
From S2P Require Import Prelude Text ArduinoPrint StdStream.

Module ConfigFile.
Import Digits PString ArduinoPrint StdStream.

(** ** What the class uses of [std::string] *)

(** [find]: the first position of a character. *)
Fixpoint find (c : Z) (s : bytes) : option nat :=
  match s with [] => None | x :: s => if x =? c then Some 0%nat else S <$> find c s end.
(** [erase (0, find_first_not_of (set))] and [erase (find_last_not_of (set) + 1)] *)
Fixpoint skip (set : Z -> bool) (s : bytes) : bytes :=
  match s with c :: s' => if set c then skip set s' else s | [] => [] end.
Definition skip_back (set : Z -> bool) (s : bytes) : bytes := reverse (skip set (reverse s)).
(** The sets of characters: tabs and spaces, and with quotes. *)
Definition tab_space (c : Z) : bool := (c =? 9) || (c =? 32).
Definition tab_space_quote (c : Z) : bool := tab_space c || (c =? 34).

(** ** The class *)
Record config : Type := mk { _contents : gmap bytes bytes; _keysep : Z; _remsep : Z }.
Definition set_contents (m : gmap bytes bytes) (c : config) : config := mk m (_keysep c) (_remsep c).

Definition keyExists (key : bytes) (c : config) : bool := bool_decide (is_Some (_contents c !! key)).
Definition value (key defaultValue : bytes) (c : config) : bytes :=
  if negb (keyExists key c) then defaultValue else default [] (_contents c !! key).
(** [Convert::string_to_T] for a number: what follows the number is ignored. *)
Definition string_to_num (signed : bool) (bits : Z) (val : bytes) : outcome Z :=
  match extract_num signed bits val with Some (z, _) => Ok z | None => Throw InvalidArgument end.
Definition value_num (signed : bool) (bits : Z) (key : bytes) (defaultValue : Z) (c : config) : outcome Z :=
  if negb (keyExists key c) then Ok defaultValue else string_to_num signed bits (default [] (_contents c !! key)).

Definition removeComment (line : bytes) (c : config) : bytes :=
  match find (_remsep c) line with Some pos => take pos line | None => line end.
Definition onlyWhitespace (line : bytes) : bool := forallb (fun x => x =? 32) line.
Definition validLine (line : bytes) (c : config) : bool :=
  let temp := skip tab_space line in negb (match temp with x :: _ => x | [] => 0 end =? _keysep c).
Definition trim (str : bytes) : bytes := skip_back tab_space_quote (skip tab_space_quote str).
Definition extractKey (sepPos : option nat) (line : bytes) : bytes :=
  trim (match sepPos with Some i => take i line | None => line end).
Definition extractValue (sepPos : option nat) (line : bytes) : bytes :=
  match sepPos with Some i => trim (drop (S i) line) | None => [] end.
Definition extractContents (line : bytes) (c : config) : config :=
  let temp := skip tab_space line in
  let sepPos := find (_keysep c) temp in
  let key := extractKey sepPos temp in
  let value := extractValue sepPos temp in
  let c := if keyExists key c then set_contents (delete key (_contents c)) c else c in
  if keyExists key c then c else set_contents (<[key := value]> (_contents c)) c.
Definition parseLine (line : bytes) (c : config) : config :=
  if bool_decide (is_Some (find (_keysep c) line)) then if validLine line c then extractContents line c else c else c.
Fixpoint extract_lines (lines : list bytes) (c : config) : config :=
  match lines with
  | [] => c
  | line :: lines =>
      match line with
      | [] => extract_lines lines c
      | _ =>
          let temp := removeComment line c in
          if onlyWhitespace temp then extract_lines lines c else extract_lines lines (parseLine temp c)
      end
  end.
Definition extractKeys (file : option bytes) (c : config) : outcome config :=
  match file with None => Throw InvalidArgument | Some s => Ok (extract_lines (lines_of [] s) c) end.
Definition new (file : option bytes) (keysep remsep : Z) : outcome config := extractKeys file (mk ∅ keysep remsep).

(** ** Texts and their lines *)
Lemma find_here c l r : c ∉ l -> find c (l ++ c :: r) = Some (length l).
Proof.
  induction l as [|x l IH]; intros Hc; cbn; [by rewrite Z.eqb_refl|]. apply not_elem_of_cons in Hc as [Hx Hc].
  rewrite (proj2 (Z.eqb_neq x c)) by congruence. by rewrite IH.
Qed.
Lemma find_absent c l : c ∉ l -> find c l = None.
Proof.
  induction l as [|x l IH]; intros Hc; cbn; [done|]. apply not_elem_of_cons in Hc as [Hx Hc].
  rewrite (proj2 (Z.eqb_neq x c)) by congruence. by rewrite IH.
Qed.
Abbreviation all_in set := (Forall (fun c : Z => set c = true)).
Lemma skip_all set l s : all_in set l -> skip set (l ++ s) = skip set s.
Proof. induction 1 as [|c l Hc _ IH]; cbn; [done|]. by rewrite Hc. Qed.
Lemma skip_fixed set c s : skip set (c :: s) = c :: s -> set c = false.
Proof.
  cbn. destruct (set c); [|done]. intros H. exfalso. assert (length (skip set s) <= length s)%nat as Hl; [|rewrite H in Hl; cbn in Hl; lia].
  clear. induction s as [|c s IH]; cbn; [lia|]. case_match; cbn; lia.
Qed.
Lemma skip_start set s r : skip set s = s -> s <> [] -> skip set (s ++ r) = s ++ r.
Proof. destruct s as [|c s]; [done|]. intros H%skip_fixed _. cbn. by rewrite H. Qed.
(** A text that starts and ends with a character to keep. *)
Definition neat (set : Z -> bool) (s : bytes) : Prop := skip set s = s /\ skip_back set s = s.
Lemma trim_neat pre s post : all_in tab_space_quote pre -> all_in tab_space_quote post -> neat tab_space_quote s ->
  trim (pre ++ s ++ post) = s.
Proof.
  intros Hpre Hpost [Hs Hb]. unfold trim. rewrite skip_all by done. assert (Hr : all_in tab_space_quote (reverse post)) by (by rewrite Forall_reverse).
  destruct (decide (s = [])) as [->|Hne].
  - cbn [app]. rewrite <- (app_nil_r post), skip_all by done. done.
  - rewrite skip_start by done. unfold skip_back. rewrite reverse_app, skip_all by done. exact Hb.
Qed.
(** What is left of a prefix of tabs, spaces and quotes. *)
Lemma skip_prefix pre s : all_in tab_space_quote pre -> neat tab_space_quote s -> s <> [] -> forall r,
  exists pre', skip tab_space (pre ++ s ++ r) = pre' ++ s ++ r /\ all_in tab_space_quote pre'.
Proof.
  intros Hpre [Hs _] Hne r. induction Hpre as [|c pre Hc Hpre IH].
  - exists []. split; [|done]. destruct s as [|c s]; [done|]. apply skip_fixed in Hs. cbn.
    unfold tab_space_quote in Hs. by apply orb_false_iff in Hs as [-> _].
  - cbn. destruct (tab_space c); [done|]. exists (c :: pre). split; [done|]. by constructor.
Qed.

Inductive line : Type :=
  | Entry (pre key post pre' val post' comment : bytes)
  | Remark (spaces comment : bytes).
Section separators.
Context (ks rs : Z).
Definition body (l : line) : bytes :=
  match l with
  | Entry pre key post pre' val post' _ => pre ++ key ++ post ++ ks :: pre' ++ val ++ post'
  | Remark spaces _ => spaces
  end.
Definition remark (l : line) : bytes := match l with Entry _ _ _ _ _ _ comment | Remark _ comment => comment end.
Definition render (l : line) : bytes := body l ++ remark l.
Definition enter (m : gmap bytes bytes) (l : line) : gmap bytes bytes :=
  match l with Entry _ key _ _ val _ _ => <[key := val]> m | Remark _ _ => m end.
(** A comment is empty, or it starts with its separator and ends with the line. *)
Definition comment_ok (s : bytes) : Prop := s = [] \/ (head s = Some rs /\ 10 ∉ s).
Definition line_ok (l : line) : Prop :=
  match l with
  | Entry pre key post pre' val post' comment =>
      all_in tab_space_quote pre /\ all_in tab_space_quote post /\ all_in tab_space_quote pre' /\ all_in tab_space_quote post' /\
      neat tab_space_quote key /\ key <> [] /\ ks ∉ key /\ rs ∉ key /\ 10 ∉ key /\
      neat tab_space_quote val /\ rs ∉ val /\ 10 ∉ val /\ comment_ok comment
  | Remark spaces comment => Forall (fun c => c = 32) spaces /\ comment_ok comment
  end.
Definition separators_ok : Prop :=
  tab_space_quote ks = false /\ tab_space_quote rs = false /\ ks <> 10 /\ rs <> 10 /\ ks <> rs.

Context (Hsep : separators_ok).
Lemma not_in_blanks c l : tab_space_quote c = false -> all_in tab_space_quote l -> c ∉ l.
Proof. intros Hc Hl Hin. rewrite Forall_forall in Hl. apply Hl in Hin. congruence. Qed.
Lemma body_clean l : line_ok l -> rs ∉ body l /\ 10 ∉ body l.
Proof.
  destruct Hsep as (Hk & Hr & Hk10 & Hr10 & Hne). assert (tab_space_quote 10 = false) by done.
  destruct l as [pre key post pre' val post' comment|spaces comment]; cbn.
  - intros (?&?&?&?&?&?&?&?&?&?&?&?&?). rewrite !not_elem_of_app, !not_elem_of_cons, !not_elem_of_app.
    repeat split; try done; by apply not_in_blanks.
  - intros [Hs _]. rewrite Forall_forall in Hs. split; intros Hin%Hs; [|done]. by rewrite Hin in Hr.
Qed.
Lemma removeComment_render l m : line_ok l -> removeComment (render l) (mk m ks rs) = body l.
Proof.
  intros Hl. destruct (body_clean l Hl) as [Hr _]. unfold removeComment, render. cbn.
  assert (Hc : comment_ok (remark l)) by (destruct l; apply Hl).
  destruct Hc as [->|[Hh _]]; [by rewrite app_nil_r, find_absent|].
  destruct (remark l) as [|c s]; [done|]. cbn in Hh. simplify_eq.
  rewrite find_here by done. by rewrite take_app_length.
Qed.
Lemma render_one_line l : line_ok l -> 10 ∉ render l.
Proof.
  intros Hl. destruct (body_clean l Hl) as [_ Hn]. unfold render. apply not_elem_of_app. split; [done|].
  assert (Hc : comment_ok (remark l)) by (destruct l; apply Hl).
  destruct Hc as [->|[_ ?]]; [|done]. apply not_elem_of_nil.
Qed.
Lemma parseLine_entry pre key post pre' val post' comment m : line_ok (Entry pre key post pre' val post' comment) ->
  parseLine (body (Entry pre key post pre' val post' comment)) (mk m ks rs) = mk (<[key := val]> m) ks rs.
Proof.
  intros (Hpre & Hpost & Hpre' & Hpost' & Hkey & Hne & Hks & _ & _ & Hval & _). destruct Hsep as (Hk & _). cbn [body].
  unfold parseLine, validLine, extractContents. cbn [_keysep].
  destruct (skip_prefix pre key Hpre Hkey Hne (post ++ ks :: pre' ++ val ++ post')) as (p & -> & Hp).
  assert (Hf : forall q, all_in tab_space_quote q -> find ks (q ++ key ++ post ++ ks :: pre' ++ val ++ post') = Some (length (q ++ key ++ post))).
  { intros q Hq. rewrite !(assoc_L (++)). apply find_here. rewrite !not_elem_of_app. repeat split; [| done|]; by apply not_in_blanks. }
  rewrite !Hf by done. rewrite bool_decide_eq_true_2 by done.
  assert (Hh : (match p ++ key ++ post ++ ks :: pre' ++ val ++ post' with x :: _ => x | [] => 0 end =? ks) = false).
  { apply Z.eqb_neq. destruct p as [|c p]; [|apply Forall_cons in Hp as [Hp _]; cbn; congruence].
    destruct key as [|c key]; [done|]. cbn. apply not_elem_of_cons in Hks as [? _]. congruence. }
  rewrite Hh. cbn [negb]. unfold extractKey, extractValue.
  assert (take (length (p ++ key ++ post)) (p ++ key ++ post ++ ks :: pre' ++ val ++ post') = p ++ key ++ post) as ->
    by (rewrite !(assoc_L (++)); apply take_app_length).
  assert (drop (S (length (p ++ key ++ post))) (p ++ key ++ post ++ ks :: pre' ++ val ++ post') = pre' ++ val ++ post') as ->
    by (rewrite !(assoc_L (++)), <- Nat.add_1_r, <- drop_drop, drop_app_length; done).
  rewrite !trim_neat by done. unfold keyExists, set_contents. cbn.
  destruct (m !! key) as [w|] eqn:E; cbn; [rewrite lookup_delete_eq|rewrite E]; cbn; [by rewrite insert_delete_eq|done].
Qed.
Lemma extract_lines_render ls : Forall line_ok ls -> forall m,
  extract_lines (render <$> ls) (mk m ks rs) = mk (foldl enter m ls) ks rs.
Proof.
  induction 1 as [|l ls Hl _ IH]; intros m; [done|]. cbn [fmap list_fmap extract_lines foldl]. rewrite removeComment_render by done.
  destruct l as [pre key post pre' val post' comment|spaces comment].
  - assert (Hw : onlyWhitespace (body (Entry pre key post pre' val post' comment)) = false).
    { destruct Hl as (_&_&_&_&[Hs _]&Hne&_). destruct key as [|c key]; [done|]. apply skip_fixed in Hs. unfold onlyWhitespace. cbn.
      rewrite forallb_app. cbn. destruct (Z.eqb_spec c 32) as [->|]; [done|]. apply andb_false_r. }
    rewrite Hw, parseLine_entry by done.
    destruct (render _) eqn:E; [|apply IH]. exfalso. apply app_eq_nil in E as [E _]. by rewrite E in Hw.
  - destruct Hl as [Hs _]. assert (Hw : onlyWhitespace (body (Remark spaces comment)) = true).
    { unfold onlyWhitespace. apply forallb_forall. intros x Hx%list_elem_of_In. rewrite Forall_forall in Hs. apply Z.eqb_eq. by apply Hs. }
    rewrite Hw. destruct (render _); apply IH.
Qed.
End separators.

(** The value of the last entry of a key. *)
Definition last_value (key : bytes) (ls : list line) : option bytes :=
  last (omap (fun l => match l with Entry _ k _ _ v _ _ => if decide (k = key) then Some v else None | Remark _ _ => None end) ls).
Lemma entered key ls m : foldl enter m ls !! key = match last_value key ls with Some v => Some v | None => m !! key end.
Proof.
  unfold last_value. induction ls as [|l ls IH] using rev_ind; [done|]. rewrite foldl_app, omap_app. cbn.
  destruct l as [? k ? ? v ? ?|]; cbn; [|by rewrite app_nil_r]. destruct (decide (k = key)) as [->|Hne].
  - by rewrite lookup_insert_eq, last_snoc.
  - by rewrite lookup_insert_ne, app_nil_r by done.
Qed.

(** C15: a file written as entries, with tabs, spaces and quotes around keys and values, with
    comments and with empty lines, is read as exactly its entries: the value of a key is the
    last one written for it, and a key without an entry has the default. *)
Theorem config_roundtrip ks rs ls : separators_ok ks rs -> Forall (line_ok ks rs) ls ->
  exists c, new (Some (ls ≫= fun l => render ks l ++ [10])) ks rs = Ok c /\
    forall key d, keyExists key c = bool_decide (is_Some (last_value key ls)) /\ value key d c = default d (last_value key ls).
Proof.
  intros Hsep Hls. exists (mk (foldl enter ∅ ls) ks rs). split.
  - unfold new, extractKeys. f_equal. rewrite <- extract_lines_render by done. f_equal.
    apply lines_of_lines. eapply Forall_impl; [done|]. intros l. by apply render_one_line.
  - intros key d. unfold value, keyExists. cbn. rewrite entered, lookup_empty. by destruct (last_value key ls).
Qed.

(** A number is read back from the value that was written for it. *)
Lemma config_number signed bits key d z c : 0 < bits -> in_range signed bits z = true -> _contents c !! key = Some (long_text z) ->
  value_num signed bits key d c = Ok z.
Proof. intros Hb Hz Hc. unfold value_num, keyExists, string_to_num. rewrite Hc. cbn. by rewrite extract_num_long_text. Qed.
(** Of a value that starts with a number the rest is ignored; other text is refused. *)
Lemma config_number_junk : string_to_num true 32 (text "12abc") = Ok 12 /\ string_to_num true 32 (text "abc") = Throw InvalidArgument.
Proof. split; vm_compute; reflexivity. Qed.
(** A comment sign cuts the value, also between quotes. *)
Lemma comment_in_quotes : exists c, new (Some (text "k=" ++ [34] ++ text "a#b" ++ [34])) 61 35 = Ok c /\ value (text "k") [] c = text "a".
Proof. eexists. split; vm_compute; reflexivity. Qed.

(** [  connection_info "sqlite3"=a=b  # base], an empty line, a remark, and the key once more *)
Definition sample : list line :=
  [Entry (text "  ") (text "connection_info") [32; 34] (text " ") (text "a=b") (text "  ") (text "# base"); Remark [] []; Remark (text "  ") (text "#x");
   Entry [] (text "connection_info") [] [34] (text "sqlite3") [34] []].
Lemma config_roundtrip_witness : exists c, new (Some (sample ≫= fun l => render 61 l ++ [10])) 61 35 = Ok c /\
  forall key d, keyExists key c = bool_decide (is_Some (last_value key sample)) /\ value key d c = default d (last_value key sample).
Proof.
  apply (config_roundtrip 61 35 sample); [by repeat split|]. unfold sample, neat, comment_ok.
  repeat constructor; try done; try (by left); try (right; split; [done|]); apply (bool_decide_unpack _); vm_compute; exact I.
Defined.
End ConfigFile.
