(* ===== verification/GpioPwm.v ===== *)
(** * Software PWM, src/gpio/gpiopwm.cpp, and real-time priorities, src/scheduler.cpp

    A [GpioPwm] drives a pin from a thread of its own.  The thread is a machine
    whose steps are the accesses to what it shares with the caller: the value,
    the atomic flags and the pin; the caller's functions are sequences of such
    accesses, and [step] interleaves the two.  The pin, the clock and the sleep
    are an interface, [GenOs]; its law [GenOsOk] lets a thread wake late by a
    bounded latency.  Times are in nanoseconds. *)
From Stdlib Require Import SpecFloat.
From S2P Require Import Prelude Double IoDevice SocPwm.
Import Flags IoDevice SocPwm.

Module Scheduler.
(** What the calls of the system answer; an error of [pthread_setschedparam] is a positive number. *)
Class SchedOs (W : Type) : Type := {
  sched_get_priority_min : Z;
  sched_get_priority_max : Z;
  pthread_getschedparam : W -> Z;
  pthread_setschedparam : Z -> W -> Z * W;
  errno : W -> Z }.
Section Calls.
Context {W : Type} {O : SchedOs W}.
Definition setRtPriority (priority : Z) : M W unit := fun w =>
  let sched_priority := pthread_getschedparam w in
  let sched_priority := if priority <? sched_get_priority_min then sched_get_priority_min else sched_priority in
  let sched_priority := if sched_get_priority_max <? priority then sched_get_priority_max else priority in
  let '(r, w) := pthread_setschedparam sched_priority w in
  if r <? 0 then (Throw (SystemError (errno w)), w) else (Ok tt, w).
Definition rtPriority : M W Z := fun w => (Ok (pthread_getschedparam w), w).
End Calls.

(** The mutex of [noInterrupts] is held by the caller until [interrupts]. *)
Record scheduler (W : Type) : Type := mk_scheduler { _interruptPriority : Z; _previousPriority : Z; _intMutex : bool; os : W }.
Arguments mk_scheduler {W}. Arguments _interruptPriority {W}. Arguments _previousPriority {W}. Arguments _intMutex {W}. Arguments os {W}.
Section Mutex.
Context {W : Type} {O : SchedOs W}.
Definition new_scheduler (interruptPriority : Z) (w : W) : scheduler W :=
  mk_scheduler (if interruptPriority <? 0 then sched_get_priority_max else interruptPriority) (pthread_getschedparam w) false w.
(** [None]: the call waits for the mutex. *)
Definition noInterrupts (s : scheduler W) : option (scheduler W) :=
  if _intMutex s then None
  else let previous := pthread_getschedparam (os s) in
       Some (mk_scheduler (_interruptPriority s) previous true (setRtPriority (_interruptPriority s) (os s)).2).
(** Only who has the mutex may release it. *)
Definition interrupts (s : scheduler W) : outcome (scheduler W) :=
  if negb (_intMutex s) then Throw UB else Ok (mk_scheduler (_interruptPriority s) (_previousPriority s) false (setRtPriority (_previousPriority s) (os s)).2).
Definition setInterrupPriority (value : Z) (s : scheduler W) : option (scheduler W) :=
  if _intMutex s then None else Some (mk_scheduler value (_previousPriority s) (_intMutex s) (os s)).
End Mutex.

(** A priority below the least one is passed on as it is; a refusal of the system is not reported. *)
Lemma setRtPriority_exact {W} {O : SchedOs W} priority w : (forall p w, 0 <= (pthread_setschedparam p w).1) ->
  setRtPriority priority w = (Ok tt, (pthread_setschedparam (Z.min priority sched_get_priority_max) w).2).
Proof.
  intros Hr. unfold setRtPriority. replace (if _ <? priority then _ else priority) with (Z.min priority sched_get_priority_max)
    by (destruct (Z.ltb_spec sched_get_priority_max priority); lia).
  specialize (Hr (Z.min priority sched_get_priority_max) w). destruct (pthread_setschedparam _ w) as [r w']. cbn in *.
  by rewrite (proj2 (Z.ltb_ge r 0)).
Qed.

(** The system takes the priorities between the two limits and refuses the others. *)
Class SchedOsOk (W : Type) (O : SchedOs W) : Prop := {
  limits : 0 < sched_get_priority_min <= sched_get_priority_max;
  set_taken p w : sched_get_priority_min <= p <= sched_get_priority_max ->
    exists w', pthread_setschedparam p w = (0, w') /\ pthread_getschedparam w' = p;
  set_refused p w : p < sched_get_priority_min \/ sched_get_priority_max < p -> pthread_setschedparam p w = (22, w) }.
(** A thread of normal priority, which is 0, that goes through [noInterrupts] and [interrupts] keeps the
    priority of the part without interrupts: going back to 0 is refused, and the refusal is not seen. *)
Lemma interrupts_keeps_priority {W} {O : SchedOs W} {OK : SchedOsOk W O} w s1 s2 : pthread_getschedparam w = 0 ->
  noInterrupts (new_scheduler (-1) w) = Some s1 -> interrupts s1 = Ok s2 ->
  pthread_getschedparam (os s1) = sched_get_priority_max /\ pthread_getschedparam (os s2) = sched_get_priority_max.
Proof.
  intros H0 H1 H2. destruct limits as [Hmin Hmax].
  assert (Hz : forall x, setRtPriority 0 x = (Ok tt, x)).
  { intros x. unfold setRtPriority. rewrite (proj2 (Z.ltb_ge sched_get_priority_max 0)) by lia. by rewrite set_refused by lia. }
  assert (Hm : pthread_getschedparam (setRtPriority sched_get_priority_max w).2 = sched_get_priority_max).
  { unfold setRtPriority. rewrite Z.ltb_irrefl. by destruct (set_taken sched_get_priority_max w) as (w' & -> & Hp); [lia|]. }
  unfold noInterrupts, new_scheduler in H1. cbn in H1. injection H1 as <-. unfold interrupts in H2. cbn in H2. injection H2 as <-. cbn. by rewrite H0, Hz.
Qed.
End Scheduler.

Module GpioPwm.

Definition FlagRun : Z := 1.
Definition FlagValueUpdated : Z := 2.

(** The pin, the clock and [sleep_until]. *)
Class GenOs (W : Type) : Type := {
  os_now : W -> Z;
  os_sleep_until : Z -> M W unit;
  os_write : bool -> M W unit;
  os_output : M W unit;
  os_priority : Z -> M W unit }.

(** ** The thread *)
Inductive pc : Type := GStart | GInit | GRun | GUpdated | GCompute | GClear | GOn | GOff | GLast | GDone | GTerminated | GUndefined.
#[export] Instance pc_eq_dec : EqDecision pc.
Proof. solve_decision. Defined.
(** Its local variables: the period, the width of the range, the two durations
    once they have been computed, and the time of the next edge. *)
Record gen : Type := mk_gen { g_pc : pc; g_T : double; g_D : double; g_ton : option double; g_toff : option double; g_next : Z }.
Definition at_pc (p : pc) (g : gen) : gen := mk_gen p (g_T g) (g_D g) (g_ton g) (g_toff g) (g_next g).

Record st (W : Type) : Type := mk_st {
  dev : iodevice; value : Z; pfreq : Z; prange : Z; flag : Z; thread : option gen; world : W }.
Arguments mk_st {W}. Arguments dev {W}. Arguments value {W}. Arguments pfreq {W}. Arguments prange {W}. Arguments flag {W}.
Arguments thread {W}. Arguments world {W}.

Section Pwm.
Context {W : Type} {O : GenOs W}.
Definition set_dev (d : iodevice) (s : st W) : st W := mk_st d (value s) (pfreq s) (prange s) (flag s) (thread s) (world s).
Definition set_value (v : Z) (s : st W) : st W := mk_st (dev s) v (pfreq s) (prange s) (flag s) (thread s) (world s).
Definition set_flag (f : Z) (s : st W) : st W := mk_st (dev s) (value s) (pfreq s) (prange s) f (thread s) (world s).
Definition set_thread (g : option gen) (s : st W) : st W := mk_st (dev s) (value s) (pfreq s) (prange s) (flag s) g (world s).
Definition set_world (w : W) (s : st W) : st W := mk_st (dev s) (value s) (pfreq s) (prange s) (flag s) (thread s) w.

Definition max (s : st W) : Z := prange s.
Definition min (s : st W) : Z := 0.
Definition dbl_zero : double := dbl_int 0.

(** The durations for a value. *)
Definition on_time (v : Z) (T D : double) : double := dbl_div (dbl_mul (dbl_int v) T) D.
Definition off_time (v : Z) (T D : double) : double := dbl_sub T (on_time v T D).
(** [duration_cast<nanoseconds>] *)
Definition to_ns (d : double) : option Z := dbl_trunc (- 2 ^ 63) (2 ^ 63) d.

(** An edge: the time moves on by one duration, the thread sleeps, then it writes.
    What a write throws ends the program when it is a [system_error], and the loop otherwise. *)
Definition edge (wait : double) (level : bool) (after : pc) (g : gen) (s : st W) : st W :=
  match to_ns wait with
  | None => set_thread (Some (at_pc GUndefined g)) s
  | Some ns =>
      let next := g_next g + ns in
      let g := mk_gen (g_pc g) (g_T g) (g_D g) (g_ton g) (g_toff g) next in
      let '(r, w) := (os_sleep_until next;; os_write level) (world s) in
      set_thread (Some (at_pc (match r with Ok _ => after | Throw (SystemError _) => GTerminated | Throw _ => GLast end) g)) (set_world w s)
  end.
(** [GTerminated]: an exception has ended the program.  [GUndefined]: a variable without a value was used, or a
    duration that is no number of nanoseconds. *)
Definition gstep (g : gen) (s : st W) : st W :=
  let goto p := set_thread (Some (at_pc p g)) in
  match g_pc g with
  | GStart =>
      let T := dbl_div (dbl_int 1000000000) (dbl_int (pfreq s)) in
      let D := dbl_int (max s - min s) in
      let g := mk_gen GStart T D None None 0 in
      set_thread (Some (at_pc (if dbl_ltb dbl_zero T && dbl_ltb dbl_zero D then GInit else GLast) g)) s
  | GInit =>
      let g := mk_gen GInit (g_T g) (g_D g) (g_ton g) (g_toff g) (os_now (world s)) in
      let '(r, w) := (os_write false;; os_priority 90) (world s) in
      set_thread (Some (at_pc (match r with Ok _ => GRun | Throw _ => GTerminated end) g)) (set_world w s)
  | GRun => goto (if Z.land (flag s) FlagRun =? 0 then GLast else GUpdated) s
  | GUpdated => goto (if Z.land (flag s) FlagValueUpdated =? 0 then GOn else GCompute) s
  | GCompute =>
      set_thread (Some (mk_gen GClear (g_T g) (g_D g) (Some (on_time (value s) (g_T g) (g_D g)))
                               (Some (off_time (value s) (g_T g) (g_D g))) (g_next g))) s
  | GClear => goto GOn (set_flag (Z.ldiff (flag s) FlagValueUpdated) s)
  | GOn => match g_ton g, g_toff g with
           | Some ton, Some toff => if dbl_ltb dbl_zero ton then edge toff true GOff g s else goto GOff s
           | _, _ => goto GUndefined s
           end
  | GOff => match g_ton g, g_toff g with
            | Some ton, Some toff => if dbl_ltb dbl_zero toff then edge ton false GRun g s else goto GRun s
            | _, _ => goto GUndefined s
            end
  | GLast =>
      let '(r, w) := os_write false (world s) in
      goto (match r with Ok _ => GDone | Throw _ => GTerminated end) (set_world w s)
  | GDone | GTerminated | GUndefined => s
  end.
(** The calls that a step makes of the pin, the clock and the scheduler *)
Definition calls (g : gen) : M W unit :=
  match g_pc g with
  | GInit => os_write false;; os_priority 90
  | GOn => match g_toff g ≫= to_ns with Some ns => os_sleep_until (g_next g + ns);; os_write true | None => mret tt end
  | GOff => match g_ton g ≫= to_ns with Some ns => os_sleep_until (g_next g + ns);; os_write false | None => mret tt end
  | GLast => os_write false
  | _ => mret tt
  end.
Definition tick (s : st W) : st W := match thread s with Some g => gstep g s | None => s end.
Definition ticks (n : nat) (s : st W) : st W := Nat.iter n tick s.

(** ** The caller *)
Definition isEnabled (s : st W) : bool := bool_decide (is_Some (thread s)).
Definition fresh : gen := mk_gen GStart dbl_zero dbl_zero None None 0.
Definition start (s : st W) : st W := set_thread (Some fresh) (set_flag (Z.lor FlagRun FlagValueUpdated) s).

(** Joining the thread: it runs until it is done. *)
Fixpoint join (fuel : nat) (s : st W) : outcome unit * st W :=
  match thread s with
  | None => (Throw (SystemError 22), s)
  | Some g => if bool_decide (g_pc g = GDone) then (Ok tt, set_thread None s)
              else match fuel with 0%nat => (Throw OutOfFuel, s) | S fuel => join fuel (tick s) end
  end.
Definition stop_fuel : nat := 8.
Definition setEnable (enable : bool) : M (st W) unit := fun s =>
  if bool_decide (enable <> isEnabled s)
  then if enable then (Ok tt, start s)
       else join stop_fuel (set_flag (Z.ldiff (flag s) FlagRun) s)
  else (Ok tt, s).
Definition output : M (st W) unit := fun s => let '(r, w) := os_output (world s) in (r, set_world w s).
Definition dev_open (mode : Z) : M (st W) bool := fun s => let '(b, d) := popen mode (dev s) in (Ok b, set_dev d s).
Definition v_open (mode : Z) : M (st W) bool :=
  output;; setEnable true;; (on ← gets isEnabled; if on : bool then dev_open mode else mret false).
Definition v_close : M (st W) unit :=
  setEnable false;; modify (fun s => set_dev (pclose (dev s)) s).
Definition v_read : M (st W) Z := gets value.
(** The two accesses of [write]. *)
Definition store (v : Z) (s : st W) : st W := set_value v s.
Definition signal (s : st W) : st W := set_flag (Z.lor (flag s) FlagValueUpdated) s.
Definition v_write (v : Z) : M (st W) bool := fun s => (Ok true, signal (store v s)).
Definition new (r f : Z) (w : W) : st W := mk_st IoDevice.new 0 f r 0 None w.
End Pwm.

(** ** Any interleaving of the two *)

(** What is promised of a system that works, with an open pin: no call fails, and each returns late by at most [latency];
    [edges] are the writes to the pin with their times. *)
Class GenOsOk (W : Type) (O : GenOs W) : Type := {
  latency : Z;
  edges : W -> list (Z * bool);
  sleep_ok t w : exists w', os_sleep_until t w = (Ok tt, w') /\ edges w' = edges w /\
    Z.max (os_now w) t <= os_now w' <= Z.max (os_now w) t + latency;
  write_ok v w : exists w', os_write v w = (Ok tt, w') /\ edges w' = edges w ++ [(os_now w, v)] /\
    os_now w <= os_now w' <= os_now w + latency;
  priority_ok p w : exists w', os_priority p w = (Ok tt, w') /\ edges w' = edges w;
  output_ok w : exists w', os_output w = (Ok tt, w') /\ edges w' = edges w }.

Definition period (f : Z) : double := dbl_div (dbl_int 1000000000) (dbl_int f).
Definition width (r : Z) : double := dbl_int (r - 0).
(** The durations of every value of the range are numbers of nanoseconds. *)
Definition timed (f r : Z) : bool :=
  dbl_ltb dbl_zero (period f) && dbl_ltb dbl_zero (width r) &&
  forallb (fun v => bool_decide (is_Some (to_ns (on_time v (period f) (width r)))) && bool_decide (is_Some (to_ns (off_time v (period f) (width r)))))
          (seqZ 0 (r + 1)).

Section Steps.
Context {W : Type} {O : GenOs W} {OK : GenOsOk W O}.

(** One access of the caller or one step of the thread; the caller joins a thread that is done. *)
Inductive step : st W -> st W -> Prop :=
  | s_tick s : step s (tick s)
  | s_store s v : min s <= v <= max s -> step s (store v s)
  | s_signal s : step s (signal s)
  | s_start s : thread s = None -> step s (start s)
  | s_stop s : step s (set_flag (Z.ldiff (flag s) FlagRun) s)
  | s_join s g : thread s = Some g -> g_pc g = GDone -> step s (set_thread None s).

(** The durations are those of the value [v]. *)
Definition uses (v : Z) (g : gen) (s : st W) : Prop :=
  0 <= v <= prange s /\ g_ton g = Some (on_time v (g_T g) (g_D g)) /\ g_toff g = Some (off_time v (g_T g) (g_D g)).
Definition updated (s : st W) : Prop := Z.testbit (flag s) 1 = true.
Definition constants (g : gen) (s : st W) : Prop := g_T g = period (pfreq s) /\ g_D g = width (prange s).
Definition gen_ok (g : gen) (s : st W) : Prop :=
  match g_pc g with
  | GStart => updated s
  | GInit => updated s /\ constants g s
  | GRun | GUpdated => constants g s /\ (updated s \/ exists v, uses v g s)
  | GCompute => constants g s
  | GClear | GOn | GOff => constants g s /\ exists v, uses v g s
  | GLast => True
  | GDone => exists t, last (edges (world s)) = Some (t, false)
  | GTerminated | GUndefined => False
  end.
Definition good (s : st W) : Prop :=
  0 <= value s <= prange s /\ timed (pfreq s) (prange s) = true /\ forall g, thread s = Some g -> gen_ok g s.

Lemma land_flag_1 f : (Z.land f FlagRun =? 0) = negb (Z.testbit f 0).
Proof.
  unfold FlagRun. change 1 with (Z.ones 1). rewrite Z.land_ones by lia. change (2 ^ 1) with 2.
  rewrite Z.bit0_odd, <- Z.negb_even, negb_involutive, Zeven_mod. done.
Qed.
Lemma land_flag_2 f : (Z.land f FlagValueUpdated =? 0) = negb (Z.testbit f 1).
Proof.
  unfold FlagValueUpdated. destruct (Z.testbit f 1) eqn:E; cbn [negb].
  - apply Z.eqb_neq. intros H. apply (f_equal (fun x => Z.testbit x 1)) in H. rewrite Z.land_spec, E in H. by rewrite Z.bits_0 in H.
  - apply Z.eqb_eq, Z.bits_inj'. intros n Hn. rewrite Z.land_spec, Z.bits_0. destruct (decide (n = 1)) as [->|Hne]; [by rewrite E|].
    change 2 with (2 ^ 1). rewrite Z.pow2_bits_false by lia. apply andb_false_r.
Qed.
Lemma timed_value f r v : timed f r = true -> 0 <= v <= r ->
  is_Some (to_ns (on_time v (period f) (width r))) /\ is_Some (to_ns (off_time v (period f) (width r))).
Proof.
  unfold timed. rewrite !andb_true_iff, forallb_forall. intros [_ H] Hv. specialize (H v).
  rewrite andb_true_iff, !bool_decide_eq_true in H. apply H. apply list_elem_of_In, elem_of_seqZ. lia.
Qed.
Lemma edge_ok d ns level after g s : to_ns d = Some ns ->
  exists w t, edge d level after g s = set_thread (Some (mk_gen after (g_T g) (g_D g) (g_ton g) (g_toff g) (g_next g + ns))) (set_world w s) /\
    edges w = edges (world s) ++ [(t, level)] /\ t <= os_now w <= t + latency /\
    Z.max (os_now (world s)) (g_next g + ns) <= t <= Z.max (os_now (world s)) (g_next g + ns) + latency.
Proof.
  intros Hd. unfold edge. rewrite Hd. destruct (sleep_ok (g_next g + ns) (world s)) as (w1 & H1 & E1 & T1).
  destruct (write_ok level w1) as (w2 & H2 & E2 & T2). rewrite (M_bind_ok _ _ _ _ _ _ _ _ H1), H2.
  exists w2, (os_now w1). split; [done|]. rewrite E2, E1. done.
Qed.
Lemma on_step g s v : g_pc g = GOn -> constants g s -> uses v g s -> timed (pfreq s) (prange s) = true ->
  exists w n, gstep g s = set_thread (Some (mk_gen GOff (g_T g) (g_D g) (g_ton g) (g_toff g) n)) (set_world w s).
Proof.
  intros Hpc [HT HD] (Hv & Hon & Hoff) Ht. destruct (timed_value _ _ v Ht Hv) as [_ [ns Hns]]. rewrite <- HT, <- HD in Hns.
  unfold gstep. rewrite Hpc, Hon, Hoff. destruct (dbl_ltb _ _).
  - destruct (edge_ok _ ns true GOff g s Hns) as (w & t & -> & _). rewrite Hon, Hoff. eauto.
  - exists (world s), (g_next g). unfold at_pc. rewrite Hon, Hoff. by destruct s.
Qed.
Lemma off_step g s v : g_pc g = GOff -> constants g s -> uses v g s -> timed (pfreq s) (prange s) = true ->
  exists w n, gstep g s = set_thread (Some (mk_gen GRun (g_T g) (g_D g) (g_ton g) (g_toff g) n)) (set_world w s).
Proof.
  intros Hpc [HT HD] (Hv & Hon & Hoff) Ht. destruct (timed_value _ _ v Ht Hv) as [[ns Hns] _]. rewrite <- HT, <- HD in Hns.
  unfold gstep. rewrite Hpc, Hon, Hoff. destruct (dbl_ltb _ _).
  - destruct (edge_ok _ ns false GRun g s Hns) as (w & t & -> & _). rewrite Hon, Hoff. eauto.
  - exists (world s), (g_next g). unfold at_pc. rewrite Hon, Hoff. by destruct s.
Qed.
Lemma start_step g s : g_pc g = GStart -> timed (pfreq s) (prange s) = true ->
  gstep g s = set_thread (Some (mk_gen GInit (period (pfreq s)) (width (prange s)) None None 0)) s.
Proof.
  intros Hpc Ht. unfold timed in Ht. apply andb_true_iff in Ht as [Ht _]. unfold gstep. rewrite Hpc. cbv zeta.
  change (dbl_div (dbl_int 1000000000) (dbl_int (pfreq s))) with (period (pfreq s)). change (dbl_int (max s - min s)) with (width (prange s)).
  by rewrite Ht.
Qed.
Lemma init_step g s : g_pc g = GInit -> exists w, gstep g s =
  set_thread (Some (mk_gen GRun (g_T g) (g_D g) (g_ton g) (g_toff g) (os_now (world s)))) (set_world w s).
Proof.
  intros Hpc. destruct (write_ok false (world s)) as (w1 & H1 & _). destruct (priority_ok 90 w1) as (w2 & H2 & _).
  exists w2. unfold gstep. rewrite Hpc, (M_bind_ok _ _ _ _ _ _ _ _ H1), H2. done.
Qed.
Lemma last_step g s : g_pc g = GLast -> exists w t, gstep g s = set_thread (Some (at_pc GDone g)) (set_world w s) /\
  edges w = edges (world s) ++ [(t, false)].
Proof.
  intros Hpc. destruct (write_ok false (world s)) as (w & H & E & _). exists w, (os_now (world s)). unfold gstep. by rewrite Hpc, H.
Qed.

Lemma tick_good s : good s -> good (tick s).
Proof.
  intros (Hv & Ht & Hg). unfold tick. destruct (thread s) as [g|] eqn:Eg; [|by split; [|split]; [| |rewrite Eg]].
  specialize (Hg g eq_refl). destruct (g_pc g) eqn:Hpc; unfold gen_ok in Hg; rewrite Hpc in Hg.
  - rewrite start_step by done. split; [done|]. split; [done|]. intros g' [= <-]. by split.
  - destruct (init_step g s Hpc) as (w & ->). split; [done|]. split; [done|]. intros g' [= <-]. destruct Hg. split; [done|by left].
  - unfold gstep. rewrite Hpc, land_flag_1. split; [done|]. split; [done|]. intros g' [= <-]. by destruct (negb _).
  - unfold gstep. rewrite Hpc, land_flag_2. split; [done|]. split; [done|]. intros g' [= <-]. destruct Hg as [Hc Hu].
    unfold updated in Hu. destruct (Z.testbit (flag s) 1); cbn; [done|]. split; [done|]. by destruct Hu.
  - unfold gstep. rewrite Hpc. split; [done|]. split; [done|]. intros g' [= <-]. split; [done|]. exists (value s). by split.
  - unfold gstep. rewrite Hpc. split; [done|]. split; [done|]. intros g' [= <-]. done.
  - destruct Hg as [Hc [v Hu]]. destruct (on_step g s v Hpc Hc Hu Ht) as (w & n & ->). split; [done|]. split; [done|].
    intros g' [= <-]. split; [done|]. by exists v.
  - destruct Hg as [Hc [v Hu]]. destruct (off_step g s v Hpc Hc Hu Ht) as (w & n & ->). split; [done|]. split; [done|].
    intros g' [= <-]. split; [done|]. right. by exists v.
  - destruct (last_step g s Hpc) as (w & t & -> & E). split; [done|]. split; [done|]. intros g' [= <-]. exists t. cbn. by rewrite E, last_snoc.
  - unfold gstep. rewrite Hpc. split; [done|]. split; [done|]. rewrite Eg. intros ? [= <-]. unfold gen_ok. by rewrite Hpc.
  - done.
  - done.
Qed.
(** A flag that is set stays good for the thread, whatever it waits for. *)
Lemma good_set_flag s f : good s -> (updated s -> Z.testbit f 1 = true) -> good (set_flag f s).
Proof.
  intros (Hv & Ht & Hg) Hf. split; [done|]. split; [done|]. intros g Hs. specialize (Hg g Hs). unfold gen_ok in *.
  destruct (g_pc g); try done; [by apply Hf|destruct Hg; by split; [apply Hf|]| |]; destruct Hg as [? [?|?]]; split; auto; left; by apply Hf.
Qed.
Lemma step_good s s' : step s s' -> good s -> good s'.
Proof.
  intros Hstep Hgood. destruct Hstep as [s|s v Hv|s|s Hn|s|s g Hs Hpc].
  - by apply tick_good.
  - destruct Hgood as (_ & Ht & Hg). split; [exact Hv|]. by split.
  - apply good_set_flag; [done|]. intros _. rewrite Z.lor_spec. apply orb_true_r.
  - destruct Hgood as (Hv & Ht & _). split; [done|]. split; [done|]. by intros g [= <-].
  - apply good_set_flag; [done|]. unfold updated. rewrite Z.ldiff_spec. intros ->. done.
  - destruct Hgood as (Hv & Ht & _). split; [done|]. split; done.
Qed.

End Steps.

(** ** Safety, whatever the pin, the clock and the scheduler answer *)
Section Safety.
Context {W : Type} {O : GenOs W}.

Definition gen_safe (g : gen) (s : st W) : Prop :=
  match g_pc g with
  | GStart => updated s
  | GInit => updated s /\ constants g s
  | GRun | GUpdated => constants g s /\ (updated s \/ exists v, uses v g s)
  | GCompute => constants g s
  | GClear | GOn | GOff => constants g s /\ exists v, uses v g s
  | GLast | GDone | GTerminated => True
  | GUndefined => False
  end.
Definition safe (s : st W) : Prop :=
  0 <= value s <= prange s /\ timed (pfreq s) (prange s) = true /\ forall g, thread s = Some g -> gen_safe g s.

(** An edge ends where it should, or at the end of the loop or of the program when a call throws. *)
Lemma edge_result d ns level after g (s : st W) : to_ns d = Some ns -> exists w p,
  edge d level after g s = set_thread (Some (mk_gen p (g_T g) (g_D g) (g_ton g) (g_toff g) (g_next g + ns))) (set_world w s) /\
  (p = after \/ p = GLast \/ p = GTerminated /\ exists e, ((os_sleep_until (g_next g + ns);; os_write level) (world s)).1 = Throw e).
Proof.
  intros Hd. unfold edge. rewrite Hd. destruct ((os_sleep_until (g_next g + ns);; os_write level) (world s)) as [[[]|e] w].
  - exists w, after. split; [done|by left].
  - destruct e; eexists w, _; (split; [reflexivity|]); eauto.
Qed.
Lemma timed_durations g (s : st W) v : constants g s -> uses v g s -> timed (pfreq s) (prange s) = true ->
  exists ton toff on off, g_ton g = Some ton /\ g_toff g = Some toff /\ to_ns ton = Some on /\ to_ns toff = Some off.
Proof.
  intros [HT HD] (Hv & Hon & Hoff) Ht. destruct (timed_value _ _ v Ht Hv) as [[on H1] [off H2]]. rewrite <- HT, <- HD in H1, H2.
  by exists (on_time v (g_T g) (g_D g)), (off_time v (g_T g) (g_D g)), on, off.
Qed.

(** A step of the thread stays safe; it ends the program only when one of its calls throws. *)
Definition ended (g : gen) (s s' : st W) : Prop :=
  forall g', thread s' = Some g' -> g_pc g' = GTerminated -> g_pc g = GTerminated \/ exists e, (calls g (world s)).1 = Throw e.
Lemma safe_goto g s g' w f : safe s -> (g_pc g' = GTerminated -> exists e, (calls g (world s)).1 = Throw e) ->
  gen_safe g' (set_thread (Some g') (set_world w (set_flag f s))) ->
  safe (set_thread (Some g') (set_world w (set_flag f s))) /\ ended g s (set_thread (Some g') (set_world w (set_flag f s))).
Proof.
  intros (Hv & Ht & _) He Hg. split; [split; [done|]; split; [done|]; by intros ? [= <-]|]. intros ? [= <-] Hp. right. auto.
Qed.
Lemma set_same (s : st W) g : set_thread g (set_world (world s) (set_flag (flag s) s)) = set_thread g s.
Proof. by destruct s. Qed.
Lemma set_same_flag (s : st W) g w : set_thread g (set_world w (set_flag (flag s) s)) = set_thread g (set_world w s).
Proof. by destruct s. Qed.

Lemma gstep_safe g s : safe s -> thread s = Some g -> safe (gstep g s) /\ ended g s (gstep g s).
Proof.
  intros Hs Eg. pose proof Hs as (Hv & Ht & Hg). specialize (Hg g Eg). unfold gen_safe in Hg.
  assert (Hgo : forall g', g_pc g' <> GTerminated -> gen_safe g' (set_thread (Some g') s) -> safe (set_thread (Some g') s) /\ ended g s (set_thread (Some g') s)).
  { intros g' Hn Hg'. rewrite <- set_same. apply safe_goto; [done|done|by rewrite set_same]. }
  destruct (g_pc g) eqn:Hpc; try done.
  - rewrite start_step by done. apply Hgo; [done|]. by split.
  - unfold gstep. rewrite Hpc. destruct ((os_write false;; os_priority 90) (world s)) as [r w] eqn:E. rewrite <- set_same_flag.
    apply safe_goto; [done| |destruct r; [|done]; destruct Hg; split; [done|by left]].
    destruct r as [|e]; [done|]. intros _. exists e. unfold calls. by rewrite Hpc, E.
  - unfold gstep. rewrite Hpc, land_flag_1. apply Hgo; destruct (negb _); done.
  - unfold gstep. rewrite Hpc, land_flag_2. destruct Hg as [Hc Hu]. unfold updated in Hu.
    apply Hgo; destruct (Z.testbit (flag s) 1); cbn; try done. split; [done|]. by destruct Hu.
  - unfold gstep. rewrite Hpc. apply Hgo; [done|]. split; [done|]. by exists (value s).
  - unfold gstep. rewrite Hpc. change (set_flag ?f s) with (set_world (world s) (set_flag f s)). by apply safe_goto.
  - destruct Hg as [Hc [v Hu]]. destruct (timed_durations g s v Hc Hu Ht) as (ton & toff & on & off & E1 & E2 & N1 & N2).
    unfold gstep. rewrite Hpc, E1, E2. destruct (dbl_ltb _ _); [|by apply Hgo; [|split; [|exists v]]].
    destruct (edge_result _ off true GOff g s N2) as (w & p & -> & Hp). rewrite <- set_same_flag. rewrite E1, E2.
    apply safe_goto; [done| |].
    + cbn. intros ->. destruct Hp as [?|[?|[_ He]]]; [done..|]. unfold calls. rewrite Hpc, E2. cbn. by rewrite N2.
    + destruct Hp as [->|[->|[-> _]]]; [|done..]. split; [done|]. exists v. destruct Hu as (? & Hon & Hoff). split; [done|]. split; cbn; congruence.
  - destruct Hg as [Hc [v Hu]]. destruct (timed_durations g s v Hc Hu Ht) as (ton & toff & on & off & E1 & E2 & N1 & N2).
    unfold gstep. rewrite Hpc, E1, E2. destruct (dbl_ltb _ _); [|by apply Hgo; [|split; [|right; exists v]]].
    destruct (edge_result _ on false GRun g s N1) as (w & p & -> & Hp). rewrite <- set_same_flag. rewrite E1, E2.
    apply safe_goto; [done| |].
    + cbn. intros ->. destruct Hp as [?|[?|[_ He]]]; [done..|]. unfold calls. rewrite Hpc, E1. cbn. by rewrite N1.
    + destruct Hp as [->|[->|[-> _]]]; [|done..]. split; [done|]. right. exists v. destruct Hu as (? & Hon & Hoff). split; [done|]. split; cbn; congruence.
  - unfold gstep. rewrite Hpc. destruct (os_write false (world s)) as [r w] eqn:E. rewrite <- set_same_flag.
    apply safe_goto; [done| |by destruct r]. destruct r as [|e]; [done|]. intros _. exists e. unfold calls. by rewrite Hpc, E.
  - unfold gstep. rewrite Hpc. split; [done|]. intros g' E'. rewrite Eg in E'. injection E' as <-. by rewrite Hpc.
  - unfold gstep. rewrite Hpc. split; [done|]. intros g' E' _. by left.
Qed.
Lemma safe_set_flag s f : safe s -> (updated s -> Z.testbit f 1 = true) -> safe (set_flag f s).
Proof.
  intros (Hv & Ht & Hg) Hf. split; [done|]. split; [done|]. intros g Hs. specialize (Hg g Hs). unfold gen_safe in *.
  destruct (g_pc g); try done; [by apply Hf|destruct Hg; by split; [apply Hf|]| |]; destruct Hg as [? [?|?]]; split; auto; left; by apply Hf.
Qed.
Lemma step_safe s s' : step s s' -> safe s -> safe s'.
Proof.
  intros Hstep Hsafe. destruct Hstep as [s|s v Hv|s|s Hn|s|s g Hs Hpc].
  - unfold tick. destruct (thread s) as [g|] eqn:E; [by apply gstep_safe|done].
  - destruct Hsafe as (_ & Ht & Hg). split; [exact Hv|]. by split.
  - apply safe_set_flag; [done|]. intros _. rewrite Z.lor_spec. apply orb_true_r.
  - destruct Hsafe as (Hv & Ht & _). split; [done|]. split; [done|]. by intros g [= <-].
  - apply safe_set_flag; [done|]. unfold updated. rewrite Z.ldiff_spec. intros ->. done.
  - destruct Hsafe as (Hv & Ht & _). split; [done|]. split; done.
Qed.

(** C5: whatever the pin, the clock and the scheduler answer, and however the accesses of the caller and of the thread
    interleave, each of them being one step: when the frequency and the range give durations that are numbers of
    nanoseconds, the thread never uses a duration before it has been computed nor one that is no such number, it makes
    its edges with the durations of one value of the range, and it ends the program only in a step one of whose own
    calls, writing the pin, sleeping or setting the priority, has thrown. *)
Theorem gpwm_thread_safe r f w s g : 0 <= r -> timed f r = true -> rtc step (new r f w) s -> thread s = Some g ->
  g_pc g <> GUndefined /\ (g_pc g = GOn \/ g_pc g = GOff -> exists v, uses v g s) /\
  (forall g', thread (tick s) = Some g' -> g_pc g' = GTerminated -> g_pc g = GTerminated \/ exists e, (calls g (world s)).1 = Throw e).
Proof.
  intros Hr Ht Hsteps Eg. assert (Hs : safe s).
  { assert (safe (new r f w)) as H0 by (split; [cbn; lia|split; [done|]]; by intros ? [=]).
    clear Ht Eg. induction Hsteps as [|x y z Hxy _ IH]; [done|]. apply IH. by eapply step_safe. }
  split_and!.
  - intros E. destruct Hs as (_ & _ & Hg). specialize (Hg g Eg). unfold gen_safe in Hg. by rewrite E in Hg.
  - intros E. destruct Hs as (_ & _ & Hg). specialize (Hg g Eg). unfold gen_safe in Hg. by destruct E as [E|E]; rewrite E in Hg; apply Hg.
  - destruct (gstep_safe g s Hs Eg) as [_ He]. unfold tick. by rewrite Eg.
Qed.

End Safety.

Section Steps2.
Context {W : Type} {O : GenOs W} {OK : GenOsOk W O}.

Lemma tick_frame s : dev (tick s) = dev s /\ value (tick s) = value s /\ pfreq (tick s) = pfreq s /\ prange (tick s) = prange s.
Proof. unfold tick, gstep, edge. repeat case_match; done. Qed.
(** The steps left to a thread that is told to stop. *)
Definition left_to_do (p : pc) : nat :=
  match p with
  | GDone => 0 | GLast => 1 | GRun => 2 | GOff | GInit => 3 | GOn | GStart => 4 | GClear => 5 | GCompute => 6 | GUpdated => 7 | GTerminated | GUndefined => 0
  end.
Lemma tick_stopping s g : good s -> thread s = Some g -> Z.testbit (flag s) 0 = false -> g_pc g <> GDone ->
  exists g', thread (tick s) = Some g' /\ (left_to_do (g_pc g') < left_to_do (g_pc g))%nat /\ Z.testbit (flag (tick s)) 0 = false.
Proof.
  intros (Hv & Ht & Hg) Eg Hf Hd. unfold tick. rewrite Eg. specialize (Hg g Eg). destruct (g_pc g) eqn:Hpc; unfold gen_ok in Hg; rewrite Hpc in Hg; try done.
  - rewrite start_step by done. eexists. split; [done|]. split; [cbn; lia|done].
  - destruct (init_step g s Hpc) as (w & ->). eexists. split; [done|]. split; [cbn; lia|done].
  - unfold gstep. rewrite Hpc, land_flag_1, Hf. eexists. split; [done|]. split; [cbn; lia|done].
  - unfold gstep. rewrite Hpc, land_flag_2. eexists. split; [done|]. split; [destruct (negb _); cbn; lia|done].
  - unfold gstep. rewrite Hpc. eexists. split; [done|]. split; [cbn; lia|done].
  - unfold gstep. rewrite Hpc. eexists. split; [done|]. split; [cbn; lia|]. cbn. by rewrite Z.ldiff_spec, Hf.
  - destruct Hg as [Hc [v Hu]]. destruct (on_step g s v Hpc Hc Hu Ht) as (w & n & ->). eexists. split; [done|]. split; [cbn; lia|done].
  - destruct Hg as [Hc [v Hu]]. destruct (off_step g s v Hpc Hc Hu Ht) as (w & n & ->). eexists. split; [done|]. split; [cbn; lia|done].
  - destruct (last_step g s Hpc) as (w & t & -> & _). eexists. split; [done|]. split; [cbn; lia|done].
Qed.
Lemma join_returns fuel : forall s g, good s -> thread s = Some g -> Z.testbit (flag s) 0 = false -> (left_to_do (g_pc g) <= fuel)%nat ->
  exists s' t, join fuel s = (Ok tt, s') /\ thread s' = None /\ last (edges (world s')) = Some (t, false) /\ good s' /\ dev s' = dev s.
Proof.
  induction fuel as [|fuel IH]; intros s g Hs Eg Hf Hl; cbn [join]; rewrite Eg.
  all: case_bool_decide as Hpc; [pose proof Hs as (_ & _ & Hg); specialize (Hg g Eg); unfold gen_ok in Hg; rewrite Hpc in Hg; destruct Hg as [t Ht];
    exists (set_thread None s), t; by (split_and!; [| | | eapply step_good; [eapply s_join|] |]) |].
  - exfalso. pose proof Hs as (_ & _ & Hg). specialize (Hg g Eg). unfold gen_ok in Hg. destruct (g_pc g); cbn in *; try lia; done.
  - destruct (tick_stopping s g Hs Eg Hf Hpc) as (g' & Eg' & Hlt & Hf'). 
    destruct (IH (tick s) g' (tick_good s Hs) Eg' Hf' ltac:(lia)) as (s' & t & Hj & Hn & Hlast & Hgood & Hdev). exists s', t. split_and!; try done.
    by rewrite Hdev, (proj1 (tick_frame s)).
Qed.
Lemma left_to_do_bound p : (left_to_do p <= stop_fuel)%nat.
Proof. unfold stop_fuel. destruct p; cbn; lia. Qed.

(** C24: whatever the thread is doing when the output is switched off or the object is closed,
    it ends after a bounded number of its steps, so that the caller that joins it returns; the pin
    is low then, and the object is closed and can be switched on again. *)
Theorem gpwm_stops_low s g : good s -> thread s = Some g -> exists s' t,
  v_close s = (Ok tt, s') /\ thread s' = None /\ last (edges (world s')) = Some (t, false) /\ isOpen (dev s') = false /\ good s'.
Proof.
  intros Hs Eg. set (s1 := set_flag (Z.ldiff (flag s) FlagRun) s).
  destruct (join_returns stop_fuel s1 g) as (s' & t & Hj & Hn & Hlast & Hgood & Hdev);
    [by apply (step_good s); [constructor|]|done|by cbn; rewrite Z.ldiff_spec; apply andb_false_r|apply left_to_do_bound|].
  exists (set_dev (pclose (dev s')) s'), t. split; [|done]. unfold v_close.
  erewrite M_bind_ok; [done|]. unfold setEnable, isEnabled. rewrite Eg. exact Hj.
Qed.

(** ** Whether a new value is used *)
Definition to_clear (p : pc) : option nat :=
  match p with
  | GCompute => Some 1 | GUpdated => Some 2 | GRun => Some 3 | GOff | GInit => Some 4 | GOn | GStart => Some 5
  | GClear | GLast | GDone | GTerminated | GUndefined => None
  end%nat.
Lemma tick_updating s g k : good s -> thread s = Some g -> Z.testbit (flag s) 0 = true -> updated s -> to_clear (g_pc g) = Some (S (S k)) ->
  exists g', thread (tick s) = Some g' /\ to_clear (g_pc g') = Some (S k) /\ flag (tick s) = flag s.
Proof.
  intros (Hv & Ht & Hg) Eg Hf Hu Hk. unfold tick. rewrite Eg. specialize (Hg g Eg).
  destruct (g_pc g) eqn:Hpc; unfold gen_ok in Hg; rewrite Hpc in Hg; cbn in Hk; simplify_eq.
  - rewrite start_step by done. by eexists.
  - destruct (init_step g s Hpc) as (w & ->). by eexists.
  - unfold gstep. rewrite Hpc, land_flag_1, Hf. by eexists.
  - unfold gstep. rewrite Hpc, land_flag_2, Hu. by eexists.
  - destruct Hg as [Hc [v Huv]]. destruct (on_step g s v Hpc Hc Huv Ht) as (w & n & ->). by eexists.
  - destruct Hg as [Hc [v Huv]]. destruct (off_step g s v Hpc Hc Huv Ht) as (w & n & ->). by eexists.
Qed.
Lemma ticks_S n s : ticks (S n) s = ticks n (tick s).
Proof. unfold ticks. by rewrite Nat.iter_succ_r. Qed.

(** C25: a value that is written is used: once it is stored and signalled, and unless the thread
    is just between reading the value and clearing the signal, the thread takes the durations
    of that value after at most five of its own steps. *)
Theorem gpwm_value_used s g k v : good s -> thread s = Some g -> Z.testbit (flag s) 0 = true -> to_clear (g_pc g) = Some k ->
  0 <= v <= prange s ->
  (k <= 5)%nat /\ exists g', thread (ticks k (signal (store v s))) = Some g' /\ uses v g' (ticks k (signal (store v s))).
Proof.
  intros Hs Eg Hf Hk Hv. split; [destruct (g_pc g); cbn in Hk; simplify_eq; lia|].
  set (s1 := signal (store v s)). assert (H1 : good s1) by (apply (step_good (store v s)); [constructor|apply (step_good s); [by constructor|done]]).
  assert (Hf1 : Z.testbit (flag s1) 0 = true) by (cbn; by rewrite Z.lor_spec, Hf). assert (Hu1 : updated s1) by (unfold updated; cbn; rewrite Z.lor_spec; apply orb_true_r).
  assert (Hv1 : value s1 = v) by done. assert (Hr1 : prange s1 = prange s) by done. assert (Eg1 : thread s1 = Some g) by done.
  clearbody s1. clear Hf Eg Hs. destruct k as [|k]; [by destruct (g_pc g)|].
  revert s1 g H1 Hf1 Hu1 Hv1 Hr1 Eg1 Hk. induction k as [|k IH]; intros s1 g H1 Hf1 Hu1 Hv1 Hr1 Eg1 Hk.
  - destruct (g_pc g) eqn:Hpc; cbn in Hk; simplify_eq. change (ticks 1 s1) with (tick s1). unfold tick. rewrite Eg1. unfold gstep. rewrite Hpc.
    eexists. split; [done|]. split; [cbn; lia|done].
  - destruct (tick_updating s1 g k H1 Eg1 Hf1 Hu1 Hk) as (g' & Eg' & Hk' & Hfl). destruct (tick_frame s1) as (_ & Hval & _ & Hran).
    rewrite ticks_S. apply (IH (tick s1) g'); [by apply tick_good|by rewrite Hfl|unfold updated; by rewrite Hfl|congruence|congruence|done|done].
Qed.

(** The thread between reading the value and clearing the signal: a value that is written then is lost. *)
Definition keeps_using (u : Z) (s : st W) : Prop := Z.testbit (flag s) 1 = false /\ timed (pfreq s) (prange s) = true /\
  exists g, thread s = Some g /\ constants g s /\ uses u g s /\ g_pc g ∈ [GRun; GUpdated; GOn; GOff; GLast; GDone].
Lemma tick_keeps_using u s : keeps_using u s -> keeps_using u (tick s).
Proof.
  intros (Hf & Ht & g & Eg & Hc & Hu & Hpc). destruct (tick_frame s) as (_ & _ & Hpf & Hpr).
  unfold keeps_using, uses, constants. rewrite Hpf, Hpr. unfold tick. rewrite Eg.
  repeat (apply elem_of_cons in Hpc as [Hpc|Hpc]); [| | | | | |by apply not_elem_of_nil in Hpc].
  - unfold gstep. rewrite Hpc. split; [done|]. split; [done|]. eexists. split; [done|]. split; [done|]. split; [done|]. cbn. destruct (_ =? 0); set_solver.
  - unfold gstep. rewrite Hpc, land_flag_2, Hf. split; [done|]. split; [done|]. eexists. split; [done|]. split; [done|]. split; [done|]. set_solver.
  - destruct (on_step g s u Hpc Hc Hu Ht) as (w & n & ->). split; [done|]. split; [done|]. eexists. split; [done|]. split; [done|]. split; [done|]. set_solver.
  - destruct (off_step g s u Hpc Hc Hu Ht) as (w & n & ->). split; [done|]. split; [done|]. eexists. split; [done|]. split; [done|]. split; [done|]. set_solver.
  - destruct (last_step g s Hpc) as (w & t & -> & _). split; [done|]. split; [done|]. eexists. split; [done|]. split; [done|]. split; [done|]. set_solver.
  - unfold gstep. rewrite Hpc, Eg. split; [done|]. split; [done|]. eexists. split; [done|]. split; [done|]. split; [done|]. rewrite Hpc. set_solver.
Qed.
(** the signal is cleared after the value is read: a value that is written in between is never
    used, however long the thread runs, though the object reports it as its value. *)
Theorem gpwm_update_lost s g u v n : good s -> thread s = Some g -> g_pc g = GClear -> uses u g s -> 0 <= v <= prange s ->
  let s' := ticks (S n) (signal (store v s)) in value s' = v /\ exists g', thread s' = Some g' /\ uses u g' s'.
Proof.
  intros (Hv & Ht & Hg) Eg Hpc Hu Hvr. cbv zeta. specialize (Hg g Eg). unfold gen_ok in Hg. rewrite Hpc in Hg.
  assert (Hk : keeps_using u (tick (signal (store v s)))).
  { unfold tick. change (thread (signal (store v s))) with (thread s). rewrite Eg. unfold gstep. rewrite Hpc.
    split; [cbn; rewrite Z.ldiff_spec; apply andb_false_r|]. split; [done|]. eexists. split; [done|]. split; [apply Hg|]. split; [done|]. set_solver. }
  assert (Hval : value (tick (signal (store v s))) = v) by apply tick_frame. rewrite ticks_S. revert Hk Hval.
  generalize (tick (signal (store v s))). intros s1 Hk Hval. induction n as [|n IH] in s1, Hk, Hval |- *.
  - split; [done|]. destruct Hk as (_ & _ & g' & ? & _ & ? & _). by exists g'.
  - rewrite ticks_S. apply IH; [by apply tick_keeps_using|]. by rewrite (proj1 (proj2 (tick_frame s1))).
Qed.

(** ** The signal *)
(** The edges of [n] periods after the time [t], and the times they are made at. *)
Fixpoint schedule (t on off : Z) (n : nat) : list (Z * bool) :=
  match n with 0%nat => [] | S n => (t + off, true) :: (t + off + on, false) :: schedule (t + off + on) on off n end.
Definition on_time_edge (made planned : Z * bool) : Prop :=
  made.2 = planned.2 /\ planned.1 <= made.1 <= planned.1 + latency.
(** A thread at the head of its loop, running on the value [v] without a new one. *)
Definition steady (v on off : Z) (s : st W) : Prop := exists g, thread s = Some g /\ g_pc g = GRun /\ constants g s /\ uses v g s /\
  Z.testbit (flag s) 0 = true /\ Z.testbit (flag s) 1 = false /\ os_now (world s) <= g_next g + 2 * latency /\
  dbl_ltb dbl_zero (on_time v (g_T g) (g_D g)) = true /\ dbl_ltb dbl_zero (off_time v (g_T g) (g_D g)) = true /\
  to_ns (on_time v (g_T g) (g_D g)) = Some on /\ to_ns (off_time v (g_T g) (g_D g)) = Some off.
Definition next_of (s : st W) : Z := match thread s with Some g => g_next g | None => 0 end.
Lemma one_period v on off s : steady v on off s -> 2 * latency <= on -> 2 * latency <= off ->
  let s' := ticks 4 s in steady v on off s' /\ next_of s' = next_of s + off + on /\ exists e1 e2, edges (world s') = edges (world s) ++ [e1; e2] /\
    on_time_edge e1 (next_of s + off, true) /\ on_time_edge e2 (next_of s + off + on, false).
Proof.
  intros (g & Eg & Hpc & Hc & (Hv & Hon & Hoff) & Hf0 & Hf1 & Hnow & Hlon & Hloff & Hton & Htoff) Ln Lf. cbv zeta. unfold next_of. rewrite Eg.
  change (ticks 4 s) with (tick (tick (tick (tick s)))).
  set (s1 := set_thread (Some (at_pc GUpdated g)) s).
  assert (tick s = s1) as -> by (unfold tick; rewrite Eg; unfold gstep; by rewrite Hpc, land_flag_1, Hf0).
  set (g2 := at_pc GOn (at_pc GUpdated g)). set (s2 := set_thread (Some g2) s1).
  assert (tick s1 = s2) as -> by (unfold tick; cbn [thread s1 set_thread]; unfold gstep; cbn [g_pc at_pc]; rewrite land_flag_2; cbn; by rewrite Hf1).
  assert (tick s2 = edge (off_time v (g_T g) (g_D g)) true GOff g2 s2) as ->
    by (unfold tick; cbn [thread s2 set_thread]; unfold gstep; cbn [g_pc g2 at_pc g_ton g_toff]; by rewrite Hon, Hoff, Hlon).
  destruct (edge_ok _ off true GOff g2 s2 Htoff) as (w1 & t1 & -> & E1 & N1 & T1).
  match goal with |- context [tick (set_thread (Some ?h) ?x)] => set (g3 := h); set (s3 := x) end.
  assert (tick (set_thread (Some g3) s3) = edge (on_time v (g_T g) (g_D g)) false GRun g3 (set_thread (Some g3) s3)) as ->
    by (unfold tick; cbn [thread set_thread]; unfold gstep; cbn [g_pc g3 g_ton g_toff g2 at_pc]; by rewrite Hon, Hoff, Hloff).
  destruct (edge_ok _ on false GRun g3 (set_thread (Some g3) s3) Hton) as (w2 & t2 & -> & E2 & N2 & T2). cbn in N1, T1, N2, T2, E1, E2.
  split; [|split; [done|]].
  - eexists. split; [done|]. split; [done|]. split; [done|]. split; [done|]. cbn. repeat split; try done. lia.
  - exists (t1, true), (t2, false). cbn. rewrite E2, E1, <- app_assoc. split; [done|]. split; (split; [done|]); cbn; lia.
Qed.

End Steps2.

(** ** The public functions *)
Section Public.
Context {W : Type} {O : GenOs W}.
(** The virtual functions that the public functions of [Converter] call; range and frequency cannot be changed. *)
#[export] Instance engine : PwmEngine (st W) := {|
  p_dev := dev; p_read := v_read; p_write := v_write; p_range := gets prange; p_max := gets max; p_min := gets min;
  p_setRange := fun _ => mret (-1); p_setEnable := setEnable; p_isEnabled := gets isEnabled;
  p_frequency := gets pfreq; p_setFrequency := fun _ => mret (-1) |}.
Definition open (mode : Z) : M (st W) bool := fun s => if isOpen (dev s) then (Ok true, s) else v_open mode s.
Definition close : M (st W) unit := fun s => if isOpen (dev s) then v_close s else (Ok tt, s).

(** A value is clamped to the range, both ends of which can be written, and handed to the thread. *)
Lemma public_write v s : test (openMode (dev s)) WriteOnly = true -> 0 <= prange s ->
  SocPwm.write v s = (Ok true, signal (store (Z.max 0 (Z.min v (prange s))) s)).
Proof.
  intros Hm Hr. unfold SocPwm.write. cbn [p_dev engine]. rewrite Hm. unfold clampValue. cbn.
  unfold mbind, M_bind, gets, v_write, mret, M_ret, max, min. do 4 f_equal. destruct (Z.ltb_spec v 0); case_bool; lia.
Qed.
Lemma open_new {OK : GenOsOk W O} mode r f w : exists w1, os_output w = (Ok tt, w1) /\ open mode (new r f w) =
  (Ok true, set_dev (popen mode IoDevice.new).2 (start (set_world w1 (new r f w)))).
Proof.
  destruct (output_ok w) as (w1 & H1 & _). exists w1. split; [done|]. assert (Ho : output (new r f w) = (Ok tt, set_world w1 (new r f w))) by (unfold output; cbn; by rewrite H1).
  unfold open, v_open. cbn [dev new isOpen]. by rewrite (M_bind_ok _ _ _ _ _ _ _ _ Ho).
Qed.
(** A range or a frequency that leaves no signal to make: the thread ends at once, but the object counts as enabled and open. *)
Lemma no_signal_still_enabled {OK : GenOsOk W O} f w : exists s, open WriteOnly (new 0 f w) = (Ok true, s) /\ isEnabled s = true /\
  exists g, thread (ticks 2 s) = Some g /\ g_pc g = GDone.
Proof.
  destruct (open_new WriteOnly 0 f w) as (w1 & _ & Ho). eexists. split; [exact Ho|]. split; [done|].
  change (ticks 2 ?x) with (tick (tick x)). unfold tick at 2. cbn [thread set_thread set_dev start]. unfold gstep at 1. cbn [g_pc fresh].
  change (dbl_ltb dbl_zero (dbl_int (max _ - min _))) with false. rewrite andb_false_r.
  destruct (write_ok false w1) as (w2 & H2 & _). unfold tick. cbn. rewrite H2. by eexists.
Qed.
End Public.

(** A clock that is three nanoseconds late, and a pin that keeps what was written. *)
Module Demo.
Record rig : Type := mk_rig { now : Z; log : list (Z * bool) }.
#[export] Instance rig_os : GenOs rig := {|
  os_now := now;
  os_sleep_until := fun t w => (Ok tt, mk_rig (Z.max (now w) t + 3) (log w));
  os_write := fun v w => (Ok tt, mk_rig (now w + 1) (log w ++ [(now w, v)]));
  os_output := mret tt;
  os_priority := fun _ => mret tt |}.
#[export] Instance rig_ok : GenOsOk rig rig_os.
Proof.
  refine {| latency := 3; edges := log |}; intros; (eexists; split; [reflexivity|]); cbn; split; try done; lia.
Defined.

Definition started (v : Z) : st rig := start (store v (new 8 100 (mk_rig 1000 []))).
Lemma timed_8_100 : timed 100 8 = true.
Proof. vm_compute. reflexivity. Qed.
Lemma started_good v : 0 <= v <= 8 -> good (started v).
Proof. intros Hv. split; [exact Hv|]. split; [exact timed_8_100|]. by intros g [= <-]. Qed.
Lemma ticks_good n s : good s -> good (ticks n s).
Proof. intros Hs. induction n as [|n IH]; [done|]. apply tick_good, IH. Qed.

Definition gen_of (s : st rig) : gen := default fresh (thread s).
Lemma started_reachable v n : 0 <= v <= 8 -> rtc step (new 8 100 (mk_rig 1000 [])) (ticks n (started v)).
Proof.
  intros Hv. transitivity (started v).
  - eapply rtc_l; [by apply (s_store _ v)|]. apply rtc_once. by apply s_start.
  - unfold ticks. induction n as [|n IH]; [done|]. eapply rtc_r; [exact IH|]. apply s_tick.
Qed.
Lemma gpwm_thread_safe_witness : exists v, uses v (gen_of (ticks 6 (started 2))) (ticks 6 (started 2)).
Proof.
  apply (gpwm_thread_safe 8 100 (mk_rig 1000 []) (ticks 6 (started 2)) (gen_of (ticks 6 (started 2))));
    [lia|exact timed_8_100|apply started_reachable; lia|vm_compute; reflexivity|left; vm_compute; reflexivity].
Defined.

(** The value is a plain [long] that both threads use: the caller can store into it while the thread is about to
    read it.  The language leaves such a pair of accesses undefined; the model takes each of them as a whole, as the
    processors of the boards do with an aligned word. *)
Lemma value_race : let s := ticks 4 (started 2) in
  rtc step (new 8 100 (mk_rig 1000 [])) s /\ g_pc <$> thread s = Some GCompute /\ step s (store 7 s).
Proof.
  split; [apply started_reachable; lia|]. split; [vm_compute; reflexivity|]. apply s_store. vm_compute. split; discriminate.
Qed.

(** A pin whose writing fails: the program ends with the first write of the thread. *)
Definition broken_pin : GenOs rig := {|
  os_now := now; os_sleep_until := fun _ => mret tt; os_write := fun _ => throw (SystemError 19); os_output := mret tt; os_priority := fun _ => mret tt |}.
Lemma broken_pin_ends : g_pc <$> thread (@ticks rig broken_pin 2 (started 2)) = Some GTerminated.
Proof. vm_compute. reflexivity. Qed.
Lemma gpwm_stops_low_witness : exists s' t, v_close (ticks 6 (started 2)) = (Ok tt, s') /\ thread s' = None /\
  last (edges (world s')) = Some (t, false) /\ isOpen (dev s') = false /\ good s'.
Proof.
  apply (gpwm_stops_low (ticks 6 (started 2)) (gen_of (ticks 6 (started 2)))); [|vm_compute; reflexivity].
  apply ticks_good, started_good. lia.
Defined.
Lemma gpwm_value_used_witness : (5 <= 5)%nat /\ exists g', thread (ticks 5 (signal (store 3 (started 2)))) = Some g' /\
  uses 3 g' (ticks 5 (signal (store 3 (started 2)))).
Proof.
  apply (gpwm_value_used (started 2) fresh 5 3); [apply started_good; lia|reflexivity|reflexivity|reflexivity|cbn; lia].
Defined.
Lemma gpwm_update_lost_witness : let s' := ticks 10 (signal (store 7 (ticks 5 (started 2)))) in
  value s' = 7 /\ exists g', thread s' = Some g' /\ uses 2 g' s'.
Proof.
  apply (gpwm_update_lost (ticks 5 (started 2)) (gen_of (ticks 5 (started 2))) 2 7 9);
    [apply ticks_good, started_good; lia|vm_compute; reflexivity|vm_compute; reflexivity|split; [vm_compute; split; discriminate|split; vm_compute; reflexivity]|vm_compute; split; discriminate].
Defined.

(** At 60 Hz and a range of 100 the full value leaves an off time that is not zero: the pin is not held high. *)
Lemma full_scale_not_constant : dbl_ltb dbl_zero (off_time 100 (period 60) (width 100)) = true /\
  to_ns (off_time 100 (period 60) (width 100)) = Some 0.
Proof. split; vm_compute; reflexivity. Qed.
End Demo.
End GpioPwm.
