(* ===== verification/Connector.v ===== *)
(** * Connectors and the GPIO, src/gpio/gpioconnector.cpp and src/gpio/gpio.cpp

    The pins are objects that connectors and the GPIO share: they live in a heap,
    and both hold references to them, a connector by the physical number of the
    pin and the GPIO by its number in the numbering that was chosen.  Each pin is
    the pin of GpioPin.v; all of them act on one world.  What the database says of
    a board, the descriptors, is an argument of the constructors. *)
From Stdlib Require Import Ascii Sorted.
From S2P Require Import Prelude IoDevice Text ArduinoPrint Mmio GpioBcm2835 Gpio2 GpioPin PinBcm2711.
Import Flags Pin.

(** ** [std::map]: the elements in the order of their keys *)
Module OrdMap.
Section OrdMap.
Context {A : Type}.
Fixpoint put (k : Z) (v : A) (m : list (Z * A)) : list (Z * A) :=
  match m with
  | [] => [(k, v)]
  | (k', v') :: m' => if k <? k' then (k, v) :: m else if k =? k' then (k, v) :: m' else (k', v') :: put k v m'
  end.
Fixpoint get (k : Z) (m : list (Z * A)) : option A :=
  match m with [] => None | (k', v) :: m => if k =? k' then Some v else get k m end.
(** [at] *)
Definition at_ (k : Z) (m : list (Z * A)) : outcome A := match get k m with Some v => Ok v | None => Throw OutOfRange end.

Lemma get_put k k' v m : get k' (put k v m) = if k' =? k then Some v else get k' m.
Proof.
  induction m as [|[j w] m IH]; cbn; [done|].
  destruct (Z.ltb_spec k j); cbn; [done|]. destruct (Z.eqb_spec k j) as [->|]; cbn.
  - by destruct (k' =? j).
  - rewrite IH. destruct (Z.eqb_spec k' j), (Z.eqb_spec k' k); try done. lia.
Qed.
Lemma put_length k v m : get k m = None -> length (put k v m) = S (length m).
Proof.
  induction m as [|[j w] m IH]; cbn; [done|]. destruct (k =? j) eqn:E; [done|]. intros H. destruct (k <? j); cbn; [done|]. by rewrite IH.
Qed.
Definition sorted : list (Z * A) -> Prop := StronglySorted (fun x y => x.1 < y.1).
Lemma put_keys k v m x : x ∈ put k v m -> x = (k, v) \/ x ∈ m.
Proof.
  induction m as [|[j w] m IH]; cbn; [set_solver|]. destruct (k <? j); [set_solver|]. destruct (k =? j); set_solver.
Qed.
Lemma sorted_put k v m : sorted m -> sorted (put k v m).
Proof.
  unfold sorted. induction 1 as [|[j w] m Hm IH Hj]; cbn; [repeat constructor|]. rewrite Forall_forall in Hj.
  destruct (Z.ltb_spec k j).
  - constructor; [by constructor; [|rewrite Forall_forall]|]. constructor; [done|]. rewrite Forall_forall. intros x Hx%Hj. cbn in *. lia.
  - destruct (Z.eqb_spec k j) as [->|]; [by constructor; [|rewrite Forall_forall]|]. constructor; [done|]. rewrite Forall_forall.
    intros x [->|Hx%Hj]%put_keys; cbn in *; [lia|done].
Qed.
Lemma get_Some k v m : sorted m -> get k m = Some v <-> (k, v) ∈ m.
Proof.
  unfold sorted. induction 1 as [|[j w] m Hm IH Hj]; cbn; [split; [done|by intros ?%elem_of_nil]|]. rewrite Forall_forall in Hj.
  rewrite elem_of_cons. destruct (Z.eqb_spec k j) as [->|Hne].
  - split; [intros [= ->]; by left|]. intros [[= ->]|Hin]; [done|]. apply Hj in Hin. cbn in Hin. lia.
  - rewrite IH. split; [by right|]. intros [[= ? ?]|]; [lia|done].
Qed.
Lemma put_replace k v w pre post : sorted (pre ++ (k, w) :: post) -> put k v (pre ++ (k, w) :: post) = pre ++ (k, v) :: post.
Proof.
  unfold sorted. induction pre as [|[j x] pre IH]; cbn; intros Hs.
  - by rewrite Z.ltb_irrefl, Z.eqb_refl.
  - apply StronglySorted_inv in Hs as [Hs Hj]. rewrite Forall_app, Forall_cons in Hj. destruct Hj as (_ & Hj & _). cbn in Hj.
    rewrite (proj2 (Z.ltb_ge k j)), (proj2 (Z.eqb_neq k j)) by lia. by rewrite IH.
Qed.
End OrdMap.
Lemma sorted_map {A B} (f : A -> B) m : sorted m -> sorted (prod_map id f <$> m).
Proof.
  unfold sorted. induction 1 as [|x m Hm IH Hx]; cbn; [constructor|]. constructor; [done|]. rewrite Forall_fmap.
  eapply Forall_impl; [done|]. by intros [].
Qed.
End OrdMap.

Module Connector.
Import Gpio2 GpioDev2 GpioPin OrdMap.

(** ** [Connector::Family] *)
Inductive family : Type := Header1X | Header2X.
Definition header1XNumFunc (row column columns : Z) : Z := row.
Definition header2XNumFunc (row column columns : Z) : Z := (row - 1) * columns + column.
Definition pinNumber (f : family) (columns row column : Z) : Z :=
  match f with Header1X => header1XNumFunc row column columns | Header2X => header2XNumFunc row column columns end.

(** ** The shared pins *)
Section Gpio.
Context {W : Type} {L : LineOs W} (PD : nat -> PinDevice W).
Record heap : Type := mk_heap { pins : list (pin W); chips : gmap Z chip; hw_ : W }.
Definition chip_of (n : Z) (h : heap) : chip := default new_chip (chips h !! n).
(** A call on a pin acts on the chip and the world all pins share. *)
Definition on_pin {A} (l : nat) (m : PinDevice W -> M (pin W) A) : M heap A := fun h =>
  match pins h !! l with
  | None => (Throw UB, h)
  | Some p =>
      let n := chip_no (num (desc p)) in
      let '(o, p') := m (PD l) (GpioPin.set_world (chip_of n h) (hw_ h) p) in
      (o, mk_heap (<[l := p']> (pins h)) (<[n := chp p']> (chips h)) (pw p'))
  end.
Definition desc_of (l : nat) (h : heap) : option descriptor := desc <$> pins h !! l.
(** [std::make_shared<Pin>] *)
Definition alloc (d : descriptor) (h : heap) : nat * heap :=
  (length (pins h), mk_heap (pins h ++ [GpioPin.new d (chip_of (chip_no (num d)) h) (hw_ h)]) (chips h) (hw_ h)).

(** ** [Connector] *)
Record cdesc : Type := mk_cdesc { d_name : bytes; d_number : Z; d_rows : Z; d_family : family; d_columns : Z; d_pins : list descriptor }.
Record connector : Type := mk_connector { _descriptor : cdesc; _isopen : bool; _pin : list (Z * nat) }.
Definition set_copen (b : bool) (c : connector) : connector := mk_connector (_descriptor c) b (_pin c).
Definition columns (c : connector) : Z := d_columns (_descriptor c).
Definition size (c : connector) : Z := Z.of_nat (length (_pin c)).
Definition place (d : cdesc) (p : descriptor) : Z := pinNumber (d_family d) (d_columns d) (row (num p)) (column (num p)).
Definition new_connector (d : cdesc) (h : heap) : connector * heap :=
  let '(m, h) := foldl (fun '(m, h) p => let '(l, h) := alloc p h in (put (place d p) l m, h)) ([], h) (d_pins d) in
  (mk_connector d false m, h).

(** The loops of [open] and [close] over the pins. *)
Fixpoint open_pins (ps : list (Z * nat)) : M heap bool :=
  match ps with
  | [] => mret true
  | (_, l) :: ps => ok ← on_pin l (fun D => GpioPin.open); if ok : bool then open_pins ps else mret false
  end.
Fixpoint close_pins (roc : bool) (ps : list (Z * nat)) : M heap unit :=
  match ps with [] => mret tt | (_, l) :: ps => on_pin l (fun D => GpioPin.close roc);; close_pins roc ps end.

(** ** [Gpio] *)
Definition AccessLayerAuto : Z := 0.
Definition AccessLayerIoMap : Z := 1.
Class GpioDriver : Type := { g_open : M W bool; g_close : M W unit; g_flags : Z; preferedAccessLayer : Z }.
Context {G : GpioDriver}.
Record gpio : Type := mk_gpio {
  roc : bool; isopen : bool; accesslayer : Z; numbering_ : numbering;
  pin_ : list (Z * nat); connector_ : list (Z * connector); heap_ : heap }.
Definition set_isopen (b : bool) (s : gpio) : gpio := mk_gpio (roc s) b (accesslayer s) (numbering_ s) (pin_ s) (connector_ s) (heap_ s).
Definition set_view (n : numbering) (m : list (Z * nat)) (s : gpio) : gpio :=
  mk_gpio (roc s) (isopen s) (accesslayer s) n m (connector_ s) (heap_ s).
Definition set_connectors (cs : list (Z * connector)) (s : gpio) : gpio :=
  mk_gpio (roc s) (isopen s) (accesslayer s) (numbering_ s) (pin_ s) cs (heap_ s).
Definition set_heap (h : heap) (s : gpio) : gpio :=
  mk_gpio (roc s) (isopen s) (accesslayer s) (numbering_ s) (pin_ s) (connector_ s) h.
Definition setReleaseOnClose (enable : bool) (s : gpio) : gpio :=
  mk_gpio enable (isopen s) (accesslayer s) (numbering_ s) (pin_ s) (connector_ s) (heap_ s).
Definition on_heap {A} (m : M heap A) : M gpio A := zoom heap_ set_heap m.
Definition on_driver {A} (m : M W A) : M gpio A :=
  on_heap (zoom hw_ (fun w h => mk_heap (pins h) (chips h) w) m).

Definition open_connector (k : Z) (c : connector) : M gpio bool :=
  if _isopen c then mret true
  else ok ← on_heap (open_pins (_pin c));
       if ok : bool then modify (fun s => set_connectors (put k (set_copen true c) (connector_ s)) s);; mret true else mret false.
Fixpoint open_connectors (cs : list (Z * connector)) : M gpio bool :=
  match cs with
  | [] => mret true
  | (k, c) :: cs => ok ← open_connector k c; if ok : bool then open_connectors cs else mret false
  end.
Definition open : M gpio bool := fun s =>
  if isopen s then (Ok true, s)
  else (ok ← (if test (accesslayer s) AccessLayerIoMap then on_driver g_open else mret true);
        if negb ok then mret false
        else ok ← open_connectors (connector_ s);
             if ok : bool then modify (set_isopen true);; mret true else mret false) s.
Definition close_connector (k : Z) (c : connector) : M gpio unit := fun s =>
  if _isopen c then (on_heap (close_pins (roc s) (_pin c));; modify (fun s => set_connectors (put k (set_copen false c) (connector_ s)) s)) s
  else (Ok tt, s).
Fixpoint close_connectors (cs : list (Z * connector)) : M gpio unit :=
  match cs with [] => mret tt | (k, c) :: cs => close_connector k c;; close_connectors cs end.
Definition close : M gpio unit := fun s =>
  if isopen s then (close_connectors (connector_ s);; on_driver g_close;; modify (set_isopen false)) s else (Ok tt, s).

(** [setNumbering]: the GPIO pins of the connectors by their numbers. *)
Fixpoint number_pins (nb : numbering) (ps : list (Z * nat)) (h : heap) (m : list (Z * nat)) : outcome (list (Z * nat)) :=
  match ps with
  | [] => Ok m
  | (_, l) :: ps =>
      match pins h !! l with
      | None => Throw UB
      | Some p => if isGpio p then match number_of nb p with Ok n => number_pins nb ps h (put n l m) | Throw e => Throw e end
                  else number_pins nb ps h m
      end
  end.
Definition all_pins (s : gpio) : list (Z * nat) := connector_ s ≫= fun c => _pin c.2.
Definition numbering_eqb (a b : numbering) : bool :=
  match a, b with
  | NumberingLogical, NumberingLogical | NumberingMcu, NumberingMcu | NumberingSystem, NumberingSystem | NumberingUnknown, NumberingUnknown => true
  | _, _ => false
  end.
Definition setNumbering (nb : numbering) : M gpio unit := fun s =>
  if numbering_eqb nb (numbering_ s) then (Ok tt, s)
  else match number_pins nb (all_pins s) (heap_ s) [] with
       | Ok m => (Ok tt, set_view nb m s)
       | Throw e => (Throw e, set_view (numbering_ s) [] s)
       end.
(** [pin (int)] and [pin (long long)] *)
Definition pin_at (n : Z) (s : gpio) : outcome nat := at_ n (pin_ s).
Definition pin_by_id (id : Z) (s : gpio) : option nat :=
  (fun x => x.2.2) <$> list_find (fun x : Z * nat => pin_id <$> desc_of x.2 (heap_ s) = Some id) (pin_ s).
Definition new_gpio (layer : Z) (ds : list cdesc) (h : heap) : outcome unit * gpio :=
  let '(cs, h) := foldl (fun '(cs, h) d => let '(c, h) := new_connector d h in (put (d_number d) c cs, h)) ([], h) ds in
  setNumbering NumberingLogical
    (mk_gpio true false (if layer =? AccessLayerAuto then preferedAccessLayer else layer) NumberingUnknown [] cs h).

(** ** Numbers *)

(** Rows and columns number the pins of a header from one on, without gaps. *)
Lemma header2X_bijective rows columns n : 0 < columns -> 1 <= n <= rows * columns <->
  exists row column, 1 <= row <= rows /\ 1 <= column <= columns /\ pinNumber Header2X columns row column = n.
Proof.
  intros Hc. unfold pinNumber, header2XNumFunc. split.
  - intros Hn. exists ((n - 1) / columns + 1), ((n - 1) mod columns + 1). pose proof (Z.mod_pos_bound (n - 1) columns Hc).
    pose proof (Z.div_mod (n - 1) columns ltac:(lia)). split; [|lia]. split; [|nia]. pose proof (Z.div_pos (n - 1) columns). lia.
  - intros (r & c & Hr & Hcc & <-). nia.
Qed.
Lemma header2X_injective columns r1 c1 r2 c2 : 1 <= c1 <= columns -> 1 <= c2 <= columns ->
  pinNumber Header2X columns r1 c1 = pinNumber Header2X columns r2 c2 -> r1 = r2 /\ c1 = c2.
Proof. unfold pinNumber, header2XNumFunc. intros. assert (r1 = r2) by nia. subst. lia. Qed.

(** The pins of the connectors that are GPIO pins, with their numbers. *)
Definition numbered (nb : numbering) (h : heap) (ps : list (Z * nat)) : list (Z * nat) :=
  omap (fun x => p ← pins h !! x.2; if isGpio p then match number_of nb p with Ok n => Some (n, x.2) | Throw _ => None end else None) ps.
Definition valid (h : heap) (ps : list (Z * nat)) : Prop := Forall (fun x => is_Some (pins h !! x.2)) ps.
Lemma number_of_known nb (p : pin W) : nb <> NumberingUnknown -> exists n, number_of nb p = Ok n.
Proof. destruct nb; [by eexists..|done]. Qed.
Lemma number_pins_spec nb ps h m : nb <> NumberingUnknown -> valid h ps ->
  number_pins nb ps h m = Ok (foldl (fun m x => put x.1 x.2 m) m (numbered nb h ps)).
Proof.
  intros Hnb Hv. revert m. induction Hv as [|[k l] ps [p Hp] _ IH]; intros m; [done|]. cbn in *. rewrite Hp. cbn.
  destruct (isGpio p); [|apply IH]. destruct (number_of_known nb p Hnb) as [n ->]. cbn. apply IH.
Qed.
(** In the map made of a list with distinct keys every element is found, and nothing else. *)
Lemma put_all_get (l : list (Z * nat)) : NoDup l.*1 -> forall m n x, (forall k y, (k, y) ∈ l -> get k m = None) ->
  get n (foldl (fun m x => put x.1 x.2 m) m l) = Some x <-> (n, x) ∈ l \/ get n m = Some x.
Proof.
  induction l as [|[k y] l IH]; intros Hd m n x Hm; cbn; [split; [by right|by intros [?%elem_of_nil|]]|].
  apply NoDup_cons in Hd as [Hk Hd]. rewrite IH; [|done|].
  - rewrite get_put, elem_of_cons. destruct (Z.eqb_spec n k) as [->|Hne].
    + rewrite (Hm k y) by (by left). split; [intros [Hin|[= ->]]; [by left; right|by left; left]|].
      intros [[[= ->]|Hin]|[=]]; [by right|by left].
    + split; [intros [?|?]; [by left; right|by right]|]. intros [[[= ? ?]|?]|?]; [done|by left|by right].
  - intros j z Hin. rewrite get_put. destruct (Z.eqb_spec j k) as [->|]; [|apply (Hm j z); by right].
    exfalso. apply Hk. apply list_elem_of_fmap. by exists (k, z).
Qed.
Lemma put_all_length (l : list (Z * nat)) : NoDup l.*1 -> forall m, (forall k y, (k, y) ∈ l -> get k m = None) ->
  length (foldl (fun m x => put x.1 x.2 m) m l) = (length l + length m)%nat.
Proof.
  induction l as [|[k y] l IH]; intros Hd m Hm; cbn; [done|]. apply NoDup_cons in Hd as [Hk Hd].
  rewrite IH; [|done|]; [rewrite put_length by (apply (Hm k y); by left); lia|].
  intros j z Hin. rewrite get_put. destruct (Z.eqb_spec j k) as [->|]; [|apply (Hm j z); by right].
  exfalso. apply Hk. apply list_elem_of_fmap. by exists (k, z).
Qed.
Lemma put_all_sorted (l m : list (Z * nat)) : sorted m -> sorted (foldl (fun m x => put x.1 x.2 m) m l).
Proof. revert m. induction l as [|x l IH]; intros m Hm; [done|]. apply IH. by apply sorted_put. Qed.

(** C16: choosing a numbering gives a view of the pins that is exact: when the numbers of the GPIO pins
    differ, the pin found under a number is the GPIO pin of some connector that has this number, every
    such pin is found under its number, as many as there are, and no pin object is touched. *)
Theorem gpio_numbering_exact nb s : nb <> NumberingUnknown -> nb <> numbering_ s -> valid (heap_ s) (all_pins s) ->
  NoDup (numbered nb (heap_ s) (all_pins s)).*1 ->
  exists s', setNumbering nb s = (Ok tt, s') /\ heap_ s' = heap_ s /\ numbering_ s' = nb /\ sorted (pin_ s') /\
    length (pin_ s') = length (numbered nb (heap_ s) (all_pins s)) /\
    forall n l, pin_at n s' = Ok l <-> exists k p, (k, l) ∈ all_pins s /\ pins (heap_ s) !! l = Some p /\ isGpio p = true /\ number_of nb p = Ok n.
Proof.
  intros Hnb Hne Hv Hd. unfold setNumbering. replace (numbering_eqb nb (numbering_ s)) with false by (by destruct nb, (numbering_ s)).
  rewrite number_pins_spec by done. eexists. split; [done|]. cbn. split; [done|]. split; [done|].
  split; [apply put_all_sorted; constructor|]. split; [rewrite put_all_length by done; cbn; lia|]. intros n l.
  unfold pin_at, at_. cbn. transitivity ((n, l) ∈ numbered nb (heap_ s) (all_pins s)).
  - pose proof (put_all_get _ Hd [] n l ltac:(done)) as Hget. cbn in Hget. match goal with |- context [get n ?m] => destruct (get n m) end; naive_solver.
  - unfold numbered. rewrite list_elem_of_omap. split.
    + intros ([k l'] & Hin & Hx). cbn in Hx. destruct (pins (heap_ s) !! l') as [p|] eqn:Ep; [|done]. cbn in Hx.
      destruct (isGpio p) eqn:Eg; [|done]. destruct (number_of nb p) eqn:En; simplify_eq. by exists k, p.
    + intros (k & p & Hin & Hp & Hg & Hn). exists (k, l). split; [done|]. cbn. by rewrite Hp; cbn; rewrite Hg, Hn.
Qed.

(** ** Opening and closing *)
Definition pin_open (l : nat) (h : heap) : Prop := exists p, pins h !! l = Some p /\ GpioPin.isopen p = true.
Definition pin_closed (l : nat) (h : heap) : Prop := exists p, pins h !! l = Some p /\ GpioPin.isopen p = false.
(** A call on a pin changes that pin only. *)
Lemma on_pin_eq {A} l (m : PinDevice W -> M (pin W) A) h o h' : on_pin l m h = (o, h') -> o <> Throw UB \/ is_Some (pins h !! l) ->
  forall l', l' <> l -> pins h' !! l' = pins h !! l'.
Proof.
  unfold on_pin. destruct (pins h !! l) as [p|]; [|intros [= <- <-]; done].
  destruct (m _ _) as [o' p']. intros [= <- <-] _ l' Hne. cbn. by rewrite list_lookup_insert_ne.
Qed.
Lemma on_pin_at {A} l (m : PinDevice W -> M (pin W) A) h a h' : on_pin l m h = (Ok a, h') ->
  exists p p', m (PD l) p = (Ok a, p') /\ pins h' !! l = Some p' /\ forall l', l' <> l -> pins h' !! l' = pins h !! l'.
Proof.
  unfold on_pin. destruct (pins h !! l) as [p|] eqn:Ep; [|done]. destruct (m _ _) as [o' p'] eqn:Em. intros [= -> <-].
  eexists _, p'. split; [exact Em|]. cbn. split; [apply list_lookup_insert_eq; by eapply lookup_lt_Some|].
  intros l' Hne. by rewrite list_lookup_insert_ne.
Qed.
Lemma open_answers {D : PinDevice W} (p p' : pin W) b : GpioPin.open p = (Ok b, p') -> GpioPin.isopen p' = b.
Proof. unfold GpioPin.open, mbind, M_bind, gets. destruct (ask _ _ _ _) as [[?|?] ?]; [by intros [= <- <-]|done]. Qed.
Lemma close_closes {D : PinDevice W} rc (p p' : pin W) : GpioPin.close rc p = (Ok tt, p') -> GpioPin.isopen p' = false.
Proof.
  unfold GpioPin.close. unfold ask at 1. destruct (GpioPin.isopen p) eqn:E; [|by intros [= <-]].
  unfold mbind, M_bind. destruct (ask _ _ _ _) as [[?|?] ?]; [by intros [= <-]|done].
Qed.
Lemma open_pins_all ps : forall h h', open_pins ps h = (Ok true, h') ->
  (forall k l, (k, l) ∈ ps -> pin_open l h') /\ (forall l, pin_open l h -> pin_open l h').
Proof.
  induction ps as [|[k l] ps IH]; intros h h'; cbn; [intros [= <-]; split; [by intros ? ? ?%elem_of_nil|done]|].
  unfold mbind at 1, M_bind at 1. destruct (on_pin _ _ h) as [[b|e] h1] eqn:E; [|done]. destruct b; [|done]. intros Hr.
  destruct (IH h1 h' Hr) as [Hall Hmono]. apply on_pin_at in E as (p & p' & Ho & Hp' & Hne). apply open_answers in Ho.
  assert (H1 : pin_open l h1) by (by exists p'). split.
  - intros k' l' [[= -> ->]|Hin]%elem_of_cons; [by apply Hmono|by eapply Hall].
  - intros l' [q [Hq Hqo]]. apply Hmono. destruct (decide (l' = l)) as [->|Hd]; [done|]. exists q. by rewrite Hne.
Qed.
Lemma close_pins_all rc ps : forall h h', close_pins rc ps h = (Ok tt, h') ->
  (forall k l, (k, l) ∈ ps -> pin_closed l h') /\ (forall l, pin_closed l h -> pin_closed l h').
Proof.
  induction ps as [|[k l] ps IH]; intros h h'; cbn; [intros [= <-]; split; [by intros ? ? ?%elem_of_nil|done]|].
  unfold mbind at 1, M_bind at 1. destruct (on_pin _ _ h) as [[[]|e] h1] eqn:E; [|done]. intros Hr.
  destruct (IH h1 h' Hr) as [Hall Hmono]. apply on_pin_at in E as (p & p' & Ho & Hp' & Hne). apply close_closes in Ho.
  assert (H1 : pin_closed l h1) by (by exists p'). split.
  - intros k' l' [[= -> ->]|Hin]%elem_of_cons; [by apply Hmono|by eapply Hall].
  - intros l' [q [Hq Hqo]]. apply Hmono. destruct (decide (l' = l)) as [->|Hd]; [done|]. exists q. by rewrite Hne.
Qed.

Definition flag_all (b : bool) (cs : list (Z * connector)) : list (Z * connector) := prod_map id (set_copen b) <$> cs.
Lemma flag_pins b cs : (flag_all b cs ≫= fun c => _pin c.2) = cs ≫= fun c => _pin c.2.
Proof. unfold flag_all. induction cs as [|c cs IH]; [done|]. cbn. by rewrite IH. Qed.
Lemma open_connectors_all cs : forall pre s s', connector_ s = pre ++ cs -> sorted (connector_ s) -> Forall (fun c => _isopen c.2 = false) cs ->
  open_connectors cs s = (Ok true, s') ->
  connector_ s' = pre ++ flag_all true cs /\ (forall k l, (k, l) ∈ (cs ≫= fun c => _pin c.2) -> pin_open l (heap_ s')) /\
  (forall l, pin_open l (heap_ s) -> pin_open l (heap_ s')) /\ roc s' = roc s.
Proof.
  induction cs as [|[k c] cs IH]; intros pre s s' Hc Hs Hf.
  { intros [= <-]. split; [done|]. split; [by intros ? ? ?%elem_of_nil|done]. }
  apply Forall_cons in Hf as [Hfc Hf]. cbn in Hfc. cbn [open_connectors]. unfold mbind at 1, M_bind at 1. unfold open_connector. rewrite Hfc.
  unfold mbind at 1, M_bind at 1. unfold on_heap, zoom. destruct (open_pins (_pin c) (heap_ s)) as [[b|e] h1] eqn:Eo; [|done]. destruct b; [|done].
  cbn. rewrite Hc in Hs. intros Hr. apply open_pins_all in Eo as [Hall Hmono].
  apply (IH (pre ++ [(k, set_copen true c)])) in Hr as (Hc' & Hall' & Hmono' & Hroc); cbn in *; [| | |done].
  - rewrite <- app_assoc in Hc'. split; [exact Hc'|]. split; [|split; [|done]].
    + intros j l [Hin|Hin]%elem_of_app; [apply Hmono'; by eapply Hall|by eapply Hall'].
    + intros l Hl. by apply Hmono', Hmono.
  - rewrite Hc, put_replace by done. by rewrite <- app_assoc.
  - rewrite Hc. by apply sorted_put.
Qed.
Lemma close_connectors_all cs : forall pre s s', connector_ s = pre ++ cs -> sorted (connector_ s) -> Forall (fun c => _isopen c.2 = true) cs ->
  close_connectors cs s = (Ok tt, s') ->
  connector_ s' = pre ++ flag_all false cs /\ (forall k l, (k, l) ∈ (cs ≫= fun c => _pin c.2) -> pin_closed l (heap_ s')) /\
  (forall l, pin_closed l (heap_ s) -> pin_closed l (heap_ s')).
Proof.
  induction cs as [|[k c] cs IH]; intros pre s s' Hc Hs Hf.
  { intros [= <-]. split; [done|]. split; [by intros ? ? ?%elem_of_nil|done]. }
  apply Forall_cons in Hf as [Hfc Hf]. cbn in Hfc. cbn [close_connectors]. unfold mbind at 1, M_bind at 1. unfold close_connector. rewrite Hfc.
  unfold mbind at 1, M_bind at 1. unfold on_heap, zoom. destruct (close_pins (roc s) (_pin c) (heap_ s)) as [[[]|e] h1] eqn:Eo; [|done].
  cbn. rewrite Hc in Hs. intros Hr. apply close_pins_all in Eo as [Hall Hmono].
  apply (IH (pre ++ [(k, set_copen false c)])) in Hr as (Hc' & Hall' & Hmono'); cbn in *; [| | |done].
  - rewrite <- app_assoc in Hc'. split; [exact Hc'|]. split.
    + intros j l [Hin|Hin]%elem_of_app; [apply Hmono'; by eapply Hall|by eapply Hall'].
    + intros l Hl. by apply Hmono', Hmono.
  - rewrite Hc, put_replace by done. by rewrite <- app_assoc.
  - rewrite Hc. by apply sorted_put.
Qed.

Lemma on_driver_frame {A} (m : M W A) s : connector_ (on_driver m s).2 = connector_ s /\ pins (heap_ (on_driver m s).2) = pins (heap_ s).
Proof. unfold on_driver, on_heap, zoom. cbn. by destruct (m _). Qed.
Lemma open_all s s1 : isopen s = false -> sorted (connector_ s) -> Forall (fun c => _isopen c.2 = false) (connector_ s) ->
  open s = (Ok true, s1) ->
  isopen s1 = true /\ connector_ s1 = flag_all true (connector_ s) /\ forall k l, (k, l) ∈ all_pins s -> pin_open l (heap_ s1).
Proof.
  intros Ho Hs Hf. unfold open. rewrite Ho. unfold mbind at 1, M_bind at 1.
  set (m := if test (accesslayer s) AccessLayerIoMap then on_driver g_open else mret true : M gpio bool).
  assert (Hm : connector_ (m s).2 = connector_ s) by (unfold m; destruct (test _ _); [apply on_driver_frame|done]).
  destruct (m s) as [[b|e] s0]; [|done]. destruct b; [|done]. cbn in Hm. cbn [negb]. unfold mbind at 1, M_bind at 1.
  destruct (open_connectors (connector_ s) s0) as [[b|e] s'] eqn:Eo; [|done]. destruct b; [|done]. intros [= <-].
  apply (open_connectors_all _ []) in Eo as (Hc & Hall & _ & _); [|done|by rewrite Hm|done]. done.
Qed.
Lemma close_all s s2 : isopen s = true -> sorted (connector_ s) -> Forall (fun c => _isopen c.2 = true) (connector_ s) ->
  close s = (Ok tt, s2) ->
  isopen s2 = false /\ connector_ s2 = flag_all false (connector_ s) /\ forall k l, (k, l) ∈ all_pins s -> pin_closed l (heap_ s2).
Proof.
  intros Ho Hs Hf. unfold close. rewrite Ho. unfold mbind at 1, M_bind at 1.
  destruct (close_connectors (connector_ s) s) as [[[]|e] s'] eqn:Ec; [|done]. unfold mbind at 1, M_bind at 1.
  destruct (on_driver g_close s') as [[[]|e] s3] eqn:Ed; [|done]. intros [= <-]. cbn.
  destruct (on_driver_frame g_close s') as [H1 H2]. rewrite Ed in H1, H2. cbn in H1, H2. rewrite H1.
  apply (close_connectors_all _ []) in Ec as (Hc & Hall & _); [|done..]. split; [done|]. split; [done|].
  intros k l Hin. destruct (Hall k l Hin) as (p & Hp & Hpc). exists p. by rewrite H2.
Qed.

(** opening a GPIO that is closed opens every pin of every connector when it answers true, and
    closing it then, when no pin refuses, closes every one of them; the flags of the connectors and
    of the GPIO say so, and the GPIO can be opened again. *)
Theorem gpio_open_close_all s s1 s2 : isopen s = false -> sorted (connector_ s) -> Forall (fun c => _isopen c.2 = false) (connector_ s) ->
  open s = (Ok true, s1) -> close s1 = (Ok tt, s2) ->
  (isopen s1 = true /\ connector_ s1 = flag_all true (connector_ s) /\ forall k l, (k, l) ∈ all_pins s -> pin_open l (heap_ s1)) /\
  (isopen s2 = false /\ connector_ s2 = connector_ s /\ forall k l, (k, l) ∈ all_pins s -> pin_closed l (heap_ s2)).
Proof.
  intros Ho Hs Hf Hopen Hclose. destruct (open_all s s1 Ho Hs Hf Hopen) as (Ho1 & Hc1 & Hp1).
  destruct (close_all s1 s2) as (Ho2 & Hc2 & Hp2); [done|rewrite Hc1; by apply sorted_map| |done|].
  { rewrite Hc1. unfold flag_all. rewrite Forall_fmap. by apply Forall_true. }
  split; [done|]. split; [done|]. split.
  - rewrite Hc2, Hc1. unfold flag_all. rewrite <- list_fmap_compose. rewrite <- (list_fmap_id (connector_ s)) at 2. apply Forall_fmap_ext_1.
    eapply Forall_impl; [done|]. intros [k [d b m]] Hb. cbn in *. by rewrite <- Hb.
  - intros k l Hin. apply (Hp2 k l). unfold all_pins in *. by rewrite Hc1, flag_pins.
Qed.

End Gpio.
End Connector.

(** ** Printing a connector as a table *)
Module Table.
Import Gpio2 GpioDev2 GpioPin PString OrdMap Connector ArduinoPrint.

Inductive Alignment : Type := Left | Right | Center.
Definition field : Type := (nat * bytes)%type.
Definition _field : list field :=
  [(5%nat, text "sOc"); (5%nat, text "iNo"); (10%nat, text "Name"); (6%nat, text "Mode"); (6%nat, text "Pull"); (3%nat, text "V"); (4%nat, text "Ph")].
(** [out.replace (pos, n, s)] *)
Definition replace_at (pos n : nat) (s out : bytes) : outcome bytes :=
  if (length out <? pos)%nat then Throw OutOfRange else Ok (take pos out ++ s ++ drop (pos + n) out).
(** The text is cut to measure the place it takes, but it is the whole text that is put there. *)
Definition format (s : bytes) (w : nat) (a : Alignment) : outcome bytes :=
  let out := replicate w 32 in
  let w := Nat.max w 3 in
  let n := Nat.min (length s) (w - 2) in
  let pos := match a with Left => 1 | Right => length out - n - 1 | Center => (length out - n) / 2 end%nat in
  replace_at pos n s out.

(** The columns that are shown. *)
Definition shown (pull : bool) (f : field) : bool := negb (bool_decide (f.2 = text "Pull")) || pull.
Definition fields (pull : bool) : list field := filter (fun f => shown pull f = true) _field.
Definition dashes (f : field) : bytes := replicate f.1 45 ++ text "+".
Definition printHline (pull : bool) (columns : Z) : bytes :=
  text "+" ++ (fields pull ≫= dashes) ++
  (if 1 <? columns then text "+" ++ (reverse (fields pull) ≫= dashes) else []) ++ [10].
(** Texts in their fields, each with a bar after it. *)
Fixpoint cells (a : Alignment) (l : list (field * bytes)) : outcome bytes :=
  match l with
  | [] => Ok []
  | (f, s) :: l => match format s f.1 a, cells a l with Ok x, Ok y => Ok (x ++ text "|" ++ y) | Throw e, _ | _, Throw e => Throw e end
  end.
Definition bar (x y : outcome bytes) : outcome bytes :=
  match x, y with Ok x, Ok y => Ok (text "|" ++ x ++ y ++ [10]) | Throw e, _ | _, Throw e => Throw e end.
Definition second (columns : Z) (x : outcome bytes) : outcome bytes :=
  if 1 <? columns then match x with Ok y => Ok (text "|" ++ y) | Throw e => Throw e end else Ok [].
Definition titles (pull : bool) : list (field * bytes) := (fun f => (f, f.2)) <$> fields pull.
Definition printTitle (pull : bool) (columns : Z) : outcome bytes :=
  match bar (cells Center (titles pull)) (second columns (cells Center (reverse (titles pull)))) with
  | Ok t => Ok (printHline pull columns ++ t ++ printHline pull columns)
  | Throw e => Throw e
  end.

(** The texts of a pin, and its half of a row. *)
Record texts : Type := mk_texts { t_soc : bytes; t_ino : bytes; t_name : bytes; t_mode : bytes; t_pull : bytes; t_value : bytes; t_ph : bytes }.
Definition listed (t : texts) : list bytes := [t_soc t; t_ino t; t_name t; t_mode t; t_pull t; t_value t; t_ph t].
Definition half (pull : bool) (t : texts) : list (field * bytes) :=
  filter (fun x => shown pull x.1 = true) (zip _field (listed t)).
Definition row_text (pull : bool) (columns : Z) (t1 t2 : texts) : outcome bytes :=
  bar (cells Right (half pull t1)) (second columns (cells Left (reverse (half pull t2)))).

Section Row.
Context {W : Type} {L : LineOs W} (PD : nat -> PinDevice W) (g_flags : Z).
Definition has_pull : bool := test g_flags GpioPin.hasPullRead.
Definition pull_name (p : pull) : bytes :=
  match p with PullOff => text "off" | PullDown => text "down" | PullUp => text "up" | PullUnknown => text "unk" end.
Definition modeName {D : PinDevice W} : M (pin W) bytes := fun p =>
  let '(o, p) := get_mode p in
  match o with
  | Throw e => (Throw e, p)
  | Ok m => match GpioPin.modes p with
            | Throw e => (Throw e, p)
            | Ok ms => match tab ms m with Some n => (Ok (text n), p) | None => (Throw OutOfRange, p) end
            end
  end.
Definition value_text {D : PinDevice W} : M (pin W) bytes :=
  m ← get_mode;
  if bool_decide (m = ModeDisabled) then mret []
  else m ← get_mode;
       m' ← (if bool_decide (m = ModeInput) then mret m else get_mode);
       if bool_decide (m = ModeInput) || bool_decide (m' = ModeOutput) || test g_flags GpioPin.hasAltRead
       then v ← GpioPin.read; mret (text (if v : bool then "1" else "0")) else mret [].
Definition pin_texts (ph : Z) {D : PinDevice W} : M (pin W) texts := fun p =>
  if isGpio p then
    (mode ← modeName;
     pull ← (if has_pull then x ← get_pull; mret (toUpperCase (pull_name x)) else mret []);
     value ← value_text;
     name ← GpioPin.name;
     mret (mk_texts (long_text (mcu (num (desc p)))) (long_text (logical (num (desc p)))) (text name) (toUpperCase mode) pull value (long_text ph))) p
  else (name ← GpioPin.name; mret (mk_texts [] [] (text name) [] [] [] (long_text ph))) p.
Definition answer {S A} (o : outcome A) : M S A := fun s => (o, s).
(** [printRow]: the pin of that number and, with two columns, the next one. *)
Definition texts_at (c : connector) (number : Z) : M heap texts :=
  match at_ number (_pin c) with
  | Throw e => throw e
  | Ok l => fun h => match desc_of l h with
                     | None => (Throw UB, h)
                     | Some d => on_pin PD l (fun D => pin_texts (place (_descriptor c) d)) h
                     end
  end.
Definition blank : texts := mk_texts [] [] [] [] [] [] [].
Definition printRow (c : connector) (number : Z) : M heap bytes :=
  t1 ← texts_at c number;
  t2 ← (if 1 <? columns c then texts_at c (number + 1) else mret blank);
  answer (row_text has_pull (columns c) t1 t2).
(** [operator<<]: the loop over the rows, and the table. *)
Fixpoint print_rows (fuel : nat) (c : connector) (i : Z) : M heap bytes :=
  if size c <? i then mret []
  else match fuel with
       | 0%nat => throw OutOfFuel
       | S fuel => r ← printRow c i; rs ← print_rows fuel c (i + columns c); mret (r ++ rs)
       end.
(** The number of pins is fuel enough when there is a column. *)
Lemma print_rows_enough c : 1 <= columns c -> forall fuel i k h, size c - i < Z.of_nat fuel ->
  print_rows (fuel + k) c i h = print_rows fuel c i h.
Proof.
  intros Hc fuel. induction fuel as [|fuel IH]; intros i k h Hf.
  - cbn [Nat.add]. destruct k; cbn [print_rows]; by rewrite (proj2 (Z.ltb_lt (size c) i)) by lia.
  - cbn [Nat.add print_rows]. destruct (size c <? i); [done|]. unfold mbind at 1 3, M_bind at 1 3.
    destruct (printRow c i h) as [[r|e] h1]; [|done]. unfold mbind, M_bind. rewrite IH by lia. done.
Qed.
Definition heading (c : connector) : bytes :=
  let s := d_name (_descriptor c) ++ text " (#" ++ long_text (d_number (_descriptor c)) ++ text ")" in
  let w := Z.to_nat ((Z.of_nat (sum_list (fst <$> fields has_pull) + length (fields has_pull))) * columns c) in
  let w := ((w + length s) / 2 + 1)%nat in
  replicate (w - length s) 32 ++ toUpperCase s ++ [10].
Definition print_connector (c : connector) : M heap bytes :=
  if 2 <? columns c then throw OutOfRange
  else rows ← print_rows (Z.to_nat (size c)) c 1;
       answer (match printTitle has_pull (columns c) with
               | Throw e => Throw e
               | Ok t => Ok (heading c ++ t ++ rows ++ (if 6 <? d_rows (_descriptor c) then t else printHline has_pull (columns c)))
               end).
End Row.

(** ** The columns line up *)
Lemma format_spec s w a : (3 <= w)%nat -> exists x, format s w a = Ok x /\ length x = (w + (length s - (w - 2)))%nat.
Proof.
  intros Hw. unfold format, replace_at. rewrite length_replicate, (Nat.max_l w 3) by lia. set (n := Nat.min (length s) (w - 2)).
  set (pos := match a with Left => _ | Right => _ | Center => _ end).
  assert (Hp : (pos + n <= w)%nat).
  { subst pos n. pose proof (Nat.Div0.div_le_mono (w - Nat.min (length s) (w - 2)) (2 * (w - Nat.min (length s) (w - 2))) 2 ltac:(lia)).
    rewrite (Nat.mul_comm 2), Nat.div_mul in H by lia. destruct a; lia. }
  rewrite (proj2 (Nat.ltb_ge w pos)) by lia. eexists. split; [done|]. rewrite !length_app, length_take, length_drop, length_replicate. subst n. lia.
Qed.
(** Every corner of the line is over a bar of the row. *)
Definition under : bytes -> bytes -> Prop := Forall2 (fun a b => a = 43 -> b = 124).
Lemma under_dashes f x : length x = f.1 -> under (dashes f) (x ++ text "|").
Proof.
  intros Hx. unfold dashes. apply Forall2_app; [|by repeat constructor]. rewrite <- Hx. clear. induction x as [|c x IH]; cbn; by constructor.
Qed.
Definition fits (l : list (field * bytes)) : Prop := Forall (fun x => (3 <= x.1.1)%nat /\ (length x.2 <= x.1.1 - 2)%nat) l.
Lemma cells_under a l : fits l -> exists x, cells a l = Ok x /\ under (l.*1 ≫= dashes) x.
Proof.
  induction 1 as [|[f s] l [Hw Hs] _ (y & Hy & Hu)]; [exists []; by repeat constructor|]. cbn in *.
  destruct (format_spec s f.1 a Hw) as (x & -> & Hx). rewrite Hy. exists ((x ++ text "|") ++ y). split; [by rewrite <- (assoc_L (++))|].
  apply Forall2_app; [apply under_dashes; lia|done].
Qed.
Lemma fits_reverse l : fits l -> fits (reverse l).
Proof. unfold fits. by rewrite Forall_reverse. Qed.
(** Two halves of a row under a line. *)
Lemma bar_under columns pull a b l1 l2 : l1.*1 = fields pull -> l2.*1 = reverse (fields pull) -> fits l1 -> fits l2 ->
  exists x, bar (cells a l1) (second columns (cells b l2)) = Ok x /\ under (printHline pull columns) x.
Proof.
  intros H1 H2 F1 F2. destruct (cells_under a l1 F1) as (x & -> & Hx). destruct (cells_under b l2 F2) as (y & -> & Hy).
  rewrite H1 in Hx. rewrite H2 in Hy. unfold printHline, second. destruct (1 <? columns); cbn [bar]; (eexists; split; [done|]).
  - constructor; [done|]. apply Forall2_app; [done|]. constructor; [done|]. apply Forall2_app; [done|]. by repeat constructor.
  - constructor; [done|]. apply Forall2_app; [done|]. by repeat constructor.
Qed.

(** a printed connector is a table: whatever the texts of the pins are, as long as each fits the
    width of its column, every row and the line of titles have a bar under each corner of the
    horizontal lines, and all lines have the same length. *)
Theorem table_aligned pull columns t1 t2 : Forall2 (fun f s => (length s <= f.1 - 2)%nat) _field (listed t1) ->
  Forall2 (fun f s => (length s <= f.1 - 2)%nat) _field (listed t2) ->
  exists row title, row_text pull columns t1 t2 = Ok row /\ under (printHline pull columns) row /\
    bar (cells Center (titles pull)) (second columns (cells Center (reverse (titles pull)))) = Ok title /\ under (printHline pull columns) title.
Proof.
  assert (Hhalf : forall t, Forall2 (fun f s => (length s <= f.1 - 2)%nat) _field (listed t) -> (half pull t).*1 = fields pull /\ fits (half pull t)).
  { intros t Ht. split; [by destruct pull|]. unfold fits, half. apply Forall_forall. intros x [_ Hx]%list_elem_of_filter. revert x Hx.
    apply Forall_forall. unfold _field in *. cbn in Ht |- *. repeat (apply Forall2_cons in Ht as [? Ht]).
    rewrite !Forall_cons. cbn in *. split_and!; try lia. apply Forall_nil_2. }
  intros H1 H2. destruct (Hhalf t1 H1) as [E1 F1]. destruct (Hhalf t2 H2) as [E2 F2].
  destruct (bar_under columns pull Right Left (half pull t1) (reverse (half pull t2)) E1) as (row & Hrow & Hu);
    [by rewrite fmap_reverse, E2|done|by apply fits_reverse|].
  destruct (bar_under columns pull Center Center (titles pull) (reverse (titles pull))) as (title & Htitle & Hu');
    [by destruct pull|by destruct pull|by destruct pull; repeat constructor; cbn; lia| |].
  { apply fits_reverse. destruct pull; repeat constructor; cbn; lia. }
  by exists row, title.
Qed.
(** A text that is too long is not cut: it pushes the rest of its row to the right. *)
Lemma long_text_misaligns s w a : (3 <= w)%nat -> (w - 2 < length s)%nat -> exists x, format s w a = Ok x /\ (w < length x)%nat.
Proof. intros Hw Hs. destruct (format_spec s w a Hw) as (x & Hx & Hl). exists x. split; [done|lia]. Qed.
End Table.

(** A header of two rows on a BCM2711: a power pin, two GPIO pins and a ground pin. *)
Module ConnectorDemo.
Import Gpio2 GpioDev2 GpioPin PString OrdMap Connector.
Abbreviation world := PinBcm2711.Demo.world.
#[local] Existing Instances Bcm2835.Demo.device_regs Bcm2835.Demo.device_2711 GpioDev2.Demo.demo_lines PinBcm2711.beside.
Definition PD (l : nat) : PinDevice world := PinBcm2711.bcm_pin (Z.of_nat l + 2).
#[export] Instance driver : GpioDriver (W := world) := {| g_open := mret true; g_close := mret tt; g_flags := Bcm2835.flags true; preferedAccessLayer := 5 |}.
Definition power (n r c : Z) : descriptor := mk_descriptor TypePower (mk_number (-1) (-1) (-1) r c 0 0) n [(ModeInput, "5V")]%string.
Definition gpin (n logical r c : Z) : descriptor :=
  mk_descriptor TypeGpio (mk_number logical (n + 2) (n + 2) r c 0 (n + 2)) n [(ModeInput, "GPIO")]%string.
Definition header : cdesc := mk_cdesc (text "J8") 1 2 Header2X 2 [power 0 1 1; gpin 1 8 1 2; gpin 2 9 2 1; power 3 2 2].
Definition heap0 : heap (W := world) := mk_heap [] ∅ (Bcm2835.Demo.start, GpioDev2.Demo.kline0).
Definition board : gpio (W := world) := (new_gpio 0 [header] heap0).2.
Lemma board_numbers : pin_ board = [(8, 1%nat); (9, 2%nat)] /\ connector_ board = [(1, mk_connector header false [(1, 0%nat); (2, 1%nat); (3, 2%nat); (4, 3%nat)])].
Proof. split; vm_compute; reflexivity. Qed.

Definition opened : gpio := (open PD board).2.
Definition closed : gpio := (close PD opened).2.
Lemma gpio_numbering_exact_witness : exists s', setNumbering NumberingMcu board = (Ok tt, s') /\ heap_ s' = heap_ board /\ numbering_ s' = NumberingMcu /\
  sorted (pin_ s') /\ length (pin_ s') = length (numbered NumberingMcu (heap_ board) (all_pins board)) /\
  forall n l, pin_at n s' = Ok l <->
    exists k p, (k, l) ∈ all_pins board /\ pins (heap_ board) !! l = Some p /\ isGpio p = true /\ number_of NumberingMcu p = Ok n.
Proof.
  apply (gpio_numbering_exact PD NumberingMcu board); [discriminate|vm_compute; discriminate| |].
  - apply (bool_decide_unpack _). vm_compute. exact I.
  - apply (bool_decide_unpack _). vm_compute. exact I.
Defined.
Lemma pair_of {A B} (x : A * B) a : x.1 = a -> x = (a, x.2).
Proof. destruct x. cbn. by intros ->. Qed.
Lemma gpio_open_close_all_witness :
  (isopen opened = true /\ connector_ opened = flag_all true (connector_ board) /\ forall k l, (k, l) ∈ all_pins board -> pin_open l (heap_ opened)) /\
  (isopen closed = false /\ connector_ closed = connector_ board /\ forall k l, (k, l) ∈ all_pins board -> pin_closed l (heap_ closed)).
Proof.
  apply (gpio_open_close_all PD board opened closed); [vm_compute; reflexivity|vm_compute; repeat constructor|vm_compute; repeat constructor| |];
    [apply (pair_of (open PD board))|apply (pair_of (close PD opened))]; vm_compute; reflexivity.
Defined.
Definition texts1 : Table.texts := Table.mk_texts (text "105") (text "20") (text "GPIOL11") (text "OUT") (text "OFF") (text "0") (text "6").
Lemma table_aligned_witness : exists row title, Table.row_text true 1 texts1 Table.blank = Ok row /\ Table.under (Table.printHline true 1) row /\
  Table.bar (Table.cells Table.Center (Table.titles true)) (Table.second 1 (Table.cells Table.Center (reverse (Table.titles true)))) = Ok title /\
  Table.under (Table.printHline true 1) title.
Proof. apply (Table.table_aligned true 1 texts1 Table.blank); repeat constructor; vm_compute; lia. Defined.
(** A row of the example in include/piduino/gpioconnector.h. *)
Lemma documented_row : Table.row_text true 1 texts1 Table.blank = Ok (text "| 105 |  20 |  GPIOL11 |  OUT |  OFF | 0 |  6 |" ++ [10]).
Proof. vm_compute. reflexivity. Qed.

(** A pin whose character device cannot be opened: the GPIO is not open, its driver and its first pin are, and
    closing the GPIO leaves them so. *)
Definition broken : gpio :=
  let h := heap_ board in
  match pins h !! 2%nat with
  | Some p => set_heap (mk_heap (<[2%nat := GpioPin.set_gpiodev (Some (dev (construct "/dev/none" 4 new_chip (hw_ h)))) p]> (pins h)) (chips h) (hw_ h)) board
  | None => board
  end.
Lemma failed_open_leaves_pins : let s := (open PD broken).2 in
  (open PD broken).1 = Ok false /\ isopen s = false /\ GpioPin.isopen <$> pins (heap_ s) !! 1%nat = Some true /\ close PD s = (Ok tt, s).
Proof.
  cbv zeta. assert (Hc : isopen (open PD broken).2 = false) by (vm_compute; reflexivity).
  split; [vm_compute; reflexivity|]. split; [exact Hc|]. split; [vm_compute; reflexivity|]. unfold close. by rewrite Hc.
Qed.
End ConnectorDemo.
