(* ===== verification/ArduinoCore.v ===== *)
(** * The Arduino functions, src/arduino/Core.cpp, WMath.cpp, i2c/Wire.cpp and compat/strlcat_strlcpy.c

    The functions of a sketch over the classes of the library: pins by number
    over the GPIO of Connector.v, analog output over the software PWM of
    GpioPwm.v, register reads over the I2C master of I2cDev.v; the arithmetic of
    WMath.cpp with the overflow of a [long] as undefined behaviour, and the
    bounded copies of C strings over buffers that cannot be left. *)
From Stdlib Require Import Ascii.
From S2P Require Import Prelude IoDevice Fifo I2cDev Text Mmio GpioBcm2835 Gpio2 GpioPin PinBcm2711 Connector SocPwm GpioPwm.
Import Flags Pin.

(** ** WMath.cpp *)
Module WMath.
Section Math.
(** The width of a [long], and the next answer of the generator of the C library. *)
Context (LONG : Z) (rnd : Z).
Definition long_ok (n : Z) : bool := (- 2 ^ (LONG - 1) <=? n) && (n <? 2 ^ (LONG - 1)).
Definition long (n : Z) : outcome Z := if long_ok n then Ok n else Throw UB.
(** A remainder or a quotient by zero is undefined, as is a quotient that does not fit. *)
Definition random1 (howbig : Z) : outcome Z := if howbig =? 0 then Ok 0 else Ok (Z.rem rnd howbig).
Definition random2 (howsmall howbig : Z) : outcome Z :=
  if howbig <=? howsmall then Ok howsmall
  else match long (howbig - howsmall) with
       | Throw e => Throw e
       | Ok diff => match random1 diff with Ok r => long (r + howsmall) | Throw e => Throw e end
       end.
Definition bind {A B} (o : outcome A) (f : A -> outcome B) : outcome B := match o with Ok a => f a | Throw e => Throw e end.
Definition map (x in_min in_max out_min out_max : Z) : outcome Z :=
  bind (long (x - in_min)) (fun a => bind (long (out_max - out_min)) (fun b => bind (long (a * b)) (fun c =>
  bind (long (in_max - in_min)) (fun d => if d =? 0 then Throw UB else bind (long (Z.quot c d)) (fun q => long (q + out_min)))))).
Definition makeWord (h l : Z) : Z := Z.lor (Z.shiftl (u8 h) 8) (u8 l).
End Math.

(** A random number between two bounds is between them, the upper one excluded, when their difference fits. *)
Lemma random2_range LONG rnd a b : 0 <= rnd -> long_ok LONG a = true -> long_ok LONG b = true -> a < b -> long_ok LONG (b - a) = true ->
  exists r, random2 LONG rnd a b = Ok r /\ a <= r < b.
Proof.
  intros Hr Ha Hb Hab Hd. unfold random2, long, random1. rewrite (proj2 (Z.leb_gt b a)) by lia. rewrite Hd.
  rewrite (proj2 (Z.eqb_neq (b - a) 0)) by lia. pose proof (Z.rem_bound_pos rnd (b - a) Hr ltac:(lia)). unfold long_ok in *.
  assert (((- 2 ^ (LONG - 1) <=? Z.rem rnd (b - a) + a) && (Z.rem rnd (b - a) + a <? 2 ^ (LONG - 1))) = true) as -> by lia.
  eexists. split; [done|lia].
Qed.
(** [map] on a range that is not empty and without overflow: the ends go to the ends, the order is
    kept, and what is inside stays inside. *)
Lemma map_value LONG x a b c d : long_ok LONG (x - a) = true -> long_ok LONG (d - c) = true -> long_ok LONG ((x - a) * (d - c)) = true ->
  long_ok LONG (b - a) = true -> a < b -> c <= d -> a <= x <= b -> long_ok LONG c = true -> long_ok LONG d = true ->
  map LONG x a b c d = Ok ((x - a) * (d - c) / (b - a) + c) /\ c <= (x - a) * (d - c) / (b - a) + c <= d.
Proof.
  intros H1 H2 H3 H4 Hab Hcd Hx Hc Hd. assert (0 <= (x - a) * (d - c) / (b - a) <= d - c).
  { split; [apply Z.div_pos; nia|]. apply Z.div_le_upper_bound; nia. }
  unfold map, long. rewrite H1, H2. cbn [bind]. rewrite H3, H4. cbn [bind]. rewrite (proj2 (Z.eqb_neq (b - a) 0)) by lia.
  rewrite Z.quot_div_nonneg by nia. unfold long_ok in *. set (q := (x - a) * (d - c) / (b - a)) in *.
  assert (((- 2 ^ (LONG - 1) <=? q) && (q <? 2 ^ (LONG - 1))) = true) as -> by lia. cbn [bind].
  assert (((- 2 ^ (LONG - 1) <=? q + c) && (q + c <? 2 ^ (LONG - 1))) = true) as -> by lia. split; [done|lia].
Qed.
Lemma map_inv LONG x a b c d r : map LONG x a b c d = Ok r -> b <> a /\ r = Z.quot ((x - a) * (d - c)) (b - a) + c.
Proof.
  unfold map, long. repeat (case_match; cbn [bind]; try done). intros [= <-]. split; [|done].
  match goal with H : (b - a =? 0) = false |- _ => apply Z.eqb_neq in H; lia end.
Qed.
Lemma map_ends LONG a b c d r s : map LONG a a b c d = Ok r -> map LONG b a b c d = Ok s -> r = c /\ s = d.
Proof.
  intros [Hn ->]%map_inv [_ ->]%map_inv. rewrite Z.sub_diag, Z.mul_0_l, Z.quot_0_l by lia. split; [lia|].
  rewrite Z.mul_comm, Z.quot_mul by lia. lia.
Qed.
Lemma map_monotone LONG x y a b c d r s : a < b -> c <= d -> x <= y -> map LONG x a b c d = Ok r -> map LONG y a b c d = Ok s -> r <= s.
Proof.
  intros Hab Hcd Hxy [_ ->]%map_inv [_ ->]%map_inv. assert (Z.quot ((x - a) * (d - c)) (b - a) <= Z.quot ((y - a) * (d - c)) (b - a)); [|lia].
  apply Z.quot_le_mono; nia.
Qed.
End WMath.

(** ** Wire.cpp *)
Module Wire.
Import I2cDev.
Section Wire.
Context {K : Kernel}.
Definition BUFFER_LENGTH : Z := 32.
(** The bytes of the internal address, the most significant one first. *)
Fixpoint write_iaddress (isize : nat) (iaddress : Z) : M world unit :=
  match isize with
  | 0%nat => mret tt
  | S isize => write (u8 (Z.shiftr iaddress (Z.of_nat isize * 8)));; write_iaddress isize iaddress
  end.
Definition send_iaddress (address iaddress isize : Z) : M world unit :=
  if 0 <? isize then
    beginTransmission address;;
    write_iaddress (Z.to_nat (if 3 <? isize then 3 else isize)) iaddress;;
    (endTransmission false;; mret tt)
  else mret tt.
Definition requestFrom (address quantity iaddress isize sendStop : Z) : M world Z :=
  send_iaddress address iaddress isize;;
  I2cDev.requestFrom address (if BUFFER_LENGTH <? quantity then BUFFER_LENGTH else quantity) (negb (sendStop =? 0)).

Fixpoint iaddress_bytes (n : nat) (a : Z) : list Z :=
  match n with 0%nat => [] | S n => u8 (Z.shiftr a (Z.of_nat n * 8)) :: iaddress_bytes n a end.
Lemma iaddress_length n a : length (iaddress_bytes n a) = n.
Proof. induction n; cbn; congruence. Qed.
(** The bytes are those of the number in base 256. *)
Lemma iaddress_value n a : 0 <= a -> foldl (fun v b => v * 256 + b) 0 (iaddress_bytes n a) = a mod 2 ^ (8 * Z.of_nat n).
Proof.
  intros Ha. assert (H : forall v, foldl (fun v b => v * 256 + b) v (iaddress_bytes n a) = v * 2 ^ (8 * Z.of_nat n) + a mod 2 ^ (8 * Z.of_nat n)).
  { induction n as [|n IH]; intros v; cbn [iaddress_bytes foldl]; [rewrite Z.mod_1_r; lia|]. rewrite IH.
    replace (8 * Z.of_nat (S n)) with (8 * Z.of_nat n + 8) by lia. rewrite Z.pow_add_r by lia. change (2 ^ 8) with 256.
    rewrite Z.rem_mul_r by lia. unfold u8. rewrite Z.shiftr_div_pow2 by lia. replace (Z.of_nat n * 8) with (8 * Z.of_nat n) by lia.
    change (2 ^ 8) with 256. ring. }
  rewrite H. lia.
Qed.
End Wire.

Lemma write_iaddress_writing {K : Kernel} slave a n : forall w bs, writing w slave bs -> Z.of_nat (length bs + n) < I2C_BLOCK_MAX ->
  exists w', write_iaddress n a w = (Ok tt, w') /\ writing w' slave (bs ++ iaddress_bytes n a) /\ same_env w w'.
Proof.
  induction n as [|n IH]; intros w bs Hw Hl; [exists w; cbn; rewrite app_nil_r; split; [done|]; split; [done|]; by repeat split|].
  destruct (write_writing w slave bs (u8 (Z.shiftr a (Z.of_nat n * 8))) Hw) as (w1 & H1 & Hw1 & He1); [lia|].
  destruct (IH w1 _ Hw1) as (w2 & H2 & Hw2 & He2); [rewrite length_app; cbn; lia|].
  exists w2. cbn. rewrite (M_bind_ok _ _ _ _ _ _ _ _ H1). rewrite <- app_assoc in Hw2. split; [done|]. split; [done|]. eauto using same_env_trans.
Qed.

(** reading a register through the Arduino class is one transfer: the internal address, of at most
    three bytes with the most significant one first, and the read that follows it without a stop in
    between; it answers the number of bytes asked for, and the bytes then read are those the slave sent. *)
Theorem wire_register_read {K : Kernel} {KOK : KernelOk K} (w : world) (slave q a isize : Z) :
  queued w None -> 1 <= isize -> 0 <= q < I2C_BLOCK_MAX ->
  let n := Z.to_nat (Z.min isize 3) in
  forall data k', k_rdwr [KWrite slave (iaddress_bytes n a); KRead slave q] (kernel w) = (inr [data], k') ->
  exists w', (c ← requestFrom slave q a isize 1; d ← read_buf q; mret (c, d)) w = (Ok (q, data), w') /\ queued w' None /\ kernel w' = k'.
Proof.
  intros Hr Hi Hq n data k' Hk. destruct (begin_ready w slave Hr) as (w1 & H1 & Hw1 & He1).
  destruct (write_iaddress_writing slave a n w1 [] Hw1) as (w2 & H2 & Hw2 & He2); [subst n; unfold I2C_BLOCK_MAX; cbn; lia|].
  destruct (end_nostop w2 slave _ Hw2) as (w3 & H3 & Hq3 & He3).
  replace (kernel w) with (kernel w3) in Hk by (destruct He1 as [<- _], He2 as [<- _], He3 as [<- _]; done).
  destruct (request_read w3 (Some (slave, iaddress_bytes n a)) slave q data k' Hq3 Hq Hk) as (w4 & w5 & H4 & _ & H5 & _ & Hr5 & Hk5 & _).
  assert (Hs : send_iaddress slave a isize w = (Ok tt, w3)).
  { unfold send_iaddress. rewrite (proj2 (Z.ltb_lt 0 isize)) by lia.
    replace (Z.to_nat (if 3 <? isize then 3 else isize)) with n by (subst n; destruct (Z.ltb_spec 3 isize); lia).
    rewrite (M_bind_ok _ _ _ _ _ _ _ _ H1), (M_bind_ok _ _ _ _ _ _ _ _ H2), (M_bind_ok _ _ _ _ _ _ _ _ H3). done. }
  assert (Hrq : requestFrom slave q a isize 1 w = (Ok q, w4)).
  { unfold requestFrom. rewrite (M_bind_ok _ _ _ _ _ _ _ _ Hs). unfold BUFFER_LENGTH, I2C_BLOCK_MAX in *. by rewrite (proj2 (Z.ltb_ge 32 q)) by lia. }
  exists w5. by rewrite (M_bind_ok _ _ _ _ _ _ _ _ Hrq), (M_bind_ok _ _ _ _ _ _ _ _ H5).
Qed.
Lemma wire_register_read_witness :
  exists w', (c ← requestFrom 80 2 0x1234 2 1; d ← read_buf 2; mret (c, d)) demo_world = (Ok (2, [165; 165]), w') /\ queued w' None /\
    kernel w' = [[KWrite 80 [0x12; 0x34]; KRead 80 2]].
Proof. apply (wire_register_read demo_world 80 2 0x1234 2); [exact demo_ready|lia|unfold I2C_BLOCK_MAX; lia|reflexivity]. Defined.
End Wire.

(** ** strlcat_strlcpy.c *)
Module Strlc.
Definition size_t (n : Z) : Z := n mod 2 ^ 64.
(** Reading or writing past the end of a buffer is undefined. *)
Fixpoint strlen (s : list Z) : outcome Z :=
  match s with
  | [] => Throw UB
  | c :: s => if c =? 0 then Ok 0 else match strlen s with Ok n => Ok (n + 1) | Throw e => Throw e end
  end.
Definition memcpy (pos : Z) (src dst : list Z) : outcome (list Z) :=
  if (Z.to_nat pos + length src <=? length dst)%nat
  then Ok (take (Z.to_nat pos) dst ++ src ++ drop (Z.to_nat pos + length src) dst) else Throw UB.
Definition strlcpy (dst src : list Z) (size : Z) : outcome (Z * list Z) :=
  let size := size_t (size - 1) in
  match strlen src with
  | Throw e => Throw e
  | Ok srclen =>
      let srclen := if size <? srclen then size else srclen in
      match memcpy 0 (take (Z.to_nat srclen) src) dst with
      | Throw e => Throw e
      | Ok dst => match memcpy srclen [0] dst with Ok dst => Ok (srclen, dst) | Throw e => Throw e end
      end
  end.
Definition strlcat (dst src : list Z) (size : Z) : outcome (Z * list Z) :=
  match strlen dst with
  | Throw e => Throw e
  | Ok dstlen =>
      let size := size_t (size - (dstlen + 1)) in
      if size =? 0 then Ok (dstlen, dst)
      else match strlen src with
           | Throw e => Throw e
           | Ok srclen =>
               let srclen := if size <? srclen then size else srclen in
               match memcpy dstlen (take (Z.to_nat srclen) src) dst with
               | Throw e => Throw e
               | Ok dst => match memcpy (dstlen + srclen) [0] dst with Ok dst => Ok (dstlen + srclen, dst) | Throw e => Throw e end
               end
           end
  end.

Lemma strlen_spec s r : Forall (fun c => c <> 0) s -> strlen (s ++ 0 :: r) = Ok (Z.of_nat (length s)).
Proof. induction 1 as [|c s Hc _ IH]; [done|]. cbn. rewrite (proj2 (Z.eqb_neq c 0)) by done. rewrite IH. f_equal. lia. Qed.
Lemma memcpy_ok pos src dst : (pos + length src <= length dst)%nat ->
  memcpy (Z.of_nat pos) src dst = Ok (take pos dst ++ src ++ drop (pos + length src) dst).
Proof. intros H. unfold memcpy. rewrite Nat2Z.id. by rewrite (proj2 (Nat.leb_le _ _)). Qed.
(** A text put into a buffer at a place, with its end after it. *)
Lemma copy_ended pos t dst : (pos + length t < length dst)%nat ->
  match memcpy (Z.of_nat pos) t dst with Ok dst => memcpy (Z.of_nat (pos + length t)) [0] dst | Throw e => Throw e end =
  Ok (take pos dst ++ t ++ 0 :: drop (S (pos + length t)) dst).
Proof.
  intros H. rewrite memcpy_ok by lia. rewrite memcpy_ok; [|rewrite !length_app, length_take, length_drop; cbn; lia]. f_equal.
  assert (Hl : length (take pos dst ++ t) = (pos + length t)%nat) by (rewrite length_app, length_take; lia).
  set (B := drop (pos + length t) dst). replace (take pos dst ++ t ++ B) with ((take pos dst ++ t) ++ B) by (by rewrite <- (assoc_L (++))).
  rewrite (take_app_length' _ _ _ (eq_sym Hl)), drop_app_ge by (rewrite Hl; cbn; lia). rewrite Hl. subst B. rewrite drop_drop, <- !(assoc_L (++)). cbn.
  do 4 f_equal. lia.
Qed.
(** Copying keeps within the size: what fits of the text, then its end, and the rest of the buffer untouched. *)
Lemma strlcpy_exact dst s r size : Forall (fun c => c <> 0) s -> 1 <= size <= Z.of_nat (length dst) -> size < 2 ^ 64 ->
  let n := Nat.min (length s) (Z.to_nat size - 1) in
  strlcpy dst (s ++ 0 :: r) size = Ok (Z.of_nat n, take n s ++ 0 :: drop (S n) dst).
Proof.
  intros Hs Hz H64 n. unfold strlcpy. rewrite strlen_spec by done. unfold size_t. rewrite Z.mod_small by lia.
  assert ((if size - 1 <? Z.of_nat (length s) then size - 1 else Z.of_nat (length s)) = Z.of_nat n) as -> by (subst n; destruct (Z.ltb_spec (size - 1) (Z.of_nat (length s))); lia).
  rewrite Nat2Z.id, take_app_le by (subst n; lia). assert (Hl : length (take n s) = n) by (rewrite length_take; subst n; lia).
  pose proof (copy_ended 0 (take n s) dst) as Hc. rewrite Hl in Hc. specialize (Hc ltac:(subst n; lia)). cbn [Nat.add take app] in Hc.
  change (Z.of_nat 0) with 0 in Hc. destruct (memcpy 0 _ dst); [|done]. by rewrite Hc.
Qed.
Lemma strlcat_exact d q s r size : Forall (fun c => c <> 0) s -> Forall (fun c => c <> 0) d ->
  Z.of_nat (length d) < size <= Z.of_nat (length (d ++ 0 :: q)) -> size < 2 ^ 64 ->
  let n := Nat.min (length s) (Z.to_nat size - length d - 1) in
  strlcat (d ++ 0 :: q) (s ++ 0 :: r) size = Ok (Z.of_nat (length d + n), d ++ take n s ++ 0 :: drop n q).
Proof.
  intros Hs Hd Hz H64 n. unfold strlcat. rewrite !strlen_spec by done. unfold size_t. rewrite Z.mod_small by lia.
  destruct (Z.eqb_spec (size - (Z.of_nat (length d) + 1)) 0) as [E|E].
  { assert (n = 0%nat) as -> by (subst n; lia). cbn. f_equal. f_equal. lia. }
  assert ((if size - (Z.of_nat (length d) + 1) <? Z.of_nat (length s) then size - (Z.of_nat (length d) + 1) else Z.of_nat (length s)) = Z.of_nat n) as ->
    by (subst n; destruct (Z.ltb_spec (size - (Z.of_nat (length d) + 1)) (Z.of_nat (length s))); lia).
  rewrite Nat2Z.id, take_app_le by (subst n; lia). assert (Hl : length (take n s) = n) by (rewrite length_take; subst n; lia).
  pose proof (copy_ended (length d) (take n s) (d ++ 0 :: q)) as Hc. rewrite Hl in Hc. rewrite length_app in Hc, Hz. cbn in Hc, Hz.
  specialize (Hc ltac:(subst n; lia)). rewrite Nat2Z.inj_add in Hc. destruct (memcpy (Z.of_nat (length d)) _ _); [|done]. rewrite Hc.
  rewrite take_app_length, drop_app_ge by lia. replace (S (length d + n) - length d)%nat with (S n) by lia. cbn [drop]. do 2 f_equal. lia.
Qed.
(** A size of zero wraps around: the whole text is copied, also outside of the buffer; so does a size that
    the text in the buffer already exceeds. *)
Lemma strlcpy_size_zero dst s r : Forall (fun c => c <> 0) s -> (length dst <= length s)%nat -> Z.of_nat (length s) < 2 ^ 63 ->
  strlcpy dst (s ++ 0 :: r) 0 = Throw UB.
Proof.
  intros Hs Hl H. unfold strlcpy. rewrite strlen_spec by done. change (size_t (0 - 1)) with (2 ^ 64 - 1). rewrite (proj2 (Z.ltb_ge (2 ^ 64 - 1) _)) by lia.
  rewrite Nat2Z.id, take_app_length. unfold memcpy at 1. destruct (Nat.leb_spec (Z.to_nat 0 + length s) (length dst)) as [Hle|Hgt]; [|done]. cbn in Hle.
  unfold memcpy. rewrite Nat2Z.id, !length_app, length_take, length_drop. cbn [length].
  match goal with |- context [(?a <=? ?b)%nat] => destruct (Nat.leb_spec a b) end; [lia|done].
Qed.
Lemma strlcat_overflows : strlcat [97; 98; 99; 0; 7] [100; 101; 0] 3 = Throw UB.
Proof. vm_compute. reflexivity. Qed.
End Strlc.

(** ** Core.cpp *)
Module Core.
Import Gpio2 GpioDev2 GpioPin Connector.

Inductive ArduinoPinMode : Type := INPUT | OUTPUT | INPUT_PULLUP | INPUT_PULLDOWN | PULLUP | PULLDOWN.
#[export] Instance ArduinoPinMode_eq_dec : EqDecision ArduinoPinMode.
Proof. solve_decision. Defined.

(** The SPI bus as [pinLocked] sees it: the chip select of the bus that is open, or of the default one. *)
Record chip_select : Type := mk_cs { cs_mode : mode; cs_pin : nat }.
Record spi_info : Type := mk_spi { broadcomBcm2835 : bool; spi_isOpen : bool; default_exists : bool; bus_cs : chip_select; default_cs : chip_select }.

Section Core.
Context {W : Type} {L : LineOs W} (PD : nat -> PinDevice W) {G : GpioDriver (W := W)} (spi : spi_info).
Abbreviation gpio := (Connector.gpio (W := W)).
Abbreviation on l m := (on_heap (on_pin PD l m)).

Definition pinLocked (n : Z) : M gpio bool :=
  if broadcomBcm2835 spi then mret false
  else ok ← Connector.open PD;
       if ok : bool then
         if spi_isOpen spi || default_exists spi then
           let cs := if spi_isOpen spi then bus_cs spi else default_cs spi in
           l ← gets (fun s => desc_of (cs_pin cs) (heap_ s));
           match l with
           | None => throw UB
           | Some d => if negb (bool_decide (cs_mode cs = ModeUnknown)) && (logical (num d) =? n)
                       then m ← on (cs_pin cs) (fun D => get_mode); mret (bool_decide (m = cs_mode cs))
                       else mret false
           end
         else mret false
       else mret false.
(** [gpio.pin (n)] *)
Definition at_pin {A} (n : Z) (m : PinDevice W -> M (pin W) A) : M gpio A := fun s =>
  match pin_at n s with Ok l => on l m s | Throw e => (Throw e, s) end.
Definition mode_of (m : ArduinoPinMode) : mode :=
  match m with OUTPUT => ModeOutput | INPUT | INPUT_PULLDOWN | INPUT_PULLUP => ModeInput | _ => ModeUnknown end.
Definition pull_of (m : ArduinoPinMode) : pull :=
  match m with OUTPUT => PullOff | INPUT_PULLDOWN | PULLDOWN => PullDown | INPUT_PULLUP | PULLUP => PullUp | INPUT => PullUnknown end.
Definition when (b : bool) (m : M gpio unit) : M gpio unit := if b then m else mret tt.
Definition pinMode (n : Z) (m : ArduinoPinMode) : M gpio unit :=
  locked ← pinLocked n;
  if locked : bool then mret tt
  else ok ← Connector.open PD;
       when ok (when (negb (bool_decide (mode_of m = ModeUnknown))) (at_pin n (fun D => setMode (mode_of m)));;
                when (negb (bool_decide (pull_of m = PullUnknown))) (at_pin n (fun D => setPull (pull_of m)))).
Definition digitalWrite (n value : Z) : M gpio unit := at_pin n (fun D => write (negb (value =? 0))).
Definition digitalToggle (n : Z) : M gpio unit := at_pin n (fun D => toggle).
Definition digitalRead (n : Z) : M gpio Z := at_pin n (fun D => v ← read; mret (if v : bool then 1 else 0)).
Definition core_attachInterrupt (n : Z) (e : edge) (debounce : Z) : M gpio unit := at_pin n (fun D => attachInterrupt e debounce).
Definition core_detachInterrupt (n : Z) : M gpio unit := at_pin n (fun D => detachInterrupt).
End Core.

(** ** [analogWrite], for one pin *)
#[local] Existing Instance GpioPwm.engine.
Section Analog.
Context {P : Type} {O : GpioPwm.GenOs P}.
(** The converter of a pin, if it has one, and the pin it would drive. *)
Record analog : Type := mk_analog { dac : option (GpioPwm.st P); pin_world : P }.
Definition resolution (r : Z) : Z := if 0 <? r then Z.log2 r else -1.
(** Shifts of an [int]; a shift by its width or more and an overflow are undefined. *)
Definition int_shl (v k : Z) : outcome Z :=
  if (k <? 32) && (- 2 ^ 31 <=? v * 2 ^ k) && (v * 2 ^ k <? 2 ^ 31) && (0 <=? v) then Ok (v * 2 ^ k) else Throw UB.
Definition scaled (r v : Z) : outcome Z :=
  let r := u32 r in
  if 8 <? r then int_shl v (r - 8) else if r <? 8 then Ok (Z.shiftr v (8 - r)) else Ok v.
(** [Pin::analogWrite] *)
Definition dac_write (v : Z) : M (GpioPwm.st P) unit := fun d =>
  if IoDevice.isOpen (GpioPwm.dev d) then (SocPwm.write v;; mret tt) d
  else (GpioPwm.open IoDevice.ReadWrite;; SocPwm.write v;; mret tt) d.
Definition new_dac (a : analog) : GpioPwm.st P := GpioPwm.new 8 100 (pin_world a).
Definition analogWrite (locked : bool) (v : Z) : M analog unit := fun a =>
  let d := default (new_dac a) (dac a) in
  if locked then (Ok tt, mk_analog (Some d) (pin_world a))
  else match scaled (resolution (GpioPwm.prange d)) v with
       | Throw e => (Throw e, mk_analog (Some d) (pin_world a))
       | Ok v => let '(o, d) := dac_write v d in (o, mk_analog (Some d) (pin_world a))
       end.
End Analog.

(** ** A sketch reaches the hardware *)
Section Sketch.
Context {W : Type} {L : LineOs W} {D : PinDevice W} {OK : PinDeviceOk W D}.
(** A GPIO pin that is open and used through the driver. *)
Definition in_use (p : pin W) : Prop := isGpio p = true /\ GpioPin.isopen p = true /\ gpiodev p = None /\ ok (pw p).
Lemma on_dev_eq {A} (m : M W A) (p : pin W) : on_dev m p = let '(o, x) := m (pw p) in (o, GpioPin.set_world (chp p) x p).
Proof. unfold on_dev, zoom. rewrite ok_device. done. Qed.
Lemma hold_mode p : in_use p -> exists p', setHoldMode p = (Ok tt, p') /\ in_use p' /\ pw p' = pw p /\ desc p' = desc p /\ pmode p' = pmode p.
Proof.
  intros (Hg & Ho & Hd & Hok). unfold setHoldMode. rewrite ok_device, andb_true_r. case_bool_decide; [|by exists p].
  unfold mbind, M_bind. rewrite on_dev_eq, (ok_mode _ Hok). cbn. unfold GpioPin.when. case_bool_decide.
  - rewrite on_dev_eq. cbn. rewrite (ok_read _ Hok). by eexists.
  - by eexists.
Qed.
Lemma setMode_hw m p : in_use p -> can m = true ->
  exists p', setMode m p = (Ok tt, p') /\ in_use p' /\ desc p' = desc p /\ h_mode (hw (pw p')) = shown m.
Proof.
  intros Hu Hc. destruct Hu as (Hg & Ho & Hd & Hok). set (p1 := set_pmode m p). assert (Hu1 : in_use p1) by done.
  destruct (hold_mode p1 Hu1) as (p2 & H2 & (Hg2 & Ho2 & Hd2 & Hok2) & Hw2 & Hde2 & Hm2).
  destruct (ok_setMode (pw p2) m Hok2) as (o & x & Hs & Hx & _ & Hr). rewrite Hc in Hr. destruct Hr as [-> Hmode].
  exists (GpioPin.set_world (chp p2) x p2). split; [|by split_and!; try done; rewrite Hde2].
  unfold setMode, check_gpio. unfold ask at 1. rewrite Hg. rewrite (M_bind_ok _ _ _ _ _ p tt p1) by done.
  unfold ask at 1. change (GpioPin.isopen p1) with (GpioPin.isopen p). rewrite Ho. unfold writeMode. rewrite (M_bind_ok _ _ _ _ _ _ _ _ H2).
  unfold ask, isGpioDevOpen. rewrite Hd2. unfold mbind, M_bind, gets. rewrite Hm2, on_dev_eq. cbn. by rewrite Hs.
Qed.
Lemma setPull_hw q p : in_use p -> q <> PullUnknown ->
  exists p', setPull q p = (Ok tt, p') /\ in_use p' /\ desc p' = desc p /\ h_mode (hw (pw p')) = h_mode (hw (pw p)).
Proof.
  intros (Hg & Ho & Hd & Hok) Hq. set (p1 := set_ppull q p).
  assert (H2 : exists p2, setHoldPull p1 = (Ok tt, p2) /\ in_use p2 /\ pw p2 = pw p /\ desc p2 = desc p).
  { unfold setHoldPull. rewrite ok_device, andb_true_r. case_bool_decide; [|by exists p1]. unfold mbind, M_bind. rewrite on_dev_eq. cbn. rewrite (ok_pull _ Hok). by eexists. }
  destruct H2 as (p2 & H2 & (Hg2 & Ho2 & Hd2 & Hok2) & Hw2 & Hde2).
  destruct (ok_setPull (pw p2) q Hok2) as (o & x & Hs & Hx & Hm & Hr & _). destruct (Hr Hq) as [-> _].
  exists (GpioPin.set_world (chp p2) x p2). split; [|split_and!; try done; cbn; by rewrite Hm, Hw2].
  unfold setPull, check_gpio. unfold ask at 1. rewrite Hg. rewrite (M_bind_ok _ _ _ _ _ p tt p1) by done.
  unfold ask at 1. change (GpioPin.isopen p1) with (GpioPin.isopen p). rewrite Ho. unfold writePull, isGpioDevOpen.
  change (gpiodev p1) with (gpiodev p). rewrite Hd. unfold GpioPin.when. rewrite ok_device. rewrite (M_bind_ok _ _ _ _ _ _ _ _ H2).
  rewrite on_dev_eq. cbn. by rewrite Hs.
Qed.
Lemma write_hw v p : in_use p -> h_mode (hw (pw p)) = ModeOutput ->
  exists p', write v p = (Ok tt, p') /\ in_use p' /\ desc p' = desc p /\ h_mode (hw (pw p')) = ModeOutput /\ h_level (hw (pw p')) = v.
Proof.
  intros (Hg & Ho & Hd & Hok) Hm. destruct (ok_write (pw p) v Hok) as (x & Hs & Hx & Hm' & _ & Hl).
  exists (GpioPin.set_world (chp p) x p). split; [|by split_and!; try done; cbn; rewrite ?Hm'; auto].
  unfold write, ask, usable, isGpioDevOpen. rewrite Ho, Hg, Hd. cbn [andb]. rewrite on_dev_eq. by rewrite Hs.
Qed.
Lemma read_hw p : in_use p -> read p = (Ok (h_level (hw (pw p))), GpioPin.set_world (chp p) (pw p) p).
Proof.
  intros (Hg & Ho & Hd & Hok). unfold read, ask, usable, isGpioDevOpen. rewrite Ho, Hg, Hd. cbn [andb]. rewrite on_dev_eq. by rewrite (ok_read _ Hok).
Qed.
End Sketch.

Section Lifted.
Context {W : Type} {L : LineOs W} (PD : nat -> PinDevice W) {G : GpioDriver (W := W)} (spi : spi_info).
Context (l : nat) {OK : PinDeviceOk W (PD l)}.
Abbreviation gpio := (Connector.gpio (W := W)).
(** The pin with the chip and the world of the heap. *)
Definition loaded (h : heap) (p : pin W) : pin W := GpioPin.set_world (chip_of (chip_no (num (desc p))) h) (hw_ h) p.
(** The GPIO is open and the pin found under the number [n] is in use. *)
Definition sketch_ready (n : Z) (s : gpio) : Prop :=
  Connector.isopen s = true /\ pin_at n s = Ok l /\ exists p, pins (heap_ s) !! l = Some p /\ in_use (D := PD l) (loaded (heap_ s) p).
Lemma at_pin_lift {A} n (m : PinDevice W -> M (pin W) A) s a p p' : sketch_ready n s -> pins (heap_ s) !! l = Some p ->
  m (PD l) (loaded (heap_ s) p) = (Ok a, p') -> in_use (D := PD l) p' -> desc p' = desc p ->
  exists s', at_pin PD n m s = (Ok a, s') /\ sketch_ready n s' /\ hw_ (heap_ s') = pw p' /\ pins (heap_ s') !! l = Some p' /\
    (forall j, j <> l -> pins (heap_ s') !! j = pins (heap_ s) !! j).
Proof.
  intros (Ho & Hn & _) Hp Hm Hu Hd. unfold at_pin. rewrite Hn. unfold on_heap, zoom, on_pin. rewrite Hp. fold (loaded (heap_ s) p). rewrite Hm.
  eexists. split; [done|]. cbn. split; [|split; [done|]].
  - split; [done|]. split; [done|]. exists p'. cbn. split; [apply list_lookup_insert_eq; by eapply lookup_lt_Some|]. destruct Hu as (? & ? & ? & ?). by split_and!.
  - split; [apply list_lookup_insert_eq; by eapply lookup_lt_Some|]. intros j Hj. by rewrite list_lookup_insert_ne.
Qed.

(** The chip select whose pin may be locked, known by its pin object; it is the
    pin [l] when it has the number [n]. *)
Definition locking : option chip_select :=
  if broadcomBcm2835 spi then None
  else if spi_isOpen spi || default_exists spi then Some (if spi_isOpen spi then bus_cs spi else default_cs spi) else None.
Definition cs_known (n : Z) (s : gpio) : Prop :=
  forall cs, locking = Some cs -> exists d, desc_of (cs_pin cs) (heap_ s) = Some d /\ (logical (num d) = n -> cs_pin cs = l).
(** The pin is that of the chip select, which has it in its mode. *)
Definition locked (n : Z) (s : gpio) : bool :=
  match locking with
  | None => false
  | Some cs =>
      negb (bool_decide (cs_mode cs = ModeUnknown)) &&
      (match desc_of (cs_pin cs) (heap_ s) with Some d => logical (num d) =? n | None => false end) &&
      bool_decide (h_mode (hw (D := PD l) (hw_ (heap_ s))) = cs_mode cs)
  end.

Lemma get_mode_hw p : in_use (D := PD l) p ->
  exists p', get_mode (D := PD l) p = (Ok (h_mode (hw (D := PD l) (pw p))), p') /\ in_use (D := PD l) p' /\ desc p' = desc p /\ pw p' = pw p.
Proof.
  intros (Hg & Ho & Hd & Hok). exists (set_pmode (h_mode (hw (D := PD l) (pw p))) (GpioPin.set_world (chp p) (pw p) p)). split; [|done].
  unfold get_mode, ask, readMode, isGpioDevOpen. munfold. rewrite Hg, Ho. unfold ask, isGpioDevOpen. rewrite Hd.
  rewrite ok_device. cbn [GpioPin.when]. unfold mbind, M_bind. rewrite (on_dev_eq (D := PD l)), (ok_mode _ Hok). done.
Qed.

(** Asking whether the pin is locked: the hardware and the other pins stay. *)
Lemma pinLocked_eq n s s1 : Connector.open PD s = (Ok true, s1) -> sketch_ready n s1 -> cs_known n s1 ->
  exists s2, pinLocked PD spi n s = (Ok (locked n s1), s2) /\ (locked n s1 = true -> hw_ (heap_ s2) = hw_ (heap_ s1)) /\
    exists s3, Connector.open PD s2 = (Ok true, s3) /\ sketch_ready n s3 /\ hw_ (heap_ s3) = hw_ (heap_ s1) /\
      (forall j, j <> l -> pins (heap_ s3) !! j = pins (heap_ s1) !! j).
Proof.
  intros Hopen Hs Hcs. assert (Hagain : forall t, sketch_ready n t -> Connector.open PD t = (Ok true, t)).
  { intros t (Ho & _). unfold Connector.open. by rewrite Ho. }
  unfold pinLocked, locked, cs_known, locking in *. destruct (broadcomBcm2835 spi).
  { exists s. split; [done|]. split; [done|]. by exists s1. }
  assert (Hskip : exists s2, (mret false : M gpio bool) s1 = (Ok false, s2) /\ (false = true -> hw_ (heap_ s2) = hw_ (heap_ s1)) /\
    exists s3, Connector.open PD s2 = (Ok true, s3) /\ sketch_ready n s3 /\ hw_ (heap_ s3) = hw_ (heap_ s1) /\
      (forall j, j <> l -> pins (heap_ s3) !! j = pins (heap_ s1) !! j)).
  { exists s1. split; [done|]. split; [done|]. exists s1. by rewrite (Hagain s1 Hs). }
  rewrite (M_bind_ok _ _ _ _ _ _ _ _ Hopen). destruct (spi_isOpen spi || default_exists spi); [|exact Hskip].
  set (cs := if spi_isOpen spi then bus_cs spi else default_cs spi) in *. destruct (Hcs cs eq_refl) as (d & Hd & Hl).
  unfold gets, mbind, M_bind at 1. rewrite Hd.
  destruct (negb (bool_decide (cs_mode cs = ModeUnknown))); cbn [andb]; [|exact Hskip].
  destruct (Z.eqb_spec (logical (num d)) n) as [Hn|Hn]; cbn [andb]; [|exact Hskip]. rewrite (Hl Hn).
  pose proof Hs as (Ho & Hat & p & Hp & Hu). destruct (get_mode_hw _ Hu) as (p' & Hm & Hu' & Hd' & Hw').
  destruct (at_pin_lift n (fun D => get_mode (D := D)) s1 _ p p' Hs Hp Hm Hu' Hd') as (s2 & E2 & Hs2 & Hw2 & _ & Hne2).
  unfold at_pin in E2. rewrite Hat in E2. unfold M_bind. rewrite E2. exists s2. split; [done|]. split; [intros _; by rewrite Hw2, Hw'|].
  exists s2. rewrite (Hagain s2 Hs2). split_and!; try done. rewrite Hw2, Hw'. done.
Qed.

(** Making an unlocked pin an output, writing to it and reading it back. *)
Lemma output_written n v s : sketch_ready n s -> can (D := PD l) ModeOutput = true -> shown (D := PD l) ModeOutput = ModeOutput ->
  exists s', (at_pin PD n (fun D => setMode ModeOutput);; at_pin PD n (fun D => setPull PullOff);;
              digitalWrite PD n v;; digitalRead PD n) s = (Ok (if v =? 0 then 0 else 1), s') /\ sketch_ready n s' /\
    h_mode (hw (D := PD l) (hw_ (heap_ s'))) = ModeOutput /\ h_level (hw (D := PD l) (hw_ (heap_ s'))) = negb (v =? 0) /\
    (forall j, j <> l -> pins (heap_ s') !! j = pins (heap_ s) !! j).
Proof.
  intros Hs Hc Hsh. pose proof Hs as (Ho & Hn & p & Hp & Hu).
  destruct (setMode_hw ModeOutput _ Hu Hc) as (p1 & H1 & Hu1 & Hd1 & Hm1). rewrite Hsh in Hm1.
  destruct (at_pin_lift n (fun D => setMode (D := D) ModeOutput) s tt p p1 Hs Hp H1 Hu1 Hd1) as (s1 & E1 & Hs1 & Hw1 & Hp1 & Hne1).
  pose proof Hs1 as (Ho1 & _ & q1 & Hq1 & Huq1). rewrite Hp1 in Hq1. injection Hq1 as <-.
  destruct (setPull_hw PullOff _ Huq1) as (p2 & H2 & Hu2 & Hd2 & Hm2); [done|].
  destruct (at_pin_lift n (fun D => setPull (D := D) PullOff) s1 tt p1 p2 Hs1 Hp1 H2 Hu2 Hd2) as (s2 & E2 & Hs2 & Hw2 & Hp2 & Hne2).
  pose proof Hs2 as (Ho2 & _ & q2 & Hq2 & Huq2). rewrite Hp2 in Hq2. injection Hq2 as <-.
  destruct (write_hw (negb (v =? 0)) _ Huq2) as (p3 & H3 & Hu3 & Hd3 & Hm3 & Hl3); [cbn; rewrite Hw2, Hm2; cbn; by rewrite Hw1|].
  destruct (at_pin_lift n (fun D => write (D := D) (negb (v =? 0))) s2 tt p2 p3 Hs2 Hp2 H3 Hu3 Hd3) as (s3 & E3 & Hs3 & Hw3 & Hp3 & Hne3).
  pose proof Hs3 as (Ho3 & _ & q3 & Hq3 & Huq3). rewrite Hp3 in Hq3. injection Hq3 as <-.
  pose proof (read_hw _ Huq3) as H4.
  destruct (at_pin_lift n (fun D => v ← read (D := D); mret (if v : bool then 1 else 0)) s3 (if v =? 0 then 0 else 1) p3
    (GpioPin.set_world (chp (loaded (heap_ s3) p3)) (pw (loaded (heap_ s3) p3)) (loaded (heap_ s3) p3)) Hs3 Hp3) as (s4 & E4 & Hs4 & Hw4 & Hp4 & Hne4).
  { rewrite (M_bind_ok _ _ _ _ _ _ _ _ H4). cbn. rewrite Hw3, Hl3. by destruct (v =? 0). }
  { destruct Huq3 as (? & ? & ? & ?). by split_and!. }
  { done. }
  exists s4. split; [|split; [done|]].
  - by rewrite (M_bind_ok _ _ _ _ _ _ _ _ E1), (M_bind_ok _ _ _ _ _ _ _ _ E2), (M_bind_ok _ _ _ _ _ _ _ _ E3).
  - cbn in Hw4. rewrite Hw4, Hw3. split; [done|]. split; [done|]. intros j Hj. by rewrite Hne4, Hne3, Hne2, Hne1.
Qed.

End Lifted.

(** A pin that has no converter gets a PWM of the range 8, not of 8 bits: of a value the three high bits
    are used, and the greatest one gives seven eighths of the full output. *)
Lemma analogWrite_three_bits {P} {O : GpioPwm.GenOs P} {OK : GpioPwm.GenOsOk P O} v w : 0 <= v <= 255 ->
  exists d, analogWrite false v (mk_analog None w) = (Ok tt, mk_analog (Some d) w) /\ GpioPwm.prange d = 8 /\ GpioPwm.value d = v / 32 /\ v / 32 <= 7.
Proof.
  intros Hv. assert (Hq : 0 <= v / 32 <= 7) by (split; [apply Z.div_pos; lia|assert (v / 32 < 8); [apply Z.div_lt_upper_bound; lia|lia]]).
  unfold analogWrite, dac_write. cbn [dac default pin_world new_dac GpioPwm.new GpioPwm.prange].
  change (scaled (resolution 8) v) with (Ok (Z.shiftr v 5)). cbv iota. rewrite Z.shiftr_div_pow2 by lia. change (2 ^ 5) with 32.
  destruct (GpioPwm.open_new IoDevice.ReadWrite 8 100 w) as (w1 & _ & Ho).
  match type of Ho with _ = (_, ?x) => assert (Hw : SocPwm.write (v / 32) x = (Ok true, GpioPwm.signal (GpioPwm.store (v / 32) x)))
    by (rewrite GpioPwm.public_write by done; do 3 f_equal; cbn; lia) end.
  unfold new_dac. cbn [pin_world]. change (IoDevice.isOpen (GpioPwm.dev (GpioPwm.new 8 100 w))) with false. cbv iota.
  rewrite (M_bind_ok _ _ _ _ _ _ _ _ Ho), (M_bind_ok _ _ _ _ _ _ _ _ Hw). eexists. split; [done|]. split; [done|]. split; [done|lia].
Qed.

(** The pin numbered 8 of the board of Connector.v. *)
Module Demo.
Import ConnectorDemo.
#[local] Existing Instances Bcm2835.Demo.device_regs Bcm2835.Demo.device_2711 GpioDev2.Demo.demo_lines PinBcm2711.beside.
Lemma pin3 : 0 <= 3 < Bcm2835.GpioSize.
Proof. unfold Bcm2835.GpioSize. lia. Qed.
#[export] Instance ok3 : PinDeviceOk world (PD 1) := PinBcm2711.bcm_pin_ok 3 pin3.
Definition no_lock : spi_info := mk_spi true false false (mk_cs ModeUnknown 0) (mk_cs ModeUnknown 0).
Definition p8 : pin world := default (GpioPin.new (power 0 1 1) new_chip (hw_ (heap_ opened))) (pins (heap_ opened) !! 1%nat).
Lemma some_of {A} (x : option A) d : (if x then true else false) = true -> x = Some (default d x).
Proof. by destruct x. Qed.
Lemma ready8 : sketch_ready PD 1 8 opened.
Proof.
  split; [vm_compute; reflexivity|]. split; [vm_compute; reflexivity|]. exists p8. split; [apply some_of; vm_compute; reflexivity|].
  split_and!; [vm_compute; reflexivity..|].
  change (IoMap.window (Mmio.im (hw_ (heap_ opened)).1) = Bcm2835.MapBlockSize). vm_compute. reflexivity.
Qed.
(** The pin is the chip select of the default bus, in use as an input. *)
Definition cs8 : spi_info := mk_spi false false true (mk_cs ModeUnknown 0) (mk_cs ModeInput 1).
Lemma chip_select_locked : locked PD cs8 1 8 opened = true.
Proof. vm_compute. reflexivity. Qed.
End Demo.
End Core.
