(* ===== verification/ArduinoBits.v ===== *)
(** * Characters, bits and binary constants of a sketch

    include/piduino/arduino/binary.h (a name for each number of one to eight
    bits), the macros of include/piduino/arduino/Arduino.h on the bits and bytes
    of a variable, and include/piduino/arduino/WCharacter.h, whose functions ask
    the C library, here in the locale of a program that never sets one. *)
From Stdlib Require Import Ascii.
From S2P Require Import Prelude Text ArduinoCore.

Module ArduinoBits.

(** ** binary.h *)
Definition binary_1 : list (string * Z) := [
  ("B0"%string, 0); ("B00"%string, 0); ("B000"%string, 0); ("B0000"%string, 0); ("B00000"%string, 0);
  ("B000000"%string, 0); ("B0000000"%string, 0); ("B00000000"%string, 0); ("B1"%string, 1); ("B01"%string, 1);
  ("B001"%string, 1); ("B0001"%string, 1); ("B00001"%string, 1); ("B000001"%string, 1); ("B0000001"%string, 1);
  ("B00000001"%string, 1); ("B10"%string, 2); ("B010"%string, 2); ("B0010"%string, 2); ("B00010"%string, 2);
  ("B000010"%string, 2); ("B0000010"%string, 2); ("B00000010"%string, 2); ("B11"%string, 3); ("B011"%string, 3);
  ("B0011"%string, 3); ("B00011"%string, 3); ("B000011"%string, 3); ("B0000011"%string, 3); ("B00000011"%string, 3);
  ("B100"%string, 4); ("B0100"%string, 4); ("B00100"%string, 4); ("B000100"%string, 4); ("B0000100"%string, 4);
  ("B00000100"%string, 4); ("B101"%string, 5); ("B0101"%string, 5); ("B00101"%string, 5); ("B000101"%string, 5);
  ("B0000101"%string, 5); ("B00000101"%string, 5); ("B110"%string, 6); ("B0110"%string, 6); ("B00110"%string, 6);
  ("B000110"%string, 6); ("B0000110"%string, 6); ("B00000110"%string, 6); ("B111"%string, 7); ("B0111"%string, 7);
  ("B00111"%string, 7); ("B000111"%string, 7); ("B0000111"%string, 7); ("B00000111"%string, 7); ("B1000"%string, 8);
  ("B01000"%string, 8); ("B001000"%string, 8); ("B0001000"%string, 8); ("B00001000"%string, 8); ("B1001"%string, 9);
  ("B01001"%string, 9); ("B001001"%string, 9); ("B0001001"%string, 9); ("B00001001"%string, 9); ("B1010"%string, 10);
  ("B01010"%string, 10); ("B001010"%string, 10); ("B0001010"%string, 10); ("B00001010"%string, 10);
  ("B1011"%string, 11); ("B01011"%string, 11); ("B001011"%string, 11); ("B0001011"%string, 11);
  ("B00001011"%string, 11); ("B1100"%string, 12); ("B01100"%string, 12); ("B001100"%string, 12);
  ("B0001100"%string, 12); ("B00001100"%string, 12); ("B1101"%string, 13); ("B01101"%string, 13);
  ("B001101"%string, 13); ("B0001101"%string, 13); ("B00001101"%string, 13); ("B1110"%string, 14);
  ("B01110"%string, 14); ("B001110"%string, 14); ("B0001110"%string, 14); ("B00001110"%string, 14);
  ("B1111"%string, 15); ("B01111"%string, 15); ("B001111"%string, 15); ("B0001111"%string, 15);
  ("B00001111"%string, 15); ("B10000"%string, 16); ("B010000"%string, 16); ("B0010000"%string, 16);
  ("B00010000"%string, 16); ("B10001"%string, 17); ("B010001"%string, 17); ("B0010001"%string, 17);
  ("B00010001"%string, 17); ("B10010"%string, 18); ("B010010"%string, 18); ("B0010010"%string, 18);
  ("B00010010"%string, 18); ("B10011"%string, 19); ("B010011"%string, 19); ("B0010011"%string, 19);
  ("B00010011"%string, 19); ("B10100"%string, 20); ("B010100"%string, 20); ("B0010100"%string, 20);
  ("B00010100"%string, 20); ("B10101"%string, 21); ("B010101"%string, 21); ("B0010101"%string, 21);
  ("B00010101"%string, 21); ("B10110"%string, 22); ("B010110"%string, 22); ("B0010110"%string, 22);
  ("B00010110"%string, 22); ("B10111"%string, 23); ("B010111"%string, 23); ("B0010111"%string, 23);
  ("B00010111"%string, 23); ("B11000"%string, 24); ("B011000"%string, 24)].
Definition binary_2 : list (string * Z) := [
  ("B0011000"%string, 24); ("B00011000"%string, 24); ("B11001"%string, 25); ("B011001"%string, 25);
  ("B0011001"%string, 25); ("B00011001"%string, 25); ("B11010"%string, 26); ("B011010"%string, 26);
  ("B0011010"%string, 26); ("B00011010"%string, 26); ("B11011"%string, 27); ("B011011"%string, 27);
  ("B0011011"%string, 27); ("B00011011"%string, 27); ("B11100"%string, 28); ("B011100"%string, 28);
  ("B0011100"%string, 28); ("B00011100"%string, 28); ("B11101"%string, 29); ("B011101"%string, 29);
  ("B0011101"%string, 29); ("B00011101"%string, 29); ("B11110"%string, 30); ("B011110"%string, 30);
  ("B0011110"%string, 30); ("B00011110"%string, 30); ("B11111"%string, 31); ("B011111"%string, 31);
  ("B0011111"%string, 31); ("B00011111"%string, 31); ("B100000"%string, 32); ("B0100000"%string, 32);
  ("B00100000"%string, 32); ("B100001"%string, 33); ("B0100001"%string, 33); ("B00100001"%string, 33);
  ("B100010"%string, 34); ("B0100010"%string, 34); ("B00100010"%string, 34); ("B100011"%string, 35);
  ("B0100011"%string, 35); ("B00100011"%string, 35); ("B100100"%string, 36); ("B0100100"%string, 36);
  ("B00100100"%string, 36); ("B100101"%string, 37); ("B0100101"%string, 37); ("B00100101"%string, 37);
  ("B100110"%string, 38); ("B0100110"%string, 38); ("B00100110"%string, 38); ("B100111"%string, 39);
  ("B0100111"%string, 39); ("B00100111"%string, 39); ("B101000"%string, 40); ("B0101000"%string, 40);
  ("B00101000"%string, 40); ("B101001"%string, 41); ("B0101001"%string, 41); ("B00101001"%string, 41);
  ("B101010"%string, 42); ("B0101010"%string, 42); ("B00101010"%string, 42); ("B101011"%string, 43);
  ("B0101011"%string, 43); ("B00101011"%string, 43); ("B101100"%string, 44); ("B0101100"%string, 44);
  ("B00101100"%string, 44); ("B101101"%string, 45); ("B0101101"%string, 45); ("B00101101"%string, 45);
  ("B101110"%string, 46); ("B0101110"%string, 46); ("B00101110"%string, 46); ("B101111"%string, 47);
  ("B0101111"%string, 47); ("B00101111"%string, 47); ("B110000"%string, 48); ("B0110000"%string, 48);
  ("B00110000"%string, 48); ("B110001"%string, 49); ("B0110001"%string, 49); ("B00110001"%string, 49);
  ("B110010"%string, 50); ("B0110010"%string, 50); ("B00110010"%string, 50); ("B110011"%string, 51);
  ("B0110011"%string, 51); ("B00110011"%string, 51); ("B110100"%string, 52); ("B0110100"%string, 52);
  ("B00110100"%string, 52); ("B110101"%string, 53); ("B0110101"%string, 53); ("B00110101"%string, 53);
  ("B110110"%string, 54); ("B0110110"%string, 54); ("B00110110"%string, 54); ("B110111"%string, 55);
  ("B0110111"%string, 55); ("B00110111"%string, 55); ("B111000"%string, 56); ("B0111000"%string, 56);
  ("B00111000"%string, 56); ("B111001"%string, 57); ("B0111001"%string, 57); ("B00111001"%string, 57);
  ("B111010"%string, 58); ("B0111010"%string, 58); ("B00111010"%string, 58); ("B111011"%string, 59);
  ("B0111011"%string, 59); ("B00111011"%string, 59); ("B111100"%string, 60); ("B0111100"%string, 60);
  ("B00111100"%string, 60); ("B111101"%string, 61); ("B0111101"%string, 61); ("B00111101"%string, 61);
  ("B111110"%string, 62); ("B0111110"%string, 62); ("B00111110"%string, 62); ("B111111"%string, 63);
  ("B0111111"%string, 63); ("B00111111"%string, 63); ("B1000000"%string, 64); ("B01000000"%string, 64)].
Definition binary_3 : list (string * Z) := [
  ("B1000001"%string, 65); ("B01000001"%string, 65); ("B1000010"%string, 66); ("B01000010"%string, 66);
  ("B1000011"%string, 67); ("B01000011"%string, 67); ("B1000100"%string, 68); ("B01000100"%string, 68);
  ("B1000101"%string, 69); ("B01000101"%string, 69); ("B1000110"%string, 70); ("B01000110"%string, 70);
  ("B1000111"%string, 71); ("B01000111"%string, 71); ("B1001000"%string, 72); ("B01001000"%string, 72);
  ("B1001001"%string, 73); ("B01001001"%string, 73); ("B1001010"%string, 74); ("B01001010"%string, 74);
  ("B1001011"%string, 75); ("B01001011"%string, 75); ("B1001100"%string, 76); ("B01001100"%string, 76);
  ("B1001101"%string, 77); ("B01001101"%string, 77); ("B1001110"%string, 78); ("B01001110"%string, 78);
  ("B1001111"%string, 79); ("B01001111"%string, 79); ("B1010000"%string, 80); ("B01010000"%string, 80);
  ("B1010001"%string, 81); ("B01010001"%string, 81); ("B1010010"%string, 82); ("B01010010"%string, 82);
  ("B1010011"%string, 83); ("B01010011"%string, 83); ("B1010100"%string, 84); ("B01010100"%string, 84);
  ("B1010101"%string, 85); ("B01010101"%string, 85); ("B1010110"%string, 86); ("B01010110"%string, 86);
  ("B1010111"%string, 87); ("B01010111"%string, 87); ("B1011000"%string, 88); ("B01011000"%string, 88);
  ("B1011001"%string, 89); ("B01011001"%string, 89); ("B1011010"%string, 90); ("B01011010"%string, 90);
  ("B1011011"%string, 91); ("B01011011"%string, 91); ("B1011100"%string, 92); ("B01011100"%string, 92);
  ("B1011101"%string, 93); ("B01011101"%string, 93); ("B1011110"%string, 94); ("B01011110"%string, 94);
  ("B1011111"%string, 95); ("B01011111"%string, 95); ("B1100000"%string, 96); ("B01100000"%string, 96);
  ("B1100001"%string, 97); ("B01100001"%string, 97); ("B1100010"%string, 98); ("B01100010"%string, 98);
  ("B1100011"%string, 99); ("B01100011"%string, 99); ("B1100100"%string, 100); ("B01100100"%string, 100);
  ("B1100101"%string, 101); ("B01100101"%string, 101); ("B1100110"%string, 102); ("B01100110"%string, 102);
  ("B1100111"%string, 103); ("B01100111"%string, 103); ("B1101000"%string, 104); ("B01101000"%string, 104);
  ("B1101001"%string, 105); ("B01101001"%string, 105); ("B1101010"%string, 106); ("B01101010"%string, 106);
  ("B1101011"%string, 107); ("B01101011"%string, 107); ("B1101100"%string, 108); ("B01101100"%string, 108);
  ("B1101101"%string, 109); ("B01101101"%string, 109); ("B1101110"%string, 110); ("B01101110"%string, 110);
  ("B1101111"%string, 111); ("B01101111"%string, 111); ("B1110000"%string, 112); ("B01110000"%string, 112);
  ("B1110001"%string, 113); ("B01110001"%string, 113); ("B1110010"%string, 114); ("B01110010"%string, 114);
  ("B1110011"%string, 115); ("B01110011"%string, 115); ("B1110100"%string, 116); ("B01110100"%string, 116);
  ("B1110101"%string, 117); ("B01110101"%string, 117); ("B1110110"%string, 118); ("B01110110"%string, 118);
  ("B1110111"%string, 119); ("B01110111"%string, 119); ("B1111000"%string, 120); ("B01111000"%string, 120);
  ("B1111001"%string, 121); ("B01111001"%string, 121); ("B1111010"%string, 122); ("B01111010"%string, 122);
  ("B1111011"%string, 123); ("B01111011"%string, 123); ("B1111100"%string, 124); ("B01111100"%string, 124);
  ("B1111101"%string, 125); ("B01111101"%string, 125); ("B1111110"%string, 126); ("B01111110"%string, 126);
  ("B1111111"%string, 127); ("B01111111"%string, 127); ("B10000000"%string, 128); ("B10000001"%string, 129)].
Definition binary_4 : list (string * Z) := [
  ("B10000010"%string, 130); ("B10000011"%string, 131); ("B10000100"%string, 132); ("B10000101"%string, 133);
  ("B10000110"%string, 134); ("B10000111"%string, 135); ("B10001000"%string, 136); ("B10001001"%string, 137);
  ("B10001010"%string, 138); ("B10001011"%string, 139); ("B10001100"%string, 140); ("B10001101"%string, 141);
  ("B10001110"%string, 142); ("B10001111"%string, 143); ("B10010000"%string, 144); ("B10010001"%string, 145);
  ("B10010010"%string, 146); ("B10010011"%string, 147); ("B10010100"%string, 148); ("B10010101"%string, 149);
  ("B10010110"%string, 150); ("B10010111"%string, 151); ("B10011000"%string, 152); ("B10011001"%string, 153);
  ("B10011010"%string, 154); ("B10011011"%string, 155); ("B10011100"%string, 156); ("B10011101"%string, 157);
  ("B10011110"%string, 158); ("B10011111"%string, 159); ("B10100000"%string, 160); ("B10100001"%string, 161);
  ("B10100010"%string, 162); ("B10100011"%string, 163); ("B10100100"%string, 164); ("B10100101"%string, 165);
  ("B10100110"%string, 166); ("B10100111"%string, 167); ("B10101000"%string, 168); ("B10101001"%string, 169);
  ("B10101010"%string, 170); ("B10101011"%string, 171); ("B10101100"%string, 172); ("B10101101"%string, 173);
  ("B10101110"%string, 174); ("B10101111"%string, 175); ("B10110000"%string, 176); ("B10110001"%string, 177);
  ("B10110010"%string, 178); ("B10110011"%string, 179); ("B10110100"%string, 180); ("B10110101"%string, 181);
  ("B10110110"%string, 182); ("B10110111"%string, 183); ("B10111000"%string, 184); ("B10111001"%string, 185);
  ("B10111010"%string, 186); ("B10111011"%string, 187); ("B10111100"%string, 188); ("B10111101"%string, 189);
  ("B10111110"%string, 190); ("B10111111"%string, 191); ("B11000000"%string, 192); ("B11000001"%string, 193);
  ("B11000010"%string, 194); ("B11000011"%string, 195); ("B11000100"%string, 196); ("B11000101"%string, 197);
  ("B11000110"%string, 198); ("B11000111"%string, 199); ("B11001000"%string, 200); ("B11001001"%string, 201);
  ("B11001010"%string, 202); ("B11001011"%string, 203); ("B11001100"%string, 204); ("B11001101"%string, 205);
  ("B11001110"%string, 206); ("B11001111"%string, 207); ("B11010000"%string, 208); ("B11010001"%string, 209);
  ("B11010010"%string, 210); ("B11010011"%string, 211); ("B11010100"%string, 212); ("B11010101"%string, 213);
  ("B11010110"%string, 214); ("B11010111"%string, 215); ("B11011000"%string, 216); ("B11011001"%string, 217);
  ("B11011010"%string, 218); ("B11011011"%string, 219); ("B11011100"%string, 220); ("B11011101"%string, 221);
  ("B11011110"%string, 222); ("B11011111"%string, 223); ("B11100000"%string, 224); ("B11100001"%string, 225);
  ("B11100010"%string, 226); ("B11100011"%string, 227); ("B11100100"%string, 228); ("B11100101"%string, 229);
  ("B11100110"%string, 230); ("B11100111"%string, 231); ("B11101000"%string, 232); ("B11101001"%string, 233);
  ("B11101010"%string, 234); ("B11101011"%string, 235); ("B11101100"%string, 236); ("B11101101"%string, 237);
  ("B11101110"%string, 238); ("B11101111"%string, 239); ("B11110000"%string, 240); ("B11110001"%string, 241);
  ("B11110010"%string, 242); ("B11110011"%string, 243); ("B11110100"%string, 244); ("B11110101"%string, 245);
  ("B11110110"%string, 246); ("B11110111"%string, 247); ("B11111000"%string, 248); ("B11111001"%string, 249);
  ("B11111010"%string, 250); ("B11111011"%string, 251); ("B11111100"%string, 252); ("B11111101"%string, 253);
  ("B11111110"%string, 254); ("B11111111"%string, 255)].
Definition binary : list (string * Z) := binary_1 ++ binary_2 ++ binary_3 ++ binary_4.

(** The value of a text of binary digits, the first being the most significant *)
Fixpoint bits_value (acc : Z) (s : string) : option Z :=
  match s with
  | EmptyString => Some acc
  | String c s => if Ascii.eqb c "0" then bits_value (2 * acc) s else if Ascii.eqb c "1" then bits_value (2 * acc + 1) s else None
  end.
Definition name_value (s : string) : option Z :=
  match s with String c (String d s) => if Ascii.eqb c "B" then bits_value 0 (String d s) else None | _ => None end.
Fixpoint bit_strings (n : nat) : list string :=
  match n with O => [EmptyString] | S n => (String "0" <$> bit_strings n) ++ (String "1" <$> bit_strings n) end.
Definition binary_names : list string := String "B" <$> concat (bit_strings <$> seq 1 8).

(** ** The macros on bits and bytes.  [w] is the width of an unsigned variable; a shift needs a count below the width
    of the promoted operand, and an assignment keeps the low bits. *)
Definition wrap (w x : Z) : Z := x mod 2 ^ w.
Definition shift_1UL (b : Z) : outcome Z := if (0 <=? b) && (b <? 64) then Ok (Z.shiftl 1 b) else Throw UB.
Definition bit (b : Z) : outcome Z := shift_1UL b.
Definition bitRead (w value b : Z) : outcome Z :=
  if (0 <=? b) && (b <? Z.max 32 w) then Ok (Z.land (Z.shiftr value b) 0x01) else Throw UB.
Definition bitSet (w value b : Z) : outcome Z :=
  match shift_1UL b with Ok m => Ok (wrap w (Z.lor value m)) | Throw e => Throw e end.
Definition bitClear (w value b : Z) : outcome Z :=
  match shift_1UL b with Ok m => Ok (wrap w (Z.land value (u64 (Z.lnot m)))) | Throw e => Throw e end.
Definition bitWrite (w value b : Z) (bitvalue : bool) : outcome Z := if bitvalue then bitSet w value b else bitClear w value b.
Definition lowByte (x : Z) : Z := u8 (Z.land x 0xff).
Definition highByte (x : Z) : Z := u8 (Z.shiftr x 8).
Definition constrain (amt low high : Z) : Z := if amt <? low then low else if high <? amt then high else amt.

(** ** The C library on characters, in the "C" locale; other arguments than [EOF] and the bytes are undefined *)
Definition between (a c b : Z) : bool := (a <=? c) && (c <=? b).
Definition byte_or_eof (c : Z) (r : bool) : outcome bool := if between (-1) c 255 then Ok r else Throw UB.
Definition isupper (c : Z) : outcome bool := byte_or_eof c (between 65 c 90).
Definition islower (c : Z) : outcome bool := byte_or_eof c (between 97 c 122).
Definition isalpha (c : Z) : outcome bool := byte_or_eof c (between 65 c 90 || between 97 c 122).
Definition isdigit (c : Z) : outcome bool := byte_or_eof c (between 48 c 57).
Definition isalnum (c : Z) : outcome bool := byte_or_eof c (between 48 c 57 || between 65 c 90 || between 97 c 122).
Definition isxdigit (c : Z) : outcome bool := byte_or_eof c (between 48 c 57 || between 65 c 70 || between 97 c 102).
Definition isblank (c : Z) : outcome bool := byte_or_eof c ((c =? 32) || (c =? 9)).
Definition isspace (c : Z) : outcome bool := byte_or_eof c ((c =? 32) || between 9 c 13).
Definition iscntrl (c : Z) : outcome bool := byte_or_eof c (between 0 c 31 || (c =? 127)).
Definition isgraph (c : Z) : outcome bool := byte_or_eof c (between 33 c 126).
Definition isprint (c : Z) : outcome bool := byte_or_eof c (between 32 c 126).
Definition ispunct (c : Z) : outcome bool :=
  byte_or_eof c (between 33 c 47 || between 58 c 64 || between 91 c 96 || between 123 c 126).
Definition tolower (c : Z) : outcome Z := if between (-1) c 255 then Ok (if between 65 c 90 then c + 32 else c) else Throw UB.
Definition toupper (c : Z) : outcome Z := if between (-1) c 255 then Ok (if between 97 c 122 then c - 32 else c) else Throw UB.

(** ** WCharacter.h: the answer is 0 or 1 *)
Definition boolean (o : outcome bool) : outcome Z := match o with Ok b => Ok (if b then 1 else 0) | Throw e => Throw e end.
Definition isAlphaNumeric (c : Z) : outcome Z := boolean (isalnum c).
Definition isAlpha (c : Z) : outcome Z := boolean (isalpha c).
Definition isAscii (c : Z) : outcome Z := boolean (Ok (Z.land c (Z.lnot 0x7f) =? 0)).
Definition isWhitespace (c : Z) : outcome Z := boolean (isblank c).
Definition isControl (c : Z) : outcome Z := boolean (iscntrl c).
Definition isDigit (c : Z) : outcome Z := boolean (isdigit c).
Definition isGraph (c : Z) : outcome Z := boolean (isgraph c).
Definition isLowerCase (c : Z) : outcome Z := boolean (islower c).
Definition isPrintable (c : Z) : outcome Z := boolean (isprint c).
Definition isPunct (c : Z) : outcome Z := boolean (ispunct c).
Definition isSpace (c : Z) : outcome Z := boolean (isspace c).
Definition isUpperCase (c : Z) : outcome Z := boolean (isupper c).
Definition isHexadecimalDigit (c : Z) : outcome Z := boolean (isxdigit c).
Definition toAscii (c : Z) : Z := Z.land c 0x7f.
Definition toLowerCase (c : Z) : outcome Z := tolower c.
Definition toUpperCase (c : Z) : outcome Z := toupper c.

(** Every name of one to eight digits is there once, and its value is the one its digits write. *)
Theorem binary_exact : NoDup binary.*1 /\ (forall s, s ∈ binary.*1 <-> s ∈ binary_names) /\
  Forall (fun p => name_value p.1 = Some p.2) binary.
Proof.
  split; [refine (bool_decide_unpack _ _); vm_compute; exact I|]. split.
  - assert (H : Forall (.∈ binary_names) binary.*1 /\ Forall (.∈ binary.*1) binary_names).
    { refine (bool_decide_unpack _ _); vm_compute; exact I. }
    destruct H as [H1 H2]. rewrite Forall_forall in H1, H2. intros s. split; [apply H1|apply H2].
  - refine (bool_decide_unpack _ _). vm_compute. exact I.
Qed.

Lemma bitRead_testbit w v b : 0 <= b < w -> bitRead w v b = Ok (Z.b2z (Z.testbit v b)).
Proof.
  intros Hb. unfold bitRead. rewrite (proj2 (Z.leb_le 0 b)), (proj2 (Z.ltb_lt b (Z.max 32 w))) by lia. cbn [andb].
  change 1 with (Z.ones 1) at 1. rewrite Z.land_ones, Z.shiftr_div_pow2, Z.testbit_spec' by lia. done.
Qed.

Lemma wrap_testbit w x n : 0 <= n < w -> Z.testbit (wrap w x) n = Z.testbit x n.
Proof. intros. unfold wrap. by rewrite Z.mod_pow2_bits_low by lia. Qed.

Lemma bitWrite_testbit w v b x : w <= 64 -> 0 <= b < w -> exists v', bitWrite w v b x = Ok v' /\ 0 <= v' < 2 ^ w /\
  forall n, 0 <= n < w -> Z.testbit v' n = if decide (n = b) then x else Z.testbit v n.
Proof.
  intros Hw Hb. unfold bitWrite, bitSet, bitClear, shift_1UL.
  rewrite (proj2 (Z.leb_le 0 b)), (proj2 (Z.ltb_lt b 64)) by lia. cbn [andb].
  assert (Hp : forall n, 0 <= n -> Z.testbit (Z.shiftl 1 b) n = bool_decide (n = b)).
  { intros n Hn. rewrite Z.shiftl_1_l, Z.pow2_bits_eqb by lia.
    destruct (Z.eqb_spec b n); [rewrite bool_decide_true|rewrite bool_decide_false]; done || lia. }
  destruct x; eexists; (split; [reflexivity|]); (split; [apply Z.mod_pos_bound; lia|]); intros n Hn; rewrite wrap_testbit by done.
  - rewrite Z.lor_spec, Hp by lia. destruct (decide (n = b)); [rewrite bool_decide_true by done; apply orb_true_r|].
    rewrite bool_decide_false by done. apply orb_false_r.
  - unfold u64. rewrite Z.land_spec, Z.mod_pow2_bits_low, Z.lnot_spec, Hp by lia.
    destruct (decide (n = b)); [rewrite bool_decide_true by done; apply andb_false_r|].
    rewrite bool_decide_false by done. apply andb_true_r.
Qed.

(** A bit that was written is read back, the other bits keep their values, and the variable stays in its width. *)
Theorem bit_write_read w v b x n : w <= 64 -> 0 <= b < w -> 0 <= n < w ->
  exists v', bitWrite w v b x = Ok v' /\ 0 <= v' < 2 ^ w /\
    bitRead w v' n = (if decide (n = b) then Ok (Z.b2z x) else bitRead w v n).
Proof.
  intros Hw Hb Hn. destruct (bitWrite_testbit w v b x Hw Hb) as (v' & H1 & H2 & H3). exists v'. split; [done|]. split; [done|].
  rewrite !bitRead_testbit, H3 by done. by destruct (decide (n = b)).
Qed.

(** Setting a bit above the width of the variable changes nothing. *)
Lemma bitSet_above w v b : 0 < w <= b -> b < 64 -> 0 <= v < 2 ^ w -> bitSet w v b = Ok v.
Proof.
  intros Hw Hb Hv. unfold bitSet, shift_1UL. rewrite (proj2 (Z.leb_le 0 b)), (proj2 (Z.ltb_lt b 64)) by lia. cbn [andb]. f_equal.
  apply Z.bits_inj'. intros n Hn. unfold wrap. destruct (decide (n < w)).
  - rewrite Z.mod_pow2_bits_low, Z.lor_spec, Z.shiftl_1_l, Z.pow2_bits_false by lia. apply orb_false_r.
  - rewrite Z.mod_pow2_bits_high by lia. symmetry. apply (testbit_high v w); lia.
Qed.

(** A word is made again of its bytes. *)
Lemma word_again x : 0 <= x < 2 ^ 16 -> WMath.makeWord (highByte x) (lowByte x) = x.
Proof.
  intros Hx. unfold WMath.makeWord, highByte, lowByte. apply Z.bits_inj'. intros n Hn. unfold u8.
  rewrite !Zmod_mod. rewrite Z.lor_spec. change 0xff with (Z.ones 8). rewrite Z.land_ones, Zmod_mod by lia.
  destruct (decide (n < 8)).
  - rewrite Z.shiftl_spec_low, Z.mod_pow2_bits_low by lia. done.
  - rewrite Z.shiftl_spec_high, (Z.mod_pow2_bits_high x) by lia. rewrite orb_false_r. destruct (decide (n - 8 < 8)).
    + rewrite Z.mod_pow2_bits_low, Z.shiftr_spec by lia. f_equal. lia.
    + rewrite Z.mod_pow2_bits_high by lia. symmetry. apply (testbit_high x 16); lia.
Qed.

(** What the comments say of the classes of characters; outside the bytes and [EOF] both sides are undefined. *)
Definition either (a b : outcome Z) : outcome Z := match a, b with Ok x, Ok y => Ok (Z.lor x y) | _, _ => Throw UB end.
Definition outcome_eqb (a b : outcome Z) : bool := match a, b with Ok x, Ok y => x =? y | Throw e, Throw f => bool_decide (e = f) | _, _ => false end.
Lemma outcome_eqb_eq a b : outcome_eqb a b = true -> a = b.
Proof. destruct a, b; cbn; try done; [intros ->%Z.eqb_eq|intros ->%bool_decide_eq_true_1]; done. Qed.

(** A property of the bytes and [EOF] that is checked on each of them *)
Lemma for_bytes (P : Z -> bool) : forallb P (seqZ (-1) 257) = true -> forall c, between (-1) c 255 = true -> P c = true.
Proof.
  intros H c Hc. unfold between in Hc. rewrite forallb_forall in H. apply H.
  apply list_elem_of_In, elem_of_seqZ. lia.
Qed.

Definition classes_agree (c : Z) : bool :=
  outcome_eqb (isAlphaNumeric c) (either (isAlpha c) (isDigit c)) && outcome_eqb (isAlpha c) (either (isUpperCase c) (isLowerCase c)) &&
  outcome_eqb (isGraph c) (either (isPunct c) (isAlphaNumeric c)) && outcome_eqb (isSpace c) (either (isSpace c) (isWhitespace c)) &&
  outcome_eqb (isPrintable c) (either (isGraph c) (boolean (byte_or_eof c (c =? 32)))) &&
  outcome_eqb (isHexadecimalDigit c) (either (isDigit c) (boolean (byte_or_eof c (between 65 c 70 || between 97 c 102)))).

Theorem character_classes c : classes_agree c = true.
Proof.
  destruct (between (-1) c 255) eqn:Hc.
  - revert c Hc. apply for_bytes. vm_compute. reflexivity.
  - unfold classes_agree, isAlphaNumeric, isAlpha, isDigit, isUpperCase, isLowerCase, isGraph, isPunct, isSpace, isWhitespace,
      isPrintable, isHexadecimalDigit, isalnum, isalpha, isdigit, isupper, islower, isgraph, ispunct, isspace, isblank, isprint,
      isxdigit, byte_or_eof. rewrite Hc. reflexivity.
Qed.

(** The cases of a letter are exchanged, and nothing else changes. *)
Theorem letter_cases c : -1 <= c <= 255 ->
  exists u l, toUpperCase c = Ok u /\ toLowerCase c = Ok l /\
    (isLowerCase c = Ok 1 -> toLowerCase u = Ok c /\ isUpperCase u = Ok 1 /\ l = c) /\
    (isUpperCase c = Ok 1 -> toUpperCase l = Ok c /\ isLowerCase l = Ok 1 /\ u = c) /\
    (isAlpha c = Ok 0 -> u = c /\ l = c).
Proof.
  intros Hc. unfold toUpperCase, toLowerCase, toupper, tolower, isLowerCase, isUpperCase, isAlpha, islower, isupper, isalpha, byte_or_eof.
  assert (between (-1) c 255 = true) as -> by (unfold between; lia).
  destruct (between 65 c 90) eqn:Hu, (between 97 c 122) eqn:Hl; unfold between in *; try lia; eexists _, _;
    (split; [reflexivity|]); (split; [reflexivity|]); cbn [boolean orb]; (split; [|split]); try done; intros _.
  - assert ((-1 <=? c + 32) && (c + 32 <=? 255) = true) as -> by lia.
    assert ((97 <=? c + 32) && (c + 32 <=? 122) = true) as -> by lia. repeat split; f_equal; lia.
  - assert ((-1 <=? c - 32) && (c - 32 <=? 255) = true) as -> by lia.
    assert ((65 <=? c - 32) && (c - 32 <=? 90) = true) as -> by lia. repeat split; f_equal; lia.
Qed.
End ArduinoBits.
