(* ===== verification/Volts.v ===== *)
(** * Volts and codes, src/converter.cpp and src/converter_p.h

    The analogue side of a converter: the conversion of a code to a value and
    back in double precision, averages of readings, and the text of a value as
    the tools print and read it.  Going from a code to a value and back loses at
    most one code. *)
From Stdlib Require Import Ascii SpecFloat.
From S2P Require Import Prelude Double IoDevice I2cDev Converter Max7311 Max1161x Mcp4725 Mcp4728 Text StdStream ArduinoPrint.
Import Flags.

(** ** Products of doubles

    [rel j N P N' P']: the quotient [N' / P'] is [N / P] up to [j] units of [2 ^ -53]. *)
Module Rounding.
Abbreviation U := (2 ^ 53).
Definition rel (j N P N' P' : Z) : Prop := N * P' * (U - j) <= N' * P * U <= N * P' * (U + j).

Lemma rel_scale j A B N P N' P' : 0 < A -> 0 < B -> rel j N P N' P' -> rel j (N * A) (P * B) (N' * A) (P' * B).
Proof.
  intros HA HB [H1 H2]. assert (HAB : 0 <= A * B) by nia. unfold rel.
  apply (Z.mul_le_mono_nonneg_r _ _ _ HAB) in H1, H2. split.
  - replace (N * A * (P' * B) * (U - j)) with (N * P' * (U - j) * (A * B)) by ring.
    replace (N' * A * (P * B) * U) with (N' * P * U * (A * B)) by ring. done.
  - replace (N * A * (P' * B) * (U + j)) with (N * P' * (U + j) * (A * B)) by ring.
    replace (N' * A * (P * B) * U) with (N' * P * U * (A * B)) by ring. done.
Qed.
Lemma rel_trans i j N P N1 P1 N2 P2 : 0 < N -> 0 < P -> 0 < N1 -> 0 < P1 -> 0 < N2 -> 0 < P2 -> 0 <= i <= 2 ^ 26 -> 0 <= j <= 2 ^ 26 ->
  rel i N P N1 P1 -> rel j N1 P1 N2 P2 -> rel (i + j + 1) N P N2 P2.
Proof.
  intros HN HP HN1 HP1 HN2 HP2 Hi Hj [A1 A2] [B1 B2]. assert (Hij : 0 <= i * j <= U) by nia.
  assert (HU : 0 < U) by lia. assert (HNP : 0 < N * P2) by nia.
  assert (K : 0 < N1 * P1 * U) by nia. split; apply (Z.mul_le_mono_pos_r _ _ _ K).
  - apply (Z.mul_le_mono_nonneg_r _ _ (P2 * P1 * (U - j))) in A1; [|apply Z.mul_nonneg_nonneg; nia].
    apply (Z.mul_le_mono_nonneg_r _ _ (P * P1 * U)) in B1; [|nia].
    assert (E : (U - (i + j + 1)) * U <= (U - i) * (U - j)) by lia.
    apply (Z.mul_le_mono_nonneg_l _ _ (N * P2 * (P1 * P1))) in E; [|nia].
    assert (Z1 : 0 < N1) by done. nia.
  - apply (Z.mul_le_mono_nonneg_r _ _ (P2 * P1 * (U + j))) in A2; [|apply Z.mul_nonneg_nonneg; nia].
    apply (Z.mul_le_mono_nonneg_r _ _ (P * P1 * U)) in B2; [|nia].
    assert (E : (U + i) * (U + j) <= (U + (i + j + 1)) * U) by lia.
    apply (Z.mul_le_mono_nonneg_l _ _ (N * P2 * (P1 * P1))) in E; [|nia]. nia.
Qed.
(** A record of a shift stands for the quotient and its location; shifting it by [n] places divides by [2 ^ n]. *)
Lemma record_of_loc r : shr_record_of_loc (shr_m r) (loc_of_shr_record r) = r.
Proof. by destruct r as [m [] []]. Qed.
Lemma located_iter num p : forall den r, 0 <= shr_m r -> located num den (shr_m r) (loc_of_shr_record r) ->
  let r' := SpecFloat.iter_pos shr_1 p r in shr_m r' = shr_m r / 2 ^ Z.pos p /\ located num (2 ^ Z.pos p * den) (shr_m r') (loc_of_shr_record r').
Proof.
  assert (One : forall den r, 0 <= shr_m r -> located num den (shr_m r) (loc_of_shr_record r) ->
    shr_m (shr_1 r) = shr_m r / 2 /\ located num (2 * den) (shr_m (shr_1 r)) (loc_of_shr_record (shr_1 r))).
  { intros den r H0 Hl. destruct (located_shr _ _ _ _ H0 Hl) as [E Hl']. rewrite record_of_loc in *. rewrite E. split; [done|]. by rewrite <- E in Hl' |- *. }
  assert (Add : forall (a b : Z) x, 0 <= a -> 0 <= b -> x / 2 ^ a / 2 ^ b = x / 2 ^ (a + b)).
  { intros a b x Ha Hb. rewrite Z.div_div by (try apply Z.pow_nonzero; try apply Z.pow_pos_nonneg; lia). by rewrite Z.pow_add_r by lia. }
  induction p as [p IH|p IH|]; intros den r H0 Hl; cbn [SpecFloat.iter_pos].
  - destruct (One _ _ H0 Hl) as [E1 L1]. assert (P1 : 0 <= shr_m (shr_1 r)) by (rewrite E1; apply Z.div_pos; lia).
    destruct (IH _ _ P1 L1) as [E2 L2]. assert (P2 : 0 <= shr_m (SpecFloat.iter_pos shr_1 p (shr_1 r))) by (rewrite E2; apply Z.div_pos; [done|apply Z.pow_pos_nonneg; lia]).
    destruct (IH _ _ P2 L2) as [E3 L3]. cbv zeta. change (Z.pos p~1) with (2 * Z.pos p + 1). split.
    + rewrite E3, E2, E1. change (shr_m r / 2) with (shr_m r / 2 ^ 1). rewrite !Add by lia. do 2 f_equal. lia.
    + revert L3. rewrite !Z.mul_assoc, <- Z.pow_add_r by lia. replace (2 ^ (Z.pos p + Z.pos p) * 2) with (2 ^ (2 * Z.pos p + 1)); [done|].
      rewrite Z.pow_add_r by lia. do 2 f_equal. lia.
  - destruct (IH _ _ H0 Hl) as [E2 L2]. assert (P2 : 0 <= shr_m (SpecFloat.iter_pos shr_1 p r)) by (rewrite E2; apply Z.div_pos; [done|apply Z.pow_pos_nonneg; lia]).
    destruct (IH _ _ P2 L2) as [E3 L3]. cbv zeta. change (Z.pos p~0) with (2 * Z.pos p). split.
    + rewrite E3, E2. rewrite Add by lia. do 2 f_equal. lia.
    + revert L3. rewrite !Z.mul_assoc, <- Z.pow_add_r by lia. by replace (2 * Z.pos p) with (Z.pos p + Z.pos p) by lia.
  - apply One; done.
Qed.

(** Rounding of a mantissa of [53 + k] digits. *)
Lemma round_wide q e k : 0 < k -> 2 ^ (52 + k) <= q < 2 ^ (53 + k) -> -1074 <= e -> e + k <= 950 ->
  exists M m e', 2 ^ 52 <= M <= 2 ^ 53 /\ binary_round_aux 53 1024 false q e loc_Exact = S754_finite false m e' /\ normal m /\
    e + k <= e' <= e + k + 1 /\ M = Z.pos m * 2 ^ (e' - (e + k)) /\ - 2 ^ k <= 2 * (M * 2 ^ k - q) <= 2 ^ k.
Proof.
  intros Hk Hq He1 He2. destruct q as [|p|p]; try (pose proof (Z.pow_pos_nonneg 2 (52 + k) ltac:(lia) ltac:(lia)); lia).
  destruct k as [|kp|]; try lia. set (k := Z.pos kp) in *.
  assert (Hr : located (Z.pos p) 1 (Z.pos p) loc_Exact) by (split; cbn; lia).
  destruct (located_iter (Z.pos p) kp 1 (Build_shr_record (Z.pos p) false false) ltac:(done) Hr) as [E L]. cbn [shr_m] in E. rewrite Z.mul_1_r in L. fold k in E, L.
  set (r := SpecFloat.iter_pos shr_1 kp _) in *.
  assert (Hq' : 2 ^ 52 <= shr_m r < 2 ^ 53).
  { rewrite E. split; [apply Z.div_le_lower_bound; [by apply Z.pow_pos_nonneg; lia|]|apply Z.div_lt_upper_bound; [by apply Z.pow_pos_nonneg; lia|]]; rewrite <- Z.pow_add_r by lia; replace (k + 52) with (52 + k) by lia; replace (k + 53) with (53 + k) by lia; lia. }
  pose proof (located_round _ _ _ _ L) as [HM Hb]. set (M := round_nearest_even (shr_m r) (loc_of_shr_record r)) in *.
  destruct (renormalise M (e + k)) as (m & e' & Hn & He' & HMm & Hr'); [lia..|].
  exists M, m, e'. split; [lia|]. split; [|by split_and!; try done; lia].
  unfold binary_round_aux, shr_fexp at 1, fexp, emin. cbn [Zdigits2]. rewrite (digits2_pos_unique p (53 + k)) by (try lia; replace (53 + k - 1) with (52 + k) by lia; lia).
  rewrite Z.max_l by lia. replace (53 + k + e - 53 - e) with k by lia. unfold k at 1. cbn [shr shr_record_of_loc]. fold r. fold k. fold M.
  destruct (shr_fexp 53 1024 M (e + k) loc_Exact) as [r2 e2]. destruct Hr' as [-> ->]. by destruct (Z.leb_spec e' (1024 - 53)); [|lia].
Qed.
(** A product and a quotient of doubles are exact up to one unit. *)
Lemma mul_rel lo1 lo2 x y N1 P1 N2 P2 : -500 <= lo1 -> -500 <= lo2 -> dbl_val lo1 x N1 P1 -> dbl_val lo2 y N2 P2 -> N1 * N2 < 2 ^ 50 * (P1 * P2) ->
  exists M p, 0 <= p /\ dbl_val (lo1 + lo2 + 52) (dbl_mul x y) M (2 ^ p) /\ rel 1 (N1 * N2) (P1 * P2) M (2 ^ p).
Proof.
  intros Hl1 Hl2 (m1 & e1 & -> & [Ha Hb] & He1 & HN1 & HP1 & Hv1) (m2 & e2 & -> & [Hc Hd] & He2 & HN2 & HP2 & Hv2) Hlt.
  assert (Hk : exists k, 52 <= k <= 53 /\ 2 ^ (52 + k) <= Z.pos m1 * Z.pos m2 < 2 ^ (53 + k)).
  { assert (2 ^ 52 * 2 ^ 52 <= Z.pos m1 * Z.pos m2) by (apply Z.mul_le_mono_nonneg; lia).
    assert (Z.pos m1 * Z.pos m2 < 2 ^ 53 * 2 ^ 53) by (apply Z.mul_lt_mono_nonneg; lia).
    destruct (Z.lt_ge_cases (Z.pos m1 * Z.pos m2) (2 ^ 105)); [exists 52|exists 53]; lia. }
  destruct Hk as (k & Hk & Hq). set (q := Z.pos m1 * Z.pos m2) in *.
  destruct (round_wide q (e1 + e2) k ltac:(lia) Hq ltac:(lia) ltac:(lia)) as (M & m & e' & HM & Hr & Hn & He & HMm & Hbd).
  set (T := 2 ^ k). assert (HT : 0 < T) by (apply Z.pow_pos_nonneg; lia). fold T in Hbd.
  assert (Hpq : 2 ^ 52 * T <= q) by (unfold T; rewrite <- Z.pow_add_r by lia; lia).
  assert (Hprod : q * (P1 * P2) = N1 * N2 * 2 ^ (- (e1 + e2))).
  { transitivity ((Z.pos m1 * P1) * (Z.pos m2 * P2)); [unfold q; ring|]. rewrite Hv1, Hv2. replace (- (e1 + e2)) with (- e1 + - e2) by lia. rewrite Z.pow_add_r by lia. ring. }
  assert (HPP : 0 < P1 * P2) by nia. assert (HNN : 0 < N1 * N2) by nia.
  assert (HE : e1 + e2 + k < -1).
  { assert (2 ^ (2 + k) < 2 ^ (- (e1 + e2))) as H%Z.pow_lt_mono_r_iff; [|lia..]. rewrite Z.pow_add_r by lia. fold T.
    assert (HQ : 0 < 2 ^ (- (e1 + e2))) by (apply Z.pow_pos_nonneg; lia).
    apply (Z.mul_lt_mono_pos_r _ _ _ HQ) in Hlt. apply (Z.mul_le_mono_nonneg_r _ _ (P1 * P2)) in Hpq; [|lia].
    apply (Z.mul_lt_mono_pos_r (2 ^ 50 * (P1 * P2))); lia. }
  exists M, (- (e1 + e2 + k)). split; [lia|]. split.
  - exists m, e'. unfold dbl_mul, SFmul. cbn [xorb]. rewrite Pos2Z.inj_mul. fold q. split_and!; try done; try lia.
    rewrite HMm, <- Z.mul_assoc, <- Z.pow_add_r by lia. do 2 f_equal. lia.
  - replace (- (e1 + e2)) with (- (e1 + e2 + k) + k) in Hprod by lia. rewrite Z.pow_add_r in Hprod by lia. fold T in Hprod.
    set (B := 2 ^ (- (e1 + e2 + k))) in *. unfold rel.
    assert (R : q * (U - 1) <= M * T * U <= q * (U + 1)) by lia. destruct R as [R1 R2].
    apply (Z.mul_le_mono_nonneg_r _ _ (P1 * P2)) in R1, R2; [|lia..].
    split; apply (Z.mul_le_mono_pos_r _ _ T HT); nia.
Qed.
Lemma div_rel lo x y N1 P1 N2 P2 : -300 <= lo -> dbl_val lo x N1 P1 -> dbl_val (-300) y N2 P2 -> N1 * P2 < 2 ^ 50 * (P1 * N2) ->
  exists M p, 0 <= p /\ dbl_val (lo - 53) (dbl_div x y) M (2 ^ p) /\ rel 1 (N1 * P2) (P1 * N2) M (2 ^ p).
Proof.
  intros Hlo H1 H2 Hlt. destruct (dbl_div_spec lo x y N1 P1 N2 P2 Hlo H1 H2 Hlt) as (M & p & Hp & Hv & Hb & Hl).
  exists M, p. split; [done|]. split; [done|]. unfold rel. lia.
Qed.
Lemma dbl_trunc_val lo x N P k hi : dbl_val lo x N P -> k * P <= N < (k + 1) * P -> 0 <= k < hi -> dbl_trunc (- hi) hi x = Some k.
Proof.
  intros (m & e & -> & _ & He & HN & HP & Hv) [H1 H2] Hk. unfold dbl_trunc.
  assert (HT : 0 < 2 ^ (- e)) by (apply Z.pow_pos_nonneg; lia).
  assert (Hm : k * 2 ^ (- e) <= Z.pos m < (k + 1) * 2 ^ (- e)).
  { split; [apply (Z.mul_le_mono_pos_r _ _ P)|apply (Z.mul_lt_mono_pos_r P)]; nia. }
  assert ((if 0 <=? e then Z.pos m * 2 ^ e else Z.pos m / 2 ^ (- e)) = k) as ->.
  { destruct (Z.leb_spec 0 e); [assert (e = 0) by lia; subst e; cbn in *; lia|]. symmetry. apply (Z.div_unique _ _ _ (Z.pos m - k * 2 ^ (- e))); lia. }
  cbn. by rewrite (proj2 (Z.leb_le (- hi) k)), (proj2 (Z.ltb_lt k hi)) by lia.
Qed.
End Rounding.

(** ** Doubles as text

    [std::stod] is [strtod] with the exceptions of the standard: no number is
    [invalid_argument], a result that is too great or too small is
    [out_of_range].  The number is the longest prefix that reads as one. *)
Module StdDouble.
(** The double nearest to [n / d], ties to even. *)
Definition dbl_ratio (neg : bool) (n d : Z) : double :=
  match n, d with
  | Z.pos n, Z.pos d => SFdiv 53 1024 (S754_finite neg n 0) (S754_finite false d 0)
  | _, _ => S754_zero neg
  end.
Definition digit_of (base c : Z) : option Z :=
  let d := if (48 <=? c) && (c <=? 57) then c - 48 else if (97 <=? c) && (c <=? 122) then c - 87 else if (65 <=? c) && (c <=? 90) then c - 55 else base in
  if d <? base then Some d else None.
(** Digits: their value, how many there are, and the rest. *)
Fixpoint take_base (base : Z) (s : bytes) (acc n : Z) : Z * Z * bytes :=
  match s with
  | c :: s' => match digit_of base c with Some d => take_base base s' (base * acc + d) (n + 1) | None => (acc, n, s) end
  | [] => (acc, n, [])
  end.
Definition sign (s : bytes) : bool * bytes :=
  match s with
  | c :: s' => if c =? byte_of "-" then (true, s') else if c =? byte_of "+" then (false, s') else (false, s)
  | [] => (false, [])
  end.
(** The exponent after the letter [e]: none without a digit. *)
Definition exponent (e : Z) (s : bytes) : Z :=
  match s with
  | c :: s' => if PString.tolower c =? e then
                 let '(neg, s') := sign s' in let '(x, n, _) := take_base 10 s' 0 0 in
                 if 0 <? n then if neg : bool then - x else x else 0
               else 0
  | [] => 0
  end.
(** The digits around a point, as a number and the count of those after it; [None] without a digit. *)
Definition mantissa (base : Z) (s : bytes) : option (Z * Z * bytes) :=
  let '(a, n, s1) := take_base base s 0 0 in
  let '(b, k, s2) := match s1 with
                     | c :: s' => if c =? byte_of "." then
                                    let '(b, m, s2) := take_base base s' a 0 in if 0 <? n + m then (b, m, s2) else (a, 0, s1)
                                  else (a, 0, s1)
                     | [] => (a, 0, s1)
                     end in
  if 0 <? n + k then Some (b, k, s2) else None.
Definition scaled (neg : bool) (m base x : Z) : Z * Z := if 0 <=? x then (m * base ^ x, 1) else (m, base ^ (- x)).
Definition tiny (n d : Z) (x : double) : bool :=
  (0 <? n) && (n * 2 ^ 1022 <? d) &&
  negb match x with S754_finite _ m e => Z.pos m * d =? n * 2 ^ (- e) | _ => false end.
Definition ranged (neg : bool) (q : Z * Z) : outcome double :=
  let x := dbl_ratio neg q.1 q.2 in
  match x with
  | S754_infinity _ => Throw OutOfRange
  | _ => if tiny q.1 q.2 x then Throw OutOfRange else Ok x
  end.
Definition decimal (neg : bool) (s : bytes) : outcome double :=
  match mantissa 10 s with
  | Some (m, k, s) => ranged neg (scaled neg m 10 (exponent (byte_of "e") s - k))
  | None => Throw InvalidArgument
  end.
Definition hexadecimal (neg : bool) (s : bytes) : option (outcome double) :=
  match mantissa 16 s with
  | Some (m, k, s) => Some (ranged neg (scaled neg m 2 (exponent (byte_of "p") s - 4 * k)))
  | None => None
  end.
Definition lower_starts (p : string) (s : bytes) : bool := PString.starts (text p) (PString.toLowerCase s).
Definition stod (s : bytes) : outcome double :=
  let '(neg, s) := sign (StdStream.skip_spaces s) in
  if lower_starts "inf" s then Ok (S754_infinity neg)
  else if lower_starts "nan" s then Ok S754_nan
  else match (if lower_starts "0x" s then hexadecimal neg (drop 2 s) else None) with
       | Some o => o
       | None => decimal neg s
       end.

(** [std::fixed << std::setprecision (3)]: the exact value rounded to thousandths, ties to even. *)
Definition half_even (n d : Z) : Z :=
  let q := n / d in let r := n mod d in
  if (2 * r <? d) || ((2 * r =? d) && Z.even q) then q else q + 1.
Definition thousandths (m e : Z) : Z := if 0 <=? e then 1000 * m * 2 ^ e else half_even (1000 * m) (2 ^ (- e)).
Definition three (n : Z) : bytes := [48 + n / 100 mod 10; 48 + n / 10 mod 10; 48 + n mod 10].
Definition fixed3 (x : double) : bytes :=
  let minus (neg : bool) := if neg then text "-" else [] in
  let number t := ArduinoPrint.long_text (t / 1000) ++ text "." ++ three (t mod 1000) in
  match x with
  | S754_zero neg => minus neg ++ number 0
  | S754_finite neg m e => minus neg ++ number (thousandths (Z.pos m) e)
  | S754_infinity neg => minus neg ++ text "inf"
  | S754_nan => text "nan"
  end.
(** What [fixed3] prints reads back as the double nearest to the printed thousandths. *)
Import Digits.
Lemma digit_char d : 0 <= d < 10 -> digit_of 10 (ArduinoPrint.print_char d) = Some d.
Proof. revert d. apply PString.digit_cases. repeat constructor. Qed.
Lemma take_digits_text ds rest : Forall (fun d => 0 <= d < 10) ds -> match rest with c :: _ => digit_of 10 c = None | [] => True end ->
  forall acc n, take_base 10 ((ArduinoPrint.print_char <$> ds) ++ rest) acc n = (value_from 10 acc ds, n + Z.of_nat (length ds), rest).
Proof.
  intros H Hr. induction H as [|d ds Hd _ IH]; intros acc n.
  - destruct rest as [|c rest]; cbn; [by rewrite Z.add_0_r|]. rewrite Hr. by rewrite Z.add_0_r.
  - rewrite fmap_cons. cbn [app take_base]. rewrite digit_char by done. rewrite IH. cbn [value_from length].
    rewrite Nat2Z.inj_succ, (Z.mul_comm 10 acc). do 2 f_equal. lia.
Qed.
Lemma digit_leads d : 0 <= d < 10 -> let c := ArduinoPrint.print_char d in
  StdStream.space c = false /\ (c =? byte_of "-") = false /\ (c =? byte_of "+") = false /\ PString.tolower c <> byte_of "i" /\ PString.tolower c <> byte_of "n" /\ PString.tolower c <> byte_of "x".
Proof. revert d. apply PString.digit_cases. repeat constructor; done. Qed.
Lemma number_parsed ds b : ds <> [] -> Forall (fun d => 0 <= d < 10) ds -> Forall (fun d => 0 <= d < 10) b -> length b = 3%nat -> forall neg,
  stod ((if neg : bool then text "-" else []) ++ (ArduinoPrint.print_char <$> ds) ++ text "." ++ (ArduinoPrint.print_char <$> b)) = ranged neg (value_from 10 (value 10 ds) b, 1000).
Proof.
  intros Hne Hds Hb Hl neg. set (s := (ArduinoPrint.print_char <$> ds) ++ text "." ++ (ArduinoPrint.print_char <$> b)).
  destruct ds as [|d ds]; [done|]. pose proof (Forall_inv Hds) as Hd. destruct (digit_leads d Hd) as (Hsp & Hm & Hp & Hi & Hn & _).
  assert (Hs : sign (StdStream.skip_spaces ((if neg then text "-" else []) ++ s)) = (neg, s)).
  { destruct neg; cbn [app]; unfold s; rewrite fmap_cons; cbn [app]; [done|]. cbn [StdStream.skip_spaces]. rewrite Hsp. unfold sign. by rewrite Hm, Hp. }
  assert (Hd10 : decimal neg s = ranged neg (value_from 10 (value 10 (d :: ds)) b, 1000)).
  { unfold decimal, mantissa, s. rewrite take_digits_text by done. change (text "." ++ ?l) with (46 :: l). cbv iota. change (46 =? byte_of ".") with true. cbv iota.
    rewrite <- (app_nil_r (ArduinoPrint.print_char <$> b)), take_digits_text by done. rewrite Hl. cbn [length]. rewrite (proj2 (Z.ltb_lt 0 _)) by lia. rewrite (proj2 (Z.ltb_lt 0 _)) by lia. done. }
  assert (Hh : exists x t, s = ArduinoPrint.print_char d :: x :: t /\ PString.tolower x <> byte_of "x").
  { unfold s. destruct ds as [|d' ds]; [by eexists _, _|]. do 2 eexists. split; [done|]. apply digit_leads. by inversion Hds as [|? ? _ H2]; inversion H2. }
  destruct Hh as (x & t & Hst & Hx).
  assert (Hno : lower_starts "inf" s = false /\ lower_starts "nan" s = false /\ lower_starts "0x" s = false).
  { rewrite Hst. unfold lower_starts, PString.starts. split_and!; apply bool_decide_eq_false_2; intros [=]; done. }
  unfold stod. rewrite Hs. destruct Hno as (-> & -> & ->). exact Hd10.
Qed.
Lemma fixed3_read neg m e : stod (fixed3 (S754_finite neg m e)) = ranged neg (thousandths (Z.pos m) e, 1000).
Proof.
  set (t := thousandths (Z.pos m) e). assert (Ht : 0 <= t).
  { unfold t, thousandths. destruct (Z.leb_spec 0 e); [pose proof (Z.pow_nonneg 2 e); nia|]. unfold half_even.
    assert (0 <= 1000 * Z.pos m / 2 ^ (- e)) by (apply Z.div_pos; [lia|apply Z.pow_pos_nonneg; lia]). case_match; lia. }
  cbn [fixed3]. fold t. unfold ArduinoPrint.long_text. rewrite (proj2 (Z.ltb_ge (t / 1000) 0)) by (apply Z.div_pos; lia).
  assert (H1000 : 0 <= t / 1000) by (apply Z.div_pos; lia). rewrite Z.abs_eq by done. cbn [app].
  pose proof (Z.mod_pos_bound t 1000 ltac:(lia)) as Hr. set (r := t mod 1000) in *.
  assert (H3 : three r = ArduinoPrint.print_char <$> [r / 100; r / 10 mod 10; r mod 10]).
  { unfold three. assert (Hp : forall d, 0 <= d < 10 -> 48 + d = ArduinoPrint.print_char d) by (apply PString.digit_cases; repeat constructor).
    cbn. rewrite (Z.mod_small (r / 100)) by (split; [apply Z.div_pos; lia|apply Z.div_lt_upper_bound; lia]).
    rewrite !Hp; [done|..]; try (apply Z.mod_pos_bound; lia). split; [apply Z.div_pos; lia|apply Z.div_lt_upper_bound; lia]. }
  rewrite H3. rewrite number_parsed; [|by apply digits_ne; lia|by apply digits_range; lia| |done].
  - f_equal. f_equal. rewrite digits_value by lia. cbn [value_from].
    pose proof (Z.div_mod t 1000 ltac:(lia)). fold r in H. pose proof (Z.div_mod r 10 ltac:(lia)). pose proof (Z.div_mod (r / 10) 10 ltac:(lia)).
    rewrite Z.div_div in * by lia. change (10 * 10) with 100 in *. lia.
  - repeat constructor; try (apply Z.mod_pos_bound; lia); [apply Z.div_pos; lia|apply Z.div_lt_upper_bound; lia].
Qed.
End StdDouble.

(** ** [std::stol], [std::stoul] and [std::stoull] with a base; the base 0 is told by the text *)
Module StdInt.
Import StdDouble.
Definition has_0x (s : bytes) : bool :=
  match s with
  | z :: x :: d :: _ => (z =? byte_of "0") && (PString.tolower x =? byte_of "x") && bool_decide (is_Some (digit_of 16 d))
  | _ => false
  end.
(** The sign and the magnitude; [None] without a digit. *)
Definition magnitude (base : Z) (s : bytes) : option (bool * Z) :=
  let '(neg, s) := sign (StdStream.skip_spaces s) in
  let '(base, s) := if bool_decide (base ∈ [0; 16]) && has_0x s then (16, drop 2 s)
                    else if base =? 0 then (if bool_decide (head s = Some (byte_of "0")) then 8 else 10, s) else (base, s) in
  let '(v, n, _) := take_base base s 0 0 in
  if n =? 0 then None else Some (neg, v).
Definition stol (base : Z) (s : bytes) : outcome Z :=
  match magnitude base s with
  | None => Throw InvalidArgument
  | Some (neg, v) => let v := if neg : bool then - v else v in if (- 2 ^ 63 <=? v) && (v <? 2 ^ 63) then Ok v else Throw OutOfRange
  end.
(** [unsigned long] and [unsigned long long]: a sign negates modulo the width. *)
Definition stoul (base : Z) (s : bytes) : outcome Z :=
  match magnitude base s with
  | None => Throw InvalidArgument
  | Some (neg, v) => if v <? 2 ^ 64 then Ok (if neg : bool then u64 (- v) else v) else Throw OutOfRange
  end.
End StdInt.

(** ** [Converter], the analogue part *)
Module Analog.
Import Converter.
Definition hasReferencePerChannel : Z := 0x4000.
(** The flags, the full scale of a channel, and the error state. *)
Class AnalogImpl (C : Type) : Type := {
  a_flags : C -> Z;
  fullScaleRange : C -> Z -> outcome double;
  a_setError : Z -> C -> C }.
Section Base.
Context {C : Type} {I : ConverterImpl C} {A : AnalogImpl C}.
Definition digitalToValue (s : C) (code : Z) (differential : bool) (channel : Z) : outcome double :=
  match fullScaleRange s channel with
  | Ok f => Ok (dbl_div (dbl_mul (dbl_int code) f) (dbl_int (range s)))
  | Throw e => Throw e
  end.
(** The conversion to [long] is undefined for a value that does not fit. *)
Definition valueToDigital (s : C) (value : double) (differential : bool) (channel : Z) : outcome Z :=
  match fullScaleRange s channel with
  | Ok f => match dbl_trunc (- 2 ^ 63) (2 ^ 63) (dbl_div (dbl_mul value (dbl_int (range s))) f) with
            | Some n => Ok (clampValue s n differential)
            | None => Throw UB
            end
  | Throw e => Throw e
  end.
Definition lift {B} (f : C -> outcome B) : M C B := fun s => (f s, s).
Definition readValue (channel : Z) (differential : bool) : M C double :=
  n ← readChannel channel differential; lift (fun s => digitalToValue s n differential channel).
Fixpoint sum_readings (count : nat) (channel : Z) (differential : bool) (sum : double) : M C double :=
  match count with
  | O => mret sum
  | S count => n ← readChannel channel differential; sum_readings count channel differential (dbl_add sum (dbl_int n))
  end.
Definition readAverage (channel : Z) (differential : bool) (count : Z) : M C double :=
  sum ← sum_readings (Z.to_nat count) channel differential (dbl_int 0); mret (dbl_div sum (dbl_int count)).
Definition to_long (x : double) : outcome Z := match dbl_trunc (- 2 ^ 63) (2 ^ 63) x with Some n => Ok n | None => Throw UB end.
Definition readAverageValue (channel : Z) (differential : bool) (count : Z) : M C double :=
  x ← readAverage channel differential count;
  lift (fun s => match to_long x with Ok n => digitalToValue s n differential channel | Throw e => Throw e end).
Definition writeValue (value : double) (channel : Z) (differential : bool) : M C bool := fun s =>
  if test (a_flags s) hasReferencePerChannel && (channel <? 0) then (Ok false, a_setError 22 s)
  else (n ← lift (fun s => valueToDigital s value differential channel); writeChannel n channel differential) s.
End Base.

(** A full scale that is a normal double between [2 ^ -47] and [2 ^ 11]. *)
Definition full_scale (f : double) : Prop := exists m e, f = S754_finite false m e /\ normal m /\ -99 <= e <= -42.

Section Roundtrip.
Context {C : Type} {I : ConverterImpl C} {A : AnalogImpl C}.
Import Rounding.
Ltac pos := repeat apply Z.mul_pos_pos; lia.
Lemma full_scale_val f : full_scale f -> exists N P, dbl_val (-100) f N P /\ N < 2 ^ 11 * P /\ P < 2 ^ 48 * N.
Proof.
  intros (m & e & -> & [Hm1 Hm2] & He). exists (Z.pos m), (2 ^ (- e)). pose proof (Z.pow_pos_nonneg 2 (- e) ltac:(lia) ltac:(lia)).
  pose proof (Z.pow_le_mono_r 2 42 (- e) ltac:(lia) ltac:(lia)). pose proof (Z.pow_le_mono_r 2 (- e) 99 ltac:(lia) ltac:(lia)). split; [|lia].
  exists m, e. split_and!; done || lia.
Qed.
Lemma rel_twice j N P N' P' : 0 <= j <= 7 -> 0 < N * P' -> rel j N P N' P' -> N' * P <= 2 * (N * P').
Proof. intros Hj HN [_ H]. apply (Z.mul_le_mono_pos_r _ _ U); nia. Qed.
Lemma val_pos lo x N P : dbl_val lo x N P -> 0 < N /\ 0 < P.
Proof. by intros (m & e & _ & _ & _ & ? & ? & _). Qed.
Lemma val_lo lo lo' x N P : lo' <= lo -> dbl_val lo x N P -> dbl_val lo' x N P.
Proof. intros Hl (m & e & ? & ? & ? & ?). exists m, e. split_and!; naive_solver lia. Qed.

(** A code to a value: three units; and back: seven. *)
Lemma there c f r N P : 1 <= c < 2 ^ 24 -> 1 <= r <= 2 ^ 24 -> dbl_val (-100) f N P -> N < 2 ^ 11 * P ->
  exists M p, 0 <= p /\ dbl_val (-153) (dbl_div (dbl_mul (dbl_int c) f) (dbl_int r)) M (2 ^ p) /\ rel 3 (c * N) (P * r) M (2 ^ p).
Proof.
  intros Hc Hr Hf HNP. destruct (val_pos _ _ _ _ Hf) as [HN HP]. assert (HcN : c * N < 2 ^ 35 * P) by nia.
  destruct (mul_rel (-52) (-100) _ _ c 1 N P ltac:(lia) ltac:(lia) (dbl_int_val c ltac:(lia)) Hf) as (M1 & p1 & Hp1 & V1 & R1); [nia|].
  destruct (val_pos _ _ _ _ V1) as [HM1 HB1]. rewrite Z.mul_1_l in R1.
  assert (T1 : M1 * P <= 2 * (c * N * 2 ^ p1)) by (apply (rel_twice 1); [lia|nia|done]).
  destruct (div_rel (-100) _ _ M1 (2 ^ p1) r 1 ltac:(lia) V1 (val_lo (-52) (-300) _ _ _ ltac:(lia) (dbl_int_val r ltac:(lia)))) as (M2 & p2 & Hp2 & V2 & R2).
  { rewrite Z.mul_1_r. apply (Z.mul_lt_mono_pos_r P); [done|]. apply (Z.mul_lt_mono_pos_r (2 ^ p1)) in HcN; [|done].
    assert (2 ^ p1 * P * 1 <= 2 ^ p1 * P * r) by (apply Z.mul_le_mono_nonneg_l; lia). lia. }
  exists M2, p2. split; [done|]. split; [done|]. rewrite Z.mul_1_r in R2. destruct (val_pos _ _ _ _ V2) as [HM2 HB2].
  pose proof (rel_scale 1 1 r _ _ _ _ ltac:(lia) ltac:(lia) R1) as R1'. rewrite !Z.mul_1_r in R1'.
  apply (rel_trans 1 1 _ _ M1 (2 ^ p1 * r)); done || pos.
Qed.
Lemma there_and_back c f r : 1 <= c < r -> r <= 2 ^ 24 -> full_scale f -> exists k,
  dbl_trunc (- 2 ^ 63) (2 ^ 63) (dbl_div (dbl_mul (dbl_div (dbl_mul (dbl_int c) f) (dbl_int r)) (dbl_int r)) f) = Some k /\ c - 1 <= k <= c.
Proof.
  intros Hc Hr Hf. destruct (full_scale_val f Hf) as (N & P & Vf & HNP & HPN). destruct (val_pos _ _ _ _ Vf) as [HN HP].
  destruct (there c f r N P ltac:(lia) ltac:(lia) Vf HNP) as (M2 & p2 & Hp2 & V2 & R2). destruct (val_pos _ _ _ _ V2) as [HM2 HB2].
  assert (HcN : 0 < c * N) by nia. assert (HcP : c * N < 2 ^ 35 * P) by nia. assert (T2 : M2 * (P * r) <= 2 * (c * N * 2 ^ p2)) by (apply (rel_twice 3); [lia|nia|done]).
  destruct (mul_rel (-153) (-52) _ _ M2 (2 ^ p2) r 1 ltac:(lia) ltac:(lia) V2 (dbl_int_val r ltac:(lia))) as (M3 & p3 & Hp3 & V3 & R3).
  { rewrite Z.mul_1_r. apply (Z.mul_lt_mono_pos_r P); [done|]. apply (Z.mul_lt_mono_pos_r (2 ^ p2)) in HcP; [|done]. lia. }
  destruct (val_pos _ _ _ _ V3) as [HM3 HB3]. rewrite Z.mul_1_r in R3.
  pose proof (rel_scale 3 r 1 _ _ _ _ ltac:(lia) ltac:(lia) R2) as R2'. rewrite !Z.mul_1_r in R2'.
  assert (R3' : rel 5 (c * N * r) (P * r) M3 (2 ^ p3)) by (apply (rel_trans 3 1 _ _ (M2 * r) (2 ^ p2)); done || pos).
  assert (T3 : M3 * (P * r) <= 2 * (c * N * r * 2 ^ p3)) by (apply (rel_twice 5); [lia|pos|done]).
  assert (T3' : M3 * P <= 2 * (c * N * 2 ^ p3)) by (apply (Z.mul_le_mono_pos_r _ _ r); lia).
  destruct (div_rel (-153) _ _ M3 (2 ^ p3) N P ltac:(lia) V3 (val_lo (-100) (-300) _ _ _ ltac:(lia) Vf)) as (M4 & p4 & Hp4 & V4 & R4).
  { assert (c * (N * 2 ^ p3) <= 2 ^ 24 * (N * 2 ^ p3)) by (apply Z.mul_le_mono_nonneg_r; nia). nia. }
  destruct (val_pos _ _ _ _ V4) as [HM4 HB4].
  pose proof (rel_scale 5 P N _ _ _ _ ltac:(lia) ltac:(lia) R3') as R3''.
  assert (HX : 0 < P * r * N) by pos.
  assert (R : rel 7 (c * (P * r * N)) (P * r * N) M4 (2 ^ p4)).
  { replace (c * (P * r * N)) with (c * N * r * P) by ring. apply (rel_trans 5 1 _ _ (M3 * P) (2 ^ p3 * N)); done || pos. }
  set (B := 2 ^ p4) in *. set (X := P * r * N) in *. clearbody X. destruct R as [L1 L2].
  assert (Hl : c * B * (U - 7) <= M4 * U) by (apply (Z.mul_le_mono_pos_r _ _ X); lia).
  assert (Hu : M4 * U <= c * B * (U + 7)) by (apply (Z.mul_le_mono_pos_r _ _ X); lia).
  assert (HcB : c * B < 2 ^ 24 * B) by nia.
  destruct (Z.lt_ge_cases M4 (c * B)); [exists (c - 1)|exists c]; (split; [|lia]); eapply dbl_trunc_val; try exact V4; lia || nia.
Qed.
(** C21: turning a code of a unipolar converter into a value and back gives the code or the one below
    it, for every full scale that is a normal double of 2^-47 or more and less than 2^11 and every range from
    2 to 2^24: the four rounded operations never lose more than the fraction that the conversion to
    an integer drops. *)
Theorem volts_roundtrip (s : C) f code channel : fullScaleRange s channel = Ok f -> full_scale f -> isBipolar s = false ->
  2 <= range s <= 2 ^ 24 -> 0 <= code < range s ->
  exists v code', digitalToValue s code false channel = Ok v /\ valueToDigital s v false channel = Ok code' /\ code - 1 <= code' <= code /\ 0 <= code'.
Proof.
  intros Hf Hfs Hb Hr Hc. unfold digitalToValue, valueToDigital. rewrite Hf.
  assert (H : exists k, dbl_trunc (- 2 ^ 63) (2 ^ 63) (dbl_div (dbl_mul (dbl_div (dbl_mul (dbl_int code) f) (dbl_int (range s))) (dbl_int (range s))) f) = Some k /\ code - 1 <= k <= code /\ 0 <= k).
  { destruct (decide (code = 0)) as [->|Hne].
    2: { assert (H1 : 1 <= code < range s) by lia. destruct (there_and_back code f (range s) H1 (proj2 Hr) Hfs) as (k & Hk & Hk'). exists k. split; [done|lia]. }
    exists 0. split; [|lia]. destruct Hfs as (m & e & -> & _). assert (H1 : 0 < range s < 2 ^ 53) by lia. destruct (dbl_int_val _ H1) as (m' & e' & -> & _). done. }
  destruct H as (k & Hk & Hle & H0). do 2 eexists. split; [done|]. rewrite Hk. split; [done|].
  unfold clampValue, min, max. rewrite Hb. cbn [andb]. rewrite (proj2 (Z.ltb_ge k 0)), (proj2 (Z.ltb_ge (range s - 1) k)) by lia. lia.
Qed.
End Roundtrip.

(** ** The converters of the library *)
#[export] Instance mcp4725_analog {K : Kernel} : AnalogImpl Mcp4725.mcp4725 := {|
  a_flags _ := 0x1014;
  fullScaleRange d _ := Ok (Mcp4725.fsr d);
  a_setError e d := Mcp4725.set_conv (IoDevice.setError_code e (Mcp4725.conv d)) d |}.
#[export] Instance mcp4728_analog {K : Kernel} : AnalogImpl Mcp4728.mcp4728 := {|
  a_flags _ := 0x5096;
  fullScaleRange d ch := (Mcp4728.fullScaleRange ch d).1;
  a_setError e d := Mcp4728.set_conv (IoDevice.setError_code e (Mcp4728.conv d)) d |}.
#[export] Instance max1161x_analog {K : Kernel} : AnalogImpl Max1161x.max1161x := {|
  a_flags _ := 0xA9E;
  fullScaleRange d _ := Ok (Max1161x.fsr d);
  a_setError e d := Max1161x.set_conv (IoDevice.setError_code e (Max1161x.conv d)) d |}.
#[export] Instance max7311_analog {K : Kernel} : AnalogImpl Max7311.max7311 := {|
  a_flags _ := 0x3014;
  fullScaleRange _ _ := Ok (dbl_lit 33 10);
  a_setError e d := Max7311.set_conv (IoDevice.setError_code e (Max7311.conv d)) d |}.

Module Demo.
#[local] Existing Instance Mcp4725.mcp4725_impl.
Abbreviation dac := Mcp4725.demo_dev.
Lemma full_scale_33 : full_scale (dbl_lit 33 10).
Proof. eexists _, _. split; [vm_compute; reflexivity|]. split; [split; vm_compute; congruence|lia]. Qed.
Lemma volts_roundtrip_witness : exists v code', digitalToValue dac 1000 false 0 = Ok v /\ valueToDigital dac v false 0 = Ok code' /\ 1000 - 1 <= code' <= 1000 /\ 0 <= code'.
Proof. apply (volts_roundtrip dac (dbl_lit 33 10) 1000 0); [vm_compute; reflexivity|exact full_scale_33|reflexivity|cbn; lia|cbn; lia]. Defined.
(** The code below is what comes back for 26 of the first 256 codes at the default full scale: 3, for
    one, is written as 2. *)
Definition back (code : Z) : Z :=
  match digitalToValue dac code false 0 with
  | Ok v => match valueToDigital dac v false 0 with Ok n => n | Throw _ => -1 end
  | Throw _ => -1
  end.
Lemma code_lost : back 3 = 2 /\ length (filter (fun c => back c = c - 1) (seqZ 0 256)) = 26%nat.
Proof. split; vm_compute; reflexivity. Qed.
(** A failed reading as a value is not the value the tools compare it with. *)
Lemma invalid_value_hidden : exists v, digitalToValue dac InvalidValue false 0 = Ok v /\ SFeqb v (dbl_int InvalidValue) = false.
Proof. eexists. split; [reflexivity|]. vm_compute. reflexivity. Qed.
End Demo.
End Analog.

(** ** The constructors on a parameter string *)
Module FromParams.
Import Params.
Section Devices.
Context {K : Kernel}.
Abbreviation params := (gmap str str).
Definition find_param (k : string) (m : params) : option str := m !! str_of k.
Definition is_text (s : str) (t : string) : bool := bool_decide (s = str_of t).
(** [fsr=value]: a value for which the test fails is replaced by the default. *)
Definition param_fsr (m : params) (good : double -> bool) (dflt : double) : outcome double :=
  match find_param "fsr" m with
  | None => Ok dflt
  | Some s => match StdDouble.stod (byte_of <$> s) with
              | Ok f => Ok (if good f then f else dflt)
              | Throw e => Throw e
              end
  end.
Definition bind {A B} (o : outcome A) (f : A -> outcome B) : outcome B := match o with Ok a => f a | Throw e => Throw e end.
Definition on_bus (bus : option Z) (w : I2cDev.world) : I2cDev.world := match bus with Some id => (I2cDev.setBus id w).2 | None => w end.
Definition zero : double := dbl_int 0.
Definition nonzero (f : double) : bool := negb (SFeqb f zero).

(** [Mcp4725], with [w] the master on the default bus *)
Definition mcp4725_mode (m : params) (mode : Z) : Z * bool :=
  match find_param "mode" m with
  | None => (mode, false)
  | Some s =>
      if is_text s "fast" then (Z.lor mode Converter.FastMode, true)
      else if is_text s "eeprom" then (Z.lor mode Converter.SaveToEEPROM, true)
      else if is_text s "pd1k" then (Z.lor mode Converter.PwrDwnR1, true)
      else if is_text s "pd100k" then (Z.lor mode Converter.PwrDwnR2, true)
      else if is_text s "pd500k" then (Z.lor mode Converter.PwrDwnR3, true)
      else (mode, is_text s "norm")
  end.
Definition mcp4725_params (w : I2cDev.world) (p : str) : outcome Mcp4725.mcp4725 :=
  let m := (parseParameters (split p ":"%char false)).1 in
  bind (Max7311.int_param m "bus" 0) (fun bus =>
  bind (Max7311.int_param m "addr" 0x60) (fun addr =>
  bind (param_fsr m (dbl_ltb zero) (dbl_lit 33 10)) (fun f =>
  let '(mode, byUser) := mcp4725_mode m (Z.lor Converter.NormalMode Converter.AnalogOutput) in
  Ok (Mcp4725.set_mode mode byUser (Mcp4725.set_fsr f (Mcp4725.new (on_bus bus w) (default Mcp4725.DefaultAddress addr))))))).

(** [Mcp4728] *)
Definition mcp4728_params (w : I2cDev.world) (p : str) : outcome Mcp4728.mcp4728 :=
  let m := (parseParameters (split p ":"%char false)).1 in
  bind (Max7311.int_param m "bus" 0) (fun bus =>
  bind (Max7311.int_param m "addr" 0x60) (fun addr =>
  bind (Mcp4728.param_gain m Mcp4728.DefaultMode) (fun _ =>
  bind (param_fsr m (fun _ => true) zero) (fun f =>
  bind (Mcp4728.param_channel m f) (fun c =>
  Ok (Mcp4728.set_chan (replicate 4 c) (Mcp4728.new (on_bus bus w) (default 0x60 addr)))))))).

(** [Max1161x]; [junk_id] and [junk_fsr] are the members no initialiser sets *)
Definition references : list (string * Z) :=
  [("int", Max1161x.InternalReference); ("ext", Max1161x.ExternalReference); ("vdd", Max1161x.VddReference); ("default", Max1161x.DefaultReference);
   ("int1", Max1161x.Internal1Reference); ("int2", Max1161x.Internal2Reference); ("int3", Max1161x.Internal3Reference); ("int4", Max1161x.Internal4Reference)]%string.
Definition param_ref (m : params) : Z :=
  match find_param "ref" m with
  | Some s => match list_find (fun x => s = str_of x.1) references with Some (_, (_, id)) => id | None => Max1161x.DefaultReference end
  | None => Max1161x.DefaultReference
  end.
Definition max1161x_params (w : I2cDev.world) (p : str) (junk_id : Z) (junk_fsr : double) : outcome Max1161x.max1161x :=
  let m := (parseParameters (split p ":"%char false)).1 in
  bind (Max7311.int_param m "bus" 0) (fun bus =>
  bind (Max7311.int_param m "max" 15) (fun id =>
  bind (param_fsr m nonzero zero) (fun f =>
  let w := on_bus bus w in
  let '(o, d) := Max1161x.setReference (param_ref m) f
    (Max1161x.mk_max1161x IoDevice.new w (Max1161x.setId (I2cDev.bus (I2cDev.i2c w)) (default 15 id)) junk_id junk_fsr false false Max1161x.InternalClock) in
  bind o (fun _ =>
  let d := match find_param "bipolar" m with Some s => if is_text s "true" || is_text s "1" then Max1161x.set_bipolar true d else d | None => d end in
  Ok match find_param "clk" m with Some s => if is_text s "ext" then Max1161x.set_clk Max1161x.ExternalClock d else d | None => d end)))).
(** A DAC made from parameters has a positive full scale; an ADC with an external reference and no
    value for it keeps what was in memory. *)
Lemma mcp4725_full_scale w p d : mcp4725_params w p = Ok d -> dbl_ltb zero (Mcp4725.fsr d) = true.
Proof.
  unfold mcp4725_params, bind. repeat (case_match; try done). intros [= <-]. cbn.
  match goal with H : param_fsr _ _ _ = Ok _ |- _ => revert H end. unfold param_fsr.
  destruct (find_param _ _) as [t|]; [destruct (StdDouble.stod _) as [f|]; [|done]|]; intros [= <-]; [|vm_compute; reflexivity].
  destruct (dbl_ltb zero f) eqn:E; [done|vm_compute; reflexivity].
Qed.
Lemma max1161x_external_junk w j f : exists d, max1161x_params w (str_of "ref=ext") j f = Ok d /\ Max1161x.fsr d = f /\ Max1161x.referenceId d = j.
Proof. eexists. split; [reflexivity|]. done. Qed.
End Devices.
End FromParams.
