(* ===== verification/PidoConv.v ===== *)
(** * The tool pido: exceptions, options and the converter commands

    utils/pido/exception.cpp, and of utils/pido/main.cpp the globals, the options
    that [getopt] of the C library finds, and the commands that act on a converter made by the factory.  The rest of
    the program is in Pido.v; here the GPIO is left open as a part [X] of the
    state.  A command may raise the tool's own exceptions or the standard ones. *)
From Stdlib Require Import Ascii SpecFloat.
From S2P Require Import Prelude Double IoDevice I2cDev Converter Max7311 Text ArduinoPrint StdStream Clock GpioPin Connector Volts.
Import Flags.

Module Pido.
Import PString ArduinoPrint Analog.
#[local] Existing Instance Converter.ctype_eq_dec.

(** ** [Exception] *)
Inductive Code : Type :=
  | CommandExpected | UnknownCommand | ArgumentExpected | BadArguments | IllegalMode | PinNumberExpected | BadPinNumber
  | NotBinaryValue | NotPwmValue | NotOutputPin | NotPwmPin | PwmOpenError | PwmWriteError | ConverterUnknown
  | ConverterOpenError | ConverterWriteError | ConverterReadError | ConverterModeError | ConverterPullError.
Record Exception : Type := mk_exception { _code : Code; _msg : bytes }.
(** The constructor on a value; the case of an output pin falls through to the next one. *)
Definition not_pwm (value : Z) : bytes := text "Pin #" ++ long_text value ++ text " is not an pwm output".
Definition exception_value (code : Code) (value : Z) : Exception := mk_exception code
  match code with
  | CommandExpected => text "Command expected"
  | ArgumentExpected => text "Arguments expected"
  | BadArguments => text "Bad arguments"
  | PinNumberExpected => text "Pin number expected"
  | NotBinaryValue => long_text value ++ text " is not a binary value"
  | NotPwmValue => long_text value ++ text " is not a pwm value"
  | NotOutputPin => text "Pin #" ++ long_text value ++ text " is not an output" ++ not_pwm value
  | NotPwmPin => not_pwm value
  | PwmOpenError => text "Unable to open pwm Pin #" ++ long_text value
  | PwmWriteError => text "Unable to write on pwm Pin #" ++ long_text value
  | _ => []
  end.
(** The constructor on a text *)
Definition exception_text (code : Code) (param : bytes) : Exception := mk_exception code
  (match code with
   | UnknownCommand => text "Invalid operation: "
   | IllegalMode => text "Illegal mode: "
   | BadPinNumber => text "Invalid pin number: "
   | ConverterUnknown => text "Unknown converter: "
   | ConverterOpenError => text "Unable to open converter: "
   | ConverterWriteError => text "Unable to write on converter: "
   | ConverterReadError => text "Unable to read from converter: "
   | ConverterModeError => text "Unable to set/get mode on converter: "
   | ConverterPullError => text "Unable to set/get pull on converter: "
   | _ => []
   end ++ param).

(** ** [getopt (argc, argv, "gs1Dhfvwxmadc:p:")]

    The GNU function: options may stand between the operands, which keep their
    order; a word [--] ends the options.  [Bad] is the answer for a letter that
    is no option or whose argument is missing. *)
Inductive opt : Type := Opt (c : Z) (arg : bytes) | Bad.
Definition flag_letters : bytes := text "gs1Dhfvwxmad".
Definition arg_letters : bytes := text "cp".
(** The letters of one word: the options, and the letter that wants the next word. *)
Fixpoint letters (cs : bytes) : list opt * option Z :=
  match cs with
  | [] => ([], None)
  | c :: cs =>
      if bool_decide (c ∈ flag_letters) then let '(os, n) := letters cs in (Opt c [] :: os, n)
      else if bool_decide (c ∈ arg_letters) then match cs with [] => ([], Some c) | _ => ([Opt c cs], None) end
      else ([Bad], None)
  end.
Definition option_word (w : bytes) : bool := match w with c :: _ :: _ => c =? byte_of "-" | _ => false end.
Fixpoint getopt (args : list bytes) : list opt * list bytes :=
  match args with
  | [] => ([], [])
  | w :: rest =>
      if bool_decide (w = text "--") then ([], rest)
      else if option_word w then
        let '(os, next) := letters (tail w) in
        match next, rest with
        | None, _ => let '(os', ps) := getopt rest in (os ++ os', ps)
        | Some c, [] => (os ++ [Bad], [])
        | Some c, a :: rest => let '(os', ps) := getopt rest in (os ++ Opt c a :: os', ps)
        end
      else let '(os, ps) := getopt rest in (os, w :: ps)
  end.

(** ** The globals *)
Inductive Format : Type := FormatDecimal | FormatHexadecimal | FormatBinary | FormatAnalogValue.
#[export] Instance Format_eq_dec : EqDecision Format.
Proof. solve_decision. Defined.
Record globals : Type := mk_globals {
  numbering : GpioPin.numbering; pinnumber : Z; connector : Z; physicalNumbering : bool; debug : bool; forceGpioDev : bool;
  convFormat : Format; isAverage : bool; isDifferential : bool; converterStr : bytes; blinkDelay : Z; extendedMode : bool }.
Definition globals0 : globals := mk_globals GpioPin.NumberingLogical (-1) (-1) false false false FormatDecimal false false [] 1000 false.
Definition set_numbering (n : GpioPin.numbering) (g : globals) : globals :=
  mk_globals n (pinnumber g) (connector g) (physicalNumbering g) (debug g) (forceGpioDev g) (convFormat g) (isAverage g) (isDifferential g) (converterStr g) (blinkDelay g) (extendedMode g).
Definition set_pinnumber (n : Z) (g : globals) : globals :=
  mk_globals (numbering g) n (connector g) (physicalNumbering g) (debug g) (forceGpioDev g) (convFormat g) (isAverage g) (isDifferential g) (converterStr g) (blinkDelay g) (extendedMode g).
Definition set_connector (n : Z) (g : globals) : globals :=
  mk_globals (numbering g) (pinnumber g) n (physicalNumbering g) (debug g) (forceGpioDev g) (convFormat g) (isAverage g) (isDifferential g) (converterStr g) (blinkDelay g) (extendedMode g).
Definition set_physical (b : bool) (g : globals) : globals :=
  mk_globals (numbering g) (pinnumber g) (connector g) b (debug g) (forceGpioDev g) (convFormat g) (isAverage g) (isDifferential g) (converterStr g) (blinkDelay g) (extendedMode g).
Definition set_debug (b : bool) (g : globals) : globals :=
  mk_globals (numbering g) (pinnumber g) (connector g) (physicalNumbering g) b (forceGpioDev g) (convFormat g) (isAverage g) (isDifferential g) (converterStr g) (blinkDelay g) (extendedMode g).
Definition set_force (b : bool) (g : globals) : globals :=
  mk_globals (numbering g) (pinnumber g) (connector g) (physicalNumbering g) (debug g) b (convFormat g) (isAverage g) (isDifferential g) (converterStr g) (blinkDelay g) (extendedMode g).
Definition set_format (f : Format) (g : globals) : globals :=
  mk_globals (numbering g) (pinnumber g) (connector g) (physicalNumbering g) (debug g) (forceGpioDev g) f (isAverage g) (isDifferential g) (converterStr g) (blinkDelay g) (extendedMode g).
Definition set_average (b : bool) (g : globals) : globals :=
  mk_globals (numbering g) (pinnumber g) (connector g) (physicalNumbering g) (debug g) (forceGpioDev g) (convFormat g) b (isDifferential g) (converterStr g) (blinkDelay g) (extendedMode g).
Definition set_differential (b : bool) (g : globals) : globals :=
  mk_globals (numbering g) (pinnumber g) (connector g) (physicalNumbering g) (debug g) (forceGpioDev g) (convFormat g) (isAverage g) b (converterStr g) (blinkDelay g) (extendedMode g).
Definition set_converter (s : bytes) (g : globals) : globals :=
  mk_globals (numbering g) (pinnumber g) (connector g) (physicalNumbering g) (debug g) (forceGpioDev g) (convFormat g) (isAverage g) (isDifferential g) s (blinkDelay g) (extendedMode g).
Definition set_blink (n : Z) (g : globals) : globals :=
  mk_globals (numbering g) (pinnumber g) (connector g) (physicalNumbering g) (debug g) (forceGpioDev g) (convFormat g) (isAverage g) (isDifferential g) (converterStr g) n (extendedMode g).
Definition set_extended (b : bool) (g : globals) : globals :=
  mk_globals (numbering g) (pinnumber g) (connector g) (physicalNumbering g) (debug g) (forceGpioDev g) (convFormat g) (isAverage g) (isDifferential g) (converterStr g) (blinkDelay g) b.

(** ** Options: the loop of [main] *)
Inductive page : Type := Usage | Version | Warranty.
Inductive progress : Type := Continue (g : globals) | Exit (code : Z) (p : option page) | Raised (e : exn).
Definition stoi (s : bytes) : outcome Z := Params.stoi (chr <$> s).
Definition set_option (o : opt) (g : globals) : progress :=
  match o with
  | Bad => Exit 1 None
  | Opt c arg =>
      if c =? byte_of "g" then Continue (set_numbering GpioPin.NumberingMcu g)
      else if c =? byte_of "s" then Continue (set_numbering GpioPin.NumberingSystem g)
      else if c =? byte_of "1" then Continue (set_physical true g)
      else if c =? byte_of "D" then Continue (set_debug true g)
      else if c =? byte_of "f" then Continue (set_force true g)
      else if c =? byte_of "h" then Exit 0 (Some Usage)
      else if c =? byte_of "v" then Exit 0 (Some Version)
      else if c =? byte_of "w" then Exit 0 (Some Warranty)
      else if c =? byte_of "x" then Continue (set_format FormatHexadecimal g)
      else if c =? byte_of "m" then Continue (set_format FormatAnalogValue g)
      else if c =? byte_of "a" then Continue (set_average true g)
      else if c =? byte_of "d" then Continue (set_differential true g)
      else if c =? byte_of "c" then Continue (set_converter arg g)
      else if c =? byte_of "p" then
        match stoi arg with Ok n => Continue (set_blink (if n <? 2 then 2 else n) g) | Throw e => Raised e end
      else Exit 1 None
  end.
Fixpoint set_options (os : list opt) (g : globals) : progress :=
  match os with
  | [] => Continue g
  | o :: os => match set_option o g with Continue g => set_options os g | r => r end
  end.

(** ** Commands

    [sig] counts the loads of [should_exit] that are still to answer false, and
    is [None] when no signal comes; [slept] lists the delays, in milliseconds. *)
Inductive perr : Type := PidoErr (e : Exception) | StdErr (e : exn).
Inductive res (A : Type) : Type := Ret (a : A) | Err (e : perr).
Arguments Ret {A} a.
Arguments Err {A} e.
Record st (X C : Type) : Type := mk_st { gl : globals; io : X; conv : option C; out : bytes; slept : list Z; sig : option nat }.
Arguments mk_st {X C}.
Arguments gl {X C}.
Arguments io {X C}.
Arguments conv {X C}.
Arguments out {X C}.
Arguments slept {X C}.
Arguments sig {X C}.
Definition cmd (X C A : Type) : Type := st X C -> res A * st X C.
#[export] Instance cmd_ret X C : MRet (cmd X C) := fun A a s => (Ret a, s).
#[export] Instance cmd_bind X C : MBind (cmd X C) := fun A B k m s => match m s with (Ret a, s) => k a s | (Err e, s) => (Err e, s) end.
Section Cmd.
Context {X C : Type}.
Abbreviation S := (st X C).
Definition set_gl (g : globals) (s : S) : S := mk_st g (io s) (conv s) (out s) (slept s) (sig s).
Definition set_io (x : X) (s : S) : S := mk_st (gl s) x (conv s) (out s) (slept s) (sig s).
Definition set_conv (c : option C) (s : S) : S := mk_st (gl s) (io s) c (out s) (slept s) (sig s).
Definition set_out (o : bytes) (s : S) : S := mk_st (gl s) (io s) (conv s) o (slept s) (sig s).
Definition set_sig (n : option nat) (s : S) : S := mk_st (gl s) (io s) (conv s) (out s) (slept s) n.
Definition raise {A} (e : Exception) : cmd X C A := fun s => (Err (PidoErr e), s).
Definition of_outcome {A} (o : outcome A) : cmd X C A := fun s => match o with Ok a => (Ret a, s) | Throw e => (Err (StdErr e), s) end.
Definition global {A} (f : globals -> A) : cmd X C A := fun s => (Ret (f (gl s)), s).
Definition set_global (f : globals -> globals) : cmd X C unit := fun s => (Ret tt, set_gl (f (gl s)) s).
Definition print (t : bytes) : cmd X C unit := fun s => (Ret tt, set_out (out s ++ t) s).
Definition println (t : bytes) : cmd X C unit := print (t ++ [10]).
Definition when (b : bool) (m : cmd X C unit) : cmd X C unit := if b then m else mret tt.
(** [should_exit.load ()] and [clk.delay (ms)] *)
Definition load : cmd X C bool := fun s =>
  match sig s with Some 0%nat => (Ret true, s) | Some (Datatypes.S n) => (Ret false, set_sig (Some n) s) | None => (Ret false, s) end.
Definition sleep (ms : Z) : cmd X C unit := fun s => (Ret tt, mk_st (gl s) (io s) (conv s) (out s) (slept s ++ [ms]) (sig s)).
(** [while (!should_exit.load ()) body] *)
Fixpoint until_signal (fuel : nat) (body : cmd X C unit) : cmd X C unit :=
  match fuel with
  | O => of_outcome (Throw OutOfFuel)
  | Datatypes.S fuel => stop ← load; if stop : bool then mret tt else body;; until_signal fuel body
  end.
Definition abort_hint : bytes := text "Press Ctrl+C to abort ...".
Lemma cmd_bind_ret {A B} (m : cmd X C A) (k : A -> cmd X C B) s a s' : m s = (Ret a, s') -> (m ≫= k) s = k a s'.
Proof. intros H. unfold mbind, cmd_bind. by rewrite H. Qed.
Lemma cmd_bind_err {A B} (m : cmd X C A) (k : A -> cmd X C B) s e s' : m s = (Err e, s') -> (m ≫= k) s = (Err e, s').
Proof. intros H. unfold mbind, cmd_bind. by rewrite H. Qed.
End Cmd.

(** ** The hexadecimal output *)
Definition hex_text (v : Z) : bytes := print_char <$> Digits.digits 16 (u64 v).
Definition pad (width : Z) (t : bytes) : bytes := replicate (Z.to_nat width - length t) 48 ++ t.
(** The number of digits for a converter of [r] bits; [size_t] arithmetic. *)
Definition hex_width (hasResolution : bool) (r : Z) : Z :=
  if hasResolution then
    let w := u64 (Z.quot r 4) in if (w <? 1) || (u64 (w * 4) <? u64 r) then u64 (w + 1) else w
  else 16.

(** ** The converter commands *)
Definition hasResolution : Z := 0x4.
Definition requiresWaitLoop : Z := 0x400.
Definition hasModeSetting : Z := 0x1000.
Definition hasToggle : Z := 0x2000.
(** The rest of what the tool calls of a converter *)
Class ToolImpl (C : Type) : Type := { deviceName : C -> bytes; t_setEnable : bool -> M C unit; t_resolution : C -> Z }.

Section Converters.
Context {X C : Type} {I : Converter.ConverterImpl C} {A : AnalogImpl C} {T : ToolImpl C}.
(** The registered converters; a constructor may throw.  The patience for loops that wait for a signal. *)
Context (registry : gmap Params.str (Params.registryKey (outcome C))) (fuel : nat).
Abbreviation command := (cmd X C unit).

(** A call through the pointer, which is undefined when it is null. *)
Definition on_conv {B} (m : M C B) : cmd X C B := fun s =>
  match conv s with
  | None => (Err (StdErr UB), s)
  | Some c => match m c with (Ok b, c) => (Ret b, set_conv (Some c) s) | (Throw e, c) => (Err (StdErr e), set_conv (Some c) s) end
  end.
Definition of_conv {B} (f : C -> B) : cmd X C B := on_conv (gets f).
(** [std::unique_ptr<Converter> conv (Converter::factory (converterStr))], closed when the command is left. *)
Definition make : command := fun s =>
  match Params.factory registry (chr <$> converterStr (gl s)) [] with
  | None => (Ret tt, set_conv None s)
  | Some (Ok c) => (Ret tt, set_conv (Some c) s)
  | Some (Throw e) => (Err (StdErr e), s)
  end.
Definition destroy (s : st X C) : st X C :=
  match conv s with Some c => set_conv (Some (Converter.close c).2) s | None => s end.
Definition with_conv (body : command) : command := fun s =>
  match make s with
  | (Ret _, s) => let '(r, s) := body s in (r, destroy s)
  | (Err e, s) => (Err e, s)
  end.
Definition conv_error (code : Code) : command := n ← of_conv deviceName; raise (exception_text code n).
Definition check (code : Code) (m : M C bool) : command := ok ← on_conv m; if ok : bool then mret tt else conv_error code.
(** [setDebug], [open] and [setEnable] *)
Definition open_conv : command :=
  of_conv (fun _ => tt);; check ConverterOpenError (Converter.open IoDevice.ReadWrite);; on_conv (t_setEnable true).
Definition wait_signal : command := println abort_hint;; until_signal fuel (sleep 100).

Definition analog : cmd X C bool := f ← global convFormat; mret (bool_decide (f = FormatAnalogValue)).
Definition value_of (analog : bool) (s : bytes) : outcome double :=
  if analog then StdDouble.stod s else match StdInt.stol 0 s with Ok n => Ok (dbl_int n) | Throw e => Throw e end.
Definition cwrite (ps : list bytes) : command :=
  match ps with
  | [] => raise (exception_value ArgumentExpected 0)
  | a :: rest => with_conv (
      chan ← match rest with [] => mret (-2) | _ => of_outcome (stoi a) end;
      an ← analog;
      value ← of_outcome (value_of an (match rest with [] => a | b :: _ => b end));
      let chan := if an && (chan =? -2) then -1 else chan in
      open_conv;;
      d ← global isDifferential;
      (if -1 <=? chan then
         if an : bool then check ConverterWriteError (writeValue value chan d)
         else n ← of_outcome (to_long value); check ConverterWriteError (Converter.writeChannel n chan d)
       else n ← of_outcome (to_long value); check ConverterWriteError (Converter.write n));;
      fl ← of_conv a_flags;
      when (test fl requiresWaitLoop) wait_signal)
  end.

Definition read_code (chan : Z) : cmd X C Z :=
  d ← global isDifferential;
  if 0 <=? chan then
    avg ← global isAverage;
    if avg : bool then x ← on_conv (readAverage chan d 8); of_outcome (to_long x)
    else on_conv (Converter.readChannel chan d)
  else ext ← global extendedMode; when ext (set_global (set_format FormatHexadecimal));; on_conv Converter.read.
Definition print_code (value : Z) : command :=
  f ← global convFormat;
  if bool_decide (f = FormatHexadecimal) then
    fl ← of_conv a_flags; r ← of_conv t_resolution;
    println (text "0x" ++ pad (hex_width (test fl hasResolution) r) (hex_text value))
  else println (long_text value).
Definition read_value (chan : Z) : cmd X C double :=
  d ← global isDifferential; avg ← global isAverage;
  if avg : bool then on_conv (readAverageValue chan d 8) else on_conv (readValue chan d).
Definition cread (ps : list bytes) : command := with_conv (
  chan ← match ps with [] => mret (-1) | p :: _ => of_outcome (stoi p) end;
  d ← global isDifferential; avg ← global isAverage; an ← analog;
  let chan := if (d || avg || an) && (chan <? 0) then 0 else chan in
  open_conv;;
  if negb an then
    value ← read_code chan;
    if value =? Converter.InvalidValue then conv_error ConverterReadError else print_code value
  else
    value ← read_value chan;
    if SFeqb value (dbl_int Converter.InvalidValue) then conv_error ConverterReadError else println (StdDouble.fixed3 value)).

(** The names of the flags of a mode, in the order of the flags. *)
Definition flag_names : list (Z * string) := foldl (fun m x => OrdMap.put x.1 x.2 m) [] Converter.modeFlagToStringMap.
Definition mode_text (m : Z) (t : Converter.ctype) : bytes :=
  if m =? 0 then text (if bool_decide (t = Converter.GpioExpander) then "off" else "normal")
  else flag_names ≫= fun x => if test m x.1 then text x.2 ++ text " " else [].
Definition add_flag (m : Z) (w : bytes) : Z :=
  match list_find (fun x => text x.1 = w) Converter.stringToModeFlagMap with Some (_, (_, f)) => Z.lor m f | None => m end.
Definition mode_error : command := c ← global converterStr; raise (exception_text ConverterModeError c).
Definition cmode (ps : list bytes) : command :=
  match ps with
  | [] => raise (exception_value ArgumentExpected 0)
  | a :: rest => with_conv (
      fl ← of_conv a_flags;
      if test fl hasModeSetting then
        let chan := match stoi a with Ok n => n | Throw _ => -1 end in
        open_conv;;
        m ← (if 0 <=? chan then on_conv (Converter.v_mode chan) else mret Converter.NoMode);
        match (if 0 <=? chan then rest else ps) with
        | [] => t ← of_conv Converter.c_type; println (mode_text m t)
        | ws => ok ← on_conv (Converter.v_setMode (foldl add_flag m ws) chan); if ok : bool then mret tt else mode_error
        end
      else mode_error)
  end.

(** [conv->type () != GpioExpander || ...] *)
Definition expander (body : command) : command :=
  t ← of_conv Converter.c_type;
  fl ← (if bool_decide (t = Converter.GpioExpander) then of_conv a_flags else mret 0);
  if test fl hasToggle then body else c ← global converterStr; raise (exception_text ConverterUnknown c).
Definition chan_param (ps : list bytes) : cmd X C Z := match ps with [] => mret (-1) | p :: _ => of_outcome (stoi p) end.
Definition ctoggle (ps : list bytes) : command := with_conv (expander (
  chan ← chan_param ps; open_conv;; check ConverterWriteError (Converter.toggle chan))).
Definition cblink (ps : list bytes) : command := with_conv (expander (
  chan ← chan_param ps;
  open_conv;;
  m ← (if 0 <=? chan then on_conv (Converter.v_mode chan) else mret Converter.NoMode);
  check ConverterModeError (Converter.v_setMode Converter.DigitalOutput chan);;
  set_global (fun g => set_blink (Z.quot (blinkDelay g) 2 - 1) g);;
  println abort_hint;;
  until_signal fuel (check ConverterWriteError (Converter.toggle chan);; ms ← global blinkDelay; sleep ms);;
  if 0 <=? chan then
    check ConverterWriteError (Converter.writeChannel 0 chan false);; check ConverterModeError (Converter.v_setMode m chan)
  else check ConverterWriteError (Converter.write 0))).

(** [converters]: the columns of the table *)
Definition column (w : nat) (t : bytes) : bytes := t ++ replicate (w - length t) 32.
Definition converters (infos : list (bytes * bytes * bytes)) : command :=
  println (column 20 (text "Name") ++ column 10 (text "Type") ++ column 50 (text "Parameters"));;
  println (replicate 80 45);;
  foldr (fun '(n, t, p) k => println (column 20 n ++ column 10 t ++ column 50 p);; k) (mret tt) infos.
End Converters.

(** The hexadecimal text of a reading of a converter of [r] bits has as many digits as are needed for [r]
    bits and reads as the value. *)
Lemma hex_width_enough r : 1 <= r < 2 ^ 60 -> r <= 4 * hex_width true r < r + 4.
Proof.
  intros Hr. unfold hex_width. rewrite Z.quot_div_nonneg by lia. pose proof (Z.div_mod r 4 ltac:(lia)) as Hd. pose proof (Z.mod_pos_bound r 4 ltac:(lia)) as Hm.
  set (w := r / 4) in *. rewrite (u64_small w), (u64_small (w * 4)), (u64_small r), (u64_small (w + 1)) by lia. cbv zeta.
  destruct (Z.ltb_spec w 1), (Z.ltb_spec (w * 4) r); cbn; lia.
Qed.
Lemma hex_digits_fit k : forall v, 0 <= v < 16 ^ (Z.of_nat k + 1) -> (length (Digits.digits 16 v) <= k + 1)%nat.
Proof.
  induction k as [|k IH]; intros v Hv; rewrite Digits.digits_step by lia; rewrite length_app; cbn [length].
  - rewrite (proj2 (Z.eqb_eq (v / 16) 0)) by (apply Z.div_small; lia). cbn. lia.
  - assert (Hq : (length (Digits.digits 16 (v / 16)) <= k + 1)%nat).
    { apply IH. split; [apply Z.div_pos; lia|]. apply Z.div_lt_upper_bound; [lia|]. replace (Z.of_nat (S k) + 1) with (1 + (Z.of_nat k + 1)) in Hv by lia.
      rewrite Z.pow_add_r in Hv by lia. lia. }
    case_match; cbn [length]; lia.
Qed.
Lemma hex_output r v : 1 <= r <= 64 -> 0 <= v < 2 ^ r -> exists ds, pad (hex_width true r) (hex_text v) = print_char <$> ds /\
  Z.of_nat (length ds) = hex_width true r /\ Digits.value 16 ds = v.
Proof.
  intros Hr Hv. pose proof (hex_width_enough r ltac:(lia)) as Hw. set (w := hex_width true r) in *.
  assert (Hv' : 0 <= v < 16 ^ w) by (change 16 with (2 ^ 4); rewrite <- Z.pow_mul_r by lia; pose proof (Z.pow_le_mono_r 2 r (4 * w)); lia).
  assert (Hl : (length (Digits.digits 16 v) <= Z.to_nat w)%nat).
  { replace (Z.to_nat w) with ((Z.to_nat w - 1) + 1)%nat by lia. apply hex_digits_fit. replace (Z.of_nat (Z.to_nat w - 1) + 1) with w by lia. done. }
  exists (replicate (Z.to_nat w - length (Digits.digits 16 v)) 0 ++ Digits.digits 16 v). unfold pad, hex_text.
  rewrite u64_small by (pose proof (Z.pow_le_mono_r 2 r 64); lia). rewrite length_fmap, fmap_app, fmap_replicate. split; [done|].
  rewrite length_app, length_replicate. split; [lia|]. unfold Digits.value. rewrite Digits.value_from_app.
  assert (H0 : forall n, Digits.value_from 16 0 (replicate n 0) = 0) by (induction n; done). rewrite H0. apply Digits.digits_value; lia.
Qed.

(** ** Command lines *)
Inductive item : Type := Operand (w : bytes) | Letters (cs : bytes) | Joined (c : Z) (arg : bytes) | Spaced (c : Z) (arg : bytes).
Definition render (i : item) : list bytes :=
  match i with
  | Operand w => [w]
  | Letters cs => [byte_of "-" :: cs]
  | Joined c arg => [byte_of "-" :: c :: arg]
  | Spaced c arg => [[byte_of "-"; c]; arg]
  end.
Definition item_ok (i : item) : Prop :=
  match i with
  | Operand w => option_word w = false
  | Letters cs => cs <> [] /\ Forall (fun c => c ∈ flag_letters) cs
  | Joined c arg => c ∈ arg_letters /\ arg <> []
  | Spaced c _ => c ∈ arg_letters
  end.
Definition item_opts (i : item) : list opt :=
  match i with Operand _ => [] | Letters cs => (fun c => Opt c []) <$> cs | Joined c arg | Spaced c arg => [Opt c arg] end.
Definition item_operands (i : item) : list bytes := match i with Operand w => [w] | _ => [] end.
Lemma letters_flags cs : Forall (fun c => c ∈ flag_letters) cs -> letters cs = ((fun c => Opt c []) <$> cs, None).
Proof. induction 1 as [|c cs Hc _ IH]; [done|]. cbn [letters]. by rewrite bool_decide_eq_true_2, IH. Qed.
Lemma arg_not_flag c : c ∈ arg_letters -> bool_decide (c ∈ flag_letters) = false /\ bool_decide (c ∈ arg_letters) = true /\ c <> byte_of "-".
Proof. intros H. repeat (apply elem_of_cons in H as [->|H]; [by vm_compute|]). by apply elem_of_nil in H. Qed.
Lemma dashes_word w : option_word w = false -> bool_decide (w = text "--") = false.
Proof. intros H. apply bool_decide_eq_false_2. by intros ->. Qed.
Lemma dash_letter c cs : c <> byte_of "-" -> bool_decide (byte_of "-" :: c :: cs = text "--") = false /\ option_word (byte_of "-" :: c :: cs) = true.
Proof. intros H. split; [|done]. apply bool_decide_eq_false_2. by intros [= -> _]. Qed.
Lemma getopt_item i rest : item_ok i -> getopt (render i ++ rest) = (item_opts i ++ (getopt rest).1, item_operands i ++ (getopt rest).2).
Proof.
  destruct i as [w|cs|c arg|c arg]; cbn [item_ok render item_opts item_operands app].
  - intros H. cbn [getopt]. rewrite dashes_word, H by done. by destruct (getopt rest).
  - intros [Hne Hcs]. destruct cs as [|c cs]; [done|]. assert (Hc : c <> byte_of "-") by (apply Forall_inv in Hcs; apply (bool_decide_eq_true_2 (c ∈ flag_letters)) in Hcs; by intros ->).
    destruct (dash_letter c cs Hc) as [H1 H2]. cbn [getopt]. rewrite H1, H2. cbn [tail]. rewrite letters_flags by done. by destruct (getopt rest).
  - intros [Hc Hne]. destruct (arg_not_flag c Hc) as (Hf & Ha & Hd). destruct (dash_letter c arg Hd) as [H1 H2]. cbn [getopt]. rewrite H1, H2. cbn [tail letters].
    rewrite Hf, Ha. destruct arg; [done|]. by destruct (getopt rest).
  - intros Hc. destruct (arg_not_flag c Hc) as (Hf & Ha & Hd). destruct (dash_letter c [] Hd) as [H1 H2]. cbn [getopt]. rewrite H1, H2. cbn [tail letters]. rewrite Hf, Ha. by destruct (getopt rest).
Qed.

(** a command line is taken apart exactly: whatever order its options and operands are in, letters
    joined or apart, arguments joined or in the next word, the options come out in their order with their
    arguments and the operands in theirs. *)
Theorem pido_getopt_exact (l : list item) : Forall item_ok l -> getopt (l ≫= render) = (l ≫= item_opts, l ≫= item_operands).
Proof. induction 1 as [|i l Hi _ IH]; [done|]. rewrite !bind_cons, getopt_item, IH by done. done. Qed.
Lemma pido_getopt_exact_witness :
  getopt [text "-gD"; text "write"; text "3"; text "-p20"; text "1"; text "-c"; text "max7311"] =
  ([Opt 103 []; Opt 68 []; Opt 112 (text "20"); Opt 99 (text "max7311")], [text "write"; text "3"; text "1"]).
Proof.
  apply (pido_getopt_exact [Letters (text "gD"); Operand (text "write"); Operand (text "3"); Joined 112 (text "20"); Operand (text "1"); Spaced 99 (text "max7311")]).
  repeat constructor; try done; vm_compute; set_solver.
Defined.
(** A negative number among the operands is taken for options: -1 selects the physical numbering, -5 ends the program. *)
Lemma negative_operand : getopt [text "write"; text "3"; text "-1"] = ([Opt 49 []], [text "write"; text "3"]) /\
  (getopt [text "cwrite"; text "0"; text "-5"]).1 = [Bad].
Proof. done. Qed.
(** The message for a pin that is no output is two messages. *)
Lemma not_output_message : _msg (exception_value NotOutputPin 7) = text "Pin #7 is not an outputPin #7 is not an pwm output".
Proof. vm_compute. reflexivity. Qed.

End Pido.

(** ** The commands on the expander of Max7311.v *)
Module PidoExpander.
Import PString Analog Max7311 Pido.
Section Expander.
Context {X : Type} {K : Kernel} {KOK : KernelOk K} {a : Z} {Ch : Max7311Chip K a}.
#[export] Instance max7311_tool : ToolImpl max7311 := {| deviceName _ := text "max7311"; t_setEnable _ := mret tt; t_resolution _ := 16 |}.
Context (registry : gmap Params.str (Params.registryKey (outcome max7311))) (fuel : nat).
Abbreviation S := (st X max7311).
(** The factory makes the driver [d], which can be opened: the bus is [w1] then. *)
Definition plugged (s : S) (d : max7311) (w1 : I2cDev.world) : Prop :=
  Params.factory registry (chr <$> converterStr (gl s)) [] = Some (Ok d) /\ IoDevice.isOpen (Max7311.conv d) = false /\
  I2cDev.open IoDevice.ReadWrite (i2c d) = (Ok true, w1) /\ wf (a := a) (set_i2c w1 d).
Definition direction (w : I2cDev.world) (c : Z) : bool := Z.testbit (chip_reg (I2cDev.kernel w) (bankReg Config + c / 8)) (c mod 8).

Lemma open_conv_ok (s : S) d w1 : conv s = Some d -> IoDevice.isOpen (Max7311.conv d) = false -> I2cDev.open IoDevice.ReadWrite (i2c d) = (Ok true, w1) -> wf (a := a) (set_i2c w1 d) ->
  exists d', open_conv s = (Ret tt, set_conv (Some d') s) /\ wf (a := a) d' /\ IoDevice.openMode (Max7311.conv d') = IoDevice.ReadWrite /\
    out_synced d' /\ forall r, 2 <= r -> chip d' r = chip_reg (I2cDev.kernel w1) r.
Proof.
  intros Hc Ho Hb Hw. destruct (open_chip d _ w1 Hw Hb) as (d' & H1 & Hw' & Hsync & _ & Hm & _ & Hchip). exists d'.
  split; [|done]. unfold open_conv, check, of_conv, on_conv, mbind, cmd_bind. rewrite Hc. cbn. unfold Converter.open. cbn. rewrite Ho. cbn. by rewrite H1.
Qed.
Lemma add_flag_keeps m w i : Z.testbit m i = true -> Z.testbit (add_flag m w) i = true.
Proof. intros H. unfold add_flag. destruct (list_find _ _) as [[? [? f]]|]; [|done]. by rewrite Z.lor_spec, H. Qed.
Lemma flags_keep ws i : forall m, Z.testbit m i = true -> Z.testbit (foldl add_flag m ws) i = true.
Proof. induction ws as [|w ws IH]; intros m H; [done|]. by apply IH, add_flag_keeps. Qed.
Lemma flags_in ws : text "in" ∈ ws -> forall m, Z.testbit (foldl add_flag m ws) 0 = true.
Proof.
  induction ws as [|w ws IH]; [by intros ?%elem_of_nil|]. intros H m. cbn [foldl]. apply elem_of_cons in H as [<-|H]; [|by apply IH].
  apply flags_keep. change (add_flag m (text "in")) with (Z.lor m 1). by rewrite Z.lor_spec, orb_true_r.
Qed.
Lemma test_bit m f i : 0 <= i -> Z.testbit m i = true -> Z.testbit f i = true -> test m f = true.
Proof.
  intros Hi Hm Hf. unfold test, to_bool. apply negb_true_iff, Z.eqb_neq. intros H. apply (f_equal (fun z => Z.testbit z i)) in H.
  by rewrite Z.land_spec, Hm, Hf, Z.bits_0 in H.
Qed.
(** A mode with the pull-up, or with both directions, is refused; one with the output flag and no other
    direction is one of the two output modes or refused. *)
Lemma setMode_refuses m c d : Z.testbit m 4 = true \/ Z.testbit m 0 = true /\ Z.testbit m 1 = true -> setMode m c d = (Ok false, d).
Proof.
  intros H. unfold setMode. destruct (test m _) eqn:E; [done|]. destruct H as [H|[H0 H1]].
  - by rewrite (test_bit m _ 4 ltac:(lia) H) in E.
  - by rewrite (test_bit m Converter.DigitalOutput 1), (test_bit m Converter.DigitalInput 0) by done.
Qed.
Lemma output_mode m c d : Z.testbit m 1 = true -> Z.testbit m 0 = false -> setMode m c d = (Ok false, d) \/ m = mode_in false (Z.testbit m 6).
Proof.
  intros H1 H0. unfold setMode. destruct (test m _) eqn:E; [by left|right]. unfold test, to_bool in E. apply negb_false_iff, Z.eqb_eq in E.
  apply Z.bits_inj'. intros i Hi. apply (f_equal (fun z => Z.testbit z i)) in E. rewrite Z.land_spec, Z.lnot_spec, Z.bits_0 in E by done.
  unfold mode_in. rewrite Z.lor_spec. change (Z.lor (Z.lor Converter.DigitalOutput Converter.DigitalInput) Converter.ActiveLow) with 67 in E.
  change Converter.DigitalOutput with (2 ^ 1). rewrite Z.pow2_bits_eqb by lia.
  assert (H6 : Z.testbit (if Z.testbit m 6 then Converter.ActiveLow else 0) i = (6 =? i) && Z.testbit m 6).
  { destruct (Z.testbit m 6); [change Converter.ActiveLow with (2 ^ 6); rewrite Z.pow2_bits_eqb by lia; by rewrite andb_true_r|by rewrite Z.bits_0, andb_false_r]. }
  rewrite H6. destruct (Z.eqb_spec 1 i) as [<-|]; [by rewrite H1|]. destruct (Z.eqb_spec 6 i) as [<-|]; [done|]. destruct (decide (i = 0)) as [->|]; [by rewrite H0|].
  assert (Z.testbit 67 i = false) as Hb; [|rewrite Hb in E; cbn in E; by rewrite andb_true_r in E].
  change 67 with (Z.lor (2 ^ 0) (Z.lor (2 ^ 1) (2 ^ 6))). rewrite !Z.lor_spec, !Z.pow2_bits_eqb by lia.
  destruct (Z.eqb_spec 0 i), (Z.eqb_spec 1 i), (Z.eqb_spec 6 i); done || lia.
Qed.

Lemma direction_bit d w1 c : (forall r, 2 <= r -> chip d r = chip_reg (a := a) (I2cDev.kernel w1) r) -> 0 <= c < 16 -> bit_of d Config c = direction w1 c.
Proof. intros H Hc. unfold bit_of, direction. rewrite H; [done|]. cbn. pose proof (Z.div_pos c 8). lia. Qed.
Lemma destroy_conv (s : S) d : conv s = Some d -> exists d', conv (destroy s) = Some d' /\ (forall r, chip (a := a) d' r = chip d r) /\ gl (destroy s) = gl s.
Proof. intros H. unfold destroy. rewrite H. eexists. split; [done|]. split; [|done]. intros r. cbn. unfold Converter.close. by destruct (IoDevice.isOpen _). Qed.
Lemma on_conv_ok {B} (m : M max7311 B) (s : S) d b d' : conv s = Some d -> m d = (Ok b, d') -> on_conv m s = (Ret b, set_conv (Some d') s).
Proof. intros Hc Hm. unfold on_conv. by rewrite Hc, Hm. Qed.

(** The part of [cmode] after the converter is open. *)
Definition mode_body (c : Z) (ws : list bytes) : cmd X max7311 unit :=
  m ← on_conv (Converter.v_mode c);
  match ws with
  | [] => t ← of_conv Converter.c_type; println (mode_text m t)
  | w :: ws => ok ← on_conv (Converter.v_setMode (foldl add_flag m (w :: ws)) c); if ok : bool then mret tt else mode_error
  end.
Definition refused (s : S) : res unit := Err (PidoErr (exception_text ConverterModeError (converterStr (gl s)))).
Lemma mode_body_keeps (s : S) d c ws : conv s = Some d -> wf (a := a) d -> 0 <= c < 16 -> exists r s' d', mode_body c ws s = (r, s') /\ conv s' = Some d' /\
  (forall c', 0 <= c' < 16 -> bit_of (a := a) d' Config c' = bit_of d Config c') /\ gl s' = gl s /\
  (bit_of d Config c = true /\ ws <> [] \/ text "in" ∈ ws -> r = refused s).
Proof.
  intros Hc Hw Hr. destruct (mode_chip d c Hw Hr) as (d1 & H1 & Hw1 & Hs1 & _).
  assert (Hb : forall c', 0 <= c' < 16 -> bit_of (a := a) d1 Config c' = bit_of d Config c').
  { intros c' Hc'. unfold bit_of. rewrite Hs1; [done|]. cbn. pose proof (Z.div_pos c' 8). lia. }
  unfold mode_body. rewrite (cmd_bind_ret _ _ _ _ _ (on_conv_ok _ _ _ _ _ Hc H1)).
  set (m := mode_of _ _). destruct ws as [|w ws].
  { do 3 eexists. split; [done|]. split; [done|]. split; [done|]. split; [done|]. intros [[_ ?]|?%elem_of_nil]; done. }
  set (all := foldl add_flag m (w :: ws)).
  assert (Refuse : setMode all c d1 = (Ok false, d1) -> (ok ← on_conv (Converter.v_setMode all c); if ok : bool then mret tt else mode_error) (set_conv (Some d1) s) = (refused s, set_conv (Some d1) s)).
  { intros H. rewrite (cmd_bind_ret _ _ _ _ _ (on_conv_ok (setMode all c) (set_conv (Some d1) s) d1 _ _ eq_refl H)). done. }
  destruct (bit_of d Config c) eqn:Hin.
  - rewrite Refuse; [by do 3 eexists|]. apply setMode_refuses. left. apply flags_keep. subst m. by destruct (bit_of d Polarity c).
  - assert (Hm1 : Z.testbit all 1 = true) by (apply flags_keep; subst m; by destruct (bit_of d Polarity c)).
    destruct (Z.testbit all 0) eqn:H0.
    { rewrite Refuse; [by do 3 eexists|]. apply setMode_refuses. by right. }
    assert (Hnot : ~ (false = true /\ w :: ws <> [] \/ text "in" ∈ w :: ws)) by (intros [[? _]|Hi]; [done|]; pose proof (flags_in _ Hi m) as H; fold all in H; congruence).
    destruct (output_mode all c d1 Hm1 H0) as [H|H]; [rewrite (Refuse H); by do 3 eexists|].
    destruct (setMode_chip d1 c false (Z.testbit all 6) Hw1 Hr) as (d2 & H2 & _ & _ & Hbits & _). rewrite <- H in H2.
    rewrite (cmd_bind_ret _ _ _ _ _ (on_conv_ok (setMode all c) (set_conv (Some d1) s) d1 _ _ eq_refl H2)). do 3 eexists. split; [done|]. split; [done|]. split; [|done].
    intros c' Hc'. rewrite (proj1 (Hbits c' Hc')), Hb by done. by destruct (Z.eqb_spec c' c) as [->|].
Qed.

(** the tool cannot turn a channel of the expander round: whatever words follow the channel, the
    directions of all channels are what they were.  The words for the other direction end in an error: the
    tool adds them to the mode it has read, whose flags [setMode] does not accept. *)
Theorem pido_mode_keeps_direction (s : S) d w1 arg c ws : plugged s d w1 -> stoi arg = Ok c -> 0 <= c < 16 ->
  exists r s' d', cmode registry (arg :: ws) s = (r, s') /\ conv s' = Some d' /\
    (forall c', 0 <= c' < 16 -> bit_of (a := a) d' Config c' = direction w1 c') /\
    (direction w1 c = true /\ ws <> [] \/ text "in" ∈ ws -> r = Err (PidoErr (exception_text ConverterModeError (converterStr (gl s))))).
Proof.
  intros (Hf & Ho & Hb & Hw) Ha Hc. destruct (open_conv_ok (set_conv (Some d) s) d w1 eq_refl Ho Hb Hw) as (d1 & H1 & Hw1 & _ & _ & Hchip).
  destruct (mode_body_keeps (set_conv (Some d1) s) d1 c ws eq_refl Hw1 Hc) as (r & s2 & d2 & H2 & Hc2 & Hbits & Hg & Hr).
  destruct (destroy_conv s2 d2 Hc2) as (d3 & Hd3 & Hch3 & _).
  exists r, (destroy s2), d3. split; [|split; [done|split]].
  - unfold cmode, with_conv, make. rewrite Hf. rewrite (cmd_bind_ret (of_conv a_flags) _ _ 0x3014 (set_conv (Some d) s)) by done.
    change (test 0x3014 hasModeSetting) with true. cbv iota. rewrite Ha. rewrite (cmd_bind_ret _ _ _ _ _ H1). rewrite (proj2 (Z.leb_le 0 c)) by lia.
    change (set_conv (Some d1) (set_conv (Some d) s)) with (set_conv (Some d1) s). cbv iota. unfold mode_body in H2. by rewrite H2.
  - intros c' Hc'. unfold bit_of. rewrite Hch3. fold (bit_of d2 Config c'). rewrite Hbits by done. by apply direction_bit.
  - intros H. apply Hr. by rewrite (direction_bit d1 w1 c Hchip Hc).
Qed.

(** Blinking *)
Definition usable (d : max7311) : Prop := wf (a := a) d /\ IoDevice.openMode (Max7311.conv d) = IoDevice.ReadWrite.
Lemma usable_kept d d' : usable d -> wf (a := a) d' -> kept_conv d d' -> usable d'.
Proof. intros [_ Hm] Hw (Hc & _). split; [done|]. by rewrite Hc. Qed.
Lemma toggle_pub d c : usable d -> 0 <= c < 16 -> exists d', Converter.toggle c d = (Ok true, d') /\ usable d' /\ forall r, 4 <= r -> chip (a := a) d' r = chip d r.
Proof.
  intros Hu Hc. destruct (toggle_chip d c (proj1 Hu) Hc) as (d' & H & Hw & Hk & _ & Hch). exists d'. split; [|split; [by eapply usable_kept|done]].
  unfold Converter.toggle. cbn [Converter.c_dev Converter.c_type max7311_impl]. by rewrite (proj2 Hu).
Qed.
Lemma writeChannel_pub d c : usable d -> 0 <= c < 16 -> exists d', Converter.writeChannel 0 c false d = (Ok true, d') /\ usable d' /\ forall r, 4 <= r -> chip (a := a) d' r = chip d r.
Proof.
  intros Hu Hc. destruct (channel_index c Hc) as (Hi & Hi1 & Hb & Hb1 & Hsh).
  destruct (upd_write d Output (c / 8) (fun x => u8 (Z.land x (Z.lnot (2 ^ (c mod 8))))) (proj1 Hu) ltac:(done) Hi1) as (x & d' & _ & H & Hw & Hk & _ & Hch); [intros; apply u8_bound|].
  exists d'. split; [|split; [by eapply usable_kept|]].
  - unfold Converter.writeChannel. cbn [Converter.c_dev max7311_impl]. rewrite (proj2 Hu). change (Converter.clampValue d 0 false) with 0.
    cbn [Converter.v_writeChannel max7311_impl]. change (test IoDevice.ReadWrite IoDevice.WriteOnly) with true. cbv iota.
    unfold writeChannel. rewrite Hi, Hb, Hsh. rewrite (proj2 (Z.leb_le (c / 8) 1)) by lia. exact H.
  - intros r Hr. rewrite Hch by lia. destruct (Z.eqb_spec r (bankReg Output + c / 8)); [cbn in *; lia|done].
Qed.
Lemma check_ok code (m : M max7311 bool) (s : S) d d' : conv s = Some d -> m d = (Ok true, d') -> check code m s = (Ret tt, set_conv (Some d') s).
Proof. intros Hc Hm. unfold check. by rewrite (cmd_bind_ret _ _ _ _ _ (on_conv_ok m s d _ _ Hc Hm)). Qed.
Lemma blink_loop c n : 0 <= c < 16 -> forall fuel (s : S) d, (n < fuel)%nat -> conv s = Some d -> usable d -> sig s = Some n ->
  exists d', until_signal fuel (check ConverterWriteError (Converter.toggle c);; ms ← global blinkDelay; sleep ms) s =
    (Ret tt, mk_st (gl s) (io s) (Some d') (out s) (slept s ++ replicate n (blinkDelay (gl s))) (Some 0%nat)) /\ usable d' /\ forall r, 4 <= r -> chip (a := a) d' r = chip d r.
Proof.
  intros Hc. induction n as [|n IH]; intros [|f] s d Hf Hcv Hu Hs; try lia; cbn [until_signal].
  - rewrite (cmd_bind_ret load _ _ true s) by (unfold load; by rewrite Hs). exists d. cbn. rewrite app_nil_r. split; [|done]. destruct s; cbn in *; by subst.
  - rewrite (cmd_bind_ret load _ _ false (set_sig (Some n) s)) by (unfold load; by rewrite Hs). cbv iota.
    destruct (toggle_pub d c Hu Hc) as (d1 & H1 & Hu1 & Hch1).
    destruct (IH f (mk_st (gl s) (io s) (Some d1) (out s) (slept s ++ [blinkDelay (gl s)]) (Some n)) d1 ltac:(lia) eq_refl Hu1 eq_refl) as (d2 & H2 & Hu2 & Hch2).
    exists d2. split; [|split; [done|intros r Hr; by rewrite Hch2, Hch1]].
    match goal with |- ((?b) ;; _) _ = _ => rewrite (cmd_bind_ret b _ _ tt (mk_st (gl s) (io s) (Some d1) (out s) (slept s ++ [blinkDelay (gl s)]) (Some n))) end.
    + rewrite H2. cbn. by rewrite <- app_assoc.
    + rewrite (cmd_bind_ret _ _ _ _ _ (check_ok _ _ (set_sig (Some n) s) d d1 Hcv H1)). done.
Qed.

(** blinking a channel that was an input ends in an error and leaves it an output: the mode that was
    read has the flag of the pull-up, which [setMode] does not accept.  Before that, the channel was
    toggled once for every time the signal was asked for, and the program stops at the signal. *)
Theorem pido_blink_leaves_output (s : S) d w1 arg c n : plugged s d w1 -> stoi arg = Ok c -> 0 <= c < 16 -> direction w1 c = true ->
  sig s = Some n -> (n < fuel)%nat ->
  exists s' d', cblink registry fuel [arg] s = (Err (PidoErr (exception_text ConverterModeError (text "max7311"))), s') /\ conv s' = Some d' /\
    bit_of (a := a) d' Config c = false /\ slept s' = slept s ++ replicate n (Z.quot (blinkDelay (gl s)) 2 - 1).
Proof.
  intros (Hf & Ho & Hb & Hw) Ha Hc Hin Hs Hn. destruct (open_conv_ok (set_conv (Some d) s) d w1 eq_refl Ho Hb Hw) as (d1 & H1 & Hw1 & Hm1 & _ & Hchip).
  destruct (mode_chip d1 c Hw1 Hc) as (d2 & H2 & Hw2 & Hs2 & Hk2). assert (Hu2 : usable d2) by (by apply (usable_kept d1); [split|..]).
  destruct (setMode_chip d2 c false false Hw2 Hc) as (d3 & H3 & Hw3 & Hk3 & Hbits & _). assert (Hu3 : usable d3) by (by apply (usable_kept d2)).
  set (g := set_blink (Z.quot (blinkDelay (gl s)) 2 - 1) (gl s)).
  set (s3 := mk_st g (io s) (Some d3) (out s ++ abort_hint ++ [10]) (slept s) (sig s)).
  destruct (blink_loop c n Hc fuel s3 d3 Hn eq_refl Hu3 Hs) as (d4 & H4 & Hu4 & Hch4). destruct (writeChannel_pub d4 c Hu4 Hc) as (d5 & H5 & Hu5 & Hch5).
  set (s4 := mk_st g (io s) (Some d4) (out s3) (slept s ++ replicate n (blinkDelay g)) (Some 0%nat)).
  set (m := mode_of (bit_of (a := a) d1 Config c) (bit_of d1 Polarity c)).
  assert (H6 : setMode m c d5 = (Ok false, d5)).
  { apply setMode_refuses. left. subst m. rewrite (direction_bit d1 w1 c Hchip Hc), Hin. by destruct (bit_of d1 Polarity c). }
  set (s5 := set_conv (Some d5) s4). destruct (destroy_conv s5 d5 eq_refl) as (d6 & Hd6 & Hch6 & _).
  exists (destroy s5), d6. split; [|split; [done|split]].
  - unfold cblink, with_conv, make. rewrite Hf. unfold expander. rewrite (cmd_bind_ret (of_conv Converter.c_type) _ _ Converter.GpioExpander (set_conv (Some d) s)) by done.
    rewrite bool_decide_eq_true_2 by done. rewrite (cmd_bind_ret (of_conv a_flags) _ _ 0x3014 (set_conv (Some d) s)) by done. change (test 0x3014 hasToggle) with true. cbv iota.
    rewrite (cmd_bind_ret (chan_param [arg]) _ _ c (set_conv (Some d) s)) by (unfold chan_param, of_outcome; by rewrite Ha).
    rewrite (cmd_bind_ret _ _ _ _ _ H1). rewrite (proj2 (Z.leb_le 0 c)) by lia. rewrite (cmd_bind_ret _ _ _ _ _ (on_conv_ok (mode c) (set_conv (Some d1) s) d1 m d2 eq_refl H2)).
    rewrite (cmd_bind_ret _ _ _ _ _ (check_ok _ (setMode Converter.DigitalOutput c) (set_conv (Some d2) s) d2 d3 eq_refl H3)).
    rewrite (cmd_bind_ret (set_global _) _ _ tt (set_gl g (set_conv (Some d3) s))) by done. rewrite (cmd_bind_ret (println _) _ _ tt s3) by done.
    rewrite (cmd_bind_ret _ _ _ _ _ H4). rewrite (cmd_bind_ret _ _ _ _ _ (check_ok _ _ s4 d4 d5 eq_refl H5)).
    unfold check. cbn [Converter.v_setMode max7311_impl]. rewrite (cmd_bind_ret _ _ _ _ _ (on_conv_ok (setMode m c) s5 d5 false d5 eq_refl H6)). done.
  - unfold bit_of. rewrite Hch6, Hch5, Hch4 by (cbn; pose proof (Z.div_pos c 8); lia). fold (bit_of (a := a) d3 Config c). rewrite (proj1 (Hbits c Hc)). by rewrite Z.eqb_refl.
  - done.
Qed.
End Expander.

Module Demo.
Definition registry : gmap Params.str (Params.registryKey (outcome (@max7311 chip_kernel))) :=
  Params.registerConverter (Params.str_of "max7311") (Params.mk_key (Params.str_of "gpioexp") [] (fun _ => Ok demo_new)) ∅.
Definition start (n : nat) : st unit (@max7311 chip_kernel) := mk_st (set_converter (text "max7311") globals0) tt None [] [] (Some n).
Lemma plugged_in n : plugged (a := 32) registry (start n) demo_new demo_bus.
Proof.
  split_and!; [reflexivity|reflexivity|apply demo_bus_open|].
  destruct (I2cDev.open_ready (i2c demo_new) IoDevice.ReadWrite demo_closed ltac:(done)) as (b & w & Hw & Hb & H). rewrite demo_bus_open in Hw. injection Hw as <- <-.
  destruct H as [H _]. by apply fresh_wf.
Qed.
Lemma pido_mode_keeps_direction_witness : exists r s' d', cmode registry [text "5"; text "out"] (start 0) = (r, s') /\ conv s' = Some d' /\
  (forall c', 0 <= c' < 16 -> bit_of (a := 32) d' Config c' = direction (a := 32) demo_bus c') /\
  (direction (a := 32) demo_bus 5 = true /\ [text "out"] <> [] \/ text "in" ∈ [text "out"] -> r = Err (PidoErr (exception_text ConverterModeError (text "max7311")))).
Proof. apply (pido_mode_keeps_direction (a := 32) registry (start 0) demo_new demo_bus (text "5") 5 [text "out"] (plugged_in 0)); [reflexivity|lia]. Defined.
Lemma pido_blink_leaves_output_witness : exists s' d', cblink registry 9 [text "5"] (start 3) = (Err (PidoErr (exception_text ConverterModeError (text "max7311"))), s') /\ conv s' = Some d' /\
  bit_of (a := 32) d' Config 5 = false /\ slept s' = replicate 3 499.
Proof. apply (pido_blink_leaves_output (a := 32) registry 9 (start 3) demo_new demo_bus (text "5") 5 3 (plugged_in 3)); [reflexivity|lia|vm_compute; reflexivity|reflexivity|lia]. Defined.
(** A name the factory does not know is a null pointer that the commands use. *)
Lemma unknown_converter : let s := set_gl (set_converter (text "max7312") globals0) (start 0) in
  (cread registry [] s).1 = Err (StdErr UB) /\ (cwrite registry 9 [text "5"] s).1 = Err (StdErr UB) /\ (ctoggle registry [] s).1 = Err (StdErr UB).
Proof. split_and!; vm_compute; reflexivity. Qed.
(** Reading the channels one by one, and all of them in hexadecimal. *)
Lemma read_all_inputs : out (cread registry [] (set_gl (set_format FormatHexadecimal (set_converter (text "max7311") globals0)) (start 0))).2 = text "0xFFFF" ++ [10] /\
  out (cread registry [text "7"] (start 0)).2 = text "1" ++ [10].
Proof. split; vm_compute; reflexivity. Qed.
End Demo.
End PidoExpander.
