(* ===== verification/Pido.v ===== *)
(** * The tool pido: the pin commands and the program, utils/pido/main.cpp

    The commands on pins over the GPIO of Connector.v, the PWM commands over
    [SocPwm] and the software PWM, the converter commands of PidoConv.v, and
    [main] with its table of commands, the options and the exceptions it
    reports; a run of the program opens the GPIO and, when it ends, closes it. *)
From Stdlib Require Import Ascii SpecFloat.
From S2P Require Import Prelude Double IoDevice I2cDev Converter Max7311 Mmio GpioBcm2835 Text ArduinoPrint StdStream Gpio2 GpioPin PinBcm2711 Connector SocPwm GpioPwm ArduinoCore Volts PidoConv.
Import Flags Pin.

Module PidoMain.
Import PString ArduinoPrint Gpio2 GpioDev2 GpioPin Pido.

(** ** Texts *)
Fixpoint split_from (sep : Z) (cur s : bytes) : list bytes :=
  match s with
  | [] => [cur]
  | c :: s => if c =? sep then cur :: split_from sep [] s else split_from sep (cur ++ [c]) s
  end.
Definition split (s : bytes) (sep : Z) : list bytes := split_from sep [] s.
Definition str2mode : list (string * mode) :=
  [("in", ModeInput); ("out", ModeOutput); ("alt0", ModeAlt0); ("alt1", ModeAlt1); ("alt2", ModeAlt2); ("alt3", ModeAlt3); ("alt4", ModeAlt4);
   ("alt5", ModeAlt5); ("alt6", ModeAlt6); ("alt7", ModeAlt7); ("alt8", ModeAlt8); ("alt9", ModeAlt9); ("off", ModeDisabled); ("pwm", ModePwm)]%string.
Definition str2pull : list (string * pull) := [("off", PullOff); ("up", PullUp); ("down", PullDown)]%string.
Definition str2edge : list (string * edge) := [("none", EdgeNone); ("rising", EdgeRising); ("falling", EdgeFalling); ("both", EdgeBoth)]%string.
(** [map.at (s)] *)
Definition at_text {A} (l : list (string * A)) (s : bytes) : outcome A :=
  match list_find (fun x => text x.1 = s) l with Some (_, (_, a)) => Ok a | None => Throw OutOfRange end.
(** [stol (s)] *)
Definition stol (s : bytes) : outcome Z :=
  match StdStream.take_sign (StdStream.skip_spaces s) with
  | (neg, s) => match StdStream.take_digits s with
                | ([], _) => Throw InvalidArgument
                | (ds, _) => let v := Digits.value 10 ds in let v := if neg : bool then - v else v in
                             if (- 2 ^ 63 <=? v) && (v <? 2 ^ 63) then Ok v else Throw OutOfRange
                end
  end.

(** ** The state: the GPIO, the PWM of the chip, and the software PWM with the pin it drives *)
Class PwmTool (P : Type) : Type := {
  attach : nat -> P -> outcome P;
  pt_open : Z -> M P bool;
  pt_close : M P unit }.
Section Program.
Context {W : Type} {L : LineOs W} (PD : nat -> PinDevice W) {G : Connector.GpioDriver (W := W)}.
Context {P : Type} {E : SocPwm.PwmEngine P} {PT : PwmTool P} {R : Type} {O : GpioPwm.GenOs R}.
Context {C : Type} {I : Converter.ConverterImpl C} {A : Analog.AnalogImpl C} {T : ToolImpl C}.
Context (registry : gmap Params.str (Params.registryKey (outcome C))) (infos : list (bytes * bytes * bytes)) (fuel : nat).
Abbreviation gpio := (Connector.gpio (W := W)).
Record hardware : Type := mk_hardware { hgpio : gpio; hpwm : P; hrig : R; hsoft : option (GpioPwm.st R) }.
Definition set_gpio (g : gpio) (h : hardware) : hardware := mk_hardware g (hpwm h) (hrig h) (hsoft h).
Definition set_pwm (p : P) (h : hardware) : hardware := mk_hardware (hgpio h) p (hrig h) (hsoft h).
Definition set_soft (o : option (GpioPwm.st R)) (h : hardware) : hardware := mk_hardware (hgpio h) (hpwm h) (hrig h) o.
Abbreviation command := (cmd hardware C unit).
Definition on_gpio {B} (m : M gpio B) : cmd hardware C B := fun s =>
  let '(o, g) := m (hgpio (io s)) in of_outcome o (set_io (set_gpio g (io s)) s).
Definition on_pwm {B} (m : M P B) : cmd hardware C B := fun s =>
  let '(o, p) := m (hpwm (io s)) in of_outcome o (set_io (set_pwm p (io s)) s).
(** A call on the pin a pointer leads to. *)
Definition on {B} (l : nat) (m : PinDevice W -> M (pin W) B) : cmd hardware C B := on_gpio (Connector.on_heap (Connector.on_pin PD l m)).
Definition keep (b : bool) : command := on_gpio (modify (Connector.setReleaseOnClose b)).
Definition value_error (c : Code) : command := raise (exception_value c 0).

(** ** [getPin] *)
Definition in_range {B} (s : bytes) (m : cmd hardware C B) : cmd hardware C B := fun x =>
  match m x with (Err (StdErr OutOfRange), x) => (Err (PidoErr (exception_text BadPinNumber s)), x) | r => r end.
Definition physical (v : list bytes) : cmd hardware C nat :=
  match v with
  | [] => of_outcome (Throw UB)
  | a :: v =>
      match v with
      | b :: _ => c ← of_outcome (stoi a); set_global (set_connector c);; n ← of_outcome (stoi b); set_global (set_pinnumber n)
      | [] => set_global (set_connector 1);; n ← of_outcome (stoi a); set_global (set_pinnumber n)
      end;;
      c ← global connector; n ← global pinnumber;
      conn ← on_gpio (fun g => (OrdMap.at_ c (Connector.connector_ g), g));
      of_outcome (OrdMap.at_ n (Connector._pin conn))
  end.
Definition find_pin (s : bytes) : cmd hardware C nat :=
  ph ← global physicalNumbering;
  if ph : bool then physical (split s (byte_of "."))
  else n ← of_outcome (stoi s); set_global (set_pinnumber n);; on_gpio (fun g => (Connector.pin_at n g, g)).
Definition getPin (s : bytes) : cmd hardware C nat :=
  when (bool_decide (byte_of "." ∈ s)) (set_global (set_physical true));;
  l ← in_range s (find_pin s);
  force ← global forceGpioDev;
  on l (fun D => public_enableGpioDev force);;
  mret l.

(** ** The pin commands; with a converter, those of PidoConv.v *)
Definition extended (c : command) (pins : command) : command :=
  conv ← global converterStr;
  if bool_decide (conv = []) then pins else set_global (set_extended true);; c.
Definition table (c : Connector.connector) : cmd hardware C bytes :=
  on_gpio (Connector.on_heap (Table.print_connector PD Connector.g_flags c)).
Fixpoint tables (cs : list (Z * Connector.connector)) : command :=
  match cs with [] => mret tt | (_, c) :: cs => t ← table c; println t;; tables cs end.
Definition readall (ps : list bytes) : command := extended (cread registry [])
  match ps with
  | a :: _ => n ← of_outcome (stoi a); c ← on_gpio (fun g => (OrdMap.at_ n (Connector.connector_ g), g)); t ← table c; print t
  | [] => cs ← on_gpio (gets Connector.connector_); tables cs
  end.
Definition mode (ps : list bytes) : command := extended (cmode registry ps)
  match ps with
  | [] => value_error ArgumentExpected
  | a :: rest =>
      l ← getPin a;
      match rest with
      | smode :: _ => m ← of_outcome (at_text str2mode smode); keep false;; on l (fun D => setMode m)
      | [] => n ← on l (fun D => Table.modeName); println n
      end
  end.
Definition pull (ps : list bytes) : command := extended (cmode registry ps)
  match ps with
  | [] => value_error ArgumentExpected
  | a :: rest =>
      l ← getPin a;
      match rest with
      | pmode :: _ => p ← of_outcome (at_text str2pull pmode); keep false;; on l (fun D => setPull p)
      | [] => p ← on l (fun D => get_pull); println (Table.pull_name p)
      end
  end.
Definition drive (ps : list bytes) : command :=
  match ps with
  | [] => value_error ArgumentExpected
  | a :: rest =>
      l ← getPin a;
      match rest with
      | b :: _ => level ← of_outcome (stoi b); keep false;; on l (fun D => setDrive level)
      | [] => n ← on l (fun D => get_drive); println (long_text n)
      end
  end.
Definition bit_text (b : bool) : bytes := text (if b then "1" else "0").
Definition read (ps : list bytes) : command := extended (cread registry ps)
  match ps with
  | [] => value_error PinNumberExpected
  | a :: _ => l ← getPin a; v ← on l (fun D => GpioPin.read); println (bit_text v)
  end.
Definition output_only (l : nat) (k : command) : command :=
  m ← on l (fun D => get_mode);
  if bool_decide (m = ModeOutput) then k else n ← global pinnumber; raise (exception_value NotOutputPin n).
Definition write (ps : list bytes) : command := extended (cwrite registry fuel ps)
  match ps with
  | a :: b :: _ =>
      l ← getPin a;
      value ← of_outcome (stoi b);
      if (value <? 0) || (1 <? value) then raise (exception_value NotBinaryValue value)
      else output_only l (keep false;; on l (fun D => GpioPin.write (negb (value =? 0))))
  | _ => value_error ArgumentExpected
  end.
Definition toggle (ps : list bytes) : command := extended (ctoggle registry ps)
  match ps with
  | [] => value_error PinNumberExpected
  | a :: _ => l ← getPin a; output_only l (keep false;; on l (fun D => GpioPin.toggle))
  end.
Definition period (l : nat) (ps : list bytes) : command :=
  match ps with
  | [] => mret tt
  | b :: _ =>
      n ← of_outcome (stoi b);
      if n <? 2 then
        set_global (set_blink 2);; name ← on l (fun D => GpioPin.name);
        println (text "Warning: Pin " ++ text name ++ text " the period has been set to 2 ms (min.) !")
      else set_global (set_blink n)
  end.
Definition blink (ps : list bytes) : command := extended (cblink registry fuel ps)
  match ps with
  | [] => value_error PinNumberExpected
  | a :: rest =>
      keep true;;
      l ← getPin a;
      period l rest;;
      on l (fun D => setMode ModeOutput);;
      set_global (fun g => set_blink (Z.quot (blinkDelay g) 2) g);;
      println abort_hint;;
      until_signal fuel (on l (fun D => GpioPin.toggle);; ms ← global blinkDelay; sleep ms)
  end.
Definition wfi (ps : list bytes) : command :=
  match ps with
  | a :: b :: rest =>
      l ← getPin a;
      e ← of_outcome (at_text str2edge b);
      timeout ← match rest with c :: _ => of_outcome (stol c) | [] => mret (-1) end;
      on l (fun D => GpioPin.waitForInterrupt e (-1) (i32 timeout));;
      v ← on l (fun D => GpioPin.read); println (bit_text v)
  | _ => value_error ArgumentExpected
  end.

(** ** The PWM commands, as built with NDEBUG *)
Definition pin_error (code : Code) (l : nat) : command := fun s =>
  match Connector.desc_of l (Connector.heap_ (hgpio (io s))) with
  | Some d => raise (exception_value code (logical (num d))) s
  | None => (Err (StdErr UB), s)
  end.
(** [SocPwm socpwm (pin)]: closed when the command is left. *)
Definition with_pwm (l : nat) (body : command) : command := fun s =>
  match attach l (hpwm (io s)) with
  | Throw e => (Err (StdErr e), s)
  | Ok p => let '(r, s) := body (set_io (set_pwm p (io s)) s) in
            (r, set_io (set_pwm (pt_close (hpwm (io s))).2 (io s)) s)
  end.
Definition pwm_pin (ps : list bytes) (k : nat -> option bytes -> command) : command :=
  match ps with
  | [] => value_error ArgumentExpected
  | a :: rest =>
      l ← getPin a;
      m ← on l (fun D => get_mode);
      if bool_decide (m = ModePwm) then
        with_pwm l (ok ← on_pwm (pt_open IoDevice.ReadWrite); if ok : bool then k l (head rest);; on_pwm pt_close else pin_error PwmOpenError l)
      else pin_error NotPwmPin l
  end.
Definition pwmDefaultFreq : Z := 1000.
Definition pwmDefautRange : Z := 1024.
Definition pwm (ps : list bytes) : command := pwm_pin ps (fun l v =>
  f ← on_pwm SocPwm.frequency;
  when (f =? 0) (on_pwm (SocPwm.setRange pwmDefautRange);; on_pwm (SocPwm.setFrequency pwmDefaultFreq);; mret tt);;
  match v with
  | Some t =>
      value ← of_outcome (stol t); mn ← on_pwm SocPwm.p_min; mx ← on_pwm SocPwm.p_max;
      if (value <? mn) || (mx <? value) then raise (exception_value NotPwmValue (i32 value))
      else ok ← on_pwm (SocPwm.write value);
           if ok : bool then on_pwm (SocPwm.setEnable true) else pin_error PwmWriteError l
  | None => n ← on_pwm SocPwm.read; println (long_text n)
  end).
Definition pwm_setting (set : Z -> M P Z) (get : M P Z) (ps : list bytes) : command := pwm_pin ps (fun l v =>
  match v with
  | Some t => value ← of_outcome (stol t); r ← on_pwm (set value); when (r <? 0) (value_error BadArguments)
  | None => n ← on_pwm get; println (long_text n)
  end).
Definition pwmr : list bytes -> command := pwm_setting SocPwm.setRange SocPwm.p_range.
Definition pwmf : list bytes -> command := pwm_setting SocPwm.setFrequency SocPwm.frequency.

(** [pwrite]; the loop at its end does not look at [should_exit]. *)
Definition on_soft {B} (m : M (GpioPwm.st R) B) : cmd hardware C B := fun s =>
  match hsoft (io s) with
  | None => (Err (StdErr UB), s)
  | Some p => let '(o, p) := m p in of_outcome o (set_io (set_soft (Some p) (io s)) s)
  end.
Fixpoint forever (n : nat) : command :=
  match n with 0%nat => of_outcome (Throw OutOfFuel) | S n => sleep 100;; forever n end.
Definition with_soft (range frequency : Z) (body : command) : command := fun s =>
  let '(r, s) := body (set_io (set_soft (Some (GpioPwm.new range frequency (hrig (io s)))) (io s)) s) in
  match on_soft GpioPwm.close s with (_, s) => (r, s) end.
Definition int_or (dflt : Z) (o : option bytes) : cmd hardware C Z := match o with Some t => of_outcome (stoi t) | None => mret dflt end.
Definition pwrite (ps : list bytes) : command :=
  match ps with
  | a :: b :: rest =>
      keep true;;
      l ← getPin a;
      value ← of_outcome (stoi b);
      range ← int_or 1024 (head rest);
      frequency ← int_or 200 (head (tail rest));
      with_soft range frequency (
        ok ← on_soft (GpioPwm.open IoDevice.ReadWrite);
        if ok : bool then
          ok ← on_soft (SocPwm.write (E := GpioPwm.engine) value);
          if ok : bool then println abort_hint;; forever fuel else pin_error PwmWriteError l
        else pin_error PwmOpenError l)
  | _ => value_error ArgumentExpected
  end.

(** ** [main] *)
Definition str2func (s : bytes) : option (list bytes -> command) :=
  match at_text
    [("mode", mode); ("pull", pull); ("read", read); ("write", write); ("toggle", toggle); ("blink", blink); ("wfi", wfi); ("readall", readall);
     ("drive", drive); ("pwm", pwm); ("pwmr", pwmr); ("pwmf", pwmf); ("pwrite", pwrite); ("converters", fun _ => converters infos);
     ("cwrite", cwrite registry fuel); ("cread", cread registry)]%string s with Ok f => Some f | Throw _ => None end.
Definition body (args : list bytes) : command :=
  match args with
  | [] => value_error CommandExpected
  | c :: ps =>
      match str2func c with
      | None => raise (exception_text UnknownCommand c)
      | Some do_it =>
          nb ← global numbering;
          on_gpio (Connector.setNumbering nb);;
          on_gpio (Connector.open PD);;
          do_it ps
      end
  end.
(** How the program ends: the page it shows, or its return value with what it says of an exception.
    Undefined behaviour and endless waiting have no such end. *)
Inductive ending : Type := Shows (p : option page) (code : Z) | Returns (ret : Z) (said : option perr) | NoEnd (e : exn).
Definition main (args : list bytes) (s : st hardware C) : ending * st hardware C :=
  let '(os, ps) := getopt args in
  match set_options os (gl s) with
  | Exit code p => (Shows p code, s)
  | Raised e => (Returns (-1) (Some (StdErr e)), s)
  | Continue g =>
      let '(r, s) := body ps (set_gl g s) in
      (match r with
       | Ret _ => Returns 0 None
       | Err (StdErr UB) => NoEnd UB
       | Err (StdErr OutOfFuel) => NoEnd OutOfFuel
       | Err e => Returns (-1) (Some e)
       end, s)
  end.
(** A run of the program; the GPIO, a global object, is closed at its end. *)
Definition pido (args : list bytes) (h : hardware) (n : option nat) : ending * bytes * hardware :=
  let '(e, s) := main args (mk_st globals0 h None [] [] n) in
  (e, out s, set_gpio (Connector.close PD (hgpio (io s))).2 (io s)).
(** The loop of [pwrite] never returns, whatever signal has come, and leaves the software PWM running. *)
Lemma forever_spins n (s : st hardware C) : exists s', forever n s = (Err (StdErr OutOfFuel), s') /\ io s' = io s /\ slept s' = slept s ++ replicate n 100 /\ sig s' = sig s.
Proof.
  revert s. induction n as [|n IH]; intros s; [exists s; cbn; by rewrite app_nil_r|]. destruct (IH (sleep 100 s).2) as (s' & H & Hi & Hs & Hg). exists s'.
  split; [exact H|]. split; [done|]. split; [|done]. rewrite Hs. cbn. by rewrite <- app_assoc.
Qed.
End Program.

(** ** A board at rest

    Opening the GPIO of a board and closing it again leaves the hardware alone. *)
Section Pins.
Context {W : Type} {L : LineOs W} {D : PinDevice W} {OK : PinDeviceOk W D}.
Definition clean_pin (p : pin W) : Prop :=
  gpiodev p = None /\ holdMode p = ModeUnknown /\ holdPull p = PullUnknown /\
  (isopen p = false -> pmode p = ModeUnknown /\ ppull p = PullUnknown /\ pdrive p = -1).
Definition drive_ok : Prop := test d_flags hasDrive = true -> forall x, ok x -> exists n, d_drive x = (Ok n, x).
Lemma on_dev_ok {B} (m : M W B) (p : pin W) b : m (pw p) = (Ok b, pw p) -> on_dev m p = (Ok b, GpioPin.set_world (chp p) (pw p) p).
Proof. intros H. unfold on_dev. rewrite ok_device. unfold zoom. by rewrite H. Qed.
Lemma world_same (p : pin W) : GpioPin.set_world (chp p) (pw p) p = p.
Proof. by destruct p. Qed.
Lemma open_clean (p : pin W) : drive_ok -> clean_pin p -> ok (pw p) ->
  exists p', GpioPin.open p = (Ok true, p') /\ clean_pin p' /\ pw p' = pw p /\ desc p' = desc p /\ isopen p' = true.
Proof.
  intros Hdr (Hg & Hm & Hp & Hf) Hok.
  assert (Fin : forall p', ask isopen (mret tt) (ask isGpio open_gpio (modify (set_isopen true))) p = (Ok tt, p') -> isopen p' = true -> GpioPin.open p = (Ok true, p')).
  { intros p' H H'. unfold GpioPin.open. rewrite (M_bind_ok _ _ _ _ _ _ _ _ H). unfold gets. by rewrite H'. }
  unfold ask in Fin. destruct (isopen p) eqn:Ho.
  { exists p. split; [by apply Fin|]. split; [split_and!; try done; intros; congruence|]. by split_and!. }
  destruct (Hf eq_refl) as (Hpm & Hpp & Hpd). destruct (isGpio p) eqn:Hi.
  2: { exists (set_isopen true p). split; [by apply Fin|]. split; [by split_and!|]. by split_and!. }
  set (p1 := set_isopen true p). set (p2 := set_pmode (h_mode (hw (pw p))) p1).
  assert (H1 : ask (fun s => negb (bool_decide (pmode s = ModeUnknown))) writeMode readMode p1 = (Ok tt, p2)).
  { unfold ask. change (pmode p1) with (pmode p). rewrite Hpm. cbn [bool_decide negb]. unfold readMode, ask, isGpioDevOpen. change (gpiodev p1) with (gpiodev p). rewrite Hg.
    unfold GpioPin.when. rewrite ok_device. rewrite (M_bind_ok _ _ _ _ _ _ _ _ (on_dev_ok d_mode p1 _ (ok_mode _ Hok))). by rewrite world_same. }
  assert (H2 : exists p3, ask (fun s => negb (bool_decide (ppull s = PullUnknown))) writePull readPull p2 = (Ok tt, p3) /\ (p3 = p2 \/ exists q, p3 = set_ppull q p2)).
  { unfold ask. change (ppull p2) with (ppull p). rewrite Hpp. cbn [bool_decide negb]. unfold readPull, ask, isGpioDevOpen. change (gpiodev p2) with (gpiodev p). rewrite Hg.
    unfold GpioPin.when. rewrite ok_device. destruct (true && test d_flags hasPullRead); [|eexists; split; [done|by left]].
    rewrite (M_bind_ok _ _ _ _ _ _ _ _ (on_dev_ok d_pull p2 _ (ok_pull _ Hok))). rewrite world_same. eexists. split; [done|]. right. by eexists. }
  destruct H2 as (p3 & H2 & Hp3). assert (Hs3 : gpiodev p3 = gpiodev p /\ holdMode p3 = holdMode p /\ holdPull p3 = holdPull p /\ isopen p3 = true /\ pdrive p3 = pdrive p /\ pw p3 = pw p /\ desc p3 = desc p)
    by (by destruct Hp3 as [->|[q ->]]).
  destruct Hs3 as (Hg3 & Hm3 & Hpl3 & Ho3 & Hd3 & Hw3 & Hde3).
  assert (H3 : exists p4, ask (fun s => negb (pdrive s =? -1)) writeDrive (GpioPin.when (test d_flags hasDrive) readDrive) p3 = (Ok tt, p4) /\ (p4 = p3 \/ exists n, p4 = set_pdrive n p3)).
  { unfold ask. rewrite Hd3, Hpd. cbn [Z.eqb negb]. unfold GpioPin.when, readDrive. destruct (test d_flags hasDrive) eqn:Ed; [|eexists; split; [done|by left]].
    rewrite ok_device. destruct (Hdr Ed (pw p3)) as (n & Hn); [by rewrite Hw3|].
    change (negb (-1 =? -1)) with false. cbv iota. unfold GpioPin.when. rewrite (M_bind_ok _ _ _ _ _ _ _ _ (on_dev_ok d_drive p3 _ Hn)). rewrite world_same. eexists. split; [done|]. right. by eexists. }
  destruct H3 as (p4 & H3 & Hp4). exists p4.
  assert (Hs4 : gpiodev p4 = gpiodev p3 /\ holdMode p4 = holdMode p3 /\ holdPull p4 = holdPull p3 /\ isopen p4 = isopen p3 /\ pw p4 = pw p3 /\ desc p4 = desc p3)
    by (by destruct Hp4 as [->|[q ->]]).
  destruct Hs4 as (Hg4 & Hm4 & Hpl4 & Ho4 & Hw4 & Hde4). split; [|split; [split_and!; try congruence; intros; congruence|split_and!; congruence]].
  apply Fin; [|congruence]. unfold open_gpio, isGpioDevEnabled. assert (Ha : ask (fun s => match gpiodev s with Some _ => true | None => false end) gpiodev_open (mret true) p = (Ok true, p)) by (unfold ask; by rewrite Hg).
  rewrite (M_bind_ok _ _ _ _ _ _ _ _ Ha). rewrite (M_bind_ok _ _ _ _ _ p tt p1) by done. cbn [GpioPin.when].
  rewrite (M_bind_ok _ _ _ _ _ _ _ _ H1). unfold GpioPin.when at 1. rewrite ok_device. rewrite (M_bind_ok _ _ _ _ _ _ _ _ H2). exact H3.
Qed.

(** A pin whose hold was never set, or is not to be used, is closed without a change. *)
Definition quiet_pin (roc : bool) (p : pin W) : Prop := gpiodev p = None /\ (roc = true -> holdMode p = ModeUnknown /\ holdPull p = PullUnknown).
Lemma release_quiet (p : pin W) : holdMode p = ModeUnknown -> holdPull p = PullUnknown -> release p = (Ok tt, p).
Proof.
  intros Hm Hp. unfold release, ask. destruct (usable p); [|done]. rewrite (M_bind_ok _ _ _ _ _ p ModeUnknown p) by (unfold gets; by rewrite Hm).
  cbn [bool_decide negb GpioPin.when]. rewrite (M_bind_ok _ _ _ _ _ p tt p) by done. by rewrite (M_bind_ok _ _ _ _ _ p PullUnknown p) by (unfold gets; by rewrite Hp).
Qed.
Lemma close_quiet roc (p : pin W) : quiet_pin roc p -> exists p', GpioPin.close roc p = (Ok tt, p') /\ quiet_pin roc p' /\ pw p' = pw p /\ desc p' = desc p.
Proof.
  intros [Hg Hr]. unfold GpioPin.close, ask. destruct (isopen p) eqn:Ho; [|by exists p].
  assert (H1 : (ask isGpio (detachInterrupt;; enableGpioDev false;; GpioPin.when roc release) (mret tt)) p = (Ok tt, p)).
  { unfold ask. destruct (isGpio p); [|done]. rewrite (M_bind_ok _ _ _ _ _ p tt p) by (unfold detachInterrupt, ask, isGpioDevEnabled; by rewrite Hg).
    rewrite (M_bind_ok _ _ _ _ _ p false p).
    - destruct roc; [|done]. destruct (Hr eq_refl). by apply release_quiet.
    - assert (He : isGpioDevEnabled p = false) by (unfold isGpioDevEnabled; by rewrite Hg). unfold enableGpioDev, ask, mbind, M_bind, gets. cbn [andb negb]. rewrite He. cbn. by rewrite He. }
  unfold ask in H1. rewrite (M_bind_ok _ _ _ _ _ _ _ _ H1). eexists. split; [done|]. split; [|done]. by split.
Qed.
End Pins.

Section Board.
Import Connector.
Context {W : Type} {L : LineOs W} (PD : nat -> PinDevice W) {G : GpioDriver (W := W)} {OKs : forall l, PinDeviceOk W (PD l)}.
Abbreviation heap := (Connector.heap (W := W)).
Abbreviation gpio := (Connector.gpio (W := W)).
Definition all_ok (x : W) : Prop := forall l, ok (PinDeviceOk := OKs l) x.
Definition same_hw (x y : W) : Prop := forall l, hw (PinDeviceOk := OKs l) x = hw (PinDeviceOk := OKs l) y.
(** Opening a driver that is ready makes it usable, closing it makes it ready again, and neither changes
    a pin; it is usable for all pins or for none. *)
Context (ready : W -> Prop).
Class QuietDriver : Prop := {
  q_open : forall x, ready x -> exists x', g_open x = (Ok true, x') /\ all_ok x' /\ same_hw x' x;
  q_close : forall x, all_ok x -> exists x', g_close x = (Ok tt, x') /\ ready x' /\ same_hw x' x;
  q_drive : forall l, drive_ok (D := PD l) (OK := OKs l);
  q_one : forall l l' x, ok (PinDeviceOk := OKs l) x -> ok (PinDeviceOk := OKs l') x }.
Definition every (Q : pin W -> Prop) (h : heap) : Prop := forall j p, pins h !! j = Some p -> Q p.
(** What a heap has that opening and closing do not change. *)
Definition same_board (h h' : heap) : Prop := hw_ h' = hw_ h /\ (forall j, desc_of j h' = desc_of j h).
Lemma valid_desc (h h' : heap) ps : (forall j, desc_of j h' = desc_of j h) -> valid h ps -> valid h' ps.
Proof.
  intros Hd Hv. eapply Forall_impl; [exact Hv|]. intros [k l] [p Hp]. specialize (Hd l). unfold desc_of in Hd. cbn in *. rewrite Hp in Hd. destruct (pins h' !! l); [by eexists|done].
Qed.
Lemma same_board_valid h h' ps : same_board h h' -> valid h ps -> valid h' ps.
Proof. intros [_ Hd]. by apply valid_desc. Qed.
Lemma same_board_trans h1 h2 h3 : same_board h1 h2 -> same_board h2 h3 -> same_board h1 h3.
Proof. intros [H1 H2] [H3 H4]. split; [congruence|]. intros j. by rewrite H4. Qed.
Lemma on_pin_spec {A} l (m : PinDevice W -> M (pin W) A) h p a p' (Q : pin W -> Prop) : pins h !! l = Some p ->
  m (PD l) (Core.loaded h p) = (Ok a, p') -> every Q h -> Q p' -> pw p' = hw_ h -> desc p' = desc p ->
  exists h', on_pin PD l m h = (Ok a, h') /\ every Q h' /\ same_board h h'.
Proof.
  intros Hp Hm HQ Hq Hw Hd. unfold on_pin. rewrite Hp. unfold Core.loaded in Hm. rewrite Hm. eexists. split; [done|]. pose proof (lookup_lt_Some _ _ _ Hp) as Hlt. split; [|split; [done|]].
  - intros j q. cbn. destruct (decide (j = l)) as [->|]; [rewrite list_lookup_insert_eq by done; by intros [= <-]|]. rewrite list_lookup_insert_ne by done. apply HQ.
  - intros j. unfold desc_of. cbn. destruct (decide (j = l)) as [->|]; [rewrite list_lookup_insert_eq, Hp by done; cbn; by rewrite Hd|by rewrite list_lookup_insert_ne].
Qed.
Lemma open_pins_clean {Q : QuietDriver} ps : forall h, every clean_pin h -> all_ok (hw_ h) -> valid h ps ->
  exists h', open_pins PD ps h = (Ok true, h') /\ every clean_pin h' /\ same_board h h'.
Proof.
  induction ps as [|[k l] ps IH]; intros h Hc Ho Hv; [by exists h|]. apply Forall_cons in Hv as [[p Hp] Hv]. cbn in Hp.
  destruct (open_clean (D := PD l) (OK := OKs l) (Core.loaded h p)) as (p' & H1 & Hc' & Hw & Hd & _); [apply q_drive|exact (Hc l p Hp)|apply Ho|].
  destruct (on_pin_spec l (fun D => GpioPin.open (D := D)) h p true p' clean_pin Hp H1 Hc Hc' Hw Hd) as (h1 & H2 & Hc1 & Hs1).
  destruct (IH h1 Hc1) as (h2 & H3 & Hc2 & Hs2); [by rewrite (proj1 Hs1)|by eapply same_board_valid|].
  exists h2. split; [|split; [done|by eapply same_board_trans]]. cbn [open_pins]. by rewrite (M_bind_ok _ _ _ _ _ _ _ _ H2).
Qed.
Lemma close_pins_quiet r ps : forall h, every (quiet_pin r) h -> valid h ps ->
  exists h', close_pins PD r ps h = (Ok tt, h') /\ every (quiet_pin r) h' /\ same_board h h'.
Proof.
  induction ps as [|[k l] ps IH]; intros h Hc Hv; [by exists h|]. apply Forall_cons in Hv as [[p Hp] Hv]. cbn in Hp.
  destruct (close_quiet (D := PD l) r (Core.loaded h p)) as (p' & H1 & Hc' & Hw & Hd); [exact (Hc l p Hp)|].
  destruct (on_pin_spec l (fun D => GpioPin.close (D := D) r) h p tt p' (quiet_pin r) Hp H1 Hc Hc' Hw Hd) as (h1 & H2 & Hc1 & Hs1).
  destruct (IH h1 Hc1) as (h2 & H3 & Hc2 & Hs2); [by eapply same_board_valid|].
  exists h2. split; [|split; [done|by eapply same_board_trans]]. cbn [close_pins]. by rewrite (M_bind_ok _ _ _ _ _ _ _ _ H2).
Qed.

(** The connectors and the GPIO *)
Definition valid_all (g : gpio) (cs : list (Z * connector)) : Prop := Forall (fun c => valid (heap_ g) (_pin c.2)) cs.
Lemma valid_all_same g g' cs : same_board (heap_ g) (heap_ g') -> valid_all g cs -> valid_all g' cs.
Proof. intros Hs H. eapply Forall_impl; [exact H|]. intros c Hc. by eapply same_board_valid. Qed.
(** A change of the connector table and of the heap only. *)
Definition same_view (g g' : gpio) : Prop := roc g' = roc g /\ isopen g' = isopen g /\ numbering_ g' = numbering_ g /\ pin_ g' = pin_ g /\ same_board (heap_ g) (heap_ g').
Lemma same_view_trans g1 g2 g3 : same_view g1 g2 -> same_view g2 g3 -> same_view g1 g3.
Proof. intros (A1 & A2 & A3 & A4 & A5) (B1 & B2 & B3 & B4 & B5). split_and!; try congruence. by eapply same_board_trans. Qed.
Lemma open_connectors_clean {Q : QuietDriver} cs : forall g, every clean_pin (heap_ g) -> all_ok (hw_ (heap_ g)) -> valid_all g cs ->
  exists g', open_connectors PD cs g = (Ok true, g') /\ every clean_pin (heap_ g') /\ same_view g g'.
Proof.
  induction cs as [|[k c] cs IH]; intros g Hc Ho Hv; [by exists g|]. apply Forall_cons in Hv as [Hvc Hv]. cbn [open_connectors]. cbn in Hvc.
  assert (H1 : exists g1, open_connector PD k c g = (Ok true, g1) /\ every clean_pin (heap_ g1) /\ same_view g g1).
  { unfold open_connector. destruct (_isopen c); [by exists g|]. destruct (open_pins_clean (_pin c) (heap_ g) Hc Ho Hvc) as (h & H & Hc' & Hs).
    rewrite (M_bind_ok _ _ _ _ _ g true (set_heap h g)) by (unfold on_heap, zoom; by rewrite H). eexists. split; [done|]. by split. }
  destruct H1 as (g1 & H1 & Hc1 & Hv1). rewrite (M_bind_ok _ _ _ _ _ _ _ _ H1). cbv iota. pose proof Hv1 as (_ & _ & _ & _ & Hs1).
  destruct (IH g1 Hc1) as (g2 & H2 & Hc2 & Hv2); [by rewrite (proj1 Hs1)|by eapply valid_all_same|].
  exists g2. split; [done|]. split; [done|]. by eapply same_view_trans.
Qed.
Lemma close_connectors_quiet cs : forall g, every (quiet_pin (roc g)) (heap_ g) -> valid_all g cs ->
  exists g', close_connectors PD cs g = (Ok tt, g') /\ every (quiet_pin (roc g')) (heap_ g') /\ same_view g g'.
Proof.
  induction cs as [|[k c] cs IH]; intros g Hc Hv; [by exists g|]. apply Forall_cons in Hv as [Hvc Hv]. cbn [close_connectors]. cbn in Hvc.
  assert (H1 : exists g1, close_connector PD k c g = (Ok tt, g1) /\ every (quiet_pin (roc g1)) (heap_ g1) /\ same_view g g1).
  { unfold close_connector. destruct (_isopen c); [|by exists g]. destruct (close_pins_quiet (roc g) (_pin c) (heap_ g) Hc Hvc) as (h & H & Hc' & Hs).
    rewrite (M_bind_ok _ _ _ _ _ g tt (set_heap h g)) by (unfold on_heap, zoom; by rewrite H). eexists. split; [done|]. by split. }
  destruct H1 as (g1 & H1 & Hc1 & Hv1). rewrite (M_bind_ok _ _ _ _ _ _ _ _ H1). pose proof Hv1 as (_ & _ & _ & _ & Hs1).
  destruct (IH g1 Hc1) as (g2 & H2 & Hc2 & Hv2); [by eapply valid_all_same|].
  exists g2. split; [done|]. split; [done|]. by eapply same_view_trans.
Qed.

(** A GPIO that was just made, and one that was just opened. *)
Record rested (g : gpio) : Prop := {
  r_closed : isopen g = false;
  r_sorted : OrdMap.sorted (connector_ g);
  r_connectors : Forall (fun c => _isopen c.2 = false) (connector_ g);
  r_layer : test (accesslayer g) AccessLayerIoMap = true;
  r_clean : every clean_pin (heap_ g);
  r_valid : valid_all g (connector_ g) }.
Record running (r : bool) (g : gpio) : Prop := {
  u_open : isopen g = true;
  u_roc : roc g = r;
  u_quiet : every (quiet_pin r) (heap_ g);
  u_ok : all_ok (hw_ (heap_ g));
  u_valid : valid_all g (connector_ g) }.
Lemma clean_quiet r (p : pin W) : clean_pin p -> quiet_pin r p.
Proof. intros (Hg & Hm & Hp & _). by split. Qed.
Lemma open_rested {Q : QuietDriver} g : rested g -> ready (hw_ (heap_ g)) -> exists g1, Connector.open PD g = (Ok true, g1) /\ running (roc g) g1 /\ same_hw (hw_ (heap_ g1)) (hw_ (heap_ g)) /\
  pin_ g1 = pin_ g /\ numbering_ g1 = numbering_ g /\ (forall j, desc_of j (heap_ g1) = desc_of j (heap_ g)) /\
  (forall k l, (k, l) ∈ all_pins g -> pin_open l (heap_ g1)).
Proof.
  intros [] Hy. destruct (q_open (hw_ (heap_ g)) Hy) as (x & Hx & Hok & Hsame). set (h0 := mk_heap (pins (heap_ g)) (chips (heap_ g)) x). set (g0 := set_heap h0 g).
  destruct (open_connectors_clean (connector_ g) g0 r_clean0 Hok) as (g1 & H1 & Hc1 & (Hr1 & Ho1 & Hn1 & Hp1 & Hw1 & Hd1)).
  { eapply Forall_impl; [exact r_valid0|]. done. }
  assert (Hopen : Connector.open PD g = (Ok true, Connector.set_isopen true g1)).
  { unfold Connector.open. rewrite r_closed0, r_layer0. rewrite (M_bind_ok _ _ _ _ _ g true g0) by (unfold on_driver, on_heap, zoom; by rewrite Hx). cbn [negb]. cbv iota.
    by rewrite (M_bind_ok _ _ _ _ _ _ _ _ H1). }
  destruct (open_all PD g _ r_closed0 r_sorted0 r_connectors0 Hopen) as (_ & Hcs & Hall). cbn in Hcs, Hall.
  eexists. split; [exact Hopen|]. cbn. split; [|rewrite Hw1; by split_and!].
  constructor; cbn; [done|by rewrite Hr1| |by rewrite Hw1|].
  - intros j p Hj. eapply clean_quiet, Hc1, Hj.
  - rewrite Hcs. unfold valid_all, flag_all. rewrite Forall_fmap. eapply Forall_impl; [exact r_valid0|]. intros c Hc. cbn. by eapply valid_desc.
Qed.
Lemma close_running {Q : QuietDriver} r g : running r g -> exists g', Connector.close PD g = (Ok tt, g') /\ ready (hw_ (heap_ g')) /\ same_hw (hw_ (heap_ g')) (hw_ (heap_ g)).
Proof.
  intros []. subst r. destruct (close_connectors_quiet (connector_ g) g u_quiet0 u_valid0) as (g1 & H1 & _ & (_ & _ & _ & _ & Hw1 & _)).
  destruct (q_close (hw_ (heap_ g1))) as (x & Hx & Hy & Hs); [by rewrite Hw1|]. eexists. split.
  - unfold Connector.close. rewrite u_open0. rewrite (M_bind_ok _ _ _ _ _ _ _ _ H1). rewrite (M_bind_ok _ _ _ _ _ g1 tt (set_heap (mk_heap (pins (heap_ g1)) (chips (heap_ g1)) x) g1)) by (unfold on_driver, on_heap, zoom; by rewrite Hx). done.
  - cbn. split; [done|]. by rewrite <- Hw1.
Qed.

(** The constructor of the GPIO makes a board at rest. *)
Definition boot (layer : Z) (ds : list cdesc) (w : W) : gpio := (new_gpio layer ds (mk_heap [] ∅ w)).2.
Lemma alloc_inv d (h : heap) l h' : alloc d h = (l, h') -> every clean_pin h -> every clean_pin h' /\ hw_ h' = hw_ h /\ is_Some (pins h' !! l) /\ (forall ps, valid h ps -> valid h' ps).
Proof.
  intros [= <- <-] Hc. split; [|split; [done|split]].
  - intros j p. cbn. intros [Hj|[_ [_ <-]%list_lookup_singleton_Some]]%lookup_app_Some; [by eapply Hc|]. by split_and!.
  - cbn. rewrite lookup_app_r by lia. rewrite Nat.sub_diag. by eexists.
  - intros ps Hv. eapply Forall_impl; [exact Hv|]. intros x [p Hp]. exists p. cbn. by apply lookup_app_l_Some.
Qed.
Lemma put_Forall {B} (Q : Z * B -> Prop) k v m : Q (k, v) -> Forall Q m -> Forall Q (OrdMap.put k v m).
Proof. rewrite !Forall_forall. intros Hk Hm x Hx%OrdMap.put_keys. destruct Hx as [->|]; auto. Qed.
Lemma new_connector_inv d (h : heap) c h' : new_connector d h = (c, h') -> every clean_pin h ->
  every clean_pin h' /\ hw_ h' = hw_ h /\ _isopen c = false /\ valid h' (_pin c) /\ (forall ps, valid h ps -> valid h' ps).
Proof.
  unfold new_connector. intros H Hc.
  assert (Fold : forall ps m h, every clean_pin h -> valid h m ->
    let '(m', h') := foldl (fun '(m, h) p => let '(l, h) := alloc p h in (OrdMap.put (place d p) l m, h)) (m, h) ps in
    every clean_pin h' /\ hw_ h' = hw_ h /\ valid h' m' /\ (forall ps, valid h ps -> valid h' ps)).
  { clear. intros ps. induction ps as [|p ps IH]; intros m h Hc Hv; [by split_and!|]. cbn [foldl]. destruct (alloc p h) as [l h1] eqn:E.
    destruct (alloc_inv _ _ _ _ E Hc) as (Hc1 & Hw1 & Hl & Hm). specialize (IH (OrdMap.put (place d p) l m) h1 Hc1).
    destruct (foldl _ _ ps) as [m' h']. destruct IH as (Hc' & Hw' & Hv' & Hm'); [apply put_Forall; [done|by apply Hm]|]. split_and!; [done|by rewrite Hw'|done|auto]. }
  specialize (Fold (d_pins d) [] h Hc (Forall_nil_2 _)). destruct (foldl _ _ _) as [m h1]. injection H as <- <-. by destruct Fold as (? & ? & ? & ?).
Qed.
Lemma boot_rested layer ds w : test (if layer =? AccessLayerAuto then preferedAccessLayer else layer) AccessLayerIoMap = true ->
  rested (boot layer ds w) /\ hw_ (heap_ (boot layer ds w)) = w /\ roc (boot layer ds w) = true.
Proof.
  intros Hl. unfold boot, new_gpio.
  assert (Fold : forall ds cs h, every clean_pin h -> OrdMap.sorted cs -> Forall (fun c => _isopen c.2 = false) cs -> Forall (fun c => valid h (_pin c.2)) cs ->
    let '(cs', h') := foldl (fun '(cs, h) d => let '(c, h) := new_connector d h in (OrdMap.put (d_number d) c cs, h)) (cs, h) ds in
    every clean_pin h' /\ hw_ h' = hw_ h /\ OrdMap.sorted cs' /\ Forall (fun c => _isopen c.2 = false) cs' /\ Forall (fun c => valid h' (_pin c.2)) cs').
  { clear. intros ds. induction ds as [|d ds IH]; intros cs h Hc Hs Hf Hv; [by split_and!|]. cbn [foldl]. destruct (new_connector d h) as [c h1] eqn:E.
    destruct (new_connector_inv _ _ _ _ E Hc) as (Hc1 & Hw1 & Hcl & Hvc & Hm). specialize (IH (OrdMap.put (d_number d) c cs) h1 Hc1 (OrdMap.sorted_put _ _ _ Hs)).
    destruct (foldl _ _ ds) as [cs' h']. destruct IH as (? & Hw' & ?); [by apply put_Forall|apply put_Forall; [done|]; eapply Forall_impl; [exact Hv|]; auto|].
    split_and!; [done|by rewrite Hw'|..]; naive_solver. }
  specialize (Fold ds [] (mk_heap [] ∅ w)). destruct (foldl _ _ ds) as [cs h]. destruct Fold as (Hc & Hw & Hs & Hf & Hv); [by intros ? ? ?|constructor|constructor|constructor|].
  unfold setNumbering. cbn [numbering_eqb numbering_]. destruct (number_pins _ _ _ _); (split; [by constructor|by split]).
Qed.

(** ** At work on one pin: the GPIO is open, the pin has the number [n] and is used through the driver. *)
Context (l : nat).
Record work (r : bool) (n : Z) (g : gpio) : Prop := {
  w_running : running r g;
  w_number : pin_at n g = Ok l;
  w_pin : exists p, pins (heap_ g) !! l = Some p /\ Core.in_use (D := PD l) (OK := OKs l) (Core.loaded (heap_ g) p) }.
Abbreviation hw_l := (hw (PinDeviceOk := OKs l)).
Lemma work_on {Q : QuietDriver} {A} (m : PinDevice W -> M (pin W) A) (Post : A -> W -> W -> Prop) r n g : work r n g ->
  (forall p, Core.in_use (D := PD l) (OK := OKs l) p -> quiet_pin r p -> pw p = hw_ (heap_ g) ->
    exists a p', m (PD l) p = (Ok a, p') /\ Core.in_use (D := PD l) (OK := OKs l) p' /\ desc p' = desc p /\ quiet_pin r p' /\ Post a (pw p) (pw p')) ->
  exists a g', on_heap (on_pin PD l m) g = (Ok a, g') /\ work r n g' /\ Post a (hw_ (heap_ g)) (hw_ (heap_ g')).
Proof.
  intros [[] Hn (p & Hp & Hu)] Hm. destruct (Hm _ Hu (u_quiet0 l p Hp) eq_refl) as (a & p' & H & Hu' & Hd & Hq & HP).
  pose proof (lookup_lt_Some _ _ _ Hp) as Hlt. exists a. eexists. split; [unfold on_heap, zoom, on_pin; rewrite Hp; unfold Core.loaded in H; by rewrite H|].
  split; [|exact HP]. destruct Hu' as (Hg' & Ho' & Hdev' & Hok'). split; cbn; [|done|].
  - constructor; cbn; [done|done| |intros j; by eapply q_one|].
    + intros j q. cbn. destruct (decide (j = l)) as [->|]; [rewrite list_lookup_insert_eq by done; by intros [= <-]|]. rewrite list_lookup_insert_ne by done. apply u_quiet0.
    + eapply Forall_impl; [exact u_valid0|]. intros c Hc. eapply valid_desc; [|exact Hc]. intros j. unfold desc_of. cbn.
      destruct (decide (j = l)) as [->|]; [rewrite list_lookup_insert_eq, Hp by done; cbn; by rewrite Hd|by rewrite list_lookup_insert_ne].
  - exists p'. split; [by apply list_lookup_insert_eq|]. by split_and!.
Qed.
Lemma work_keep r n b g : work r n g -> (b = true -> r = true) -> work b n (setReleaseOnClose b g).
Proof.
  intros [[] Hn Hp] Hb. split; [|done|done]. constructor; cbn; try done. intros j p Hj. destruct (u_quiet0 j p Hj) as [Hg Hr]. split; [done|]. intros Ht. by apply Hr, Hb.
Qed.
End Board.

Section Session.
Import Connector.
Context {W : Type} {L : LineOs W} (PD : nat -> PinDevice W) {G : GpioDriver (W := W)} {OKs : forall l, PinDeviceOk W (PD l)} {ready : W -> Prop} {Q : QuietDriver PD ready}.
Context {P : Type} {E : SocPwm.PwmEngine P} {PT : PwmTool P} {R : Type} {O : GpioPwm.GenOs R}.
Context {C : Type} {I : Converter.ConverterImpl C} {A : Analog.AnalogImpl C} {T : ToolImpl C}.
Context (registry : gmap Params.str (Params.registryKey (outcome C))) (infos : list (bytes * bytes * bytes)) (fuel : nat).
Context (layer : Z) (ds : list cdesc) (pwm0 : P) (rig0 : R).
(** A run of the program on hardware [w]: how it ends, what it prints, and the hardware it leaves. *)
Definition run (args : list bytes) (w : W) : ending * bytes * W :=
  let '(e, o, h) := pido PD registry infos fuel args (mk_hardware (boot layer ds w) pwm0 rig0 None) None in (e, o, hw_ (heap_ (hgpio h))).
Context (l : nat) (n : Z) (sn : bytes).
Abbreviation hw_l := (hw (PinDeviceOk := OKs l)).
Abbreviation state := (st (hardware (W := W) (P := P) (R := R)) C).
Definition with_gpio (g : gpio) (s : state) : state := set_io (set_gpio g (io s)) s.

Lemma on_work {B} (m : PinDevice W -> M (pin W) B) (Post : B -> W -> W -> Prop) r (s : state) : work PD l r n (hgpio (io s)) ->
  (forall p, Core.in_use (D := PD l) (OK := OKs l) p -> quiet_pin r p -> pw p = hw_ (heap_ (hgpio (io s))) ->
    exists a p', m (PD l) p = (Ok a, p') /\ Core.in_use (D := PD l) (OK := OKs l) p' /\ desc p' = desc p /\ quiet_pin r p' /\ Post a (pw p) (pw p')) ->
  exists a g', on PD l m s = (Ret a, with_gpio g' s) /\ work PD l r n g' /\ Post a (hw_ (heap_ (hgpio (io s)))) (hw_ (heap_ g')).
Proof.
  intros Hw Hm. destruct (work_on PD ready l m Post r n _ Hw Hm) as (a & g' & H & Hw' & HP). exists a, g'. split; [|done]. unfold on, on_gpio. by rewrite H.
Qed.
Lemma mode_hw (p : pin W) : Core.in_use (D := PD l) (OK := OKs l) p -> exists p', get_mode (D := PD l) p = (Ok (h_mode (hw_l (pw p))), p') /\ Core.in_use (D := PD l) (OK := OKs l) p' /\
  desc p' = desc p /\ pw p' = pw p /\ (forall r, quiet_pin r p -> quiet_pin r p').
Proof.
  intros (Hg & Ho & Hd & Hok). set (p' := set_pmode (h_mode (hw_l (pw p))) p). exists p'. split; [|by split_and!].
  assert (H : ask isGpio (ask GpioPin.isopen (readMode (D := PD l)) (mret tt)) (mret tt) p = (Ok tt, p')).
  { unfold ask. rewrite Hg, Ho. unfold readMode, ask, isGpioDevOpen. rewrite Hd. unfold GpioPin.when. rewrite ok_device.
    rewrite (M_bind_ok _ _ _ _ _ _ _ _ (on_dev_ok (D := PD l) (OK := OKs l) d_mode p _ (ok_mode _ Hok))). by rewrite world_same. }
  unfold get_mode. by rewrite (M_bind_ok _ _ _ _ _ _ _ _ H).
Qed.
Lemma getPin_work r (s : state) : work PD l r n (hgpio (io s)) -> physicalNumbering (gl s) = false -> forceGpioDev (gl s) = false -> byte_of "." ∉ sn -> stoi sn = Ok n ->
  exists g', getPin PD sn s = (Ret l, with_gpio g' (set_gl (set_pinnumber n (gl s)) s)) /\ work PD l r n g' /\ hw_ (heap_ g') = hw_ (heap_ (hgpio (io s))).
Proof.
  intros Hw Hph Hfo Hdot Hn. set (s1 := set_gl (set_pinnumber n (gl s)) s).
  destruct (on_work (fun D => public_enableGpioDev (D := D) false) (fun a x y => y = x) r s1 Hw) as (a & g' & H & Hw' & Hx).
  { intros p Hu Hq _. destruct Hu as (Hg & Ho & Hd & Hok). exists false, p. split; [|by split_and!]. unfold public_enableGpioDev, check_gpio, ask. rewrite Hg.
    unfold enableGpioDev, ask, mbind, M_bind, gets. cbn [andb negb]. assert (He : isGpioDevEnabled p = false) by (unfold isGpioDevEnabled; by rewrite Hd). rewrite He. cbn. by rewrite He. }
  exists g'. split; [|done]. unfold getPin. rewrite bool_decide_eq_false_2 by done. rewrite (cmd_bind_ret (Pido.when _ _) _ _ tt s) by done.
  assert (Hf : find_pin sn s = (Ret l, s1)).
  { unfold find_pin. rewrite (cmd_bind_ret (global physicalNumbering) _ _ false s) by (unfold global; by rewrite Hph). cbv iota.
    rewrite (cmd_bind_ret (of_outcome (stoi sn)) _ _ n s) by (unfold of_outcome; by rewrite Hn). rewrite (cmd_bind_ret (set_global _) _ _ tt s1) by done.
    unfold on_gpio. cbn. destruct Hw as [_ Hl _]. rewrite Hl. cbn. by destruct s as [? [] ? ? ? ?]. }
  rewrite (cmd_bind_ret _ _ s l s1) by (unfold in_range; by rewrite Hf). rewrite (cmd_bind_ret (global forceGpioDev) _ _ false s1) by (unfold global; cbn; by rewrite Hfo).
  by rewrite (cmd_bind_ret _ _ _ _ _ H).
Qed.

(** The board has the pin: the number leads to a GPIO pin of a connector. *)
Definition has_pin : Prop := forall w, pin_at n (boot layer ds w) = Ok l /\ (exists k, (k, l) ∈ all_pins (boot layer ds w)) /\
  exists d, desc_of l (heap_ (boot layer ds w)) = Some d /\ type_of d = TypeGpio.
Definition mapped : Prop := test (if layer =? AccessLayerAuto then preferedAccessLayer else layer) AccessLayerIoMap = true.
Definition s0 (w : W) : state := mk_st globals0 (mk_hardware (boot layer ds w) pwm0 rig0 None) None [] [] None.
Lemma boot_numbering w : has_pin -> numbering_ (boot layer ds w) = NumberingLogical.
Proof.
  intros Hp. destruct (Hp w) as [Hn _]. revert Hn. unfold boot, new_gpio. destruct (foldl _ _ ds) as [cs h]. unfold setNumbering. cbn [numbering_eqb numbering_].
  by destruct (number_pins _ _ _ _).
Qed.
Lemma start_work w : has_pin -> mapped -> ready w -> exists g1, Connector.open PD (boot layer ds w) = (Ok true, g1) /\ work PD l true n g1 /\ same_hw PD (hw_ (heap_ g1)) w.
Proof.
  intros Hp Hm Hy. destruct (boot_rested layer ds w Hm) as (Hr & Hw & Hroc). destruct (Hp w) as (Hn & [k Hk] & (d & Hd & Ht)).
  destruct (open_rested PD ready _ Hr) as (g1 & H1 & Hrun & Hs & Hpin & _ & Hdesc & Hopen); [by rewrite Hw|]. rewrite Hw in Hs. rewrite Hroc in Hrun.
  exists g1. split; [done|]. split; [|done]. destruct (Hopen k l Hk) as (p & Hpl & Hpo). rewrite <- Hdesc in Hd. unfold desc_of in Hd. rewrite Hpl in Hd. injection Hd as Hd.
  split; [done|unfold pin_at in *; by rewrite Hpin|]. exists p. split; [done|]. destruct Hrun. split_and!; [unfold isGpio; cbn; by rewrite Hd, Ht, bool_decide_eq_true_2|done|by apply (u_quiet0 l p)|apply u_ok0].
Qed.
Lemma body_starts w c f ps : has_pin -> mapped -> ready w -> str2func PD registry infos fuel c = Some f ->
  exists g1, body PD registry infos fuel (c :: ps) (s0 w) = f ps (with_gpio g1 (s0 w)) /\ work PD l true n g1 /\ same_hw PD (hw_ (heap_ g1)) w.
Proof.
  intros Hp Hm Hy Hf. destruct (start_work w Hp Hm Hy) as (g1 & H1 & Hw1 & Hs1). exists g1. split; [|done]. unfold body. rewrite Hf.
  rewrite (cmd_bind_ret (global numbering) _ _ NumberingLogical (s0 w)) by done.
  rewrite (cmd_bind_ret (on_gpio (setNumbering NumberingLogical)) _ _ tt (s0 w)).
  2: { unfold on_gpio, setNumbering. cbn [hgpio io s0]. by rewrite (boot_numbering w Hp). }
  rewrite (cmd_bind_ret (on_gpio (Connector.open PD)) _ _ true (with_gpio g1 (s0 w))); [done|]. unfold on_gpio. cbn [hgpio io s0]. by rewrite H1.
Qed.
Lemma run_ends w c f ps r : has_pin -> mapped -> ready w -> str2func PD registry infos fuel c = Some f -> Forall (fun a => option_word a = false) (c :: ps) ->
  (forall g1, work PD l true n g1 -> same_hw PD (hw_ (heap_ g1)) w -> exists s', f ps (with_gpio g1 (s0 w)) = (Ret tt, s') /\ work PD l r n (hgpio (io s'))) ->
  exists s' g1, work PD l true n g1 /\ same_hw PD (hw_ (heap_ g1)) w /\ f ps (with_gpio g1 (s0 w)) = (Ret tt, s') /\ exists w',
    run (c :: ps) w = (Returns 0 None, out s', w') /\ ready w' /\ same_hw PD w' (hw_ (heap_ (hgpio (io s')))).
Proof.
  intros Hp Hm Hy Hf Ho Hrun. destruct (body_starts w c f ps Hp Hm Hy Hf) as (g1 & Hb & Hw1 & Hs1). destruct (Hrun g1 Hw1 Hs1) as (s' & H & Hw'). destruct (w_running _ _ _ _ _ Hw') as [].
  destruct (close_running PD ready r _ (w_running _ _ _ _ _ Hw')) as (g2 & Hc & Hy2 & Hs2). exists s', g1. do 3 (split; [done|]). exists (hw_ (heap_ g2)). split; [|done].
  assert (Hg : getopt (c :: ps) = ([], c :: ps)).
  { clear -Ho. induction Ho as [|a l' Ha _ IH]; [done|]. cbn [getopt]. by rewrite dashes_word, Ha, IH by done. }
  unfold run, pido, main. rewrite Hg. cbn [set_options]. change (set_gl _ _) with (s0 w). rewrite Hb, H. cbn. by rewrite Hc.
Qed.

Hypothesis (Hdot : byte_of "." ∉ sn) (Hsn : stoi sn = Ok n).
Definition level_l (g : gpio) : bool := h_level (hw_l (hw_ (heap_ g))).
Definition mode_l (g : gpio) : Pin.mode := h_mode (hw_l (hw_ (heap_ g))).
Lemma keep_work b r (s : state) : work PD l r n (hgpio (io s)) -> (b = true -> r = true) ->
  exists g', keep b s = (Ret tt, with_gpio g' s) /\ work PD l b n g' /\ heap_ g' = heap_ (hgpio (io s)).
Proof. intros Hw Hb. eexists. split; [done|]. split; [by eapply work_keep|done]. Qed.
Lemma no_converter (s : state) (c k : cmd _ C unit) : converterStr (gl s) = [] -> extended c k s = k s.
Proof. intros H. unfold extended. rewrite (cmd_bind_ret (global converterStr) _ _ [] s) by (unfold global; by rewrite H). done. Qed.
Lemma cmd_mode w g1 sm m : work PD l true n g1 -> at_text str2mode sm = Ok m -> can (PinDeviceOk := OKs l) m = true ->
  exists s', mode PD registry [sn; sm] (with_gpio g1 (s0 w)) = (Ret tt, s') /\ work PD l false n (hgpio (io s')) /\ mode_l (hgpio (io s')) = shown (PinDeviceOk := OKs l) m /\ out s' = [].
Proof.
  intros Hw Hm Hc. destruct (getPin_work true (with_gpio g1 (s0 w)) Hw eq_refl eq_refl Hdot Hsn) as (g2 & H2 & Hw2 & _).
  set (s2 := with_gpio g2 _) in H2. destruct (keep_work false true s2 Hw2 ltac:(done)) as (g3 & H3 & Hw3 & _).
  destruct (on_work (fun D => setMode (D := D) m) (fun _ _ y => h_mode (hw_l y) = shown (PinDeviceOk := OKs l) m) false (with_gpio g3 s2) Hw3) as ([] & g4 & H4 & Hw4 & Hx).
  { intros p Hu _ _. destruct (Core.setMode_hw m p Hu Hc) as (p' & H & Hu' & Hd & Hh). exists tt, p'. pose proof Hu' as (_ & _ & Hdev & _). by split_and!. }
  exists (with_gpio g4 (with_gpio g3 s2)). split; [|split; [exact Hw4|split; [exact Hx|done]]]. unfold mode. rewrite no_converter by done.
  rewrite (cmd_bind_ret _ _ _ _ _ H2). rewrite (cmd_bind_ret (of_outcome _) _ _ m s2) by (unfold of_outcome; by rewrite Hm). rewrite (cmd_bind_ret _ _ _ _ _ H3). exact H4.
Qed.
Lemma cmd_write w g1 sv v : work PD l true n g1 -> mode_l g1 = ModeOutput -> stoi sv = Ok v -> 0 <= v <= 1 ->
  exists s', write PD registry fuel [sn; sv] (with_gpio g1 (s0 w)) = (Ret tt, s') /\ work PD l false n (hgpio (io s')) /\ mode_l (hgpio (io s')) = ModeOutput /\
    level_l (hgpio (io s')) = negb (v =? 0) /\ out s' = [].
Proof.
  intros Hw Hm Hv Hr. destruct (getPin_work true (with_gpio g1 (s0 w)) Hw eq_refl eq_refl Hdot Hsn) as (g2 & H2 & Hw2 & Hx2).
  set (s2 := with_gpio g2 _) in H2. destruct (on_work (fun D => get_mode (D := D)) (fun a x y => a = h_mode (hw_l x) /\ y = x) true s2 Hw2) as (a & g3 & H3 & Hw3 & [-> Hx3]).
  { intros p Hu Hq _. destruct (mode_hw p Hu) as (p' & H & Hu' & Hd & Hpw & Hqq). by exists (h_mode (hw_l (pw p))), p'; split_and!; try done; apply Hqq. }
  destruct (keep_work false true (with_gpio g3 s2) Hw3 ltac:(done)) as (g4 & H4 & Hw4 & Hx4).
  assert (Hm2 : h_mode (hw_l (hw_ (heap_ (hgpio (io s2))))) = ModeOutput) by (cbn; by rewrite Hx2).
  destruct (on_work (fun D => GpioPin.write (D := D) (negb (v =? 0))) (fun _ _ y => h_mode (hw_l y) = ModeOutput /\ h_level (hw_l y) = negb (v =? 0)) false (with_gpio g4 (with_gpio g3 s2)) Hw4) as ([] & g5 & H5 & Hw5 & [Hx5 Hx6]).
  { intros p Hu _ Hpw. destruct (Core.write_hw (negb (v =? 0)) p Hu) as (p' & H & Hu' & Hd & Hh & Hl); [rewrite Hpw; cbn in *; by rewrite Hx4; cbn; rewrite Hx3|].
    exists tt, p'. pose proof Hu' as (_ & _ & Hdev & _). by split_and!. }
  exists (with_gpio g5 (with_gpio g4 (with_gpio g3 s2))). split; [|split; [exact Hw5|split; [exact Hx5|split; [exact Hx6|done]]]]. unfold write. rewrite no_converter by done.
  rewrite (cmd_bind_ret _ _ _ _ _ H2). rewrite (cmd_bind_ret (of_outcome _) _ _ v s2) by (unfold of_outcome; by rewrite Hv).
  rewrite (proj2 (Z.ltb_ge v 0)), (proj2 (Z.ltb_ge 1 v)) by lia. cbn [orb]. unfold output_only. rewrite (cmd_bind_ret _ _ _ _ _ H3). rewrite Hm2, bool_decide_eq_true_2 by done.
  rewrite (cmd_bind_ret _ _ _ _ _ H4). exact H5.
Qed.
Lemma cmd_read w g1 : work PD l true n g1 -> exists s', read PD registry [sn] (with_gpio g1 (s0 w)) = (Ret tt, s') /\ work PD l true n (hgpio (io s')) /\
  hw_ (heap_ (hgpio (io s'))) = hw_ (heap_ g1) /\ out s' = bit_text (level_l g1) ++ [10].
Proof.
  intros Hw. destruct (getPin_work true (with_gpio g1 (s0 w)) Hw eq_refl eq_refl Hdot Hsn) as (g2 & H2 & Hw2 & Hx2). set (s2 := with_gpio g2 _) in H2.
  destruct (on_work (fun D => GpioPin.read (D := D)) (fun a x y => a = h_level (hw_l x) /\ y = x) true s2 Hw2) as (a & g3 & H3 & Hw3 & [-> Hx3]).
  { intros p Hu Hq _. exists (h_level (hw_l (pw p))), p. split_and!; try done. rewrite Core.read_hw by done. by rewrite world_same. }
  exists (set_out (bit_text (h_level (hw_l (hw_ (heap_ g2)))) ++ [10]) (with_gpio g3 s2)). split; [|split; [exact Hw3|split; [cbn; rewrite Hx3; exact Hx2|]]].
  - unfold read. rewrite no_converter by done. rewrite (cmd_bind_ret _ _ _ _ _ H2). rewrite (cmd_bind_ret _ _ _ _ _ H3). done.
  - cbn. unfold level_l. by rewrite Hx2.
Qed.

(** C6: three runs of the program, the hardware left by one being the hardware of the next: making a pin
    an output and writing to it last beyond the end of each run, and the third run prints what the second
    one wrote.  Each run makes the GPIO, opens all pins, finds the pin by its number, acts through the
    driver and closes all pins again. *)
Theorem pido_session w sv v : has_pin -> mapped -> ready w -> option_word sn = false -> option_word sv = false -> stoi sv = Ok v -> 0 <= v <= 1 ->
  can (PinDeviceOk := OKs l) ModeOutput = true -> shown (PinDeviceOk := OKs l) ModeOutput = ModeOutput ->
  exists w1 w2 w3, run [text "mode"; sn; text "out"] w = (Returns 0 None, [], w1) /\ h_mode (hw_l w1) = ModeOutput /\
    run [text "write"; sn; sv] w1 = (Returns 0 None, [], w2) /\ h_mode (hw_l w2) = ModeOutput /\ h_level (hw_l w2) = negb (v =? 0) /\
    run [text "read"; sn] w2 = (Returns 0 None, text (if v =? 0 then "0" else "1") ++ [10], w3) /\ hw_l w3 = hw_l w2.
Proof.
  intros Hp Hm Hy Hon Hov Hv Hr Hc Hsh.
  destruct (run_ends w (text "mode") (mode PD registry) [sn; text "out"] false Hp Hm Hy eq_refl) as (t1 & g1 & Hw1 & Hs1 & H1 & w1 & R1 & Y1 & S1).
  { by repeat constructor. }
  { intros g Hg _. destruct (cmd_mode w g (text "out") ModeOutput Hg eq_refl Hc) as (s' & ? & ? & _). by exists s'. }
  destruct (cmd_mode w g1 (text "out") ModeOutput Hw1 eq_refl Hc) as (t1' & H1' & _ & Hm1 & Ho1). rewrite H1 in H1'. injection H1' as <-. rewrite Hsh in Hm1.
  assert (M1 : h_mode (hw_l w1) = ModeOutput) by (rewrite (S1 l); exact Hm1).
  destruct (run_ends w1 (text "write") (write PD registry fuel) [sn; sv] false Hp Hm Y1 eq_refl) as (t2 & g2 & Hw2 & Hs2 & H2 & w2 & R2 & Y2 & S2).
  { by repeat constructor. }
  { intros g Hg Hsg. destruct (cmd_write w1 g sv v Hg) as (s' & ? & ? & _); [unfold mode_l; by rewrite (Hsg l)|done|done|]. by exists s'. }
  destruct (cmd_write w1 g2 sv v Hw2) as (t2' & H2' & _ & Hm2 & Hl2 & Ho2); [unfold mode_l; by rewrite (Hs2 l)|done|done|]. rewrite H2 in H2'. injection H2' as <-.
  destruct (run_ends w2 (text "read") (read PD registry) [sn] true Hp Hm Y2 eq_refl) as (t3 & g3 & Hw3 & Hs3 & H3 & w3 & R3 & Y3 & S3).
  { by repeat constructor. }
  { intros g Hg _. destruct (cmd_read w2 g Hg) as (s' & ? & ? & _). by exists s'. }
  destruct (cmd_read w2 g3 Hw3) as (t3' & H3' & _ & Hx3 & Ho3). rewrite H3 in H3'. injection H3' as <-.
  exists w1, w2, w3. rewrite Ho1 in R1. rewrite Ho2 in R2. split_and!; try done.
  - rewrite (S2 l). exact Hm2.
  - rewrite (S2 l). exact Hl2.
  - rewrite R3, Ho3. unfold level_l. rewrite (Hs3 l), (S2 l). unfold level_l in Hl2. rewrite Hl2. by destruct (v =? 0).
  - rewrite (S3 l), Hx3. apply Hs3.
Qed.
End Session.
End PidoMain.

(** ** Three runs on the registers of GpioBcm2835.v, on pin 9 of the header of Connector.v *)
Module PidoDemo.
Import Gpio2 GpioDev2 GpioPin PString Connector Pido PidoMain.
#[local] Existing Instances IoMap.with_mmap IoMap.with_mmap_ok Bcm2835.Demo.device Bcm2835.Demo.device_regs Bcm2835.Demo.device_2711 GpioDev2.Demo.demo_lines.
Definition world : Type := Mmio.io * GpioDev2.Demo.kline.
#[local] Instance lines : LineOs world := PinBcm2711.beside _ _ _.
Definition pin_of (l : nat) : Z := Z.of_nat l mod Bcm2835.GpioSize.
Lemma pin_of_range l : 0 <= pin_of l < Bcm2835.GpioSize.
Proof. apply Z.mod_pos_bound. done. Qed.
Definition PD (l : nat) : PinDevice world := PinBcm2711.bcm_pin (pin_of l).
Definition OKs (l : nat) : PinDeviceOk world (PD l) := PinBcm2711.bcm_pin_ok (pin_of l) (pin_of_range l).
#[local] Existing Instances OKs GpioPwm.engine GpioPwm.Demo.rig_os Max7311.max7311_impl Analog.max7311_analog PidoExpander.max7311_tool.
Definition on_map {A} (m : M IoMap.iomap A) : M world A := PinBcm2711.on_regs (zoom Mmio.im Mmio.set_im m).
#[local] Instance driver : GpioDriver (W := world) := {|
  g_open := on_map (IoMap.open 0xFE200000 Bcm2835.MapBlockSize);
  g_close := on_map IoMap.close;
  g_flags := Bcm2835.flags true;
  preferedAccessLayer := 5 |}.
Definition unmapped (x : world) : Prop := IoMap.isOpen (Mmio.im x.1) = false.
#[local] Instance driver_quiet : QuietDriver PD unmapped.
Proof.
  constructor.
  - intros [[im rg] k] Hx. eexists. split.
    { unfold g_open, driver, on_map, PinBcm2711.on_regs, zoom. cbn [fst snd Mmio.im]. unfold IoMap.open. by rewrite (IoMap.open_device_mapped im (IoMap.sys im) (IoMap.sys im) _ _ _ 4). }
    by split.
  - intros [[im rg] k] Hx. specialize (Hx 0%nat). unfold g_close, driver, on_map, PinBcm2711.on_regs, zoom. cbn [fst snd Mmio.im].
    destruct (IoMap.isOpen im) eqn:Ho.
    + assert (Hs : IoMap.size im = Bcm2835.MapBlockSize) by (revert Hx; cbn; unfold Bcm2835.mapped, IoMap.window; cbn; by destruct (IoMap.map im)).
      unfold IoMap.close. rewrite Ho, Hs. cbn. eexists. by split_and!.
    + unfold IoMap.close. rewrite Ho. eexists. by split_and!.
  - intros l H. done.
  - intros l l' x H. exact H.
Qed.
Definition world0 : world := (Mmio.mk_io (IoMap.new tt) (Mmio.regs Bcm2835.Demo.start), GpioDev2.Demo.kline0).
#[local] Instance engine_tool : PwmTool (GpioPwm.st GpioPwm.Demo.rig) := {| attach := fun _ p => Ok p; pt_open := fun _ => mret true; pt_close := mret tt |}.
Definition pwm0 : GpioPwm.st GpioPwm.Demo.rig := GpioPwm.new 8 100 (GpioPwm.Demo.mk_rig 1000 []).
Abbreviation session := (run PD PidoExpander.Demo.registry [] 9 AccessLayerAuto [ConnectorDemo.header] pwm0 (GpioPwm.Demo.mk_rig 1000 [])).
Lemma pido_session_witness : exists w1 w2 w3, session [text "mode"; text "9"; text "out"] world0 = (Returns 0 None, [], w1) /\ h_mode (hw (PinDeviceOk := OKs 2) w1) = ModeOutput /\
  session [text "write"; text "9"; text "1"] w1 = (Returns 0 None, [], w2) /\ h_mode (hw (PinDeviceOk := OKs 2) w2) = ModeOutput /\ h_level (hw (PinDeviceOk := OKs 2) w2) = true /\
  session [text "read"; text "9"] w2 = (Returns 0 None, text "1" ++ [10], w3) /\ hw (PinDeviceOk := OKs 2) w3 = hw (PinDeviceOk := OKs 2) w2.
Proof.
  apply (pido_session PD PidoExpander.Demo.registry [] 9 AccessLayerAuto [ConnectorDemo.header] pwm0 (GpioPwm.Demo.mk_rig 1000 []) 2 9 (text "9")
    ltac:(by apply (bool_decide_unpack _)) eq_refl world0 (text "1") 1); try reflexivity; try lia.
  intros w. split; [reflexivity|]. split; [exists 3; apply (bool_decide_unpack _); reflexivity|]. eexists. split; reflexivity.
Defined.
End PidoDemo.
