(* ===== verification/System.v ===== *)
(** * The host system, src/system.cpp and include/piduino/system.h

    What the class reads of its host is an argument: the files, with the text of
    those that can be opened, and what [sysinfo] says.  Only the file of the process
    number is written.  The revision code of a Raspberry Pi is decoded as the
    bit-fields of the union lay it out on a little-endian processor. *)
From Stdlib Require Import Ascii SpecFloat.
From S2P Require Import Prelude Double Text ArduinoPrint StdStream ConfigFile Volts.

Module System.
Import PString ArduinoPrint.

(** ** The host *)
(** A file that exists and cannot be read has no text. *)
Record host : Type := mk_host {
  files : gmap bytes (option bytes); sysinfo : option (Z * Z); pid : Z; euid : Z; progName : bytes; unwritable : bytes -> bool }.
Definition set_files (f : gmap bytes (option bytes)) (h : host) : host := mk_host f (sysinfo h) (pid h) (euid h) (progName h) (unwritable h).
Definition LinuxRevisionFile : bytes := text "/proc/device-tree/system/linux,revision".
Definition CpuInfoFile : bytes := text "/proc/cpuinfo".
Definition ArmbianReleaseFile : bytes := text "/etc/armbian-release".
Definition DeviceTreeModelFile : bytes := text "/proc/device-tree/model".
Definition FriendlyElecReleaseFile : bytes := text "/etc/friendlyelec-release".
Definition fileExists (h : host) (path : bytes) : bool := bool_decide (is_Some (files h !! path)).
Definition content (h : host) (path : bytes) : option bytes := mjoin (files h !! path).
Definition config (h : host) (path : bytes) (keysep : Z) : outcome ConfigFile.config :=
  ConfigFile.new (content h path) keysep (byte_of "#").

(** ** The state *)
Record ArmCore : Type := mk_core {
  model : bytes; features : list bytes; bogomips : double; implementer : Z; archno : Z; variant : Z; core_revision : Z; partno : Z }.
Definition core0 : ArmCore := mk_core [] [] (dbl_int 0) 0 0 0 0 0.
Record ArmbianInfo : Type := mk_armbian { a_found : bool; a_board : bytes; a_boardName : bytes; a_version : bytes; a_family : bytes; a_branch : bytes; a_arch : bytes }.
Record system : Type := mk_system {
  hardware : bytes; revision : Z; serialNumber : Z; totalRam : Z; ncore : Z; core : ArmCore; armbianInfo : ArmbianInfo; raspianInfo : Z; pidfn : bytes }.
Definition set_hardware (x : bytes) (s : system) : system :=
  mk_system x (revision s) (serialNumber s) (totalRam s) (ncore s) (core s) (armbianInfo s) (raspianInfo s) (pidfn s).
Definition set_revision (x : Z) (s : system) : system :=
  mk_system (hardware s) x (serialNumber s) (totalRam s) (ncore s) (core s) (armbianInfo s) (raspianInfo s) (pidfn s).
Definition set_sn (x : Z) (s : system) : system :=
  mk_system (hardware s) (revision s) x (totalRam s) (ncore s) (core s) (armbianInfo s) (raspianInfo s) (pidfn s).
Definition set_ram (x : Z) (s : system) : system :=
  mk_system (hardware s) (revision s) (serialNumber s) x (ncore s) (core s) (armbianInfo s) (raspianInfo s) (pidfn s).
Definition set_core (n : Z) (x : ArmCore) (s : system) : system :=
  mk_system (hardware s) (revision s) (serialNumber s) (totalRam s) n x (armbianInfo s) (raspianInfo s) (pidfn s).
Definition set_pidfn (x : bytes) (s : system) : system :=
  mk_system (hardware s) (revision s) (serialNumber s) (totalRam s) (ncore s) (core s) (armbianInfo s) (raspianInfo s) x.
Definition of_outcome {S A} (o : outcome A) : M S A := fun s => (o, s).

(** ** [readTotalRam]: megabytes, rounded up to a power of two *)
Fixpoint round_up (fuel : nat) (roundram totalram : Z) : outcome Z :=
  match fuel with
  | 0%nat => Throw OutOfFuel
  | S fuel => if roundram <? totalram then round_up fuel (Z.shiftl roundram 1) totalram else Ok roundram
  end.
Definition readTotalRam (h : host) : M system unit :=
  r ← match sysinfo h with
      | Some (totalram, mem_unit) => of_outcome (round_up 64 1 (u64 (totalram * mem_unit) / (1024 * 1024)))
      | None => mret (-1)
      end;
  modify (set_ram r).

(** ** [readLinuxRevision]: four bytes, the first one shifted as an [int]; bytes the file lacks are what was in memory *)
Definition readLinuxRevision (h : host) (junk : list Z) : Z :=
  match content h LinuxRevisionFile with
  | None => 0
  | Some t => match take 4 (t ++ drop (length t) junk) with
              | [b0; b1; b2; b3] => u64 (Z.lor (Z.lor (i32 (Z.shiftl b0 24)) (Z.shiftl b1 16)) (Z.lor (Z.shiftl b2 8) b3))
              | _ => 0
              end
  end.
Definition hex_revision (s : bytes) : outcome Z := match StdInt.stol 16 s with Ok v => Ok (Z.land v 0xFFFFFF) | Throw e => Throw e end.

(** ** [readCpuInfo] *)
Fixpoint line_from (s : bytes) : bytes := match s with c :: s' => if c =? 10 then [] else c :: line_from s' | [] => [] end.
(** [while (getline (sts, str, ' '))] *)
Fixpoint words (cur s : bytes) : list bytes :=
  match s with
  | [] => match cur with [] => [] | _ => [cur] end
  | c :: s => if c =? 32 then cur :: words [] s else words (cur ++ [c]) s
  end.
(** [is >> x] for a [double]: no special words, no base 16; an exponent without digits fails. *)
Definition extract_double (s : bytes) : outcome double :=
  let '(neg, s) := StdDouble.sign (StdStream.skip_spaces s) in
  match StdDouble.mantissa 10 s with
  | Some (_, _, e :: x) =>
      if (tolower e =? byte_of "e") && ((StdDouble.take_base 10 (StdDouble.sign x).2 0 0).1.2 =? 0) then Throw InvalidArgument
      else match StdDouble.decimal neg s with Throw _ => Throw InvalidArgument | o => o end
  | Some _ => match StdDouble.decimal neg s with Throw _ => Throw InvalidArgument | o => o end
  | None => Throw InvalidArgument
  end.
Definition value_double (key : bytes) (dflt : double) (c : ConfigFile.config) : outcome double :=
  if ConfigFile.keyExists key c then extract_double (ConfigFile.value key [] c) else Ok dflt.
Definition key (k : string) (c : ConfigFile.config) : bytes := ConfigFile.value (text k) [] c.
Definition has (k : string) (c : ConfigFile.config) : bool := ConfigFile.keyExists (text k) c.
Definition int_key (k : string) (c : ConfigFile.config) : outcome Z := ConfigFile.value_num true 32 (text k) 0 c.
Definition when {S} (b : bool) (m : M S unit) : M S unit := if b then m else mret tt.
Definition cpu_config (cfg : ConfigFile.config) : M system unit :=
  hw ← gets hardware;
  when (bool_decide (hw = [])) (modify (set_hardware (if has "Hardware" cfg then toLowerCase (key "Hardware" cfg) else text "unknown")));;
  rev ← gets revision;
  when (has "Revision" cfg && (rev =? 0)) (r ← of_outcome (hex_revision (key "Revision" cfg)); modify (set_revision r));;
  when (has "Serial" cfg) (n ← of_outcome (StdInt.stoul 16 (key "Serial" cfg)); modify (set_sn n));;
  let fs := if has "Features" cfg then words [] (key "Features" cfg) else [] in
  n ← of_outcome (int_key "processor" cfg);
  bm ← of_outcome (value_double (text "BogoMIPS") (dbl_int 0) cfg);
  im ← of_outcome (int_key "CPU implementer" cfg);
  ar ← of_outcome (int_key "CPU architecture" cfg);
  va ← of_outcome (int_key "CPU variant" cfg);
  pa ← of_outcome (int_key "CPU part" cfg);
  re ← of_outcome (int_key "CPU revision" cfg);
  modify (set_core (i32 (n + 1)) (mk_core (key "model name" cfg) fs bm im ar va re pa)).
Definition readCpuInfo (h : host) (junk : list Z) : M system unit :=
  when (fileExists h DeviceTreeModelFile)
    match content h DeviceTreeModelFile with Some t => modify (set_hardware (line_from t)) | None => mret tt end;;
  when (fileExists h LinuxRevisionFile) (modify (set_revision (readLinuxRevision h junk)));;
  when (fileExists h CpuInfoFile) (cfg ← of_outcome (config h CpuInfoFile (byte_of ":")); cpu_config cfg).

(** ** [ArmbianInfo] and [RaspianInfo] *)
Definition armbian0 : ArmbianInfo := mk_armbian false [] [] [] [] [] [].
Definition armbian_config (cfg : ConfigFile.config) : ArmbianInfo :=
  mk_armbian true (filter (fun c => c <> byte_of "-") (toLowerCase (key "BOARD" cfg))) (key "BOARD_NAME" cfg) (key "VERSION" cfg)
    (if has "BOARDFAMILY" cfg then key "BOARDFAMILY" cfg else key "LINUXFAMILY" cfg) (key "BRANCH" cfg) (key "ARCH" cfg).
Definition new_armbian (h : host) : outcome ArmbianInfo :=
  let from f := match config h f (byte_of "=") with Ok cfg => Ok (armbian_config cfg) | Throw e => Throw e end in
  if fileExists h FriendlyElecReleaseFile then from FriendlyElecReleaseFile
  else if fileExists h ArmbianReleaseFile then from ArmbianReleaseFile else Ok armbian0.
Definition new_raspian (h : host) (junk : list Z) : outcome Z :=
  if fileExists h LinuxRevisionFile then Ok (u32 (readLinuxRevision h junk))
  else if fileExists h CpuInfoFile then
    match config h CpuInfoFile (byte_of ":") with
    | Throw e => Throw e
    | Ok cfg => if has "Revision" cfg then match hex_revision (key "Revision" cfg) with Ok v => Ok (u32 v) | Throw e => Throw e end else Ok 0
    end
  else Ok 0.
Definition new (h : host) (junk : list Z) : outcome system :=
  match new_armbian h with
  | Throw e => Throw e
  | Ok a => match new_raspian h junk with
            | Throw e => Throw e
            | Ok r => match (readTotalRam h;; readCpuInfo h junk) (mk_system [] 0 0 (-1) 1 core0 a r []) with
                      | (Ok _, s) => Ok s
                      | (Throw e, _) => Throw e
                      end
            end
  end.

(** ** The fields of a revision code; the enumeration of the boards has a negative value, so that its field is signed *)
Module Raspian.
Definition bits (v lo n : Z) : Z := Z.shiftr v lo mod 2 ^ n.
Definition rev (v : Z) : Z := bits v 0 4.
Definition board (v : Z) : Z := let b := bits v 4 8 in if b <? 128 then b else b - 256.
Definition processor (v : Z) : Z := bits v 12 4.
Definition manufacturer (v : Z) : Z := bits v 16 4.
Definition memory (v : Z) : Z := bits v 20 3.
Definition newFlag (v : Z) : bool := Z.testbit v 23.
Definition found : Z -> bool := newFlag.
Definition warranty (v : Z) : bool := Z.testbit v 25.
Definition otpReady (v : Z) : bool := Z.testbit v 29.
Definition otpProgram (v : Z) : bool := Z.testbit v 30.
Definition overVoltage (v : Z) : bool := Z.testbit v 31.
End Raspian.

(** ** The file of the process number *)
Definition createPidFile (path : option bytes) : M (host * system) unit := fun '(h, s) =>
  let fn := match path with
            | Some p => p
            | None => text (if euid h =? 0 then "/var/run/" else "/tmp/") ++ progName h ++ text ".pid"
            end in
  if unwritable h fn then (Throw (SystemError 1), (h, s))
  else (Ok tt, (set_files (<[fn := Some (long_text (pid h) ++ [10])]> (files h)) h, set_pidfn fn s)).
Definition deletePidFile : M (host * system) unit := fun '(h, s) =>
  if bool_decide (pidfn s = []) then (Ok tt, (h, s))
  else (Ok tt, (if fileExists h (pidfn s) && negb (unwritable h (pidfn s)) then set_files (delete (pidfn s) (files h)) h else h, set_pidfn [] s)).

(** ** Properties *)
Lemma round_up_exact fuel : forall k t, 0 <= k -> 0 <= t -> t <= 2 ^ (k + Z.of_nat fuel - 1) -> (1 <= fuel)%nat -> (k = 0 \/ 2 ^ (k - 1) < t) ->
  exists r, round_up fuel (2 ^ k) t = Ok (2 ^ r) /\ k <= r /\ t <= 2 ^ r /\ (r = 0 \/ 2 ^ (r - 1) < t).
Proof.
  induction fuel as [|fuel IH]; intros k t Hk Ht Hb Hf Hlow; [lia|]. cbn [round_up]. destruct (Z.ltb_spec (2 ^ k) t); [|by exists k].
  destruct fuel as [|fuel]; [replace (k + Z.of_nat 1 - 1) with k in Hb by lia; lia|].
  destruct (IH (k + 1) t) as (r & H1 & H2 & H3); [lia|done|by replace (k + 1 + Z.of_nat (S fuel) - 1) with (k + Z.of_nat (S (S fuel)) - 1) by lia|lia| |].
  - right. by replace (k + 1 - 1) with k by lia.
  - exists r. rewrite Z.shiftl_mul_pow2 by lia. change (2 ^ 1) with 2. replace (2 ^ k * 2) with (2 ^ (k + 1)) by (rewrite Z.pow_add_r; lia).
    split; [done|]. split; [lia|done].
Qed.
(** the memory of the host is reported as the smallest power of two of megabytes that is not below what
    the system has, whatever the system says; the loop that doubles ends. *)
Theorem total_ram_least h s t u : sysinfo h = Some (t, u) ->
  exists r, readTotalRam h s = (Ok tt, set_ram (2 ^ r) s) /\ 0 <= r /\
    let mb := u64 (t * u) / (1024 * 1024) in mb <= 2 ^ r /\ forall q, 0 <= q -> mb <= 2 ^ q -> r <= q.
Proof.
  intros Hs. set (mb := u64 (t * u) / (1024 * 1024)).
  assert (Hmb : 0 <= mb <= 2 ^ 44).
  { pose proof (Z.mod_pos_bound (t * u) (2 ^ 64)) as Hu. unfold mb, u64. split; [apply Z.div_pos; lia|]. apply Z.div_le_upper_bound; lia. }
  destruct (round_up_exact 64 0 mb) as (r & H & Hr & Hle & Hlow); [lia|lia|etrans; [apply Hmb|apply Z.pow_le_mono_r; lia]|lia|by left|]. change (2 ^ 0) with 1 in H.
  exists r. split; [unfold readTotalRam; rewrite Hs; fold mb; rewrite (M_bind_ok _ _ _ _ _ s (2 ^ r) s); [done|unfold of_outcome; by rewrite H]|].
  split; [done|]. split; [done|]. intros q Hq Hmq. destruct Hlow as [->|Hlow]; [done|].
  destruct (Z.le_gt_cases r q) as [|Hlt]; [done|]. assert (2 ^ q <= 2 ^ (r - 1)) by (apply Z.pow_le_mono_r; lia). lia.
Qed.

(** The code with given fields. *)
Record code : Type := mk_code {
  f_rev : Z; f_board : Z; f_processor : Z; f_manufacturer : Z; f_memory : Z; f_new : bool; f_warranty : bool; f_ready : bool; f_program : bool; f_over : bool }.
Definition encode (c : code) : Z :=
  f_rev c + f_board c mod 256 * 2 ^ 4 + f_processor c * 2 ^ 12 + f_manufacturer c * 2 ^ 16 + f_memory c * 2 ^ 20 +
  Z.b2z (f_new c) * 2 ^ 23 + Z.b2z (f_warranty c) * 2 ^ 25 + Z.b2z (f_ready c) * 2 ^ 29 + Z.b2z (f_program c) * 2 ^ 30 + Z.b2z (f_over c) * 2 ^ 31.
Definition code_ok (c : code) : Prop :=
  0 <= f_rev c < 16 /\ -128 <= f_board c < 128 /\ 0 <= f_processor c < 16 /\ 0 <= f_manufacturer c < 16 /\ 0 <= f_memory c < 8.
Definition decode (v : Z) : code :=
  mk_code (Raspian.rev v) (Raspian.board v) (Raspian.processor v) (Raspian.manufacturer v) (Raspian.memory v)
    (Raspian.newFlag v) (Raspian.warranty v) (Raspian.otpReady v) (Raspian.otpProgram v) (Raspian.overVoltage v).
Lemma field_at v lo n a b c : 0 <= lo -> 0 <= n -> v = a + 2 ^ lo * (b + 2 ^ n * c) -> 0 <= a < 2 ^ lo -> 0 <= b < 2 ^ n -> Raspian.bits v lo n = b.
Proof.
  intros Hlo Hn -> Ha Hb. unfold Raspian.bits. rewrite Z.shiftr_div_pow2 by done.
  rewrite (Z.mul_comm (2 ^ lo)), Z.div_add, (Z.div_small a) by lia. rewrite Z.add_0_l, (Z.mul_comm (2 ^ n)), Z.mod_add, Z.mod_small by lia. done.
Qed.
Lemma flag_at v lo a (b : bool) c : 0 <= lo -> v = a + 2 ^ lo * (Z.b2z b + 2 * c) -> 0 <= a < 2 ^ lo -> Z.testbit v lo = b.
Proof.
  intros Hlo Hv Ha. rewrite Z.testbit_eqb by done. replace (v / 2 ^ lo mod 2) with (Raspian.bits v lo 1) by (unfold Raspian.bits; by rewrite Z.shiftr_div_pow2).
  rewrite (field_at v lo 1 a (Z.b2z b) c); [by destruct b|done|done|done|done|destruct b; cbn; lia].
Qed.
(** the fields of a revision code are those it was made of, each in its place and width: revision, board,
    processor, manufacturer, memory and the flags. *)
Theorem raspian_fields_exact c : code_ok c -> 0 <= encode c < 2 ^ 32 /\ decode (encode c) = c.
Proof.
  destruct c as [rv bd pr mf mm b23 b25 b29 b30 b31]. unfold code_ok. cbn. intros (Hrv & Hbd & Hpr & Hmf & Hmm).
  unfold encode, decode, Raspian.newFlag, Raspian.warranty, Raspian.otpReady, Raspian.otpProgram, Raspian.overVoltage,
    Raspian.rev, Raspian.board, Raspian.processor, Raspian.manufacturer, Raspian.memory. cbn [f_rev f_board f_processor f_manufacturer f_memory f_new f_warranty f_ready f_program f_over].
  set (u := bd mod 256). assert (Hu : 0 <= u < 256) by (apply Z.mod_pos_bound; lia).
  assert (H1 : forall b, 0 <= Z.b2z b <= 1) by (intros []; cbn; lia).
  pose proof (H1 b23). pose proof (H1 b25). pose proof (H1 b29). pose proof (H1 b30). pose proof (H1 b31). clear H1.
  set (v := rv + u * 2 ^ 4 + pr * 2 ^ 12 + mf * 2 ^ 16 + mm * 2 ^ 20 + Z.b2z b23 * 2 ^ 23 + Z.b2z b25 * 2 ^ 25 + Z.b2z b29 * 2 ^ 29 + Z.b2z b30 * 2 ^ 30 + Z.b2z b31 * 2 ^ 31).
  split; [unfold v; lia|]. f_equal.
  - apply (field_at v 0 4 (0) rv (u * 2 ^ 0 + pr * 2 ^ 8 + mf * 2 ^ 12 + mm * 2 ^ 16 + Z.b2z b23 * 2 ^ 19 + Z.b2z b25 * 2 ^ 21 + Z.b2z b29 * 2 ^ 25 + Z.b2z b30 * 2 ^ 26 + Z.b2z b31 * 2 ^ 27)); unfold v; lia.
  - assert (Hb : Raspian.bits v 4 8 = u) by (apply (field_at v 4 8 (rv) u (pr * 2 ^ 0 + mf * 2 ^ 4 + mm * 2 ^ 8 + Z.b2z b23 * 2 ^ 11 + Z.b2z b25 * 2 ^ 13 + Z.b2z b29 * 2 ^ 17 + Z.b2z b30 * 2 ^ 18 + Z.b2z b31 * 2 ^ 19)); unfold v; lia).
    rewrite Hb. unfold u. case_bool; pose proof (Z.div_mod bd 256); lia.
  - apply (field_at v 12 4 (rv + u * 2 ^ 4) pr (mf * 2 ^ 0 + mm * 2 ^ 4 + Z.b2z b23 * 2 ^ 7 + Z.b2z b25 * 2 ^ 9 + Z.b2z b29 * 2 ^ 13 + Z.b2z b30 * 2 ^ 14 + Z.b2z b31 * 2 ^ 15)); unfold v; lia.
  - apply (field_at v 16 4 (rv + u * 2 ^ 4 + pr * 2 ^ 12) mf (mm * 2 ^ 0 + Z.b2z b23 * 2 ^ 3 + Z.b2z b25 * 2 ^ 5 + Z.b2z b29 * 2 ^ 9 + Z.b2z b30 * 2 ^ 10 + Z.b2z b31 * 2 ^ 11)); unfold v; lia.
  - apply (field_at v 20 3 (rv + u * 2 ^ 4 + pr * 2 ^ 12 + mf * 2 ^ 16) mm (Z.b2z b23 * 2 ^ 0 + Z.b2z b25 * 2 ^ 2 + Z.b2z b29 * 2 ^ 6 + Z.b2z b30 * 2 ^ 7 + Z.b2z b31 * 2 ^ 8)); unfold v; lia.
  - apply (flag_at v 23 (rv + u * 2 ^ 4 + pr * 2 ^ 12 + mf * 2 ^ 16 + mm * 2 ^ 20) b23 (Z.b2z b25 * 2 ^ 1 + Z.b2z b29 * 2 ^ 5 + Z.b2z b30 * 2 ^ 6 + Z.b2z b31 * 2 ^ 7)); unfold v; lia.
  - apply (flag_at v 25 (rv + u * 2 ^ 4 + pr * 2 ^ 12 + mf * 2 ^ 16 + mm * 2 ^ 20 + Z.b2z b23 * 2 ^ 23) b25 (Z.b2z b29 * 2 ^ 3 + Z.b2z b30 * 2 ^ 4 + Z.b2z b31 * 2 ^ 5)); unfold v; lia.
  - apply (flag_at v 29 (rv + u * 2 ^ 4 + pr * 2 ^ 12 + mf * 2 ^ 16 + mm * 2 ^ 20 + Z.b2z b23 * 2 ^ 23 + Z.b2z b25 * 2 ^ 25) b29 (Z.b2z b30 * 2 ^ 0 + Z.b2z b31 * 2 ^ 1)); unfold v; lia.
  - apply (flag_at v 30 (rv + u * 2 ^ 4 + pr * 2 ^ 12 + mf * 2 ^ 16 + mm * 2 ^ 20 + Z.b2z b23 * 2 ^ 23 + Z.b2z b25 * 2 ^ 25 + Z.b2z b29 * 2 ^ 29) b30 (Z.b2z b31 * 2 ^ 0)); unfold v; lia.
  - apply (flag_at v 31 (rv + u * 2 ^ 4 + pr * 2 ^ 12 + mf * 2 ^ 16 + mm * 2 ^ 20 + Z.b2z b23 * 2 ^ 23 + Z.b2z b25 * 2 ^ 25 + Z.b2z b29 * 2 ^ 29 + Z.b2z b30 * 2 ^ 30) b31 (0)); unfold v; lia.
Qed.

(** Without a device tree the name of the hardware has no capital letter. *)
Definition low (s : system) : Prop := toLowerCase (hardware s) = hardware s.
Lemma tolower_twice c : tolower (tolower c) = tolower c.
Proof. unfold tolower. destruct ((65 <=? c) && (c <=? 90)) eqn:E; [|by rewrite E]. rewrite (proj2 (Z.leb_gt (c + 32) 90)) by lia. by rewrite andb_false_r. Qed.
Lemma low_twice t : toLowerCase (toLowerCase t) = toLowerCase t.
Proof. unfold toLowerCase. rewrite <- list_fmap_compose. apply list_fmap_ext. intros _ c _. apply tolower_twice. Qed.
Lemma keeps_of_outcome {S A} (I : S -> Prop) (o : outcome A) : keeps I (of_outcome o).
Proof. intros s H. exact H. Qed.
Lemma keeps_when {S} (I : S -> Prop) b (m : M S unit) : keeps I m -> keeps I (when b m).
Proof. by destruct b; [|intros _ s H]. Qed.
#[local] Hint Resolve keeps_of_outcome keeps_when : keeps.
Lemma cpu_config_low cfg : keeps low (cpu_config cfg).
Proof.
  unfold cpu_config. apply keeps_bind; [auto with keeps|]. intros hw. apply keeps_bind.
  { apply keeps_when, keeps_modify. intros s _. unfold low. cbn. case_match; [apply low_twice|done]. }
  intros _. repeat (apply keeps_bind; [first [apply keeps_gets | apply keeps_of_outcome |
    apply keeps_when, keeps_bind; [apply keeps_of_outcome|intros ?; by apply keeps_modify]]|intros ?]). by apply keeps_modify.
Qed.
Lemma hardware_low h junk s : fileExists h DeviceTreeModelFile = false -> new h junk = Ok s -> low s.
Proof.
  intros Hf. unfold new. destruct (new_armbian h) as [a|]; [|done]. destruct (new_raspian h junk) as [r|]; [|done].
  match goal with |- context [(readTotalRam h;; readCpuInfo h junk) ?x] => set (s0 := x) end.
  assert (K : keeps low (readTotalRam h;; readCpuInfo h junk)).
  { apply keeps_bind.
    - unfold readTotalRam. apply keeps_bind; [destruct (sysinfo h) as [[]|]; auto with keeps|]. intros ?. by apply keeps_modify.
    - intros _. unfold readCpuInfo. rewrite Hf. apply keeps_bind; [apply keeps_ret|]. intros _. apply keeps_bind; [apply keeps_when; by apply keeps_modify|].
      intros _. apply keeps_when. apply keeps_bind; [auto with keeps|]. intros cfg. apply cpu_config_low. }
  specialize (K s0 eq_refl). destruct ((readTotalRam h;; readCpuInfo h junk) s0) as [[|] s']; [|done]. by intros [= <-].
Qed.
(** The numbers of a core that are written in hexadecimal are read as zero. *)
Definition cpuinfo : bytes := text "processor : 3" ++ [10] ++ text "BogoMIPS  : 38.40" ++ [10] ++ text "Features  : half thumb" ++ [10] ++
  text "CPU implementer : 0x41" ++ [10] ++ text "CPU architecture: 7" ++ [10] ++ text "CPU part  : 0xc07" ++ [10] ++
  text "Hardware  : BCM2835" ++ [10] ++ text "Revision  : a01041" ++ [10] ++ text "Serial    : 0000000043c0c334" ++ [10].
Definition pi2 : host := mk_host {[ CpuInfoFile := Some cpuinfo ]} (Some (948304, 1024)) 321 0 (text "sketch") (fun _ => false).
Lemma pi2_system : exists s, new pi2 [0; 0; 0; 0] = Ok s /\ hardware s = text "bcm2835" /\ revision s = 0xa01041 /\ serialNumber s = 0x43c0c334 /\
  totalRam s = 1024 /\ ncore s = 4 /\ features (core s) = [text "half"; text "thumb"] /\ bogomips (core s) = dbl_lit 384 10 /\
  archno (core s) = 7 /\ implementer (core s) = 0 /\ partno (core s) = 0 /\ Raspian.found (raspianInfo s) = true /\ Raspian.board (raspianInfo s) = 4.
Proof. eexists. split; [vm_compute; reflexivity|]. vm_compute. split_and!; reflexivity. Qed.
(** The file of the process number is removed again. *)
Lemma pid_file_removed h s path h1 s1 : createPidFile path (h, s) = (Ok tt, (h1, s1)) -> pidfn s1 <> [] ->
  content h1 (pidfn s1) = Some (long_text (pid h) ++ [10]) /\
  deletePidFile (h1, s1) = (Ok tt, (set_files (delete (pidfn s1) (files h)) h, set_pidfn [] s1)).
Proof.
  unfold createPidFile. set (fn := match path with Some p => p | None => _ end). destruct (unwritable h fn) eqn:Hw; [done|]. intros [= <- <-] Hne. cbn in *. split.
  - unfold content. cbn. by rewrite lookup_insert_eq.
  - unfold deletePidFile. cbn. rewrite bool_decide_eq_false_2 by done. unfold fileExists. cbn. rewrite lookup_insert_eq, bool_decide_eq_true_2 by done. rewrite Hw. cbn.
    unfold set_files. cbn. by rewrite delete_insert_eq.
Qed.
Lemma total_ram_least_witness : exists r, readTotalRam pi2 (mk_system [] 0 0 (-1) 1 core0 armbian0 0 []) = (Ok tt, set_ram (2 ^ r) (mk_system [] 0 0 (-1) 1 core0 armbian0 0 [])) /\
  0 <= r /\ let mb := u64 (948304 * 1024) / (1024 * 1024) in mb <= 2 ^ r /\ forall q, 0 <= q -> mb <= 2 ^ q -> r <= q.
Proof. apply (total_ram_least pi2 (mk_system [] 0 0 (-1) 1 core0 armbian0 0 []) 948304 1024). reflexivity. Defined.
Definition pi400_code : code := mk_code 1 0x13 3 0 4 true false false false false.
Lemma raspian_fields_exact_witness : 0 <= encode pi400_code < 2 ^ 32 /\ decode (encode pi400_code) = pi400_code.
Proof. apply (raspian_fields_exact pi400_code). unfold code_ok. cbn. lia. Defined.
End System.
