(* ===== verification/Database.v ===== *)
(** * The database of boards, src/database.cpp, src/soc.cpp, src/manufacturer.cpp and
    src/gpio/gpio-database.cpp, gpioconnector-database.cpp, gpiopin-database.cpp

    The database is its tables, as database/piduino-schema.sql declares them.  A query is
    the list of the rows it selects; the order in which a query without an order gives
    them, and the identifiers that an automatic index makes, are those of an interface.
    The session answers when it is open; a statement that is prepared and never
    executed changes nothing. *)
From Stdlib Require Import Ascii Sorted.
From stdpp Require Import sorting.
From S2P Require Import Prelude IoDevice Text ArduinoPrint StdStream ConfigFile Mmio Gpio2 GpioPin Connector Volts System.
Import Pin.

(** ** The server *)
Class Sql : Type := { order : forall {A : Type}, list A -> list A; auto_id : list Z -> Z }.
Class SqlOk (Q : Sql) : Prop := {
  order_perm : forall (A : Type) (l : list A), order l ≡ₚ l;
  auto_fresh : forall l, auto_id l ∉ l;
  auto_pos : forall l, 0 < auto_id l }.

Module Db.
Import PString ArduinoPrint Gpio2 GpioDev2 GpioPin.

(** ** The tables *)
Record soc_pin : Type := mk_soc_pin { sp_soc : Z; sp_pin : Z; sp_mcu : Z; sp_system : Z; sp_chip : Z; sp_offset : Z }.
Record spics : Type := mk_spics { cs_pin : Z; cs_bus : Z; cs_cs : Z; cs_mode : Z }.
Record conn_row : Type := mk_conn_row { co_id : Z; co_name : option bytes; co_rows : option Z; co_family : Z }.
Record conn_pin : Type := mk_conn_pin { cp_conn : Z; cp_pin : Z; cp_row : Z; cp_column : Z }.
Record gpio_conn : Type := mk_gpio_conn { gc_num : Z; gc_gpio : Z; gc_conn : Z }.
Record soc_row : Type := mk_soc_row { so_id : Z; so_name : option bytes; so_family : Z; so_manufacturer : Z; so_i2c : Z; so_spi : Z; so_uart : Z }.
Record board_row : Type := mk_board_row {
  bo_id : Z; bo_name : option bytes; bo_ram : option Z; bo_pcb : option bytes; bo_model : Z; bo_gpio : Z; bo_manufacturer : Z;
  bo_i2c : option Z; bo_spi : option Z; bo_uart : option Z }.
Record tables : Type := mk_tables {
  t_pin : list (Z * Z); t_pin_name : list (Z * string); t_pin_has_name : list (Z * Z * Z); t_pin_number : list (Z * Z);
  t_soc_has_pin : list soc_pin; t_pin_spics : list spics;
  t_connector : list conn_row; t_connector_family : list (Z * bytes * Z); t_connector_has_pin : list conn_pin;
  t_gpio : list (Z * bytes); t_gpio_has_connector : list gpio_conn;
  t_board : list board_row; t_revision : list (Z * Z); t_tag : list (Z * bytes);
  t_board_model : list (Z * option bytes * Z * Z); t_board_family : list (Z * (option bytes * option bytes * option bytes * option bytes));
  t_soc : list soc_row; t_soc_family : list (Z * option bytes); t_manufacturer : list (Z * option bytes);
  t_schema_version : list (Z * Z * Z) }.
(** The tables of pins and connectors, which the library also writes. *)
Definition set_pins (p : list (Z * Z)) (n : list (Z * string)) (h : list (Z * Z * Z)) (t : tables) : tables :=
  mk_tables p n h (t_pin_number t) (t_soc_has_pin t) (t_pin_spics t) (t_connector t) (t_connector_family t) (t_connector_has_pin t)
    (t_gpio t) (t_gpio_has_connector t) (t_board t) (t_revision t) (t_tag t) (t_board_model t) (t_board_family t) (t_soc t) (t_soc_family t)
    (t_manufacturer t) (t_schema_version t).
Definition set_conns (c : list conn_row) (p : list conn_pin) (g : list (Z * bytes)) (h : list gpio_conn) (t : tables) : tables :=
  mk_tables (t_pin t) (t_pin_name t) (t_pin_has_name t) (t_pin_number t) (t_soc_has_pin t) (t_pin_spics t) c (t_connector_family t) p
    g h (t_board t) (t_revision t) (t_tag t) (t_board_model t) (t_board_family t) (t_soc t) (t_soc_family t)
    (t_manufacturer t) (t_schema_version t).

(** ** The session *)
Record session : Type := mk_session { is_open : bool; db : tables }.
Section Queries.
Context {Q : Sql}.
Definition select {A} (q : tables -> list A) : M session (list A) := fun s =>
  if is_open s then (Ok (order (q (db s))), s) else (Throw RuntimeError, s).
(** [<< cppdb::row] *)
Definition select_row {A} (q : tables -> list A) : M session (option A) := rows ← select q; mret (head rows).
Definition execute (f : tables -> tables) : M session unit := fun s =>
  if is_open s then (Ok tt, mk_session true (f (db s))) else (Throw RuntimeError, s).
(** The identifier of a new row: that of an automatic index, or one that the primary key does not refuse. *)
Definition new_id (ids : tables -> list Z) (id : Z) : M session Z := fun s =>
  let l := ids (db s) in
  if is_open s then if id <? 0 then (Ok (auto_id l), s) else if bool_decide (id ∈ l) then (Throw RuntimeError, s) else (Ok id, s)
  else (Throw RuntimeError, s).
(** [result >> variable]: a null leaves the variable. *)
Definition fetch {A} (old : A) (cell : option A) : A := default old cell.

(** ** The enumerations as numbers *)
Definition modes : list mode := [ModeInput; ModeOutput; ModeDisabled; ModePwm; ModeAlt0; ModeAlt1; ModeAlt2; ModeAlt3; ModeAlt4; ModeAlt5; ModeAlt6; ModeAlt7; ModeAlt8; ModeAlt9].
Definition mode_of_id (i : Z) : option mode := if i =? -1 then Some ModeUnknown else if 0 <=? i then modes !! Z.to_nat i else None.
Definition mode_id (m : mode) : Z := match list_find (fun x => x = m) modes with Some (i, _) => Z.of_nat i | None => -1 end.
Definition types : list ptype := [TypeGpio; TypePower; TypeUsb; TypeSound; TypeVideo; TypeNotConnected; TypeNet].
Definition type_of_id (i : Z) : ptype := if 0 <=? i then default TypeUnknown (types !! Z.to_nat i) else TypeUnknown.
Definition type_id (t : ptype) : Z := match list_find (fun x => x = t) types with Some (i, _) => Z.of_nat i | None => -1 end.
(** [std::map<Mode, std::string>]: the modes in their order *)
Fixpoint put_name (m : mode) (n : string) (l : list (mode * string)) : list (mode * string) :=
  match l with
  | [] => [(m, n)]
  | (m', n') :: l' => if mode_id m <? mode_id m' then (m, n) :: l else if decide (m = m') then (m, n) :: l' else (m', n') :: put_name m n l'
  end.

(** ** [Pin::Descriptor] *)
Definition set_id (id : Z) (d : descriptor) : descriptor := mk_descriptor (type_of d) (num d) id (names d).
Definition findName (n : string) : M session Z :=
  r ← select_row (fun t => x ← t_pin_name t; if decide (x.2 = n) then [x.1] else []); mret (default (-1) r).
Definition hasModeName (id : Z) (m : mode) (nameId : Z) : M session bool :=
  r ← select_row (fun t => x ← t_pin_has_name t; if decide (x = (id, nameId, mode_id m)) then [nameId] else []); mret (bool_decide (is_Some r)).
Definition pin_names (id : Z) (t : tables) : list (string * Z) :=
  x ← t_pin_has_name t; let '(p, n, m) := x in if p =? id then y ← t_pin_name t; if y.1 =? n then [(y.2, m)] else [] else [].
Definition agrees (ns : list (mode * string)) (x : string * Z) : bool :=
  match mode_of_id x.2 with Some m => bool_decide (tab ns m = Some x.1) | None => false end.
Fixpoint match_pins (ns : list (mode * string)) (ids : list Z) : M session Z :=
  match ids with
  | [] => mret (-1)
  | pin_id :: ids =>
      rows ← select (pin_names pin_id);
      if bool_decide (length (filter (fun x => agrees ns x = true) rows) = length ns) then mret pin_id else match_pins ns ids
  end.
Definition named (n : string) (m : mode) (t : tables) : list Z :=
  x ← t_pin_has_name t; let '(p, i, j) := x in if j =? mode_id m then y ← t_pin_name t; if (y.1 =? i) && bool_decide (y.2 = n) then [p] else [] else [].
(** The loop over the names is left after the first one. *)
Definition findId (ns : list (mode * string)) : M session Z :=
  match ns with
  | [] => mret (-1)
  | (m, n) :: _ => ids ← select (named n m); match_pins ns ids
  end.
Definition insertModeName (id : Z) (m : mode) (n : string) : M session unit :=
  i ← findName n;
  i ← (if i <? 0 then j ← new_id (fun t => (t_pin_name t).*1) (-1); execute (fun t => set_pins (t_pin t) (t_pin_name t ++ [(j, n)]) (t_pin_has_name t) t);; mret j
       else mret i);
  has ← hasModeName id m i;
  if has : bool then mret tt else execute (fun t => set_pins (t_pin t) (t_pin_name t) (t_pin_has_name t ++ [(id, i, mode_id m)]) t).
Fixpoint insert_names (id : Z) (ns : list (mode * string)) : M session unit :=
  match ns with [] => mret tt | (m, n) :: ns => insertModeName id m n;; insert_names id ns end.
(** The statements for the numbers of a GPIO pin are prepared and never executed. *)
Definition insert_pin (d : descriptor) : M session (bool * descriptor) :=
  pin_id ← findId (names d);
  if pin_id <? 0 then
    id ← new_id (fun t => (t_pin t).*1) (GpioPin.pin_id d);
    execute (fun t => set_pins (t_pin t ++ [(id, type_id (type_of d))]) (t_pin_name t) (t_pin_has_name t) t);;
    insert_names id (names d);;
    mret (true, set_id id d)
  else mret (false, set_id pin_id d).
Definition load_names (rows : list (string * Z)) : list (mode * string) :=
  foldl (fun l x => match mode_of_id x.2 with Some m => put_name m x.1 l | None => l end) [] rows.
(** [Descriptor (pinId, pinRow, pinColumn)], with the chip of the board *)
Definition numbers (id soc : Z) (t : tables) : list (Z * soc_pin) :=
  x ← t_soc_has_pin t; if sp_pin x =? id then if sp_soc x =? soc then y ← t_pin_number t; if y.1 =? sp_pin x then [(y.2, x)] else [] else [] else [].
Definition load_pin (soc id row column : Z) : M session descriptor :=
  let num0 := mk_number (-1) (-1) (-1) row column (-1) (-1) in
  if 0 <? id then
    r ← select_row (fun t => x ← t_pin t; if x.1 =? id then [x.2] else []);
    match r with
    | None => mret (mk_descriptor TypeUnknown num0 id [])
    | Some tid =>
        rows ← select (pin_names id);
        n ← select_row (numbers id soc);
        mret (mk_descriptor (type_of_id tid)
                match n with Some (l, x) => mk_number l (sp_mcu x) (sp_system x) row column (sp_chip x) (sp_offset x) | None => num0 end
                id (load_names rows))
    end
  else mret (mk_descriptor TypeUnknown num0 id []).

(** ** [Connector::Family] and [Connector::Descriptor] *)
Definition family_id (f : Connector.family) : Z := match f with Connector.Header1X => 0 | Connector.Header2X => 1 end.
(** The function that numbers the pins is null before an identifier is set. *)
Record family : Type := mk_family { fnum : option Connector.family; f_id : Z; f_columns : Z }.
Definition family0 : family := mk_family None (-1) (-1).
Definition setId (fid : Z) (f : family) : M session family := fun s =>
  if is_open s && negb (fid =? -1) then
    (r ← select_row (fun t => x ← t_connector_family t; if x.1.1 =? fid then [x.2] else []);
     match r with
     | None => mret f
     | Some columns =>
         if fid =? 0 then mret (mk_family (Some Connector.Header1X) fid columns)
         else if fid =? 1 then mret (mk_family (Some Connector.Header2X) fid columns) else throw InvalidArgument
     end) s
  else (Ok f, s).
Record cdescriptor : Type := mk_cdescriptor { c_name : bytes; c_number : Z; c_rows : Z; c_family : family; c_id : Z; c_pins : list descriptor }.
Definition set_cid (id : Z) (ps : list descriptor) (c : cdescriptor) : cdescriptor := mk_cdescriptor (c_name c) (c_number c) (c_rows c) (c_family c) id ps.
Definition hasPin (id : Z) (p : descriptor) : M session bool :=
  r ← select_row (fun t => x ← t_connector_has_pin t;
    if decide (cp_conn x = id /\ cp_pin x = pin_id p /\ cp_row x = row (num p) /\ cp_column x = column (num p)) then [cp_pin x] else []);
  mret (bool_decide (is_Some r)).
(** The identifier of the row that is read is hidden by a variable of the same name, which is compared with itself. *)
Fixpoint match_places (ps : list descriptor) (rows : list conn_pin) : M session Z :=
  match rows with
  | [] => mret 0
  | x :: rows =>
      n ← match list_find (fun p => row (num p) = cp_row x /\ column (num p) = cp_column x) ps with
          | None => mret 0
          | Some (_, p) => (if pin_id p <? 0 then findId (names p);; mret tt else mret tt);; mret 1
          end;
      k ← match_places ps rows;
      mret (n + k)
  end.
Fixpoint match_connectors (ps : list descriptor) (ids : list Z) : M session Z :=
  match ids with
  | [] => mret (-1)
  | cid :: ids =>
      rows ← select (fun t => filter (fun x => cp_conn x = cid) (t_connector_has_pin t));
      n ← match_places ps rows;
      if n =? Z.of_nat (length ps) then mret cid else match_connectors ps ids
  end.
Definition find_connector (c : cdescriptor) : M session Z :=
  ids ← select (fun t => x ← t_connector t;
    if decide (co_name x = Some (c_name c) /\ co_rows x = Some (c_rows c) /\ co_family x = f_id (c_family c)) then [co_id x] else []);
  match_connectors (c_pins c) ids.
Fixpoint insert_pins (id : Z) (ps : list descriptor) : M session (list descriptor) :=
  match ps with
  | [] => mret []
  | p :: ps =>
      r ← insert_pin p;
      let p := r.2 in
      has ← hasPin id p;
      (if has : bool then mret tt
       else execute (fun t => set_conns (t_connector t) (t_connector_has_pin t ++ [mk_conn_pin id (pin_id p) (row (num p)) (column (num p))]) (t_gpio t) (t_gpio_has_connector t) t));;
      ps ← insert_pins id ps;
      mret (p :: ps)
  end.
Definition insert_connector (c : cdescriptor) : M session (bool * cdescriptor) :=
  cid ← find_connector c;
  if cid <? 0 then
    id ← new_id (fun t => co_id <$> t_connector t) (c_id c);
    execute (fun t => set_conns (t_connector t ++ [mk_conn_row id (Some (c_name c)) (Some (c_rows c)) (f_id (c_family c))]) (t_connector_has_pin t) (t_gpio t) (t_gpio_has_connector t) t);;
    ps ← insert_pins id (c_pins c);
    mret (true, set_cid id ps c)
  else mret (false, set_cid cid (c_pins c) c).
Fixpoint load_pins (soc : Z) (rows : list conn_pin) : M session (list descriptor) :=
  match rows with
  | [] => mret []
  | x :: rows => p ← load_pin soc (cp_pin x) (cp_row x) (cp_column x); ps ← load_pins soc rows; mret (p :: ps)
  end.
Definition load_connector (soc id number : Z) : M session cdescriptor :=
  let c0 := mk_cdescriptor [] number (-1) family0 id [] in
  if 0 <? id then
    r ← select_row (fun t => filter (fun x => co_id x = id) (t_connector t));
    match r with
    | None => mret c0
    | Some x =>
        f ← setId (co_family x) family0;
        rows ← select (fun t => filter (fun x => cp_conn x = id) (t_connector_has_pin t));
        ps ← load_pins soc rows;
        mret (mk_cdescriptor (fetch [] (co_name x)) number (fetch (-1) (co_rows x)) f id ps)
    end
  else mret c0.

(** ** [Gpio::Descriptor] *)
Record gdescriptor : Type := mk_gdescriptor { g_name : bytes; g_id : Z; g_connectors : list cdescriptor }.
Definition hasConnector (id : Z) (c : cdescriptor) : M session bool :=
  r ← select_row (fun t => x ← t_gpio_has_connector t; if decide (gc_gpio x = id /\ gc_conn x = c_id c) then [gc_conn x] else []);
  mret (bool_decide (is_Some r)).
Definition find_gpio (g : gdescriptor) : M session Z :=
  r ← select_row (fun t => x ← t_gpio t; if decide (x.2 = g_name g) then [x.1] else []); mret (default (-1) r).
Fixpoint insert_connectors (id : Z) (cs : list cdescriptor) : M session (list cdescriptor) :=
  match cs with
  | [] => mret []
  | c :: cs =>
      r ← insert_connector c;
      let c := r.2 in
      has ← hasConnector id c;
      (if has : bool then mret tt
       else execute (fun t => set_conns (t_connector t) (t_connector_has_pin t) (t_gpio t) (t_gpio_has_connector t ++ [mk_gpio_conn (c_number c) id (c_id c)]) t));;
      cs ← insert_connectors id cs;
      mret (c :: cs)
  end.
(** [strict]: the column [board_family_id], which the statement does not give, may not be null. *)
Definition insert_gpio (strict : bool) (g : gdescriptor) : M session (bool * gdescriptor) :=
  gid ← find_gpio g;
  if gid <? 0 then
    if strict then throw RuntimeError
    else id ← new_id (fun t => (t_gpio t).*1) (g_id g);
         execute (fun t => set_conns (t_connector t) (t_connector_has_pin t) (t_gpio t ++ [(id, g_name g)]) (t_gpio_has_connector t) t);;
         cs ← insert_connectors id (g_connectors g);
         mret (true, mk_gdescriptor (g_name g) id cs)
  else mret (false, mk_gdescriptor (g_name g) gid (g_connectors g)).
Fixpoint load_connectors (soc : Z) (rows : list gpio_conn) : M session (list cdescriptor) :=
  match rows with
  | [] => mret []
  | x :: rows => c ← load_connector soc (gc_conn x) (gc_num x); cs ← load_connectors soc rows; mret (c :: cs)
  end.
Definition load_gpio (soc id : Z) : M session gdescriptor :=
  if 0 <? id then
    r ← select_row (fun t => x ← t_gpio t; if x.1 =? id then [x.2] else []);
    match r with
    | None => mret (mk_gdescriptor [] id [])
    | Some name =>
        rows ← select (fun t => filter (fun x => gc_gpio x = id) (t_gpio_has_connector t));
        cs ← load_connectors soc rows;
        mret (mk_gdescriptor name id cs)
    end
  else mret (mk_gdescriptor [] id []).
End Queries.

(** ** What a query answers *)
Section Answers.
Context {Q : Sql} {OK : SqlOk Q}.
Lemma select_answers {A} (q : tables -> list A) s : is_open s = true -> exists rows, select q s = (Ok rows, s) /\ rows ≡ₚ q (db s).
Proof. intros Ho. exists (order (q (db s))). unfold select. rewrite Ho. split; [done|apply order_perm]. Qed.
Lemma select_row_answers {A} (q : tables -> list A) s : is_open s = true ->
  exists o, select_row q s = (Ok o, s) /\ match o with Some x => x ∈ q (db s) | None => q (db s) = [] end.
Proof.
  intros Ho. destruct (select_answers q s Ho) as (rows & H & Hp). exists (head rows). unfold select_row. rewrite (M_bind_ok _ _ _ _ _ _ _ _ H). split; [done|].
  destruct rows as [|x rows]; cbn; [by apply Permutation_nil_l in Hp|]. rewrite <- Hp. by left.
Qed.
Lemma select_row_unique {A} (q : tables -> list A) s x : is_open s = true -> x ∈ q (db s) -> (forall y, y ∈ q (db s) -> y = x) -> select_row q s = (Ok (Some x), s).
Proof.
  intros Ho Hx Hu. destruct (select_row_answers q s Ho) as (o & -> & H). destruct o as [y|]; [by rewrite (Hu y H)|]. rewrite H in Hx. by apply elem_of_nil in Hx.
Qed.
Lemma select_row_none {A} (q : tables -> list A) s : is_open s = true -> q (db s) = [] -> select_row q s = (Ok None, s).
Proof. intros Ho Hq. destruct (select_row_answers q s Ho) as ([x|] & -> & H); [|done]. rewrite Hq in H. by apply elem_of_nil in H. Qed.
Lemma execute_open f s : is_open s = true -> execute f s = (Ok tt, mk_session true (f (db s))).
Proof. intros Ho. unfold execute. by rewrite Ho. Qed.
Lemma new_id_auto ids s : is_open s = true -> new_id ids (-1) s = (Ok (auto_id (ids (db s))), s).
Proof. intros Ho. unfold new_id. by rewrite Ho. Qed.

(** ** The enumerations *)
Lemma mode_of_id_of m : mode_of_id (mode_id m) = Some m.
Proof. by destruct m. Qed.
Lemma mode_id_of i m : mode_of_id i = Some m -> mode_id m = i.
Proof.
  unfold mode_of_id. destruct (Z.eqb_spec i (-1)) as [->|]; [by intros [= <-]|]. destruct (Z.leb_spec 0 i); [|done]. intros Hl.
  rewrite <- (Z2Nat.id i) by done. revert Hl. generalize (Z.to_nat i). clear. intros n. do 14 (destruct n as [|n]; [by intros [= <-]|]). done.
Qed.
Lemma mode_id_inj m m' : mode_id m = mode_id m' -> m = m'.
Proof. intros H. pose proof (mode_of_id_of m) as H1. rewrite H, mode_of_id_of in H1. congruence. Qed.
Lemma type_of_id_of t : type_of_id (type_id t) = t.
Proof. by destruct t. Qed.

(** ** Maps from modes to names *)
Definition before (x y : mode * string) : Prop := mode_id x.1 < mode_id y.1.
Definition sorted_names : list (mode * string) -> Prop := StronglySorted before.
Lemma put_name_elem m n l x : sorted_names l -> x ∈ put_name m n l <-> x = (m, n) \/ (x ∈ l /\ x.1 <> m).
Proof.
  intros Hs. induction Hs as [|[m' n'] l Hl IH Hb]; cbn; [set_solver|]. rewrite Forall_forall in Hb.
  assert (Hne : forall y, y ∈ l -> y.1 <> m') by (intros y Hy He; apply Hb in Hy; unfold before in Hy; cbn in Hy; rewrite He in Hy; lia).
  destruct (Z.ltb_spec (mode_id m) (mode_id m')) as [Hlt|Hge].
  - rewrite !elem_of_cons. split; [|naive_solver]. intros [->|[->|Hx]]; [by left| |]; right; (split; [set_solver|]); cbn.
    + intros ->. lia.
    + intros He. pose proof (Hb x Hx) as Hx'. unfold before in Hx'. cbn in Hx'. rewrite He in Hx'. lia.
  - case_decide as Hd; [subst m'|].
    + rewrite !elem_of_cons. split; [intros [->|Hx]; [by left|right; split; [by right|by apply Hne]]|]. intros [->|[[->|Hx] Hm]]; [by left|done|by right].
    + rewrite elem_of_cons, IH. rewrite elem_of_cons. split; [|naive_solver]. intros [->|[->|[Hx Hm]]]; [right; split; [by left|done]|by left|right; split; [by right|done]].
Qed.
Lemma put_name_sorted m n l : sorted_names l -> sorted_names (put_name m n l).
Proof.
  intros Hs. induction Hs as [|[m' n'] l Hl IH Hb]; cbn; [repeat constructor|]. pose proof Hb as Hb'. rewrite Forall_forall in Hb.
  destruct (Z.ltb_spec (mode_id m) (mode_id m')) as [Hlt|Hge].
  - constructor; [by constructor|]. constructor; [done|]. rewrite Forall_forall. intros y Hy. apply Hb in Hy. unfold before in *. cbn in *. lia.
  - case_decide as Hd; [subst; by constructor|]. constructor; [done|]. rewrite Forall_forall. intros y Hy. apply put_name_elem in Hy as [->|[Hy _]]; [|by apply Hb|done].
    unfold before. cbn. assert (mode_id m <> mode_id m') by (intros ?%mode_id_inj; done). lia.
Qed.
Lemma sorted_names_eq l l' : sorted_names l -> sorted_names l' -> (forall x, x ∈ l <-> x ∈ l') -> l = l'.
Proof.
  assert (Hnd : forall l, sorted_names l -> NoDup l).
  { clear. intros l. induction 1 as [|x l _ IH Hb]; constructor; [|done]. intros Hx. rewrite Forall_forall in Hb. apply Hb in Hx. unfold before in Hx. lia. }
  intros Hs Hs' He. assert (AntiSymm (=) before) by (intros x y Hx Hy; unfold before in *; lia).
  apply (StronglySorted_unique before); [done|done|]. apply NoDup_Permutation; auto.
Qed.
Lemma tab_elem l m n : sorted_names l -> tab l m = Some n <-> (m, n) ∈ l.
Proof.
  intros Hs. induction Hs as [|[m' n'] l Hl IH Hb]; cbn; [set_solver|]. rewrite Forall_forall in Hb. rewrite elem_of_cons. case_decide as Hd.
  - subst m'. split; [intros [= ->]; by left|]. intros [[= ->]|Hx]; [done|]. apply Hb in Hx. unfold before in Hx. cbn in Hx. lia.
  - rewrite IH. split; [by right|]. intros [[= -> _]|]; done.
Qed.

(** ** The names of pins *)
Record pins_wf (t : tables) : Prop := {
  w_pin : NoDup (t_pin t).*1;
  w_name_id : NoDup (t_pin_name t).*1;
  w_name : NoDup (t_pin_name t).*2;
  w_name_pos : forall x, x ∈ t_pin_name t -> 0 <= x.1;
  w_row : forall p i m, (p, i, m) ∈ t_pin_has_name t -> 0 < p /\ p ∈ (t_pin t).*1 /\ i ∈ (t_pin_name t).*1 /\ is_Some (mode_of_id m);
  w_mode : NoDup ((fun x => (x.1.1, x.2)) <$> t_pin_has_name t);
  w_soc : forall x, x ∈ t_soc_has_pin t -> sp_pin x ∈ (t_pin t).*1 }.
Lemma fst_unique {A B} (l : list (A * B)) a b b' : NoDup l.*1 -> (a, b) ∈ l -> (a, b') ∈ l -> b = b'.
Proof.
  intros Hnd. induction l as [|[x y] l IH]; [by intros ?%elem_of_nil|]. cbn in Hnd. apply NoDup_cons in Hnd as [Hx Hnd]. rewrite !elem_of_cons.
  intros [E1|H1] [E2|H2]; simplify_eq/=; [done| | |auto]; exfalso; apply Hx, list_elem_of_fmap; [by exists (x, b')|by exists (x, b)].
Qed.
Lemma fst_elem {A B} (l : list (A * B)) a : a ∈ l.*1 <-> exists b, (a, b) ∈ l.
Proof. rewrite list_elem_of_fmap. split; [intros ([? b] & -> & H); by exists b|]. intros [b H]. by exists (a, b). Qed.
Lemma pin_names_elem id t n m : (n, m) ∈ pin_names id t <-> exists i, (id, i, m) ∈ t_pin_has_name t /\ (i, n) ∈ t_pin_name t.
Proof.
  unfold pin_names. rewrite list_elem_of_bind. split.
  - intros ([[p i] j] & H & Hr). destruct (Z.eqb_spec p id) as [->|]; [|by apply elem_of_nil in H]. apply list_elem_of_bind in H as ([i' n'] & H & Hn). cbn in H.
    destruct (Z.eqb_spec i' i) as [->|]; [|by apply elem_of_nil in H]. apply list_elem_of_singleton in H as [= -> ->]. by exists i.
  - intros (i & Hr & Hn). exists (id, i, m). split; [|done]. rewrite Z.eqb_refl. apply list_elem_of_bind. exists (i, n). split; [|done]. cbn. rewrite Z.eqb_refl. by left.
Qed.
Lemma named_elem p n m t : p ∈ named n m t <-> (n, mode_id m) ∈ pin_names p t.
Proof.
  rewrite pin_names_elem. unfold named. rewrite list_elem_of_bind. split.
  - intros ([[p' i] j] & H & Hr). destruct (Z.eqb_spec j (mode_id m)) as [Hj|]; [subst j|by apply elem_of_nil in H]. apply list_elem_of_bind in H as ([i' n'] & H & Hn). cbn in H.
    destruct (Z.eqb_spec i' i) as [->|]; [|by apply elem_of_nil in H]. case_bool_decide; cbn in H; [subst|by apply elem_of_nil in H]. apply list_elem_of_singleton in H as ->. by exists i.
  - intros (i & Hr & Hn). exists (p, i, mode_id m). split; [|done]. rewrite Z.eqb_refl. apply list_elem_of_bind. exists (i, n). split; [|done]. cbn.
    rewrite Z.eqb_refl, bool_decide_eq_true_2 by done. by left.
Qed.
Lemma mode_row t p i i' m : pins_wf t -> (p, i, m) ∈ t_pin_has_name t -> (p, i', m) ∈ t_pin_has_name t -> i = i'.
Proof.
  intros [_ _ _ _ _ Hm _]. induction (t_pin_has_name t) as [|[[q j] k] l IH]; [by intros ?%elem_of_nil|]. cbn in Hm. apply NoDup_cons in Hm as [Hx Hm]. rewrite !elem_of_cons.
  intros [E1|H1] [E2|H2]; simplify_eq/=; [done| | |auto]; exfalso; apply Hx, list_elem_of_fmap; [by eexists (_, _, _)|by eexists (_, _, _)].
Qed.
Lemma pin_names_fun t p n n' m : pins_wf t -> (n, m) ∈ pin_names p t -> (n', m) ∈ pin_names p t -> n = n'.
Proof.
  intros Hw. rewrite !pin_names_elem. intros (i & Hr & Hn) (i' & Hr' & Hn'). rewrite (mode_row _ _ _ _ _ Hw Hr' Hr) in Hn'. eapply fst_unique; [apply Hw|done|done].
Qed.
Lemma pin_names_NoDup t p : pins_wf t -> NoDup (pin_names p t).
Proof.
  intros Hw. apply NoDup_bind.
  - intros [[p1 i1] m1] [[p2 i2] m2] [n m] H1 H2. destruct (Z.eqb_spec p1 p) as [->|]; [|by intros ?%elem_of_nil]. destruct (Z.eqb_spec p2 p) as [->|]; [|by intros _ ?%elem_of_nil].
    rewrite !list_elem_of_bind. intros ([j1 n1] & E1 & N1) ([j2 n2] & E2 & N2). cbn in *.
    destruct (Z.eqb_spec j1 i1); [|by apply elem_of_nil in E1]. destruct (Z.eqb_spec j2 i2); [|by apply elem_of_nil in E2].
    apply list_elem_of_singleton in E1 as [= -> ->]. apply list_elem_of_singleton in E2 as [= -> ->]. by rewrite (mode_row _ _ _ _ _ Hw H1 H2).
  - intros [[q i] m] _. destruct (q =? p); [|constructor]. apply NoDup_bind.
    + intros [j1 n1] [j2 n2] y H1 H2. cbn. destruct (Z.eqb_spec j1 i) as [->|]; [|by intros ?%elem_of_nil]. destruct (Z.eqb_spec j2 i) as [->|]; [|by intros _ ?%elem_of_nil].
      intros _ _. by rewrite (fst_unique _ _ _ _ (w_name_id _ Hw) H1 H2).
    + intros [j n] _. cbn. destruct (j =? i); repeat constructor. by intros ?%elem_of_nil.
    + eapply NoDup_fmap_1, (w_name_id _ Hw).
  - eapply NoDup_fmap_1, (w_mode _ Hw).
Qed.

(** A pin has the names of a descriptor. *)
Definition has_names (ns : list (mode * string)) (rows : list (string * Z)) : Prop := forall m n, (m, n) ∈ ns -> (n, mode_id m) ∈ rows.
Lemma agrees_elem ns x : sorted_names ns -> agrees ns x = true <-> exists m, mode_of_id x.2 = Some m /\ (m, x.1) ∈ ns.
Proof.
  intros Hs. unfold agrees. destruct (mode_of_id x.2) as [m|]; [|split; [done|by intros (? & ? & _)]]. rewrite bool_decide_eq_true, tab_elem by done.
  split; [intros H; by exists m|]. by intros (? & [= <-] & H).
Qed.
Definition as_name (x : string * Z) : mode * string := (default ModeUnknown (mode_of_id x.2), x.1).
Lemma agree_all ns rows : sorted_names ns -> NoDup rows -> length (filter (fun x => agrees ns x = true) rows) = length ns <-> has_names ns rows.
Proof.
  intros Hs Hnd. set (F := filter _ rows). set (G := as_name <$> F).
  assert (HF : forall x, x ∈ F <-> x ∈ rows /\ exists m, mode_of_id x.2 = Some m /\ (m, x.1) ∈ ns).
  { intros x. unfold F. rewrite list_elem_of_filter, agrees_elem by done. tauto. }
  assert (HG : NoDup G).
  { apply NoDup_fmap_2_strong; [|by apply NoDup_filter]. intros [n i] [n' i'] (_ & m & Hm & _)%HF (_ & m' & Hm' & _)%HF. unfold as_name. cbn in *. rewrite Hm, Hm'. intros [= -> ->].
    by rewrite <- (mode_id_of _ _ Hm), <- (mode_id_of _ _ Hm'). }
  assert (Hsub : forall x, x ∈ G -> x ∈ ns).
  { intros x (y & -> & (_ & m & Hm & H)%HF)%list_elem_of_fmap. unfold as_name. by rewrite Hm. }
  assert (Hlen : length F = length G) by (unfold G; by rewrite length_fmap). rewrite Hlen. split.
  - intros He m n Hin. assert (HP : G ≡ₚ ns) by (apply submseteq_length_Permutation; [by apply NoDup_submseteq|lia]). rewrite <- HP in Hin.
    apply list_elem_of_fmap in Hin as ([n' i] & Hx & Hi). apply HF in Hi as (Hr & m' & Hm' & _). unfold as_name in Hx. cbn in *. rewrite Hm' in Hx. injection Hx as -> ->.
    by rewrite (mode_id_of _ _ Hm').
  - intros Hall. assert (HP : ns ≡ₚ G).
    { apply NoDup_Permutation; [|done|].
      - clear -Hs. induction Hs as [|x l _ IH Hb]; constructor; [|done]. intros Hx. rewrite Forall_forall in Hb. apply Hb in Hx. unfold before in Hx. lia.
      - intros [m n]. split; [|apply Hsub]. intros Hin. apply list_elem_of_fmap. exists (n, mode_id m). unfold as_name. cbn. rewrite mode_of_id_of. split; [done|].
        apply HF. cbn. rewrite mode_of_id_of. split; [by apply Hall|]. by exists m. }
    by rewrite HP.
Qed.

(** ** Finding a pin by its names *)
Definition pin_has (ns : list (mode * string)) (t : tables) (p : Z) : Prop := has_names ns (pin_names p t).
Lemma match_pins_first ns s ids : is_open s = true -> pins_wf (db s) -> sorted_names ns -> Forall (fun p => 0 < p) ids ->
  exists r, match_pins ns ids s = (Ok r, s) /\ ((r = -1 /\ Forall (fun p => ~ pin_has ns (db s) p) ids) \/ (r ∈ ids /\ pin_has ns (db s) r)).
Proof.
  intros Ho Hw Hs. induction 1 as [|p ids Hp _ IH]; [exists (-1); split; [done|]; by left|]. cbn [match_pins].
  destruct (select_answers (pin_names p) s Ho) as (rows & H & HP). rewrite (M_bind_ok _ _ _ _ _ _ _ _ H).
  assert (Hrows : has_names ns rows <-> pin_has ns (db s) p) by (unfold pin_has, has_names; by setoid_rewrite HP).
  pose proof (agree_all ns rows Hs) as Ha. rewrite Hrows in Ha. rewrite HP in Ha at 1. specialize (Ha (pin_names_NoDup _ p Hw)).
  case_bool_decide as Hl.
  - exists p. split; [done|]. right. split; [by left|]. by apply Ha.
  - destruct IH as (r & Hr & Hc). exists r. split; [done|]. destruct Hc as [[-> Hf]|[Hin Hc]]; [left|right; split; [by right|done]]. split; [done|]. constructor; [|done]. by rewrite <- Ha.
Qed.
Lemma findId_exact ns s : is_open s = true -> pins_wf (db s) -> sorted_names ns ->
  exists r, findId ns s = (Ok r, s) /\ ((r = -1 /\ (ns = [] \/ forall p, ~ pin_has ns (db s) p)) \/ (0 < r /\ ns <> [] /\ r ∈ (t_pin (db s)).*1 /\ pin_has ns (db s) r)).
Proof.
  intros Ho Hw Hs. destruct ns as [|[m n] ns]; [exists (-1); split; [done|]; left; split; [done|]; by left|]. cbn [findId].
  destruct (select_answers (named n m) s Ho) as (ids & H & HP). rewrite (M_bind_ok _ _ _ _ _ _ _ _ H).
  assert (Hids : forall p, p ∈ ids -> 0 < p /\ p ∈ (t_pin (db s)).*1).
  { intros p Hp. rewrite HP in Hp. apply named_elem, pin_names_elem in Hp as (i & Hr & _). by apply (w_row _ Hw) in Hr as (? & ? & _). }
  destruct (match_pins_first ((m, n) :: ns) s ids Ho Hw Hs) as (r & Hr & Hc); [rewrite Forall_forall; intros p Hp; by apply Hids|]. exists r. split; [done|].
  destruct Hc as [[-> Hf]|[Hin Hc]]; [left|right; destruct (Hids r Hin); by split_and!]. split; [done|]. right. intros p Hp. rewrite Forall_forall in Hf. apply (Hf p); [|done].
  rewrite HP. apply named_elem, Hp. by left.
Qed.
Lemma findName_exact n s : is_open s = true -> pins_wf (db s) ->
  exists r, findName n s = (Ok r, s) /\ ((r = -1 /\ n ∉ (t_pin_name (db s)).*2) \/ (0 <= r /\ (r, n) ∈ t_pin_name (db s))).
Proof.
  intros Ho Hw. unfold findName. set (q := fun t : tables => _). destruct (select_row_answers q s Ho) as (o & H & Hx). rewrite (M_bind_ok _ _ _ _ _ _ _ _ H).
  exists (default (-1) o). split; [done|]. destruct o as [i|]; cbn.
  - right. unfold q in Hx. apply list_elem_of_bind in Hx as ([j k] & Hx & Hj). cbn in Hx. case_decide; [subst|by apply elem_of_nil in Hx].
    apply list_elem_of_singleton in Hx as ->. split; [by apply (w_name_pos _ Hw) in Hj|done].
  - left. split; [done|]. intros (x & -> & Hin)%list_elem_of_fmap. assert (Hq : x.1 ∈ q (db s)); [|rewrite Hx in Hq; by apply elem_of_nil in Hq].
    apply list_elem_of_bind. exists x. split; [|done]. rewrite decide_True by done. by left.
Qed.

(** One more name of a pin *)
Definition add_row (p i m : Z) (t : tables) : tables := set_pins (t_pin t) (t_pin_name t) (t_pin_has_name t ++ [(p, i, m)]) t.
Definition add_name (i : Z) (n : string) (t : tables) : tables := set_pins (t_pin t) (t_pin_name t ++ [(i, n)]) (t_pin_has_name t) t.
Definition add_pin (id k : Z) (t : tables) : tables := set_pins (t_pin t ++ [(id, k)]) (t_pin_name t) (t_pin_has_name t) t.
Lemma add_name_wf i n t : pins_wf t -> 0 <= i -> i ∉ (t_pin_name t).*1 -> n ∉ (t_pin_name t).*2 ->
  pins_wf (add_name i n t) /\ forall p x, x ∈ pin_names p (add_name i n t) <-> x ∈ pin_names p t.
Proof.
  intros Hw Hi Hni Hnn. split.
  - destruct Hw. split; cbn; try done.
    + rewrite fmap_app. apply NoDup_app. split; [done|]. split; [|repeat constructor; by intros ?%elem_of_nil]. intros x Hx ->%list_elem_of_singleton. done.
    + rewrite fmap_app. apply NoDup_app. split; [done|]. split; [|repeat constructor; by intros ?%elem_of_nil]. intros x Hx ->%list_elem_of_singleton. done.
    + intros x [Hx| ->%list_elem_of_singleton]%elem_of_app; [by apply w_name_pos0|done].
    + intros p j m Hr. apply w_row0 in Hr as (? & ? & Hj & ?). split_and!; try done. rewrite fmap_app, elem_of_app. by left.
  - intros p [k m]. rewrite !pin_names_elem. cbn. split; intros (j & Hr & Hn); exists j; (split; [done|]); [|apply elem_of_app; by left].
    apply elem_of_app in Hn as [|[= -> ->]%list_elem_of_singleton]; [done|]. apply (w_row _ Hw) in Hr as (_ & _ & Hj & _). done.
Qed.
Lemma add_row_wf p i n m t : pins_wf t -> 0 < p -> p ∈ (t_pin t).*1 -> (i, n) ∈ t_pin_name t -> (forall k, (k, mode_id m) ∉ pin_names p t) ->
  pins_wf (add_row p i (mode_id m) t) /\ forall q x, x ∈ pin_names q (add_row p i (mode_id m) t) <-> x ∈ pin_names q t \/ (q = p /\ x = (n, mode_id m)).
Proof.
  intros Hw Hp0 Hp Hi Hnew. assert (Hnr : forall j, (p, j, mode_id m) ∉ t_pin_has_name t).
  { intros j Hr. pose proof Hr as Hr'. apply (w_row _ Hw) in Hr as (_ & _ & [k Hk]%fst_elem & _). apply (Hnew k), pin_names_elem. by exists j. }
  split.
  - destruct Hw. split; cbn; try done.
    + intros p' j k [Hr|[= -> -> ->]%list_elem_of_singleton]%elem_of_app; [by apply w_row0 in Hr|]. split_and!; try done; [apply fst_elem; by exists n|by rewrite mode_of_id_of].
    + rewrite fmap_app. apply NoDup_app. split; [done|]. split; [|repeat constructor; by intros ?%elem_of_nil]. intros x ([[q j] k] & -> & Hr)%list_elem_of_fmap. cbn. intros [= -> ->]%list_elem_of_singleton. by apply (Hnr j).
  - intros q [k j]. rewrite !pin_names_elem. cbn. split.
    + intros (l & [Hr|[= -> -> ->]%list_elem_of_singleton]%elem_of_app & Hn); [left; by exists l|right]. split; [done|]. by rewrite (fst_unique _ _ _ _ (w_name_id _ Hw) Hn Hi).
    + intros [(l & Hr & Hn)|[-> [= -> ->]]]; [exists l; split; [apply elem_of_app; by left|done]|]. exists i. split; [apply elem_of_app; right; by left|done].
Qed.

Definition pins_only (t t' : tables) : Prop := exists p n h, t' = set_pins p n h t.
Lemma pins_only_trans t1 t2 t3 : pins_only t1 t2 -> pins_only t2 t3 -> pins_only t1 t3.
Proof. intros (p & n & h & ->) (p' & n' & h' & ->). by exists p', n', h'. Qed.
Lemma hasModeName_new p m i t : pins_wf t -> (forall k, (k, mode_id m) ∉ pin_names p t) -> hasModeName p m i (mk_session true t) = (Ok false, mk_session true t).
Proof.
  intros Hw Hnew. unfold hasModeName. set (q := fun t : tables => _).
  rewrite (M_bind_ok _ _ _ _ _ (mk_session true t) None (mk_session true t)); [done|]. apply select_row_none; [done|]. cbn.
  destruct (q t) as [|x l] eqn:E; [done|]. exfalso. assert (Hx : x ∈ q t) by (rewrite E; by left). unfold q in Hx.
  apply list_elem_of_bind in Hx as (y & Hx & Hy). case_decide as Hd; [subst y|by apply elem_of_nil in Hx].
  pose proof Hy as Hr. apply (w_row _ Hw) in Hy as (_ & _ & [k Hk]%fst_elem & _). apply (Hnew k), pin_names_elem. by exists i.
Qed.
Lemma insertModeName_adds p m n t : pins_wf t -> 0 < p -> p ∈ (t_pin t).*1 -> (forall k, (k, mode_id m) ∉ pin_names p t) ->
  exists t', insertModeName p m n (mk_session true t) = (Ok tt, mk_session true t') /\ pins_wf t' /\ t_pin t' = t_pin t /\ pins_only t t' /\
    forall q x, x ∈ pin_names q t' <-> x ∈ pin_names q t \/ (q = p /\ x = (n, mode_id m)).
Proof.
  intros Hw Hp0 Hp Hnew. set (s := mk_session true t). destruct (findName_exact n s eq_refl Hw) as (r & Hr & Hc). unfold insertModeName. rewrite (M_bind_ok _ _ _ _ _ _ _ _ Hr).
  destruct Hc as [[-> Hnn]|[Hr0 Hin]].
  - change (-1 <? 0) with true. cbv iota. set (j := auto_id (t_pin_name t).*1). pose proof (auto_fresh (t_pin_name t).*1) as Hf. pose proof (auto_pos (t_pin_name t).*1) as Hj.
    set (t1 := add_name j n t). destruct (add_name_wf j n t Hw ltac:(unfold j; lia) Hf Hnn) as [Hw1 Hn1].
    rewrite (M_bind_ok _ _ _ _ _ s j (mk_session true t1)).
    2: { rewrite (M_bind_ok _ _ _ _ _ s j s) by (by apply new_id_auto). by rewrite (M_bind_ok _ _ _ _ _ s tt (mk_session true t1)). }
    assert (Hnew1 : forall k, (k, mode_id m) ∉ pin_names p t1) by (intros k Hk; apply Hn1 in Hk; by apply (Hnew k)).
    rewrite (M_bind_ok _ _ _ _ _ _ _ _ (hasModeName_new p m j t1 Hw1 Hnew1)).
    destruct (add_row_wf p j n m t1 Hw1 Hp0 Hp) as [Hw2 Hn2]; [cbn; apply elem_of_app; right; by left|done|].
    eexists. split; [by rewrite execute_open|]. split; [exact Hw2|]. split; [done|]. split; [by eexists _, _, _|]. intros q x. etrans; [apply Hn2|]. unfold t1. by rewrite Hn1.
  - rewrite (proj2 (Z.ltb_ge r 0)) by done. rewrite (M_bind_ok _ _ _ _ _ s r s) by done. rewrite (M_bind_ok _ _ _ _ _ _ _ _ (hasModeName_new p m r t Hw Hnew)).
    destruct (add_row_wf p r n m t Hw Hp0 Hp Hin Hnew) as [Hw2 Hn2]. eexists. split; [by rewrite execute_open|]. split; [exact Hw2|]. split; [done|]. split; [by eexists _, _, _|exact Hn2].
Qed.
Lemma insert_names_adds p ns : forall t, pins_wf t -> 0 < p -> p ∈ (t_pin t).*1 -> sorted_names ns -> (forall m n k, (m, n) ∈ ns -> (k, mode_id m) ∉ pin_names p t) ->
  exists t', insert_names p ns (mk_session true t) = (Ok tt, mk_session true t') /\ pins_wf t' /\ t_pin t' = t_pin t /\ pins_only t t' /\
    forall q x, x ∈ pin_names q t' <-> x ∈ pin_names q t \/ (q = p /\ exists m n, (m, n) ∈ ns /\ x = (n, mode_id m)).
Proof.
  induction ns as [|[m n] ns IH]; intros t Hw Hp0 Hp Hs Hnew.
  { exists t. split; [done|]. split; [done|]. split; [done|]. split; [by exists (t_pin t), (t_pin_name t), (t_pin_has_name t); destruct t|]. intros q x. split; [by left|]. intros [|(_ & ? & ? & H & _)]; [done|by apply elem_of_nil in H]. }
  apply StronglySorted_inv in Hs as [Hs Hb]. rewrite Forall_forall in Hb.
  destruct (insertModeName_adds p m n t Hw Hp0 Hp) as (t1 & H1 & Hw1 & Hp1 & Ho1 & Hn1); [intros k; eapply Hnew; by left|].
  destruct (IH t1 Hw1 Hp0) as (t2 & H2 & Hw2 & Hp2 & Ho2 & Hn2); [by rewrite Hp1|done| |].
  { intros m' n' k Hin. rewrite Hn1. intros [Hx|[_ [= -> Hm]]]; [eapply Hnew; [by right|exact Hx]|]. apply Hb in Hin. unfold before in Hin. cbn in Hin. lia. }
  exists t2. split; [cbn [insert_names]; by rewrite (M_bind_ok _ _ _ _ _ _ _ _ H1)|]. split; [done|]. split; [congruence|]. split; [by eapply pins_only_trans|].
  intros q x. rewrite Hn2, Hn1. setoid_rewrite elem_of_cons. naive_solver.
Qed.
Lemma add_pin_wf id k t : pins_wf t -> id ∉ (t_pin t).*1 -> pins_wf (add_pin id k t) /\ pin_names id (add_pin id k t) = [].
Proof.
  intros Hw Hid. split.
  - destruct Hw. split; cbn; try done.
    + rewrite fmap_app. apply NoDup_app. split; [done|]. split; [|repeat constructor; by intros ?%elem_of_nil]. intros x Hx ->%list_elem_of_singleton. done.
    + intros p i m Hr. apply w_row0 in Hr as (? & ? & ? & ?). split_and!; try done. rewrite fmap_app, elem_of_app. by left.
    + intros x Hx. rewrite fmap_app, elem_of_app. left. by apply w_soc0.
  - destruct (pin_names id _) as [|[n m] l] eqn:E; [done|]. exfalso. assert (Hx : (n, m) ∈ pin_names id (add_pin id k t)) by (rewrite E; by left).
    apply pin_names_elem in Hx as (i & Hr & _). apply (w_row _ Hw) in Hr as (_ & Hp & _). done.
Qed.

(** ** Loading a pin *)
Lemma load_names_exact rows : (forall n n' i, (n, i) ∈ rows -> (n', i) ∈ rows -> n = n') ->
  sorted_names (load_names rows) /\ forall m n, (m, n) ∈ load_names rows <-> (n, mode_id m) ∈ rows.
Proof.
  unfold load_names. induction rows as [|[n0 i0] rows IH] using rev_ind; intros Hf; [split; [constructor|]; intros m n; cbn; set_solver|].
  destruct IH as [Hs He]; [intros n n' i H H'; eapply Hf; apply elem_of_app; by left|]. rewrite foldl_app. cbn. set (l := foldl _ _ _) in *.
  destruct (mode_of_id i0) as [m0|] eqn:Em.
  - split; [by apply put_name_sorted|]. intros m n. rewrite put_name_elem, He, elem_of_app, list_elem_of_singleton by done. cbn. split.
    + intros [[= -> ->]|[H _]]; [right; by rewrite (mode_id_of _ _ Em)|by left].
    + intros [H|[= -> Hi]]; [|left; rewrite <- (mode_id_of _ _ Em) in Hi; by apply mode_id_inj in Hi as ->].
      destruct (decide (m = m0)) as [->|]; [left|by right]. f_equal. eapply Hf; [apply elem_of_app; by left|]. apply elem_of_app. right. rewrite (mode_id_of _ _ Em). by left.
  - split; [done|]. intros m n. rewrite He, elem_of_app, list_elem_of_singleton. split; [by left|]. intros [H|[= -> Hi]]; [done|]. rewrite <- Hi, mode_of_id_of in Em. done.
Qed.
Lemma load_pin_row soc id k r c t : pins_wf t -> 0 < id -> (id, k) ∈ t_pin t ->
  exists e, load_pin soc id r c (mk_session true t) = (Ok e, mk_session true t) /\ type_of e = type_of_id k /\ pin_id e = id /\ sorted_names (names e) /\
    (forall m n, (m, n) ∈ names e <-> (n, mode_id m) ∈ pin_names id t) /\
    match numbers id soc t with
    | [] => num e = mk_number (-1) (-1) (-1) r c (-1) (-1)
    | l => exists y, y ∈ l /\ num e = mk_number y.1 (sp_mcu y.2) (sp_system y.2) r c (sp_chip y.2) (sp_offset y.2)
    end.
Proof.
  intros Hw Hid Hk. set (s := mk_session true t). unfold load_pin. rewrite (proj2 (Z.ltb_lt 0 id)) by done. set (q := fun t : tables => _).
  rewrite (M_bind_ok _ _ _ _ _ s (Some k) s).
  2: { apply select_row_unique; [done| |].
       - apply list_elem_of_bind. exists (id, k). split; [|done]. cbn. rewrite Z.eqb_refl. by left.
       - intros y ([i j] & Hy & Hj)%list_elem_of_bind. cbn in Hy. destruct (Z.eqb_spec i id) as [->|]; [|by apply elem_of_nil in Hy]. apply list_elem_of_singleton in Hy as ->.
         by apply (fst_unique _ _ _ _ (w_pin _ Hw) Hj Hk). }
  destruct (select_answers (pin_names id) s eq_refl) as (rows & H1 & HP). rewrite (M_bind_ok _ _ _ _ _ _ _ _ H1).
  destruct (select_row_answers (numbers id soc) s eq_refl) as (o & H2 & Ho). rewrite (M_bind_ok _ _ _ _ _ _ _ _ H2). cbn [db s] in *.
  destruct (load_names_exact rows) as [Hs He]; [intros n n' i; rewrite !HP; by apply pin_names_fun|].
  eexists. split; [reflexivity|]. cbn. split; [done|]. split; [done|]. split; [done|]. split; [intros m n; by rewrite He, HP|].
  destruct o as [y|]; [|by rewrite Ho]. destruct (numbers id soc t) as [|z l] eqn:E; [by apply elem_of_nil in Ho|]. exists y. split; [done|]. by destruct y.
Qed.

(** C17: a pin that is inserted from a descriptor without an identifier (a negative one) can be read back.  Either the
    database has a pin with all its names and is left as it is, or a new pin is made whose type and names are those of
    the descriptor.  If the descriptor has a name, a second insertion finds the pin; without any name it would make
    another.  The numbers of a new pin are lost: the statements for them are never executed. *)
Theorem pin_insert_load soc r c d s : is_open s = true -> pins_wf (db s) -> sorted_names (names d) -> pin_id d < 0 ->
  exists b d' s' e, insert_pin d s = (Ok (b, d'), s') /\ is_open s' = true /\ pins_wf (db s') /\
    load_pin soc (pin_id d') r c s' = (Ok e, s') /\ (forall m n, (m, n) ∈ names d -> tab (names e) m = Some n) /\
    (b = true -> type_of e = type_of d /\ names e = names d /\ num e = mk_number (-1) (-1) (-1) r c (-1) (-1)) /\
    (b = false -> s' = s) /\ (names d <> [] -> insert_pin d' s' = (Ok (false, d'), s')).
Proof.
  destruct s as [o t]. cbn. intros -> Hw Hs Hid. set (s := mk_session true t). destruct (findId_exact (names d) s eq_refl Hw Hs) as (r0 & Hf & Hc). unfold insert_pin at 1.
  rewrite (M_bind_ok _ _ _ _ _ _ _ _ Hf). destruct Hc as [[-> Hnone]|(Hr0 & Hne & [k Hk]%fst_elem & Hhas)].
  - change (-1 <? 0) with true. cbv iota. set (id := auto_id (t_pin t).*1). pose proof (auto_fresh (t_pin t).*1) as Hfr. pose proof (auto_pos (t_pin t).*1) as Hpos. fold id in Hfr, Hpos.
    rewrite (M_bind_ok _ _ _ _ _ s id s) by (unfold new_id; cbn; by rewrite (proj2 (Z.ltb_lt _ 0) Hid)). set (t1 := add_pin id (type_id (type_of d)) t).
    rewrite (M_bind_ok _ _ _ _ _ s tt (mk_session true t1)) by done. destruct (add_pin_wf id (type_id (type_of d)) t Hw Hfr) as [Hw1 Hn1]. fold t1 in Hw1, Hn1.
    assert (Hin1 : (id, type_id (type_of d)) ∈ t_pin t1) by (cbn; apply elem_of_app; right; by left).
    destruct (insert_names_adds id (names d) t1 Hw1 Hpos) as (t2 & H2 & Hw2 & Hp2 & Ho2 & Hn2); [apply fst_elem; by eexists|done|intros m n k _; rewrite Hn1; by intros ?%elem_of_nil|].
    rewrite (M_bind_ok _ _ _ _ _ _ _ _ H2). destruct (load_pin_row soc id (type_id (type_of d)) r c t2 Hw2 Hpos) as (e & He & Ht & Hi & Hse & Hne & Hnum); [by rewrite Hp2|].
    assert (Hnames : names e = names d).
    { apply sorted_names_eq; [done|done|]. intros [m n]. rewrite Hne, Hn2, Hn1. split.
      - intros [?%elem_of_nil|(_ & m' & n' & Hx & [= -> Hm])]; [done|]. by apply mode_id_inj in Hm as ->.
      - intros Hx. right. split; [done|]. by exists m, n. }
    eexists true, (set_id id d), (mk_session true t2), e. split; [done|]. split; [done|]. split; [done|]. split; [done|]. split; [intros m n Hx; rewrite Hnames; by apply tab_elem|].
    split; [intros _; split; [rewrite Ht; apply type_of_id_of|split; [done|]]|split; [done|]].
    + destruct (numbers id soc t2) as [|y l] eqn:E; [done|]. exfalso. assert (Hy : y ∈ numbers id soc t2) by (rewrite E; by left). unfold numbers in Hy.
      apply list_elem_of_bind in Hy as (x & Hy & Hx). destruct (Z.eqb_spec (sp_pin x) id) as [Hsp|]; [|by apply elem_of_nil in Hy].
      destruct Ho2 as (? & ? & ? & ->). apply (w_soc _ Hw) in Hx. by rewrite Hsp in Hx.
    + intros Hnn. set (s2 := mk_session true t2). destruct (findId_exact (names d) s2 eq_refl Hw2 Hs) as (r2 & Hf2 & Hc2). unfold insert_pin. cbn [names set_id].
      rewrite (M_bind_ok _ _ _ _ _ _ _ _ Hf2). assert (r2 = id) as ->; [|by rewrite (proj2 (Z.ltb_ge id 0)) by lia].
      destruct Hc2 as [[_ [|Hno]]|(_ & _ & _ & Hh)]; [done| |].
      * exfalso. apply (Hno id). intros m n Hx. cbn. apply Hn2. right. split; [done|]. by exists m, n.
      * destruct (decide (r2 = id)) as [|Hd]; [done|]. exfalso. destruct Hnone as [|Hnone]; [done|]. apply (Hnone r2). intros m n Hx. apply Hh, Hn2 in Hx. destruct Hx as [Hx|[? _]]; [|done]. exact Hx.
  - rewrite (proj2 (Z.ltb_ge r0 0)) by lia. destruct (load_pin_row soc r0 k r c t Hw Hr0 Hk) as (e & He & _ & _ & Hse & Hee & _).
    eexists false, (set_id r0 d), s, e. split_and!; try done.
    + intros m n Hx. apply tab_elem; [done|]. by apply Hee, Hhas.
    + intros _. unfold insert_pin. cbn [names set_id]. rewrite (M_bind_ok _ _ _ _ _ _ _ _ Hf). by rewrite (proj2 (Z.ltb_ge r0 0)) by lia.
Qed.
End Answers.
End Db.

(** ** An excerpt of database/piduino.db, read in the reverse order *)
Module DbDemo.
Import Db GpioDev2 GpioPin.
#[export] Instance demo_sql : Sql := {| order := @reverse; auto_id l := 1 + foldr Z.max 0 l |}.
Lemma max_above l x : x ∈ l -> x <= foldr Z.max 0 l.
Proof. induction l as [|y l IH]; [by intros ?%elem_of_nil|]. intros [->|Hx]%elem_of_cons; cbn; [lia|]. apply IH in Hx. lia. Qed.
Lemma max_pos l : 0 <= foldr Z.max 0 l.
Proof. induction l; cbn; lia. Qed.
#[export] Instance demo_sql_ok : SqlOk demo_sql.
Proof. split; cbn; [intros A l; apply reverse_Permutation|intros l Hl%max_above; lia|intros l; pose proof (max_pos l); lia]. Qed.
Definition excerpt : tables := {|
  t_pin := [(1, 1); (2, 1); (3, 0); (4, 0); (5, 1)];
  t_pin_name := [(1, "3.3V"); (2, "5V"); (3, "GPIO0"); (4, "SDA0"); (5, "SA5"); (6, "GPIO1"); (7, "SCL0"); (8, "SA4"); (9, "GND")]%string;
  t_pin_has_name := [(1, 1, 0); (2, 2, 0); (3, 3, 0); (3, 3, 1); (3, 4, 4); (3, 5, 5); (4, 6, 0); (4, 6, 1); (4, 7, 4); (4, 8, 5); (5, 9, 0)];
  t_pin_number := [(3, 30); (4, 31)];
  t_soc_has_pin := [mk_soc_pin 1 3 0 0 0 0; mk_soc_pin 1 4 1 1 0 1];
  t_pin_spics := [];
  t_connector := [mk_conn_row 1 (Some (text "p1")) (Some 13) 1; mk_conn_row 2 (Some (text "p1")) (Some 13) 1; mk_conn_row 3 (Some (text "p5")) (Some 4) 1];
  t_connector_family := [(0, text "Header1X", 1); (1, text "Header2X", 2)];
  t_connector_has_pin := [mk_conn_pin 1 1 1 1; mk_conn_pin 1 2 1 2; mk_conn_pin 1 3 2 1; mk_conn_pin 1 2 2 2; mk_conn_pin 1 4 3 1; mk_conn_pin 1 5 3 2];
  t_gpio := [(1, text "rpi-rev1"); (3, text "rpi-rev3"); (11, text "rpi-rev4")];
  t_gpio_has_connector := [mk_gpio_conn 1 1 1];
  t_board := [mk_board_row 69 (Some (text "RaspberryPi 400 (0XC03130)")) (Some 4096) (Some (text "1.0")) 30 3 1 (Some 1) (Some 0) (Some 0);
              mk_board_row 70 (Some (text "RaspberryPi 5 (0XB04170)")) (Some 2048) (Some (text "1.0")) 27 11 1 (Some 1) (Some 0) (Some 0);
              mk_board_row 72 (Some (text "RaspberryPi 5 (0XC04170)")) (Some 4096) (Some (text "1.0")) 27 11 1 (Some 1) (Some 0) (Some 0)];
  t_revision := [(70, 0xB04170); (69, 0xC03130); (72, 0xC04170)];
  t_tag := [];
  t_board_model := [(27, Some (text "RaspberryPi 5"), 0, 6); (30, Some (text "RaspberryPi 400"), 0, 5)];
  t_board_family := [(-1, (Some (text "Unknown"), None, None, None));
                     (0, (Some (text "RaspberryPi"), Some (text "/dev/i2c-%d"), Some (text "/dev/spidev%d.%d"), Some (text "/dev/ttyAMA%d")))];
  t_soc := [mk_soc_row 5 (Some (text "Bcm2711")) 0 0 6 5 6; mk_soc_row 6 (Some (text "Bcm2712")) 0 0 5 5 5];
  t_soc_family := [(-1, Some (text "Unknown")); (0, Some (text "Bcm283x"))];
  t_manufacturer := [(-1, Some (text "Unknown")); (0, Some (text "Broadcom")); (1, Some (text "Sony UK"))];
  t_schema_version := [(0, 3, 1); (0, 3, 2); (0, 3, 3); (0, 3, 4)] |}.
Definition s0 : session := mk_session true excerpt.
Lemma excerpt_wf : pins_wf excerpt.
Proof.
  split; try (apply (bool_decide_eq_true_1 _); vm_compute; reflexivity).
  - apply Forall_forall. by apply (bool_decide_eq_true_1 _); vm_compute.
  - intros p i m. revert p i m. assert (H : Forall (fun x : Z * Z * Z => 0 < x.1.1 /\ x.1.1 ∈ (t_pin excerpt).*1 /\ x.1.2 ∈ (t_pin_name excerpt).*1 /\ is_Some (mode_of_id x.2)) (t_pin_has_name excerpt)).
    { apply (bool_decide_eq_true_1 _). vm_compute. reflexivity. }
    rewrite Forall_forall in H. intros p i m Hin. apply (H _ Hin).
  - apply Forall_forall. apply (bool_decide_eq_true_1 _). vm_compute. reflexivity.
Qed.
Definition gpio2_pin : descriptor := mk_descriptor TypeGpio (mk_number 8 2 2 3 1 0 2) (-1) [(ModeInput, "GPIO2"); (ModeOutput, "GPIO2"); (ModeAlt0, "SDA1")]%string.
Lemma pin_insert_load_witness : exists b d' s' e, insert_pin gpio2_pin s0 = (Ok (b, d'), s') /\ is_open s' = true /\ pins_wf (db s') /\
    load_pin 1 (pin_id d') 3 1 s' = (Ok e, s') /\ (forall m n, (m, n) ∈ names gpio2_pin -> tab (names e) m = Some n) /\
    (b = true -> type_of e = type_of gpio2_pin /\ names e = names gpio2_pin /\ num e = mk_number (-1) (-1) (-1) 3 1 (-1) (-1)) /\
    (b = false -> s' = s0) /\ (names gpio2_pin <> [] -> insert_pin d' s' = (Ok (false, d'), s')).
Proof. apply (pin_insert_load 1 3 1 gpio2_pin s0); [done|apply excerpt_wf|repeat constructor|done]. Defined.
(** A pin without names is inserted once more each time: the search for a pin goes by its names. *)
Lemma nameless_twice : let d := mk_descriptor TypeGpio (mk_number 8 2 2 3 1 0 2) (-1) [] in
  let r1 := insert_pin d s0 in let r2 := insert_pin d r1.2 in length (t_pin (db r1.2)) = 6%nat /\ length (t_pin (db r2.2)) = 7%nat.
Proof. vm_compute. split; reflexivity. Qed.
(** Whatever GPIO is inserted with the schema of the library, the statement is refused. *)
Lemma gpio_insert_refused g s r s' : find_gpio g s = (Ok r, s') -> r < 0 -> insert_gpio true g s = (Throw RuntimeError, s').
Proof. intros H Hr. unfold insert_gpio. rewrite (M_bind_ok _ _ _ _ _ _ _ _ H). by rewrite (proj2 (Z.ltb_lt r 0) Hr). Qed.
End DbDemo.
