(* ===== verification/Board.v ===== *)
(** * The board, src/database.cpp, src/soc.cpp, src/manufacturer.cpp and the choice of the driver in src/gpio/gpio.cpp

    A board is found from the configuration file, from the release file of Armbian or
    from the revision code of a Raspberry Pi, in the tables of Database.v and with what
    System.v knows of the host. *)
From Stdlib Require Import Ascii Sorted SpecFloat.
From S2P Require Import Prelude IoDevice Double Text ArduinoPrint StdStream ConfigFile Mmio Gpio2 GpioPin Connector Volts System Database.
Import Pin.

Module Board.
Import PString ArduinoPrint Db.

(** ** [Manufacturer], [SoC] and their families: an identifier that no row has leaves the object, at first with no identifier *)
Record item : Type := mk_item { i_id : option Z; i_name : bytes }.
Definition item0 : item := mk_item None [].
Record SoC : Type := mk_soc {
  soc_id : option Z; soc_name : bytes; soc_family : item; soc_manufacturer : item; i2cCount : option Z; spiCount : option Z; uartCount : option Z; spiCs : list spics }.
Record Family : Type := mk_bfamily { bf_id : option Z; bf_name : bytes; i2cSysPath : bytes; spiSysPath : bytes; uartSysPath : bytes }.
Record Model : Type := mk_model { m_id : option Z; m_name : bytes; m_family : Family; m_soc : SoC }.
Section Board.
Context {Q : Sql}.
Definition set_item (q : tables -> list (Z * option bytes)) (i : Z) (x : item) : M session item :=
  r ← select_row (fun t => filter (fun y => y.1 = i) (q t));
  mret match r with Some y => mk_item (Some i) (fetch (i_name x) y.2) | None => x end.
Definition set_manufacturer : Z -> item -> M session item := set_item t_manufacturer.
Definition set_soc_family : Z -> item -> M session item := set_item t_soc_family.
Definition chip_selects (i : Z) (t : tables) : list spics :=
  x ← t_soc_has_pin t; if sp_soc x =? i then filter (fun y => cs_pin y = sp_pin x) (t_pin_spics t) else [].
Definition set_soc (i : Z) (x : SoC) : M session SoC :=
  r ← select_row (fun t => filter (fun y => so_id y = i) (t_soc t));
  match r with
  | None => mret x
  | Some y =>
      f ← set_soc_family (so_family y) (soc_family x);
      m ← set_manufacturer (so_manufacturer y) (soc_manufacturer x);
      cs ← select (chip_selects i);
      mret (mk_soc (Some i) (fetch (soc_name x) (so_name y)) f m (Some (so_i2c y)) (Some (so_spi y)) (Some (so_uart y)) cs)
  end.
Definition set_family (i : Z) (x : Family) : M session Family :=
  r ← select_row (fun t => filter (fun y => y.1 = i) (t_board_family t));
  mret match r with
       | Some (_, (n, i2c, spi, uart)) =>
           mk_bfamily (Some i) (fetch (bf_name x) n) (fetch (i2cSysPath x) i2c) (fetch (spiSysPath x) spi) (fetch (uartSysPath x) uart)
       | None => x
       end.
Definition set_model (i : Z) (x : Model) : M session Model :=
  r ← select_row (fun t => filter (fun y => y.1.1.1 = i) (t_board_model t));
  match r with
  | Some (_, n, bf, sid) =>
      f ← set_family bf (m_family x); c ← set_soc sid (m_soc x); mret (mk_model (Some i) (fetch (m_name x) n) f c)
  | None => mret x
  end.
(** The constructors with the identifier -1 *)
Definition new_item (q : tables -> list (Z * option bytes)) : M session item := set_item q (-1) item0.
Definition new_soc : M session SoC :=
  f ← new_item t_soc_family; m ← new_item t_manufacturer; set_soc (-1) (mk_soc None [] f m None None None []).
Definition new_family : M session Family := set_family (-1) (mk_bfamily None [] [] [] []).
Definition new_model : M session Model := f ← new_family; c ← new_soc; set_model (-1) (mk_model None [] f c).

(** ** [Database::Board] *)
Record board : Type := mk_board {
  _id : Z; _model : Model; _manufacturer : item; _gpio_id : Z; _pcb_revision : bytes; _revision : Z; _found : bool; _tag : bytes; _ram : Z;
  _default_i2c_id : Z; _default_spi_id : Z; _default_uart_id : Z; _name : bytes }.
Definition of_row (r : board_row) (ram : Z) (m : Model) (man : item) (rev : Z) (tag : bytes) (b : board) : board :=
  mk_board (bo_id r) m man (bo_gpio r) (fetch (_pcb_revision b) (bo_pcb r)) rev true tag (fetch ram (bo_ram r))
    (fetch (_default_i2c_id b) (bo_i2c r)) (fetch (_default_spi_id b) (bo_spi r)) (fetch (_default_uart_id b) (bo_uart r)) (fetch (_name b) (bo_name r)).
(** The version of the schema: the first row in the descending order *)
Definition version_ge (x y : Z * Z * Z) : bool :=
  let '(a, b, c) := x in let '(a', b', c') := y in
  (a' <? a) || ((a =? a') && ((b' <? b) || ((b =? b') && (c' <=? c)))).
Definition latest (l : list (Z * Z * Z)) : option (Z * Z * Z) :=
  foldr (fun x best => match best with Some y => if version_ge x y then Some x else best | None => Some x end) None l.
Definition schema_version : Z * Z * Z := (0, 3, 4).
Definition check_schema : M session unit :=
  rows ← select t_schema_version;
  match latest rows with
  | Some v => if decide (v = schema_version) then mret tt else throw RuntimeError
  | None => throw RuntimeError
  end.
Definition board0 : M session board :=
  m ← new_model; man ← new_item t_manufacturer; check_schema;; mret (mk_board (-1) m man (-1) [] (-1) false [] (-1) (-1) (-1) (-1) []).

(** The columns of a board that [q] selects *)
Definition select_board (sys : System.system) (q : tables -> list board_row) (rev : board -> Z) (tag : board -> bytes) (b : board) : M session (bool * board) :=
  r ← select_row q;
  match r with
  | None => mret (false, b)
  | Some r =>
      m ← set_model (bo_model r) (_model b);
      man ← set_manufacturer (bo_manufacturer r) (_manufacturer b);
      mret (true, of_row r (System.totalRam sys) m man (rev b) (tag b) b)
  end.
Definition when_open {A} (dflt : A) (m : M session A) : M session A := fun s => if is_open s then m s else (Ok dflt, s).
Definition selectWhereRevision (sys : System.system) (rev : Z) (b : board) : M session (bool * board) := when_open (false, b)
  (select_board sys (fun t => x ← t_board t; y ← t_revision t; if (bo_id x =? y.1) && (y.2 =? rev) then [x] else []) (fun _ => rev) _tag b).
Definition selectWhereTag (sys : System.system) (tag : bytes) (b : board) : M session (bool * board) := when_open (false, b)
  (select_board sys (fun t => x ← t_board t; y ← t_tag t; if (bo_id x =? y.1) && bool_decide (y.2 = tag) then [x] else []) _revision (fun _ => tag) b).
(** The rows with the model: the last one, unless two have different connectors.  A null leaves a local
    variable as the rows before left it, [junk] before the first one. *)
Fixpoint same_gpio (prev : option board_row) (rows : list board_row) : option (option board_row) :=
  match rows with
  | [] => Some prev
  | r :: rows =>
      let g := match prev with Some p => bo_gpio p | None => -1 end in
      if negb (g =? -1) && negb (g =? bo_gpio r) then None else same_gpio (Some r) rows
  end.
Definition last_cell (junk : Z) (cell : board_row -> option Z) (rows : list board_row) : Z := foldl (fun v r => fetch v (cell r)) junk rows.
Definition selectWhereModel (junk modelId : Z) (b : board) : M session (bool * board) :=
  rows ← select (fun t => filter (fun r => bo_model r = modelId) (t_board t));
  match same_gpio None rows with
  | None => mret (false, b)
  | Some None => mret (_found b, b)
  | Some (Some r) =>
      if bo_gpio r =? -1 then mret (_found b, b)
      else m ← set_model modelId (_model b);
           mret (true, mk_board (bo_id r) m (_manufacturer b) (bo_gpio r) (_pcb_revision b) (_revision b) true (_tag b) (_ram b)
                         (last_cell junk bo_i2c rows) (last_cell junk bo_spi rows) (last_cell junk bo_uart rows) (_name b))
  end.

(** ** [selectFromSystem] *)
(** [Model::Id], by the board of a revision code; [Model::Id] counts from 0 in the order of its declaration. *)
Definition model_of_board : list (Z * Z) :=
  [(0x00, 0); (0x01, 1); (0x02, 2); (0x03, 3); (0x04, 5); (0x08, 7); (0x09, 6); (0x06, 4); (0x0c, 8); (0x0d, 20); (0x0e, 21); (0x11, 23);
   (0x12, 24); (0x13, 27); (0x0a, 9); (0x10, 25); (0x14, 26); (0x17, 28); (0x18, 29); (0x19, 31); (0x1a, 30)].
(** [Manufacturer::Id], by the manufacturer of a revision code *)
Definition manufacturer_of_code (c : Z) : Z := default (-1) (tab [(0, 1); (1, 3); (2, 4); (4, 4); (3, 8); (5, 7)] c).
Definition ram_of_code (c dflt : Z) : Z := default dflt (tab [(0, 256); (1, 512); (2, 1024); (3, 2048); (4, 4096); (5, 8192); (6, 16384)] c).
Definition find_text (s p : bytes) : option nat := PString.find_at p s 0.
(** The name and the revision of the circuit board, from the name of the hardware *)
Definition hardware_name (hw pcb name : bytes) : bytes * bytes :=
  match find_text hw (text "Raspberry Pi") with
  | Some 0%nat => match find_text hw (text "Rev ") with Some sz => (drop (sz + 4) hw, take (sz - 1) hw) | None => (pcb, hw) end
  | _ => (pcb, name)
  end.
Definition decode_revision (sys : System.system) (b : board) : M session board :=
  let v := System.raspianInfo sys in
  man ← set_manufacturer (manufacturer_of_code (System.Raspian.manufacturer v)) (_manufacturer b);
  let '(pcb, name) := hardware_name (System.hardware sys) (_pcb_revision b) (_name b) in
  mret (mk_board (_id b) (_model b) man (_gpio_id b) pcb (i32 v) (_found b) (_tag b) (ram_of_code (System.Raspian.memory v) (System.totalRam sys))
          (_default_i2c_id b) (_default_spi_id b) (_default_uart_id b) name).
Definition legacy_hardware : list bytes :=
  [text "BCM2708"; text "BCM2709"; text "BCM2710"; text "BCM2711"; text "BCM2835"; text "BCM2836"; text "BCM2837"; text "BCM2838"].
Definition select_raspian (sys : System.system) (junk : Z) (b : board) : M session (bool * board) :=
  r ← selectWhereRevision sys (i32 (System.raspianInfo sys)) b;
  if r.1 : bool then mret r
  else match tab model_of_board (System.Raspian.board (System.raspianInfo sys)) with
       | None => mret (false, r.2)
       | Some bid =>
           m ← selectWhereModel junk bid r.2;
           if m.1 : bool then b ← decode_revision sys m.2; mret (false, b) else mret (false, m.2)
       end.
Definition select_host (sys : System.system) (junk : Z) (b : board) : M session (bool * board) :=
  if System.a_found (System.armbianInfo sys) then selectWhereTag sys (System.a_board (System.armbianInfo sys)) b
  else if System.Raspian.found (System.raspianInfo sys) then select_raspian sys junk b
  else if (0 <? System.revision sys) && bool_decide (System.hardware sys ∈ legacy_hardware) then selectWhereRevision sys (i32 (System.revision sys)) b
  else mret (false, b).
(** The configuration file: the tag, then the revision; whatever is thrown in the search by the revision is reported as a bad value. *)
Definition caught {S A} (m : M S A) : M S A := fun s => match m s with (Throw UB, s) => (Throw UB, s) | (Throw _, s) => (Throw RuntimeError, s) | r => r end.
Definition select_tag (sys : System.system) (cfg : ConfigFile.config) (b : board) : M session (bool * board) :=
  if System.has "tag" cfg then selectWhereTag sys (System.key "tag" cfg) b else mret (false, b).
Definition select_revision (sys : System.system) (cfg : ConfigFile.config) (b : board) : M session (bool * board) :=
  if System.has "revision" cfg && negb (bool_decide (System.key "revision" cfg = [])) then
    caught (r ← System.of_outcome (StdInt.stoul 0 (System.key "revision" cfg)); selectWhereRevision sys (i32 r) b)
  else mret (false, b).
Definition conf_file (etc : bytes) : bytes := etc ++ text "/piduino.conf".
Definition selectFromSystem (h : System.host) (etc : bytes) (sys : System.system) (junk : Z) (b : board) : M session (bool * board) :=
  if System.fileExists h (conf_file etc) then
    cfg ← System.of_outcome (System.config h (conf_file etc) (byte_of "="));
    r ← select_tag sys cfg b;
    if r.1 : bool then mret r
    else r ← select_revision sys cfg r.2; if r.1 : bool then mret r else select_host sys junk r.2
  else select_host sys junk b.

(** ** The constructors of [Board] and [Database] *)
Definition new_board (h : System.host) (etc : bytes) (sys : System.system) (junk : Z) (fromSystem : bool) : M session board :=
  b ← board0; if fromSystem then r ← selectFromSystem h etc sys junk b; mret r.2 else mret b.
Definition found_or_throw (r : bool * board) : M session board := if r.1 then mret r.2 else throw RuntimeError.
Definition board_of_revision (sys : System.system) (rev : Z) : M session board := b ← board0; r ← selectWhereRevision sys rev b; found_or_throw r.
Definition board_of_tag (sys : System.system) (tag : bytes) : M session board := b ← board0; r ← selectWhereTag sys tag b; found_or_throw r.
(** [findConnectionInfo]; [env] is the environment variable *)
Definition findConnectionInfo (h : System.host) (etc : bytes) (env : option bytes) (cinfo : bytes) : outcome bytes :=
  if bool_decide (cinfo = []) then
    match env with
    | Some e => Ok e
    | None => if System.fileExists h (conf_file etc) then
                match System.config h (conf_file etc) (byte_of "=") with Ok cfg => Ok (System.key "connection_info" cfg) | Throw e => Throw e end
              else Ok []
    end
  else Ok cinfo.
(** [boardList]: the boards with a revision, then those with a tag *)
Definition list_board (x : board_row) (rev : Z) (tag : bytes) (bs : list (Z * board)) : M session (list (Z * board)) :=
  b ← board0;
  m ← set_model (bo_model x) (_model b);
  man ← set_manufacturer (bo_manufacturer x) (_manufacturer b);
  let b := mk_board (bo_id x) m man (bo_gpio x) (fetch (_pcb_revision b) (bo_pcb x)) rev (_found b) tag (fetch (_ram b) (bo_ram x))
             (fetch (_default_i2c_id b) (bo_i2c x)) (fetch (_default_spi_id b) (bo_spi x)) (fetch (_default_uart_id b) (bo_uart x)) (fetch (_name b) (bo_name x)) in
  mret (OrdMap.put (bo_id x) b bs).
Fixpoint list_boards {A} (row : A -> board_row * Z * bytes) (rows : list A) (bs : list (Z * board)) : M session (list (Z * board)) :=
  match rows with
  | [] => mret bs
  | r :: rows => let '(x, rev, tag) := row r in bs ← list_board x rev tag bs; list_boards row rows bs
  end.
Definition boardList : M session (bool * list (Z * board)) := fun s =>
  if is_open s then
    (rows ← select (fun t => x ← t_board t; y ← t_revision t; if bo_id x =? y.1 then [(x, y.2)] else []);
     bs ← list_boards (fun r => (r.1, r.2, [])) rows [];
     rows ← select (fun t => x ← t_board t; y ← t_tag t; if bo_id x =? y.1 then [(x, y.2)] else []);
     bs ← list_boards (fun r => (r.1, -1, r.2)) rows bs;
     mret (negb (bool_decide (bs = [])), bs)) s
  else (Ok (false, []), s).

(** ** The driver of the GPIO, by the chip of the board *)
Inductive driver : Type := Bcm2835Gpio | Rp1Gpio | AllWinnerHxGpio.
Definition driver_of (soc : Z) : outcome driver :=
  match soc with
  | 0 | 1 | 2 | 5 => Ok Bcm2835Gpio
  | 6 => Ok Rp1Gpio
  | 3 | 4 => Ok AllWinnerHxGpio
  | _ => Throw (SystemError 95)
  end.

(** ** Properties *)
Context {OK : SqlOk Q}.
Lemma set_item_total q i x s : is_open s = true -> exists y, set_item q i x s = (Ok y, s).
Proof. intros Ho. unfold set_item. set (f := fun t : tables => _). destruct (select_row_answers f s Ho) as (o & H & _). rewrite (M_bind_ok _ _ _ _ _ _ _ _ H). by eexists. Qed.
Lemma set_soc_total i x s : is_open s = true -> exists y, set_soc i x s = (Ok y, s).
Proof.
  intros Ho. unfold set_soc. set (f := fun t : tables => _). destruct (select_row_answers f s Ho) as ([r|] & H & _); rewrite (M_bind_ok _ _ _ _ _ _ _ _ H); [|by eexists].
  destruct (set_item_total t_soc_family (so_family r) (soc_family x) s Ho) as [y Hy]. rewrite (M_bind_ok _ _ _ _ _ _ _ _ Hy).
  destruct (set_item_total t_manufacturer (so_manufacturer r) (soc_manufacturer x) s Ho) as [z Hz]. rewrite (M_bind_ok _ _ _ _ _ _ _ _ Hz).
  destruct (select_answers (chip_selects i) s Ho) as (cs & Hc & _). rewrite (M_bind_ok _ _ _ _ _ _ _ _ Hc). by eexists.
Qed.
Lemma set_family_total i x s : is_open s = true -> exists y, set_family i x s = (Ok y, s).
Proof. intros Ho. unfold set_family. set (f := fun t : tables => _). destruct (select_row_answers f s Ho) as (o & H & _). rewrite (M_bind_ok _ _ _ _ _ _ _ _ H). by eexists. Qed.
Lemma set_model_total i x s : is_open s = true -> exists y, set_model i x s = (Ok y, s).
Proof.
  intros Ho. unfold set_model. set (f := fun t : tables => _). destruct (select_row_answers f s Ho) as ([[[[j n] bf] sid]|] & H & _); rewrite (M_bind_ok _ _ _ _ _ _ _ _ H); [|by eexists].
  destruct (set_family_total bf (m_family x) s Ho) as [y Hy]. rewrite (M_bind_ok _ _ _ _ _ _ _ _ Hy).
  destruct (set_soc_total sid (m_soc x) s Ho) as [z Hz]. rewrite (M_bind_ok _ _ _ _ _ _ _ _ Hz). by eexists.
Qed.

Lemma same_gpio_from rows : forall p, bo_gpio p <> -1 -> (forall r, r ∈ rows -> bo_gpio r <> -1) ->
  (exists r, same_gpio (Some p) rows = Some (Some r) /\ (r = p \/ r ∈ rows) /\ forall r', r' ∈ rows -> bo_gpio r' = bo_gpio p) \/
  (same_gpio (Some p) rows = None /\ exists r, r ∈ rows /\ bo_gpio r <> bo_gpio p).
Proof.
  induction rows as [|r rows IH]; intros p Hp Hr; [left; exists p; split; [done|]; split; [by left|]; by intros ? ?%elem_of_nil|]. cbn [same_gpio].
  rewrite (proj2 (Z.eqb_neq (bo_gpio p) (-1))) by done. cbn [negb andb]. destruct (Z.eqb_spec (bo_gpio p) (bo_gpio r)) as [He|Hne]; cbn [negb].
  - destruct (IH r) as [(x & Hx & Hin & Hall)|(Hn & x & Hx & Hd)]; [congruence|intros x Hx; apply Hr; by right| |].
    + left. exists x. split; [done|]. split; [right; destruct Hin as [->|]; [by left|by right]|]. intros y [->|Hy]%elem_of_cons; [done|]. rewrite He. by apply Hall.
    + right. split; [done|]. exists x. split; [by right|]. congruence.
  - right. split; [done|]. exists r. split; [by left|done].
Qed.
(** C18: a board whose revision the database does not have is found by its model only when all boards of this
    model have the same connectors: then the board has these connectors and is one of them, in whatever order
    they are read; otherwise nothing is found and the board is as it was. *)
Theorem board_model_exact junk i b s : is_open s = true -> (forall r, r ∈ t_board (db s) -> bo_gpio r <> -1) -> _found b = false ->
  let rows := filter (fun r => bo_model r = i) (t_board (db s)) in
  exists f b', selectWhereModel junk i b s = (Ok (f, b'), s) /\ _found b' = f /\
    (f = true <-> rows <> [] /\ forall r r', r ∈ rows -> r' ∈ rows -> bo_gpio r = bo_gpio r') /\
    (if f then exists r, r ∈ rows /\ _id b' = bo_id r /\ _gpio_id b' = bo_gpio r else b' = b).
Proof.
  intros Ho Hg Hf rows. unfold selectWhereModel. set (q := fun t : tables => _). destruct (select_answers q s Ho) as (l & H & HP). change (q (db s)) with rows in HP.
  rewrite (M_bind_ok _ _ _ _ _ _ _ _ H). assert (Hl : forall r, r ∈ l -> bo_gpio r <> -1) by (intros r Hr; rewrite HP in Hr; apply list_elem_of_filter in Hr as [_ Hr]; by apply Hg).
  destruct l as [|p l].
  - cbn [same_gpio]. rewrite Hf. exists false, b. split; [done|]. split; [done|]. split; [|done]. split; [done|]. intros [Hne _]. by apply Permutation_nil_l in HP.
  - cbn [same_gpio]. change (-1 =? -1) with true. cbn [negb andb].
    destruct (same_gpio_from l p) as [(r & Hr & Hin & Hall)|(Hn & r & Hr & Hd)]; [apply Hl; by left|intros r Hr; apply Hl; by right| |].
    + rewrite Hr. assert (Hrl : r ∈ p :: l) by (rewrite elem_of_cons; by destruct Hin as [->|]; [left|right]). rewrite (proj2 (Z.eqb_neq (bo_gpio r) (-1)) (Hl r Hrl)).
      destruct (set_model_total i (_model b) s Ho) as [m Hm]. rewrite (M_bind_ok _ _ _ _ _ _ _ _ Hm). eexists true, _. split; [done|]. cbn. split; [done|]. split.
      * split; [|done]. intros _. split; [intros E; rewrite E in HP; by apply Permutation_nil_r in HP|].
        assert (Hp : forall x, x ∈ rows -> bo_gpio x = bo_gpio p) by (intros x Hx; rewrite <- HP in Hx; apply elem_of_cons in Hx as [->|Hx]; [done|by apply Hall]).
        intros x y Hx Hy. by rewrite (Hp x Hx), (Hp y Hy).
      * exists r. by rewrite <- HP.
    + rewrite Hn. exists false, b. split; [done|]. split; [done|]. split; [|done]. split; [done|]. intros [_ Hsame]. exfalso. apply Hd. apply Hsame; rewrite <- HP; [by right|by left].
Qed.

(** A revision that the database has *)
Theorem board_revision_exact sys rev b s x : is_open s = true -> x ∈ t_board (db s) -> (bo_id x, rev) ∈ t_revision (db s) ->
  NoDup (bo_id <$> t_board (db s)) -> NoDup (t_revision (db s)).*2 ->
  exists b', selectWhereRevision sys rev b s = (Ok (true, b'), s) /\ _found b' = true /\ _id b' = bo_id x /\ _gpio_id b' = bo_gpio x /\ _revision b' = rev /\
    _ram b' = fetch (System.totalRam sys) (bo_ram x).
Proof.
  intros Ho Hx Hr Hnb Hnr. unfold selectWhereRevision, when_open. rewrite Ho. unfold select_board. set (q := fun t : tables => _).
  assert (Hu : forall i i', (i, rev) ∈ t_revision (db s) -> (i', rev) ∈ t_revision (db s) -> i = i').
  { clear -Hnr. induction (t_revision (db s)) as [|[j k] l IH]; intros i i'; [by intros ?%elem_of_nil|]. cbn in Hnr. apply NoDup_cons in Hnr as [Hk Hnr]. rewrite !elem_of_cons.
    intros [E1|H1] [E2|H2]; simplify_eq/=; [done| | |by apply IH]; exfalso; apply Hk, list_elem_of_fmap; by eexists (_, _). }
  assert (Hb : forall y, y ∈ t_board (db s) -> bo_id y = bo_id x -> y = x).
  { clear -Hnb Hx. induction (t_board (db s)) as [|z l IH]; intros y; [by intros ?%elem_of_nil|]. cbn in Hnb. apply NoDup_cons in Hnb as [Hk Hnb]. apply elem_of_cons in Hx. rewrite elem_of_cons.
    intros [->|Hy] He; destruct Hx as [->|Hx]; [done| | |by apply IH]; exfalso; apply Hk, list_elem_of_fmap; by eexists. }
  rewrite (M_bind_ok _ _ _ _ _ s (Some x) s).
  2: { apply select_row_unique; [done| |].
       - apply list_elem_of_bind. exists x. split; [|done]. apply list_elem_of_bind. exists (bo_id x, rev). split; [|done]. cbn. rewrite !Z.eqb_refl. by left.
       - intros y (z & Hy & Hz)%list_elem_of_bind. apply list_elem_of_bind in Hy as ([i k] & Hy & Hi). cbn in Hy. destruct (Z.eqb_spec (bo_id z) i) as [<-|]; [|by apply elem_of_nil in Hy].
         destruct (Z.eqb_spec k rev) as [Hk|]; [subst k|]; cbn in Hy; [|by apply elem_of_nil in Hy]. apply list_elem_of_singleton in Hy as ->. apply Hb; [done|]. by apply (Hu _ _ Hi Hr). }
  destruct (set_model_total (bo_model x) (_model b) s Ho) as [m Hm]. rewrite (M_bind_ok _ _ _ _ _ _ _ _ Hm).
  destruct (set_item_total t_manufacturer (bo_manufacturer x) (_manufacturer b) s Ho) as [n Hn]. unfold set_manufacturer. rewrite (M_bind_ok _ _ _ _ _ _ _ _ Hn). eexists. by split_and!.
Qed.
(** Without a device tree the branch for the first boards is never taken: the name of the hardware is in
    small letters and is compared with names in capital letters. *)
Lemma legacy_never h junk sys : System.fileExists h System.DeviceTreeModelFile = false -> System.new h junk = Ok sys -> System.hardware sys ∉ legacy_hardware.
Proof.
  intros Hf Hn. pose proof (System.hardware_low h junk sys Hf Hn) as Hl. unfold System.low in Hl. intros Hin. unfold legacy_hardware in Hin.
  repeat (apply elem_of_cons in Hin as [E|Hin]; [rewrite E in Hl; by vm_compute in Hl|]). by apply elem_of_nil in Hin.
Qed.
End Board.
End Board.

Module BoardDemo.
Import Db Board DbDemo.
Definition pi400 : System.host := System.mk_host {[ System.LinuxRevisionFile := Some [0x00; 0xc0; 0x31; 0x31]; System.DeviceTreeModelFile := Some (text "Raspberry Pi 400 Rev 1.1") ]}
  (Some (3885396, 1024)) 321 0 (text "pinfo") (fun _ => false).
Definition sys400 : System.system := match System.new pi400 [] with Ok s => s | Throw _ => System.mk_system [] 0 0 0 0 System.core0 System.armbian0 0 [] end.
Definition blank_board : board :=
  let f := mk_bfamily (Some (-1)) (text "Unknown") [] [] [] in let u := mk_item (Some (-1)) (text "Unknown") in
  mk_board (-1) (mk_model None [] f (mk_soc None [] u u None None None [])) u (-1) [] (-1) false [] (-1) (-1) (-1) (-1) [].
Lemma blank_board_made : board0 s0 = (Ok blank_board, s0).
Proof. vm_compute. reflexivity. Qed.
Lemma board_model_exact_witness : let rows := filter (fun r => bo_model r = 27) (t_board (db s0)) in
  exists f b', selectWhereModel 0 27 blank_board s0 = (Ok (f, b'), s0) /\ _found b' = f /\
    (f = true <-> rows <> [] /\ forall r r', r ∈ rows -> r' ∈ rows -> bo_gpio r = bo_gpio r') /\
    (if f then exists r, r ∈ rows /\ _id b' = bo_id r /\ _gpio_id b' = bo_gpio r else b' = blank_board).
Proof.
  apply (board_model_exact 0 27 blank_board s0); [done| |vm_compute; reflexivity].
  apply Forall_forall. apply (bool_decide_eq_true_1 _). vm_compute. reflexivity.
Defined.
(** A Raspberry Pi 400 with a revision that the database does not have is taken for a Raspberry Pi 5: the models are
    counted in one order by the program and in another one by the table.  It gets the connectors and the driver of
    the Raspberry Pi 5. *)
Lemma pi400_as_pi5 : exists b, new_board pi400 (text "/etc") sys400 0 true s0 = (Ok b, s0) /\ m_name (_model b) = text "RaspberryPi 5" /\
  _name b = text "Raspberry Pi 400" /\ _gpio_id b = 11 /\ driver_of <$> soc_id (m_soc (_model b)) = Some (Ok Rp1Gpio).
Proof. eexists. split; [vm_compute; reflexivity|]. vm_compute. split_and!; reflexivity. Qed.
(** The board was found, and [selectFromSystem] says that it was not. *)
Lemma found_and_false : exists b, selectFromSystem pi400 (text "/etc") sys400 0 blank_board s0 = (Ok (false, b), s0) /\ _found b = true.
Proof. eexists. split; vm_compute; reflexivity. Qed.
End BoardDemo.
