(* ===== verification/GpioDatabase.v ===== *)
(** * The GPIO of a board, from the database, src/gpio/gpio.cpp and src/gpio/gpio_p.h

    The constructor of the GPIO loads its descriptor, chooses the driver of the chip and
    makes the connectors and pins of Connector.v.  A pin at a place of a connector is
    the pin the tables put there, whatever the order in which they are read. *)
From Stdlib Require Import Ascii Sorted.
From S2P Require Import Prelude IoDevice Text ArduinoPrint StdStream ConfigFile Mmio GpioBcm2835 Gpio2 GpioPin PinBcm2711 Connector Volts System Database Board.
Import Pin.

Module GpioDatabase.
Import Gpio2 GpioDev2 GpioPin Connector Db Board.

(** The number function of a family that was not set is null: a connector without pins does not call it. *)
Definition to_cdesc (c : cdescriptor) : outcome cdesc :=
  match fnum (c_family c), c_pins c with
  | Some f, ps => Ok (mk_cdesc (c_name c) (c_number c) (c_rows c) f (f_columns (c_family c)) ps)
  | None, [] => Ok (mk_cdesc (c_name c) (c_number c) (c_rows c) Header1X (f_columns (c_family c)) [])
  | None, _ => Throw UB
  end.
Fixpoint to_cdescs (cs : list cdescriptor) : outcome (list cdesc) :=
  match cs with
  | [] => Ok []
  | c :: cs => match to_cdesc c with
               | Throw e => Throw e
               | Ok d => match to_cdescs cs with Ok ds => Ok (d :: ds) | Throw e => Throw e end
               end
  end.
Section Gpio.
Context {Q : Sql} {W : Type} {L : LineOs W} {G : GpioDriver (W := W)}.
(** [Gpio (gpioDatabaseId, soc, layer)]: the driver is that of [soc]; the numbers of the pins are those of [bsoc], the chip
    of the board of the program. *)
Definition gpio_of (bsoc gid soc layer : Z) (w : W) : M session (driver * gpio (W := W)) :=
  g ← load_gpio bsoc gid;
  dev ← System.of_outcome (driver_of soc);
  ds ← System.of_outcome (to_cdescs (g_connectors g));
  match new_gpio layer ds (mk_heap [] ∅ w) with
  | (Ok _, g) => mret (dev, g)
  | (Throw e, _) => throw e
  end.
(** [Gpio (layer)]: the GPIO of the board; a chip that was not found has no identifier. *)
Definition gpio_of_board (b : board) (layer : Z) (w : W) : M session (driver * gpio (W := W)) :=
  soc ← System.of_outcome (match soc_id (m_soc (_model b)) with Some i => Ok i | None => Throw UB end);
  gpio_of soc (_gpio_id b) soc layer w.

(** ** The objects made of descriptors *)
Definition ext (h h' : heap (W := W)) : Prop := forall l p, pins h !! l = Some p -> pins h' !! l = Some p.
Lemma ext_refl h : ext h h.
Proof. by intros l p. Qed.
Lemma ext_trans h1 h2 h3 : ext h1 h2 -> ext h2 h3 -> ext h1 h3.
Proof. intros H1 H2 l p Hp. by apply H2, H1. Qed.
Lemma ext_desc h h' l d : ext h h' -> desc_of l h = Some d -> desc_of l h' = Some d.
Proof. intros He. unfold desc_of. destruct (pins h !! l) as [p|] eqn:E; [|done]. by rewrite (He l p E). Qed.
Lemma ext_valid h h' ps : ext h h' -> valid h ps -> valid h' ps.
Proof. intros He Hv. eapply Forall_impl; [exact Hv|]. intros x [p Hp]. exists p. by apply He. Qed.
Record made (h : heap (W := W)) (d : cdesc) (c : connector) : Prop := {
  made_valid : valid h (_pin c);
  made_pins : NoDup (place d <$> d_pins d) -> forall p, p ∈ d_pins d -> exists l, OrdMap.get (place d p) (_pin c) = Some l /\ desc_of l h = Some p }.
Lemma made_ext h h' d c : ext h h' -> made h d c -> made h' d c.
Proof. intros He [Hv Hp]. split; [by eapply ext_valid|]. intros Hnd p Hin. destruct (Hp Hnd p Hin) as (l & ? & ?). exists l. split; [done|]. by eapply ext_desc. Qed.
Lemma alloc_ext d (h h' : heap (W := W)) l : alloc d h = (l, h') -> ext h h' /\ desc_of l h' = Some d.
Proof.
  intros [= <- <-]. split; [intros j p Hp; cbn; by apply lookup_app_l_Some|]. unfold desc_of. cbn. rewrite lookup_app_r by lia. by rewrite Nat.sub_diag.
Qed.
Abbreviation add_pin_to d := (fun '(m, h) p => let '(l, h) := alloc p h in (OrdMap.put (place d p) l m, h)).
Lemma pins_made d ps : forall m (h : heap (W := W)), let '(m', h') := foldl (add_pin_to d) (m, h) ps in
  ext h h' /\ (valid h m -> valid h' m') /\
  (NoDup (place d <$> ps) -> (forall p, p ∈ ps -> exists l, OrdMap.get (place d p) m' = Some l /\ desc_of l h' = Some p) /\
    forall k, k ∉ (place d <$> ps) -> OrdMap.get k m' = OrdMap.get k m).
Proof.
  induction ps as [|p ps IH]; intros m h; [split; [apply ext_refl|]; split; [done|]; intros _; split; [by intros ? ?%elem_of_nil|done]|]. cbn [foldl].
  destruct (alloc p h) as [l h1] eqn:E. destruct (alloc_ext _ _ _ _ E) as [He Hl]. specialize (IH (OrdMap.put (place d p) l m) h1).
  destruct (foldl _ _ ps) as [m' h']. destruct IH as (He' & Hv & Hp). split; [by eapply ext_trans|]. split.
  - intros Hm. apply Hv. unfold valid. rewrite Forall_forall. intros x [->|Hx]%OrdMap.put_keys; [|apply (ext_valid _ _ _ He) in Hm; unfold valid in Hm; rewrite Forall_forall in Hm; by apply Hm].
    cbn. unfold desc_of in Hl. by destruct (pins h1 !! l).
  - cbn. intros [Hk Hnd]%NoDup_cons. destruct (Hp Hnd) as [Hin Hout]. split.
    + intros q [->|Hq]%elem_of_cons; [|by apply Hin]. exists l. rewrite Hout, OrdMap.get_put, Z.eqb_refl by done. split; [done|]. by eapply ext_desc.
    + intros k [Hne Hk']%not_elem_of_cons. rewrite Hout, OrdMap.get_put by done. by rewrite (proj2 (Z.eqb_neq k (place d p))).
Qed.
Lemma connector_made d (h h' : heap (W := W)) c : new_connector d h = (c, h') -> ext h h' /\ made h' d c.
Proof.
  unfold new_connector. pose proof (pins_made d (d_pins d) [] h) as Hp. destruct (foldl _ _ _) as [m h1]. intros [= <- <-]. destruct Hp as (He & Hv & Hp).
  split; [done|]. split; cbn; [apply Hv; constructor|]. intros Hnd. by apply Hp.
Qed.
Abbreviation add_connector := (fun '(cs, h) d => let '(c, h) := new_connector d h in (OrdMap.put (d_number d) c cs, h)).
Lemma connectors_made ds : forall cs (h : heap (W := W)), let '(cs', h') := foldl add_connector (cs, h) ds in
  ext h h' /\ (Forall (fun c => valid h (_pin c.2)) cs -> Forall (fun c => valid h' (_pin c.2)) cs') /\
  (NoDup (d_number <$> ds) -> (forall d, d ∈ ds -> exists c, OrdMap.get (d_number d) cs' = Some c /\ made h' d c) /\
    forall k, k ∉ (d_number <$> ds) -> OrdMap.get k cs' = OrdMap.get k cs).
Proof.
  induction ds as [|d ds IH]; intros cs h; [split; [apply ext_refl|]; split; [done|]; intros _; split; [by intros ? ?%elem_of_nil|done]|]. cbn [foldl].
  destruct (new_connector d h) as [c h1] eqn:E. destruct (connector_made _ _ _ _ E) as [He Hc]. specialize (IH (OrdMap.put (d_number d) c cs) h1).
  destruct (foldl _ _ ds) as [cs' h']. destruct IH as (He' & Hv & Hp). split; [by eapply ext_trans|]. split.
  - intros Hcs. apply Hv. rewrite Forall_forall. rewrite Forall_forall in Hcs. intros x [->|Hx]%OrdMap.put_keys; [apply Hc|]. eapply ext_valid; [exact He|]. by apply Hcs.
  - cbn. intros [Hk Hnd]%NoDup_cons. destruct (Hp Hnd) as [Hin Hout]. split.
    + intros q [->|Hq]%elem_of_cons; [|by apply Hin]. exists c. rewrite Hout, OrdMap.get_put, Z.eqb_refl by done. split; [done|]. by eapply made_ext.
    + intros k [Hne Hk']%not_elem_of_cons. rewrite Hout, OrdMap.get_put by done. by rewrite (proj2 (Z.eqb_neq k (d_number d))).
Qed.
Lemma valid_all_pins (h : heap (W := W)) cs : Forall (fun c : Z * connector => valid h (_pin c.2)) cs -> valid h (cs ≫= fun c => _pin c.2).
Proof. induction 1 as [|c cs Hc _ IH]; cbn; [constructor|]. by apply Forall_app. Qed.
Lemma gpio_made layer ds w : exists g, new_gpio layer ds (mk_heap [] ∅ w) = (Ok tt, g) /\
  (NoDup (d_number <$> ds) -> forall d, d ∈ ds -> exists c, OrdMap.get (d_number d) (connector_ g) = Some c /\ made (heap_ g) d c).
Proof.
  unfold new_gpio. pose proof (connectors_made ds [] (mk_heap [] ∅ w)) as H. destruct (foldl _ _ ds) as [cs h]. destruct H as (_ & Hv & Hp).
  unfold setNumbering. cbn [numbering_eqb numbering_]. rewrite number_pins_spec; [|done|apply valid_all_pins, Hv; constructor]. eexists. split; [reflexivity|]. cbn. intros Hnd. by apply Hp.
Qed.

(** ** What is loaded *)
Context {OK : SqlOk Q}.
Section Loading.
Context (s : session) (Ho : is_open s = true) (soc : Z).
Lemma load_pin_total id r c : exists e, load_pin soc id r c s = (Ok e, s) /\ row (num e) = r /\ column (num e) = c.
Proof.
  unfold load_pin. destruct (0 <? id); [|by eexists]. set (q := fun t : tables => _). destruct (select_row_answers q s Ho) as (o & H & _). rewrite (M_bind_ok _ _ _ _ _ _ _ _ H).
  destruct o as [k|]; [|by eexists]. destruct (select_answers (pin_names id) s Ho) as (rows & H1 & _). rewrite (M_bind_ok _ _ _ _ _ _ _ _ H1).
  destruct (select_row_answers (numbers id soc) s Ho) as (n & H2 & _). rewrite (M_bind_ok _ _ _ _ _ _ _ _ H2). destruct n as [[]|]; by eexists.
Qed.
Definition pin_at_place (y : conn_pin) (e : descriptor) : Prop :=
  load_pin soc (cp_pin y) (cp_row y) (cp_column y) s = (Ok e, s) /\ row (num e) = cp_row y /\ column (num e) = cp_column y.
Lemma load_pins_total rows : exists ps, load_pins soc rows s = (Ok ps, s) /\ Forall2 pin_at_place rows ps.
Proof.
  induction rows as [|y rows (ps & H & HF)]; [by exists []|]. destruct (load_pin_total (cp_pin y) (cp_row y) (cp_column y)) as (e & He & Hr). exists (e :: ps).
  split; [|by constructor]. cbn [load_pins]. rewrite (M_bind_ok _ _ _ _ _ _ _ _ He). by rewrite (M_bind_ok _ _ _ _ _ _ _ _ H).
Qed.

(** The tables give a connector: its row is the only one of its identifier and its family is known. *)
Definition conn_at (cid : Z) (f : Connector.family) (cols : Z) : Prop :=
  0 < cid /\ exists r name, r ∈ t_connector (db s) /\ co_id r = cid /\ (forall r', r' ∈ t_connector (db s) -> co_id r' = cid -> r' = r) /\
    co_family r = family_id f /\ (family_id f, name, cols) ∈ t_connector_family (db s) /\
    (forall x, x ∈ t_connector_family (db s) -> x.1.1 = family_id f -> x.2 = cols).
Definition pins_of (cid : Z) : list conn_pin := filter (fun x => cp_conn x = cid) (t_connector_has_pin (db s)).
Lemma setId_known f name cols x0 : (family_id f, name, cols) ∈ t_connector_family (db s) -> (forall x, x ∈ t_connector_family (db s) -> x.1.1 = family_id f -> x.2 = cols) ->
  setId (family_id f) x0 s = (Ok (mk_family (Some f) (family_id f) cols), s).
Proof.
  intros Hin Hu. unfold setId. rewrite Ho. replace (family_id f =? -1) with false by (by destruct f). cbn [andb negb]. cbv iota.
  set (q := fun t : tables => _). rewrite (M_bind_ok _ _ _ _ _ s (Some cols) s); [by destruct f|]. apply select_row_unique; [done| |].
  - apply list_elem_of_bind. exists (family_id f, name, cols). split; [|done]. cbn. rewrite Z.eqb_refl. by left.
  - intros y (x & Hy & Hx)%list_elem_of_bind. destruct (Z.eqb_spec x.1.1 (family_id f)) as [He|]; [|by apply elem_of_nil in Hy]. apply list_elem_of_singleton in Hy as ->. by apply Hu.
Qed.
Lemma load_connector_known cid n f cols : conn_at cid f cols -> exists c rows, load_connector soc cid n s = (Ok c, s) /\
  c_number c = n /\ c_family c = mk_family (Some f) (family_id f) cols /\ rows ≡ₚ pins_of cid /\ Forall2 pin_at_place rows (c_pins c).
Proof.
  intros (Hc & r & name & Hr & Hrc & Hru & Hf & Hn & Hnu). unfold load_connector. rewrite (proj2 (Z.ltb_lt 0 cid)) by done.
  rewrite (M_bind_ok _ _ _ _ _ s (Some r) s).
  2: { apply select_row_unique; [done|by apply list_elem_of_filter|]. intros y [Hy1 Hy2]%list_elem_of_filter. by apply Hru. }
  rewrite Hf. rewrite (M_bind_ok _ _ _ _ _ _ _ _ (setId_known f name cols family0 Hn Hnu)).
  set (q := fun t : tables => _). destruct (select_answers q s Ho) as (rows & H1 & HP). rewrite (M_bind_ok _ _ _ _ _ _ _ _ H1).
  destruct (load_pins_total rows) as (ps & H2 & HF). rewrite (M_bind_ok _ _ _ _ _ _ _ _ H2). eexists _, rows. split; [reflexivity|]. by split_and!.
Qed.

(** The connectors of a GPIO, each known to the tables, with pins at different places and with different numbers *)
Definition conns_of (gid : Z) : list gpio_conn := filter (fun x => gc_gpio x = gid) (t_gpio_has_connector (db s)).
Definition places_differ (cid : Z) (f : Connector.family) (cols : Z) : Prop := NoDup ((fun y => pinNumber f cols (cp_row y) (cp_column y)) <$> pins_of cid).
Record gpio_wf (gid : Z) : Prop := {
  g_row : exists name, (gid, name) ∈ t_gpio (db s);
  g_nums : NoDup (gc_num <$> conns_of gid);
  g_conn : forall x, x ∈ conns_of gid -> exists f cols, conn_at (gc_conn x) f cols /\ places_differ (gc_conn x) f cols }.
Definition conn_of (x : gpio_conn) (d : cdesc) : Prop := d_number d = gc_num x /\ forall f cols, conn_at (gc_conn x) f cols ->
  d_family d = f /\ d_columns d = cols /\ exists rows, rows ≡ₚ pins_of (gc_conn x) /\ Forall2 pin_at_place rows (d_pins d).
Lemma conn_at_unique cid f cols f' cols' : conn_at cid f cols -> conn_at cid f' cols' -> f = f' /\ cols = cols'.
Proof.
  intros (_ & r & name & Hr & Hrc & _ & Hf & Hn & _) (_ & r' & name' & _ & _ & Hru' & Hf' & _ & Hnu'). rewrite (Hru' r Hr Hrc) in Hf. rewrite Hf' in Hf.
  assert (f = f') as -> by (destruct f, f'; done). split; [done|]. by apply (Hnu' (family_id f', name, cols)).
Qed.
Lemma load_connectors_known rows : (forall x, x ∈ rows -> exists f cols, conn_at (gc_conn x) f cols) ->
  exists cs ds, load_connectors soc rows s = (Ok cs, s) /\ to_cdescs cs = Ok ds /\ Forall2 conn_of rows ds.
Proof.
  induction rows as [|x rows IH]; intros Hk; [by exists [], []|]. destruct IH as (cs & ds & H & Ht & HF); [intros y Hy; apply Hk; by right|].
  destruct (Hk x ltac:(by left)) as (f & cols & Hx). destruct (load_connector_known (gc_conn x) (gc_num x) f cols Hx) as (c & ps & Hc & Hn & Hf & HP & HFp).
  eexists (c :: cs), (_ :: ds). split; [cbn [load_connectors]; rewrite (M_bind_ok _ _ _ _ _ _ _ _ Hc); by rewrite (M_bind_ok _ _ _ _ _ _ _ _ H)|].
  split; [cbn [to_cdescs]; unfold to_cdesc; rewrite Hf; cbn [fnum]; by rewrite Ht|]. constructor; [|done]. split; [done|]. cbn. intros f' cols' Hx'.
  destruct (conn_at_unique _ _ _ _ _ Hx Hx') as [-> ->]. split; [done|]. split; [done|]. by exists ps.
Qed.
Lemma load_gpio_known gid : 0 < gid -> gpio_wf gid -> exists nm cs ds rows, load_gpio soc gid s = (Ok (mk_gdescriptor nm gid cs), s) /\
  to_cdescs cs = Ok ds /\ rows ≡ₚ conns_of gid /\ Forall2 conn_of rows ds.
Proof.
  intros Hg [[name Hrow] _ Hconn]. unfold load_gpio. rewrite (proj2 (Z.ltb_lt 0 gid)) by done.
  set (q := fun t : tables => t_gpio t ≫= _). destruct (select_row_answers q s Ho) as (o & H1 & Hx1). rewrite (M_bind_ok _ _ _ _ _ _ _ _ H1). destruct o as [nm|].
  - set (q2 := fun t : tables => filter _ (t_gpio_has_connector t)). destruct (select_answers q2 s Ho) as (rows & H2 & HP). rewrite (M_bind_ok _ _ _ _ _ _ _ _ H2).
    destruct (load_connectors_known rows) as (cs & ds & H3 & H4 & HF); [intros x Hx; rewrite HP in Hx; destruct (Hconn x Hx) as (f & cols & ? & _); by exists f, cols|].
    rewrite (M_bind_ok _ _ _ _ _ _ _ _ H3). by exists nm, cs, ds, rows.
  - exfalso. assert (Hn : name ∈ q (db s)); [|rewrite Hx1 in Hn; by apply elem_of_nil in Hn]. apply list_elem_of_bind. exists (gid, name). cbn. rewrite Z.eqb_refl. split; [by left|done].
Qed.
End Loading.

Lemma Forall2_in {A B} (P : A -> B -> Prop) l k x : Forall2 P l k -> x ∈ l -> exists y, y ∈ k /\ P x y.
Proof. induction 1 as [|a b l k Hab _ IH]; [by intros ?%elem_of_nil|]. intros [->|Hx]%elem_of_cons; [exists b; split; [by left|done]|]. destruct (IH Hx) as (y & ? & ?). exists y. split; [by right|done]. Qed.
Lemma places_of (s : session) soc f cols rows ps : Forall2 (pin_at_place s soc) rows ps -> forall d, d_family d = f -> d_columns d = cols ->
  (place d <$> ps) = (fun y => pinNumber f cols (cp_row y) (cp_column y)) <$> rows.
Proof. intros HF d <- <-. induction HF as [|y e rows ps (_ & Hr & Hc) _ IH]; cbn; [done|]. rewrite IH. unfold place. by rewrite Hr, Hc. Qed.

(** What the tables say of the pin at a place, for a chip: the identifier and the place are those of the row of the
    connector, the type that of the row of the pin; the name for a mode is the one that the tables of names join to the
    pin and the mode; the logical number is that of the pin, the others are those of the row of the chip and the pin,
    and without such rows there are none. *)
Definition number_rows (t : tables) (soc id l : Z) (x : soc_pin) : Prop :=
  x ∈ t_soc_has_pin t /\ sp_pin x = id /\ sp_soc x = soc /\ (id, l) ∈ t_pin_number t.
Record tables_say (t : tables) (soc : Z) (y : conn_pin) (e : descriptor) : Prop := {
  say_id : pin_id e = cp_pin y;
  say_row : row (num e) = cp_row y;
  say_column : column (num e) = cp_column y;
  say_type : forall k, (cp_pin y, k) ∈ t_pin t -> type_of e = type_of_id k;
  say_names : forall m n, tab (names e) m = Some n <-> exists i, (cp_pin y, i, mode_id m) ∈ t_pin_has_name t /\ (i, n) ∈ t_pin_name t;
  say_numbers : (exists l x, number_rows t soc (cp_pin y) l x /\
      logical (num e) = l /\ mcu (num e) = sp_mcu x /\ system (num e) = sp_system x /\ chip_no (num e) = sp_chip x /\ offset (num e) = sp_offset x) \/
    (forall l x, ~ number_rows t soc (cp_pin y) l x) /\
      logical (num e) = -1 /\ mcu (num e) = -1 /\ system (num e) = -1 /\ chip_no (num e) = -1 /\ offset (num e) = -1 }.
Lemma numbers_elem id soc t l x : (l, x) ∈ numbers id soc t <-> number_rows t soc id l x.
Proof.
  unfold numbers, number_rows. rewrite list_elem_of_bind. split.
  - intros (x' & H & Hx). destruct (Z.eqb_spec (sp_pin x') id) as [Hp|]; [|by apply elem_of_nil in H]. destruct (Z.eqb_spec (sp_soc x') soc) as [Hs|]; [|by apply elem_of_nil in H].
    apply list_elem_of_bind in H as ([i l'] & H & Hl). cbn in H. destruct (Z.eqb_spec i (sp_pin x')) as [->|]; [|by apply elem_of_nil in H].
    apply list_elem_of_singleton in H as [= -> ->]. rewrite <- Hp. by split_and!.
  - intros (Hx & <- & <- & Hl). exists x. split; [|done]. rewrite !Z.eqb_refl. apply list_elem_of_bind. exists (sp_pin x, l). split; [|done]. cbn. rewrite Z.eqb_refl. by left.
Qed.
Lemma load_pin_says s soc y e k : is_open s = true -> pins_wf (db s) -> 0 < cp_pin y -> (cp_pin y, k) ∈ t_pin (db s) ->
  load_pin soc (cp_pin y) (cp_row y) (cp_column y) s = (Ok e, s) -> tables_say (db s) soc y e.
Proof.
  destruct s as [o t]. cbn. intros -> Hw Hid Hk He. destruct (load_pin_row soc (cp_pin y) k (cp_row y) (cp_column y) t Hw Hid Hk) as (e' & He' & Ht & Hi & Hs & Hn & Hnum).
  rewrite He in He'. injection He' as <-. assert (Hrc : row (num e) = cp_row y /\ column (num e) = cp_column y).
  { destruct (numbers _ _ _); [by rewrite Hnum|]. destruct Hnum as (z & _ & ->). done. }
  split; [done|apply Hrc|apply Hrc| | |].
  - intros k' Hk'. by rewrite (fst_unique _ _ _ _ (w_pin _ Hw) Hk' Hk).
  - intros m n. by rewrite tab_elem, Hn, pin_names_elem.
  - destruct (numbers (cp_pin y) soc t) as [|z l] eqn:E.
    + right. rewrite Hnum. split; [|done]. intros l x Hx%numbers_elem. rewrite E in Hx. by apply elem_of_nil in Hx.
    + left. destruct Hnum as ([l' x] & Hz & ->). exists l', x. split; [|done]. apply numbers_elem. by rewrite E.
Qed.

End Gpio.
End GpioDatabase.

Module GpioDatabaseDemo.
Import Connector Db Board GpioDatabase DbDemo.
#[local] Existing Instances Bcm2835.Demo.device_regs Bcm2835.Demo.device_2711 GpioDev2.Demo.demo_lines PinBcm2711.beside ConnectorDemo.driver.
Ltac rows_of H He := repeat (apply elem_of_cons in H as [->|H]; [first [reflexivity | by vm_compute in He]|]); by apply elem_of_nil in H.
Lemma excerpt_conn : conn_at s0 1 Header2X 2.
Proof.
  split; [done|]. exists (mk_conn_row 1 (Some (text "p1")) (Some 13) 1), (text "Header2X").
  split; [by left|]. split; [done|]. split; [intros r Hr He; rows_of Hr He|]. split; [done|]. split; [right; by left|]. intros r Hr He. rows_of Hr He.
Qed.
Lemma excerpt_gpio : gpio_wf s0 1.
Proof.
  split; [exists (text "rpi-rev1"); by left|apply (bool_decide_eq_true_1 _); vm_compute; reflexivity|].
  intros x Hx. assert (x = mk_gpio_conn 1 1 1) as -> by (apply list_elem_of_filter in Hx as [_ Hx]; by apply list_elem_of_singleton in Hx).
  exists Header2X, 2. split; [apply excerpt_conn|]. apply (bool_decide_eq_true_1 _); vm_compute; reflexivity.
Qed.
End GpioDatabaseDemo.
