(* ===== verification/Buses.v ===== *)
(** * The buses and ports of a host

    [I2cDev::Info] (src/i2c/i2cdev.cpp), [SpiDev::Info] (src/spi/spidev.cpp) and
    [SerialPort::Info] (src/serial/serialportinfo.cpp): the path of a bus is made
    of the form that the database has for the family of the board, and the devices
    of the host are those that udev lists.  What udev and the files of the devices
    answer is an interface. *)
From Stdlib Require Import Ascii.
From S2P Require Import Prelude Double IoDevice Text ArduinoPrint StdStream ConfigFile Mmio Gpio2 GpioPin Connector SpiDev Volts System Database Board.
Import Pin.

(** ** The host *)
(** A device may have no node; its parent may be missing, and have no driver; a property may be missing. *)
Record device : Type := mk_device { devnode : option bytes; sysname : bytes; parent : option (option bytes); property : string -> option bytes }.
(** The devices of a subsystem, when udev can be used; one that cannot be read is [None].  Then the files: one that is
    a character device, one that opens and has the attributes of a terminal, one that is a known 8250. *)
Class Udev : Type := {
  subsystem : string -> option (list (option device));
  charFileExists : bytes -> bool;
  has_termios : bytes -> bool;
  is_8250 : bytes -> bool }.

Module Buses.
Import PString ArduinoPrint Db Board.
#[export] Instance outcome_ret : MRet outcome := fun A a => Ok a.
#[export] Instance outcome_bind : MBind outcome := fun A B k m => match m with Ok a => k a | Throw e => Throw e end.

(** ** [snprintf (path, 256, form, numbers...)]: the forms of the database have no other conversion than [%d] *)
Fixpoint format (form : bytes) (args : list Z) : outcome bytes :=
  match form with
  | [] => Ok []
  | c :: form =>
      if c =? byte_of "%" then
        match form, args with
        | d :: form, a :: args => if d =? byte_of "d" then s ← format form args; Ok (long_text a ++ s) else Throw UB
        | _, _ => Throw UB
        end
      else s ← format form args; Ok (c :: s)
  end.
Definition snprintf (form : bytes) (args : list Z) : outcome bytes := s ← format form args; Ok (take 255 s).
Section Host.
Context {U : Udev}.
(** The entries that udev has for a subsystem; none when it cannot be used. *)
Definition entries (sub : string) : list (option device) := default [] (subsystem sub).

Section OfBoard.
Context (b : board).
Abbreviation family := (m_family (_model b)).

(** ** [I2cDev::Info] *)
Record i2c_info : Type := mk_i2c { i2c_id : Z; i2c_dev : bytes }.
Definition i2c_busPath (id : Z) : outcome bytes := snprintf (i2cSysPath family) [id].
Definition i2c_setId (id : Z) : outcome i2c_info := p ← i2c_busPath id; Ok (mk_i2c id p).
Fixpoint i2c_find (i : Z) (n : nat) (p : bytes) : outcome (option Z) :=
  match n with
  | O => Ok None
  | S n => bp ← i2c_busPath i; if bool_decide (bp = p) then Ok (Some i) else i2c_find (i + 1) n p
  end.
Definition i2c_MaxBuses : nat := 32.
Definition i2c_setPath (p : bytes) (x : i2c_info) : outcome (bool * i2c_info) :=
  r ← i2c_find 0 i2c_MaxBuses p;
  match r with Some i => x ← i2c_setId i; Ok (true, x) | None => Ok (false, x) end.
(** The loops over the entries end at one whose device cannot be read. *)
Fixpoint i2c_buses (ds : list (option device)) : outcome (list i2c_info) :=
  match ds with
  | [] | None :: _ => Ok []
  | Some d :: ds =>
      match devnode d with
      | None => i2c_buses ds
      | Some p => x ← i2c_setId 0; r ← i2c_setPath p x; l ← i2c_buses ds; Ok (if r.1 : bool then r.2 :: l else l)
      end
  end.
Definition i2c_availableBuses : outcome (list i2c_info) := i2c_buses (entries "i2c-dev").
Definition i2c_defaultBus : outcome i2c_info := i2c_setId (_default_i2c_id b).

(** ** [SpiDev::Info]: a chip select has a pin of the GPIO, or none *)
Context {W : Type} (g : Connector.gpio (W := W)).
Record spi_info : Type := mk_spi { spi_bus : Z; spi_cs : Z; spi_dev : bytes; csList : list (Z * (SpiDev.Cs.cs * option nat)) }.
Definition spi_busPath (bus cs : Z) : outcome bytes := snprintf (spiSysPath family) [bus; cs].
Definition cs_of (idCs : Z) (x : spics) : SpiDev.Cs.cs * option nat :=
  let p := Connector.pin_by_id (cs_pin x) g in
  (SpiDev.Cs.mk_cs idCs (bool_decide (is_Some p)) (default ModeUnknown (mode_of_id (cs_mode x))) true false, p).
Definition spi_setId (idBus idCs : Z) : outcome spi_info :=
  p ← spi_busPath idBus idCs;
  Ok (mk_spi idBus idCs p (foldl (fun l x => if cs_bus x =? idBus then OrdMap.put (cs_cs x) (cs_of idCs x) l else l) [] (spiCs (m_soc (_model b))))).
Fixpoint spi_find_bus (i : Z) (n : nat) (c : Z) (p : bytes) : outcome (option (Z * Z)) :=
  match n with
  | O => Ok None
  | S n => bp ← spi_busPath i c; if bool_decide (bp = p) then Ok (Some (i, c)) else spi_find_bus (i + 1) n c p
  end.
Definition spi_MaxBuses : nat := 32.
Definition spi_MaxCs : nat := 32.
Fixpoint spi_find (c : Z) (n : nat) (p : bytes) : outcome (option (Z * Z)) :=
  match n with
  | O => Ok None
  | S n => r ← spi_find_bus 0 spi_MaxBuses c p; match r with Some x => Ok (Some x) | None => spi_find (c + 1) n p end
  end.
Definition spi_setPath (p : bytes) (x : spi_info) : outcome (bool * spi_info) :=
  r ← spi_find 0 spi_MaxCs p;
  match r with Some (i, c) => x ← spi_setId i c; Ok (true, x) | None => Ok (false, x) end.
Fixpoint spi_buses (ds : list (option device)) : outcome (list spi_info) :=
  match ds with
  | [] | None :: _ => Ok []
  | Some d :: ds =>
      match devnode d with
      | None => spi_buses ds
      | Some p => x ← spi_setId 0 0; r ← spi_setPath p x; l ← spi_buses ds; Ok (if r.1 : bool then r.2 :: l else l)
      end
  end.
Definition spi_availableBuses : outcome (list spi_info) := spi_buses (entries "spidev").
Definition spi_defaultBus : outcome spi_info :=
  x ← spi_setId (_default_spi_id b) 0;
  if charFileExists (spi_dev x) then Ok x else l ← spi_availableBuses; Ok (default x (head l)).
(** [cs ()]: the chip select of the bus *)
Definition the_cs (x : spi_info) : outcome (SpiDev.Cs.cs * option nat) := OrdMap.at_ (spi_cs x) (csList x).
End OfBoard.

(** ** [SerialPort::Info]: null, or the properties of a port; an identifier that was not read is not initialised *)
Record port : Type := mk_port {
  p_path : bytes; p_name : bytes; p_driver : bytes; p_description : bytes; p_manufacturer : bytes; p_serialNumber : bytes;
  p_vendor : option Z; p_product : option Z; hasVendor : bool; hasProduct : bool }.
Definition identifier (value : option bytes) : outcome (Z * bool) :=
  match value with
  | None => Throw UB
  | Some s => match StdInt.stol 0 s with
              | Ok v => if (- 2 ^ 31 <=? v) && (v <? 2 ^ 31) then Ok (u16 v, true) else Ok (0, false)
              | Throw _ => Ok (0, false)
              end
  end.
(** [assign (value)] of a pointer that may be null *)
Definition assigned (value : option bytes) : outcome bytes := match value with Some s => Ok s | None => Throw UB end.
Definition blanks (s : bytes) : bytes := (fun c => if c =? byte_of "_" then 32 else c) <$> s.
Definition isValidSerialPort (path : option bytes) : bool := match path with Some p => has_termios p | None => false end.
Definition port_of (d : device) : outcome (option port) :=
  match parent d with
  | None => Ok None
  | Some driver =>
      if isValidSerialPort (devnode d) then
        path ← assigned (devnode d);
        driver ← assigned driver;
        if bool_decide (driver = text "serial8250") && is_8250 path then
          description ← assigned (property d "ID_MODEL");
          manufacturer ← assigned (property d "ID_VENDOR");
          serial ← assigned (property d "ID_SERIAL_SHORT");
          v ← identifier (property d "ID_VENDOR_ID");
          p ← identifier (property d "ID_MODEL_ID");
          Ok (Some (mk_port path (sysname d) driver (blanks description) (blanks manufacturer) serial (Some v.1) (Some p.1) v.2 p.2))
        else Ok (Some (mk_port path (sysname d) driver [] [] [] None None false false))
      else Ok None
  end.
Fixpoint ports_of (ds : list (option device)) : outcome (list port) :=
  match ds with
  | [] | None :: _ => Ok []
  | Some d :: ds => p ← port_of d; l ← ports_of ds; Ok (match p with Some p => p :: l | None => l end)
  end.
Definition availablePorts : outcome (list port) := ports_of (entries "tty").
Definition portName (x : option port) : bytes := match x with Some p => p_name p | None => [] end.
Definition systemLocation (x : option port) : bytes := match x with Some p => p_path p | None => [] end.
Definition driverName (x : option port) : bytes := match x with Some p => p_driver p | None => [] end.
Definition isNull (x : option port) : bool := match x with None => true | Some _ => false end.
Definition same_port (x y : option port) : bool :=
  if negb (isNull x) && negb (isNull y) then bool_decide (systemLocation x = systemLocation y) else false.
Definition info_of_name (name : bytes) : outcome (option port) :=
  l ← availablePorts; Ok (snd <$> list_find (fun p => portName (Some p) = name) l).
Definition portIdToSystemLocation (b : board) (portId : Z) : outcome bytes := snprintf (uartSysPath (m_family (_model b))) [portId].
Definition defaultPort (b : board) : outcome (option port) :=
  location ← portIdToSystemLocation b (_default_uart_id b);
  l ← availablePorts; Ok (snd <$> list_find (fun p => systemLocation (Some p) = location) l).
End Host.

(** ** Paths *)
Definition plain (s : bytes) : Prop := byte_of "%" ∉ s.
Definition digit (c : Z) : Prop := 48 <= c <= 57.
Lemma format_plain s form args : plain s -> format (s ++ form) args = (r ← format form args; Ok (s ++ r)).
Proof.
  induction s as [|c s IH]; intros Hp; cbn; [by destruct (format form args)|]. apply not_elem_of_cons in Hp as [Hc Hp].
  rewrite (proj2 (Z.eqb_neq c (byte_of "%"))) by done. rewrite (IH Hp). by destruct (format form args).
Qed.
Lemma format_d form a args : format (text "%d" ++ form) (a :: args) = (r ← format form args; Ok (long_text a ++ r)).
Proof. reflexivity. Qed.
Lemma format_one pre post i : plain pre -> plain post -> format (pre ++ text "%d" ++ post) [i] = Ok (pre ++ long_text i ++ post).
Proof. intros Ha Hb. rewrite format_plain, format_d by done. rewrite <- (app_nil_r post) at 1. rewrite format_plain by done. cbn. by rewrite app_nil_r. Qed.
Lemma format_two pre sep post i j : plain pre -> plain sep -> plain post ->
  format (pre ++ text "%d" ++ sep ++ text "%d" ++ post) [i; j] = Ok (pre ++ long_text i ++ sep ++ long_text j ++ post).
Proof.
  intros Ha Hs Hb. rewrite format_plain, format_d, format_plain, format_d by done. rewrite <- (app_nil_r post) at 1. rewrite format_plain by done. cbn. by rewrite app_nil_r.
Qed.
(** The numbers of buses and chip selects *)
Lemma small_texts : Forall (fun i => (length (long_text i) <= 2)%nat /\ Forall digit (long_text i) /\ Forall (fun j => long_text i = long_text j -> i = j) (seqZ 0 32)) (seqZ 0 32).
Proof. apply (bool_decide_eq_true_1 _). vm_compute. reflexivity. Qed.
Lemma small_text i : 0 <= i < 32 -> (length (long_text i) <= 2)%nat /\ Forall digit (long_text i).
Proof. intros Hi. pose proof small_texts as H. rewrite Forall_forall in H. destruct (H i) as (? & ? & _); [by apply elem_of_seqZ|done]. Qed.
Lemma small_inj i j : 0 <= i < 32 -> 0 <= j < 32 -> long_text i = long_text j -> i = j.
Proof.
  intros Hi Hj. pose proof small_texts as H. rewrite Forall_forall in H. destruct (H i) as (_ & _ & Hx); [by apply elem_of_seqZ|].
  rewrite Forall_forall in Hx. apply Hx. by apply elem_of_seqZ.
Qed.
Lemma digits_stop l l' c r r' : Forall digit l -> Forall digit l' -> ~ digit c -> l ++ c :: r = l' ++ c :: r' -> l = l' /\ r = r'.
Proof.
  intros Hl. revert l'. induction Hl as [|x l Hx _ IH]; intros l' Hl' Hc; destruct Hl' as [|y l' Hy Hl']; cbn; intros E; simplify_eq; try done.
  match goal with E : l ++ _ = l' ++ _ |- _ => by destruct (IH l' Hl' Hc E) as [-> ->] end.
Qed.

(** A form with one number, and one with two that are not beside each other; both fit into the buffer. *)
Record form1 (f pre post : bytes) : Prop := {
  f1_eq : f = pre ++ text "%d" ++ post; f1_pre : plain pre; f1_post : plain post; f1_len : (length pre + length post <= 253)%nat }.
Record form2 (f pre : bytes) (c : Z) (sep post : bytes) : Prop := {
  f2_eq : f = pre ++ text "%d" ++ (c :: sep) ++ text "%d" ++ post; f2_pre : plain pre; f2_sep : plain (c :: sep); f2_c : ~ digit c; f2_post : plain post;
  f2_len : (length pre + length sep + length post <= 250)%nat }.
Lemma snprintf_one f pre post i : form1 f pre post -> 0 <= i < 32 -> snprintf f [i] = Ok (pre ++ long_text i ++ post).
Proof.
  intros [-> Ha Hb Hl] Hi. unfold snprintf. rewrite format_one by done. cbn. destruct (small_text i Hi) as [H _]. by rewrite take_ge by (rewrite !length_app; lia).
Qed.
Lemma snprintf_two f pre c sep post i j : form2 f pre c sep post -> 0 <= i < 32 -> 0 <= j < 32 ->
  snprintf f [i; j] = Ok (pre ++ long_text i ++ (c :: sep) ++ long_text j ++ post).
Proof.
  intros [-> Ha Hs _ Hb Hl] Hi Hj. unfold snprintf. rewrite format_two by done. cbn [mbind outcome_bind]. destruct (small_text i Hi) as [H _], (small_text j Hj) as [H' _].
  by rewrite take_ge by (rewrite !length_app; cbn [length]; lia).
Qed.
Lemma one_inj pre post i j : 0 <= i < 32 -> 0 <= j < 32 -> pre ++ long_text i ++ post = pre ++ long_text j ++ post -> i = j.
Proof. intros Hi Hj E. apply app_inv_head, app_inv_tail in E. by apply small_inj. Qed.
Lemma two_inj pre c sep post i j i' j' : ~ digit c -> 0 <= i < 32 -> 0 <= j < 32 -> 0 <= i' < 32 -> 0 <= j' < 32 ->
  pre ++ long_text i ++ (c :: sep) ++ long_text j ++ post = pre ++ long_text i' ++ (c :: sep) ++ long_text j' ++ post -> i = i' /\ j = j'.
Proof.
  intros Hc Hi Hj Hi' Hj' E. apply app_inv_head in E. cbn [app] in E. destruct (digits_stop _ _ _ _ _ (proj2 (small_text i Hi)) (proj2 (small_text i' Hi')) Hc E) as [E1 E2].
  apply app_inv_head, app_inv_tail in E2. split; by apply small_inj.
Qed.
Lemma spi_find_bus_exact bd pre c sep post k p : form2 (spiSysPath (m_family (_model bd))) pre c sep post -> 0 <= k < 32 ->
  forall n i, 0 <= i -> i + Z.of_nat n <= 32 ->
  exists r, spi_find_bus bd i n k p = Ok r /\ match r with
    | Some (j, k') => k' = k /\ i <= j < i + Z.of_nat n /\ p = pre ++ long_text j ++ (c :: sep) ++ long_text k ++ post
    | None => forall j, i <= j < i + Z.of_nat n -> p <> pre ++ long_text j ++ (c :: sep) ++ long_text k ++ post
    end.
Proof.
  intros Hf Hk. induction n as [|n IH]; intros i Hi Hn; cbn [spi_find_bus]; [exists None; split; [done|lia]|].
  unfold spi_busPath at 1. rewrite (snprintf_two _ pre c sep post i k Hf) by lia. cbn [mbind outcome_bind]. case_bool_decide as E.
  - exists (Some (i, k)). split; [done|]. split; [done|]. split; [lia|done].
  - destruct (IH (i + 1)) as (r & -> & Hr); [lia|lia|]. exists r. split; [done|]. destruct r as [[j k']|].
    + destruct Hr as (-> & ? & ->). split; [done|]. split; [lia|done].
    + intros j Hj. destruct (decide (j = i)) as [->|]; [congruence|]. apply Hr. lia.
Qed.
Lemma spi_find_exact bd pre c sep post p : form2 (spiSysPath (m_family (_model bd))) pre c sep post -> forall n k, 0 <= k -> k + Z.of_nat n <= 32 ->
  exists r, spi_find bd k n p = Ok r /\ match r with
    | Some (j, k') => k <= k' < k + Z.of_nat n /\ 0 <= j < 32 /\ p = pre ++ long_text j ++ (c :: sep) ++ long_text k' ++ post
    | None => forall j k', 0 <= j < 32 -> k <= k' < k + Z.of_nat n -> p <> pre ++ long_text j ++ (c :: sep) ++ long_text k' ++ post
    end.
Proof.
  intros Hf. induction n as [|n IH]; intros k Hk Hn; cbn [spi_find]; [exists None; split; [done|lia]|].
  destruct (spi_find_bus_exact bd pre c sep post k p Hf ltac:(lia) spi_MaxBuses 0) as (r & -> & Hr); [lia|done|]. cbn [mbind outcome_bind]. destruct r as [[j k']|].
  - destruct Hr as (-> & Hj & ->). exists (Some (j, k)). split; [done|]. split; [lia|]. unfold spi_MaxBuses in Hj. split; [lia|done].
  - destruct (IH (k + 1)) as (r & -> & Hr'); [lia|lia|]. exists r. split; [done|]. destruct r as [[j k']|].
    + destruct Hr' as (? & ? & ->). split; [lia|]. split; [lia|done].
    + intros j k' Hj Hk'. destruct (decide (k' = k)) as [->|]; [apply Hr; unfold spi_MaxBuses; lia|]. apply Hr'; lia.
Qed.

(** ** Available buses *)
Section Available.
Context {U : Udev} (bd : board).
Section Spi.
Context {W : Type} (g : Connector.gpio (W := W)) (pre : bytes) (c : Z) (sep post : bytes) (Hf : form2 (spiSysPath (m_family (_model bd))) pre c sep post).
Abbreviation spi_path i k := (pre ++ long_text i ++ (c :: sep) ++ long_text k ++ post).
Lemma spi_setId_ok i k : 0 <= i < 32 -> 0 <= k < 32 -> exists x, spi_setId bd g i k = Ok x /\ spi_bus x = i /\ spi_cs x = k /\ spi_dev x = spi_path i k.
Proof. intros Hi Hk. unfold spi_setId, spi_busPath. rewrite (snprintf_two _ _ _ _ _ _ _ Hf Hi Hk). cbn [mbind outcome_bind]. by eexists. Qed.
Lemma spi_setPath_exact p x : exists f y, spi_setPath bd g p x = Ok (f, y) /\
  if f : bool then exists i k, 0 <= i < 32 /\ 0 <= k < 32 /\ p = spi_path i k /\ spi_setId bd g i k = Ok y
  else forall i k, 0 <= i < 32 -> 0 <= k < 32 -> p <> spi_path i k.
Proof.
  unfold spi_setPath. destruct (spi_find_exact bd pre c sep post p Hf spi_MaxCs 0) as (r & -> & Hr); [lia|done|]. unfold spi_MaxCs in Hr. cbn [mbind outcome_bind]. destruct r as [[i k]|].
  - destruct Hr as (Hk & Hi & Hp). destruct (spi_setId_ok i k) as (y & Hy & _); [lia|lia|]. rewrite Hy. exists true, y. split; [done|]. exists i, k. split_and!; try done; lia.
  - exists false, x. split; [done|]. intros i k Hi Hk. apply Hr; lia.
Qed.
(** An entry is reached when every entry before it has a device. *)
Definition reached (d : device) (es : list (option device)) : Prop := exists ds rest, es = (Some <$> ds) ++ Some d :: rest.
Lemma reached_none d : ~ reached d [].
Proof. by intros ([|] & ? & ?). Qed.
Lemma reached_break d es : ~ reached d (None :: es).
Proof. by intros ([|] & ? & ?). Qed.
Lemma reached_cons d d' es : reached d (Some d' :: es) <-> d = d' \/ reached d es.
Proof.
  split.
  - intros ([|x ds] & rest & [= -> ->]); [by left|right]. by exists ds, rest.
  - intros [->|(ds & rest & ->)]; [by exists [], es|by exists (d' :: ds), rest].
Qed.
Lemma spi_buses_exact ds : exists l, spi_buses bd g ds = Ok l /\
  forall x, x ∈ l <-> exists d i k, reached d ds /\ 0 <= i < 32 /\ 0 <= k < 32 /\ devnode d = Some (spi_dev x) /\ spi_setId bd g i k = Ok x.
Proof.
  induction ds as [|[d|] ds (l & IH & Hl)].
  1,3: exists []; split; [done|]; intros x; split; [by intros ?%elem_of_nil|]; intros (? & ? & ? & H & _); by apply reached_none in H || apply reached_break in H.
  cbn [spi_buses]. destruct (devnode d) as [p|] eqn:Ed.
  - destruct (spi_setId_ok 0 0) as (x0 & -> & _); [lia|lia|]. cbn [mbind outcome_bind]. destruct (spi_setPath_exact p x0) as (f & y & -> & Hy). rewrite IH. cbn [mbind outcome_bind].
    eexists. split; [done|]. intros x. cbn [fst snd]. destruct f.
    + destruct Hy as (i & k & Hi & Hk & Hp & Hy). destruct (spi_setId_ok i k Hi Hk) as (y' & Hy' & _ & _ & Hdev). rewrite Hy in Hy'. injection Hy' as <-.
      rewrite elem_of_cons, Hl. split.
      * intros [->|(d' & i' & k' & Hd' & Hrest)]; [|exists d', i', k'; split; [apply reached_cons; by right|done]]. exists d, i, k. split; [apply reached_cons; by left|]. split_and!; try done; try lia. by rewrite Ed, Hdev, Hp.
      * intros (d' & i' & k' & [->|Hd']%reached_cons & Hi' & Hk' & Hn & Hx); [|right; by exists d', i', k']. left. rewrite Ed in Hn. injection Hn as Hn.
        destruct (spi_setId_ok i' k' Hi' Hk') as (x' & Hx' & _ & _ & Hd). rewrite Hx in Hx'. injection Hx' as <-.
        destruct (two_inj pre c sep post i k i' k') as [-> ->]; try done; [apply Hf|congruence|congruence].
    + rewrite Hl. split; [intros (d' & i' & k' & Hd' & Hrest); exists d', i', k'; split; [apply reached_cons; by right|done]|].
      intros (d' & i' & k' & [->|Hd']%reached_cons & Hi' & Hk' & Hn & Hx); [|by exists d', i', k']. exfalso. rewrite Ed in Hn. injection Hn as Hn.
      destruct (spi_setId_ok i' k' Hi' Hk') as (x' & Hx' & _ & _ & Hd). rewrite Hx in Hx'. injection Hx' as <-. apply (Hy i' k' Hi' Hk'). congruence.
  - exists l. split; [done|]. intros x. rewrite Hl. split; intros (d' & i' & k' & Hd' & Hi' & Hk' & Hn & Hx); exists d', i', k'; [by split; [apply reached_cons; right|]|].
    apply reached_cons in Hd' as [->|Hd']; [congruence|]. done.
Qed.
(** C30: the SPI buses that the library finds are those of the host.  When the family of the board has a form with the
    numbers of the bus and of the chip select, the buses found are exactly those whose path, made of this form
    and of numbers below the limits, is the node of a device that udev lists, the list being read up to the first entry whose
    device cannot be made, where the search ends; the path tells the numbers, so that the bus
    that is opened is the one the node belongs to. *)
Theorem spi_available_exact : exists l, spi_availableBuses bd g = Ok l /\
  (forall x, x ∈ l <-> exists d i k, reached d (entries "spidev") /\ 0 <= i < 32 /\ 0 <= k < 32 /\ devnode d = Some (spi_dev x) /\ spi_setId bd g i k = Ok x) /\
  (forall x y, x ∈ l -> y ∈ l -> spi_dev x = spi_dev y -> spi_bus x = spi_bus y /\ spi_cs x = spi_cs y).
Proof.
  destruct (spi_buses_exact (entries "spidev")) as (l & H & Hl). exists l. split; [exact H|]. split; [exact Hl|].
  intros x y (_ & i & k & _ & Hi & Hk & _ & Hx)%Hl (_ & i' & k' & _ & Hi' & Hk' & _ & Hy)%Hl E.
  destruct (spi_setId_ok i k Hi Hk) as (x' & Hx' & Hb & Hc & Hd), (spi_setId_ok i' k' Hi' Hk') as (y' & Hy' & Hb' & Hc' & Hd'). rewrite Hx in Hx'. rewrite Hy in Hy'.
  injection Hx' as <-. injection Hy' as <-. rewrite Hd, Hd' in E. destruct (two_inj pre c sep post i k i' k') as [-> ->]; try done; [apply Hf|]. split; congruence.
Qed.
End Spi.

(** ** I2C: a path gives back the number it was made of, and only such paths are taken *)
Lemma i2c_setPath_exact pre post p x : form1 (i2cSysPath (m_family (_model bd))) pre post -> exists f y, i2c_setPath bd p x = Ok (f, y) /\
  (f = true <-> exists i, 0 <= i < 32 /\ p = pre ++ long_text i ++ post) /\ (forall i, 0 <= i < 32 -> p = pre ++ long_text i ++ post -> y = mk_i2c i p).
Proof.
  intros Hf. assert (Hfind : forall n i, 0 <= i -> i + Z.of_nat n <= 32 -> exists r, i2c_find bd i n p = Ok r /\
    match r with Some j => i <= j < i + Z.of_nat n /\ p = pre ++ long_text j ++ post | None => forall j, i <= j < i + Z.of_nat n -> p <> pre ++ long_text j ++ post end).
  { induction n as [|n IH]; intros i Hi Hn; cbn [i2c_find]; [exists None; split; [done|lia]|]. unfold i2c_busPath at 1. rewrite (snprintf_one _ _ _ i Hf) by lia. cbn [mbind outcome_bind].
    case_bool_decide as E; [exists (Some i); split; [done|]; split; [lia|done]|]. destruct (IH (i + 1)) as (r & -> & Hr); [lia|lia|]. exists r. split; [done|].
    destruct r as [j|]; [destruct Hr; split; [lia|done]|]. intros j Hj. destruct (decide (j = i)) as [->|]; [congruence|]. apply Hr. lia. }
  destruct (Hfind i2c_MaxBuses 0) as (r & Hr & Hx); [lia|done|]. unfold i2c_MaxBuses in Hx. unfold i2c_setPath. rewrite Hr. cbn [mbind outcome_bind]. destruct r as [j|].
  - destruct Hx as [Hj Hp]. unfold i2c_setId, i2c_busPath. rewrite (snprintf_one _ _ _ j Hf) by lia. cbn [mbind outcome_bind]. eexists true, _. split; [done|]. split.
    + split; [|done]. intros _. exists j. split; [lia|done].
    + intros i Hi Hpi. rewrite <- Hp. f_equal. apply (one_inj pre post); [lia|done|congruence].
  - exists false, x. split; [done|]. split; [split; [done|intros (i & Hi & Hp); exfalso; apply (Hx i); [lia|done]]|]. intros i Hi Hp. exfalso. apply (Hx i); [lia|done].
Qed.
End Available.
(** Every chip select of the bus has the identifier of the one that was chosen instead of its own. *)
Lemma cs_ids {W} (bd : board) (g : Connector.gpio (W := W)) i k x n c p : spi_setId bd g i k = Ok x -> (n, (c, p)) ∈ csList x -> SpiDev.Cs._id c = k.
Proof.
  unfold spi_setId. destruct (spi_busPath bd i k) as [s|]; cbn [mbind outcome_bind]; [|done]. intros [= <-]. cbn [csList].
  assert (H : forall xs l, (forall y, y ∈ l -> SpiDev.Cs._id y.2.1 = k) ->
    forall y, y ∈ foldl (fun l x => if cs_bus x =? i then OrdMap.put (cs_cs x) (cs_of g k x) l else l) l xs -> SpiDev.Cs._id y.2.1 = k).
  { induction xs as [|z xs IH]; intros l Hl; [done|]. cbn [foldl]. apply IH. destruct (cs_bus z =? i); [|done]. intros y [->|Hy]%OrdMap.put_keys; [done|by apply Hl]. }
  intros Hin. apply (H (spiCs (m_soc (_model bd))) [] ltac:(by intros ? ?%elem_of_nil) _ Hin).
Qed.
(** The identifiers of USB devices are hexadecimal numbers without a prefix: they are read as octal or decimal ones. *)
Lemma usb_identifiers : identifier (Some (text "0403")) = Ok (4 * 64 + 3, true) /\ identifier (Some (text "1a86")) = Ok (1, true) /\ identifier (Some (text "cafe")) = Ok (0, false).
Proof. split_and!; vm_compute; reflexivity. Qed.
End Buses.

(** ** A host with two SPI devices and serial ports *)
Module BusesDemo.
Import Db Board Buses.
Definition no_property (_ : string) : option bytes := None.
Definition spidev (n : string) : option device := Some (mk_device (Some (text n)) [] None no_property).
Definition tty (n s : string) (drv : option bytes) : option device := Some (mk_device (Some (text n)) (text s) (Some drv) no_property).
#[export] Instance demo_udev : Udev := {|
  subsystem s := if bool_decide (s = "spidev"%string) then Some [spidev "/dev/spidev0.1"; spidev "/dev/spi"; spidev "/dev/spidev10.0"]
                 else if bool_decide (s = "tty"%string) then Some [tty "/dev/ttyAMA0" "ttyAMA0" (Some (text "uart-pl011")); None; tty "/dev/ttyS0" "ttyS0" (Some (text "serial8250"))] else None;
  charFileExists _ := false; has_termios _ := true; is_8250 _ := true |}.
Definition pi : board :=
  let u := mk_item None [] in let f := mk_bfamily (Some 0) (text "RaspberryPi") (text "/dev/i2c-%d") (text "/dev/spidev%d.%d") (text "/dev/ttyAMA%d") in
  mk_board 70 (mk_model (Some 27) (text "RaspberryPi 5") f (mk_soc (Some 6) (text "Bcm2712") u u (Some 5) (Some 5) (Some 5) [])) u 11 (text "1.0") 0xB04170 true [] 2048 1 0 0 (text "RaspberryPi 5").
Lemma pi_form : form2 (spiSysPath (m_family (_model pi))) (text "/dev/spidev") (byte_of ".") [] [].
Proof. split; [reflexivity|apply (bool_decide_eq_true_1 _); vm_compute; reflexivity..| |]; [by intros ?%elem_of_nil|vm_compute; lia]. Qed.
Lemma spi_available_exact_witness : exists l, spi_availableBuses pi ConnectorDemo.board = Ok l /\
  (forall x, x ∈ l <-> exists d i k, reached d (entries "spidev") /\ 0 <= i < 32 /\ 0 <= k < 32 /\ devnode d = Some (spi_dev x) /\ spi_setId pi ConnectorDemo.board i k = Ok x) /\
  (forall x y, x ∈ l -> y ∈ l -> spi_dev x = spi_dev y -> spi_bus x = spi_bus y /\ spi_cs x = spi_cs y).
Proof. apply (spi_available_exact pi ConnectorDemo.board (text "/dev/spidev") (byte_of ".") [] [] pi_form). Defined.
Lemma demo_buses : match spi_availableBuses pi ConnectorDemo.board with Ok l => (fun x => (spi_bus x, spi_cs x)) <$> l | Throw _ => [] end = [(0, 1); (10, 0)].
Proof. vm_compute. reflexivity. Qed.
(** A port of the 8250 driver that has no name of a model, as one on the board: a null pointer is used. *)
Lemma port_without_model : port_of (mk_device (Some (text "/dev/ttyS0")) (text "ttyS0") (Some (Some (text "serial8250"))) no_property) = Throw UB.
Proof. vm_compute. reflexivity. Qed.
(** The ports after a device that cannot be read are not found. *)
Lemma ports_stop : match availablePorts with Ok l => p_name <$> l | Throw _ => [] end = [text "ttyAMA0"].
Proof. vm_compute. reflexivity. Qed.
End BusesDemo.
