(* ===== verification/Pinfo.v ===== *)
(** * The tool pinfo, utils/pinfo/main.cpp

    The options of the program, which may be letters, names or beginnings of
    names, and what it prints of the board and of the buses of the host: one
    piece of information alone, several with their labels, or the list of the
    boards of the database. *)
From Stdlib Require Import Ascii.
From S2P Require Import Prelude Double IoDevice Text ArduinoPrint StdStream ConfigFile Mmio Gpio2 GpioPin Connector SpiDev Volts System Database Board Buses.
Import Pin.

Module Pinfo.
Import PString ArduinoPrint Db Board Buses.

(** ** The options *)
Definition OPT_SOC : Z := 0x0001.
Definition OPT_REV : Z := 0x0002.
Definition OPT_GPIOID : Z := 0x0004.
Definition OPT_MEM : Z := 0x0008.
Definition OPT_PCB : Z := 0x0010.
Definition OPT_MAN : Z := 0x0020.
Definition OPT_NAME : Z := 0x0040.
Definition OPT_ID : Z := 0x0080.
Definition OPT_TAG : Z := 0x0100.
Definition OPT_FAM : Z := 0x0200.
Definition OPT_I2C : Z := 0x0400.
Definition OPT_SPI : Z := 0x0800.
Definition OPT_SER : Z := 0x1000.
Definition OPT_MODEL : Z := 0x2000.
Definition OPT_ALL : Z := 0xFFFF.
Definition short_options : bytes := text "srgmMpbnitfahvwlIPS".
Definition long_options : list (bytes * Z) :=
  [(text "soc", byte_of "s"); (text "revision", byte_of "r"); (text "gpio", byte_of "g"); (text "mem", byte_of "m"); (text "pcb", byte_of "p");
   (text "builder", byte_of "b"); (text "name", byte_of "n"); (text "id", byte_of "i"); (text "tag", byte_of "t"); (text "family", byte_of "f");
   (text "i2c", byte_of "I"); (text "spi", byte_of "P"); (text "serial", byte_of "S"); (text "all", byte_of "a"); (text "warranty", byte_of "w");
   (text "help", byte_of "h"); (text "version", byte_of "v"); (text "list", byte_of "l"); (text "model", byte_of "M")].

(** [getopt_long] of the GNU library on options without arguments: words that are no options are passed over, [--]
    ends the options, a name may be cut where it is still the only one.  [None] is the answer for a bad option. *)
Fixpoint until (c : Z) (s : bytes) : bytes := match s with [] => [] | x :: s => if x =? c then [] else x :: until c s end.
Definition is_prefix (p s : bytes) : bool := bool_decide (take (length p) s = p).
Definition long_option (w : bytes) : option Z :=
  let name := until (byte_of "=") w in
  let letter := match list_find (fun o => o.1 = name) long_options with
                | Some (_, o) => Some o.2
                | None => match filter (fun o => is_prefix name o.1 = true) long_options with [o] => Some o.2 | _ => None end
                end in
  if bool_decide (byte_of "=" ∈ w) then None else letter.
Definition short_option (c : Z) : option Z := if bool_decide (c ∈ short_options) then Some c else None.
Definition word_options (w : bytes) : list (option Z) :=
  match w with
  | a :: b :: w' => if a =? byte_of "-" then if b =? byte_of "-" then [long_option w'] else short_option <$> b :: w' else []
  | _ => []
  end.
Fixpoint getopt_long (args : list bytes) : list (option Z) :=
  match args with
  | [] => []
  | w :: args => if bool_decide (w = text "--") then [] else word_options w ++ getopt_long args
  end.

(** ** The loop over the options *)
Inductive page : Type := Usage | Version | Warranty | BoardList.
Inductive progress : Type := Continue (flags count : Z) | Show (p : page) | Failure.
(** The letters that ask for a piece of information *)
Definition infos : list (Z * Z) :=
  [(byte_of "s", OPT_SOC); (byte_of "r", OPT_REV); (byte_of "g", OPT_GPIOID); (byte_of "m", OPT_MEM); (byte_of "p", OPT_PCB); (byte_of "b", OPT_MAN);
   (byte_of "n", OPT_NAME); (byte_of "i", OPT_ID); (byte_of "t", OPT_TAG); (byte_of "f", OPT_FAM); (byte_of "I", OPT_I2C); (byte_of "P", OPT_SPI);
   (byte_of "S", OPT_SER); (byte_of "M", OPT_MODEL)].
Definition set_option (c flags count : Z) : progress :=
  match OrdMap.get c infos with
  | Some m => Continue (Z.lor flags m) (u16 (count + 1))
  | None =>
      if c =? byte_of "a" then Continue 0xFFFF (u16 (-1))
      else if c =? byte_of "w" then Show Warranty
      else if c =? byte_of "h" then Show Usage
      else if c =? byte_of "v" then Show Version
      else if c =? byte_of "l" then Show BoardList
      else Failure
  end.
Fixpoint set_options (os : list (option Z)) (flags count : Z) : progress :=
  match os with
  | [] => Continue flags count
  | None :: _ => Failure
  | Some c :: os => match set_option c flags count with Continue flags count => set_options os flags count | r => r end
  end.

(** ** What is printed *)
Definition hex_text (v : Z) : bytes := toLowerCase (print_char <$> Digits.digits 16 v).
(** [hex << showbase] of a number that is not negative; [width] with zeros after the prefix *)
Definition base_text (width : nat) (v : Z) : bytes :=
  if v =? 0 then replicate (width - 1) 48 ++ text "0" else text "0x" ++ replicate (width - 2 - length (hex_text v)) 48 ++ hex_text v.
Definition line (t : bytes) : bytes := t ++ [10].
Fixpoint separated (ret : bytes) (l : list bytes) : bytes :=
  match l with [] => ret | p :: l => separated ((match ret with [] => [] | _ => ret ++ text "," end) ++ p) l end.
Section Program.
Context {U : Udev} {Q : Sql} {W : Type} (g : Connector.gpio (W := W)) (b : board) (connectionInfo : bytes).
Definition i2cBuses : outcome bytes := l ← i2c_availableBuses b; Ok (separated [] (i2c_dev <$> l)).
Definition spiBuses : outcome bytes := l ← spi_availableBuses b g; Ok (separated [] (spi_dev <$> l)).
Definition serialPorts : outcome bytes := l ← availablePorts; Ok (separated [] (p_path <$> l)).
Definition unless_empty (label s : bytes) : bytes := match s with [] => [] | _ => line (label ++ s) end.
Definition soc_text : bytes :=
  let c := m_soc (_model b) in soc_name c ++ text " (" ++ i_name (soc_manufacturer c) ++ text ")".
Definition ram_text : bytes := long_text (u64 (_ram b)).
(** The part of one piece of information in the list with labels *)
Definition labelled (m : Z) : outcome bytes :=
  if m =? OPT_NAME then Ok (line (text "Name            : " ++ _name b))
  else if m =? OPT_MODEL then Ok (line (text "Model           : " ++ m_name (_model b)))
  else if m =? OPT_FAM then Ok (line (text "Family          : " ++ bf_name (m_family (_model b))))
  else if m =? OPT_ID then Ok (line (text "Database Id     : " ++ long_text (_id b)))
  else if m =? OPT_MAN then Ok (line (text "Manufacturer    : " ++ i_name (_manufacturer b)))
  else if m =? OPT_REV then Ok (if 0 <=? _revision b then line (text "Board Revision  : " ++ base_text 0 (_revision b)) else [])
  else if m =? OPT_TAG then Ok (unless_empty (text "Board Tag       : ") (_tag b))
  else if m =? OPT_SOC then Ok (line (text "SoC             : " ++ soc_text))
  else if m =? OPT_MEM then Ok (line (text "Memory          : " ++ ram_text ++ text "MB"))
  else if m =? OPT_GPIOID then Ok (line (text "GPIO Id         : " ++ long_text (_gpio_id b)))
  else if m =? OPT_PCB then Ok (unless_empty (text "PCB Revision    : ") (_pcb_revision b))
  else if m =? OPT_I2C then s ← i2cBuses; Ok (unless_empty (text "I2C Buses       : ") s)
  else if m =? OPT_SPI then s ← spiBuses; Ok (unless_empty (text "SPI Buses       : ") s)
  else if m =? OPT_SER then s ← serialPorts; Ok (unless_empty (text "Serial Ports    : ") s)
  else Ok [].
(** The order in which they are printed *)
Definition print_order : list Z :=
  [OPT_NAME; OPT_MODEL; OPT_FAM; OPT_ID; OPT_MAN; OPT_REV; OPT_TAG; OPT_SOC; OPT_MEM; OPT_GPIOID; OPT_PCB; OPT_I2C; OPT_SPI; OPT_SER].
Fixpoint print_labelled (ms : list Z) (flags : Z) : outcome bytes :=
  match ms with
  | [] => Ok []
  | m :: ms => s ← (if Z.land flags m =? 0 then Ok [] else labelled m); t ← print_labelled ms flags; Ok (s ++ t)
  end.
Definition printWithLabels (flags : Z) : outcome bytes := print_labelled print_order flags.
(** One piece of information alone; no flag of one piece is a failure. *)
Definition none_if (s : bytes) : bytes := match s with [] => text "none" | _ => s end.
Definition raw (flags : Z) : outcome (option bytes) :=
  if flags =? OPT_SOC then Ok (Some (line (soc_name (m_soc (_model b)))))
  else if flags =? OPT_REV then Ok (Some (line (if 0 <? _revision b then base_text 0 (_revision b) else text "none")))
  else if flags =? OPT_GPIOID then Ok (Some (line (long_text (_gpio_id b))))
  else if flags =? OPT_MEM then Ok (Some (line ram_text))
  else if flags =? OPT_PCB then Ok (Some (line (none_if (_pcb_revision b))))
  else if flags =? OPT_MAN then Ok (Some (line (i_name (_manufacturer b))))
  else if flags =? OPT_NAME then Ok (Some (line (_name b)))
  else if flags =? OPT_MODEL then Ok (Some (line (m_name (_model b))))
  else if flags =? OPT_ID then Ok (Some (line (long_text (_id b))))
  else if flags =? OPT_TAG then Ok (Some (line (_tag b)))
  else if flags =? OPT_FAM then Ok (Some (line (bf_name (m_family (_model b)))))
  else if flags =? OPT_I2C then s ← i2cBuses; Ok (Some (unless_empty [] s))
  else if flags =? OPT_SPI then s ← spiBuses; Ok (Some (unless_empty [] s))
  else if flags =? OPT_SER then s ← serialPorts; Ok (Some (unless_empty [] s))
  else Ok None.

(** ** The list of boards *)
Definition board_line (x : Z * board) : bytes :=
  let '(i, b) := x in
  long_text i ++ [9] ++
  match _tag b with
  | [] => if 0 <? _revision b then base_text 8 (_revision b) ++ [9] else []
  | t => t ++ [9]
  end ++ line (m_name (_model b)).
Definition tab_text : bytes := text "ID" ++ [9] ++ text "Tag/Revision" ++ [9] ++ text "Model".
(** The output and the error output *)
Definition printBoardList : M session (bytes * bytes) :=
  r ← boardList;
  mret (if r.1 : bool then (line (text "List of all boards in the database " ++ connectionInfo) ++ [10] ++ line tab_text ++ concat (board_line <$> r.2), [])
        else ([], line (text "Unable to retrieve the list of boards"))).

(** ** [main]: the output or a page of text, the error output and the code *)
Record answer : Type := mk_answer { out : bytes + page; err : bytes; code : Z }.
Definition main (args : list bytes) : M session answer :=
  match set_options (getopt_long args) 0 0 with
  | Failure => mret (mk_answer (inl []) [] 1)
  | Show BoardList => r ← printBoardList; mret (mk_answer (inl r.1) r.2 0)
  | Show p => mret (mk_answer (inr p) [] 0)
  | Continue flags count =>
      if _found b then
        let '(flags, count) := if count =? 0 then (OPT_ALL, OPT_ALL) else (flags, count) in
        if 1 <? count then t ← System.of_outcome (printWithLabels flags); mret (mk_answer (inl t) [] 0)
        else r ← System.of_outcome (raw flags);
             mret match r with Some t => mk_answer (inl t) [] 0 | None => mk_answer (inl []) [] 1 end
      else mret (mk_answer (inl []) (line (text "Unable to identify your host system !")) 1)
  end.

(** ** What was asked for *)
(** A word of the command line and the letters it stands for *)
Inductive spells : bytes -> list Z -> Prop :=
  | spells_short c cs : Forall (fun c => c ∈ short_options) (c :: cs) -> spells (byte_of "-" :: c :: cs) (c :: cs)
  | spells_long n c : (n, c) ∈ long_options -> spells (byte_of "-" :: byte_of "-" :: n) [c].
Definition asked (cs : list Z) (m : Z) : bool := existsb (fun c => bool_decide (OrdMap.get c infos = Some m)) cs.
(** The lines for the letters [cs], in the order of the program *)
Fixpoint listing (ms : list Z) (cs : list Z) : outcome bytes :=
  match ms with
  | [] => Ok []
  | m :: ms => s ← (if asked cs m then labelled m else Ok []); t ← listing ms cs; Ok (s ++ t)
  end.

Lemma long_names : Forall (fun o => long_option o.1 = Some o.2 /\ o.1 <> []) long_options.
Proof. apply (bool_decide_eq_true_1 _). vm_compute. reflexivity. Qed.
Lemma short_letters : Forall (fun c => c <> byte_of "-") short_options.
Proof. apply (bool_decide_eq_true_1 _). vm_compute. reflexivity. Qed.
Lemma spells_word w cs : spells w cs -> word_options w = Some <$> cs /\ w <> text "--".
Proof.
  intros [c cs' Hc|n c Hn]; cbn [word_options].
  - rewrite Z.eqb_refl. assert (Hd : c <> byte_of "-") by (apply Forall_cons in Hc as [Hc _]; pose proof short_letters as Hs; rewrite Forall_forall in Hs; by apply Hs).
    rewrite (proj2 (Z.eqb_neq _ _) Hd). split; [|intros [= E _]; done]. clear Hd. remember (c :: cs') as l. clear Heql.
    induction Hc as [|x l Hx _ IH]; [done|]. cbn. rewrite IH. unfold short_option. by rewrite bool_decide_eq_true_2.
  - rewrite !Z.eqb_refl. pose proof long_names as Hl. rewrite Forall_forall in Hl. destruct (Hl _ Hn) as [H1 H2]. cbn in *. rewrite H1. split; [done|]. by intros [= ->].
Qed.
Lemma spells_args args css : Forall2 spells args css -> getopt_long args = Some <$> concat css.
Proof.
  induction 1 as [|w cs args css Hw _ IH]; [done|]. cbn [getopt_long concat]. destruct (spells_word w cs Hw) as [-> Hne]. rewrite bool_decide_eq_false_2 by done. by rewrite IH, fmap_app.
Qed.
Lemma masks_apart : Forall (fun m => m <> 0 /\ Z.land m m <> 0 /\ Forall (fun m' => m' <> m -> Z.land m' m = 0) print_order) print_order.
Proof. apply (bool_decide_eq_true_1 _). vm_compute. reflexivity. Qed.
Lemma infos_printed : Forall (fun x => x.2 ∈ print_order /\ 0 <= x.2 < 2 ^ 16) infos.
Proof. apply (bool_decide_eq_true_1 _). vm_compute. reflexivity. Qed.
Lemma info_mask c m : OrdMap.get c infos = Some m -> m ∈ print_order.
Proof.
  pose proof infos_printed as H. intros Hg. enough (Hin : (c, m) ∈ infos) by (rewrite Forall_forall in H; by destruct (H _ Hin)).
  revert Hg. clear H. induction infos as [|[k v] l IH]; [done|]. cbn. destruct (Z.eqb_spec c k) as [->|]; [intros [= ->]; by left|]. intros Hg. right. by apply IH.
Qed.
Lemma lor_mask f m m' : m ∈ print_order -> m' ∈ print_order -> (Z.land (Z.lor f m') m =? 0) = (Z.land f m =? 0) && negb (m' =? m).
Proof.
  intros Hm Hm'. pose proof masks_apart as H. rewrite Forall_forall in H. destruct (H m Hm) as (_ & Hmm & Ho). rewrite Forall_forall in Ho. specialize (Ho m' Hm').
  rewrite Z.land_lor_distr_l. destruct (Z.eqb_spec m' m) as [E|Hne]; cbn [negb].
  - rewrite E, andb_false_r. apply Z.eqb_neq. intros [_ ?]%Z.lor_eq_0_iff. done.
  - by rewrite (Ho Hne), Z.lor_0_r, andb_true_r.
Qed.
Definition info (c : Z) : Prop := is_Some (OrdMap.get c infos).
#[export] Instance info_dec c : Decision (info c).
Proof. unfold info. apply _. Defined.
Lemma set_options_infos cs : Forall info cs -> forall f n, exists F, set_options (Some <$> cs) f n = Continue F (match cs with [] => n | _ => u16 (n + Z.of_nat (length cs)) end) /\
  forall m, m ∈ print_order -> (Z.land F m =? 0) = (Z.land f m =? 0) && negb (asked cs m).
Proof.
  induction 1 as [|c cs [mc Hc] Hcs IH]; intros f n; [exists f; split; [done|]; intros m Hm; cbn; by rewrite andb_true_r|].
  cbn [fmap list_fmap set_options]. unfold set_option. rewrite Hc. destruct (IH (Z.lor f mc) (u16 (n + 1))) as (F & HF & Hbits). exists F. split.
  - rewrite HF. f_equal. destruct cs as [|c' cs]; [cbn; f_equal; lia|]. unfold u16. rewrite Zplus_mod_idemp_l. f_equal. cbn [length]. lia.
  - intros m Hm. rewrite (Hbits m Hm), (lor_mask f m mc Hm (info_mask c mc Hc)). cbn [asked existsb]. rewrite Hc.
    destruct (Z.eqb_spec mc m) as [->|Hne]; [rewrite bool_decide_eq_true_2 by done|rewrite bool_decide_eq_false_2 by congruence]; destruct (Z.land f m =? 0); done.
Qed.
Lemma print_labelled_listing ms F cs : (forall m, m ∈ ms -> (Z.land F m =? 0) = negb (asked cs m)) -> print_labelled ms F = listing ms cs.
Proof.
  induction ms as [|m ms IH]; intros H; [done|]. cbn [print_labelled listing]. rewrite (H m ltac:(by left)), IH by (intros m' Hm'; apply H; by right). by destruct (asked cs m).
Qed.
Definition answered (o : outcome bytes) : outcome (answer) := t ← o; Ok (mk_answer (inl t) [] 0).
Lemma raw_answers m : m ∈ print_order -> exists t, raw m = (x ← t; Ok (Some x)).
Proof.
  intros Hm. unfold print_order in Hm. repeat (apply elem_of_cons in Hm as [->|Hm]; [|]); try by apply elem_of_nil in Hm.
  all: unfold raw; repeat match goal with |- context [?a =? ?b] => let v := eval vm_compute in (a =? b) in change (a =? b) with v; cbv iota end.
  all: first [by eexists (Ok _) | match goal with |- exists t, (s ← ?o; Ok (Some (@?f s))) = _ => exists (s ← o; Ok (f s)); by destruct o end].
Qed.
(** C19: on a board that was found the program prints what the words of its command line ask for.  They may be letters, together or apart,
    or names, each for one piece of information; the options for all pieces, for the help and for the version are not among them, and
    there are fewer than 65536.  Without any all lines are printed; with one the piece of information alone; with more, exactly the lines
    that were asked for, each once and in the order of the program, whatever the order and repetitions of the options. *)
Theorem pinfo_prints_requested args css s : Forall2 spells args css -> Forall info (concat css) -> Z.of_nat (length (concat css)) < 65536 -> _found b = true ->
  match concat css with
  | [] => main args s = (answered (listing print_order infos.*1), s)
  | [c] => exists m t, OrdMap.get c infos = Some m /\ raw m = (x ← t; Ok (Some x)) /\ main args s = (answered t, s)
  | cs => main args s = (answered (listing print_order cs), s)
  end.
Proof.
  intros Hs Hi Hn Hf. unfold main. rewrite (spells_args _ _ Hs). destruct (set_options_infos (concat css) Hi 0 0) as (F & HF & Hbits).
  destruct (concat css) as [|c [|c' cs]].
  - cbn [fmap list_fmap set_options]. rewrite Hf. change (0 =? 0) with true. cbv beta iota. change (1 <? OPT_ALL) with true. cbv iota. unfold printWithLabels.
    rewrite (print_labelled_listing _ OPT_ALL infos.*1); [by destruct (listing _ _)|]. apply Forall_forall. apply (bool_decide_eq_true_1 _). vm_compute. reflexivity.
  - apply Forall_cons in Hi as [[m Hm] _]. destruct (raw_answers m (info_mask c m Hm)) as (t & Ht). exists m, t. split; [done|]. split; [done|].
    cbn [fmap list_fmap set_options]. unfold set_option. rewrite Hm, Hf. change (u16 (0 + 1)) with 1. change (1 =? 0) with false. cbv beta iota. change (1 <? 1) with false. cbv iota. rewrite Z.lor_0_l, Ht. by destruct t.
  - rewrite HF, Hf. set (n := u16 (0 + Z.of_nat (length (c :: c' :: cs)))). assert (Hn1 : 1 < n) by (unfold n, u16; rewrite Z.mod_small; cbn [length] in *; lia).
    rewrite (proj2 (Z.eqb_neq n 0)) by lia. cbv beta iota. rewrite (proj2 (Z.ltb_lt 1 n)) by lia. unfold printWithLabels. rewrite (print_labelled_listing _ F (c :: c' :: cs)); [by destruct (listing _ _)|].
    intros m' Hm'. by rewrite (Hbits m' Hm').
Qed.
(** All pieces of information and two more are too many: the counter wraps around to one, and the program fails without a word. *)
Lemma all_and_two s : _found b = true -> main [text "-a"; text "-s"; text "-r"] s = (Ok (mk_answer (inl []) [] 1), s).
Proof. intros Hf. unfold main. change (set_options _ 0 0) with (Continue 0xFFFF 1). rewrite Hf. reflexivity. Qed.
(** A name may be cut as long as it is the only one. *)
Lemma cut_names : long_option (text "rev") = Some (byte_of "r") /\ long_option (text "m") = None /\ long_option (text "name=x") = None.
Proof. split_and!; vm_compute; reflexivity. Qed.
End Program.
End Pinfo.

Module PinfoDemo.
Import Db Board Pinfo DbDemo BusesDemo.
#[local] Existing Instances DbDemo.demo_sql BusesDemo.demo_udev.
Definition args : list bytes := [text "-ns"; text "--revision"; text "-P"].
Definition letters : list (list Z) := [text "ns"; text "r"; text "P"].
Lemma args_spelled : Forall2 spells args letters.
Proof.
  constructor; [|constructor; [|constructor; [|constructor]]].
  - apply (spells_short (byte_of "n") [byte_of "s"]). apply (bool_decide_eq_true_1 _). vm_compute. reflexivity.
  - apply (spells_long (text "revision") (byte_of "r")). apply (bool_decide_eq_true_1 _). vm_compute. reflexivity.
  - apply (spells_short (byte_of "P") []). apply (bool_decide_eq_true_1 _). vm_compute. reflexivity.
Qed.
Lemma pinfo_prints_requested_witness : main ConnectorDemo.board pi [] args s0 = (answered (listing ConnectorDemo.board pi print_order (concat letters)), s0).
Proof.
  apply (pinfo_prints_requested ConnectorDemo.board pi [] args letters s0); [apply args_spelled| |reflexivity|reflexivity].
  apply (bool_decide_eq_true_1 _). vm_compute. reflexivity.
Defined.
Lemma pinfo_output : main ConnectorDemo.board pi [] args s0 =
  (Ok (mk_answer (inl (text "Name            : RaspberryPi 5" ++ [10] ++ text "Board Revision  : 0xb04170" ++ [10] ++ text "SoC             : Bcm2712 ()" ++ [10] ++
                       text "SPI Buses       : /dev/spidev0.1,/dev/spidev10.0" ++ [10])) [] 0), s0).
Proof. vm_compute. reflexivity. Qed.
(** The list of the boards of the excerpt *)
Lemma pinfo_list : main ConnectorDemo.board pi (text "db") [text "-l"] s0 =
  (Ok (mk_answer (inl (text "List of all boards in the database db" ++ [10; 10] ++ tab_text ++ [10] ++ text "69" ++ [9] ++ text "0xc03130" ++ [9] ++ text "RaspberryPi 400" ++ [10] ++
                       text "70" ++ [9] ++ text "0xb04170" ++ [9] ++ text "RaspberryPi 5" ++ [10] ++ text "72" ++ [9] ++ text "0xc04170" ++ [9] ++ text "RaspberryPi 5" ++ [10])) [] 0), s0).
Proof. vm_compute. reflexivity. Qed.
End PinfoDemo.
