(* ===== verification/Syslog.v ===== *)
(** * The log of the system, src/syslog.cpp and include/piduino/syslog.h

    A [SysLog] is an output stream whose buffer is a [std::stringbuf]: the text
    written to it becomes one message when the stream is flushed.  The buffer is
    the array of the characters and the pointers of its put and get areas; what
    the C library is asked for is the list of the calls. *)
From Stdlib Require Import Ascii.
From S2P Require Import Prelude IoDevice Text ArduinoPrint.

Module Syslog.
Import PString ArduinoPrint.

(** ** [SysLogBuffer]: a [std::stringbuf] for reading and writing; the pointers are offsets *)
Record sbuf : Type := mk_sbuf { data : bytes; pptr : nat; gptr : nat; egptr : nat }.
Definition sbuf0 : sbuf := mk_sbuf [] 0 0 0.
Definition sputc (c : Z) (b : sbuf) : sbuf := mk_sbuf (take (pptr b) (data b) ++ [c] ++ drop (S (pptr b)) (data b)) (S (pptr b)) (gptr b) (egptr b).
Definition sputn (s : bytes) (b : sbuf) : sbuf := foldl (fun b c => sputc c b) b s.
(** [in_avail]: the get area, which is extended to what was put when it is empty *)
Definition update_egptr (b : sbuf) : sbuf := if (egptr b <? pptr b)%nat then mk_sbuf (data b) (pptr b) (gptr b) (pptr b) else b.
Definition in_avail (b : sbuf) : bool * sbuf :=
  if (gptr b <? egptr b)%nat then (true, b) else let b := update_egptr b in ((gptr b <? egptr b)%nat, b).
(** [seekoff (0, beg, in | out)] and [setg (pbase, pbase, pbase)] *)
Definition rewind (b : sbuf) : sbuf := mk_sbuf (data b) 0 0 0.

(** ** [SysLog] *)
Definition Priority_Info : Z := 6.
Definition NoOption : Z := 0.
Definition NoFacility : Z := -1.
(** The calls of the C library *)
Inductive call : Type :=
  | Openlog (ident : option bytes) (option facility : Z) | Closelog | Message (priority : Z) (text : bytes) | Vsyslog (priority : Z) (format : bytes) (args : list Z).
Record syslog : Type := mk_syslog { buf : sbuf; m_priority : Z; m_option : Z; m_facility : Z; m_isopen : bool; calls : list call }.
Definition new (p : Z) : syslog := mk_syslog sbuf0 p NoOption NoFacility false [].
Definition set_buf (b : sbuf) (s : syslog) : syslog := mk_syslog b (m_priority s) (m_option s) (m_facility s) (m_isopen s) (calls s).
Definition call_ (c : call) (s : syslog) : syslog := mk_syslog (buf s) (m_priority s) (m_option s) (m_facility s) (m_isopen s) (calls s ++ [c]).
Definition sync (s : syslog) : syslog :=
  let '(avail, b) := in_avail (buf s) in
  if avail then
    let b := sputc 0 b in
    set_buf (rewind b) (call_ (Message (m_priority s) (c_str (drop (gptr b) (data b)))) s)
  else set_buf b s.
Definition setPriority (p : Z) (s : syslog) : syslog :=
  let s := sync s in mk_syslog (buf s) p (m_option s) (m_facility s) (m_isopen s) (calls s).
Definition open (ident : option bytes) (facility option : Z) (s : syslog) : syslog :=
  if m_isopen s then s
  else call_ (Openlog ident option facility) (mk_syslog (buf s) (m_priority s) option facility true (calls s)).
Definition close (s : syslog) : syslog :=
  if m_isopen s then
    let s := call_ Closelog (sync s) in mk_syslog (buf s) (m_priority s) NoOption NoFacility false (calls s)
  else s.
(** [log (p, format, ...)] *)
Definition log (p : Z) (format : bytes) (args : list Z) (s : syslog) : syslog := if m_isopen s then call_ (Vsyslog p format args) s else s.
(** [log (format, ...)] hands the list of its arguments on as one argument of the other function: the format then reads what
    is no argument, unless it asks for none. *)
Definition log_default (format : bytes) (args : list Z) (s : syslog) : outcome syslog :=
  if m_isopen s then if bool_decide (byte_of "%" ∈ format) then Throw UB else Ok (log (m_priority s) format [] s) else Ok s.
(** [os << text] and [os << flush] *)
Definition write (t : bytes) (s : syslog) : syslog := set_buf (sputn t (buf s)) s.

(** ** Names *)
Fixpoint syslogCodeName (c : Z) (n : list (bytes * Z)) : bytes :=
  match n with [] => text "Unknown" | (name, v) :: n => if v =? c then name else syslogCodeName c n end.

(** ** What a program does with its log *)
Inductive op : Type := Write (t : bytes) | Flush | SetPriority (p : Z) | Open (ident : option bytes) (facility option : Z) | Close | Log (p : Z) (format : bytes) (args : list Z).
Definition step (s : syslog) (o : op) : syslog :=
  match o with
  | Write t => write t s | Flush => sync s | SetPriority p => setPriority p s | Open i f x => open i f x s | Close => close s | Log p f a => log p f a s
  end.
(** The log as a specification: the text that is not sent yet, the priority, whether it is open, and the calls *)
Record spec : Type := mk_spec { pending : bytes; prio : Z; opened : bool; sent : list call }.
Definition flush (a : spec) : spec :=
  match pending a with [] => a | t => mk_spec [] (prio a) (opened a) (sent a ++ [Message (prio a) (c_str t)]) end.
Definition spec_step (a : spec) (o : op) : spec :=
  match o with
  | Write t => mk_spec (pending a ++ t) (prio a) (opened a) (sent a)
  | Flush => flush a
  | SetPriority p => let a := flush a in mk_spec (pending a) p (opened a) (sent a)
  | Open i f x => if opened a then a else mk_spec (pending a) (prio a) true (sent a ++ [Openlog i x f])
  | Close => if opened a then let a := flush a in mk_spec (pending a) (prio a) false (sent a ++ [Closelog]) else a
  | Log p f l => if opened a then mk_spec (pending a) (prio a) true (sent a ++ [Vsyslog p f l]) else a
  end.

(** ** Refinement *)
(** The get area begins where the buffer does and holds nothing that was not put there. *)
Record buf_ok (b : sbuf) (t : bytes) : Prop := { b_g : gptr b = 0%nat; b_e : (egptr b <= pptr b)%nat; b_text : take (pptr b) (data b) = t; b_len : (pptr b <= length (data b))%nat }.
Lemma sputc_ok c b t : buf_ok b t -> buf_ok (sputc c b) (t ++ [c]).
Proof.
  intros [Hg He Ht Hl]. split; cbn; [done|lia| |rewrite !length_app, length_take; cbn; lia].
  assert (Hlt : length t = pptr b) by (rewrite <- Ht, length_take; lia). rewrite Ht, take_app_ge, Hlt by lia. by replace (S (pptr b) - pptr b)%nat with 1%nat by lia.
Qed.
Lemma sputn_ok s : forall b t, buf_ok b t -> buf_ok (sputn s b) (t ++ s).
Proof. induction s as [|c s IH]; intros b t Hb; cbn; [by rewrite app_nil_r|]. replace (t ++ c :: s) with ((t ++ [c]) ++ s) by (by rewrite <- app_assoc). by apply IH, sputc_ok. Qed.
Lemma in_avail_ok b t : buf_ok b t -> exists b', in_avail b = (bool_decide (t <> []), b') /\ buf_ok b' t.
Proof.
  intros [Hg He Ht Hl]. assert (Hlen : length t = pptr b) by (rewrite <- Ht, length_take; lia).
  assert (Hbd : bool_decide (t <> []) = (0 <? pptr b)%nat) by (rewrite <- Hlen; by destruct t).
  unfold in_avail. rewrite Hg. destruct (Nat.ltb_spec 0 (egptr b)) as [H0|H0].
  - exists b. rewrite Hbd, (proj2 (Nat.ltb_lt 0 (pptr b))) by lia. done.
  - unfold update_egptr. destruct (Nat.ltb_spec (egptr b) (pptr b)) as [H1|H1]; cbn; rewrite Hg, Hbd.
    + exists (mk_sbuf (data b) (pptr b) 0 (pptr b)). split; [done|]. split; cbn; (done || lia).
    + exists b. by replace (egptr b) with (pptr b) by lia.
Qed.
Lemma c_str_put t r : c_str (t ++ 0 :: r) = c_str t.
Proof. induction t as [|c t IH]; cbn; [done|]. destruct (c =? 0); [done|]. by rewrite IH. Qed.
Record refines (s : syslog) (a : spec) : Prop := { r_buf : buf_ok (buf s) (pending a); r_prio : m_priority s = prio a; r_open : m_isopen s = opened a; r_calls : calls s = sent a }.
Lemma sync_refines s a : refines s a -> refines (sync s) (flush a).
Proof.
  intros [Hb Hp Ho Hc]. unfold sync. destruct (in_avail_ok _ _ Hb) as (b' & -> & Hb'). unfold flush. destruct (pending a) as [|c t] eqn:E.
  - rewrite bool_decide_eq_false_2 by auto. split; cbn; [by rewrite E|done..].
  - rewrite bool_decide_eq_true_2 by done. pose proof (sputc_ok 0 b' _ Hb') as [Hg _ Ht Hl]. split; cbn [buf set_buf pending m_priority m_isopen calls call_ prio opened sent]; [|done|done|].
    + split; cbn; [done|lia|done|lia].
    + rewrite Hc, Hp, Hg. f_equal. f_equal. f_equal. rewrite drop_0. rewrite <- (take_drop (pptr (sputc 0 b')) (data (sputc 0 b'))), Ht, <- app_assoc. apply (c_str_put (c :: t)).
Qed.
Lemma step_refines s a o : refines s a -> refines (step s o) (spec_step a o).
Proof.
  intros H. pose proof (sync_refines s a H) as Hs. pose proof Hs as [Hb' Hp' Ho' Hc']. pose proof H as [Hb Hp Ho Hc]. destruct o as [t| |p|i f x| |p f l]; cbn [step spec_step].
  - split; cbn; [by apply sputn_ok|done..].
  - by split.
  - by split.
  - unfold open. rewrite Ho. destruct (opened a) eqn:E; [done|]. split; cbn; [done|done|done|by rewrite Hc].
  - unfold close. rewrite Ho. destruct (opened a) eqn:E; [|done]. split; cbn; [done|done|done|by rewrite Hc'].
  - unfold log. rewrite Ho. destruct (opened a) eqn:E; [|done]. split; cbn; [done|done|done|by rewrite Hc].
Qed.
(** C20: the log sends what is written to it.  Over every sequence of writings, flushes, changes of the priority, openings and closings
    the calls of the C library are those of the specification: each flush sends the text written since the one before, up to a
    byte 0, as one message with the priority that held while it was written, and nothing is sent twice or lost, although the
    buffer is used again without being cleared. *)
Theorem syslog_refines p ops : let s := foldl step (new p) ops in let a := foldl spec_step (mk_spec [] p false []) ops in
  calls s = sent a /\ m_priority s = prio a /\ m_isopen s = opened a /\ exists b, in_avail (buf s) = (bool_decide (pending a <> []), b).
Proof.
  assert (H : forall ops s a, refines s a -> refines (foldl step s ops) (foldl spec_step a ops)).
  { clear. induction ops as [|o ops IH]; intros s a H; [done|]. cbn. by apply IH, step_refines. }
  destruct (H ops (new p) (mk_spec [] p false [])) as [Hb Hp Ho Hc]; [split; [split; cbn; (done || lia)|done..]|]. destruct (in_avail_ok _ _ Hb) as (b & Hb' & _). cbv zeta. eauto.
Qed.
(** A program that logs two lines with different priorities *)
Lemma two_messages : calls (foldl step (new Priority_Info) [Open None 8 1; Write (text "started" ++ [10]); Flush; Write (text "bad"); SetPriority 3; Write (text "err"); Close; Write (text "late")]) =
  [Openlog None 1 8; Message 6 (text "started" ++ [10]); Message 6 (text "bad"); Message 3 (text "err"); Closelog].
Proof. vm_compute. reflexivity. Qed.
End Syslog.
