(* ===== verification/Sketch.v ===== *)
(** * The program around a sketch

    include/piduino/arduino/Piduino.h ([main], which parses the options, calls
    [setup], may leave the terminal, and calls [loop] for ever), src/piduino.cpp
    (what happens when the program ends or is interrupted) and
    [HardwareSerial::setupAvailablePorts] (src/arduino/serial/HardwareSerial.cpp).
    A sketch is a sequence of calls of the Arduino functions of ArduinoCore.v;
    whatever it does, an interruption closes the pins. *)
From Stdlib Require Import Ascii Sorted.
From S2P Require Import Prelude Double IoDevice Text ArduinoPrint StdStream Popl ConfigFile Mmio GpioBcm2835 Gpio2 GpioPin PinBcm2711 Connector ArduinoCore SpiDev Volts System Database Board Buses.
Import Flags Pin.

Module Sketch.
Import PString ArduinoPrint Gpio2 GpioDev2 GpioPin Connector Core Buses.

(** ** The ports of a sketch: the default one, then the others, then the default one again *)
Definition numberOfPorts : nat := 8.
Definition setupAvailablePorts {U : Udev} (b : Board.board) : outcome (list (option port)) :=
  ports ← availablePorts;
  dflt ← defaultPort b;
  let others := take (numberOfPorts - 1) (Some <$> filter (fun p => same_port (Some p) dflt = false) ports) in
  Ok (dflt :: others ++ replicate (numberOfPorts - 1 - length others) dflt).

(** ** The options of every sketch; [isDaemon] is the variable 1 *)
Definition add_switch (s l d : string) (a : option Z) (p : Popl.failure + Popl.parser) : Popl.failure + Popl.parser :=
  match p with
  | inl e => inl e
  | inr p => Popl.add Popl.Optional (Popl.new_switch (text s) (text l) (text d) a (Popl.vars p)) p
  end.
Definition CmdLine : Popl.failure + Popl.parser :=
  add_switch "D" "daemon" "be daemonized" (Some 1)
    (add_switch "v" "verbose" "be verbose" None
      (add_switch "h" "help" "produce help message" None (inr (Popl.new (text "Allowed options") {[1 := Popl.VB false]})))).
Definition isDaemon (p : Popl.parser) : bool := match Popl.vars p !! 1 with Some (Popl.VB b) => b | _ => false end.
Definition parse_options (args : list bytes) : Popl.failure + Popl.parser :=
  match CmdLine with
  | inl e => inl e
  | inr p => match Popl.parse args p with (None, p) => inr p | (Some e, _) => inl e end
  end.

Section Program.
Context {U : Udev} {W : Type} {L : LineOs W} (PD : nat -> PinDevice W) {G : GpioDriver (W := W)} (spi : Core.spi_info).
Abbreviation gpio := (Connector.gpio (W := W)).

(** ** src/piduino.cpp *)
Definition closeall : M gpio unit := Connector.close PD.

(** ** A sketch.  [analogWrite] is known by what its converter calls on the pin, when the pin is not locked. *)
Inductive call : Type :=
  | PinMode (n : Z) (m : ArduinoPinMode) | DigitalWrite (n value : Z) | DigitalToggle (n : Z) | DigitalRead (n : Z)
  | AttachInterrupt (n : Z) (e : edge) (debounce : Z) | DetachInterrupt (n : Z) | AnalogWrite (n : Z) (ops : list GpioPin.op).
Definition converter (ops : list GpioPin.op) (D : PinDevice W) : M (pin W) unit :=
  foldr (fun o k => GpioPin.exec o;; k) (mret tt) ops.
Definition step (c : call) : M gpio unit :=
  match c with
  | PinMode n m => pinMode PD spi n m
  | DigitalWrite n v => digitalWrite PD n v
  | DigitalToggle n => digitalToggle PD n
  | DigitalRead n => digitalRead PD n;; mret tt
  | AttachInterrupt n e d => core_attachInterrupt PD n e d
  | DetachInterrupt n => core_detachInterrupt PD n
  | AnalogWrite n ops => locked ← pinLocked PD spi n; if locked : bool then mret tt else at_pin PD n (converter ops)
  end.
Fixpoint run (cs : list call) : M gpio unit := match cs with [] => mret tt | c :: cs => step c;; run cs end.
(** The same with the exceptions of the calls caught; a run that ends with an exception is the run of its first calls. *)
Definition played (cs : list call) (g : gpio) : gpio := fold_left (fun g c => (step c g).2) cs g.
Lemma run_played cs : forall g, exists n, (run cs g).2 = played (take n cs) g.
Proof.
  induction cs as [|c cs IH]; intros g; [by exists 0%nat|]. cbn [run]. unfold mbind, M_bind. destruct (step c g) as [[[]|e] g1] eqn:E.
  - destruct (IH g1) as [n Hn]. exists (S n). cbn. by rewrite E.
  - exists 1%nat. cbn. rewrite E. by destruct cs.
Qed.

(** ** [main], interrupted after some turns of the loop.  An exception that leaves a call ends the program at once. *)
Record prog : Type := mk_prog { gp : gpio; hs : System.host * System.system; serial : list (option port); to_syslog : bool }.
Definition set_gp (g : gpio) (p : prog) : prog := mk_prog g (hs p) (serial p) (to_syslog p).
Definition set_hs (x : System.host * System.system) (p : prog) : prog := mk_prog (gp p) x (serial p) (to_syslog p).
Definition on_gpio {A} (m : M gpio A) : M prog A := zoom gp set_gp m.
Fixpoint turns (n : nat) (loop : list call) : list call := match n with O => [] | S n => loop ++ turns n loop end.
(** [daemon (isRoot ? 0 : 1, 0)] succeeds or not. *)
Definition daemonize (daemon_ok : bool) (again : M prog Z) : M prog Z :=
  if daemon_ok then
    zoom hs set_hs (System.createPidFile None);;
    modify (fun p => mk_prog (gp p) (hs p) (serial p) true);;
    again
  else on_gpio closeall;; mret 1.
Definition main (b : Board.board) (setup loop : list call) (daemon_ok : bool) (args : list bytes) (n : nat) : M prog Z :=
  match parse_options args with
  | inl _ => throw InvalidArgument
  | inr o =>
      ports ← System.of_outcome (setupAvailablePorts b);
      modify (fun p => mk_prog (gp p) (hs p) ports (to_syslog p));;
      on_gpio (run setup);;
      let forever := on_gpio (run (turns n loop));; on_gpio closeall;; mret 0 in
      if isDaemon o then daemonize daemon_ok forever else forever
  end.

(** ** Ports *)
Lemma ports_eight b l : setupAvailablePorts b = Ok l -> length l = numberOfPorts /\ exists d, defaultPort b = Ok d /\ head l = Some d /\
  Forall (fun p => p = d \/ same_port p d = false) l.
Proof.
  unfold setupAvailablePorts. destruct availablePorts as [ports|]; cbn [mbind outcome_bind]; [|done]. destruct (defaultPort b) as [d|]; cbn [mbind outcome_bind]; [|done].
  set (others := take _ _). intros [= <-]. assert (Ho : (length others <= 7)%nat) by (unfold others; rewrite length_take; unfold numberOfPorts; lia).
  split; [cbn [length]; rewrite length_app, length_replicate; unfold numberOfPorts in *; lia|]. exists d. split; [done|]. split; [done|]. constructor; [by left|].
  apply Forall_app. split; [|apply Forall_replicate; by left]. unfold others. apply Forall_take, Forall_fmap. apply Forall_forall. intros p [Hp _]%list_elem_of_filter. by right.
Qed.

(** ** What every call keeps: the pins of the connectors, and that an open GPIO has all connectors open *)
Record gpio_ok (ps : list (Z * nat)) (s : gpio) : Prop := {
  ok_sorted : OrdMap.sorted (connector_ s); ok_pins : all_pins s = ps; ok_open : isopen s = true -> Forall (fun c => _isopen c.2 = true) (connector_ s) }.
Lemma set_heap_ok ps h s : gpio_ok ps s -> gpio_ok ps (set_heap h s).
Proof. by intros [? ? ?]. Qed.
Lemma on_heap_keeps {A} ps (m : M heap A) : keeps (gpio_ok ps) (on_heap m).
Proof. intros s Hs. unfold on_heap, zoom. destruct (m (heap_ s)) as [o h]. by apply set_heap_ok. Qed.
Lemma all_pins_flag (s : gpio) pre k b c cs : connector_ s = pre ++ (k, c) :: cs -> OrdMap.sorted (connector_ s) ->
  all_pins (set_connectors (OrdMap.put k (set_copen b c) (connector_ s)) s) = all_pins s /\
  connector_ (set_connectors (OrdMap.put k (set_copen b c) (connector_ s)) s) = (pre ++ [(k, set_copen b c)]) ++ cs.
Proof.
  intros Hc Hs. rewrite Hc in Hs. unfold all_pins. cbn [connector_ set_connectors]. rewrite Hc, OrdMap.put_replace by done. rewrite <- app_assoc. split; [|done]. by rewrite !bind_app.
Qed.
Lemma open_connectors_ok cs : forall pre s o s', connector_ s = pre ++ cs -> OrdMap.sorted (connector_ s) -> Forall (fun c => _isopen c.2 = true) pre ->
  open_connectors PD cs s = (o, s') -> OrdMap.sorted (connector_ s') /\ all_pins s' = all_pins s /\ isopen s' = isopen s /\ (o = Ok true -> Forall (fun c => _isopen c.2 = true) (connector_ s')).
Proof.
  induction cs as [|[k c] cs IH]; intros pre s o s' Hc Hs Hp; cbn [open_connectors].
  - intros [= <- <-]. rewrite Hc, app_nil_r in *. done.
  - unfold mbind at 1, M_bind at 1. unfold open_connector. destruct (_isopen c) eqn:Eo.
    + cbn. apply (IH (pre ++ [(k, c)])); [by rewrite <- app_assoc|done|]. apply Forall_app. split; [done|]. by constructor.
    + unfold mbind at 1, M_bind at 1. unfold on_heap, zoom. destruct (open_pins PD (_pin c) (heap_ s)) as [[[]|e] h]; [|by intros [= <- <-]..].
      cbn [mbind M_bind mret M_ret modify]. set (s1 := set_heap h s). assert (Hc1 : connector_ s1 = pre ++ (k, c) :: cs) by done.
      destruct (all_pins_flag s1 pre k true c cs Hc1 Hs) as [Hpins Hconn]. unfold mbind, M_bind, mret, M_ret, modify. intros H.
      apply (IH (pre ++ [(k, set_copen true c)])) in H as (H1 & H2 & H3 & H4); [by rewrite H2|exact Hconn|by apply OrdMap.sorted_put|].
      apply Forall_app. split; [done|]. by constructor.
Qed.
Lemma driver_keeps {A} ps (m : M W A) : keeps (gpio_ok ps) (on_driver m).
Proof. apply on_heap_keeps. Qed.
Lemma open_keeps ps : keeps (gpio_ok ps) (Connector.open PD).
Proof.
  intros s Hs. unfold Connector.open. destruct (isopen s) eqn:Eo; [done|]. unfold mbind at 1, M_bind at 1.
  set (m := if test (accesslayer s) AccessLayerIoMap then _ else _).
  assert (Hm : gpio_ok ps (m s).2 /\ isopen (m s).2 = false /\ connector_ (m s).2 = connector_ s).
  { unfold m. destruct (test _ _); [|done]. split; [by apply driver_keeps|]. unfold on_driver, on_heap, zoom. by destruct (g_open _). }
  destruct (m s) as [[b|e] s0]; [|apply Hm]. destruct Hm as (Hok & Ho0 & Hc0). cbn [snd] in *. destruct b; cbn [negb]; [|done].
  unfold mbind at 1, M_bind at 1. destruct (open_connectors PD (connector_ s) s0) as [o s1] eqn:E. destruct Hok as [Hsort Hpins _].
  apply (open_connectors_ok _ []) in E as (H1 & H2 & H3 & H4); [|done|done|constructor].
  assert (Hnot : gpio_ok ps s1) by (split; [done|congruence|congruence]). destruct o as [[]|e]; [|done..].
  split; [done|by rewrite <- Hpins|]. intros _. by apply H4.
Qed.
Lemma at_pin_keeps {A} ps n (m : PinDevice W -> M (pin W) A) : keeps (gpio_ok ps) (at_pin PD n m).
Proof. intros s Hs. unfold at_pin. destruct (pin_at n s) as [l|]; [|done]. by apply on_heap_keeps. Qed.
Lemma locked_keeps ps n : keeps (gpio_ok ps) (pinLocked PD spi n).
Proof.
  unfold pinLocked. destruct (broadcomBcm2835 spi); [apply keeps_ret|]. apply keeps_bind; [apply open_keeps|]. intros []; [|apply keeps_ret].
  destruct (spi_isOpen spi || default_exists spi); [|apply keeps_ret]. apply keeps_bind; [apply keeps_gets|]. intros [d|]; [|apply keeps_throw].
  destruct (negb _ && _); [|apply keeps_ret]. apply keeps_bind; [apply on_heap_keeps|]. intros ?. apply keeps_ret.
Qed.
Lemma step_keeps ps c : keeps (gpio_ok ps) (step c).
Proof.
  destruct c as [n m|n v|n|n|n e d|n|n ops]; cbn [step]; try apply at_pin_keeps.
  - unfold pinMode. apply keeps_bind; [apply locked_keeps|]. intros []; [apply keeps_ret|]. apply keeps_bind; [apply open_keeps|]. intros []; unfold Core.when; [|apply keeps_ret].
    apply keeps_bind; [destruct (negb _); [apply at_pin_keeps|apply keeps_ret]|]. intros _. destruct (negb _); [apply at_pin_keeps|apply keeps_ret].
  - apply keeps_bind; [apply at_pin_keeps|]. intros ?. apply keeps_ret.
  - apply keeps_bind; [apply locked_keeps|]. intros []; [apply keeps_ret|apply at_pin_keeps].
Qed.
Lemma played_keeps ps cs : forall g, gpio_ok ps g -> gpio_ok ps (played cs g).
Proof. induction cs as [|c cs IH]; intros g Hg; [done|]. by apply IH, step_keeps. Qed.

(** Closing changes the flag of the GPIO last. *)
Lemma close_flag : forall g, isopen g = true -> match closeall g with (Ok _, g2) => isopen g2 = false | (Throw _, g2) => isopen g2 = true end.
Proof.
  intros g Ho. unfold closeall, Connector.close. rewrite Ho.
  assert (Hk : forall cs, keeps (fun g : gpio => isopen g = true) (close_connectors PD cs)).
  { induction cs as [|[k c] cs IH]; cbn [close_connectors]; [apply keeps_ret|]. apply keeps_bind; [|done]. intros s Hs. unfold close_connector.
    destruct (_isopen c); [|done]. unfold mbind, M_bind, on_heap, zoom. by destruct (close_pins _ _ _ _) as [[[]|e] h]. }
  unfold mbind at 1, M_bind at 1. pose proof (Hk (connector_ g) g Ho) as H1. destruct (close_connectors PD _ g) as [[[]|e] g1]; [|done].
  unfold mbind at 1, M_bind at 1. unfold on_driver, on_heap, zoom. cbn in H1. by destruct (g_close (hw_ (heap_ g1))) as [[[]|e] w].
Qed.

(** C14: whatever a sketch has done, when the program ends or is interrupted between two calls no pin stays in use.  After every
    sequence of calls of the Arduino functions, each completed or left with an exception, from a GPIO that was never opened: if the
    GPIO is open then, the closing closes every pin of every connector and says that it is closed, so that it can be opened again,
    unless a pin refuses to be closed with an exception, and then the GPIO still says that it is open; if it is not open, the
    closing does nothing. *)
Theorem sketch_interrupted cs g : OrdMap.sorted (connector_ g) -> isopen g = false ->
  let g1 := played cs g in
  if isopen g1 then
    match closeall g1 with
    | (Ok _, g2) => isopen g2 = false /\ Forall (fun c => _isopen c.2 = false) (connector_ g2) /\ all_pins g2 = all_pins g /\
        forall k l, (k, l) ∈ all_pins g -> pin_closed l (heap_ g2)
    | (Throw _, g2) => isopen g2 = true
    end
  else closeall g1 = (Ok tt, g1).
Proof.
  intros Hs Ho g1. assert (Hok : gpio_ok (all_pins g) g) by (split; [done|done|by rewrite Ho]).
  destruct (played_keeps _ cs g Hok) as [Hs1 Hp1 Hf1]. fold g1 in Hs1, Hp1, Hf1.
  destruct (isopen g1) eqn:Ho1; [|unfold closeall, Connector.close; by rewrite Ho1].
  pose proof (close_flag g1 Ho1) as Hflag. destruct (closeall g1) as [[[]|e] g2] eqn:Hc; [|done].
  destruct (close_all PD g1 g2 Ho1 Hs1 (Hf1 eq_refl) Hc) as (H1 & H2 & H3). split; [done|].
  split; [rewrite H2; unfold flag_all; apply Forall_fmap, Forall_true; done|]. split; [unfold all_pins; rewrite H2, flag_pins; exact Hp1|]. by rewrite <- Hp1.
Qed.
End Program.

(** ** The options *)
Lemma daemon_options : (isDaemon <$> match parse_options [text "-v"; text "-D"] with inr p => Some p | _ => None end) = Some true /\
  (isDaemon <$> match parse_options [text "--daemon"; text "x"] with inr p => Some p | _ => None end) = Some true /\
  (isDaemon <$> match parse_options [text "--verbose"] with inr p => Some p | _ => None end) = Some false.
Proof. split_and!; vm_compute; reflexivity. Qed.
End Sketch.

Module SketchDemo.
Import Sketch Connector Core ConnectorDemo.
#[local] Existing Instances Bcm2835.Demo.device_regs Bcm2835.Demo.device_2711 GpioDev2.Demo.demo_lines PinBcm2711.beside ConnectorDemo.driver.
Definition no_lock : Core.spi_info := Core.mk_spi true false false (Core.mk_cs ModeUnknown 0) (Core.mk_cs ModeUnknown 0).
Definition calls : list call :=
  [PinMode 8 OUTPUT; DigitalWrite 8 1; DigitalToggle 8; PinMode 9 INPUT_PULLUP; DigitalRead 9; DigitalWrite 77 1;
   AnalogWrite 8 [GpioPin.SetMode ModeOutput; GpioPin.Write true]].
Definition g1 : gpio := played PD no_lock calls board.
Lemma sketch_interrupted_witness : (isopen g1 = true /\ (closeall PD g1).1 = Ok tt) /\
  if isopen g1 then
    match closeall PD g1 with
    | (Ok _, g2) => isopen g2 = false /\ Forall (fun c => _isopen c.2 = false) (connector_ g2) /\ all_pins g2 = all_pins board /\
        forall k l, (k, l) ∈ all_pins board -> pin_closed l (heap_ g2)
    | (Throw _, g2) => isopen g2 = true
    end
  else closeall PD g1 = (Ok tt, g1).
Proof.
  split; [split; vm_compute; reflexivity|].
  apply (sketch_interrupted PD no_lock calls board); [vm_compute; repeat constructor|vm_compute; reflexivity].
Defined.
End SketchDemo.
